(* ===== verification/_CoqProject ===== *)
-Q . S2P
Prelude.v
GoStr.v
Utf8.v
Regex.v
Float64.v
GoStd.v
ToonValue.v
ToonQuote.v
ToonNumbers.v
ToonEncode.v
ToonWriter.v
ToonEncodeSpec.v
ToonProps.v
Config.v
Registry.v
RegistryProps.v
Response.v
ResponseProps.v
JsonText.v
Jq.v
ExcludePath.v
Content.v
Projection.v
ProjectionProps.v
JsonToken.v
GoError.v
Startup.v
Install.v
InstallProps.v
AuthHeader.v
JsonTokenProps.v
JsonObject.v
JsonCompact.v
JsonParts.v
JsonTree.v
JsonMeaning.v
RequestMeta.v
OutputSchema.v
ResultDoc.v
HttpHeaders.v
OutputSchemaProps.v
NoticeSchema.v
FromJSON.v
Url.v
Sse.v
Ssrf.v
OAuth.v
UrlProps.v
Threads.v
TokenProvider.v
Discovery.v
DiscoveryProps.v
ToolsList.v
Rpc.v
Stdio.v
StdioSetup.v
JsonIndent.v
AgentJSON.v
AgentTOML.v
HttpReply.v
HttpClient.v
HttpClientProps.v
HttpListener.v
Invoke.v
EnvExpand.v
Refresher.v
Reconnect.v
NameLocks.v
ToolsChanged.v
Sessions.v
SessionConns.v
Dispatch.v
Endpoint.v
ReadTool.v
ProxyCall.v
Proxy.v
