(* ===== verification/Prelude.v ===== *)
(** * Verification of mini, a proxy for MCP servers

    mini stands between a coding agent and the MCP servers the user configured.  It
    keeps a registry of the tools of every server, forwards calls, shrinks the results
    (projection, jq filters, TOON) and keeps the full results on disk.  This library
    models the parts of the program that compute and keep state, in Go under
    [src/internal], and proves what makes each of them correct.

    ** How the code is modelled

    - A Go string or byte slice is a Rocq [string] (a list of bytes); runes are decoded
      as package [unicode/utf8] does.  Integers are [Z], with the wrap-around written out
      where the code can reach it.  Times are nanoseconds in [Z].
    - A function that returns [(T, error)] returns [res E T] ([Ok] or [Err]).
    - A map is stdpp's [gmap].  Where the code iterates over a map and the order could
      matter, the order is an argument, and the theorem holds for every order.
    - What runs under one mutex is one function of the state.  Goroutines interleave
      between such functions: an [Inductive] step relation per component.
    - The standard library is modelled, not assumed: UTF-8, the regular expressions used,
      [strconv] including floats, [path/filepath], [net/url], [net.ParseIP], the scanner and
      the token reader of [encoding/json].  Parameters are third-party code (gojq, goldmark,
      x/net/html, x/oauth2), the file system, the network, the clock, the random source and
      Unicode's table of lower-case letters outside ASCII.

    ** Files, in dependency order

    Foundations
    - Prelude.v: results, bytes, shared tactics; Threads.v: counting the threads in a state;
      GoError.v: errors and what [errors.Is] and [errors.As] find in them.
    - GoStr.v, Utf8.v, Utf8Prefix.v, Regex.v, Float64.v, GoStd.v, JsonText.v, JsonValid.v,
      JsonToken.v, JsonTokenProps.v: Go's strings, UTF-8, anchored regular expressions (by
      derivatives), binary64, integers and paths, JSON text, [json.Valid], [json.Decoder].
    - JsonObject.v (objects as maps of raw values), JsonCompact.v (the encoder's compaction),
      JsonParts.v (texts of one value, and what is read back from an encoded object),
      JsonTree.v (values decoded into [any]), JsonMeaning.v (a grammar of JSON texts, and that
      encoding again keeps their meaning).

    TOON ([internal/toon])
    - ToonValue.v (value.go), ToonQuote.v (quote.go), ToonNumbers.v (numbers.go),
      ToonEncode.v (encode.go, array.go, keyed.go), ToonWriter.v and ToonTabular.v and
      ToonEncodeSpec.v (lemmas), ToonProps.v (theorems), FromJSON.v (fromjson.go).

    Tools and servers ([internal/config], [internal/registry], [internal/server])
    - Config.v (names, permissions, formats), Registry.v and RegistryProps.v (the registry
      and its aliases), Startup.v (what agents are told while servers start), Install.v
      and InstallProps.v (installs, refreshes and removals interleaved with lookups),
      NameLocks.v (locks per server name).
    - ToolsList.v (tools_list.go: pages and freshness), Refresher.v (tool_list_refresher.go),
      Reconnect.v (upstream_reconnect.go).

    Sessions ([internal/server])
    - Sessions.v (session.go, session_store.go: calls, evictions, shutdown), SessionConns.v
      (per-session connections, with dispatch.go), ToolsChanged.v (tools_changed.go).

    Results ([internal/response], [internal/jq], [internal/projection])
    - Response.v and ResponseProps.v (the store of full results, envelopes), Jq.v and
      JqProps.v (paths, bounded output), ExcludePath.v (the language of exclusion rules),
      Content.v (markup stripping), Projection.v and ProjectionProps.v (the walk).
    - OutputSchema.v (proxy_output_schema.go, proxy_schema.go), ResultDoc.v (mcp_result.go,
      proxy_result_doc.go, proxy_result.go), OutputSchemaProps.v and NoticeSchema.v (what a
      JSON schema means, and that results fit the announced schema).

    Network ([internal/transport], [internal/proxy])
    - RequestMeta.v (request_meta.go, result_type.go, version.go, tool_call_mrtr.go: requests
      between protocol versions), HttpHeaders.v (http_param_headers.go, http_param_schema.go),
      Sse.v (event streams), Ssrf.v (address policy), Proxy.v (the bridge between an agent's
      stdio and the daemon); NetAddr.v and Url.v are Go's IP addresses and URLs.
    - Rpc.v (mcp.go, mcputil.go, discover.go, subscriptions.go: what is decoded from a server
      and what a discovery means), Stdio.v (stdio*.go, pending.go, tools_changed_notifier.go:
      calls, the reader, the subscription and Close interleaved), StdioSetup.v
      (stdio_negotiate.go: the protocol a subprocess is spoken to in).

    OAuth ([internal/auth], [internal/auth/provider])
    - AuthHeader.v (Bearer challenges), OAuth.v (logins, clients, resources, the callback),
      UrlProps.v (canonical names of resources), Discovery.v and DiscoveryProps.v (every request
      of discovery, registration and login resolution), TokenProvider.v (the provider of one
      server and the registry of providers).

    Agents' own files ([internal/agents])
    - JsonIndent.v (indented JSON and reading it back), AgentJSON.v (connect.go, edit_json.go:
      agents whose configuration is JSON), AgentTOML.v (toml_lines.go, edit_codex.go: Codex,
      whose configuration is TOML).

    ** What the theorems show

    - Refinement: the registry's three maps implement one map from server to its last
      registered parameters ([registry_refines]); stripping HTML keeps exactly the visible
      text ([StripHTML_visible]).
    - Invariants under interleaving: the store's byte count is exact and every file is
      tracked once ([store_accounting]); the lock of a name is exclusive and its entry is
      never leaked ([name_locks_safe]); the bridge resolves the daemon once per generation;
      sessions with a call are not evicted ([sessions_in_use]); per-session and reconnected
      connections have one owner ([session_conns_safe], [reconnect_safe]); one refresh runs
      at a time and stale lists are not served as fresh ([refresher_safe]); a change of the
      tools is kept until it is read ([tools_change_kept]).
    - OAuth: a removed server's provider is silent and no server has two ([providers_safe]); a
      refused refresh token is not sent again ([dead_refresh_never_resent]) and an expired token
      is not served while it could be refreshed ([expired_never_served]); discovery enters the
      private network only for a private server the user configured, once it has answered
      ([private_network_guarded]); a login is built on metadata of the issuer the server names
      ([metadata_named]) and bound to it ([login_bound]).
    - Protocol versions and headers: prepared parameters keep what the caller sent
      ([prepared_params]); the headers of a call cannot be forged by its arguments
      ([tool_call_headers], [header_parameters_spec]).
    - Other programs' files: an edit changes the servers it was asked to change and nothing
      else ([connect_json_keeps], [codex_edit_keeps]).
    - Subprocesses: a call returns the response to its own request and the reader never waits
      ([stdio_responses_routed]); one goroutine writes at a time and nothing follows a line cut
      short once the goroutine that broke it has ended the connection ([stdin_framing]); the
      protocol is one the server offered ([negotiated_era]).
    - Liveness: a requested refresh is run ([request_served]); after a connection has ended
      every call returns ([stdio_calls_end]).
    - Safety: a tool is reported unknown only when its server is registered without it
      ([lookup_not_found_justified]); an install begun before a removal never registers
      ([removed_install_refused]); a message is resent only when it was not processed
      ([forward_never_doubles]); excluded fields never appear ([excluded_paths_absent]);
      hidden tools are never found; only validated addresses are dialled; a trimmed result
      fits the schema announced for it ([trimmed_result_valid]).
    - Round trips: decoded and encoded JSON objects ([reencode_same_value]), TOON rows, printed
      JSON, challenge parameters, event streams, exclusion rules, stored results; the canonical
      name of a resource is its own canonical name ([canonical_idempotent]).
    - Bounds and errors: documents of at most 4 MiB, nesting, jq output, event sizes, the
      exact IPv4 ranges refused.
    - Termination: encoding, decoding, reading and pagination never run out of fuel.

    ** Fuel

    [writer_fuel] of ToonEncode.v is six calls per level of nesting and is enough for any
    value ([encode_not_out_of_fuel]); [decode_fuel] of FromJSON.v is twice the length of the
    document, since each token takes a byte ([fromJSON_wellformed]); the readers of event
    streams get one unit per byte; [runQuery] one per result within the limit.  A schema is
    loosened with three units per level and placed with one, which is enough for every
    decoded schema ([loosen_fuel_enough], [place_fuel_enough]).

    ** Not modelled

    The command line and its screens, the daemon's process management, the exchange of codes and
    tokens (golang.org/x/oauth2) and the browser, the HTTP transport, the
    configuration files and the files of other programs: mostly input and output around the
    parts above.  PROJECT.json lists every part.  Log output is left out everywhere. *)
From Stdlib Require Export ZArith Lia Bool Ascii String.
From stdpp Require Export base tactics list strings gmap fin_maps sorting pretty.

#[global] Open Scope string_scope.
#[global] Open Scope list_scope.
#[global] Open Scope Z_scope.
#[global] Arguments String.append : simpl nomatch.

(** ** Fallible code: a Go function returning [(T, error)] *)
Inductive res (E A : Type) : Type :=
| Ok (a : A)
| Err (e : E).
Arguments Ok {E A} a.
Arguments Err {E A} e.

Definition rbind {E A B} (m : res E A) (k : A -> res E B) : res E B :=
  match m with Ok a => k a | Err e => Err e end.

Declare Scope go_scope.
Notation "'let*' x := m 'in' k" := (rbind m (fun x => k))
  (at level 10, x name, m at level 100, k at level 200) : go_scope.
Notation "'let*' ' p := m 'in' k" := (rbind m (fun p => k))
  (at level 10, p pattern, m at level 100, k at level 200) : go_scope.
#[global] Open Scope go_scope.

Definition is_ok {E A} (m : res E A) : bool :=
  match m with Ok _ => true | Err _ => false end.

#[global] Instance res_eq_dec {E A} `{EqDecision E, EqDecision A} : EqDecision (res E A).
Proof. solve_decision. Defined.

Lemma rbind_Ok {E A B} (m : res E A) (k : A -> res E B) b :
  rbind m k = Ok b <-> exists a, m = Ok a /\ k a = Ok b.
Proof. destruct m; simpl; split; [eauto | intros (? & [= ->] & ?); done | done | intros (? & ? & ?); done]. Qed.

Lemma rbind_Err {E A B} (m : res E A) (k : A -> res E B) e :
  rbind m k = Err e <-> m = Err e \/ exists a, m = Ok a /\ k a = Err e.
Proof.
  destruct m as [a|e']; simpl; split.
  - intros H. right. by exists a.
  - intros [?|(? & [= ->] & ?)]; done.
  - intros [= ->]. by left.
  - intros [?|(? & ? & ?)]; congruence.
Qed.

(** [for _, x := range l { if err := f(x); err != nil { return err } }] with a threaded state. *)
Fixpoint for_each {E A S} (f : S -> A -> res E S) (l : list A) (s : S) : res E S :=
  match l with
  | [] => Ok s
  | x :: l => let* s' := f s x in for_each f l s'
  end.

Lemma for_each_app {E A S} (f : S -> A -> res E S) l1 l2 s :
  for_each f (l1 ++ l2) s = let* s' := for_each f l1 s in for_each f l2 s'.
Proof. revert s. induction l1 as [|x l1 IH]; intros s; simpl; [done|]. destruct (f s x); simpl; auto. Qed.

(** ** Tactics *)
Ltac deex :=
  repeat match goal with
  | H : exists x, _ |- _ => let x' := fresh x in destruct H as [x' H]
  | H : _ /\ _ |- _ => destruct H
  end.

Ltac bool_to_prop :=
  repeat first
    [ rewrite andb_true_iff in * | rewrite orb_true_iff in * | rewrite negb_true_iff in *
    | rewrite andb_false_iff in * | rewrite orb_false_iff in * | rewrite negb_false_iff in *
    | rewrite Z.leb_le in * | rewrite Z.ltb_lt in * | rewrite Z.leb_gt in *
    | rewrite Z.ltb_ge in * | rewrite Z.eqb_eq in * | rewrite Z.eqb_neq in * ].

(** Split a successful [let*] chain in [H] into its steps. *)
Ltac inv_ok H :=
  match type of H with
  | rbind ?m _ = Ok _ =>
      let a := fresh "v" in let E := fresh "E" in
      apply rbind_Ok in H as (a & E & H)
  end.

(** ** Bytes *)
Definition bz (c : ascii) : Z := Z.of_N (N_of_ascii c).
Definition az (z : Z) : ascii := ascii_of_N (Z.to_N z).

Lemma bz_range c : 0 <= bz c < 256.
Proof. unfold bz. pose proof (N_ascii_bounded c). lia. Qed.

Lemma bz_az z : 0 <= z < 256 -> bz (az z) = z.
Proof. intros H. unfold bz, az. rewrite N_ascii_embedding; lia. Qed.

Lemma az_bz c : az (bz c) = c.
Proof. unfold bz, az. rewrite N2Z.id. apply ascii_N_embedding. Qed.

Lemma bz_inj c d : bz c = bz d -> c = d.
Proof. intros H. rewrite <- (az_bz c), <- (az_bz d). by rewrite H. Qed.

(** Case analysis on a byte as 256 goals, for decidable facts about single bytes. *)
Lemma ascii_forall_dec (P : ascii -> bool) :
  forallb (fun n => P (ascii_of_nat n)) (seq 0 256) = true -> forall c, P c = true.
Proof.
  intros H c. rewrite forallb_forall in H.
  rewrite <- (ascii_nat_embedding c). apply H, in_seq.
  pose proof (nat_ascii_bounded c). lia.
Qed.

Lemma ascii_impl_dec (p q : ascii -> bool) :
  forallb (fun n => implb (p (ascii_of_nat n)) (q (ascii_of_nat n))) (seq 0 256) = true ->
  forall c, p c = true -> q c = true.
Proof.
  intros H c Hp. pose proof (ascii_forall_dec (fun c => implb (p c) (q c)) H c) as Hc.
  cbv beta in Hc. by rewrite Hp in Hc.
Qed.

Lemma ascii_eqb_spec (a b : ascii) : reflect (a = b) (Ascii.eqb a b).
Proof. apply Ascii.eqb_spec. Qed.

Definition in_range (lo hi : Z) (c : ascii) : bool := (lo <=? bz c) && (bz c <=? hi).
Definition is_digit (c : ascii) : bool := in_range 48 57 c.
Definition is_lower (c : ascii) : bool := in_range 97 122 c.
Definition is_upper (c : ascii) : bool := in_range 65 90 c.
Definition is_alnum (c : ascii) : bool := is_lower c || is_upper c || is_digit c.
