(* ===== verification/GoStr.v ===== *)
(** * Go byte strings

    Go's [string] is a sequence of bytes; it is modelled by Rocq's [string], whose
    characters are 8-bit.  The functions of Go's package [strings] that the program
    uses are defined here, with the lemmas on concatenation, length and prefixes
    that the components share. *)
From S2P Require Import Prelude.

Definition slen (s : string) : Z := Z.of_nat (String.length s).

Lemma slen_nonneg s : 0 <= slen s.
Proof. unfold slen. lia. Qed.

Lemma str_length_app a b : String.length (a +:+ b) = (String.length a + String.length b)%nat.
Proof. induction a; simpl; congruence. Qed.

Lemma slen_app a b : slen (a +:+ b) = slen a + slen b.
Proof. unfold slen. rewrite str_length_app. lia. Qed.

Lemma str_app_assoc a b c : a +:+ (b +:+ c) = (a +:+ b) +:+ c.
Proof. induction a; simpl; congruence. Qed.

Lemma str_app_nil_r a : a +:+ "" = a.
Proof. induction a; simpl; congruence. Qed.

Lemma str_app_inv_head a b c : a +:+ b = a +:+ c -> b = c.
Proof. induction a; simpl; [done|]. intros [= H]. auto. Qed.

Lemma str_app_cons c a b : String c a +:+ b = String c (a +:+ b).
Proof. done. Qed.

Lemma str_app_inv_tail a b c : a +:+ c = b +:+ c -> a = b.
Proof.
  revert b. induction a as [|x a IH]; intros [|y b] H; simpl in *; try done.
  - apply (f_equal String.length) in H. simpl in H. rewrite str_length_app in H. lia.
  - apply (f_equal String.length) in H. simpl in H. rewrite str_length_app in H. lia.
  - injection H as -> H. f_equal. auto.
Qed.

Lemma str_app_eq_nil a b : a +:+ b = "" -> a = "" /\ b = "".
Proof. destruct a; simpl; [auto|done]. Qed.

Create Rewrite HintDb gostr.
#[export] Hint Rewrite slen_app str_length_app str_app_nil_r : gostr.

(** Concatenation of a list of strings, and [strings.Join]. *)
Definition concat_str (l : list string) : string := foldr String.append "" l.

Lemma concat_str_app l1 l2 : concat_str (l1 ++ l2) = concat_str l1 +:+ concat_str l2.
Proof. induction l1; simpl; [done|]. by rewrite IHl1, str_app_assoc. Qed.

Fixpoint join (sep : string) (l : list string) : string :=
  match l with
  | [] => ""
  | [x] => x
  | x :: l => x +:+ sep +:+ join sep l
  end.

(** [strings.Repeat]. *)
Fixpoint str_repeat (s : string) (n : nat) : string :=
  match n with O => "" | S n => s +:+ str_repeat s n end.

(** Byte predicates over a whole string. *)
Fixpoint str_forall (p : ascii -> bool) (s : string) : bool :=
  match s with "" => true | String c s => p c && str_forall p s end.

Definition str_exists (p : ascii -> bool) (s : string) : bool := negb (str_forall (fun c => negb (p c)) s).

Lemma str_forall_app p a b : str_forall p (a +:+ b) = str_forall p a && str_forall p b.
Proof. induction a; simpl; [done|]. by rewrite IHa, andb_assoc. Qed.

Lemma str_forall_impl (p q : ascii -> bool) s :
  (forall c, p c = true -> q c = true) -> str_forall p s = true -> str_forall q s = true.
Proof.
  intros Hpq. induction s as [|c s IH]; simpl; [done|].
  rewrite !andb_true_iff. intros [? ?]. auto.
Qed.

Lemma str_exists_app p a b : str_exists p (a +:+ b) = str_exists p a || str_exists p b.
Proof. unfold str_exists. by rewrite str_forall_app, negb_andb. Qed.

Lemma str_exists_false p s : str_exists p s = false <-> str_forall (fun c => negb (p c)) s = true.
Proof. unfold str_exists. by rewrite negb_false_iff. Qed.

(** A string built byte by byte. *)
Fixpoint str_flat_map (f : ascii -> string) (s : string) : string :=
  match s with "" => "" | String c s => f c +:+ str_flat_map f s end.

Lemma str_flat_map_app f a b : str_flat_map f (a +:+ b) = str_flat_map f a +:+ str_flat_map f b.
Proof. induction a; simpl; [done|]. by rewrite IHa, str_app_assoc. Qed.

(** [strings.ContainsAny(s, chars)], for ASCII [chars]. *)
Fixpoint byte_in (c : ascii) (chars : string) : bool :=
  match chars with "" => false | String d chars => Ascii.eqb c d || byte_in c chars end.
Definition contains_any (s chars : string) : bool := str_exists (fun c => byte_in c chars) s.

Lemma str_forall_no_byte (p : ascii -> bool) c s : p c = false -> str_forall p s = true -> byte_in c s = false.
Proof.
  intros Hp. induction s as [|d s IH]; [done|]. simpl. intros [Hd Hs]%andb_true_iff.
  apply orb_false_iff. split; [|by apply IH].
  apply Ascii.eqb_neq. intros ->. congruence.
Qed.

Lemma byte_in_app c a b : byte_in c (a +:+ b) = byte_in c a || byte_in c b.
Proof. induction a as [|d a IH]; [done|]. cbn [String.append byte_in]. by rewrite IH, orb_assoc. Qed.

(** [strings.HasPrefix], [strings.TrimPrefix]: argument order as in Go. *)
Fixpoint has_prefix (s prefix : string) {struct prefix} : bool :=
  match prefix, s with
  | "", _ => true
  | String p prefix, String c s => Ascii.eqb c p && has_prefix s prefix
  | String _ _, "" => false
  end.

Fixpoint str_drop (n : nat) (s : string) : string :=
  match n, s with
  | O, _ => s
  | S n, String _ s => str_drop n s
  | S _, "" => ""
  end.

Fixpoint str_take (n : nat) (s : string) : string :=
  match n, s with
  | S n, String c s => String c (str_take n s)
  | _, _ => ""
  end.

Definition trim_prefix (s prefix : string) : string :=
  if has_prefix s prefix then str_drop (String.length prefix) s else s.

(** [strings.HasSuffix], [strings.TrimSuffix]. *)
Definition has_suffix (s suffix : string) : bool :=
  Nat.leb (String.length suffix) (String.length s) &&
  String.eqb (str_drop (String.length s - String.length suffix) s) suffix.

Definition trim_suffix (s suffix : string) : string :=
  if has_suffix s suffix then str_take (String.length s - String.length suffix) s else s.

(** [strings.TrimLeft(s, cutset)] for an ASCII cutset. *)
Fixpoint trim_left (s cutset : string) : string :=
  match s with
  | "" => ""
  | String c s' => if byte_in c cutset then trim_left s' cutset else s
  end.

(** [strings.Cut(s, sep)] for a one-byte separator. *)
Fixpoint cut_byte (s : string) (sep : ascii) : string * string * bool :=
  match s with
  | "" => ("", "", false)
  | String c s' =>
      if Ascii.eqb c sep then ("", s', true)
      else let '(before, after, found) := cut_byte s' sep in (String c before, after, found)
  end.

(** [strings.Split(s, sep)] for a one-byte separator. *)
Fixpoint split_byte (s : string) (sep : ascii) : list string :=
  match s with
  | "" => [""]
  | String c s' =>
      if Ascii.eqb c sep then "" :: split_byte s' sep
      else match split_byte s' sep with
           | [] => [String c ""]
           | x :: l => String c x :: l
           end
  end.

(** [strings.IndexByte]: [-1] is [None]. *)
Fixpoint index_byte (s : string) (b : ascii) : option nat :=
  match s with
  | "" => None
  | String c s' => if Ascii.eqb c b then Some O else S <$> index_byte s' b
  end.

Lemma str_take_drop n s : str_take n s +:+ str_drop n s = s.
Proof. revert s. induction n; intros [|c s]; simpl; congruence. Qed.

Lemma str_take_app_length a b : str_take (String.length a) (a +:+ b) = a.
Proof. induction a; simpl; [by destruct b|congruence]. Qed.

Lemma str_drop_app_length a b : str_drop (String.length a) (a +:+ b) = b.
Proof. induction a; simpl; auto. Qed.

Lemma str_length_drop n s : String.length (str_drop n s) = (String.length s - n)%nat.
Proof. revert s. induction n; intros [|c s]; simpl; auto; lia. Qed.

Lemma str_length_take n s : String.length (str_take n s) = (n `min` String.length s)%nat.
Proof. revert s. induction n; intros [|c s]; simpl; auto. Qed.

Lemma has_prefix_spec s p : has_prefix s p = true <-> exists t, s = p +:+ t.
Proof.
  revert s. induction p as [|a p IH]; intros s; simpl; [split; [by exists s|done]|].
  destruct s as [|c s]; [split; [done|by intros [? ?]]|].
  rewrite andb_true_iff, Ascii.eqb_eq, IH. split.
  - intros [-> [t ->]]. by exists t.
  - intros [t [= -> ->]]. eauto.
Qed.

Lemma trim_prefix_app p t : trim_prefix (p +:+ t) p = t.
Proof.
  unfold trim_prefix. replace (has_prefix (p +:+ t) p) with true.
  - apply str_drop_app_length.
  - symmetry. apply has_prefix_spec. eauto.
Qed.

Lemma has_suffix_spec s p : has_suffix s p = true <-> exists t, s = t +:+ p.
Proof.
  unfold has_suffix. rewrite andb_true_iff, Nat.leb_le, String.eqb_eq. split.
  - intros [Hle H]. exists (str_take (String.length s - String.length p) s).
    rewrite <- H at 2. by rewrite str_take_drop.
  - intros [t ->]. rewrite str_length_app. split; [lia|].
    replace (_ - _)%nat with (String.length t) by lia. apply str_drop_app_length.
Qed.

Lemma trim_suffix_app t p : trim_suffix (t +:+ p) p = t.
Proof.
  unfold trim_suffix. replace (has_suffix (t +:+ p) p) with true.
  - rewrite str_length_app. replace (_ - _)%nat with (String.length t) by lia.
    apply str_take_app_length.
  - symmetry. apply has_suffix_spec. eauto.
Qed.

Lemma cut_byte_spec s sep :
  match cut_byte s sep with
  | (a, b, true) => s = a +:+ String sep b /\ byte_in sep a = false
  | (a, b, false) => s = a /\ b = "" /\ byte_in sep a = false
  end.
Proof.
  induction s as [|c s IH]; simpl; [done|].
  destruct (Ascii.eqb_spec c sep) as [->|Hne]; [done|].
  assert (Ascii.eqb sep c = false) as Hs by (apply Ascii.eqb_neq; congruence).
  destruct (cut_byte s sep) as [[a b] []]; simpl; rewrite Hs; naive_solver.
Qed.

Lemma cut_byte_app a b sep : byte_in sep a = false -> cut_byte (a +:+ String sep b) sep = (a, b, true).
Proof.
  induction a as [|c a IH]; simpl; [by rewrite Ascii.eqb_refl|].
  rewrite orb_false_iff. intros [Hc Ha]. rewrite Ascii.eqb_sym in Hc. by rewrite Hc, IH.
Qed.

Lemma split_byte_nonempty s sep : split_byte s sep <> [].
Proof. destruct s as [|c s]; simpl; [done|]. destruct (Ascii.eqb c sep); [done|]. by destruct (split_byte s sep). Qed.

Lemma split_byte_join s sep : join (String sep "") (split_byte s sep) = s.
Proof.
  induction s as [|c s IH]; simpl; [done|].
  pose proof (split_byte_nonempty s sep) as Hne.
  destruct (Ascii.eqb_spec c sep) as [->|?]; destruct (split_byte s sep) as [|x [|y l]]; try done;
    cbn [join] in *; rewrite <- IH; done.
Qed.
