(* ===== verification/Utf8.v ===== *)
(** * UTF-8, as Go's package [unicode/utf8] decodes and encodes it

    [decode_rune] is [utf8.DecodeRuneInString]: the accept ranges of the first
    continuation byte are those of Go's [acceptRanges] table, and an ill-formed
    sequence decodes to [(RuneError, 1)].  [runes] is the sequence a
    [for _, r := range s] loop visits. *)
From S2P Require Import Prelude GoStr.

Definition RuneError : Z := 65533.

Definition is_cont (c : ascii) : bool := in_range 128 191 c.

(** The sequence length for a leading byte, with the accepted range of the second byte. *)
Definition first_byte (c : ascii) : option (nat * (Z * Z)) :=
  let b := bz c in
  if (194 <=? b) && (b <=? 223) then Some (2%nat, (128, 191))
  else if b =? 224 then Some (3%nat, (160, 191))
  else if (225 <=? b) && (b <=? 236) then Some (3%nat, (128, 191))
  else if b =? 237 then Some (3%nat, (128, 159))
  else if (238 <=? b) && (b <=? 239) then Some (3%nat, (128, 191))
  else if b =? 240 then Some (4%nat, (144, 191))
  else if (241 <=? b) && (b <=? 243) then Some (4%nat, (128, 191))
  else if b =? 244 then Some (4%nat, (128, 143))
  else None.

Definition rune2 (c0 c1 : ascii) : Z := (bz c0 - 192) * 64 + (bz c1 - 128).
Definition rune3 (c0 c1 c2 : ascii) : Z :=
  (bz c0 - 224) * 4096 + (bz c1 - 128) * 64 + (bz c2 - 128).
Definition rune4 (c0 c1 c2 c3 : ascii) : Z :=
  (bz c0 - 240) * 262144 + (bz c1 - 128) * 4096 + (bz c2 - 128) * 64 + (bz c3 - 128).

Definition decode_rune (s : string) : Z * nat :=
  match s with
  | "" => (RuneError, 0%nat)
  | String c0 s1 =>
      if bz c0 <? 128 then (bz c0, 1%nat)
      else match first_byte c0, s1 with
           | Some (n, (lo, hi)), String c1 s2 =>
               if negb (in_range lo hi c1) then (RuneError, 1%nat)
               else match n, s2 with
                    | 2%nat, _ => (rune2 c0 c1, 2%nat)
                    | 3%nat, String c2 _ =>
                        if is_cont c2 then (rune3 c0 c1 c2, 3%nat) else (RuneError, 1%nat)
                    | 4%nat, String c2 (String c3 _) =>
                        if is_cont c2 && is_cont c3 then (rune4 c0 c1 c2 c3, 4%nat)
                        else (RuneError, 1%nat)
                    | _, _ => (RuneError, 1%nat)
                    end
           | _, _ => (RuneError, 1%nat)
           end
  end.

(** [for _, r := range s]: [skip] counts the bytes of the current rune still to pass. *)
Fixpoint runes_from (skip : nat) (s : string) : list Z :=
  match s with
  | "" => []
  | String _ s' =>
      match skip with
      | S k => runes_from k s'
      | O => let '(r, n) := decode_rune s in r :: runes_from (pred n) s'
      end
  end.
Definition runes (s : string) : list Z := runes_from 0 s.

(** [utf8.RuneCountInString]. *)
Definition rune_count (s : string) : Z := Z.of_nat (length (runes s)).

(** [utf8.ValidString]. *)
Definition bad_rune (rn : Z * nat) : bool := (fst rn =? RuneError) && Nat.eqb (snd rn) 1.
Fixpoint valid_from (skip : nat) (s : string) : bool :=
  match s with
  | "" => true
  | String _ s' =>
      match skip with
      | S k => valid_from k s'
      | O => let rn := decode_rune s in negb (bad_rune rn) && valid_from (pred (snd rn)) s'
      end
  end.
Definition valid_utf8 (s : string) : bool := valid_from 0 s.

(** [strings.Builder.WriteRune]: surrogates and out-of-range runes are written as U+FFFD. *)
Definition encode_rune (r : Z) : string :=
  let r := if (r <? 0) || (1114111 <? r) || ((55296 <=? r) && (r <=? 57343)) then RuneError else r in
  if r <? 128 then String (az r) ""
  else if r <? 2048 then
    String (az (192 + r / 64)) (String (az (128 + r mod 64)) "")
  else if r <? 65536 then
    String (az (224 + r / 4096)) (String (az (128 + r / 64 mod 64)) (String (az (128 + r mod 64)) ""))
  else
    String (az (240 + r / 262144)) (String (az (128 + r / 4096 mod 64))
      (String (az (128 + r / 64 mod 64)) (String (az (128 + r mod 64)) ""))).

(** [utf8.DecodeLastRuneInString], the rune only. *)
Definition last_byte (s : string) : option ascii := String.get (pred (String.length s)) s.
Definition rune_start (c : ascii) : bool := negb (is_cont c).
(** The start of the last rune: at most three continuation bytes are passed going back. *)
Fixpoint last_start (back : nat) (s : string) (i : nat) : nat :=
  match back, i with
  | S back, S i' =>
      match String.get i' s with
      | Some c => if rune_start c then i' else last_start back s i'
      | None => i'
      end
  | _, _ => i
  end.
Definition decode_last_rune (s : string) : Z :=
  match last_byte s with
  | None => RuneError
  | Some c =>
      if bz c <? 128 then bz c
      else let start := last_start 3 s (pred (String.length s)) in
           let '(r, n) := decode_rune (str_drop start s) in
           if Nat.eqb (start + n) (String.length s) then r else RuneError
  end.

Example runes_ex : runes (String (az 104) (String (az 195) (String (az 169) (String (az 255) "!")))) = [104; 233; RuneError; 33].
Proof. reflexivity. Qed.

(** ** Decoding a well-formed sequence inverts encoding *)
Ltac byte_bounds :=
  repeat match goal with
  | c : ascii |- _ => lazymatch goal with
      | _ : 0 <= bz c < 256 |- _ => fail
      | _ => pose proof (bz_range c) end
  end.

Lemma az_eq z c : z = bz c -> az z = c.
Proof. intros ->. apply az_bz. Qed.

(** The four shapes of a well-formed sequence at the head of a string. *)
Inductive decoded (s : string) : Z -> nat -> Prop :=
| dec1 c t : s = String c t -> bz c < 128 -> decoded s (bz c) 1
| dec2 c0 c1 t : s = String c0 (String c1 t) ->
    194 <= bz c0 <= 223 -> 128 <= bz c1 <= 191 -> decoded s (rune2 c0 c1) 2
| dec3 c0 c1 c2 t : s = String c0 (String c1 (String c2 t)) ->
    224 <= bz c0 <= 239 -> 128 <= bz c1 <= 191 -> 128 <= bz c2 <= 191 ->
    (bz c0 = 224 -> 160 <= bz c1) -> (bz c0 = 237 -> bz c1 <= 159) ->
    decoded s (rune3 c0 c1 c2) 3
| dec4 c0 c1 c2 c3 t : s = String c0 (String c1 (String c2 (String c3 t))) ->
    240 <= bz c0 <= 244 -> 128 <= bz c1 <= 191 -> 128 <= bz c2 <= 191 -> 128 <= bz c3 <= 191 ->
    (bz c0 = 240 -> 144 <= bz c1) -> (bz c0 = 244 -> bz c1 <= 143) ->
    decoded s (rune4 c0 c1 c2 c3) 4.

Lemma first_byte_spec c n lo hi :
  first_byte c = Some (n, (lo, hi)) ->
  (n = 2%nat /\ 194 <= bz c <= 223 /\ lo = 128 /\ hi = 191) \/
  (n = 3%nat /\ 224 <= bz c <= 239 /\ 128 <= lo /\ hi <= 191 /\
     (bz c = 224 -> 160 <= lo) /\ (bz c = 237 -> hi <= 159)) \/
  (n = 4%nat /\ 240 <= bz c <= 244 /\ 128 <= lo /\ hi <= 191 /\
     (bz c = 240 -> 144 <= lo) /\ (bz c = 244 -> hi <= 143)).
Proof.
  unfold first_byte. repeat case_match; intros [= <- <- <-]; bool_to_prop; lia.
Qed.

Lemma decode_rune_inv s :
  decode_rune s = (RuneError, 0%nat) /\ s = "" \/
  decode_rune s = (RuneError, 1%nat) \/
  exists r n, decode_rune s = (r, n) /\ decoded s r n.
Proof.
  destruct s as [|c0 s]; [by left|right]. cbn [decode_rune].
  destruct (bz c0 <? 128) eqn:E0; bool_to_prop; [right; eauto using dec1|].
  destruct (first_byte c0) as [[n [lo hi]]|] eqn:Ef; [|by left].
  apply first_byte_spec in Ef.
  destruct s as [|c1 s]; [by left|]. destruct (in_range lo hi c1) eqn:E1; [simpl|by left].
  unfold in_range in E1. bool_to_prop.
  destruct Ef as [(-> & ? & -> & ->)|[(-> & ? & ? & ? & ? & ?)|(-> & ? & ? & ? & ? & ?)]].
  - right. eexists _, _. split; [done|]. eapply dec2; eauto.
  - destruct s as [|c2 s]; [by left|]. destruct (is_cont c2) eqn:E2; [|by left].
    unfold is_cont, in_range in E2. bool_to_prop.
    right. eexists _, _. split; [done|]. eapply dec3; eauto; lia.
  - destruct s as [|c2 [|c3 s]]; [by left..|].
    destruct (is_cont c2) eqn:E2; [simpl|by left]. destruct (is_cont c3) eqn:E3; [|by left].
    unfold is_cont, in_range in E2, E3. bool_to_prop.
    right. eexists _, _. split; [done|]. eapply dec4; eauto; lia.
Qed.

(** Decide the range tests of [encode_rune] by [lia], then recover each byte. *)
Ltac decide_tests :=
  repeat match goal with
  | |- context [if ?b then _ else _] =>
      first [ replace b with true by (symmetry; bool_to_prop; lia)
            | replace b with false by (symmetry; bool_to_prop; lia) ]
  end.
Ltac recover_byte c :=
  rewrite (az_eq _ c) by (unfold rune2, rune3, rune4 in *; Z.div_mod_to_equations; lia).

Lemma decoded_encode s r n :
  decoded s r n -> s = encode_rune r +:+ str_drop n s /\ n = String.length (encode_rune r).
Proof.
  destruct 1 as [c t -> H|c0 c1 t -> H0 H1|c0 c1 c2 t -> H0 H1 H2 Ha Hb|c0 c1 c2 c3 t -> H0 H1 H2 H3 Ha Hb];
    unfold encode_rune, RuneError; byte_bounds;
    [set (r := bz c)|set (r := rune2 _ _)|set (r := rune3 _ _ _)|set (r := rune4 _ _ _ _)];
    assert (Hr : r = r) by done; unfold r at 2 in Hr; unfold rune2, rune3, rune4 in Hr; cbv zeta;
    decide_tests; subst r.
  - by rewrite az_bz.
  - recover_byte c0. by recover_byte c1.
  - recover_byte c0. recover_byte c1. by recover_byte c2.
  - recover_byte c0. recover_byte c1. recover_byte c2. by recover_byte c3.
Qed.

(** ** Well-formed strings as sequences of encoded runes *)
Lemma runes_from_drop n s : runes_from n s = runes (str_drop n s).
Proof. revert n. induction s as [|c s IH]; intros [|n]; simpl; auto. Qed.

Lemma valid_from_drop n s : valid_from n s = valid_utf8 (str_drop n s).
Proof. revert n. induction s as [|c s IH]; intros [|n]; simpl; auto. Qed.

Lemma decoded_pos s r n : decoded s r n -> (0 < n)%nat.
Proof. destruct 1; lia. Qed.

Lemma runes_decoded s r n : decode_rune s = (r, n) -> decoded s r n -> runes s = r :: runes (str_drop n s).
Proof.
  intros E D. pose proof (decoded_pos _ _ _ D). destruct s as [|c s]; [by inversion D|].
  unfold runes. cbn [runes_from]. rewrite E. rewrite runes_from_drop.
  destruct n; [lia|done].
Qed.

Lemma valid_inv s :
  valid_utf8 s = true -> s = "" \/
  exists r n, decode_rune s = (r, n) /\ decoded s r n /\ valid_utf8 (str_drop n s) = true.
Proof.
  destruct s as [|c s]; [by left|]. intros H. right.
  unfold valid_utf8 in H. cbn [valid_from] in H. rewrite andb_true_iff, negb_true_iff in H.
  destruct H as [Hb Hv]. destruct (decode_rune_inv (String c s)) as [[_ ?]|[E|(r & n & E & D)]]; [done| |].
  - by rewrite E in Hb.
  - exists r, n. split_and!; [done..|]. rewrite E in Hv. simpl in Hv.
    rewrite valid_from_drop in Hv. pose proof (decoded_pos _ _ _ D). by destruct n; [lia|].
Qed.

(** Induction over a well-formed string, one rune at a time. *)
Lemma valid_ind (P : string -> Prop) :
  P "" ->
  (forall s r n, decode_rune s = (r, n) -> decoded s r n ->
     valid_utf8 (str_drop n s) = true -> P (str_drop n s) -> P s) ->
  forall s, valid_utf8 s = true -> P s.
Proof.
  intros H0 Hs s. remember (String.length s) as k eqn:Hk. revert s Hk.
  induction (lt_wf k) as [k _ IH]; intros s -> Hv.
  destruct (valid_inv s Hv) as [->|(r & n & E & D & V)]; [done|].
  eapply Hs; eauto. eapply (IH (String.length (str_drop n s))); [|done|done].
  rewrite str_length_drop. pose proof (decoded_pos _ _ _ D).
  assert (String.length s <> 0%nat) by (by inversion D; subst). lia.
Qed.

(** Re-encoding the runes of a well-formed string gives the string back. *)
Lemma encode_runes s : valid_utf8 s = true -> concat_str (map encode_rune (runes s)) = s.
Proof.
  revert s. apply valid_ind; [done|]. intros s r n E D _ IH.
  rewrite (runes_decoded s r n) by done. simpl. rewrite IH.
  by destruct (decoded_encode _ _ _ D) as [<- _].
Qed.

(** A rune is ASCII exactly when it was a single byte; a longer sequence has no ASCII byte. *)
Definition ascii_byte (c : ascii) : bool := bz c <? 128.

Lemma decoded_bytes s r n :
  decoded s r n ->
  (exists c, r = bz c /\ encode_rune r = String c "" /\ bz c < 128) \/
  (128 <= r /\ str_forall (fun c => negb (ascii_byte c)) (encode_rune r) = true).
Proof.
  intros D. destruct (decoded_encode _ _ _ D) as [E _].
  destruct D as [c t -> H|c0 c1 t -> H0 H1|c0 c1 c2 t -> H0 H1 H2 Ha Hb|c0 c1 c2 c3 t -> H0 H1 H2 H3 Ha Hb];
    [left|right..]; simpl in E.
  - exists c. split_and!; [done| |done]. change (String c t) with (String c "" +:+ t) in E.
    by apply str_app_inv_tail in E.
  - change (String c0 (String c1 t)) with (String c0 (String c1 "") +:+ t) in E.
    apply str_app_inv_tail in E. rewrite <- E. unfold rune2. split; [lia|].
    simpl. unfold ascii_byte. bool_to_prop. lia.
  - change (String c0 (String c1 (String c2 t))) with (String c0 (String c1 (String c2 "")) +:+ t) in E.
    apply str_app_inv_tail in E. rewrite <- E. unfold rune3. split; [lia|].
    simpl. unfold ascii_byte. bool_to_prop. lia.
  - change (String c0 (String c1 (String c2 (String c3 t))))
      with (String c0 (String c1 (String c2 (String c3 ""))) +:+ t) in E.
    apply str_app_inv_tail in E. rewrite <- E. unfold rune4. split; [lia|].
    simpl. unfold ascii_byte. bool_to_prop. lia.
Qed.

(** * Prefixes of well-formed UTF-8 strings

    Concatenation of well-formed strings, and cuts next to an ASCII byte. *)

Lemma decoded_decode s r n : decoded s r n -> decode_rune s = (r, n).
Proof.
  destruct 1 as [c t -> H|c0 c1 t -> H0 H1|c0 c1 c2 t -> H0 H1 H2 Ha Hb|c0 c1 c2 c3 t -> H0 H1 H2 H3 Ha Hb];
    cbn [decode_rune]; [by rewrite (proj2 (Z.ltb_lt _ _)) by lia|..];
    rewrite (proj2 (Z.ltb_ge _ _)) by lia; unfold first_byte; cbv zeta.
  - rewrite (proj2 (andb_true_iff _ _)) by lia. unfold in_range. by rewrite (proj2 (andb_true_iff _ _)) by lia.
  - assert (is_cont c2 = true) as Hc2 by (unfold is_cont, in_range; bool_to_prop; lia).
    destruct (decide (bz c0 = 224)) as [E|]; [|destruct (decide (bz c0 = 237)) as [E|]].
    1,2: rewrite E; unfold in_range; cbn; specialize (Ha ltac:(lia)) || specialize (Hb ltac:(lia));
      rewrite (proj2 (andb_true_iff _ _)) by lia; by rewrite Hc2.
    rewrite (proj2 (andb_false_iff _ _)) by lia. rewrite (proj2 (Z.eqb_neq _ 224)) by done.
    destruct ((225 <=? bz c0) && (bz c0 <=? 236)) eqn:E1.
    + unfold in_range. rewrite (proj2 (andb_true_iff (128 <=? _) _)) by lia. cbn. by rewrite Hc2.
    + rewrite (proj2 (Z.eqb_neq _ 237)) by done. apply andb_false_iff in E1.
      rewrite (proj2 (andb_true_iff (238 <=? _) _)) by lia. unfold in_range. rewrite (proj2 (andb_true_iff (128 <=? _) _)) by lia.
      cbn. by rewrite Hc2.
  - assert (is_cont c2 = true) as Hc2 by (unfold is_cont, in_range; bool_to_prop; lia).
    assert (is_cont c3 = true) as Hc3 by (unfold is_cont, in_range; bool_to_prop; lia).
    rewrite (proj2 (andb_false_iff _ (bz c0 <=? 223))) by lia. rewrite (proj2 (Z.eqb_neq _ 224)) by lia.
    rewrite (proj2 (andb_false_iff _ (bz c0 <=? 236))) by lia. rewrite (proj2 (Z.eqb_neq _ 237)) by lia.
    rewrite (proj2 (andb_false_iff _ (bz c0 <=? 239))) by lia.
    destruct (decide (bz c0 = 240)) as [E|]; [|destruct (decide (bz c0 = 244)) as [E|]].
    1,2: rewrite E; unfold in_range; cbn; specialize (Ha ltac:(lia)) || specialize (Hb ltac:(lia));
      rewrite (proj2 (andb_true_iff _ _)) by lia; by rewrite Hc2, Hc3.
    rewrite (proj2 (Z.eqb_neq _ 240)) by lia. rewrite (proj2 (andb_true_iff (241 <=? _) _)) by lia.
    unfold in_range. rewrite (proj2 (andb_true_iff (128 <=? _) _)) by lia. cbn. by rewrite Hc2, Hc3.
Qed.

Lemma decoded_length s r n : decoded s r n -> (n <= String.length s)%nat.
Proof. destruct 1; subst; simpl; lia. Qed.

Lemma decoded_app s t r n : decoded s r n -> decoded (s +:+ t) r n.
Proof. destruct 1; subst; cbn [String.append]; eauto using dec1, dec2, dec3, dec4. Qed.

Lemma decoded_take s r n : decoded s r n -> decoded (str_take n s) r n.
Proof. destruct 1; subst; cbn [str_take]; eauto using dec1, dec2, dec3, dec4. Qed.

Lemma str_drop_all n s : (String.length s <= n)%nat -> str_drop n s = "".
Proof. revert s. induction n as [|n IH]; intros [|c s] H; simpl in *; try done; [lia|]. apply IH. lia. Qed.

Lemma valid_decoded s r n : decoded s r n -> valid_utf8 (str_drop n s) = true -> valid_utf8 s = true.
Proof.
  intros D Hv. pose proof (decoded_decode _ _ _ D) as E. pose proof (decoded_pos _ _ _ D) as Hn.
  pose proof (decoded_length _ _ _ D) as Hl. destruct s as [|c s]; [simpl in Hl; lia|].
  unfold valid_utf8. cbn [valid_from]. rewrite E. cbn [snd]. rewrite valid_from_drop.
  destruct n as [|n]; [lia|]. cbn [pred str_drop] in *. rewrite Hv, andb_true_r. apply negb_true_iff.
  unfold bad_rune. cbn [fst snd]. destruct n as [|n]; [|by rewrite andb_false_r].
  rewrite andb_true_r. apply Z.eqb_neq. unfold RuneError. inversion D; subst. lia.
Qed.

Lemma str_drop_app n a b : (n <= String.length a)%nat -> str_drop n (a +:+ b) = str_drop n a +:+ b.
Proof. revert a. induction n as [|n IH]; intros [|c a] H; simpl in *; try done; [lia|]. apply IH. lia. Qed.

Lemma valid_app_runes a b : valid_utf8 a = true -> valid_utf8 b = true ->
  valid_utf8 (a +:+ b) = true /\ runes (a +:+ b) = runes a ++ runes b.
Proof.
  intros Ha Hb. revert a Ha. apply valid_ind; [done|]. intros s r n E D _ [IH1 IH2].
  pose proof (decoded_app s b r n D) as D'. pose proof (decoded_length _ _ _ D) as Hl.
  rewrite <- str_drop_app in IH1, IH2 by done. split; [by eapply valid_decoded|].
  rewrite (runes_decoded (s +:+ b) r n), (runes_decoded s r n); [|done..|by apply decoded_decode|done].
  cbn. by rewrite IH2.
Qed.

Lemma rune_count_app a b : valid_utf8 a = true -> valid_utf8 b = true -> rune_count (a +:+ b) = rune_count a + rune_count b.
Proof. intros Ha Hb. unfold rune_count. destruct (valid_app_runes a b Ha Hb) as [_ ->]. rewrite length_app. lia. Qed.

Lemma valid_ascii c : bz c < 128 -> valid_utf8 (String c "") = true /\ rune_count (String c "") = 1.
Proof.
  intros H. assert (decoded (String c "") (bz c) 1) as D by (by eapply dec1). split.
  - by apply (valid_decoded _ _ _ D).
  - unfold rune_count. by rewrite (runes_decoded _ (bz c) 1) by (done || by apply decoded_decode).
Qed.

(** A cut before or after an ASCII byte. *)
Lemma valid_split a c b : bz c < 128 -> valid_utf8 (a +:+ String c b) = true -> valid_utf8 a = true /\ valid_utf8 b = true.
Proof.
  intros Hc H. remember (a +:+ String c b) as s eqn:Hs. revert a Hs. revert s H.
  apply (valid_ind (fun s => forall a, s = a +:+ String c b -> valid_utf8 a = true /\ valid_utf8 b = true)).
  - intros a Ha. by destruct a.
  - intros s r n E D Hv IH a ->. destruct a as [|c0 a].
    + split; [done|]. inversion D as [? ? Hs ?|? ? ? Hs ? ?|? ? ? ? Hs ? ? ?|? ? ? ? ? Hs ? ? ? ?]; injection Hs as -> Hb; subst; [done|lia..].
    + assert (forall m, (m <= String.length (String c0 a))%nat -> n = m -> decoded (String c0 a) r n ->
        valid_utf8 (String c0 a) = true /\ valid_utf8 b = true) as Hfin.
      { intros m Hm -> D'. destruct (IH (str_drop m (String c0 a))) as [H1 H2].
        - by rewrite str_drop_app.
        - split; [by eapply valid_decoded|done]. }
      inversion D as [c' t Hs Hlt|c0' c1 t Hs H0 H1|c0' c1 c2 t Hs H0 H1 H2 Ha Hb|c0' c1 c2 c3 t Hs H0 H1 H2 H3 Ha Hb]; subst r n.
      * injection Hs as -> _. apply (Hfin 1%nat); [simpl; lia|done|]. by eapply dec1.
      * destruct a as [|x1 a]; [injection Hs as -> -> _; lia|]. injection Hs as -> -> _.
        apply (Hfin 2%nat); [simpl; lia|done|]. by eapply dec2.
      * destruct a as [|x1 [|x2 a]]; [injection Hs as -> -> _; lia|injection Hs as -> -> -> _; lia|]. injection Hs as -> -> -> _.
        apply (Hfin 3%nat); [simpl; lia|done|]. by eapply dec3.
      * destruct a as [|x1 [|x2 [|x3 a]]];
          [injection Hs as -> -> _; lia|injection Hs as -> -> -> _; lia|injection Hs as -> -> -> -> _; lia|].
        injection Hs as -> -> -> -> _. apply (Hfin 4%nat); [simpl; lia|done|]. by eapply dec4.
Qed.

(** ** ASCII text *)
Lemma runes_ascii k : str_forall ascii_byte k = true -> runes k = map bz (list_ascii_of_string k).
Proof.
  induction k as [|c k IH]; [done|]. cbn [str_forall list_ascii_of_string map]. intros [Hc Hk]%andb_true_iff.
  unfold ascii_byte in Hc. rewrite <- IH by done. unfold runes. cbn [runes_from decode_rune]. by rewrite Hc.
Qed.
Lemma runes_ascii_app a b : str_forall ascii_byte a = true -> runes (a +:+ b) = map bz (list_ascii_of_string a) ++ runes b.
Proof.
  induction a as [|c a IH]; [done|]. cbn [str_forall list_ascii_of_string map String.append app]. intros [Hc Ha]%andb_true_iff.
  rewrite <- IH by done. unfold ascii_byte in Hc. unfold runes. cbn [runes_from decode_rune]. by rewrite Hc.
Qed.
