(* ===== verification/Regex.v ===== *)
(** * Regular expressions over bytes

    The program's patterns (Go package [regexp]) are ASCII classes, so they are
    matched byte by byte.  [re_match] decides [regexp.MatchString] for a pattern
    anchored at both ends, by Brzozowski derivatives; [matches] is the language. *)
From S2P Require Import Prelude GoStr.

Inductive re : Type :=
| RNone
| REps
| RCls (p : ascii -> bool)
| RCat (r1 r2 : re)
| RAlt (r1 r2 : re)
| RStar (r : re).

Definition ROpt (r : re) : re := RAlt REps r.
Definition RPlus (r : re) : re := RCat r (RStar r).
Definition RChar (c : ascii) : re := RCls (Ascii.eqb c).

Inductive matches : re -> string -> Prop :=
| MEps : matches REps ""
| MCls p c : p c = true -> matches (RCls p) (String c "")
| MCat r1 r2 a b : matches r1 a -> matches r2 b -> matches (RCat r1 r2) (a +:+ b)
| MAltL r1 r2 a : matches r1 a -> matches (RAlt r1 r2) a
| MAltR r1 r2 a : matches r2 a -> matches (RAlt r1 r2) a
| MStar0 r : matches (RStar r) ""
| MStarS r a b : matches r a -> matches (RStar r) b -> matches (RStar r) (a +:+ b).
Create HintDb gostr.
#[export] Hint Constructors matches : gostr.

Fixpoint nullable (r : re) : bool :=
  match r with
  | RNone | RCls _ => false
  | REps | RStar _ => true
  | RCat r1 r2 => nullable r1 && nullable r2
  | RAlt r1 r2 => nullable r1 || nullable r2
  end.

Fixpoint deriv (c : ascii) (r : re) : re :=
  match r with
  | RNone | REps => RNone
  | RCls p => if p c then REps else RNone
  | RCat r1 r2 => if nullable r1 then RAlt (RCat (deriv c r1) r2) (deriv c r2) else RCat (deriv c r1) r2
  | RAlt r1 r2 => RAlt (deriv c r1) (deriv c r2)
  | RStar r => RCat (deriv c r) (RStar r)
  end.

Fixpoint re_match (r : re) (s : string) : bool :=
  match s with "" => nullable r | String c s => re_match (deriv c r) s end.

Lemma matches_nil r : matches r "" <-> nullable r = true.
Proof.
  split.
  - intros H. remember "" as s eqn:Es. induction H; simpl; try done.
    + apply str_app_eq_nil in Es as [-> ->]. by rewrite IHmatches1, IHmatches2.
    + by rewrite IHmatches.
    + by rewrite IHmatches, orb_true_r.
  - induction r; simpl; try done; eauto with gostr.
    + rewrite andb_true_iff. intros [? ?]. change "" with ("" +:+ ""). eauto with gostr.
    + rewrite orb_true_iff. intros [?|?]; eauto with gostr.
Qed.

Lemma matches_deriv c r s : matches r (String c s) <-> matches (deriv c r) s.
Proof.
  split.
  - intros H. remember (String c s) as t eqn:Et. revert s Et.
    induction H; intros s Et; simpl; try done.
    + injection Et as -> <-. rewrite H. constructor.
    + destruct a as [|d a]; simpl in Et.
      * apply matches_nil in H. rewrite H. subst. apply MAltR. auto.
      * injection Et as -> <-. assert (matches (RCat (deriv c r1) r2) (a +:+ b)) by eauto with gostr.
        destruct (nullable r1); eauto with gostr.
    + eauto with gostr.
    + eauto with gostr.
    + destruct a as [|d a]; simpl in Et; [auto|]. injection Et as -> <-. eauto with gostr.
  - revert s. induction r; simpl; intros s H; try by inversion H.
    + destruct (p c) eqn:E; inversion H; subst; eauto with gostr.
    + assert (forall u, matches (RCat (deriv c r1) r2) u -> matches (RCat r1 r2) (String c u)) as Hc.
      { intros u Hu. inversion Hu; subst. rewrite <- str_app_cons. eauto with gostr. }
      destruct (nullable r1) eqn:E; [|auto]. inversion H; subst; [auto|].
      change (String c s) with ("" +:+ String c s). apply MCat; [by apply matches_nil|auto].
    + inversion H; subst; eauto with gostr.
    + inversion H; subst. rewrite <- str_app_cons. eauto with gostr.
Qed.

Lemma re_match_spec r s : re_match r s = true <-> matches r s.
Proof.
  revert r. induction s as [|c s IH]; intros r; simpl.
  - by rewrite matches_nil.
  - by rewrite IH, matches_deriv.
Qed.

(** Runs of a class. *)
Lemma matches_star_cls p s : str_forall p s = true -> matches (RStar (RCls p)) s.
Proof.
  induction s as [|c s IH]; simpl; [constructor|]. rewrite andb_true_iff. intros [Hc Hs].
  change (String c s) with (String c "" +:+ s). eauto with gostr.
Qed.

Lemma matches_star_cls_inv p s : matches (RStar (RCls p)) s -> str_forall p s = true.
Proof.
  intros H. remember (RStar (RCls p)) as r eqn:Er. induction H; try done.
  injection Er as ->. inversion H; subst. simpl. rewrite IHmatches2 by done. by rewrite H2.
Qed.

Lemma matches_plus_cls p s : s <> "" -> str_forall p s = true -> matches (RPlus (RCls p)) s.
Proof.
  destruct s as [|c s]; [done|]. simpl. rewrite andb_true_iff. intros _ [Hc Hs].
  change (String c s) with (String c "" +:+ s). apply MCat; [by constructor|by apply matches_star_cls].
Qed.

Lemma matches_plus_cls_inv p s : matches (RPlus (RCls p)) s -> s <> "" /\ str_forall p s = true.
Proof.
  intros H. inversion H as [| |? ? a b Ha Hb| | | |]; subst. inversion Ha; subst. simpl.
  rewrite (matches_star_cls_inv p b) by done. by rewrite H1.
Qed.

(** Bytes that occur in a match belong to one of the pattern's classes. *)
Fixpoint re_bytes (r : re) (c : ascii) : bool :=
  match r with
  | RNone | REps => false
  | RCls p => p c
  | RCat r1 r2 | RAlt r1 r2 => re_bytes r1 c || re_bytes r2 c
  | RStar r => re_bytes r c
  end.

Lemma matches_bytes r s : matches r s -> str_forall (re_bytes r) s = true.
Proof.
  induction 1; simpl; rewrite ?str_forall_app; try done.
  - by rewrite H.
  - rewrite andb_true_iff; split; (eapply str_forall_impl; [|eassumption]);
      intros c ->; rewrite ?orb_true_r; done.
  - eapply str_forall_impl; [|eassumption]; intros c ->; done.
  - eapply str_forall_impl; [|eassumption]; intros c ->; by rewrite orb_true_r.
  - by apply andb_true_iff.
Qed.
