(* ===== verification/Float64.v ===== *)
(** * IEEE binary64: the parts of Go's package [strconv] that numbers.go uses

    [parse_float] is [strconv.ParseFloat(s, 64)] on a lexeme of the JSON number
    grammar: the exact decimal value rounded to the nearest double, ties to even,
    [PRange] when it overflows.  [format_f] and [format_e] are
    [strconv.FormatFloat(f, 'f' or 'e', -1, 64)]: the shortest decimal that lies in
    the rounding interval of the double, the closest one of that length.  All the
    arithmetic is exact, on integers. *)
From S2P Require Import Prelude GoStr.

(** A finite double: [(-1)^neg * mant * 2^exp]. *)
Record float : Type := MkFloat { f_neg : bool; f_mant : Z; f_exp : Z }.
Inductive parsed : Type := POk (f : float) | PRange | PSyntax.

(** ** Decimal to binary *)

(** Read a run of digits: the value, the number of digits, the rest. *)
Fixpoint read_digits (s : string) (acc n : Z) : Z * Z * string :=
  match s with
  | String c s' => if is_digit c then read_digits s' (acc * 10 + (bz c - 48)) (n + 1) else (acc, n, s)
  | "" => (acc, n, s)
  end.

(** The exponent digits: Go's [readFloat] stops accumulating at 10000. *)
Fixpoint read_exp (s : string) (e : Z) : option Z :=
  match s with
  | String c s' => if is_digit c then read_exp s' (if e <? 10000 then e * 10 + (bz c - 48) else e) else None
  | "" => Some e
  end.

(** The nearest double to [num / den] (both positive), ties to even; [None] on overflow. *)
Definition scale2 (num den e : Z) : Z * Z :=
  if 0 <=? e then (num, den * 2 ^ e) else (num * 2 ^ (- e), den).

Definition round_float (num den : Z) : option (Z * Z) :=
  let e0 := Z.log2 num - Z.log2 den - 52 in
  let '(n0, d0) := scale2 num den e0 in
  let e := Z.max (if n0 <? 2 ^ 52 * d0 then e0 - 1 else e0) (-1074) in
  let '(n, d) := scale2 num den e in
  let q := n / d in
  let r := n mod d in
  let q := if (d <? 2 * r) || ((2 * r =? d) && Z.odd q) then q + 1 else q in
  let '(q, e) := if q =? 2 ^ 53 then (2 ^ 52, e + 1) else (q, e) in
  if 971 <? e then None else Some (q, e).

(** [mant * 10^exp]; [nd] is the number of digits read, for Go's range shortcuts. *)
Definition decimal_to_float (neg : bool) (mant exp nd : Z) : parsed :=
  if mant =? 0 then POk (MkFloat neg 0 0)
  else if 310 <? exp then PRange
  else if exp + nd <? -330 then POk (MkFloat neg 0 0)
  else
    let '(num, den) := if 0 <=? exp then (mant * 10 ^ exp, 1) else (mant, 10 ^ (- exp)) in
    match round_float num den with
    | Some (m, e) => POk (MkFloat neg m e)
    | None => PRange
    end.

Definition parse_float (s : string) : parsed :=
  let neg := has_prefix s "-" in
  let '(m, n, s) := read_digits (trim_prefix s "-") 0 0 in
  let '(m, n, fd, s) :=
    match s with
    | String "."%char s' => let '(m', n', s') := read_digits s' m n in (m', n', n' - n, s')
    | _ => (m, n, 0, s)
    end in
  if n =? 0 then PSyntax
  else
    match s with
    | "" => decimal_to_float neg m (- fd) n
    | String c s' =>
        if Ascii.eqb c "e" || Ascii.eqb c "E" then
          let eneg := has_prefix s' "-" in
          let s' := if eneg then str_drop 1 s' else trim_prefix s' "+" in
          match s', read_exp s' 0 with
          | String _ _, Some e => decimal_to_float neg m ((if eneg then - e else e) - fd) n
          | _, _ => PSyntax
          end
        else PSyntax
    end.

(** ** Comparisons *)
Definition float_is_zero (f : float) : bool := f_mant f =? 0.

(** [|f| < m * 2^e]. *)
Definition abs_lt (f : float) (m e : Z) : bool :=
  let k := Z.min (f_exp f) e in
  f_mant f * 2 ^ (f_exp f - k) <? m * 2 ^ (e - k).

(** [abs >= 1e-6 && abs < 1e21]: the two constants as doubles. *)
Definition float_abs_in_plain_range (f : float) : bool :=
  match round_float 1 (10 ^ 6), round_float (10 ^ 21) 1 with
  | Some (m1, e1), Some (m2, e2) => negb (abs_lt f m1 e1) && abs_lt f m2 e2
  | _, _ => false
  end.

(** ** Shortest decimal *)

(** The decimal digits of [n >= 0] without leading zeros ("0" for 0). *)
Definition dec_string (n : Z) : string := pretty (Z.to_N n).

(** [strconv.Itoa]. *)
Definition itoa (n : Z) : string := pretty n.

(** The position of the decimal point: the least [dp >= start] with [num < den * 10^dp]. *)
Definition pow10_le (num den dp : Z) : bool :=
  if 0 <=? dp then den * 10 ^ dp <=? num else den <=? num * 10 ^ (- dp).
Fixpoint find_dp (fuel : nat) (num den dp : Z) : Z :=
  match fuel with
  | O => dp
  | S fuel => if pow10_le num den dp then find_dp fuel num den (dp + 1) else dp
  end.

(** Bounds of the rounding interval, in units of [2^(exp-2)], around [4 * mant]. *)
Definition interval (f : float) : Z * Z :=
  let m := f_mant f in
  (if (2 ^ 52 <? m) || (f_exp f =? -1074) then 4 * m - 2 else 4 * m - 1, 4 * m + 2).

(** The first length [n] at which a decimal [c * 10^(dp-n)] rounds to the double. *)
Fixpoint shortest_from (fuel : nat) (f : float) (dp n : Z) : Z * Z :=
  let m := f_mant f in
  let k := f_exp f - 2 in
  let '(lo, hi) := interval f in
  let s := dp - n in
  (* compare x * 2^k with c * 10^s on integers *)
  let lhs x := x * 2 ^ Z.max k 0 * 10 ^ Z.max (- s) 0 in
  let rhs c := c * 10 ^ Z.max s 0 * 2 ^ Z.max (- k) 0 in
  let q := lhs (4 * m) / rhs 1 in
  let incl := Z.even m in
  let above c := if incl then lhs lo <=? rhs c else lhs lo <? rhs c in
  let below c := if incl then rhs c <=? lhs hi else rhs c <? lhs hi in
  let r := lhs (4 * m) - rhs q in
  match fuel with
  | O => (q + 1, n) (* not reached: 17 digits identify every double *)
  | S fuel =>
      if above q && below (q + 1) then
        (if (rhs 1 <? 2 * r) || ((2 * r =? rhs 1) && Z.odd q) then q + 1 else q, n)
      else if above q then (q, n)
      else if below (q + 1) then (q + 1, n)
      else shortest_from fuel f dp (n + 1)
  end.

(** Drop trailing zeros of a digit string. *)
Fixpoint strip_zeros (s : string) : string :=
  match s with
  | "" => ""
  | String c s' =>
      match strip_zeros s' with
      | "" => if Ascii.eqb c "0" then "" else String c ""
      | t => String c t
      end
  end.

(** The digits and the decimal point position: the value is [0.d1d2... * 10^dp]. *)
Definition shortest (f : float) : string * Z :=
  if float_is_zero f then ("", 0) else
  let k := f_exp f in
  let '(num, den) := scale2 (f_mant f) 1 (- k) in
  let dp0 := (Z.log2 (f_mant f) + k) * 30103 / 100000 - 1 in
  let dp := find_dp 8 num den dp0 in
  let '(c, n) := shortest_from 17 f dp 1 in
  let ds := dec_string c in
  (strip_zeros ds, dp + (slen ds - n)).

Definition sign_string (f : float) : string := if f_neg f then "-" else "".

(** [%f] of the digits: all of them, padded with zeros up to the decimal point. *)
Definition plain_digits (ds : string) (dp : Z) : string :=
  let nd := slen ds in
  if nd =? 0 then "0"
  else if 0 <? dp then
    if nd <=? dp then ds +:+ str_repeat "0" (Z.to_nat (dp - nd))
    else str_take (Z.to_nat dp) ds +:+ "." +:+ str_drop (Z.to_nat dp) ds
  else "0." +:+ str_repeat "0" (Z.to_nat (- dp)) +:+ ds.

Definition format_f (f : float) : string :=
  let '(ds, dp) := shortest f in sign_string f +:+ plain_digits ds dp.

(** [%e] of the digits: the exponent has a sign and at least two digits. *)
Definition format_e (f : float) : string :=
  let '(ds, dp) := shortest f in
  let e := if slen ds =? 0 then 0 else dp - 1 in
  let es := dec_string (Z.abs e) in
  sign_string f +:+ (if slen ds =? 0 then "0" else str_take 1 ds) +:+
  (if 1 <? slen ds then "." +:+ str_drop 1 ds else "") +:+
  "e" +:+ (if e <? 0 then "-" else "+") +:+ (if Z.abs e <? 10 then "0" +:+ es else es).


Definition show_float (fmt : float -> string) (s : string) : string :=
  match parse_float s with POk f => fmt f | PRange => "range" | PSyntax => "syntax" end.

Example format_f_examples :
  map (show_float format_f)
    ["0.1"; "100.0"; "123456789012345680000.0"; "0.30000000000000004"; "-2.5e-3"; "1.8e308";
     "9007199254740993.0"; "0.0"]
  = ["0.1"; "100"; "123456789012345680000"; "0.30000000000000004"; "-0.0025"; "range";
     "9007199254740992"; "0"].
Proof. vm_compute. reflexivity. Qed.

Example format_e_examples :
  map (show_float format_e)
    ["5e-324"; "1e23"; "2.2250738585072014e-308"; "1.7976931348623157e308"; "4.35e2"; "2e-324"]
  = ["5e-324"; "1e+23"; "2.2250738585072014e-308"; "1.7976931348623157e+308"; "4.35e+02"; "0e+00"].
Proof. vm_compute. reflexivity. Qed.

(** ** Shapes: what is printed is made of digits *)
Lemma pretty_N_char_digit x : is_digit (pretty_N_char x) = true.
Proof. unfold pretty_N_char. repeat case_match; reflexivity. Qed.

Lemma pretty_N_char_zero x : (0 < x < 10)%N -> pretty_N_char x <> "0"%char.
Proof. intros H. unfold pretty_N_char. repeat case_match; try done; lia. Qed.

Definition no_leading_zero (s : string) : Prop :=
  match s with "" => False | String c _ => c <> "0"%char end.

Lemma pretty_go_digits x s :
  (0 < x)%N -> exists t, pretty_N_go x s = t +:+ s /\ str_forall is_digit t = true /\ no_leading_zero t.
Proof.
  revert s. induction (N.lt_wf_0 x) as [x _ IH]; intros s Hx.
  rewrite pretty_N_go_step by done.
  destruct (decide (x < 10)%N) as [Hlt|Hge].
  - rewrite N.div_small by done. rewrite pretty_N_go_0.
    exists (String (pretty_N_char (x `mod` 10)%N) ""). simpl. rewrite pretty_N_char_digit.
    split_and!; [done..|]. apply pretty_N_char_zero. rewrite N.mod_small; lia.
  - destruct (IH (x `div` 10)%N) with (s := String (pretty_N_char (x `mod` 10)%N) s) as (t & -> & Ht & Hz).
    { apply N.div_lt; lia. }
    { apply N.div_str_pos; lia. }
    exists (t +:+ String (pretty_N_char (x `mod` 10)%N) "").
    rewrite <- str_app_assoc, str_forall_app, Ht. simpl. rewrite pretty_N_char_digit.
    split_and!; [done..|]. by destruct t.
Qed.

Lemma dec_string_pos n : 0 < n -> str_forall is_digit (dec_string n) = true /\ no_leading_zero (dec_string n).
Proof.
  intros Hn. unfold dec_string, pretty, pretty_N. case_decide; [lia|].
  destruct (pretty_go_digits (Z.to_N n) "") as (t & -> & ? & ?); [lia|].
  by rewrite str_app_nil_r.
Qed.

Lemma dec_string_digits n : str_forall is_digit (dec_string n) = true /\ dec_string n <> "".
Proof.
  destruct (decide (0 < n)) as [H|H].
  - destruct (dec_string_pos n H) as [? Hz]. split; [done|]. intros E. by rewrite E in Hz.
  - unfold dec_string. replace (Z.to_N n) with 0%N by lia. done.
Qed.

Lemma shortest_from_pos fuel f dp n c n' :
  0 < f_mant f -> shortest_from fuel f dp n = (c, n') -> 0 < c.
Proof.
  intros Hm. revert n. induction fuel as [|fuel IH]; intros n;
    cbn [shortest_from]; destruct (interval f) as [lo hi] eqn:Ei;
    set (s := dp - n); set (k := f_exp f - 2);
    set (L := fun x => x * 2 ^ Z.max k 0 * 10 ^ Z.max (- s) 0);
    set (R := fun c => c * 10 ^ Z.max s 0 * 2 ^ Z.max (- k) 0);
    assert (0 < R 1) by (unfold R; apply Z.mul_pos_pos; [apply Z.mul_pos_pos|]; [lia|apply Z.pow_pos_nonneg; lia..]);
    assert (HL : forall x, 0 < x -> 0 < L x)
      by (intros x Hx; unfold L; apply Z.mul_pos_pos; [apply Z.mul_pos_pos|]; [lia|apply Z.pow_pos_nonneg; lia..]);
    assert (Hq : 0 <= L (4 * f_mant f) / R 1) by (apply Z.div_pos; [apply Z.lt_le_incl, HL|]; lia).
  - intros [= <- <-]. subst s k. fold (L (4 * f_mant f)). fold (R 1). lia.
  - assert (Hlo : 0 < lo) by (unfold interval in Ei; repeat case_match; injection Ei as <- <-; lia).
    specialize (HL lo Hlo).
    assert (Habove : forall q, 0 <= q -> (if Z.even (f_mant f) then L lo <=? R q else L lo <? R q) = true -> 0 < q).
    { intros q Hq0 Hab. destruct (decide (q = 0)) as [->|]; [|lia].
      assert (R 0 = 0) by done. destruct (Z.even _); bool_to_prop; lia. }
    change (4 * f_mant f * 2 ^ Z.max k 0 * 10 ^ Z.max (- s) 0) with (L (4 * f_mant f)).
    change (1 * 10 ^ Z.max s 0 * 2 ^ Z.max (- k) 0) with (R 1).
    set (q := L (4 * f_mant f) / R 1) in *.
    change (lo * 2 ^ Z.max k 0 * 10 ^ Z.max (- s) 0) with (L lo).
    change (q * 10 ^ Z.max s 0 * 2 ^ Z.max (- k) 0) with (R q).
    destruct (if Z.even (f_mant f) then L lo <=? R q else L lo <? R q) eqn:Hab.
    + specialize (Habove q Hq Hab). simpl. repeat case_match; intros [= <- <-]; lia.
    + cbn [andb]. match goal with |- (if ?b then _ else _) = _ -> _ => destruct b end;
        [intros [= <- <-]; lia|]. apply IH.
Qed.

Lemma strip_zeros_digits s : str_forall is_digit s = true -> str_forall is_digit (strip_zeros s) = true.
Proof.
  induction s as [|c s IH]; simpl; [done|]. rewrite andb_true_iff. intros [Hc Hs].
  specialize (IH Hs). destruct (strip_zeros s) as [|d t]; simpl in *.
  - destruct (Ascii.eqb c "0"); simpl; by rewrite ?Hc.
  - by rewrite Hc.
Qed.

Lemma strip_zeros_head s : no_leading_zero s -> no_leading_zero (strip_zeros s).
Proof.
  destruct s as [|c s]; simpl; [done|]. intros Hc.
  destruct (strip_zeros s); [|done]. destruct (Ascii.eqb_spec c "0"); done.
Qed.

Lemma shortest_shape f ds dp :
  0 < f_mant f -> shortest f = (ds, dp) -> str_forall is_digit ds = true /\ no_leading_zero ds.
Proof.
  intros Hm. unfold shortest. replace (float_is_zero f) with false
    by (symmetry; unfold float_is_zero; bool_to_prop; lia).
  destruct (scale2 _ _ _) as [num den]. destruct (shortest_from _ _ _ _) as [c n] eqn:E.
  intros [= <- <-]. apply shortest_from_pos in E; [|done].
  destruct (dec_string_pos c E) as [Hd Hz].
  split; [by apply strip_zeros_digits|by apply strip_zeros_head].
Qed.

(** ** Parsing yields a non-negative significand *)
Lemma read_digits_nonneg s acc n m k r : 0 <= acc -> read_digits s acc n = (m, k, r) -> 0 <= m.
Proof.
  revert acc n. induction s as [|c s IH]; simpl; intros acc n Ha; [by intros [= <- _ _]|].
  destruct (is_digit c) eqn:E; [|by intros [= <- _ _]]. apply IH.
  unfold is_digit, in_range in E. bool_to_prop. lia.
Qed.

Lemma scale2_pos num den e : 0 < num -> 0 < den -> 0 < fst (scale2 num den e) /\ 0 < snd (scale2 num den e).
Proof.
  intros. unfold scale2. destruct (0 <=? e) eqn:E; simpl; bool_to_prop; split; try done;
    apply Z.mul_pos_pos; try done; apply Z.pow_pos_nonneg; lia.
Qed.

Lemma round_float_nonneg num den m e : 0 < num -> 0 < den -> round_float num den = Some (m, e) -> 0 <= m.
Proof.
  intros Hn Hd. unfold round_float. destruct (scale2 num den (_ - 52)) as [n0 d0].
  set (e1 := Z.max _ _). destruct (scale2 num den e1) as [n d] eqn:Es.
  pose proof (scale2_pos num den e1 Hn Hd) as [H1 H2]. rewrite Es in H1, H2. simpl in H1, H2.
  assert (0 <= n / d) by (apply Z.div_pos; lia).
  set (q := if _ || _ then n / d + 1 else n / d).
  assert (0 <= q) by (subst q; destruct (_ || _); lia).
  destruct (q =? 2 ^ 53); destruct (971 <? _); intros [= <- _]; lia.
Qed.

Lemma decimal_to_float_nonneg neg m e nd f : 0 <= m -> decimal_to_float neg m e nd = POk f -> 0 <= f_mant f.
Proof.
  intros Hm. unfold decimal_to_float. destruct (m =? 0) eqn:E0; [by intros [= <-]|]. bool_to_prop.
  destruct (310 <? e); [done|]. destruct (_ <? -330); [by intros [= <-]|].
  destruct (0 <=? e) eqn:Ee; bool_to_prop; (destruct (round_float _ _) as [[q x]|] eqn:Er; [|done]);
    intros [= <-]; simpl; eapply round_float_nonneg; [| |exact Er| | |exact Er]; try lia;
    try apply Z.mul_pos_pos; try apply Z.pow_pos_nonneg; lia.
Qed.

Lemma parse_float_nonneg s f : parse_float s = POk f -> 0 <= f_mant f.
Proof.
  unfold parse_float. destruct (read_digits _ 0 0) as [[m n] r] eqn:E1.
  apply read_digits_nonneg in E1; [|done].
  set (p := match r with String "."%char _ => _ | _ => _ end).
  assert (forall m' n' fd r', p = (m', n', fd, r') -> 0 <= m') as Hp.
  { intros m' n' fd r'. subst p. destruct r as [|c r]; [by intros [= <- _ _ _]|].
    destruct (decide (c = "."%char)) as [->|Hc].
    - destruct (read_digits r m n) as [[m2 n2] r2] eqn:E2. intros [= <- _ _ _].
      by apply read_digits_nonneg in E2.
    - intros H. enough (m = m') by lia.
      destruct c as [[] [] [] [] [] [] [] []]; simpl in H; congruence. }
  destruct p as [[[m' n'] fd] r']. specialize (Hp _ _ _ _ eq_refl).
  destruct (n' =? 0); [done|]. destruct r' as [|c r']; [by apply decimal_to_float_nonneg|].
  destruct (_ || _); [|done].
  repeat case_match; try done; by apply decimal_to_float_nonneg.
Qed.
