(* ===== verification/GoStd.v ===== *)
(** * More of Go's standard library: 64-bit integers, [strconv], [strings], [path/filepath]

    Decimal integers with their round trip, substring search, and file names. *)
From S2P Require Import Prelude GoStr Float64.

(** ** Machine integers *)
Definition int64_max : Z := 2 ^ 63 - 1.
Definition int64_min : Z := - 2 ^ 63.
Definition wrap64 (z : Z) : Z := (z + 2 ^ 63) mod 2 ^ 64 - 2 ^ 63.

Lemma wrap64_id z : int64_min <= z <= int64_max -> wrap64 z = z.
Proof. unfold int64_min, int64_max, wrap64. intros H. rewrite Z.mod_small by lia. lia. Qed.

Lemma wrap64_range z : int64_min <= wrap64 z <= int64_max.
Proof. unfold int64_min, int64_max, wrap64. pose proof (Z.mod_pos_bound (z + 2 ^ 63) (2 ^ 64)). lia. Qed.

(** ** [strconv.ParseInt(s, 10, 64)] *)
Fixpoint dec_value (s : string) (acc : Z) : option Z :=
  match s with
  | "" => Some acc
  | String c s => if is_digit c then dec_value s (acc * 10 + (bz c - 48)) else None
  end.

Definition parse_uint (s : string) : option Z := if String.eqb s "" then None else dec_value s 0.

Definition ParseInt (s : string) : option Z :=
  let '(neg, digits) :=
    match s with
    | String "-"%char t => (true, t)
    | String "+"%char t => (false, t)
    | _ => (false, s)
    end in
  match parse_uint digits with
  | None => None
  | Some n =>
      let z := if neg : bool then - n else n in
      if (int64_min <=? z) && (z <=? int64_max) then Some z else None
  end.

Lemma dec_value_app a b acc : dec_value (a +:+ b) acc = match dec_value a acc with Some x => dec_value b x | None => None end.
Proof. revert acc. induction a as [|c a IH]; intros acc; simpl; [done|]. by destruct (is_digit c). Qed.

Lemma pretty_N_char_value x : (x < 10)%N -> bz (pretty_N_char x) - 48 = Z.of_N x.
Proof.
  intros H. assert (x = 0 \/ x = 1 \/ x = 2 \/ x = 3 \/ x = 4 \/ x = 5 \/ x = 6 \/ x = 7 \/ x = 8 \/ x = 9)%N as Hx by lia.
  destruct_or! Hx; subst x; reflexivity.
Qed.

Lemma pretty_N_go_value x s : dec_value (pretty_N_go x s) 0 = dec_value s (Z.of_N x).
Proof.
  revert s. induction (N.lt_wf_0 x) as [x _ IH]; intros s.
  destruct (decide (x = 0)%N) as [->|Hx]; [by rewrite pretty_N_go_0|].
  rewrite pretty_N_go_step by lia. rewrite IH by (apply N.div_lt; lia).
  cbn [dec_value]. rewrite pretty_N_char_digit, pretty_N_char_value by (apply N.mod_lt; lia).
  f_equal. rewrite N2Z.inj_div, N2Z.inj_mod. pose proof (Z.div_mod (Z.of_N x) 10). lia.
Qed.

Lemma dec_string_value n : 0 <= n -> dec_value (dec_string n) 0 = Some n.
Proof.
  intros Hn. unfold dec_string. unfold pretty, pretty_N. case_decide as H.
  - replace n with 0 by lia. done.
  - rewrite pretty_N_go_value. simpl. by rewrite Z2N.id.
Qed.

Lemma dec_string_nonempty n : dec_string n <> "".
Proof. apply dec_string_digits. Qed.

Lemma parse_uint_dec_string n : 0 <= n -> parse_uint (dec_string n) = Some n.
Proof.
  intros H. unfold parse_uint. rewrite (proj2 (String.eqb_neq _ _)) by apply dec_string_nonempty.
  by apply dec_string_value.
Qed.

Lemma dec_string_head n : exists c s, dec_string n = String c s /\ is_digit c = true.
Proof.
  destruct (dec_string_digits n) as [H Hne]. destruct (dec_string n) as [|c s]; [done|].
  simpl in H. apply andb_true_iff in H as [H _]. eauto.
Qed.

Lemma ParseInt_dec_string n : 0 <= n <= int64_max -> ParseInt (dec_string n) = Some n.
Proof.
  intros H. unfold ParseInt. destruct (dec_string_head n) as (c & s & E & Hc).
  assert (parse_uint (String c s) = Some n) as Hp by (rewrite <- E; apply parse_uint_dec_string; lia).
  rewrite E.
  assert ((match String c s with String "-" t => (true, t) | String "+" t => (false, t) | _ => (false, String c s) end)
    = (false, String c s)) as ->.
  { destruct c as [[] [] [] [] [] [] [] []]; try reflexivity; discriminate Hc. }
  rewrite Hp. unfold int64_min, int64_max in *. by rewrite (proj2 (andb_true_iff _ _)) by lia.
Qed.

(** ** [strings.Contains], [strings.Index] *)
Fixpoint index_str (s sub : string) : option nat :=
  if has_prefix s sub then Some O
  else match s with "" => None | String _ s' => S <$> index_str s' sub end.
Definition contains_str (s sub : string) : bool := match index_str s sub with Some _ => true | None => false end.

Lemma index_str_unfold s sub : index_str s sub =
  if has_prefix s sub then Some O else match s with "" => None | String _ s' => S <$> index_str s' sub end.
Proof. by destruct s. Qed.

Lemma contains_str_spec s sub : contains_str s sub = true <-> exists a b, s = a +:+ sub +:+ b.
Proof.
  unfold contains_str. induction s as [|c s IH]; rewrite index_str_unfold.
  - destruct (has_prefix "" sub) eqn:E.
    + apply has_prefix_spec in E as [t E]. split; [|done]. intros _. by exists "", t.
    + split; [done|]. intros (a & b & H). destruct a; [|done]. simpl in H.
      rewrite (proj2 (has_prefix_spec "" sub)) in E; [done|by exists b].
  - destruct (has_prefix (String c s) sub) eqn:E.
    + apply has_prefix_spec in E as [t E]. split; [|done]. intros _. by exists "", t.
    + destruct (index_str s sub) eqn:Ei; simpl; (split; [|try done]).
      * intros _. destruct (proj1 IH eq_refl) as (a & b & ->). by exists (String c a), b.
      * done.
      * intros (a & b & H). destruct a as [|d a]; simpl in H.
        -- rewrite (proj2 (has_prefix_spec _ sub)) in E; [done|by exists b].
        -- injection H as -> H. by rewrite (proj2 IH) by (by exists a, b).
Qed.

(** ** Last occurrence of a byte, [filepath.Base] and [filepath.Ext] *)
Fixpoint last_index_byte (s : string) (b : ascii) : option nat :=
  match s with
  | "" => None
  | String c s' =>
      match last_index_byte s' b with
      | Some i => Some (S i)
      | None => if Ascii.eqb c b then Some O else None
      end
  end.

(** [filepath.Base] of a path that does not end with a slash. *)
Definition Base (p : string) : string :=
  match last_index_byte p "/" with Some i => str_drop (S i) p | None => p end.

Definition Ext (p : string) : string :=
  let name := Base p in
  match last_index_byte name "." with Some i => str_drop i name | None => "" end.

Lemma last_index_byte_none s b : byte_in b s = false -> last_index_byte s b = None.
Proof.
  intros H. induction s as [|c s IH]; [done|]. cbn [byte_in last_index_byte] in *.
  apply orb_false_iff in H as [H1 H2]. rewrite IH by done.
  destruct (Ascii.eqb_spec c b) as [->|]; [by rewrite Ascii.eqb_refl in H1|done].
Qed.

Lemma Base_name s : byte_in "/" s = false -> Base s = s.
Proof. intros H. unfold Base. by rewrite last_index_byte_none. Qed.

Lemma last_index_byte_app a b t : byte_in b t = false -> last_index_byte (a +:+ String b t) b = Some (String.length a).
Proof.
  intros H. induction a as [|c a IH]; cbn [String.append last_index_byte String.length].
  - by rewrite (last_index_byte_none t), Ascii.eqb_refl.
  - by rewrite IH.
Qed.

Lemma Ext_app base ext : byte_in "." ext = false -> byte_in "/" (base +:+ String "." ext) = false ->
  Ext (base +:+ String "." ext) = String "." ext.
Proof. intros H Hs. unfold Ext. by rewrite Base_name, last_index_byte_app, str_drop_app_length. Qed.

Lemma Ext_none s : byte_in "." s = false -> byte_in "/" s = false -> Ext s = "".
Proof. intros H Hs. unfold Ext. by rewrite Base_name, last_index_byte_none. Qed.

Lemma byte_in_digits s c : str_forall is_digit s = true -> is_digit c = false -> byte_in c s = false.
Proof.
  intros H Hc. induction s as [|d s IH]; [done|]. simpl in *. apply andb_true_iff in H as [Hd H].
  rewrite IH by done. rewrite orb_false_r. apply Ascii.eqb_neq. congruence.
Qed.

Lemma index_byte_app a b t : byte_in b a = false -> index_byte (a +:+ String b t) b = Some (String.length a).
Proof.
  induction a as [|c a IH]; cbn [byte_in String.append index_byte String.length]; [by rewrite Ascii.eqb_refl|].
  intros [H1 H2]%orb_false_iff. destruct (Ascii.eqb_spec c b) as [->|]; [by rewrite Ascii.eqb_refl in H1|].
  by rewrite IH.
Qed.

Lemma index_byte_none s b : byte_in b s = false -> index_byte s b = None.
Proof.
  induction s as [|c s IH]; cbn [byte_in index_byte]; [done|]. intros [H1 H2]%orb_false_iff.
  destruct (Ascii.eqb_spec c b) as [->|]; [by rewrite Ascii.eqb_refl in H1|]. by rewrite IH.
Qed.

Lemma index_byte_split s b i : index_byte s b = Some i -> exists x y, s = x +:+ String b y /\ byte_in b x = false /\ i = String.length x.
Proof.
  revert i. induction s as [|c s IH]; intros i; [done|]. cbn [index_byte]. destruct (Ascii.eqb_spec c b) as [->|Hne].
  - intros [= <-]. by exists "", s.
  - destruct (index_byte s b) as [j|]; [|done]. intros [= <-]. destruct (IH j eq_refl) as (x & y & -> & Hx & ->). exists (String c x), y. split_and!; [done| |done].
    cbn [byte_in]. rewrite Hx, orb_false_r. apply Ascii.eqb_neq. congruence.
Qed.
Lemma last_index_split s b i : last_index_byte s b = Some i -> exists x y, s = x +:+ String b y /\ byte_in b y = false /\ i = String.length x.
Proof.
  revert i. induction s as [|c s IH]; intros i; [done|]. cbn [last_index_byte]. destruct (last_index_byte s b) as [j|] eqn:E.
  - intros [= <-]. destruct (IH j eq_refl) as (x & y & -> & Hy & ->). by exists (String c x), y.
  - destruct (Ascii.eqb_spec c b) as [->|Hne]; [|done]. intros [= <-]. exists "", s. split_and!; [done| |done].
    clear IH. induction s as [|d s IHs]; [done|]. cbn [last_index_byte] in E. destruct (last_index_byte s b) eqn:E2; [done|]. destruct (Ascii.eqb_spec d b); [done|]. cbn [byte_in]. rewrite IHs by done.
    rewrite orb_false_r. apply Ascii.eqb_neq. congruence.
Qed.

(** ** [path/filepath] on Unix *)

(** One path element: [stack] is in reverse order. *)
Definition clean_step (rooted : bool) (stack : list string) (elem : string) : list string :=
  if String.eqb elem "" || String.eqb elem "." then stack
  else if String.eqb elem ".." then
    match stack with
    | top :: rest => if String.eqb top ".." then elem :: stack else rest
    | [] => if rooted then [] else [elem]
    end
  else elem :: stack.

Definition render_path (rooted : bool) (elems : list string) : string :=
  if rooted then "/" +:+ join "/" elems
  else match elems with [] => "." | _ => join "/" elems end.

Definition Clean (p : string) : string :=
  let rooted := has_prefix p "/" in
  render_path rooted (rev (foldl (clean_step rooted) [] (split_byte p "/"))).

(** [filepath.Join(a, b)]: empty arguments are ignored. *)
Definition Join (a b : string) : string :=
  if String.eqb a "" then (if String.eqb b "" then "" else Clean b)
  else if String.eqb b "" then Clean a
  else Clean (a +:+ "/" +:+ b).

(** A name that stands for itself in a path. *)
Definition simple_name (s : string) : Prop := s <> "" /\ s <> "." /\ s <> ".." /\ byte_in "/" s = false.

Lemma split_byte_no_sep s c : byte_in c s = false -> split_byte s c = [s].
Proof.
  induction s as [|d s IH]; cbn [byte_in split_byte]; [done|]. intros [H1 H2]%orb_false_iff.
  destruct (Ascii.eqb_spec d c) as [->|]; [by rewrite Ascii.eqb_refl in H1|]. by rewrite IH.
Qed.

Lemma split_byte_app a b c : split_byte (a +:+ String c b) c = split_byte a c ++ split_byte b c.
Proof.
  induction a as [|d a IH]; cbn [String.append split_byte]; [by rewrite Ascii.eqb_refl|].
  rewrite IH. destruct (Ascii.eqb d c); [done|].
  pose proof (split_byte_nonempty a c). by destruct (split_byte a c).
Qed.

Lemma clean_step_simple rooted stack s : simple_name s -> clean_step rooted stack s = s :: stack.
Proof.
  intros (H1 & H2 & H3 & _). unfold clean_step.
  by rewrite !(proj2 (String.eqb_neq _ _)) by done.
Qed.

Lemma join_snoc sep l x : join sep (l ++ [x]) = match l with [] => x | _ => join sep l +:+ sep +:+ x end.
Proof.
  induction l as [|y l IH]; [done|]. cbn [app join]. destruct l as [|z l]; [done|].
  cbn [app] in *. rewrite IH. by rewrite !str_app_assoc.
Qed.

(** Joining a simple name to a directory leaves the name as the last element. *)
Lemma Join_simple d : exists pre, (pre = "" \/ exists pre', pre = pre' +:+ "/") /\ forall s, simple_name s -> Join d s = pre +:+ s.
Proof.
  assert (forall l rooted, exists pre, (pre = "" \/ exists pre', pre = pre' +:+ "/") /\
    forall s, render_path rooted (l ++ [s]) = pre +:+ s) as Hr.
  { intros l rooted. destruct l as [|x l].
    - exists (if rooted then "/" else ""). split; [destruct rooted; [right; by exists ""|by left]|]. by intros; destruct rooted.
    - exists ((if rooted then "/" else "") +:+ join "/" (x :: l) +:+ "/"). split.
      + right. eexists. by rewrite str_app_assoc.
      + intros s. unfold render_path. rewrite join_snoc. cbn [app].
        destruct rooted; by rewrite <- ?str_app_assoc. }
  destruct (String.eqb d "") eqn:Ed.
  - destruct (Hr [] false) as (pre & Hpre & H). exists pre. split; [done|]. intros s Hs. unfold Join. rewrite Ed.
    rewrite (proj2 (String.eqb_neq s "")) by apply Hs. unfold Clean.
    assert (has_prefix s "/" = false) as ->.
    { destruct (has_prefix s "/") eqn:E; [|done]. apply has_prefix_spec in E as [t ->]. destruct Hs as (_ & _ & _ & Hs). done. }
    rewrite split_byte_no_sep by apply Hs. cbn [foldl]. rewrite clean_step_simple by done. apply (H s).
  - set (rooted := has_prefix (d +:+ "/") "/").
    destruct (Hr (rev (foldl (clean_step rooted) [] (split_byte d "/"))) rooted) as (pre & Hpre & H).
    exists pre. split; [done|]. intros s Hs. unfold Join. rewrite Ed.
    rewrite (proj2 (String.eqb_neq s "")) by apply Hs. unfold Clean.
    assert (has_prefix (d +:+ "/" +:+ s) "/" = rooted) as ->.
    { unfold rooted. destruct d as [|c d]; [done|]. cbn. by destruct (Ascii.eqb c "/"). }
    change (d +:+ "/" +:+ s) with (d +:+ String "/" s). rewrite split_byte_app.
    rewrite foldl_app, (split_byte_no_sep s) by apply Hs. cbn [foldl].
    rewrite clean_step_simple by done. cbn [rev]. apply H.
Qed.

Lemma Base_Join d s : simple_name s -> Base (Join d s) = s.
Proof.
  intros Hs. destruct (Join_simple d) as (pre & Hpre & H). rewrite H by done. destruct Hs as (_ & _ & _ & Hs).
  unfold Base. destruct Hpre as [->|[pre' ->]].
  - change ("" +:+ s) with s. fold (Base s). by apply Base_name.
  - rewrite <- str_app_assoc. change ("/" +:+ s) with (String "/" s). rewrite last_index_byte_app by done.
    change (S (String.length pre')) with (1 + String.length pre')%nat.
    replace (1 + String.length pre')%nat with (String.length (pre' +:+ "/")) by (rewrite str_length_app; simpl; lia).
    change (pre' +:+ String "/" s) with (pre' +:+ ("/" +:+ s)). rewrite str_app_assoc. apply str_drop_app_length.
Qed.

(** ** [strings.Trim] with a cutset of ASCII characters *)
Fixpoint trim_right_bytes (s cutset : string) : string :=
  match s with
  | "" => ""
  | String c s => let r := trim_right_bytes s cutset in if String.eqb r "" && byte_in c cutset then "" else String c r
  end.
Definition Trim (s cutset : string) : string := trim_right_bytes (trim_left s cutset) cutset.
