(* ===== verification/ToonValue.v ===== *)
(** * TOON values (src/internal/toon/value.go)

    [value] has one constructor per payload type of [Value], and [VInvalid] for the
    zero value, whose payload is nil.  A number is the lexeme it was given. *)
From S2P Require Import Prelude GoStr.

Inductive value : Type :=
| VInvalid
| VNull
| VBool (b : bool)
| VNumber (n : string)
| VString (s : string)
| VObject (fields : list (string * value))
| VArray (items : list value).

Inductive valueKind : Type :=
| KindInvalid | KindNull | KindBool | KindNumber | KindString | KindObject | KindArray.

#[global] Instance valueKind_eq_dec : EqDecision valueKind.
Proof. solve_decision. Defined.

Definition kind (v : value) : valueKind :=
  match v with
  | VInvalid => KindInvalid
  | VNull => KindNull
  | VBool _ => KindBool
  | VNumber _ => KindNumber
  | VString _ => KindString
  | VObject _ => KindObject
  | VArray _ => KindArray
  end.

Definition fields (v : value) : list (string * value) :=
  match v with VObject fs => fs | _ => [] end.

Definition items (v : value) : list value :=
  match v with VArray l => l | _ => [] end.

(** The errors of package toon. *)
Inductive toon_error : Type :=
| MalformedNumber (lexeme : string)
| DepthExceeded
| EncodeTooLarge
| InvalidUTF8
| NotPrimitive (k : valueKind)
| Uninitialized
| TrailingData
| KeyNotString
| UnexpectedDelim
| TokenError
| OutOfFuel (* of the model only; proved impossible *).

#[global] Instance toon_error_eq_dec : EqDecision toon_error.
Proof. solve_decision. Defined.

Abbreviation result := (res toon_error).

(** Induction with hypotheses for the values inside objects and arrays. *)
Section ValueInd.
Variable P : value -> Prop.
Hypothesis Pinv : P VInvalid.
Hypothesis Pnull : P VNull.
Hypothesis Pbool : forall b, P (VBool b).
Hypothesis Pnum : forall n, P (VNumber n).
Hypothesis Pstr : forall s, P (VString s).
Hypothesis Pobj : forall fs, Forall (fun f => P (snd f)) fs -> P (VObject fs).
Hypothesis Parr : forall l, Forall P l -> P (VArray l).

Fixpoint value_ind' (v : value) : P v :=
  match v with
  | VInvalid => Pinv
  | VNull => Pnull
  | VBool b => Pbool b
  | VNumber n => Pnum n
  | VString s => Pstr s
  | VObject fs =>
      Pobj fs ((fix go (fs : list (string * value)) : Forall (fun f => P (snd f)) fs :=
        match fs with
        | [] => Forall_nil_2 _
        | f :: fs => Forall_cons_2 _ _ _ (value_ind' (snd f)) (go fs)
        end) fs)
  | VArray l =>
      Parr l ((fix go (l : list value) : Forall P l :=
        match l with
        | [] => Forall_nil_2 _
        | v :: l => Forall_cons_2 _ _ _ (value_ind' v) (go l)
        end) l)
  end.
End ValueInd.

(** The nesting depth: 0 for a primitive. *)
Fixpoint depth (v : value) : nat :=
  match v with
  | VObject fs => S (foldr (fun f n => Nat.max (depth (snd f)) n) O fs)
  | VArray l => S (foldr (fun v n => Nat.max (depth v) n) O l)
  | _ => O
  end.

Lemma depth_field fs k v : (k, v) ∈ fs -> (depth v < depth (VObject fs))%nat.
Proof.
  cbn [depth]. induction fs as [|[k' v'] fs IH]; [by intros ?%elem_of_nil|].
  intros [[= -> ->]|H]%elem_of_cons; simpl in *; [lia|]. specialize (IH H). lia.
Qed.

Lemma depth_item l v : v ∈ l -> (depth v < depth (VArray l))%nat.
Proof.
  cbn [depth]. induction l as [|v' l IH]; [by intros ?%elem_of_nil|].
  intros [->|H]%elem_of_cons; simpl in *; [lia|]. specialize (IH H). lia.
Qed.
