(* ===== verification/ToonQuote.v ===== *)
(** * Quoting (src/internal/toon/quote.go)

    When a string must be quoted, how it is quoted, and a reader of TOON tokens
    (spec sections 7.1 and 7.2) against which the encoder is proved. *)
From S2P Require Import Prelude GoStr Utf8 Regex ToonValue.

Definition sign_re : re := RCls (fun c => Ascii.eqb c "+" || Ascii.eqb c "-").
Definition digits_re : re := RPlus (RCls is_digit).
Definition numericLikeRE : re :=
  RCat (ROpt sign_re) (RCat digits_re
    (RCat (ROpt (RCat (RChar ".") digits_re))
          (ROpt (RCat (RCls (fun c => Ascii.eqb c "e" || Ascii.eqb c "E")) (RCat (ROpt sign_re) digits_re))))).

Definition unquotedKeyRE : re :=
  RCat (RCls (fun c => is_upper c || is_lower c || Ascii.eqb c "_"))
       (RStar (RCls (fun c => is_alnum c || Ascii.eqb c "_" || Ascii.eqb c "."))).

Definition dquote : ascii := az 34.
Definition backslash : ascii := az 92.
Definition structuralChars : string := ":" +:+ String dquote (String backslash "[]{},").

Definition validateUTF8 (s : string) : result unit := if valid_utf8 s then Ok tt else Err InvalidUTF8.

Definition isASCIISpace (r : Z) : bool :=
  (r <? 128) && ((r =? 32) || (r =? 9) || (r =? 10) || (r =? 13) || (r =? 12) || (r =? 11)).

Definition hasLeadingOrTrailingASCIISpace (s : string) : bool :=
  let first := fst (decode_rune s) in
  let last := decode_last_rune s in
  isASCIISpace first || isASCIISpace last.

Definition containsControlChar (s : string) : bool := existsb (fun r => r <=? 31) (runes s).

Definition needsQuoting (s : string) : bool :=
  if String.eqb s "" then true
  else if hasLeadingOrTrailingASCIISpace s then true
  else if String.eqb s "true" || String.eqb s "false" || String.eqb s "null" then true
  else if re_match numericLikeRE s then true
  else if contains_any s structuralChars then true
  else if containsControlChar s then true
  else if has_prefix s "#" then true
  else has_prefix s "-".

Definition hex_char (n : Z) : ascii := if n <? 10 then az (48 + n) else az (87 + n).
(** [fmt.Fprintf(sb, `\u%04x`, r)] for a rune below 0x10000. *)
Definition unicode_escape (r : Z) : string :=
  String backslash (String "u" (String (hex_char (r / 4096 mod 16)) (String (hex_char (r / 256 mod 16))
    (String (hex_char (r / 16 mod 16)) (String (hex_char (r mod 16)) ""))))).

Definition writeEscaped (r : Z) : string :=
  if r =? 92 then String backslash (String backslash "")
  else if r =? 34 then String backslash (String dquote "")
  else if r =? 10 then String backslash "n"
  else if r =? 13 then String backslash "r"
  else if r =? 9 then String backslash "t"
  else if r <=? 31 then unicode_escape r
  else encode_rune r.

Definition quoteString (s : string) : string :=
  String dquote (concat_str (map writeEscaped (runes s)) +:+ String dquote "").

Definition encodeString (s : string) : string := if needsQuoting s then quoteString s else s.

Definition encodeKey (key : string) : string :=
  if re_match unquotedKeyRE key then key else quoteString key.

(** ** The byte-level form of [quoteString] on well-formed strings *)
Definition escape_byte (c : ascii) : string :=
  if ascii_byte c then writeEscaped (bz c) else String c "".

Lemma escape_ascii c : bz c < 128 -> writeEscaped (bz c) = escape_byte c.
Proof. intros H. unfold escape_byte, ascii_byte. by replace (bz c <? 128) with true by (symmetry; bool_to_prop; lia). Qed.

Lemma escape_non_ascii s :
  str_forall (fun c => negb (ascii_byte c)) s = true -> str_flat_map escape_byte s = s.
Proof.
  induction s as [|c s IH]; simpl; [done|]. rewrite andb_true_iff, negb_true_iff. intros [Hc Hs].
  unfold escape_byte at 1. rewrite Hc. simpl. by rewrite IH.
Qed.

Lemma writeEscaped_large r : 128 <= r -> writeEscaped r = encode_rune r.
Proof. intros H. unfold writeEscaped. by decide_tests. Qed.

Lemma quoteString_bytes s :
  valid_utf8 s = true -> quoteString s = String dquote (str_flat_map escape_byte s +:+ String dquote "").
Proof.
  intros H. unfold quoteString. do 2 f_equal. revert s H. apply valid_ind; [done|].
  intros s r n E D _ IH. rewrite (runes_decoded s r n) by done. simpl. rewrite IH.
  destruct (decoded_encode _ _ _ D) as [Es _]. rewrite Es at 2. rewrite str_flat_map_app. f_equal.
  destruct (decoded_bytes _ _ _ D) as [(c & -> & -> & Hc)|[Hr Hb]].
  - simpl. rewrite str_app_nil_r. by apply escape_ascii.
  - by rewrite escape_non_ascii, writeEscaped_large.
Qed.

(** ** Reading a token back *)
Definition hex_value (c : ascii) : option Z :=
  if is_digit c then Some (bz c - 48)
  else if in_range 97 102 c then Some (bz c - 87)
  else None.

Definition unescape_simple (c : ascii) : option ascii :=
  if Ascii.eqb c backslash then Some backslash
  else if Ascii.eqb c dquote then Some dquote
  else if Ascii.eqb c "n" then Some (az 10)
  else if Ascii.eqb c "r" then Some (az 13)
  else if Ascii.eqb c "t" then Some (az 9)
  else None.

(** The content of a quoted token, after its opening quote, up to the closing one. *)
Fixpoint unquote_body (s : string) : option string :=
  match s with
  | "" => None
  | String c s1 =>
      if Ascii.eqb c dquote then match s1 with "" => Some "" | _ => None end
      else if Ascii.eqb c backslash then
        match s1 with
        | String "u"%char (String a (String b (String d (String e s2)))) =>
            match hex_value a, hex_value b, hex_value d, hex_value e with
            | Some a, Some b, Some d, Some e =>
                append (encode_rune (a * 4096 + b * 256 + d * 16 + e)) <$> unquote_body s2
            | _, _, _, _ => None
            end
        | String d s2 =>
            match unescape_simple d with
            | Some x => String x <$> unquote_body s2
            | None => None
            end
        | "" => None
        end
      else String c <$> unquote_body s1
  end.

Definition unquote (s : string) : option string :=
  match s with String c s => if Ascii.eqb c dquote then unquote_body s else None | "" => None end.

Lemma unquote_escape c t :
  unquote_body (escape_byte c +:+ t) = String c <$> unquote_body t.
Proof.
  destruct (ascii_byte c) eqn:Hc.
  - (* an ASCII byte: one of 128 cases *)
    destruct c as [[] [] [] [] [] [] [] []]; try done; destruct t; reflexivity.
  - unfold escape_byte. rewrite Hc. simpl. unfold ascii_byte in Hc.
    replace (Ascii.eqb c dquote) with false; [replace (Ascii.eqb c backslash) with false; [done|]|];
      symmetry; apply Ascii.eqb_neq; intros ->; done.
Qed.

Lemma unquote_body_escape s : unquote_body (str_flat_map escape_byte s +:+ String dquote "") = Some s.
Proof.
  induction s as [|c s IH]; simpl; [done|].
  by rewrite <- str_app_assoc, unquote_escape, IH.
Qed.

Lemma unquote_quoteString s : valid_utf8 s = true -> unquote (quoteString s) = Some s.
Proof. intros H. rewrite quoteString_bytes by done. simpl. apply unquote_body_escape. Qed.

Lemma unquoted_no_structural s : needsQuoting s = false -> contains_any s structuralChars = false.
Proof. unfold needsQuoting. repeat (case_match; try done). Qed.

Inductive token : Type := TNull | TBool (b : bool) | TNumber (n : string) | TString (s : string).

Definition read_token (s : string) : option token :=
  match s with
  | "" => None
  | String c _ =>
      if Ascii.eqb c dquote then TString <$> unquote s
      else Some (if String.eqb s "null" then TNull
                 else if String.eqb s "true" then TBool true
                 else if String.eqb s "false" then TBool false
                 else if re_match numericLikeRE s then TNumber s
                 else TString s)
  end.

Lemma read_token_string s : valid_utf8 s = true -> read_token (encodeString s) = Some (TString s).
Proof.
  intros Hv. unfold encodeString. destruct (needsQuoting s) eqn:Hq.
  - pose proof (unquote_quoteString s Hv) as Hu.
    unfold quoteString in *. cbn [read_token]. rewrite Ascii.eqb_refl. by rewrite Hu.
  - pose proof (unquoted_no_structural s Hq) as Hs. unfold needsQuoting in Hq.
    destruct s as [|c s]; [done|]. cbn [read_token].
    replace (Ascii.eqb c dquote) with false.
    + repeat case_match; try done; bool_to_prop; naive_solver.
    + symmetry. apply Ascii.eqb_neq. intros ->. done.
Qed.

(** ** Splitting a row at the commas outside quotes *)
Inductive qstate : Type := Out | In | Esc.

Definition qnext (st : qstate) (c : ascii) : qstate :=
  match st with
  | Out => if Ascii.eqb c dquote then In else Out
  | In => if Ascii.eqb c backslash then Esc else if Ascii.eqb c dquote then Out else In
  | Esc => In
  end.

Definition is_sep (st : qstate) (c : ascii) : bool :=
  match st with Out => Ascii.eqb c "," | _ => false end.

Definition cons_head (c : ascii) (l : list string) : list string :=
  match l with [] => [String c ""] | t :: l => String c t :: l end.

Fixpoint split_row (st : qstate) (s : string) : list string :=
  match s with
  | "" => [""]
  | String c s =>
      if is_sep st c then "" :: split_row Out s
      else cons_head c (split_row (qnext st c) s)
  end.

(** The state after a token, [None] when it holds a separator. *)
Fixpoint scan (st : qstate) (s : string) : option qstate :=
  match s with
  | "" => Some st
  | String c s => if is_sep st c then None else scan (qnext st c) s
  end.

Lemma scan_app st a b : scan st (a +:+ b) = match scan st a with Some st' => scan st' b | None => None end.
Proof. revert st. induction a as [|c a IH]; intros st; simpl; [done|]. by destruct (is_sep st c). Qed.

Lemma split_row_token st t rest :
  scan st t = Some Out -> split_row st (t +:+ "," +:+ rest) = t :: split_row Out rest.
Proof.
  revert st. induction t as [|c t IH]; intros st; simpl; [by intros [= ->]|].
  destruct (is_sep st c); [done|]. intros H. simpl in IH. by rewrite IH.
Qed.

Lemma split_row_last st t : scan st t = Some Out -> split_row st t = [t].
Proof.
  revert st. induction t as [|c t IH]; intros st; simpl; [done|].
  destruct (is_sep st c); [done|]. intros H. by rewrite IH.
Qed.

Lemma split_row_join l :
  l <> [] -> Forall (fun t => scan Out t = Some Out) l -> split_row Out (join "," l) = l.
Proof.
  intros Hne. induction 1 as [|t l Ht Hl IH]; [done|].
  destruct l as [|u l]; [by apply split_row_last|].
  change (join "," (t :: u :: l)) with (t +:+ "," +:+ join "," (u :: l)).
  rewrite split_row_token by done. by rewrite IH.
Qed.

Definition plain_byte (c : ascii) : bool := negb (Ascii.eqb c "," || Ascii.eqb c dquote).

Lemma scan_plain s : str_forall plain_byte s = true -> scan Out s = Some Out.
Proof.
  induction s as [|c s IH]; simpl; [done|]. unfold plain_byte at 1.
  rewrite andb_true_iff, negb_true_iff, orb_false_iff. intros [[-> ->] Hs]. auto.
Qed.

Lemma scan_escape_byte c t : scan In (escape_byte c +:+ t) = scan In t.
Proof.
  destruct (ascii_byte c) eqn:Hc.
  - destruct c as [[] [] [] [] [] [] [] []]; try done.
  - unfold escape_byte. rewrite Hc. simpl. unfold ascii_byte in Hc.
    replace (Ascii.eqb c dquote) with false; [replace (Ascii.eqb c backslash) with false; [done|]|];
      symmetry; apply Ascii.eqb_neq; intros ->; done.
Qed.

Lemma scan_quoteString s : valid_utf8 s = true -> scan Out (quoteString s) = Some Out.
Proof.
  intros H. rewrite quoteString_bytes by done. simpl. clear H.
  induction s as [|c s IH]; [done|]. simpl. by rewrite <- str_app_assoc, scan_escape_byte.
Qed.

Lemma scan_encodeString s : valid_utf8 s = true -> scan Out (encodeString s) = Some Out.
Proof.
  intros Hv. unfold encodeString. destruct (needsQuoting s) eqn:Hq; [by apply scan_quoteString|].
  apply scan_plain. apply unquoted_no_structural in Hq. unfold contains_any in Hq.
  apply str_exists_false in Hq. eapply str_forall_impl; [|exact Hq]. clear.
  apply ascii_impl_dec. vm_compute. reflexivity.
Qed.

Lemma numeric_plain s : matches numericLikeRE s -> str_forall plain_byte s = true.
Proof.
  intros H%matches_bytes. eapply str_forall_impl; [|exact H].
  apply ascii_impl_dec. vm_compute. reflexivity.
Qed.

(** ** Keys *)

(** A key token up to its end: an unquoted key is its own bytes. *)
Definition read_key (s : string) : option string :=
  match s with
  | "" => None
  | String c _ => if Ascii.eqb c dquote then unquote s else Some s
  end.

Lemma read_key_encodeKey k : valid_utf8 k = true -> read_key (encodeKey k) = Some k.
Proof.
  intros Hv. unfold encodeKey. destruct (re_match unquotedKeyRE k) eqn:Hr.
  - destruct k as [|c k]; [by vm_compute in Hr|].
    pose proof (matches_bytes _ _ (proj1 (re_match_spec _ _) Hr)) as Hb. cbn [read_key].
    cbn [str_forall] in Hb. apply andb_true_iff in Hb as [Hb _].
    replace (Ascii.eqb c dquote) with false; [done|]. symmetry. apply Ascii.eqb_neq. by intros ->.
  - pose proof (unquote_quoteString k Hv) as Hu. unfold quoteString in *. cbn [read_key].
    by rewrite Ascii.eqb_refl.
Qed.
