(* ===== verification/ToonNumbers.v ===== *)
(** * Canonical numbers (src/internal/toon/numbers.go)

    A position in a lexeme is modelled by the suffix that starts there, so the
    Go scanners that return [-1] return [None].  [strconv.ParseFloat] and
    [strconv.FormatFloat] of the Go library are in [Float64]. *)
From S2P Require Import Prelude GoStr Regex Float64 ToonValue ToonQuote.

Definition isDigits (s : string) : bool := str_forall is_digit s.

Definition canonicalInteger (lexeme : string) : result string :=
  let neg := has_prefix lexeme "-" in
  let digits := trim_prefix lexeme "-" in
  if String.eqb digits "" || negb (isDigits digits) then Err (MalformedNumber lexeme)
  else
    let digits := trim_left digits "0" in
    if String.eqb digits "" then Ok "0"
    else if neg then Ok ("-" +:+ digits)
    else Ok digits.

Fixpoint skip_digits (s : string) : string :=
  match s with
  | String c s' => if is_digit c then skip_digits s' else s
  | "" => ""
  end.

Definition consumeDigitRun (s : string) : option string :=
  match s with
  | String c s' => if is_digit c then Some (skip_digits s) else None
  | "" => None
  end.

Definition consumeJSONInteger (s : string) : option string :=
  let s := trim_prefix s "-" in
  match s with
  | "" => None
  | String c s' =>
      if Ascii.eqb c "0" then Some s'
      else if negb (in_range 49 57 c) then None
      else Some (skip_digits s)
  end.

Definition consume_fraction (s : string) : option string :=
  match s with
  | String "."%char s' => consumeDigitRun s'
  | _ => Some s
  end.

Definition consume_sign (s : string) : string :=
  match s with
  | String c s' => if Ascii.eqb c "+" || Ascii.eqb c "-" then s' else s
  | "" => ""
  end.

Definition consume_exponent (s : string) : option string :=
  match s with
  | String c s' => if Ascii.eqb c "e" || Ascii.eqb c "E" then consumeDigitRun (consume_sign s') else Some s
  | "" => Some s
  end.

Definition isValidJSONNumberLexeme (s : string) : bool :=
  match consumeJSONInteger s with
  | None => false
  | Some i =>
      match consume_fraction i with
      | None => false
      | Some i =>
          match consume_exponent i with
          | None => false
          | Some i => String.eqb i ""
          end
      end
  end.

Fixpoint hasMantissaNonZeroDigit (lexeme : string) : bool :=
  match lexeme with
  | "" => false
  | String c s =>
      if Ascii.eqb c "e" || Ascii.eqb c "E" then false
      else if in_range 49 57 c then true
      else hasMantissaNonZeroDigit s
  end.

Definition to_lower_byte (c : ascii) : ascii := if is_upper c then az (bz c + 32) else c.
(** [strings.ToLower] on an ASCII string. *)
Definition to_lower (s : string) : string := str_flat_map (fun c => String (to_lower_byte c) "") s.

Definition normalizeOutOfRangeLexeme (lexeme : string) : string :=
  let lo := to_lower lexeme in
  let '(mantissa, expStr, hasExp) := cut_byte lo "e" in
  if negb hasExp then lo
  else
    let expStr := if negb (has_prefix expStr "+") && negb (has_prefix expStr "-")
                  then "+" +:+ expStr else expStr in
    mantissa +:+ "e" +:+ expStr.

Definition passThroughOutOfRange (lexeme : string) : result string :=
  if negb (isValidJSONNumberLexeme lexeme) then Err (MalformedNumber lexeme)
  else Ok (normalizeOutOfRangeLexeme lexeme).

Definition canonicalExponent (f : float) : string :=
  let '(mantissa, exp, _) := cut_byte (format_e f) "e" in
  let '(sign, exp) :=
    if has_prefix exp "-" then ("-", str_drop 1 exp) else ("+", trim_prefix exp "+") in
  let exp := trim_left exp "0" in
  let exp := if String.eqb exp "" then "0" else exp in
  mantissa +:+ "e" +:+ sign +:+ exp.

Definition canonicalFloat (lexeme : string) : result string :=
  if negb (isValidJSONNumberLexeme lexeme) then Err (MalformedNumber lexeme)
  else
    match parse_float lexeme with
    | PRange => passThroughOutOfRange lexeme
    | PSyntax => Err (MalformedNumber lexeme)
    | POk f =>
        if float_is_zero f then
          if hasMantissaNonZeroDigit lexeme then passThroughOutOfRange lexeme else Ok "0"
        else if float_abs_in_plain_range f then Ok (format_f f)
        else Ok (canonicalExponent f)
    end.

Definition canonicalizeNumber (lexeme : string) : result string :=
  if negb (contains_any lexeme ".eE") then canonicalInteger lexeme else canonicalFloat lexeme.

Definition encodeNum (n : string) : result string := canonicalizeNumber n.

(** ** The grammar of JSON numbers *)
Definition digits1 (d : string) : Prop := str_forall is_digit d = true /\ d <> "".
Definition int_part (ip : string) : Prop := digits1 ip /\ (ip = "0" \/ no_leading_zero ip).
Definition frac_part (fr : string) : Prop := fr = "" \/ exists d, fr = String "." d /\ digits1 d.
Definition exp_sign (sg : string) : Prop := sg = "" \/ sg = "+" \/ sg = "-".
Definition exp_part (ex : string) : Prop :=
  ex = "" \/ exists e sg d, ex = String e (sg +:+ d) /\ (e = "e"%char \/ e = "E"%char) /\ exp_sign sg /\ digits1 d.

(** RFC 8259: [-? int frac? exp?]. *)
Inductive json_number : string -> Prop :=
| JsonNumber sg ip fr ex :
    sg = "" \/ sg = "-" -> int_part ip -> frac_part fr -> exp_part ex ->
    json_number (sg +:+ ip +:+ fr +:+ ex).

Definition no_digit_head (s : string) : Prop :=
  match s with "" => True | String c _ => is_digit c = false end.

Lemma skip_digits_app d r : str_forall is_digit d = true -> no_digit_head r -> skip_digits (d +:+ r) = r.
Proof.
  induction d as [|c d IH]; simpl.
  - destruct r as [|c r]; simpl; [done|]. by intros _ ->.
  - rewrite andb_true_iff. intros [-> Hd]. auto.
Qed.

Lemma skip_digits_spec s :
  exists d, s = d +:+ skip_digits s /\ str_forall is_digit d = true /\ no_digit_head (skip_digits s).
Proof.
  induction s as [|c s (d & E & Hd & Hn)]; simpl; [by exists ""|].
  destruct (is_digit c) eqn:Hc; [|by exists ""].
  exists (String c d). simpl. by rewrite Hc, <- E.
Qed.

Lemma consumeDigitRun_spec s r :
  consumeDigitRun s = Some r <-> exists d, s = d +:+ r /\ digits1 d /\ no_digit_head r.
Proof.
  unfold consumeDigitRun. split.
  - destruct s as [|c s]; [done|]. destruct (is_digit c) eqn:Hc; [|done]. intros [= <-].
    destruct (skip_digits_spec (String c s)) as (d & E & Hd & Hn). exists d. split_and!; [done| |done].
    split; [done|]. intros ->. simpl in E. rewrite Hc in E.
    assert (Hl := f_equal String.length E). destruct (skip_digits_spec s) as (d' & E' & _).
    apply (f_equal String.length) in E'. rewrite str_length_app in E'. simpl in Hl. lia.
  - intros (d & -> & [Hd Hne] & Hn). destruct d as [|c d]; [done|]. cbn [append].
    change (String c (d +:+ r)) with (String c d +:+ r).
    rewrite skip_digits_app by done. simpl in Hd |- *. apply andb_true_iff in Hd as [-> _]. done.
Qed.

Lemma consume_fraction_spec s r :
  consume_fraction s = Some r /\ no_digit_head s -> exists fr, s = fr +:+ r /\ frac_part fr /\ no_digit_head r.
Proof.
  intros [H Hs]. destruct s as [|c s]; [injection H as <-; exists ""; split_and!; [done|by left|done]|].
  destruct (decide (c = "."%char)) as [->|Hc].
  - apply consumeDigitRun_spec in H as (d & -> & Hd & Hn).
    exists (String "." d). split_and!; [done|right; eauto|done].
  - assert (r = String c s) as ->.
    { destruct c as [[] [] [] [] [] [] [] []]; simpl in H; congruence. }
    exists "". split_and!; [done|by left|done].
Qed.

Lemma consume_fraction_app fr r :
  frac_part fr -> no_digit_head r -> (fr = "" -> match r with String c _ => c <> "."%char | _ => True end) ->
  consume_fraction (fr +:+ r) = Some r.
Proof.
  intros [->|(d & -> & Hd)] Hn Hr.
  - simpl. specialize (Hr eq_refl). destruct r as [|c r]; [done|].
    destruct c as [[] [] [] [] [] [] [] []]; simpl in *; congruence.
  - simpl. apply consumeDigitRun_spec. eauto.
Qed.

Lemma is_exp_char c : Ascii.eqb c "e" || Ascii.eqb c "E" = true <-> c = "e"%char \/ c = "E"%char.
Proof. by rewrite orb_true_iff, !Ascii.eqb_eq. Qed.

Lemma consume_exponent_spec s :
  consume_exponent s = Some "" <-> exp_part s.
Proof.
  unfold exp_part. destruct s as [|c s]; simpl.
  { split; [by left|done]. }
  destruct (_ || _) eqn:E.
  - apply is_exp_char in E. rewrite consumeDigitRun_spec. split.
    + intros (d & Es & Hd & _). rewrite str_app_nil_r in Es. right. unfold consume_sign in Es.
      destruct s as [|x s]; [by subst d; destruct Hd|]. destruct (_ || _) eqn:Ex in Es.
      * exists c, (String x ""), d. subst s. split_and!; [done|done| |done].
        rewrite orb_true_iff, !Ascii.eqb_eq in Ex. right. destruct Ex as [-> | ->]; auto.
      * exists c, "", d. subst d. split_and!; [done|done|by left|done].
    + intros [?|(e & sg & d & [= <- ->] & _ & Hsg & Hd)]; [done|]. exists d.
      rewrite str_app_nil_r. split_and!; [|done|done].
      destruct Hsg as [->|[->| ->]]; simpl; [|done|done].
      destruct d as [|x d]; [done|]. simpl. destruct Hd as [Hd _]. simpl in Hd.
      apply andb_true_iff in Hd as [Hx _].
      replace (Ascii.eqb x "+" || Ascii.eqb x "-") with false; [done|].
      symmetry. apply orb_false_iff. split; apply Ascii.eqb_neq; by intros ->.
  - split; [by intros [= ?]|]. intros [?|(e & sg & d & [= -> ->] & He & _)]; [done|].
    apply is_exp_char in He. by rewrite He in E.
Qed.

Lemma consumeJSONInteger_spec s r :
  consumeJSONInteger s = Some r -> 
  exists sg ip, s = sg +:+ ip +:+ r /\ (sg = "" \/ sg = "-") /\ int_part ip /\ (ip <> "0" -> no_digit_head r).
Proof.
  unfold consumeJSONInteger. intros H.
  assert (exists sg, s = sg +:+ trim_prefix s "-" /\ (sg = "" \/ sg = "-")) as (sg & Es & Hsg).
  { destruct (has_prefix s "-") eqn:E.
    - apply has_prefix_spec in E as [t ->]. exists "-". rewrite trim_prefix_app. auto.
    - exists "". unfold trim_prefix. rewrite E. auto. }
  rewrite Es. exists sg. destruct (trim_prefix s "-") as [|c t]; [done|].
  destruct (Ascii.eqb_spec c "0") as [->|Hc].
  - injection H as <-. exists "0". split_and!; [done|done| |done]. split; [done|by left].
  - destruct (in_range 49 57 c) eqn:Hr; [simpl in H|done].
    assert (is_digit c = true) as Hd by (unfold is_digit, in_range in *; bool_to_prop; lia).
    rewrite Hd in H. injection H as <-.
    destruct (skip_digits_spec t) as (d & E & Hds & Hn).
    exists (String c d). rewrite str_app_cons, <- E. split_and!; [done|done| |done].
    split; [|by right]. split; [|done]. simpl. by rewrite Hd, Hds.
Qed.

Lemma consumeJSONInteger_app sg ip r :
  sg = "" \/ sg = "-" -> int_part ip -> no_digit_head r -> consumeJSONInteger (sg +:+ ip +:+ r) = Some r.
Proof.
  intros Hsg [[Hd Hne] Hz] Hn. unfold consumeJSONInteger.
  assert (Ht : trim_prefix (sg +:+ ip +:+ r) "-" = ip +:+ r).
  { destruct Hsg as [->| ->]; [|apply trim_prefix_app].
    destruct ip as [|c ip]; [done|]. unfold trim_prefix. simpl. simpl in Hd.
    apply andb_true_iff in Hd as [Hc _]. replace (Ascii.eqb c "-") with false; [done|].
    symmetry. apply Ascii.eqb_neq. by intros ->. }
  rewrite Ht. destruct ip as [|c ip]; [done|]. cbn [append].
  destruct (Ascii.eqb_spec c "0") as [->|Hc].
  - destruct Hz as [[= ->]|Hz]; [done|]. by simpl in Hz.
  - change (String c (ip +:+ r)) with (String c ip +:+ r). rewrite skip_digits_app by done.
    replace (in_range 49 57 c) with true; [done|]. symmetry.
    simpl in Hd. apply andb_true_iff in Hd as [Hd _]. unfold is_digit, in_range in *. bool_to_prop.
    enough (bz c <> 48) by lia. intros E. apply Hc. apply bz_inj. by rewrite E.
Qed.

Lemma frac_exp_head fr ex : frac_part fr -> exp_part ex -> no_digit_head (fr +:+ ex).
Proof.
  intros [->|(d & -> & _)] He; [|done]. simpl.
  destruct He as [->|(e & sg & d & -> & [->| ->] & _)]; done.
Qed.

Lemma isValidJSONNumberLexeme_spec s : isValidJSONNumberLexeme s = true <-> json_number s.
Proof.
  unfold isValidJSONNumberLexeme. split.
  - destruct (consumeJSONInteger s) as [i|] eqn:E1; [|done].
    destruct (consume_fraction i) as [j|] eqn:E2; [|done].
    destruct (consume_exponent j) as [k|] eqn:E3; [|done].
    intros ->%String.eqb_eq.
    apply consumeJSONInteger_spec in E1 as (sg & ip & -> & Hsg & Hip & Hn).
    apply consume_exponent_spec in E3.
    assert (no_digit_head i) as Hi.
    { destruct i as [|c i]; [done|]. simpl in E2.
      destruct (decide (c = "."%char)) as [->|Hc]; [done|].
      assert (j = String c i) as -> by (destruct c as [[] [] [] [] [] [] [] []]; simpl in E2; congruence).
      destruct E3 as [?|(e & sg' & d & [= -> _] & [->| ->] & _)]; done. }
    destruct (consume_fraction_spec i j) as (fr & -> & Hfr & _); [done|]. by constructor.
  - destruct 1 as [sg ip fr ex Hsg Hip Hfr Hex].
    rewrite consumeJSONInteger_app by (try done; by apply frac_exp_head).
    rewrite consume_fraction_app; [|done| |].
    + apply consume_exponent_spec in Hex. by rewrite Hex.
    + by apply (frac_exp_head "" ex); [left|].
    + intros _. destruct Hex as [->|(e & sg' & d & -> & [->| ->] & _)]; done.
Qed.

(** ** Every canonical number reads as a number *)
Lemma numeric_parts sg ip fr ex :
  exp_sign sg -> digits1 ip -> frac_part fr -> exp_part ex -> matches numericLikeRE (sg +:+ ip +:+ fr +:+ ex).
Proof.
  intros Hsg [Hd Hne] Hfr Hex.
  assert (Hs : forall sg, exp_sign sg -> matches (ROpt sign_re) sg).
  { intros s [->|[->| ->]]; apply re_match_spec; reflexivity. }
  assert (Hds : forall d, digits1 d -> matches digits_re d) by (intros d []; by apply matches_plus_cls).
  apply MCat; [auto|]. apply MCat; [by apply Hds|]. apply MCat.
  - destruct Hfr as [->|(d & -> & Hd')]; [apply MAltL; constructor|].
    apply MAltR. change (String "." d) with (String "." "" +:+ d). apply MCat; [by constructor|auto].
  - destruct Hex as [->|(e & sg' & d & -> & He & Hsg' & Hd')]; [apply MAltL; constructor|].
    apply MAltR. change (String e (sg' +:+ d)) with (String e "" +:+ (sg' +:+ d)).
    apply MCat; [constructor; by apply is_exp_char|]. apply MCat; auto.
Qed.

Lemma trim_left_digits s : str_forall is_digit s = true -> str_forall is_digit (trim_left s "0") = true.
Proof.
  induction s as [|c s IH]; simpl; [done|]. rewrite andb_true_iff. intros [Hc Hs].
  destruct (_ || _); [auto|]. simpl. by rewrite Hc.
Qed.

Lemma canonicalInteger_shape s t :
  canonicalInteger s = Ok t -> exists sg ip, t = sg +:+ ip /\ (sg = "" \/ sg = "-") /\ int_part ip /\ t <> "-0".
Proof.
  unfold canonicalInteger. destruct (_ || _) eqn:E; [done|]. bool_to_prop. destruct E as [E1 E2].
  apply String.eqb_neq in E1. apply trim_left_digits in E2.
  assert (Hz : forall u, trim_left u "0" <> "" -> no_leading_zero (trim_left u "0")).
  { intros u. induction u as [|c u IH]; simpl; [done|]. rewrite orb_false_r.
    destruct (Ascii.eqb_spec c "0"); [done|]. done. }
  specialize (Hz (trim_prefix s "-")). set (d := trim_left _ _) in *.
  destruct (String.eqb_spec d "") as [_|Hne].
  - intros [= <-]. exists "", "0". split_and!; [done|by left| |done]. split; [done|by left].
  - specialize (Hz Hne). assert (int_part d) by (split; [done|by right]).
    destruct (has_prefix s "-"); intros [= <-].
    + exists "-", d. split_and!; [done|by right|done|]. intros [= ->]. done.
    + exists "", d. split_and!; [done|by left|done|]. intros E. destruct H as [[Hd _] _]. by rewrite E in Hd.
Qed.

Lemma digits1_app_l a b : digits1 a -> str_forall is_digit b = true -> digits1 (a +:+ b).
Proof. intros [Ha Hne] Hb. split; [by rewrite str_forall_app, Ha, Hb|]. by destruct a. Qed.

Lemma digits1_intro s : str_forall is_digit s = true -> no_leading_zero s -> digits1 s.
Proof. intros ? Hz. split; [done|]. intros ->. done. Qed.

Lemma str_forall_take_drop p n s :
  str_forall p s = true -> str_forall p (str_take n s) = true /\ str_forall p (str_drop n s) = true.
Proof.
  intros H. rewrite <- (str_take_drop n s), str_forall_app, andb_true_iff in H. done.
Qed.

Lemma repeat_zero_digits n : str_forall is_digit (str_repeat "0" n) = true.
Proof. by induction n. Qed.

Lemma nonempty_length s : s <> "" <-> (0 < String.length s)%nat.
Proof. destruct s; simpl; split; intros; try lia; done. Qed.

Lemma plain_digits_shape ds dp :
  digits1 ds -> exists ip fr, plain_digits ds dp = ip +:+ fr /\ digits1 ip /\ frac_part fr.
Proof.
  intros [Hd Hne]. unfold plain_digits.
  assert (slen ds <> 0) by (unfold slen; apply nonempty_length in Hne; lia).
  replace (slen ds =? 0) with false by (symmetry; bool_to_prop; lia).
  destruct (0 <? dp) eqn:E1; [destruct (slen ds <=? dp) eqn:E2|]; bool_to_prop.
  - exists (ds +:+ str_repeat "0" (Z.to_nat (dp - slen ds))), "". rewrite str_app_nil_r.
    split_and!; [done| |by left]. apply digits1_app_l; [done|apply repeat_zero_digits].
  - destruct (str_forall_take_drop is_digit (Z.to_nat dp) ds Hd) as [Ht Hr]. unfold slen in *.
    exists (str_take (Z.to_nat dp) ds), (String "." (str_drop (Z.to_nat dp) ds)).
    split_and!; [done|split; [done|]|right; eexists; split; [done|split; [done|]]];
      apply nonempty_length; rewrite ?str_length_take, ?str_length_drop; lia.
  - exists "0", (String "." (str_repeat "0" (Z.to_nat (- dp)) +:+ ds)).
    split_and!; [done|done|]. right. eexists. split; [done|].
    split; [by rewrite str_forall_app, repeat_zero_digits, Hd|].
    intros [_ ?]%str_app_eq_nil. done.
Qed.

Lemma sign_string_sign f : exp_sign (sign_string f).
Proof. unfold sign_string, exp_sign. destruct (f_neg f); auto. Qed.

Lemma format_f_numeric f : 0 < f_mant f -> matches numericLikeRE (format_f f).
Proof.
  intros Hm. unfold format_f. destruct (shortest f) as [ds dp] eqn:E.
  destruct (shortest_shape f ds dp Hm E) as [Hd Hz].
  destruct (plain_digits_shape ds dp (digits1_intro _ Hd Hz)) as (ip & fr & -> & Hip & Hfr).
  pose proof (numeric_parts (sign_string f) ip fr "" (sign_string_sign f) Hip Hfr) as H.
  rewrite str_app_nil_r in H. apply H. by left.
Qed.

(** [format_e] cut at its [e]: the mantissa has none. *)
Lemma byte_in_forall p c s : str_forall p s = true -> p c = false -> byte_in c s = false.
Proof.
  intros H Hp. induction s as [|d s IH]; simpl in *; [done|]. apply andb_true_iff in H as [Hd Hs].
  rewrite IH by done. rewrite orb_false_r. apply Ascii.eqb_neq. intros ->. congruence.
Qed.

Lemma mantissa_no_e f ip fr : digits1 ip -> frac_part fr -> byte_in "e" (sign_string f +:+ ip +:+ fr) = false.
Proof.
  intros [Hi _] Hfr. apply (byte_in_forall (fun c => is_digit c || Ascii.eqb c "." || Ascii.eqb c "-")); [|done].
  rewrite !str_forall_app, !andb_true_iff. split_and!.
  - unfold sign_string. by destruct (f_neg f).
  - eapply str_forall_impl; [|exact Hi]. by intros c ->.
  - destruct Hfr as [->|(d & -> & Hd' & _)]; [done|]. simpl. eapply str_forall_impl; [|exact Hd']. by intros c ->.
Qed.

Lemma format_e_cut f :
  0 < f_mant f ->
  exists ip fr es (neg : bool), cut_byte (format_e f) "e"
    = (sign_string f +:+ ip +:+ fr, (if neg then "-" else "+") +:+ es, true)
    /\ digits1 ip /\ frac_part fr /\ digits1 es.
Proof.
  intros Hm. unfold format_e. destruct (shortest f) as [ds dp] eqn:E.
  destruct (shortest_shape f ds dp Hm E) as [Hd Hz].
  assert (Hl : slen ds <> 0) by (unfold slen; destruct ds; simpl in *; [done|lia]).
  replace (slen ds =? 0) with false by (symmetry; bool_to_prop; lia).
  set (es := if Z.abs (dp - 1) <? 10 then _ else _). set (fr := if 1 <? slen ds then _ else _).
  assert (Hip : digits1 (str_take 1 ds)).
  { split; [by apply str_forall_take_drop|]. destruct ds; done. }
  assert (Hfr : frac_part fr).
  { subst fr. destruct (1 <? slen ds) eqn:E1; [|by left]. bool_to_prop. right. eexists. split; [done|].
    split; [by apply str_forall_take_drop|]. apply nonempty_length. rewrite str_length_drop. unfold slen in *. lia. }
  exists (str_take 1 ds), fr, es, (dp - 1 <? 0). split_and!; [|done|done|].
  - match goal with |- cut_byte ?x _ = _ =>
      replace x with ((sign_string f +:+ str_take 1 ds +:+ fr)
        +:+ String "e" ((if dp - 1 <? 0 then "-" else "+") +:+ es)) by (by rewrite <- !str_app_assoc) end.
    apply cut_byte_app. by apply mantissa_no_e.
  - subst es. destruct (dec_string_digits (Z.abs (dp - 1))) as [? ?].
    destruct (Z.abs (dp - 1) <? 10); [by apply (digits1_app_l "0")|done].
Qed.

Lemma canonicalExponent_numeric f : 0 < f_mant f -> matches numericLikeRE (canonicalExponent f).
Proof.
  intros Hm. unfold canonicalExponent.
  destruct (format_e_cut f Hm) as (ip & fr & es & neg & -> & Hip & Hfr & Hes).
  assert (Hexp : forall sg x, exp_sign sg -> str_forall is_digit x = true ->
      matches numericLikeRE ((sign_string f +:+ ip +:+ fr) +:+ "e" +:+ sg +:+ (if String.eqb x "" then "0" else x))).
  { intros sg x Hsg Hx. rewrite <- !str_app_assoc. apply numeric_parts; [apply sign_string_sign|done..|].
    right. exists "e"%char, sg, (if String.eqb x "" then "0" else x). split_and!; [done|by left|done|].
    destruct (String.eqb_spec x ""); done. }
  pose proof (trim_left_digits es (proj1 Hes)) as Htl. destruct neg.
  - assert (has_prefix ("-" +:+ es) "-" = true) as -> by (by destruct es).
    apply (Hexp "-"); [by right; right|done].
  - assert (has_prefix ("+" +:+ es) "-" = false) as -> by done.
    rewrite trim_prefix_app. apply (Hexp "+"); [by right; left|done].
Qed.

(** Out of range: the lexeme itself, with a lower-case [e] and an explicit exponent sign. *)
Lemma to_lower_digits s : str_forall is_digit s = true -> to_lower s = s.
Proof.
  induction s as [|c s IH]; simpl; [done|]. rewrite andb_true_iff. intros [Hc Hs].
  unfold to_lower in *. simpl. rewrite IH by done. f_equal. unfold to_lower_byte, is_upper, in_range.
  unfold is_digit, in_range in Hc. replace (_ && _) with false; [done|]. symmetry. bool_to_prop. lia.
Qed.

Lemma to_lower_app a b : to_lower (a +:+ b) = to_lower a +:+ to_lower b.
Proof. apply str_flat_map_app. Qed.

Lemma to_lower_frac fr : frac_part fr -> to_lower fr = fr.
Proof.
  intros [->|(d & -> & Hd & _)]; [done|]. change (String "." d) with ("." +:+ d).
  by rewrite to_lower_app, (to_lower_digits d).
Qed.

Lemma normalizeOutOfRange_numeric s : json_number s -> matches numericLikeRE (normalizeOutOfRangeLexeme s).
Proof.
  destruct 1 as [sg ip fr ex Hsg [Hip _] Hfr Hex].
  assert (Hes : exp_sign sg) by (unfold exp_sign; tauto).
  assert (Hlow : to_lower (sg +:+ ip +:+ fr) = sg +:+ ip +:+ fr).
  { rewrite !to_lower_app, (to_lower_frac fr), (to_lower_digits ip) by (done || apply Hip).
    destruct Hsg as [->| ->]; done. }
  assert (Hno : byte_in "e" (sg +:+ ip +:+ fr) = false).
  { pose proof (mantissa_no_e (MkFloat (has_prefix sg "-") 0 0) ip fr Hip Hfr) as H.
    destruct Hsg as [->| ->]; exact H. }
  unfold normalizeOutOfRangeLexeme. rewrite !str_app_assoc, <- (str_app_assoc sg), to_lower_app, Hlow.
  destruct Hex as [->|(e & sg' & d & -> & He & Hsg' & Hd)].
  - rewrite str_app_nil_r. destruct (cut_byte _ _) as [[a b] found] eqn:E.
    pose proof (cut_byte_spec (sg +:+ ip +:+ fr) "e") as Hc. rewrite E in Hc. destruct found.
    + destruct Hc as [Hc _]. rewrite Hc in Hno. exfalso. clear -Hno.
      induction a as [|x a IH]; simpl in Hno; [done|]. apply orb_false_iff in Hno as [_ ?]. auto.
    + simpl. pose proof (numeric_parts sg ip fr "" Hes Hip Hfr) as H. rewrite str_app_nil_r in H. apply H. by left.
  - assert (to_lower (String e (sg' +:+ d)) = String "e" (sg' +:+ d)) as ->.
    { change (String e (sg' +:+ d)) with (String e "" +:+ (sg' +:+ d)).
      rewrite !to_lower_app, (to_lower_digits d) by apply Hd.
      destruct He as [->| ->]; destruct Hsg' as [->|[->| ->]]; done. }
    rewrite cut_byte_app by done. simpl negb. cbv iota.
    rewrite <- !str_app_assoc. apply numeric_parts; [done..|]. right.
    destruct Hsg' as [->|[->| ->]].
    + destruct d as [|x d]; [by destruct Hd|]. exists "e"%char.
      assert (Ascii.eqb x "+" = false /\ Ascii.eqb x "-" = false) as [Hx1 Hx2].
      { destruct Hd as [Hd _]. simpl in Hd. apply andb_true_iff in Hd as [Hx _].
        split; apply Ascii.eqb_neq; by intros ->. }
      cbn [append has_prefix]. rewrite Hx1, Hx2.
      exists "+", (String x d). split_and!; [done|by left|by right; left|done].
    + exists "e"%char, "+", d. split_and!; [done|by left|by right; left|done].
    + exists "e"%char, "-", d. split_and!; [done|by left|by right; right|done].
Qed.

(** ** [canonicalizeNumber] *)
Lemma canonicalFloat_numeric s t : canonicalFloat s = Ok t -> matches numericLikeRE t.
Proof.
  unfold canonicalFloat, passThroughOutOfRange.
  destruct (isValidJSONNumberLexeme s) eqn:Hv; [|discriminate]. cbn [negb].
  assert (Hn : matches numericLikeRE (normalizeOutOfRangeLexeme s))
    by (apply normalizeOutOfRange_numeric; by apply isValidJSONNumberLexeme_spec).
  destruct (parse_float s) as [f| |] eqn:Ef; [|by intros [= <-]|discriminate].
  pose proof (parse_float_nonneg s f Ef) as Hf. destruct (float_is_zero f) eqn:Ez.
  - destruct (hasMantissaNonZeroDigit s); intros [= <-]; [done|]. by apply re_match_spec.
  - unfold float_is_zero in Ez. bool_to_prop. assert (0 < f_mant f) by lia.
    destruct (float_abs_in_plain_range f); intros [= <-];
      [by apply format_f_numeric|by apply canonicalExponent_numeric].
Qed.

Lemma canonicalizeNumber_numeric s t : canonicalizeNumber s = Ok t -> matches numericLikeRE t.
Proof.
  unfold canonicalizeNumber. destruct (contains_any s ".eE"); simpl; [apply canonicalFloat_numeric|].
  intros (sg & ip & -> & Hsg & [Hip _] & _)%canonicalInteger_shape.
  pose proof (numeric_parts sg ip "" "") as H. rewrite !str_app_nil_r in H.
  apply H; [unfold exp_sign; tauto|done|by left|by left].
Qed.

Lemma read_token_number s : matches numericLikeRE s -> read_token s = Some (TNumber s).
Proof.
  intros H. pose proof (numeric_plain s H) as Hp. apply re_match_spec in H.
  destruct s as [|c s]; [by vm_compute in H|]. cbn [read_token].
  simpl in Hp. apply andb_true_iff in Hp as [Hc _]. unfold plain_byte in Hc.
  apply negb_true_iff, orb_false_iff in Hc as [_ ->].
  assert (Hne : forall w, re_match numericLikeRE w = false -> String.eqb (String c s) w = false).
  { intros w Hw. apply String.eqb_neq. intros E. rewrite E in H. congruence. }
  by rewrite !Hne, H by reflexivity.
Qed.

(** The integer a decimal lexeme denotes. *)
Definition int_value (s : string) : Z :=
  let '(m, _, _) := read_digits (trim_prefix s "-") 0 0 in if has_prefix s "-" then - m else m.

Lemma read_digits_trim s acc n :
  acc = 0 -> exists n', read_digits (trim_left s "0") 0 n' = read_digits s acc n.
Proof.
  revert acc n. induction s as [|c s IH]; intros acc n ->; [by exists n|]. cbn [trim_left byte_in].
  rewrite orb_false_r. destruct (Ascii.eqb_spec c "0") as [->|Hc]; [|by exists n].
  cbn [read_digits]. change (is_digit "0") with true. cbv iota.
  apply (IH (0 * 10 + (bz "0" - 48)) (n + 1)). done.
Qed.

Lemma read_digits_count s acc n n' :
  fst (fst (read_digits s acc n)) = fst (fst (read_digits s acc n')).
Proof. revert acc n n'. induction s as [|c s IH]; intros; simpl; [done|]. by destruct (is_digit c). Qed.

Lemma canonicalInteger_value s t : canonicalInteger s = Ok t -> int_value t = int_value s.
Proof.
  unfold canonicalInteger. destruct (_ || _) eqn:E; [done|]. bool_to_prop. destruct E as [E1 E2].
  set (d := trim_prefix s "-") in *.
  destruct (read_digits_trim d 0 0 eq_refl) as [n' Hn]. pose proof (read_digits_count (trim_left d "0") 0 n' 0) as Hc.
  rewrite Hn in Hc. unfold int_value at 2. fold d.
  pose proof (trim_left_digits d E2) as Hd.
  destruct (read_digits d 0 0) as [[m k] r]. simpl in Hc.
  destruct (String.eqb_spec (trim_left d "0") "") as [E|Hne].
  { intros [= <-]. rewrite E in Hc. simpl in Hc. subst m. by destruct (has_prefix s "-"). }
  destruct (has_prefix s "-"); intros [= <-]; unfold int_value.
  - change (String "-" (trim_left d "0")) with ("-" +:+ trim_left d "0") in *.
    rewrite trim_prefix_app. replace (has_prefix ("-" +:+ trim_left d "0") "-") with true
      by (symmetry; apply has_prefix_spec; eauto).
    destruct (read_digits (trim_left d "0") 0 0) as [[m' ?] ?]. simpl in Hc. congruence.
  - assert (has_prefix (trim_left d "0") "-" = false) as Hp.
    { destruct (trim_left d "0") as [|x t]; [done|]. simpl in Hd |- *. apply andb_true_iff in Hd as [Hx _].
      rewrite andb_false_iff. left. apply Ascii.eqb_neq. by intros ->. }
    unfold trim_prefix. rewrite Hp. destruct (read_digits (trim_left d "0") 0 0) as [[m' ?] ?]. simpl in Hc. congruence.
Qed.

(** The only error of the number functions. *)
Lemma canonicalizeNumber_err s e : canonicalizeNumber s = Err e -> exists l, e = MalformedNumber l.
Proof.
  unfold canonicalizeNumber. destruct (contains_any s ".eE"); simpl negb; cbv iota.
  - unfold canonicalFloat, passThroughOutOfRange.
    destruct (isValidJSONNumberLexeme s); cbn [negb]; [|intros [= <-]; eauto].
    destruct (parse_float s) as [f| |]; [|discriminate|intros [= <-]; eauto].
    destruct (float_is_zero f); [destruct (hasMantissaNonZeroDigit s); discriminate|].
    destruct (float_abs_in_plain_range f); discriminate.
  - unfold canonicalInteger. destruct (_ || _); [intros [= <-]; eauto|].
    destruct (String.eqb _ ""); [discriminate|]. destruct (has_prefix _ _); discriminate.
Qed.

(** ** Every JSON number is accepted *)
Lemma read_digits_app d r acc n :
  str_forall is_digit d = true -> no_digit_head r ->
  exists m, read_digits (d +:+ r) acc n = (m, n + slen d, r).
Proof.
  revert acc n. induction d as [|c d IH]; intros acc n.
  - intros _ Hr. exists acc. rewrite Z.add_0_r. destruct r as [|c r]; simpl in *; [done|]. by rewrite Hr.
  - simpl. rewrite andb_true_iff. intros [-> Hd] Hr. destruct (IH (acc * 10 + (bz c - 48)) (n + 1) Hd Hr) as [m ->].
    exists m. replace (n + 1 + slen d) with (n + slen (String c d)) by (unfold slen; simpl String.length; lia). done.
Qed.

Lemma read_exp_digits d e : str_forall is_digit d = true -> exists x, read_exp d e = Some x.
Proof.
  revert e. induction d as [|c d IH]; intros e; simpl; [eauto|].
  rewrite andb_true_iff. intros [-> Hd]. by apply IH.
Qed.

Lemma decimal_to_float_no_syntax neg m e nd : decimal_to_float neg m e nd <> PSyntax.
Proof.
  unfold decimal_to_float. destruct (m =? 0); [discriminate|]. destruct (310 <? e); [discriminate|].
  destruct (_ <? -330); [discriminate|]. destruct (0 <=? e); destruct (round_float _ _) as [[? ?]|]; discriminate.
Qed.

Lemma exp_part_head ex : exp_part ex -> no_digit_head ex /\ match ex with String c _ => c <> "."%char | _ => True end.
Proof. intros [->|(e & sg & d & -> & [->| ->] & _)]; done. Qed.

(** The exponent, read after the digits. *)
Lemma parse_exponent neg m fd n ex :
  exp_part ex ->
  (match ex with
   | "" => decimal_to_float neg m (- fd) n
   | String c s' =>
       if Ascii.eqb c "e" || Ascii.eqb c "E" then
         let eneg := has_prefix s' "-" in
         let s' := if eneg then str_drop 1 s' else trim_prefix s' "+" in
         match s', read_exp s' 0 with
         | String _ _, Some e => decimal_to_float neg m ((if eneg then - e else e) - fd) n
         | _, _ => PSyntax
         end
       else PSyntax
   end) <> PSyntax.
Proof.
  intros [->|(e & sg & d & -> & He & Hsg & [Hd Hne])]; [apply decimal_to_float_no_syntax|].
  apply is_exp_char in He. rewrite He. cbv zeta. destruct (read_exp_digits d 0 Hd) as [x Hx].
  assert (Hd0 : forall w, is_digit w = false -> has_prefix d (String w "") = false).
  { intros w Hw. destruct d as [|c d]; [done|]. simpl in Hd |- *. apply andb_true_iff in Hd as [Hc _].
    rewrite andb_false_iff. left. apply Ascii.eqb_neq. intros ->. congruence. }
  assert (exists neg, (if has_prefix (sg +:+ d) "-" then str_drop 1 (sg +:+ d) else trim_prefix (sg +:+ d) "+") = d
          /\ has_prefix (sg +:+ d) "-" = neg) as (eneg & -> & ->).
  { eexists. split; [|done]. destruct Hsg as [->|[->| ->]].
    - cbn [append]. unfold trim_prefix. by rewrite !Hd0 by done.
    - assert (has_prefix ("+" +:+ d) "-" = false) as -> by done. apply trim_prefix_app.
    - assert (has_prefix ("-" +:+ d) "-" = true) as -> by (apply has_prefix_spec; eauto). done. }
  destruct d; [done|]. rewrite Hx. apply decimal_to_float_no_syntax.
Qed.

Lemma parse_float_json s : json_number s -> parse_float s <> PSyntax.
Proof.
  destruct 1 as [sg ip fr ex Hsg [Hip Hz] Hfr Hex]. unfold parse_float.
  assert (trim_prefix (sg +:+ ip +:+ fr +:+ ex) "-" = ip +:+ fr +:+ ex) as ->.
  { destruct Hsg as [->| ->]; [|apply trim_prefix_app]. destruct Hip as [Hd Hne].
    destruct ip as [|c ip]; [done|]. unfold trim_prefix. simpl. simpl in Hd. apply andb_true_iff in Hd as [Hc _].
    replace (Ascii.eqb c "-") with false; [done|]. symmetry. apply Ascii.eqb_neq. by intros ->. }
  destruct (exp_part_head ex Hex) as [Hex1 Hex2].
  destruct (read_digits_app ip (fr +:+ ex) 0 0 (proj1 Hip) (frac_exp_head _ _ Hfr Hex)) as [m ->].
  assert (0 < slen ip) by (destruct Hip as [_ Hne]; apply nonempty_length in Hne; unfold slen; lia).
  destruct Hfr as [->|(d & -> & Hd & Hdne)].
  - cbn [append]. replace (match ex with String "."%char s' => _ | _ => _ end) with (m, 0 + slen ip, 0, ex).
    + replace (0 + slen ip =? 0) with false by (symmetry; bool_to_prop; lia). by apply parse_exponent.
    + destruct ex as [|c ex]; [done|].
      destruct c as [[] [] [] [] [] [] [] []]; try reflexivity. by exfalso.
  - cbn [append]. destruct (read_digits_app d ex m (0 + slen ip) Hd Hex1) as [m' ->].
    pose proof (slen_nonneg d).
    replace (0 + slen ip + slen d =? 0) with false by (symmetry; bool_to_prop; lia). by apply parse_exponent.
Qed.

Lemma encodeNum_json s : json_number s -> exists t, encodeNum s = Ok t.
Proof.
  intros Hj. unfold encodeNum, canonicalizeNumber. destruct (contains_any s ".eE") eqn:Hc; cbn [negb].
  - unfold canonicalFloat, passThroughOutOfRange.
    rewrite (proj2 (isValidJSONNumberLexeme_spec s) Hj). cbn [negb].
    pose proof (parse_float_json s Hj). destruct (parse_float s) as [f| |]; [|eauto|done].
    destruct (float_is_zero f); [destruct (hasMantissaNonZeroDigit s); eauto|].
    destruct (float_abs_in_plain_range f); eauto.
  - destruct Hj as [sg ip fr ex Hsg [[Hd Hne] _] Hfr Hex].
    unfold contains_any in Hc. rewrite !str_exists_app, !orb_false_iff in Hc. destruct Hc as (_ & _ & Hf & He).
    assert (fr = "") as -> by (destruct Hfr as [->|(d & -> & _)]; [done|by vm_compute in Hf]).
    assert (ex = "") as ->.
    { destruct Hex as [->|(e & sg' & d & -> & [->| ->] & _)]; [done|by vm_compute in He..]. }
    rewrite !str_app_nil_r. unfold canonicalInteger.
    assert (trim_prefix (sg +:+ ip) "-" = ip) as ->.
    { destruct Hsg as [->| ->]; [|apply trim_prefix_app]. destruct ip as [|c ip]; [done|].
      unfold trim_prefix. simpl. simpl in Hd. apply andb_true_iff in Hd as [Hc _].
      replace (Ascii.eqb c "-") with false; [done|]. symmetry. apply Ascii.eqb_neq. by intros ->. }
    unfold isDigits. rewrite Hd. replace (String.eqb ip "") with false by (symmetry; by apply String.eqb_neq).
    cbn [orb negb]. destruct (String.eqb (trim_left ip "0") ""); [eauto|].
    destruct (has_prefix (sg +:+ ip) "-"); eauto.
Qed.
