(* ===== verification/ToonEncode.v ===== *)
(** * The TOON encoder (src/internal/toon/encode.go, array.go, keyed.go)

    A function that takes a [*strings.Builder] and returns an error is a [writer]:
    it maps the text built so far to the new text or an error.  The mutually
    recursive writers take fuel, one unit per call; [writer_fuel] is enough for a
    value (theorem [encode_not_out_of_fuel] below), so the out-of-fuel error,
    [None], is not an outcome of [Encode]. *)
From S2P Require Import Prelude GoStr Utf8 Regex Float64 ToonValue ToonQuote ToonNumbers.

Definition newline : string := String (az 10) "".
Definition indentUnit : string := "  ".
Definition maxEncodeDepth : Z := 1024.
Definition maxEncodeBytes : Z := 4 * 1024 * 1024.

(** ** Writers *)
Definition writer : Type := string -> result string.

Definition wseq (w1 w2 : writer) : writer := fun sb => let* sb := w1 sb in w2 sb.
Definition wret : writer := fun sb => Ok sb.
Definition werr (e : toon_error) : writer := fun _ => Err e.
(** [x, err := r; if err != nil { return err }; ...]. *)
Definition wbind {A} (r : result A) (k : A -> writer) : writer := fun sb => let* x := r in k x sb.
Fixpoint weach {A} (f : A -> writer) (l : list A) : writer :=
  match l with [] => wret | x :: l => wseq (f x) (weach f l) end.

Declare Scope writer_scope.
Delimit Scope writer_scope with writer.
Notation "w1 ;;; w2" := (wseq w1 w2) (at level 62, right associativity) : writer_scope.
Notation "'let!' x := r 'in' w" := (wbind r (fun x => w))
  (at level 10, x name, r at level 100, w at level 200) : writer_scope.
#[local] Open Scope writer_scope.

Definition appendString (s : string) : writer := fun sb =>
  if maxEncodeBytes - slen sb <? slen s then Err EncodeTooLarge else Ok (sb +:+ s).

(** [if sb.Len() > maxEncodeBytes { return errEncodeTooLarge }]. *)
Definition checkLen : writer := fun sb => if maxEncodeBytes <? slen sb then Err EncodeTooLarge else Ok sb.

Definition checkDepth (depth : Z) : result unit :=
  if maxEncodeDepth <? depth then Err DepthExceeded else Ok tt.

Definition indent_of (depth : Z) : string := str_repeat indentUnit (Z.to_nat depth).

(** ** Depth validation *)
Fixpoint validateDepth (v : value) (depth : Z) : result unit :=
  match v with
  | VObject fs =>
      let* _ := checkDepth depth in
      (fix validateFieldsDepth (fs : list (string * value)) : result unit :=
         match fs with
         | [] => Ok tt
         | (_, v) :: fs => let* _ := validateDepth v (depth + 1) in validateFieldsDepth fs
         end) fs
  | VArray l =>
      let* _ := checkDepth depth in
      (fix validateItemsDepth (l : list value) : result unit :=
         match l with
         | [] => Ok tt
         | v :: l => let* _ := validateDepth v (depth + 1) in validateItemsDepth l
         end) l
  | _ => Ok tt
  end.

(** ** Primitives *)
Definition encodeBool (b : bool) : string := if b then "true" else "false".

Definition encodeNumber (n : string) : result string :=
  let* s := encodeNum n in
  if maxEncodeBytes <? slen s then Err EncodeTooLarge else Ok s.

Definition encodeText (text : string) : result string :=
  let* _ := validateUTF8 text in
  let s := encodeString text in
  if maxEncodeBytes <? slen s then Err EncodeTooLarge else Ok s.

Definition encodePrimitive (v : value) : result string :=
  match v with
  | VNull => Ok "null"
  | VBool b => Ok (encodeBool b)
  | VNumber n => encodeNumber n
  | VString s => encodeText s
  | VObject _ | VArray _ => Err (NotPrimitive (kind v))
  | VInvalid => Err Uninitialized
  end.

Definition isPrimitive (v : value) : bool :=
  match kind v with KindNull | KindBool | KindNumber | KindString => true | _ => false end.
Definition allPrimitive (l : list value) : bool := forallb isPrimitive l.

(** [joinPrimitives] has a builder of its own. *)
Fixpoint joinPrimitives_from (i : nat) (l : list value) : writer :=
  match l with
  | [] => wret
  | v :: l =>
      let! s := encodePrimitive v in
      (if Nat.ltb 0 i then appendString "," else wret) ;;;
      appendString s ;;;
      joinPrimitives_from (S i) l
  end.
Definition joinPrimitives (l : list value) : result string := joinPrimitives_from 0 l "".

(** ** Tabular columns *)
Inductive tabularCol : Type := TCol (key : string) (children : list tabularCol).
Definition col_key (c : tabularCol) : string := match c with TCol k _ => k end.
Definition col_children (c : tabularCol) : list tabularCol := match c with TCol _ ch => ch end.

Definition fieldKeys (v : value) : list string := map fst (fields v).

(** [fieldIndex]: a later duplicate overwrites an earlier one. *)
Definition fieldIndex (v : value) : gmap string value :=
  foldl (fun idx f => <[fst f := snd f]> idx) ∅ (fields v).

(** [idx[key]] of a Go map: the zero [Value] when absent. *)
Definition index_get (idx : gmap string value) (key : string) : value := default VInvalid (idx !! key).

Fixpoint noDupKeySet_from (set : gset string) (keys : list string) : option (gset string) :=
  match keys with
  | [] => Some set
  | k :: keys => if decide (k ∈ set) then None else noDupKeySet_from ({[k]} ∪ set) keys
  end.
Definition noDupKeySet (keys : list string) : option (gset string) := noDupKeySet_from ∅ keys.

Fixpoint keys_fresh_in (set seen : gset string) (fs : list (string * value)) : bool :=
  match fs with
  | [] => true
  | (k, _) :: fs =>
      if negb (bool_decide (k ∈ set)) || bool_decide (k ∈ seen) then false
      else keys_fresh_in set ({[k]} ∪ seen) fs
  end.
Definition matchesKeySet (v : value) (set : gset string) : bool :=
  if negb (bool_decide (kind v = KindObject)) || negb (Nat.eqb (length (fields v)) (size set)) then false
  else keys_fresh_in set ∅ (fields v).

Definition nonEmptyObject (v : value) : bool :=
  bool_decide (kind v = KindObject) && negb (Nat.eqb (length (fields v)) 0).
Definition allNonEmptyObjects (vals : list value) : bool := forallb nonEmptyObject vals.

Definition columnValues (indexes : list (gmap string value)) (key : string) : list value :=
  map (fun idx => index_get idx key) indexes.

(** The keys every element shares: those of the first, without duplicates. *)
Definition sharedKeys (vals : list value) : option (list string) :=
  match vals with
  | [] => None
  | v :: rest =>
      match noDupKeySet (fieldKeys v) with
      | None => None
      | Some set => if forallb (fun v => matchesKeySet v set) rest then Some (fieldKeys v) else None
      end
  end.

(** One unit of fuel per level of nested columns. *)
Fixpoint classifyColumn (fuel : nat) (indexes : list (gmap string value)) (key : string)
    : option tabularCol :=
  let vals := columnValues indexes key in
  if allPrimitive vals then Some (TCol key [])
  else if negb (allNonEmptyObjects vals) then None
  else
    (* classifyNestedColumn *)
    match fuel with
    | O => None
    | S fuel =>
        match sharedKeys vals with
        | None => None
        | Some subKeys =>
            match mapM (classifyColumn fuel (map fieldIndex vals)) subKeys with
            | None => None
            | Some children => Some (TCol key children)
            end
        end
    end.

Definition classifyColumns (fuel : nat) (indexes : list (gmap string value)) (keys : list string)
    : option (list tabularCol) :=
  mapM (classifyColumn fuel indexes) keys.

Definition columns_fuel (vals : list value) : nat := depth (VArray vals).

Definition tabularFields (l : list value) : option (list tabularCol) :=
  match l with
  | [] => None (* not called: Go would panic on items[0] *)
  | v :: _ =>
      if negb (nonEmptyObject v) then None
      else match sharedKeys l with
           | None => None
           | Some keys => classifyColumns (columns_fuel l) (map fieldIndex l) keys
           end
  end.

Definition entryValues (v : value) : list value := map snd (fields v).

Definition keyedTabularCols (v : value) : option (list tabularCol) :=
  if Nat.ltb (length (fields v)) 2 then None
  else
    let entries := entryValues v in
    if negb (allNonEmptyObjects entries) then None
    else match sharedKeys entries with
         | None => None
         | Some keys => classifyColumns (columns_fuel entries) (map fieldIndex entries) keys
         end.

(** The cells of a row, in column order. *)
Fixpoint leafCol (idx : gmap string value) (c : tabularCol) : list value :=
  match c with
  | TCol key children =>
      let v := index_get idx key in
      match children with
      | [] => [v]
      | _ => flat_map (leafCol (fieldIndex v)) children
      end
  end.
Definition leafValues (idx : gmap string value) (cols : list tabularCol) : list value :=
  flat_map (leafCol idx) cols.

(** ** Headers and rows *)
Fixpoint wsep {A} (sep : writer) (f : A -> writer) (l : list A) (i : nat) : writer :=
  match l with
  | [] => wret
  | x :: l => (if Nat.ltb 0 i then sep else wret) ;;; f x ;;; wsep sep f l (S i)
  end.

Fixpoint writeColHeader (col : tabularCol) : writer :=
  match col with
  | TCol key children =>
      let! _ := validateUTF8 key in
      appendString (encodeKey key) ;;;
      match children with
      | [] => wret
      | _ => appendString "{" ;;; wsep (appendString ",") writeColHeader children 0 ;;; appendString "}"
      end
  end.
Definition writeColHeaders (cols : list tabularCol) : writer := wsep (appendString ",") writeColHeader cols 0.

Definition writeTabularHeader (key : string) (count : Z) (cols : list tabularCol) : writer :=
  appendString key ;;; appendString ("[" +:+ itoa count +:+ "]{") ;;; writeColHeaders cols ;;; appendString ("}:" +:+ newline).

Definition writeKeyedHeader (key : string) (count : Z) (cols : list tabularCol) : writer :=
  appendString key ;;; appendString ("[" +:+ itoa count +:+ ":]{") ;;; writeColHeaders cols ;;; appendString ("}:" +:+ newline).

Definition writeTabularRow (indent : string) (values : list value) : writer :=
  let! row := joinPrimitives values in
  appendString indent ;;; appendString row ;;; appendString newline.

Definition writeTabularArray (key : string) (itemDepth : Z) (l : list value) (cols : list tabularCol) : writer :=
  let! _ := checkDepth itemDepth in
  writeTabularHeader key (Z.of_nat (length l)) cols ;;;
  weach (fun it => writeTabularRow (indent_of itemDepth) (leafValues (fieldIndex it) cols)) l.

Definition writeKeyedEntry (indent : string) (field : string * value) (cols : list tabularCol) : writer :=
  let! _ := validateUTF8 (fst field) in
  let! cells := joinPrimitives (leafValues (fieldIndex (snd field)) cols) in
  appendString indent ;;; appendString (encodeKey (fst field) +:+ ": ") ;;; appendString (cells +:+ newline).

Definition writeKeyedTabular (key : string) (entryDepth : Z) (object : value) (cols : list tabularCol) : writer :=
  let! _ := checkDepth entryDepth in
  writeKeyedHeader key (Z.of_nat (length (fields object))) cols ;;;
  weach (fun f => writeKeyedEntry (indent_of entryDepth) f cols) (fields object).

(** ** Arrays *)
Record arrayCtx : Type := ArrayCtx { Key : string; ItemDepth : Z; AllowTabular : bool; FieldEmpty : bool }.

Definition writeEmptyArray (ctx : arrayCtx) : writer :=
  if FieldEmpty ctx then appendString (Key ctx +:+ ": []" +:+ newline) else appendString ("[0]:" +:+ newline).

Definition writeInlineArray (l : list value) (encodedKey : string) : writer :=
  let! row := joinPrimitives l in
  appendString encodedKey ;;; appendString ("[" +:+ itoa (Z.of_nat (length l)) +:+ "]: ") ;;;
  appendString row ;;; appendString newline.

Definition writePrimitiveListItem (item : value) (depth : Z) : writer :=
  let! s := encodePrimitive item in
  appendString (indent_of depth +:+ "- " +:+ s +:+ newline).

(** ** Fields and list items *)
Definition out_of_fuel : writer := fun _ => Err OutOfFuel.

Fixpoint writeFields (fuel : nat) (fs : list (string * value)) (depth : Z) : writer :=
  match fuel with
  | O => out_of_fuel
  | S fuel =>
      let! _ := checkDepth depth in
      checkLen ;;; weach (fun f => writeField fuel f depth) fs
  end

with writeField (fuel : nat) (f : string * value) (depth : Z) : writer :=
  match fuel with
  | O => out_of_fuel
  | S fuel => appendString (indent_of depth) ;;; writeFieldBody fuel f depth
  end

with writeFieldBody (fuel : nat) (f : string * value) (depth : Z) : writer :=
  match fuel with
  | O => out_of_fuel
  | S fuel =>
      let '(key, val) := f in
      let! _ := validateUTF8 key in
      if decide (kind val = KindArray) then
        writeArray fuel (items val)
          {| Key := encodeKey key; ItemDepth := depth + 1; AllowTabular := true; FieldEmpty := true |}
      else
        match (if decide (kind val = KindObject) then keyedTabularCols val else None) with
        | Some cols => writeKeyedTabular (encodeKey key) (depth + 1) val cols
        | None =>
            appendString (encodeKey key) ;;; appendString ":" ;;; writeFieldValue fuel val depth
        end
  end

with writeFieldValue (fuel : nat) (v : value) (depth : Z) : writer :=
  match fuel with
  | O => out_of_fuel
  | S fuel =>
      if decide (kind v = KindObject) then
        appendString newline ;;; writeFields fuel (fields v) (depth + 1)
      else
        let! s := encodePrimitive v in
        appendString " " ;;; appendString s ;;; appendString newline
  end

with writeArray (fuel : nat) (l : list value) (ctx : arrayCtx) : writer :=
  match fuel with
  | O => out_of_fuel
  | S fuel =>
      if Nat.eqb (length l) 0 then writeEmptyArray ctx
      else if allPrimitive l then writeInlineArray l (Key ctx)
      else
        match (if AllowTabular ctx then tabularFields l else None) with
        | Some cols => writeTabularArray (Key ctx) (ItemDepth ctx) l cols
        | None =>
            appendString (Key ctx) ;;;
            appendString ("[" +:+ itoa (Z.of_nat (length l)) +:+ "]:" +:+ newline) ;;;
            writeListItems fuel l (ItemDepth ctx)
        end
  end

with writeListItems (fuel : nat) (l : list value) (depth : Z) : writer :=
  match fuel with
  | O => out_of_fuel
  | S fuel =>
      let! _ := checkDepth depth in
      checkLen ;;; weach (fun it => writeListItem fuel it depth) l
  end

with writeListItem (fuel : nat) (item : value) (depth : Z) : writer :=
  match fuel with
  | O => out_of_fuel
  | S fuel =>
      match kind item with
      | KindObject => writeObjectListItem fuel item depth
      | KindArray =>
          appendString (indent_of depth +:+ "- ") ;;;
          writeArray fuel (items item)
            {| Key := ""; ItemDepth := depth + 1; AllowTabular := false; FieldEmpty := false |}
      | _ => writePrimitiveListItem item depth
      end
  end

with writeObjectListItem (fuel : nat) (item : value) (depth : Z) : writer :=
  match fuel with
  | O => out_of_fuel
  | S fuel =>
      match fields item with
      | [] => appendString (indent_of depth +:+ "-" +:+ newline)
      | f :: rest =>
          appendString (indent_of depth +:+ "- ") ;;;
          writeFieldBody fuel f (depth + 1) ;;;
          writeFields fuel rest (depth + 1)
      end
  end.

(** ** The root forms *)
Definition writer_fuel (v : value) : nat := 6 * S (depth v).

Definition trim_newline (s : string) : string := trim_suffix s newline.

Definition encodeRootArray (l : list value) : result string :=
  if Nat.eqb (length l) 0 then Ok "[]"
  else
    let* sb := writeArray (writer_fuel (VArray l)) l
                 {| Key := ""; ItemDepth := 1; AllowTabular := true; FieldEmpty := false |} "" in
    Ok (trim_newline sb).

Definition encodeRootObject (fs : list (string * value)) : result string :=
  let v := VObject fs in
  match keyedTabularCols v with
  | Some cols =>
      let* sb := writeKeyedTabular "" 1 v cols "" in
      Ok (trim_newline sb)
  | None =>
      let* sb := writeFields (writer_fuel v) fs 0 "" in
      Ok (trim_newline sb)
  end.

Definition Encode (v : value) : result string :=
  let* _ := validateDepth v 0 in
  match v with
  | VNull | VBool _ | VNumber _ | VString _ => encodePrimitive v
  | VObject fs => encodeRootObject fs
  | VArray l => encodeRootArray l
  | VInvalid => Err Uninitialized
  end.
