(* ===== verification/ToonWriter.v ===== *)
(** * The encoder: size, fuel, depth and errors

    [wspec Q w]: from a builder within the size limit, [w] only appends, stays within
    the limit, and fails only with an error in [Q].  The rules below follow the
    structure of the writers; the mutually recursive writers are proved by one
    induction on their fuel. *)
From S2P Require Import Prelude GoStr Utf8 Regex Float64 ToonValue ToonQuote ToonNumbers ToonEncode.
#[local] Open Scope writer_scope.

Definition wspec (Q : toon_error -> Prop) (w : writer) : Prop :=
  forall sb, slen sb <= maxEncodeBytes ->
  match w sb with
  | Ok sb' => (exists t, sb' = sb +:+ t) /\ slen sb' <= maxEncodeBytes
  | Err e => Q e
  end.

Definition rspec {A} (Q : toon_error -> Prop) (r : result A) : Prop :=
  match r with Ok _ => True | Err e => Q e end.

Create HintDb wspec.

Section Rules.
Variable Q : toon_error -> Prop.
Hypothesis Qlarge : Q EncodeTooLarge.

Lemma wspec_ret : wspec Q wret.
Proof. intros sb H. split; [exists ""; by rewrite str_app_nil_r|done]. Qed.

Lemma wspec_append s : wspec Q (appendString s).
Proof.
  intros sb H. unfold appendString. destruct (_ <? _) eqn:E; [done|]. bool_to_prop.
  split; [eauto|]. rewrite slen_app. lia.
Qed.

Lemma wspec_checkLen : wspec Q checkLen.
Proof. intros sb H. unfold checkLen. destruct (_ <? _); [done|]. by apply wspec_ret. Qed.

Lemma wspec_seq w1 w2 : wspec Q w1 -> wspec Q w2 -> wspec Q (w1 ;;; w2).
Proof.
  intros H1 H2 sb H. unfold wseq, rbind. specialize (H1 sb H). destruct (w1 sb) as [sb1|e]; [|done].
  destruct H1 as [[t1 ->] Hl]. specialize (H2 _ Hl). destruct (w2 _) as [sb2|e]; [|done].
  destruct H2 as [[t2 ->] ?]. split; [|done]. exists (t1 +:+ t2). by rewrite str_app_assoc.
Qed.

Lemma wspec_bind {A} (r : result A) k :
  rspec Q r -> (forall x, r = Ok x -> wspec Q (k x)) -> wspec Q (wbind r k).
Proof. intros Hr Hk sb H. unfold wbind. destruct r as [x|e]; simpl; [|done]. by apply Hk. Qed.

Lemma wspec_each {A} (f : A -> writer) l : (forall x, x ∈ l -> wspec Q (f x)) -> wspec Q (weach f l).
Proof.
  induction l as [|x l IH]; intros H; simpl; [apply wspec_ret|].
  apply wspec_seq; [apply H; by left|]. apply IH. intros y Hy. apply H. by right.
Qed.

Lemma wspec_sep {A} sep (f : A -> writer) l i :
  wspec Q sep -> (forall x, x ∈ l -> wspec Q (f x)) -> wspec Q (wsep sep f l i).
Proof.
  intros Hsep. revert i. induction l as [|x l IH]; intros i H; simpl; [apply wspec_ret|].
  apply wspec_seq; [destruct (Nat.ltb 0 i); [done|apply wspec_ret]|].
  apply wspec_seq; [apply H; by left|]. apply IH. intros y Hy. apply H. by right.
Qed.

Lemma rspec_bind {A B} (r : result A) (k : A -> result B) :
  rspec Q r -> (forall x, r = Ok x -> rspec Q (k x)) -> rspec Q (rbind r k).
Proof. destruct r; simpl; auto. Qed.

Lemma joinPrimitives_from_spec i l :
  (forall v, v ∈ l -> rspec Q (encodePrimitive v)) -> wspec Q (joinPrimitives_from i l).
Proof.
  revert i. induction l as [|v l IH]; intros i H; [apply wspec_ret|]. cbn [joinPrimitives_from].
  apply wspec_bind; [apply H; by left|]. intros s _.
  apply wspec_seq; [destruct (Nat.ltb 0 i); [apply wspec_append|apply wspec_ret]|].
  apply wspec_seq; [apply wspec_append|]. apply IH. intros y Hy. apply H. by right.
Qed.

Lemma joinPrimitives_spec l :
  (forall v, v ∈ l -> rspec Q (encodePrimitive v)) -> rspec Q (joinPrimitives l).
Proof.
  intros H. pose proof (joinPrimitives_from_spec 0 l H "") as Hj. unfold joinPrimitives, rspec.
  destruct (joinPrimitives_from 0 l ""); [done|]. apply Hj. done.
Qed.
End Rules.

#[export] Hint Resolve wspec_ret wspec_append wspec_checkLen wspec_seq wspec_each : wspec.

(** ** Induction over columns *)
Section ColInd.
Variable P : tabularCol -> Prop.
Hypothesis Pcol : forall k ch, Forall P ch -> P (TCol k ch).
Fixpoint tabularCol_ind' (c : tabularCol) : P c :=
  match c with
  | TCol k ch =>
      Pcol k ch ((fix go (l : list tabularCol) : Forall P l :=
        match l with
        | [] => Forall_nil_2 _
        | c :: l => Forall_cons_2 _ _ _ (tabularCol_ind' c) (go l)
        end) ch)
  end.
End ColInd.

(** Every key of a column tree satisfies [p]. *)
Fixpoint col_all_keys (p : string -> bool) (c : tabularCol) : bool :=
  match c with TCol k ch => p k && forallb (col_all_keys p) ch end.

Lemma wspec_colHeader (Q : toon_error -> Prop) c :
  Q EncodeTooLarge -> (col_all_keys valid_utf8 c = true \/ Q InvalidUTF8) -> wspec Q (writeColHeader c).
Proof.
  intros HQ. induction c as [k ch IH] using tabularCol_ind'. intros Hk. cbn [writeColHeader].
  apply wspec_bind.
  { unfold validateUTF8. destruct (valid_utf8 k) eqn:E; [done|]. destruct Hk as [Hk|]; [|done].
    simpl in Hk. by rewrite E in Hk. }
  intros _ _. apply wspec_seq; [by apply wspec_append|].
  assert (wspec Q (wsep (appendString ",") writeColHeader ch 0)).
  { apply wspec_sep; [by apply wspec_append|]. intros c Hc.
    rewrite Forall_forall in IH. apply IH; [done|].
    destruct Hk as [Hk|]; [|by right]. left. simpl in Hk. apply andb_true_iff in Hk as [_ Hk].
    rewrite forallb_forall in Hk. apply Hk. by apply list_elem_of_In. }
  destruct ch; [apply wspec_ret|]. auto with wspec.
Qed.

Lemma wspec_colHeaders (Q : toon_error -> Prop) cols :
  Q EncodeTooLarge -> (forallb (col_all_keys valid_utf8) cols = true \/ Q InvalidUTF8) ->
  wspec Q (writeColHeaders cols).
Proof.
  intros HQ Hk. apply wspec_sep; [by apply wspec_append|].
  intros c Hc. apply wspec_colHeader; [done|]. destruct Hk as [Hk|]; [|by right]. left.
  rewrite forallb_forall in Hk. apply Hk. by apply list_elem_of_In.
Qed.

(** * Tabular form (src/internal/toon/array.go, keyed.go): what the columns guarantee

    A column set accepted by [classifyColumns] gives every element the same number
    of cells, all of them primitive; the fuel of the classification is enough. *)

(** ** Values the encoder accepts *)
Inductive wf_value : value -> Prop :=
| WfNull : wf_value VNull
| WfBool b : wf_value (VBool b)
| WfNumber n : is_ok (encodeNum n) = true -> wf_value (VNumber n)
| WfString s : valid_utf8 s = true -> wf_value (VString s)
| WfObject fs : Forall (fun f => valid_utf8 (fst f) = true /\ wf_value (snd f)) fs -> wf_value (VObject fs)
| WfArray l : Forall wf_value l -> wf_value (VArray l).

Lemma fieldIndex_from_lookup (fs : list (string * value)) (idx : gmap string value) k v :
  foldl (fun idx f => <[fst f := snd f]> idx) idx fs !! k = Some v -> (k, v) ∈ fs \/ idx !! k = Some v.
Proof.
  revert idx. induction fs as [|[k' v'] fs IH]; intros idx; simpl; [auto|].
  intros [H|H]%IH; [left; by right|]. apply lookup_insert_Some in H as [[<- <-]|[_ ?]]; [|auto].
  left. by left.
Qed.

Lemma fieldIndex_lookup v k x : fieldIndex v !! k = Some x -> (k, x) ∈ fields v.
Proof. intros [?|H]%fieldIndex_from_lookup; [done|]. by rewrite lookup_empty in H. Qed.

(** Every value an index holds satisfies [P]. *)
Definition index_all (P : value -> Prop) (idx : gmap string value) : Prop :=
  forall k v, idx !! k = Some v -> P v.

Lemma fieldIndex_all (P : value -> Prop) v : (forall f, f ∈ fields v -> P (snd f)) -> index_all P (fieldIndex v).
Proof. intros H k x Hx%fieldIndex_lookup. apply (H (k, x) Hx). Qed.

Lemma index_get_all (P : value -> Prop) idx k : index_all P idx -> index_get idx k = VInvalid \/ P (index_get idx k).
Proof. intros H. unfold index_get. destruct (idx !! k) eqn:E; simpl; [right; eauto|by left]. Qed.

Lemma wf_fields v f : wf_value v -> f ∈ fields v -> valid_utf8 (fst f) = true /\ wf_value (snd f).
Proof.
  destruct 1; simpl; try by intros ?%elem_of_nil. rewrite Forall_forall in H. apply H.
Qed.

Lemma wf_fieldIndex v : wf_value v -> index_all wf_value (fieldIndex v).
Proof. intros H. apply fieldIndex_all. intros f Hf. by apply (wf_fields v). Qed.

Lemma fieldIndex_invalid : fieldIndex VInvalid = ∅.
Proof. done. Qed.

Lemma index_get_fieldIndex_wf idx k : index_all wf_value idx -> index_all wf_value (fieldIndex (index_get idx k)).
Proof.
  intros H. destruct (index_get_all wf_value idx k H) as [->|?]; [|by apply wf_fieldIndex].
  intros k' v. by rewrite fieldIndex_invalid, lookup_empty.
Qed.

(** ** Cells *)
Fixpoint col_width (c : tabularCol) : nat :=
  match c with TCol _ [] => 1%nat | TCol _ ch => list_sum (map col_width ch) end.

Lemma leafCol_nil idx k : leafCol idx (TCol k []) = [index_get idx k].
Proof. done. Qed.

Lemma leafCol_cons idx k ch :
  ch <> [] -> leafCol idx (TCol k ch) = leafValues (fieldIndex (index_get idx k)) ch.
Proof. by destruct ch. Qed.

Lemma col_width_cons k ch : ch <> [] -> col_width (TCol k ch) = list_sum (map col_width ch).
Proof. by destruct ch. Qed.

Definition cells_ok (idx : gmap string value) (c : tabularCol) : Prop :=
  allPrimitive (leafCol idx c) = true /\ length (leafCol idx c) = col_width c.

Lemma leafValues_ok idx cols :
  Forall (cells_ok idx) cols ->
  allPrimitive (leafValues idx cols) = true /\ length (leafValues idx cols) = list_sum (map col_width cols).
Proof.
  unfold leafValues, allPrimitive. induction 1 as [|c cols [Hp Hl] _ [IHp IHl]]; [done|].
  simpl. rewrite forallb_app, length_app, IHl, Hl. unfold allPrimitive in Hp. by rewrite Hp, IHp.
Qed.

Lemma mapM_Some_Forall2 {A B} (f : A -> option B) l k :
  mapM f l = Some k -> Forall2 (fun x y => f x = Some y) l k.
Proof. apply mapM_Some_1. Qed.

Lemma sharedKeys_head vals keys :
  sharedKeys vals = Some keys -> exists v rest, vals = v :: rest /\ keys = fieldKeys v.
Proof.
  unfold sharedKeys. destruct vals as [|v rest]; [done|].
  destruct (noDupKeySet _); [|done]. destruct (forallb _ _); [|done]. intros [= <-]. eauto.
Qed.

(** The cases of a successful classification. *)
Lemma classifyColumn_inv fuel idxs key c :
  classifyColumn fuel idxs key = Some c ->
  (allPrimitive (columnValues idxs key) = true /\ c = TCol key []) \/
  exists fuel' keys children,
    fuel = S fuel' /\ c = TCol key children /\ children <> [] /\
    allNonEmptyObjects (columnValues idxs key) = true /\
    sharedKeys (columnValues idxs key) = Some keys /\
    Forall2 (fun k c => classifyColumn fuel' (map fieldIndex (columnValues idxs key)) k = Some c) keys children.
Proof.
  destruct fuel as [|fuel]; cbn [classifyColumn];
    (destruct (allPrimitive _) eqn:Hp; [intros [= <-]; by left|]);
    (destruct (allNonEmptyObjects _) eqn:Ho; cbn [negb]; [|done]); [done|].
  destruct (sharedKeys _) as [keys|] eqn:Hk; [|done].
  destruct (mapM _ keys) as [children|] eqn:Hm; [|done]. intros [= <-]. right.
  apply mapM_Some_Forall2 in Hm. exists fuel, keys, children. split_and!; try done.
  intros ->. apply Forall2_nil_inv_r in Hm. subst keys.
  apply sharedKeys_head in Hk as (v & rest & Ev & Ek). rewrite Ev in Ho. simpl in Ho.
  apply andb_true_iff in Ho as [Hv _]. unfold nonEmptyObject in Hv. apply andb_true_iff in Hv as [_ Hv].
  unfold fieldKeys in Ek. destruct (fields v); done.
Qed.

Lemma classifyColumn_cells fuel idxs key c idx :
  classifyColumn fuel idxs key = Some c -> idx ∈ idxs -> cells_ok idx c.
Proof.
  revert idxs key c idx. induction fuel as [fuel IH] using lt_wf_ind; intros idxs key c idx Hc Hin.
  assert (Hv : index_get idx key ∈ columnValues idxs key).
  { apply list_elem_of_fmap. by exists idx. }
  destruct (classifyColumn_inv _ _ _ _ Hc) as [[Hp ->]|(fuel' & keys & ch & -> & -> & Hne & Ho & Hk & Hch)].
  - unfold cells_ok. rewrite leafCol_nil. split; [|done]. unfold allPrimitive in *. simpl.
    rewrite forallb_forall in Hp. rewrite Hp; [done|]. by apply list_elem_of_In.
  - unfold cells_ok. rewrite leafCol_cons, col_width_cons by done. apply leafValues_ok.
    apply Forall_forall. intros c Hc'. apply list_elem_of_lookup in Hc' as [i Hi].
    destruct (Forall2_lookup_r _ _ _ _ _ Hch Hi) as (k & _ & Hkc).
    eapply (IH fuel'); [lia|exact Hkc|]. apply list_elem_of_fmap. eauto.
Qed.

Lemma classifyColumns_cells fuel idxs keys cols idx :
  classifyColumns fuel idxs keys = Some cols -> idx ∈ idxs ->
  allPrimitive (leafValues idx cols) = true /\ length (leafValues idx cols) = list_sum (map col_width cols).
Proof.
  intros H%mapM_Some_Forall2 Hin. apply leafValues_ok, Forall_forall. intros c Hc.
  apply list_elem_of_lookup in Hc as [i Hi]. destruct (Forall2_lookup_r _ _ _ _ _ H Hi) as (k & _ & Hk).
  by eapply classifyColumn_cells.
Qed.

Lemma tabularFields_inv l cols :
  tabularFields l = Some cols ->
  exists keys, sharedKeys l = Some keys /\ classifyColumns (columns_fuel l) (map fieldIndex l) keys = Some cols.
Proof.
  unfold tabularFields. destruct l as [|v l]; [done|]. destruct (nonEmptyObject v); [|done]. simpl negb. cbv iota.
  destruct (sharedKeys _) as [keys|]; [|done]. eauto.
Qed.

Lemma keyedTabularCols_inv v cols :
  keyedTabularCols v = Some cols ->
  exists keys, sharedKeys (entryValues v) = Some keys /\ 
    classifyColumns (columns_fuel (entryValues v)) (map fieldIndex (entryValues v)) keys = Some cols.
Proof.
  unfold keyedTabularCols. destruct (Nat.ltb _ _); [done|]. destruct (allNonEmptyObjects _); [|done].
  simpl negb. cbv iota. destruct (sharedKeys _) as [keys|]; [|done]. eauto.
Qed.

(** ** Accepted values stay accepted in the cells and keys *)
Lemma leafCol_wf idx c x : index_all wf_value idx -> x ∈ leafCol idx c -> x = VInvalid \/ wf_value x.
Proof.
  revert idx. induction c as [k ch IH] using tabularCol_ind'; intros idx Hi.
  destruct ch as [|c ch].
  - rewrite leafCol_nil, list_elem_of_singleton. intros ->. by apply index_get_all.
  - rewrite leafCol_cons by done. unfold leafValues. rewrite list_elem_of_In, in_flat_map.
    intros (c' & Hc' & Hx). rewrite Forall_forall in IH. apply list_elem_of_In in Hc'. apply list_elem_of_In in Hx.
    eapply IH; [done| |exact Hx]. by apply index_get_fieldIndex_wf.
Qed.

Lemma leafValues_wf idx cols x :
  index_all wf_value idx -> x ∈ leafValues idx cols -> isPrimitive x = true -> wf_value x.
Proof.
  intros Hi Hx Hp. unfold leafValues in Hx. rewrite list_elem_of_In, in_flat_map in Hx.
  destruct Hx as (c & _ & Hx). rewrite <- list_elem_of_In in Hx.
  destruct (leafCol_wf idx c x Hi Hx) as [->|?]; done.
Qed.

Lemma sharedKeys_valid vals keys :
  Forall (fun v => v = VInvalid \/ wf_value v) vals -> sharedKeys vals = Some keys ->
  Forall (fun k => valid_utf8 k = true) keys.
Proof.
  intros Hv (v & rest & -> & ->)%sharedKeys_head. apply Forall_cons in Hv as [[->|Hv] _]; [constructor|].
  unfold fieldKeys. apply Forall_forall. intros k Hk.
  apply list_elem_of_fmap in Hk as (f & -> & Hf). by apply (wf_fields v).
Qed.

Lemma classifyColumn_keys fuel idxs key c :
  Forall (index_all wf_value) idxs -> valid_utf8 key = true ->
  classifyColumn fuel idxs key = Some c -> col_all_keys valid_utf8 c = true.
Proof.
  revert idxs key c. induction fuel as [fuel IH] using lt_wf_ind; intros idxs key c Hi Hkey Hc.
  destruct (classifyColumn_inv _ _ _ _ Hc) as [[Hp ->]|(fuel' & keys & ch & -> & -> & Hne & Ho & Hk & Hch)];
    simpl; rewrite Hkey; [done|].
  assert (Hvals : Forall (fun v => v = VInvalid \/ wf_value v) (columnValues idxs key)).
  { unfold columnValues. apply Forall_map. eapply Forall_impl; [exact Hi|]. intros idx. apply index_get_all. }
  apply sharedKeys_valid in Hk; [|done].
  apply forallb_forall. intros c Hc'%list_elem_of_In. apply list_elem_of_lookup in Hc' as [i Hi'].
  destruct (Forall2_lookup_r _ _ _ _ _ Hch Hi') as (k & Hik & Hkc).
  eapply (IH fuel'); [lia| | |exact Hkc].
  - unfold columnValues. rewrite map_map. apply Forall_map. eapply Forall_impl; [exact Hi|].
    intros idx ?. by apply index_get_fieldIndex_wf.
  - rewrite Forall_lookup in Hk. eauto.
Qed.

Lemma classifyColumns_keys fuel vals keys cols :
  Forall wf_value vals -> sharedKeys vals = Some keys ->
  classifyColumns fuel (map fieldIndex vals) keys = Some cols -> forallb (col_all_keys valid_utf8) cols = true.
Proof.
  intros Hv Hk H%mapM_Some_Forall2. apply forallb_forall. intros c Hc%list_elem_of_In.
  apply list_elem_of_lookup in Hc as [i Hi]. destruct (Forall2_lookup_r _ _ _ _ _ H Hi) as (k & Hik & Hkc).
  eapply classifyColumn_keys; [| |exact Hkc].
  - apply Forall_map. eapply Forall_impl; [exact Hv|]. apply wf_fieldIndex.
  - eapply sharedKeys_valid in Hk; [|eapply Forall_impl; [exact Hv|]; tauto].
    rewrite Forall_lookup in Hk. eauto.
Qed.

(** ** The classification fuel is enough *)
Lemma fieldIndex_depth v n :
  (depth v <= S n)%nat -> index_all (fun x => (depth x <= n)%nat) (fieldIndex v).
Proof.
  intros H. apply fieldIndex_all. intros [k x] Hf. destruct v; simpl in Hf; try by apply elem_of_nil in Hf.
  pose proof (depth_field _ _ _ Hf). simpl in *. lia.
Qed.

Lemma depth0_not_object v : (depth v <= 0)%nat -> nonEmptyObject v = false.
Proof. destruct v; simpl; intros; try done; lia. Qed.

Lemma classifyColumn_fuel n m idxs key :
  (n <= m)%nat -> Forall (index_all (fun x => (depth x <= n)%nat)) idxs ->
  classifyColumn n idxs key = classifyColumn m idxs key.
Proof.
  revert m idxs key. induction n as [|n IH]; intros m idxs key Hnm Hi.
  - destruct m as [|m]; [done|]. cbn [classifyColumn].
    destruct (allPrimitive _) eqn:Hp; [done|]. destruct idxs as [|idx idxs]; [done|].
    apply Forall_cons in Hi as [Hi _]. unfold allNonEmptyObjects. simpl.
    rewrite depth0_not_object; [done|].
    destruct (index_get_all _ idx key Hi) as [->|?]; [simpl; lia|done].
  - destruct m as [|m]; [lia|]. cbn [classifyColumn].
    destruct (allPrimitive _); [done|]. destruct (allNonEmptyObjects _); [|done]. simpl negb. cbv iota.
    destruct (sharedKeys _) as [keys|]; [|done].
    replace (mapM (classifyColumn m (map fieldIndex (columnValues idxs key))) keys)
      with (mapM (classifyColumn n (map fieldIndex (columnValues idxs key))) keys); [done|].
    apply mapM_ext. intros k. apply IH; [lia|]. unfold columnValues. rewrite map_map. apply Forall_map.
    eapply Forall_impl; [exact Hi|]. intros idx Hidx. apply fieldIndex_depth.
    destruct (index_get_all _ idx key Hidx) as [->|?]; [simpl; lia|done].
Qed.

Lemma columns_fuel_enough vals keys m :
  (columns_fuel vals <= m)%nat ->
  classifyColumns m (map fieldIndex vals) keys = classifyColumns (columns_fuel vals) (map fieldIndex vals) keys.
Proof.
  intros Hm. unfold classifyColumns. apply mapM_ext. intros k. symmetry. apply classifyColumn_fuel; [done|].
  apply Forall_map, Forall_forall. intros v Hv. apply fieldIndex_depth. unfold columns_fuel.
  pose proof (depth_item _ _ Hv). lia.
Qed.
