(* ===== verification/ToonEncodeSpec.v ===== *)
(** * The encoder as a whole: size, fuel, depth, errors, rows

    One induction on fuel covers the mutually recursive writers.  [Q] is the set of
    errors allowed: either every error but the model's out-of-fuel one, for any
    value, or only the size error, for accepted values nested within the limit. *)
From S2P Require Import Prelude GoStr Utf8 Regex Float64 ToonValue ToonQuote ToonNumbers ToonEncode ToonWriter.
#[local] Open Scope writer_scope.

Section Spec.
Variable Q : toon_error -> Prop.
Hypothesis Qlarge : Q EncodeTooLarge.

Definition total : Prop := forall e, e <> OutOfFuel -> Q e.

(** A value of depth at most [d], and a field list with such values, written at depth [dep]. *)
Definition vcond (v : value) (dep : Z) (d : nat) : Prop :=
  (depth v <= d)%nat /\ (total \/ wf_value v /\ dep + Z.of_nat d <= maxEncodeDepth).
Definition fcond (f : string * value) (dep : Z) (d : nat) : Prop :=
  vcond (snd f) dep d /\ (total \/ valid_utf8 (fst f) = true).
Definition fscond (fs : list (string * value)) (dep : Z) (d : nat) : Prop :=
  (total \/ dep <= maxEncodeDepth) /\ forall f, f ∈ fs -> fcond f dep d.
Definition acond (l : list value) (ctx : arrayCtx) (d : nat) : Prop :=
  vcond (VArray l) (ItemDepth ctx - 1) d.
Definition lcond (l : list value) (dep : Z) (d : nat) : Prop :=
  (total \/ dep <= maxEncodeDepth) /\ forall v, v ∈ l -> vcond v dep d.

Lemma total_encodePrimitive v : total -> rspec Q (encodePrimitive v).
Proof.
  intros HT. unfold rspec. destruct (encodePrimitive v) as [|e] eqn:E; [done|]. apply HT. intros ->.
  destruct v; simpl in E; try discriminate.
  - unfold encodeNumber, encodeNum in E. apply rbind_Err in E as [E|(s & _ & E)]; [|by destruct (_ <? _) in E].
    by apply canonicalizeNumber_err in E as [l [=]].
  - unfold encodeText, validateUTF8 in E. apply rbind_Err in E as [E|(u & _ & E)];
      [destruct (valid_utf8 s) in E|destruct (_ <? _) in E]; discriminate.
Qed.

Lemma wf_encodePrimitive v : wf_value v -> isPrimitive v = true -> rspec Q (encodePrimitive v).
Proof.
  destruct 1 as [|b|n Hn|s Hs|fs Hf|l Hl]; intros Hp; try done; simpl.
  - unfold encodeNumber. destruct (encodeNum n); [|done]. simpl. by destruct (_ <? _).
  - unfold encodeText, validateUTF8. rewrite Hs. simpl. by destruct (_ <? _).
Qed.

Lemma checkDepth_spec dep : total \/ dep <= maxEncodeDepth -> rspec Q (checkDepth dep).
Proof.
  intros [HT|H]; unfold checkDepth; destruct (_ <? _) eqn:E; simpl; try done; [by apply HT|].
  bool_to_prop. lia.
Qed.

Lemma validateUTF8_spec s : total \/ valid_utf8 s = true -> rspec Q (validateUTF8 s).
Proof.
  intros [HT|H]; unfold validateUTF8; [destruct (valid_utf8 s); simpl; [done|by apply HT]|by rewrite H].
Qed.

Lemma header_spec keys : total \/ forallb (col_all_keys valid_utf8) keys = true -> wspec Q (writeColHeaders keys).
Proof. intros [HT|H]; apply wspec_colHeaders; auto; right; by apply HT. Qed.

(** The cells of one row. *)
Lemma cells_spec idx cols :
  total \/ (index_all wf_value idx /\ allPrimitive (leafValues idx cols) = true) ->
  rspec Q (joinPrimitives (leafValues idx cols)).
Proof.
  intros H. apply joinPrimitives_spec; [done|]. intros v Hv.
  destruct H as [HT|[Hi Hp]]; [by apply total_encodePrimitive|].
  assert (isPrimitive v = true) as Hpv.
  { unfold allPrimitive in Hp. rewrite forallb_forall in Hp. by apply Hp, list_elem_of_In. }
  apply wf_encodePrimitive; [by eapply leafValues_wf|done].
Qed.

Lemma prims_spec l :
  total \/ (Forall wf_value l /\ allPrimitive l = true) -> rspec Q (joinPrimitives l).
Proof.
  intros H. apply joinPrimitives_spec; [done|]. intros v Hv.
  destruct H as [HT|[Hw Hp]]; [by apply total_encodePrimitive|].
  unfold allPrimitive in Hp. rewrite Forall_forall in Hw. rewrite forallb_forall in Hp.
  apply wf_encodePrimitive; [auto|by apply Hp, list_elem_of_In].
Qed.

Ltac wauto := repeat first [apply wspec_seq | by apply wspec_append | apply wspec_ret | by apply wspec_checkLen].

Lemma tabular_spec key l dep cols :
  tabularFields l = Some cols -> (total \/ Forall wf_value l /\ dep <= maxEncodeDepth) ->
  wspec Q (writeTabularArray key dep l cols).
Proof.
  intros (keys & Hk & Hc)%tabularFields_inv H. unfold writeTabularArray.
  apply wspec_bind; [apply checkDepth_spec; tauto|]. intros _ _. apply wspec_seq.
  - unfold writeTabularHeader. wauto. apply header_spec. destruct H as [?|[Hw _]]; [by left|right].
    by eapply classifyColumns_keys.
  - apply wspec_each. intros it Hit. unfold writeTabularRow. apply wspec_bind; [|intros; wauto].
    apply cells_spec. destruct H as [?|[Hw _]]; [by left|right]. rewrite Forall_forall in Hw.
    split; [by apply wf_fieldIndex, Hw|]. eapply classifyColumns_cells; [exact Hc|].
    apply list_elem_of_fmap. eauto.
Qed.

Lemma keyed_spec key v dep cols :
  keyedTabularCols v = Some cols -> (total \/ wf_value v /\ dep <= maxEncodeDepth) ->
  wspec Q (writeKeyedTabular key dep v cols).
Proof.
  intros (keys & Hk & Hc)%keyedTabularCols_inv H. unfold writeKeyedTabular.
  apply wspec_bind; [apply checkDepth_spec; tauto|]. intros _ _. apply wspec_seq.
  - unfold writeKeyedHeader. wauto. apply header_spec. destruct H as [?|[Hw _]]; [by left|right].
    eapply classifyColumns_keys; [|exact Hk|exact Hc].
    apply Forall_map, Forall_forall. intros f Hf. by apply (wf_fields v).
  - apply wspec_each. intros f Hf. unfold writeKeyedEntry.
    assert (total \/ valid_utf8 (fst f) = true /\ wf_value (snd f)) as Hf'.
    { destruct H as [?|[Hw _]]; [by left|right; by apply (wf_fields v)]. }
    apply wspec_bind; [apply validateUTF8_spec; tauto|]. intros _ _. apply wspec_bind; [|intros; wauto].
    apply cells_spec. destruct Hf' as [?|[_ Hw]]; [by left|right].
    split; [by apply wf_fieldIndex|]. eapply classifyColumns_cells; [exact Hc|].
    apply list_elem_of_fmap. exists (snd f). split; [done|]. apply list_elem_of_fmap. eauto.
Qed.

Lemma object_fields v dep d :
  kind v = KindObject -> vcond v dep (S d) -> fscond (fields v) (dep + 1) d.
Proof.
  intros Hk [Hd H]. split; [destruct H as [?|[_ ?]]; [by left|right; lia]|].
  destruct v as [| | | | |fs|]; try done. intros [k x] Hf. simpl in Hf.
  pose proof (depth_field _ _ _ Hf). split; [split; [simpl in *; lia|]|];
    (destruct H as [?|[Hw ?]]; [by left|right]); destruct (wf_fields _ _ Hw Hf); [split; [done|lia]|done].
Qed.

Lemma array_items l ctx d : acond l ctx (S d) -> lcond l (ItemDepth ctx) d.
Proof.
  intros [Hd H]. split; [destruct H as [?|[_ ?]]; [by left|right; lia]|].
  intros v Hv. pose proof (depth_item _ _ Hv). split; [simpl in *; lia|].
  destruct H as [?|[Hw ?]]; [by left|right]. inversion Hw as [| | | | |? Hl]; subst.
  rewrite Forall_forall in Hl. split; [auto|lia].
Qed.

Record spec_at (n : nat) : Prop := {
  sp_fields fs dep d : fscond fs dep d -> (5 * d + 4 <= n)%nat -> wspec Q (writeFields n fs dep);
  sp_field f dep d : fcond f dep d -> (5 * d + 3 <= n)%nat -> wspec Q (writeField n f dep);
  sp_body f dep d : fcond f dep d -> (5 * d + 2 <= n)%nat -> wspec Q (writeFieldBody n f dep);
  sp_value v dep d : vcond v dep d -> total \/ kind v <> KindArray -> (5 * d + 1 <= n)%nat ->
    wspec Q (writeFieldValue n v dep);
  sp_array l ctx d : acond l ctx d -> (5 * d <= n)%nat -> wspec Q (writeArray n l ctx);
  sp_items l dep d : lcond l dep d -> (5 * d + 3 <= n)%nat -> wspec Q (writeListItems n l dep);
  sp_item v dep d : vcond v dep d -> (5 * d + 2 <= n)%nat -> wspec Q (writeListItem n v dep);
  sp_object v dep d : vcond v dep d -> kind v = KindObject -> (5 * d <= n)%nat ->
    wspec Q (writeObjectListItem n v dep) }.

Lemma object_depth v dep d : kind v = KindObject -> vcond v dep d -> exists d', d = S d'.
Proof. intros Hk [Hd _]. destruct v; try done. simpl in Hd. destruct d as [|d]; [lia|eauto]. Qed.

Lemma primitive_cond v dep d :
  vcond v dep d -> total \/ (kind v <> KindArray) -> kind v <> KindObject -> rspec Q (encodePrimitive v).
Proof.
  intros [_ [HT|[Hw _]]] Ha Ho; [by apply total_encodePrimitive|].
  destruct Ha as [HT|Ha]; [by apply total_encodePrimitive|]. apply wf_encodePrimitive; [done|].
  destruct Hw; done.
Qed.

Lemma step_body n f dep d :
  spec_at n -> fcond f dep d -> (5 * d + 2 <= S n)%nat -> wspec Q (writeFieldBody (S n) f dep).
Proof.
  intros IH [Hv Hk] Hn. destruct f as [key v]. cbn [writeFieldBody fst snd] in *.
  apply wspec_bind; [by apply validateUTF8_spec|]. intros _ _. destruct (decide (kind v = KindArray)) as [Ea|Ea].
  - apply (sp_array _ IH _ _ d); [|lia]. unfold acond. cbn [ItemDepth].
    replace (dep + 1 - 1) with dep by lia. by destruct v.
  - destruct (decide (kind v = KindObject)) as [Eo|Eo].
    + destruct (keyedTabularCols v) as [cols|] eqn:Ec.
      * apply keyed_spec; [done|]. destruct (object_depth _ _ _ Eo Hv) as [d' ->].
        destruct Hv as [_ [?|[? ?]]]; [by left|right; split; [done|lia]].
      * wauto. apply (sp_value _ IH _ _ d); [done|by right|lia].
    + wauto. apply (sp_value _ IH _ _ d); [done|by right|lia].
Qed.

Lemma step_value n v dep d :
  spec_at n -> vcond v dep d -> total \/ kind v <> KindArray -> (5 * d + 1 <= S n)%nat ->
  wspec Q (writeFieldValue (S n) v dep).
Proof.
  intros IH Hv Ha Hn. cbn [writeFieldValue]. destruct (decide (kind v = KindObject)) as [Eo|Eo].
  - destruct (object_depth _ _ _ Eo Hv) as [d' ->]. wauto.
    apply (sp_fields _ IH _ _ d'); [by apply object_fields|lia].
  - apply wspec_bind; [by eapply primitive_cond|]. intros s _. wauto.
Qed.

Lemma step_array n l ctx d :
  spec_at n -> acond l ctx d -> (5 * d <= S n)%nat -> wspec Q (writeArray (S n) l ctx).
Proof.
  intros IH Hv Hn. cbn [writeArray]. destruct (Nat.eqb (length l) 0).
  { unfold writeEmptyArray. destruct (FieldEmpty ctx); wauto. }
  destruct d as [|d]; [by destruct Hv as [Hd _]; simpl in Hd; lia|].
  assert (Hw : total \/ Forall wf_value l /\ ItemDepth ctx <= maxEncodeDepth).
  { destruct Hv as [_ [?|[Hw ?]]]; [by left|right]. inversion Hw; subst. split; [done|lia]. }
  destruct (allPrimitive l) eqn:Hp.
  { unfold writeInlineArray. apply wspec_bind; [|intros; wauto]. apply prims_spec. tauto. }
  destruct (if AllowTabular ctx then tabularFields l else None) as [cols|] eqn:Ec.
  - destruct (AllowTabular ctx); [|done]. by apply tabular_spec.
  - wauto. apply (sp_items _ IH _ _ d); [by apply array_items|lia].
Qed.

Lemma step_item n v dep d :
  spec_at n -> vcond v dep d -> (5 * d + 2 <= S n)%nat -> wspec Q (writeListItem (S n) v dep).
Proof.
  intros IH Hv Hn. cbn [writeListItem].
  assert (Hprim : kind v <> KindArray -> kind v <> KindObject -> wspec Q (writePrimitiveListItem v dep)).
  { intros Ha Ho. unfold writePrimitiveListItem. apply wspec_bind; [|intros; wauto].
    eapply primitive_cond; eauto. }
  destruct (kind v) eqn:Ek; try (apply Hprim; congruence).
  - apply (sp_object _ IH _ _ d); [done|done|lia].
  - wauto. apply (sp_array _ IH _ _ d); [|lia]. unfold acond. cbn [ItemDepth].
    replace (dep + 1 - 1) with dep by lia. by destruct v.
Qed.

Lemma step_object n v dep d :
  spec_at n -> vcond v dep d -> kind v = KindObject -> (5 * d <= S n)%nat ->
  wspec Q (writeObjectListItem (S n) v dep).
Proof.
  intros IH Hv Hk Hn. cbn [writeObjectListItem].
  destruct (object_depth _ _ _ Hk Hv) as [d' ->]. pose proof (object_fields _ _ _ Hk Hv) as [Hd Hf].
  destruct (fields v) as [|f rest]; wauto.
  - apply (sp_body _ IH _ _ d'); [apply Hf; by left|lia].
  - apply (sp_fields _ IH _ _ d'); [|lia]. split; [done|]. intros g Hg. apply Hf. by right.
Qed.

Lemma writers_spec n : spec_at n.
Proof.
  induction n as [|n IH].
  - split; intros; try lia.
    + destruct d; [|lia]. destruct H as [Hd _]. simpl in Hd. lia.
    + destruct d; [|lia]. destruct H as [Hd _]. destruct v; simpl in *; try done; lia.
  - split.
    + intros fs dep d [Hd Hf] Hn. cbn [writeFields].
      apply wspec_bind; [by apply checkDepth_spec|]. intros _ _. wauto.
      apply wspec_each. intros f Hin. apply (sp_field _ IH _ _ d); [auto|lia].
    + intros f dep d Hf Hn. cbn [writeField]. wauto. apply (sp_body _ IH _ _ d); [done|lia].
    + intros. by eapply step_body.
    + intros. by eapply step_value.
    + intros. by eapply step_array.
    + intros l dep d [Hd Hf] Hn. cbn [writeListItems].
      apply wspec_bind; [by apply checkDepth_spec|]. intros _ _. wauto.
      apply wspec_each. intros it Hin. apply (sp_item _ IH _ _ d); [auto|lia].
    + intros. by eapply step_item.
    + intros. by eapply step_object.
Qed.
End Spec.
