(* ===== verification/ToonProps.v ===== *)
(** * Properties of the TOON encoder

    The theorems of this file are stated on [Encode], [joinPrimitives] and
    [tabularFields]; each has its witness beside it. *)
From S2P Require Import Prelude GoStr Utf8 Regex Float64 ToonValue ToonQuote ToonNumbers ToonEncode ToonWriter ToonEncodeSpec.

(** ** Depth *)
Lemma checkDepth_ok dep : checkDepth dep = Ok tt <-> dep <= maxEncodeDepth.
Proof. unfold checkDepth. destruct (_ <? _) eqn:E; bool_to_prop; split; try done; lia. Qed.

Lemma checkDepth_err dep e : checkDepth dep = Err e -> e = DepthExceeded.
Proof. unfold checkDepth. destruct (_ <? _); congruence. Qed.

(** A nested value is checked one level deeper than its container. *)
Definition within (v : value) (dep : Z) : Prop := depth v = 0%nat \/ dep + Z.of_nat (depth v) - 1 <= maxEncodeDepth.

Lemma validateDepth_iff v dep :
  (validateDepth v dep = Ok tt <-> within v dep) /\
  (validateDepth v dep = Ok tt \/ validateDepth v dep = Err DepthExceeded).
Proof.
  unfold within. revert dep. induction v as [| | | | |fs IH|l IH] using value_ind'; intros dep;
    try (simpl; tauto); cbn [validateDepth depth].
  all: destruct (checkDepth dep) as [[]|e] eqn:E;
    [apply checkDepth_ok in E; cbn [rbind]
    |pose proof (checkDepth_err _ _ E) as ->; cbn [rbind]; split; [split; [done|]|by right];
     intros [?|?]; [lia|]; assert (checkDepth dep = Ok tt) by (apply checkDepth_ok; lia); congruence].
  - induction IH as [|[k v] fs Hv _ IHfs]; simpl; [split; [split; [right; lia|done]|by left]|].
    specialize (Hv (dep + 1)). simpl in Hv. destruct Hv as [Hv [Ev|Ev]]; rewrite Ev in Hv |- *; simpl.
    + destruct IHfs as [IH1 IH2]. split; [|exact IH2]. rewrite IH1.
      assert (depth v = 0%nat \/ dep + 1 + Z.of_nat (depth v) - 1 <= maxEncodeDepth) by (by apply Hv).
      lia.
    + split; [|by right]. split; [done|]. intros H. enough (Err DepthExceeded = @Ok toon_error unit tt) by done.
      apply Hv. lia.
  - induction IH as [|v l Hv _ IHl]; simpl; [split; [split; [right; lia|done]|by left]|].
    specialize (Hv (dep + 1)). destruct Hv as [Hv [Ev|Ev]]; rewrite Ev in Hv |- *; simpl.
    + destruct IHl as [IH1 IH2]. split; [|exact IH2]. rewrite IH1.
      assert (depth v = 0%nat \/ dep + 1 + Z.of_nat (depth v) - 1 <= maxEncodeDepth) by (by apply Hv).
      lia.
    + split; [|by right]. split; [done|]. intros H. enough (Err DepthExceeded = @Ok toon_error unit tt) by done.
      apply Hv. lia.
Qed.

(** ** The root forms *)
Lemma slen_trim_newline s : slen (trim_newline s) <= slen s.
Proof.
  unfold trim_newline, trim_suffix. destruct (has_suffix _ _); [|lia].
  unfold slen. rewrite str_length_take. lia.
Qed.

Section Root.
Variable Q : toon_error -> Prop.
Hypothesis Qlarge : Q EncodeTooLarge.

(** What [Encode] returns, for a set of allowed errors. *)
Definition root_ok (r : result string) : Prop :=
  match r with Ok s => slen s <= maxEncodeBytes | Err e => Q e end.

Lemma root_of_writer w : wspec Q w -> root_ok (let* sb := w "" in Ok (trim_newline sb)).
Proof.
  intros H. specialize (H ""). unfold root_ok, rbind. destruct (w ""); [|by apply H].
  destruct H as [_ H]; [done|]. pose proof (slen_trim_newline a). lia.
Qed.

Lemma encodePrimitive_bound v s : encodePrimitive v = Ok s -> slen s <= maxEncodeBytes.
Proof.
  destruct v; simpl; try discriminate.
  - intros [= <-]. done.
  - intros [= <-]. by destruct b.
  - unfold encodeNumber. intros H. inv_ok H. destruct (_ <? _) eqn:Hl; [done|]. injection H as <-. bool_to_prop. lia.
  - unfold encodeText. intros H. inv_ok H. destruct (_ <? _) eqn:Hl; [done|]. injection H as <-. bool_to_prop. lia.
Qed.

Lemma root_primitive v : rspec Q (encodePrimitive v) -> root_ok (encodePrimitive v).
Proof.
  unfold root_ok, rspec. destruct (encodePrimitive v) eqn:E; [|done]. intros _. by eapply encodePrimitive_bound.
Qed.

Lemma root_spec v :
  (forall e, validateDepth v 0 = Err e -> Q e) ->
  (v = VInvalid -> Q Uninitialized) ->
  total Q \/ wf_value v /\ Z.of_nat (depth v) <= maxEncodeDepth ->
  root_ok (Encode v).
Proof.
  intros Hval Hinv H. unfold Encode. destruct (validateDepth v 0) as [[]|e]; [cbn [rbind]|by apply Hval].
  assert (Hp : isPrimitive v = true -> root_ok (encodePrimitive v)).
  { intros Hp. apply root_primitive. destruct H as [?|[? _]];
      [by apply total_encodePrimitive|by apply wf_encodePrimitive]. }
  destruct v as [| | | | |fs|l]; try (by apply Hp); [by apply Hinv| |].
  - unfold encodeRootObject.
    destruct (keyedTabularCols (VObject fs)) as [cols|] eqn:Ec; apply root_of_writer.
    + apply keyed_spec; [done..|]. destruct H as [?|[? ?]]; [by left|right; done].
    + eapply (sp_fields Q _ (writers_spec Q Qlarge _) _ _ (pred (depth (VObject fs)))).
      * apply (object_fields Q (VObject fs) (-1)); [done|].
        split; [simpl; lia|]. destruct H as [?|[? ?]]; [by left|right; split; [done|simpl in *; lia]].
      * unfold writer_fuel. simpl. lia.
  - unfold encodeRootArray. destruct (Nat.eqb _ _); [done|]. apply root_of_writer.
    eapply (sp_array Q _ (writers_spec Q Qlarge _) _ _ (depth (VArray l))).
    + unfold acond. cbn [ItemDepth]. split; [done|]. destruct H as [?|[? ?]]; [by left|right; split; [done|lia]].
    + unfold writer_fuel. lia.
Qed.
End Root.

(** [Encode] always ends with a document or with one of the errors of
    the source: the fuel of the model is never exhausted, for any value at all. *)
Theorem encode_not_out_of_fuel v : Encode v <> Err OutOfFuel.
Proof.
  assert (H : root_ok (fun e => e <> OutOfFuel) (Encode v)).
  { apply root_spec; [done| |done|left; by intros e].
    intros e He. destruct (validateDepth_iff v 0) as [_ [E|E]]; congruence. }
  intros E. by rewrite E in H.
Qed.

(** a document [Encode] returns is at most [maxEncodeBytes] (4 MiB)
    long, whatever the value. *)
Theorem encode_bounded v s : Encode v = Ok s -> slen s <= maxEncodeBytes.
Proof.
  intros E. assert (H : root_ok (fun _ => True) (Encode v)) by (apply root_spec; [done..|by left]).
  by rewrite E in H.
Qed.

(** a value whose strings and keys are UTF-8, whose numbers are
    well-formed and whose nesting is at most 1024 is encoded, unless the document
    would exceed the size limit: no other error is possible. *)
Theorem encode_accepts v :
  wf_value v -> (depth v <= 1024)%nat ->
  (exists s, Encode v = Ok s) \/ Encode v = Err EncodeTooLarge.
Proof.
  intros Hw Hd. assert (H : root_ok (eq EncodeTooLarge) (Encode v)).
  { apply root_spec; [done| | |right; split; [done|unfold maxEncodeDepth; lia]].
    - intros e He. destruct (validateDepth_iff v 0) as [[_ Hi] _]. unfold within in Hi.
      rewrite He in Hi. enough (Err e = @Ok toon_error unit tt) by done. apply Hi. unfold maxEncodeDepth. lia.
    - intros ->. inversion Hw. }
  unfold root_ok in H. destruct (Encode v) as [s|e]; [left; eauto|right; congruence].
Qed.

(** Nesting deeper than the limit is refused with the depth error before
    anything is written. *)
Theorem encode_too_deep v : (1025 < depth v)%nat -> Encode v = Err DepthExceeded.
Proof.
  intros Hd. unfold Encode. destruct (validateDepth_iff v 0) as [[Hi _] [E|E]]; rewrite E; [|done].
  specialize (Hi E). unfold within, maxEncodeDepth in Hi. lia.
Qed.

(** ** Rows *)
Definition token_of (v : value) (t : token) : Prop :=
  match v with
  | VNull => t = TNull
  | VBool b => t = TBool b
  | VNumber n => exists m, encodeNum n = Ok m /\ t = TNumber m
  | VString s => t = TString s
  | _ => False
  end.

Lemma encodePrimitive_token v s :
  encodePrimitive v = Ok s -> scan Out s = Some Out /\ exists t, read_token s = Some t /\ token_of v t.
Proof.
  destruct v as [| |b|n|x| |]; simpl; try discriminate.
  - intros [= <-]. split; [done|]. by exists TNull.
  - intros [= <-]. split; [by destruct b|]. exists (TBool b). by destruct b.
  - unfold encodeNumber. intros H. inv_ok H. destruct (_ <? _); [done|]. injection H as <-.
    apply canonicalizeNumber_numeric in E as Hn. split; [by apply scan_plain, numeric_plain|].
    exists (TNumber v). split; [by apply read_token_number|eauto].
  - unfold encodeText, validateUTF8. destruct (valid_utf8 x) eqn:Hv; simpl; [|done].
    destruct (_ <? _); [done|]. intros [= <-]. split; [by apply scan_encodeString|].
    exists (TString x). split; [by apply read_token_string|done].
Qed.

Lemma append_Ok s sb sb' : appendString s sb = Ok sb' -> sb' = sb +:+ s.
Proof. unfold appendString. destruct (_ <? _); congruence. Qed.

Lemma join_cons t ss : join "," (t :: ss) = t +:+ concat_str (map (append ",") ss).
Proof.
  revert t. induction ss as [|u ss IH]; intros t; [simpl; by rewrite str_app_nil_r|].
  change (join "," (t :: u :: ss)) with (t +:+ "," +:+ join "," (u :: ss)). by rewrite IH.
Qed.

Lemma joinPrimitives_from_join i l sb sb' :
  joinPrimitives_from i l sb = Ok sb' ->
  exists ss, Forall2 (fun v s => encodePrimitive v = Ok s) l ss /\
    sb' = sb +:+ (if Nat.ltb 0 i then concat_str (map (append ",") ss) else join "," ss).
Proof.
  revert i sb. induction l as [|v l IH]; intros i sb.
  - intros [= <-]. exists []. split; [constructor|]. by destruct (Nat.ltb 0 i); rewrite str_app_nil_r.
  - cbn [joinPrimitives_from]. unfold wbind, wseq. intros H. inv_ok H. inv_ok H. inv_ok H.
    apply append_Ok in E1. apply IH in H as (ss & Hss & ->). exists (v0 :: ss). split; [by constructor|].
    simpl Nat.ltb. subst v2. destruct (Nat.ltb 0 i).
    + apply append_Ok in E0 as ->. by cbn [map concat_str foldr]; rewrite <- !str_app_assoc.
    + injection E0 as ->. by rewrite join_cons, <- str_app_assoc.
Qed.

(** C7: a row of primitives, split at the commas outside quotes and read token by
    token, gives back exactly the values: strings are never mistaken for numbers,
    booleans, null or separators, and numbers come back in canonical form. *)
Theorem row_roundtrip l row :
  l <> [] -> joinPrimitives l = Ok row ->
  exists tokens, Forall2 (fun s t => read_token s = Some t) (split_row Out row) tokens /\
                 Forall2 token_of l tokens.
Proof.
  intros Hne H. apply joinPrimitives_from_join in H as (ss & Hss & ->). simpl.
  assert (ss <> []) by (intros ->; inversion Hss; by subst).
  rewrite split_row_join; [|done|].
  - clear Hne H. induction Hss as [|v s l ss Hv _ IH]; [exists []; split; constructor|].
    destruct (encodePrimitive_token v s Hv) as (_ & t & Ht & Hvt).
    destruct IH as (ts & ? & ?). exists (t :: ts). split; by constructor.
  - clear Hne H. induction Hss as [|v s l ss Hv _ IH]; constructor; [by apply (encodePrimitive_token v)|done].
Qed.

(** the hand-written scanner accepts exactly the JSON number grammar. *)
Theorem json_lexeme_exact s : isValidJSONNumberLexeme s = true <-> json_number s.
Proof. apply isValidJSONNumberLexeme_spec. Qed.

(** every JSON number is canonicalized without error, to a lexeme that a
    TOON reader reads as a number; an integer lexeme keeps its exact value, however
    large, with no leading zeros and no negative zero. *)
Theorem encodeNum_correct s :
  json_number s ->
  exists t, encodeNum s = Ok t /\ read_token t = Some (TNumber t) /\
    (contains_any s ".eE" = false ->
       int_value t = int_value s /\ t <> "-0" /\ exists sg ip, t = sg +:+ ip /\ (sg = "" \/ sg = "-") /\ int_part ip).
Proof.
  intros Hj. destruct (encodeNum_json s Hj) as [t Ht]. exists t. split; [done|].
  split; [by apply read_token_number; eapply canonicalizeNumber_numeric|].
  intros Hc. unfold encodeNum, canonicalizeNumber in Ht. rewrite Hc in Ht. cbn [negb] in Ht.
  split; [by apply canonicalInteger_value|].
  apply canonicalInteger_shape in Ht as (sg & ip & -> & Hsg & Hip & Hz). split; [done|]. eauto.
Qed.

(** When an array is written in tabular form, every row has exactly one
    cell per leaf column of the header, and every cell is a primitive. *)
Theorem tabular_rows_uniform l cols :
  tabularFields l = Some cols ->
  forall it, it ∈ l ->
    allPrimitive (leafValues (fieldIndex it) cols) = true /\
    length (leafValues (fieldIndex it) cols) = list_sum (map col_width cols).
Proof.
  intros (keys & _ & H)%tabularFields_inv it Hit. eapply classifyColumns_cells; [exact H|].
  apply list_elem_of_fmap. eauto.
Qed.

(** the same for the entries of an object written in keyed tabular form. *)
Theorem keyed_rows_uniform v cols :
  keyedTabularCols v = Some cols ->
  forall f, f ∈ fields v ->
    allPrimitive (leafValues (fieldIndex (snd f)) cols) = true /\
    length (leafValues (fieldIndex (snd f)) cols) = list_sum (map col_width cols).
Proof.
  intros (keys & _ & H)%keyedTabularCols_inv f Hf. eapply classifyColumns_cells; [exact H|].
  apply list_elem_of_fmap. exists (snd f). split; [done|]. apply list_elem_of_fmap. eauto.
Qed.

(** The bound on nested column classification is the depth of the
    values, and more fuel never changes the columns found. *)
Theorem columns_fuel_irrelevant vals keys m :
  (columns_fuel vals <= m)%nat ->
  classifyColumns m (map fieldIndex vals) keys = classifyColumns (columns_fuel vals) (map fieldIndex vals) keys.
Proof. apply columns_fuel_enough. Qed.

(** ** Witnesses *)
Definition sample_rows : list value :=
  [VObject [("id", VNumber "1"); ("p", VObject [("x", VNumber "2.50"); ("y", VString "a,b")])];
   VObject [("p", VObject [("y", VString "-"); ("x", VNull)]); ("id", VNumber "007")]].

Definition sample_object : value := VObject [("rows", VArray sample_rows); ("ok", VBool true)].

Lemma sample_wf : wf_value sample_object.
Proof.
  repeat first [ apply WfObject | apply WfArray | apply WfNull | apply WfBool
               | apply WfNumber; reflexivity | apply WfString; reflexivity
               | apply Forall_nil_2 | apply Forall_cons_2 | split; [reflexivity|cbn [snd]] ].
Qed.

Lemma encode_bounded_witness : exists s, Encode sample_object = Ok s /\ slen s <= maxEncodeBytes.
Proof.
  eexists. split; [vm_compute; reflexivity|].
  apply (encode_bounded sample_object). vm_compute. reflexivity.
Defined.

Lemma encode_accepts_witness : (exists s, Encode sample_object = Ok s) \/ Encode sample_object = Err EncodeTooLarge.
Proof. apply (encode_accepts sample_object); [apply sample_wf|vm_compute; lia]. Defined.

Fixpoint nest (n : nat) : value := match n with O => VNull | S n => VArray [nest n] end.

Lemma encode_too_deep_witness : Encode (nest 1026) = Err DepthExceeded.
Proof. apply (encode_too_deep (nest 1026)). apply Nat.ltb_lt. vm_compute. reflexivity. Defined.

Definition sample_row : list value := [VString "1"; VNumber "1"; VString "a,b"; VNull; VString "x"].
Definition sample_row_text : string :=
  match joinPrimitives sample_row with Ok s => s | Err _ => "" end.
Lemma row_roundtrip_witness :
  joinPrimitives sample_row = Ok sample_row_text /\
  exists tokens, Forall2 (fun s t => read_token s = Some t) (split_row Out sample_row_text) tokens /\
                 Forall2 token_of sample_row tokens.
Proof.
  split; [vm_compute; reflexivity|].
  apply (row_roundtrip sample_row); [discriminate|vm_compute; reflexivity].
Defined.

Lemma encodeNum_correct_witness :
  json_number "-120" /\ exists t, encodeNum "-120" = Ok t /\ read_token t = Some (TNumber t) /\
    (contains_any "-120" ".eE" = false ->
       int_value t = int_value "-120" /\ t <> "-0" /\ exists sg ip, t = sg +:+ ip /\ (sg = "" \/ sg = "-") /\ int_part ip).
Proof.
  assert (json_number "-120") as H.
  { apply (JsonNumber "-" "120" "" ""); [by right| |by left|by left]. split; [by split|by right]. }
  split; [exact H|]. apply (encodeNum_correct "-120" H).
Defined.

Lemma tabular_rows_uniform_witness :
  exists cols, tabularFields sample_rows = Some cols /\
  forall it, it ∈ sample_rows ->
    allPrimitive (leafValues (fieldIndex it) cols) = true /\
    length (leafValues (fieldIndex it) cols) = list_sum (map col_width cols).
Proof.
  eexists. split; [vm_compute; reflexivity|].
  apply (tabular_rows_uniform sample_rows). vm_compute. reflexivity.
Defined.

Definition sample_keyed : value :=
  VObject [("a", VObject [("x", VNumber "1"); ("y", VNull)]); ("b", VObject [("y", VNull); ("x", VNumber "2")])].
Lemma keyed_rows_uniform_witness :
  exists cols, keyedTabularCols sample_keyed = Some cols /\
  forall f, f ∈ fields sample_keyed ->
    allPrimitive (leafValues (fieldIndex (snd f)) cols) = true /\
    length (leafValues (fieldIndex (snd f)) cols) = list_sum (map col_width cols).
Proof.
  eexists. split; [vm_compute; reflexivity|].
  apply (keyed_rows_uniform sample_keyed). vm_compute. reflexivity.
Defined.

Lemma columns_fuel_irrelevant_witness :
  classifyColumns 9 (map fieldIndex sample_rows) ["id"; "p"]
  = classifyColumns (columns_fuel sample_rows) (map fieldIndex sample_rows) ["id"; "p"].
Proof. apply (columns_fuel_irrelevant sample_rows ["id"; "p"] 9). vm_compute. lia. Defined.
