(* ===== verification/Config.v ===== *)
(** * Configuration: names, permissions, formats, aliases (src/internal/config)

    The validity patterns of server and tool names, the case-insensitive hidden-tool
    test, the response format rules, and the accessors of [ServerConfig] and
    [ProjectionConfig] the other components use. *)
From S2P Require Import Prelude GoStr Utf8 Regex.

(** ** Names *)
Definition server_name_byte (c : ascii) : bool := is_alnum c || Ascii.eqb c "_" || Ascii.eqb c "-".
Definition tool_name_byte (c : ascii) : bool := is_alnum c || Ascii.eqb c "_" || Ascii.eqb c "." || Ascii.eqb c "-".
Definition ValidServerName : re := RPlus (RCls server_name_byte).
Definition ValidToolName : re := RPlus (RCls tool_name_byte).

Lemma valid_server_name_spec s :
  re_match ValidServerName s = true <-> s <> "" /\ str_forall server_name_byte s = true.
Proof.
  rewrite re_match_spec. split; [apply matches_plus_cls_inv|].
  intros []. by apply matches_plus_cls.
Qed.

(** A server name has no dot: it ends at the first dot of a full tool name. *)
Lemma server_name_no_dot s : re_match ValidServerName s = true -> byte_in "." s = false.
Proof. rewrite valid_server_name_spec. intros [_ H]. revert H. by apply str_forall_no_byte. Qed.

(** ** Permissions *)

(** Simple case folding: ASCII letters, and the two runes that fold to one (U+017F to
    [s], U+212A to [k]).  It agrees with [strings.EqualFold] whenever one of the two
    strings is ASCII, as a tool name that passed [ValidToolName] is. *)
Definition fold_rune (r : Z) : Z :=
  if (65 <=? r) && (r <=? 90) then r + 32
  else if r =? 383 then 115
  else if r =? 8490 then 107
  else r.
Definition EqualFold (s t : string) : bool := bool_decide (map fold_rune (runes s) = map fold_rune (runes t)).

Record PermissionsConfig : Type := { Hidden : list string }.

Definition Hides (p : option PermissionsConfig) (toolName : string) : bool :=
  match p with
  | None => false
  | Some p => existsb (fun name => EqualFold name toolName) (Hidden p)
  end.

(** ** Projection rules and response formats *)
Record ProjectionConfig : Type := {
  Alias : string;
  IncludeOnly : list string;
  Exclude : list string;
  ArrayLimits : gmap string Z;
  StringLimits : gmap string Z;
  StripMarkupOpt : bool;
  Format : string
}.

Definition FormatJSON : string := "json".
Definition FormatToon : string := "toon".

Definition EffectiveFormat (explicit projection global : string) : string :=
  if negb (String.eqb explicit "") then explicit
  else if negb (String.eqb projection "") then projection
  else if negb (String.eqb global "") then global
  else FormatJSON.

Definition ProjectionFormat (p : option ProjectionConfig) : string :=
  match p with None => "" | Some p => Format p end.

Inductive format_error : Type := FormatRenamed | FormatInvalid (format : string).

Definition ValidResponseFormat (format : string) : res format_error unit :=
  if String.eqb format "" || String.eqb format FormatJSON || String.eqb format FormatToon then Ok tt
  else if String.eqb format "mini" then Err FormatRenamed
  else Err (FormatInvalid format).

(** The alias of each tool that has one; nil when there is none. *)
Definition AliasesFromProjections (proj : gmap string (option ProjectionConfig)) : option (gmap string string) :=
  let aliases := omap (fun pc : option ProjectionConfig =>
    match pc with Some pc => if String.eqb (Alias pc) "" then None else Some (Alias pc) | None => None end) proj in
  if decide (aliases = ∅) then None else Some aliases.

(** ** Servers *)
Inductive TransportKind : Type := TransportStdio | TransportHTTP | TransportSSE | TransportStreamable | TransportOther (s : string).
Definition TransportKind_of (s : string) : TransportKind :=
  if String.eqb s "stdio" then TransportStdio
  else if String.eqb s "http" then TransportHTTP
  else if String.eqb s "sse" then TransportSSE
  else if String.eqb s "streamable" then TransportStreamable
  else TransportOther s.
Definition IsHTTPTransport (t : TransportKind) : bool :=
  match t with TransportHTTP | TransportSSE | TransportStreamable => true | _ => false end.
Definition IsEnabled (enabled : option bool) : bool :=
  match enabled with None => true | Some b => b end.

(** A hidden tool is hidden in every letter case. *)
Lemma Hides_fold p name name' :
  map fold_rune (runes name) = map fold_rune (runes name') -> Hides p name = Hides p name'.
Proof. intros H. destruct p as [p|]; [|done]. simpl. unfold EqualFold. by rewrite H. Qed.

(** [EffectiveFormat] never yields an unknown format when its arguments are valid. *)
Lemma EffectiveFormat_valid a b c :
  is_ok (ValidResponseFormat a) = true -> is_ok (ValidResponseFormat b) = true -> is_ok (ValidResponseFormat c) = true ->
  EffectiveFormat a b c = FormatJSON \/ EffectiveFormat a b c = FormatToon.
Proof.
  assert (forall x, is_ok (ValidResponseFormat x) = true -> x = "" \/ x = FormatJSON \/ x = FormatToon) as H.
  { intros x. unfold ValidResponseFormat. destruct (_ || _) eqn:E; [|by destruct (String.eqb x "mini")].
    rewrite !orb_true_iff, !String.eqb_eq in E. tauto. }
  intros [->|[->| ->]]%H [->|[->| ->]]%H [->|[->| ->]]%H; unfold EffectiveFormat; simpl; auto.
Qed.
