(* ===== verification/Registry.v ===== *)
(** * The tool registry (src/internal/registry)

    [registry] is the three maps of [Registry]; each operation runs under the
    registry's lock, so it is one function of the state.  [Def] keeps the name and
    leaves the rest of a tool definition as its raw JSON. *)
From S2P Require Import Prelude GoStr Regex Config.

Record ToolDefinition : Type := { def_name : string; def_body : string }.
Record ToolName : Type := { UpstreamName : string; NameAlias : string }.
Definition Name (n : ToolName) : string := if String.eqb (NameAlias n) "" then UpstreamName n else NameAlias n.

Record ToolEntry : Type := { Server : string; EntryName : ToolName; FullName : string; Def : ToolDefinition }.

Record registry : Type := {
  tools : gmap string ToolEntry;
  hidden : gmap string ToolEntry;
  byServer : gmap string (list ToolEntry)
}.

Definition New : registry := {| tools := ∅; hidden := ∅; byServer := ∅ |}.

(** ** Aliases *)
Record AliasResolution : Type := { visible : gmap string string; dropped : gset string }.

Definition AliasFor (r : AliasResolution) (realName : string) : string :=
  let visibleName := default "" (visible r !! realName) in
  if String.eqb visibleName realName then "" else visibleName.

Definition WasDropped (r : AliasResolution) (realName : string) : bool := bool_decide (realName ∈ dropped r).

(** The visible name claimed by a tool, and whether its alias was dropped. *)
Definition claimed_name (nameSet : gset string) (aliases : gmap string string) (name : string) : string * bool :=
  let alias := default "" (aliases !! name) in
  if negb (String.eqb alias "") && re_match ValidToolName alias then
    if decide (alias ∈ nameSet) then (name, true) else (alias, false)
  else (name, false).

Record claims : Type := { c_visible : gmap string string; c_dropped : gset string; c_claim : gmap string (list string) }.

Definition claim_step (nameSet : gset string) (aliases : gmap string string) (c : claims) (name : string) : claims :=
  let '(visibleName, drop) := claimed_name nameSet aliases name in
  {| c_visible := <[name := visibleName]> (c_visible c);
     c_dropped := if drop : bool then {[name]} ∪ c_dropped c else c_dropped c;
     c_claim := <[visibleName := default [] (c_claim c !! visibleName) ++ [name]]> (c_claim c) |}.

Definition buildAliasClaims (realNames : list string) (aliases : gmap string string) : claims :=
  foldl (claim_step (list_to_set realNames) aliases) {| c_visible := ∅; c_dropped := ∅; c_claim := ∅ |} realNames.

(** One step of the loop over the [visible] map, in whatever order Go visits it. *)
Definition revert_step (claim : gmap string (list string)) (st : gmap string string * gset string) (e : string * string)
    : gmap string string * gset string :=
  let '(vis, drop) := st in
  let '(realName, visibleName) := e in
  if negb (String.eqb visibleName realName) && Nat.ltb 1 (length (default [] (claim !! visibleName)))
  then (<[realName := realName]> vis, {[realName]} ∪ drop)
  else (vis, drop).

Definition revertClashingAliases_in (order : list (string * string)) (c : claims) : AliasResolution :=
  let '(vis, drop) := foldl (revert_step (c_claim c)) (c_visible c, c_dropped c) order in
  {| visible := vis; dropped := drop |}.

Definition revertClashingAliases (c : claims) : AliasResolution :=
  revertClashingAliases_in (map_to_list (c_visible c)) c.

Definition ResolveAliases (realNames : list string) (aliases : gmap string string) : AliasResolution :=
  revertClashingAliases (buildAliasClaims realNames aliases).

(** ** Servers *)
Record ServerParams : Type := {
  p_name : string;
  p_defs : list ToolDefinition;
  p_perm : option PermissionsConfig;
  p_aliases : gmap string string
}.

Definition toolDefNames (defs : list ToolDefinition) : list string := map def_name defs.

Definition buildEntry (server : string) (def : ToolDefinition) (alias : string) : ToolEntry :=
  let name := {| UpstreamName := def_name def; NameAlias := alias |} in
  {| Server := server; EntryName := name; FullName := server +:+ "." +:+ Name name; Def := def |}.

Definition insertEntryLocked (r : registry) (server : string) (entry : ToolEntry) (hide : bool) : registry :=
  if hide then
    {| tools := tools r; hidden := <[FullName entry := entry]> (hidden r); byServer := byServer r |}
  else
    {| tools := <[FullName entry := entry]> (tools r); hidden := hidden r;
       byServer := <[server := default [] (byServer r !! server) ++ [entry]]> (byServer r) |}.

Definition add_step (p : ServerParams) (resolution : AliasResolution) (st : registry * gset string) (def : ToolDefinition)
    : registry * gset string :=
  let '(r, seen) := st in
  if negb (re_match ValidToolName (def_name def)) then (r, seen)
  else
    let entry := buildEntry (p_name p) def (AliasFor resolution (def_name def)) in
    if decide (FullName entry ∈ seen) then (r, seen)
    else (insertEntryLocked r (p_name p) entry (Hides (p_perm p) (def_name def)), {[FullName entry]} ∪ seen).

Definition addServerLocked (r : registry) (p : ServerParams) : registry :=
  let resolution := ResolveAliases (toolDefNames (p_defs p)) (p_aliases p) in
  fst (foldl (add_step p resolution) (r, ∅) (p_defs p)).
Definition AddServer := addServerLocked.

Definition entryByFullNameLocked (r : registry) (fullName : string) : option ToolEntry :=
  match tools r !! fullName with Some e => Some e | None => hidden r !! fullName end.

Definition removeServerLocked (r : registry) (serverName : string) : registry :=
  {| tools := foldl (fun m e => delete (FullName e) m) (tools r) (default [] (byServer r !! serverName));
     hidden := filter (fun ke => Server (snd ke) <> serverName) (hidden r);
     byServer := delete serverName (byServer r) |}.
Definition RemoveServer := removeServerLocked.

Definition ReplaceServer (r : registry) (p : ServerParams) : registry :=
  addServerLocked (removeServerLocked r (p_name p)) p.

Definition Lookup (r : registry) (fullName : string) : res string ToolEntry :=
  match tools r !! fullName with
  | Some e => Ok e
  | None => Err ("tool not found: " +:+ fullName)
  end.

Definition LookupWithHidden (r : registry) (fullName : string) : option ToolEntry := entryByFullNameLocked r fullName.

(** [sort.Slice] by full name: the names are distinct map keys. *)
Definition AllFull (r : registry) : list ToolEntry :=
  merge_sort (fun a b => String.le (FullName a) (FullName b)) (map snd (map_to_list (tools r))).

Definition ServerNames (r : registry) : list string := map fst (map_to_list (byServer r)).

Definition ToolCount (r : registry) (serverName : string) : nat := length (default [] (byServer r !! serverName)).
