(* ===== verification/RegistryProps.v ===== *)
(** * The registry: aliases, and the refinement of the per-server specification

    [ResolveAliases] is characterised name by name; then the three maps of the
    registry are shown to be the disjoint union of one view per server. *)
From S2P Require Import Prelude GoStr Regex Config Registry.

(** ** Alias resolution, name by name *)
Section aliases.
Context (names : list string) (al : gmap string string).
Let nameSet : gset string := list_to_set names.

(** The name [n] asks for, whether a clash with a real name already refused it,
    and the number of tools that ask for [v]. *)
Definition asks (n : string) : string := fst (claimed_name nameSet al n).
Definition refused (n : string) : bool := snd (claimed_name nameSet al n).
Definition askers (l : list string) (v : string) : list string := List.filter (fun n => String.eqb (asks n) v) l.
Definition clashes (n : string) : bool := negb (String.eqb (asks n) n) && Nat.ltb 1 (length (askers names (asks n))).

Lemma askers_app l1 l2 v : askers (l1 ++ l2) v = askers l1 v ++ askers l2 v.
Proof. apply List.filter_app. Qed.

Lemma asks_alias n : asks n <> n -> asks n ∉ names /\ asks n <> "" /\ re_match ValidToolName (asks n) = true.
Proof.
  unfold asks, claimed_name. destruct (_ && _) eqn:E; [|done]. bool_to_prop. destruct E as [E1 E2].
  apply String.eqb_neq in E1. case_decide as Hin; [done|]. simpl. intros _.
  unfold nameSet in Hin. by rewrite elem_of_list_to_set in Hin.
Qed.

Lemma refused_asks n : refused n = true -> asks n = n.
Proof. unfold refused, asks, claimed_name. destruct (_ && _); [|done]. by case_decide. Qed.

Definition claims_ok (done : list string) (c : claims) : Prop :=
  (forall n, c_visible c !! n = if decide (n ∈ done) then Some (asks n) else None) /\
  (forall n, n ∈ c_dropped c <-> n ∈ done /\ refused n = true) /\
  (forall v, default [] (c_claim c !! v) = askers done v).

Lemma claim_step_ok done c n : claims_ok done c -> claims_ok (done ++ [n]) (claim_step nameSet al c n).
Proof.
  intros (Hv & Hd & Hc). unfold claim_step. rewrite (surjective_pairing (claimed_name nameSet al n)).
  fold (asks n) (refused n).
  split; [|split]; simpl.
  - intros m. destruct (decide (m = n)) as [->|Hne].
    + rewrite lookup_insert_eq, decide_True by set_solver. done.
    + rewrite lookup_insert_ne, Hv by done. apply decide_ext. set_solver.
  - intros m. destruct (refused n) eqn:E; rewrite ?elem_of_union, Hd, elem_of_app, ?elem_of_singleton,
      list_elem_of_singleton; split; intros; destruct_or?; destruct_and?; destruct_or?; subst; auto; congruence.
  - intros v. rewrite askers_app. simpl. destruct (String.eqb_spec (asks n) v) as [<-|Hne].
    + rewrite lookup_insert_eq. simpl. by rewrite Hc.
    + rewrite lookup_insert_ne by done. by rewrite Hc, app_nil_r.
Qed.

Lemma buildAliasClaims_ok : claims_ok names (buildAliasClaims names al).
Proof.
  unfold buildAliasClaims. fold nameSet.
  assert (forall l done c, claims_ok done c -> claims_ok (done ++ l) (foldl (claim_step nameSet al) c l)) as H.
  { induction l as [|n l IH]; intros done c Hc; simpl; [by rewrite app_nil_r|].
    rewrite cons_middle, app_assoc. apply IH, claim_step_ok, Hc. }
  apply (H names []). split; [|split]; simpl; [done|set_solver|done].
Qed.

(** The final visible name and whether the alias was dropped. *)
Definition final (n : string) : string := if clashes n then n else asks n.
Definition lost (n : string) : bool := refused n || clashes n.

Definition resolution_ok (r : AliasResolution) : Prop :=
  (forall n, visible r !! n = if decide (n ∈ names) then Some (final n) else None) /\
  (forall n, n ∈ dropped r <-> n ∈ names /\ lost n = true).

Lemma resolution_unique r1 r2 : resolution_ok r1 -> resolution_ok r2 -> r1 = r2.
Proof.
  destruct r1 as [v1 d1], r2 as [v2 d2]. intros [H1 H2] [H3 H4]. simpl in *. f_equal.
  - apply map_eq. intros n. by rewrite H1, H3.
  - apply set_eq. intros n. by rewrite H2, H4.
Qed.

(** The loop over [visible], in any order that visits each entry once. *)
Definition revert_ok (c : claims) (seen : list (string * string)) (st : gmap string string * gset string) : Prop :=
  (forall n, fst st !! n = if decide (n ∈ seen.*1) then Some (final n) else c_visible c !! n) /\
  (forall n, n ∈ snd st <-> n ∈ c_dropped c \/ n ∈ seen.*1 /\ clashes n = true).

Lemma revert_step_ok c seen st n : claims_ok names c -> revert_ok c seen st -> n ∈ names -> n ∉ seen.*1 ->
  revert_ok c (seen ++ [(n, asks n)]) (revert_step (c_claim c) st (n, asks n)).
Proof.
  intros (Hcv & _ & Hc) [Hv Hd] Hn Hns. destruct st as [vis drop]. unfold revert_step. rewrite Hc. fold (clashes n). simpl in *.
  assert (clashes n = false -> final n = asks n) as Hf by (unfold final; by intros ->).
  split; simpl; intros m; rewrite fmap_app; simpl.
  - destruct (decide (m = n)) as [->|Hne].
    + rewrite (decide_True (P := n ∈ _)) by set_solver. destruct (clashes n) eqn:E; simpl.
      * rewrite lookup_insert_eq. unfold final. by rewrite E.
      * rewrite Hv, decide_False by done. rewrite Hcv, decide_True by done. by rewrite Hf.
    + rewrite (decide_ext (m ∈ seen.*1 ++ [n]) (m ∈ seen.*1)) by set_solver.
      destruct (clashes n); simpl; rewrite ?lookup_insert_ne by done; apply Hv.
  - destruct (clashes n) eqn:E; simpl; rewrite ?elem_of_union, Hd, elem_of_app, ?elem_of_singleton,
      list_elem_of_singleton; split; intros; destruct_or?; destruct_and?; destruct_or?; subst; auto; congruence.
Qed.

Lemma revert_in_ok c order : claims_ok names c -> order ≡ₚ map_to_list (c_visible c) ->
  resolution_ok (revertClashingAliases_in order c).
Proof.
  intros Hc Hp. pose proof Hc as (Hcv & Hcd & _).
  assert (NoDup order.*1) as Hnd by (rewrite Hp; apply NoDup_fst_map_to_list).
  assert (forall e, e ∈ order -> e.1 ∈ names /\ e.2 = asks e.1) as Hin.
  { intros [n v] He. rewrite Hp, elem_of_map_to_list, Hcv in He. case_decide; naive_solver. }
  assert (forall l seen st, revert_ok c seen st -> NoDup (seen ++ l).*1 -> (forall e, e ∈ l -> e.1 ∈ names /\ e.2 = asks e.1) ->
    revert_ok c (seen ++ l) (foldl (revert_step (c_claim c)) st l)) as H.
  { induction l as [|[n v] l IH]; intros seen st Hst Hndl Hl; simpl; [by rewrite app_nil_r|].
    destruct (Hl (n, v)) as [Hn Hv]; [by left|]. simpl in *. subst v. rewrite cons_middle, app_assoc. apply IH.
    - apply revert_step_ok; [done|done|done|]. rewrite fmap_app in Hndl. apply NoDup_app in Hndl as (_ & Hd & _).
      intros Hs. apply (Hd _ Hs). simpl. by left.
    - by rewrite <- app_assoc.
    - intros e He. apply Hl. by right. }
  specialize (H order [] (c_visible c, c_dropped c)). unfold revertClashingAliases_in.
  destruct (foldl _ _ _) as [vis drop]. destruct H as [H1 H2]; simpl in *; [|done|done|].
  { split; simpl; [done|]. set_solver. }
  assert (forall n, n ∈ order.*1 <-> n ∈ names) as Hon.
  { intros n. rewrite Hp. split.
    - intros ([m v] & -> & He)%list_elem_of_fmap. rewrite elem_of_map_to_list, Hcv in He. by case_decide.
    - intros Hn. apply list_elem_of_fmap. exists (n, asks n). split; [done|].
      by rewrite elem_of_map_to_list, Hcv, decide_True. }
  split; simpl; intros n.
  - rewrite H1. case_decide as Hs; rewrite Hon in Hs; [by rewrite decide_True|]. by rewrite Hcv, decide_False, decide_False.
  - unfold lost. rewrite H2, Hcd, Hon, orb_true_iff. tauto.
Qed.

Lemma ResolveAliases_ok : resolution_ok (ResolveAliases names al).
Proof. apply revert_in_ok; [apply buildAliasClaims_ok|done]. Qed.

(** No two tools end with the same visible name. *)
Lemma askers_two n m : n ∈ names -> m ∈ names -> n <> m -> asks n = asks m -> (1 < length (askers names (asks n)))%nat.
Proof.
  intros Hn Hm Hne Heq.
  assert (forall x, x ∈ askers names (asks n) <-> x ∈ names /\ asks x = asks n) as Hel.
  { intros x. unfold askers. by rewrite list_elem_of_In, List.filter_In, <- list_elem_of_In, String.eqb_eq. }
  assert (n ∈ askers names (asks n)) as H1 by by apply Hel.
  assert (m ∈ askers names (asks n)) as H2 by by apply Hel.
  destruct (askers names (asks n)) as [|x [|y l]]; simpl; [set_solver| |lia].
  apply list_elem_of_singleton in H1, H2. congruence.
Qed.

Lemma final_inj n m : n ∈ names -> m ∈ names -> final n = final m -> n = m.
Proof.
  intros Hn Hm. destruct (decide (n = m)) as [|Hne]; [done|]. unfold final.
  assert (forall x, clashes x = false -> x ∈ names -> asks x <> x -> forall y, y ∈ names -> y <> x -> asks y <> asks x) as Huniq.
  { intros x Hx Hxn Hxa y Hy Hyx Heq. unfold clashes in Hx. apply andb_false_iff in Hx as [Hx|Hx].
    - apply negb_false_iff, String.eqb_eq in Hx. done.
    - apply Nat.ltb_ge in Hx. pose proof (askers_two x y Hxn Hy). naive_solver lia. }
  destruct (clashes n) eqn:En, (clashes m) eqn:Em; [done| | |].
  - intros ->. destruct (decide (asks m = m)) as [->|Ha]; [done|]. destruct (asks_alias m Ha) as [? _]. done.
  - intros <-. destruct (decide (asks n = n)) as [->|Ha]; [done|]. destruct (asks_alias n Ha) as [? _]. done.
  - intros Heq. destruct (decide (asks n = n)) as [Ha|Ha]; [destruct (decide (asks m = m)) as [Hb|Hb]; [congruence|]|].
    + by destruct (Huniq m Em Hm Hb n Hn Hne).
    + by destruct (Huniq n En Hn Ha m Hm (not_eq_sym Hne)).
Qed.

Lemma final_real n m : n ∈ names -> m ∈ names -> final n = m -> n = m.
Proof.
  intros Hn Hm H. unfold final in H. destruct (clashes n); [done|].
  destruct (decide (asks n = n)) as [Ha|Ha]; [congruence|]. destruct (asks_alias n Ha) as [? _]. congruence.
Qed.
End aliases.

(** ** Full names *)
Definition dot_free (s : string) : Prop := byte_in "." s = false.

Lemma full_name_inj s1 s2 n1 n2 : dot_free s1 -> dot_free s2 -> s1 +:+ "." +:+ n1 = s2 +:+ "." +:+ n2 -> s1 = s2 /\ n1 = n2.
Proof.
  unfold dot_free. revert s2. induction s1 as [|c s1 IH]; intros [|d s2]; cbn [byte_in String.append]; intros H1 H2 [= Heq].
  - done.
  - subst d. by rewrite Ascii.eqb_refl in H2.
  - subst c. by rewrite Ascii.eqb_refl in H1.
  - subst d. apply orb_false_iff in H1 as [_ H1], H2 as [_ H2]. destruct (IH s2 H1 H2) as [-> ->]; [|done]. done.
Qed.

(** ** The view of one server: what registering it alone yields *)
Definition view (p : ServerParams) : registry := addServerLocked New p.

Definition entries_of (r : registry) (s : string) : list ToolEntry := default [] (byServer r !! s).

(** Entries that belong to server [p_name p] and respect its permissions. *)
Definition entry_of (p : ServerParams) (hide : bool) (e : ToolEntry) : Prop :=
  Server e = p_name p /\ FullName e = p_name p +:+ "." +:+ Name (EntryName e) /\
  UpstreamName (EntryName e) = def_name (Def e) /\ Def e ∈ p_defs p /\
  Hides (p_perm p) (def_name (Def e)) = hide.

Record view_inv (p : ServerParams) (r : registry) (seen : gset string) : Prop := {
  vi_tools : forall k e, tools r !! k = Some e <-> e ∈ entries_of r (p_name p) /\ FullName e = k;
  vi_entries : forall e, e ∈ entries_of r (p_name p) -> entry_of p false e /\ FullName e ∈ seen;
  vi_hidden : forall k e, hidden r !! k = Some e -> entry_of p true e /\ FullName e = k /\ k ∈ seen;
  vi_other : forall s, s <> p_name p -> byServer r !! s = None;
  vi_disjoint : tools r ##ₘ hidden r;
  vi_nodup : NoDup (FullName <$> entries_of r (p_name p))
}.

Lemma insert_view_inv p r seen e hide : view_inv p r seen -> entry_of p hide e -> FullName e ∉ seen ->
  view_inv p (insertEntryLocked r (p_name p) e hide) ({[FullName e]} ∪ seen).
Proof.
  intros [Ht He Hh Ho Hd Hn] Hentry Hs.
  assert (tools r !! FullName e = None) as Htn.
  { destruct (tools r !! FullName e) as [e'|] eqn:E; [|done]. apply Ht in E as [E Heq]. apply He in E as [_ E]. congruence. }
  assert (hidden r !! FullName e = None) as Hhn.
  { destruct (hidden r !! FullName e) as [e'|] eqn:E; [|done]. apply Hh in E as (_ & _ & E). done. }
  unfold insertEntryLocked. destruct hide.
  - split; unfold entries_of in *; simpl; [done| | |done| |done].
    + intros e' H'. destruct (He e' H'). set_solver.
    + intros k e'. rewrite lookup_insert_Some. intros [[<- <-]|[_ H']]; [set_solver|]. destruct (Hh k e' H') as (?&?&?). set_solver.
    + by apply map_disjoint_insert_r_2.
  - split; unfold entries_of in *; simpl; rewrite ?lookup_insert_eq; simpl.
    + intros k e'. rewrite lookup_insert_Some, Ht, elem_of_app, list_elem_of_singleton. split.
      * intros [[<- <-]|[? [? ?]]]; auto.
      * intros [[Hin|Hin] <-]; [right|subst e'; by left]. split; [|done]. intros Heq. apply He in Hin as [_ Hin]. congruence.
    + intros e'. rewrite elem_of_app, list_elem_of_singleton. intros [Hin|Heq]; [destruct (He e' Hin)|subst e']; set_solver.
    + intros k e' H'. destruct (Hh k e' H') as (?&?&?). set_solver.
    + intros s Hne. rewrite lookup_insert_ne by done. auto.
    + by apply map_disjoint_insert_l_2.
    + rewrite fmap_app. apply NoDup_app. split; [done|]. split; [|apply NoDup_singleton].
      intros x (e' & -> & Hin)%list_elem_of_fmap Hx. apply list_elem_of_singleton in Hx.
      apply He in Hin as [_ Hin]. congruence.
Qed.

Lemma add_step_view_inv p res r seen def : view_inv p r seen -> def ∈ p_defs p ->
  view_inv p (fst (add_step p res (r, seen) def)) (snd (add_step p res (r, seen) def)).
Proof.
  intros H Hdef. unfold add_step. destruct (re_match _ _); simpl; [|done].
  case_decide as Hs; simpl; [done|]. by apply insert_view_inv.
Qed.

Lemma foldl_view_inv p res l r seen : view_inv p r seen -> l ⊆ p_defs p ->
  view_inv p (fst (foldl (add_step p res) (r, seen) l)) (snd (foldl (add_step p res) (r, seen) l)).
Proof.
  revert r seen. induction l as [|d l IH]; intros r seen H Hl; [done|]. cbn [foldl].
  pose proof (add_step_view_inv p res r seen d H ltac:(set_solver)) as H'.
  destruct (add_step p res (r, seen) d) as [r' seen']. apply IH; [done|set_solver].
Qed.

Lemma view_view_inv p : exists seen, view_inv p (view p) seen.
Proof.
  eexists. unfold view, addServerLocked. apply foldl_view_inv; [|done].
  split; unfold entries_of; simpl.
  - intros k e. rewrite lookup_empty. set_solver.
  - set_solver.
  - intros k e. by rewrite lookup_empty.
  - intros s _. apply lookup_empty.
  - apply map_disjoint_empty_l.
  - apply NoDup_nil_2.
Qed.

(** Registering a server in a registry where it is absent adds its view. *)
Definition overlay (r0 r : registry) : registry :=
  {| tools := tools r0 ∪ tools r; hidden := hidden r0 ∪ hidden r; byServer := byServer r0 ∪ byServer r |}.

Lemma add_overlay p res l r0 r seen : byServer r !! p_name p = None ->
  foldl (add_step p res) (overlay r0 r, seen) l =
  let '(r0', seen') := foldl (add_step p res) (r0, seen) l in (overlay r0' r, seen').
Proof.
  intros Hr. revert r0 seen. induction l as [|d l IH]; intros r0 seen; [done|]. cbn [foldl].
  unfold add_step at 2 4. destruct (re_match _ _); simpl; [|apply IH]. case_decide; [apply IH|].
  rewrite <- IH. f_equal. f_equal. unfold insertEntryLocked, overlay. destruct (Hides _ _); simpl; f_equal.
  - by rewrite insert_union_l.
  - by rewrite insert_union_l.
  - rewrite insert_union_l. f_equal. f_equal. f_equal. by rewrite lookup_union, Hr, (right_id None _).
Qed.

Lemma addServer_overlay p r : byServer r !! p_name p = None -> addServerLocked r p = overlay (view p) r.
Proof.
  intros Hr. unfold view, addServerLocked.
  assert (r = overlay New r) as Hov by (destruct r; unfold overlay, New; simpl; by rewrite !(left_id ∅ (∪))).
  rewrite Hov at 1. rewrite add_overlay by done. by destruct (foldl _ _ _).
Qed.

(** ** The abstract registry: the parameters each server was last registered with *)
Abbreviation spec := (gmap string ServerParams).

Definition spec_ok (A : spec) : Prop := forall s p, A !! s = Some p -> p_name p = s /\ dot_free s.

Record represents (A : spec) (r : registry) : Prop := {
  rep_tools : forall k e, tools r !! k = Some e <-> exists s p, A !! s = Some p /\ tools (view p) !! k = Some e;
  rep_hidden : forall k e, hidden r !! k = Some e <-> exists s p, A !! s = Some p /\ hidden (view p) !! k = Some e;
  rep_byServer : forall s, byServer r !! s = A !! s ≫= fun p => byServer (view p) !! s
}.

Lemma view_tools_server p k e : tools (view p) !! k = Some e ->
  Server e = p_name p /\ FullName e = k /\ k = p_name p +:+ "." +:+ Name (EntryName e).
Proof.
  destruct (view_view_inv p) as [seen []]. intros H. apply vi_tools0 in H as [H <-].
  apply vi_entries0 in H as [(?&?&?&?&?) ?]. auto.
Qed.

Lemma view_hidden_server p k e : hidden (view p) !! k = Some e ->
  Server e = p_name p /\ FullName e = k /\ k = p_name p +:+ "." +:+ Name (EntryName e).
Proof.
  destruct (view_view_inv p) as [seen []]. intros H. apply vi_hidden0 in H as [(?&?&?&?&?) [<- ?]]. auto.
Qed.

Lemma view_key_server A s1 s2 p1 p2 k n1 n2 : spec_ok A -> A !! s1 = Some p1 -> A !! s2 = Some p2 ->
  k = p_name p1 +:+ "." +:+ n1 -> k = p_name p2 +:+ "." +:+ n2 -> s1 = s2.
Proof.
  intros Hok H1 H2 -> Heq. destruct (Hok _ _ H1) as [<- Hd1], (Hok _ _ H2) as [<- Hd2].
  by apply full_name_inj in Heq as [-> _].
Qed.

Lemma foldl_delete_lookup (l : list ToolEntry) (m : gmap string ToolEntry) k e :
  foldl (fun m e => delete (FullName e) m) m l !! k = Some e <-> m !! k = Some e /\ k ∉ FullName <$> l.
Proof.
  revert m. induction l as [|x l IH]; intros m; cbn [foldl]; [set_solver|].
  rewrite IH, fmap_cons, lookup_delete_Some, not_elem_of_cons. naive_solver.
Qed.

Lemma represents_remove A r s : spec_ok A -> represents A r -> represents (delete s A) (removeServerLocked r s).
Proof.
  intros Hok [Ht Hh Hb]. split; simpl.
  - intros k e. rewrite foldl_delete_lookup, Ht. split.
    + intros [(s' & p & HA & Hk) Hnot]. exists s', p. split; [|done]. rewrite lookup_delete_Some. split; [|done].
      intros <-. apply Hnot. rewrite Hb, HA. simpl. destruct (Hok _ _ HA) as [<- _].
      destruct (view_view_inv p) as [seen []]. apply vi_tools0 in Hk as [Hk <-]. by apply list_elem_of_fmap_2.
    + intros (s' & p & [Hne HA]%lookup_delete_Some & Hk). split; [eauto|].
      intros (e' & Hke & Hin)%list_elem_of_fmap. rewrite Hb in Hin. destruct (A !! s) as [p'|] eqn:HA'; simpl in Hin; [|set_solver].
      destruct (Hok _ _ HA') as [<- _]. destruct (view_view_inv p') as [seen []]. apply vi_entries0 in Hin as [(_ & Hf & _) _].
      destruct (view_tools_server _ _ _ Hk) as (_ & _ & Hk').
      apply Hne. eapply view_key_server; [done|exact HA'|exact HA| |exact Hk']. by rewrite <- Hf.
  - intros k e. rewrite map_lookup_filter_Some, Hh. simpl. split.
    + intros [(s' & p & HA & Hk) Hne]. exists s', p. split; [|done]. rewrite lookup_delete_Some. split; [|done].
      intros <-. apply Hne. destruct (view_hidden_server _ _ _ Hk) as [-> _]. by apply Hok.
    + intros (s' & p & [Hne HA]%lookup_delete_Some & Hk). split; [eauto|].
      destruct (view_hidden_server _ _ _ Hk) as [-> _]. by destruct (Hok _ _ HA) as [-> _].
  - intros s'. destruct (decide (s' = s)) as [->|]; [by rewrite !lookup_delete_eq|].
    by rewrite !lookup_delete_ne by done.
Qed.

Lemma spec_ok_delete A s : spec_ok A -> spec_ok (delete s A).
Proof. intros H s' p [_ HA]%lookup_delete_Some. by apply H. Qed.

Lemma spec_ok_insert A p : spec_ok A -> dot_free (p_name p) -> spec_ok (<[p_name p := p]> A).
Proof. intros H Hp s' p' [[<- <-]|[_ HA]]%lookup_insert_Some; auto. Qed.

Lemma represents_add A r p : spec_ok A -> dot_free (p_name p) -> A !! p_name p = None -> represents A r ->
  represents (<[p_name p := p]> A) (addServerLocked r p).
Proof.
  intros Hok Hp Hnew Hrep. pose proof Hrep as [Ht Hh Hb].
  pose proof (spec_ok_insert A p Hok Hp) as Hok'.
  rewrite addServer_overlay by by rewrite Hb, Hnew.
  assert (forall s' p', A !! s' = Some p' -> <[p_name p := p]> A !! s' = Some p') as Hlift.
  { intros s' p' HA. rewrite lookup_insert_ne by congruence. done. }
  split; simpl.
  - intros k e. rewrite lookup_union_Some_raw, Ht. split.
    + intros [H|[_ (s' & p' & HA & Hk)]]; [exists (p_name p), p; split; [apply lookup_insert_eq|done]|exists s', p'; auto].
    + intros (s' & p' & [[<- <-]|[Hne HA]]%lookup_insert_Some & Hk); [by left|right]. split; [|eauto].
      destruct (tools (view p) !! k) as [e'|] eqn:E; [|done]. exfalso. apply Hne.
      eapply view_key_server; [exact Hok'|apply lookup_insert_eq|apply Hlift; exact HA| |];
        [apply (view_tools_server _ _ _ E)|apply (view_tools_server _ _ _ Hk)].
  - intros k e. rewrite lookup_union_Some_raw, Hh. split.
    + intros [H|[_ (s' & p' & HA & Hk)]]; [exists (p_name p), p; split; [apply lookup_insert_eq|done]|exists s', p'; auto].
    + intros (s' & p' & [[<- <-]|[Hne HA]]%lookup_insert_Some & Hk); [by left|right]. split; [|eauto].
      destruct (hidden (view p) !! k) as [e'|] eqn:E; [|done]. exfalso. apply Hne.
      eapply view_key_server; [exact Hok'|apply lookup_insert_eq|apply Hlift; exact HA| |];
        [apply (view_hidden_server _ _ _ E)|apply (view_hidden_server _ _ _ Hk)].
  - intros s'. rewrite lookup_union, Hb. destruct (decide (s' = p_name p)) as [->|Hne].
    + rewrite lookup_insert_eq, Hnew. simpl. by rewrite (right_id None _).
    + rewrite lookup_insert_ne by done. destruct (view_view_inv p) as [seen []].
      rewrite vi_other0 by done. by rewrite (left_id None _).
Qed.

Lemma represents_replace A r p : spec_ok A -> dot_free (p_name p) -> represents A r ->
  represents (<[p_name p := p]> A) (ReplaceServer r p).
Proof.
  intros Hok Hp Hrep. unfold ReplaceServer. rewrite <- insert_delete_eq.
  apply represents_add; [by apply spec_ok_delete|done|apply lookup_delete_eq|by apply represents_remove].
Qed.

Lemma spec_ok_empty : spec_ok ∅.
Proof. intros s p. by rewrite lookup_empty. Qed.

Lemma represents_empty : represents ∅ New.
Proof.
  split; simpl.
  - intros k e. rewrite lookup_empty. split; [done|]. intros (s & p & H & _). by rewrite lookup_empty in H.
  - intros k e. rewrite lookup_empty. split; [done|]. intros (s & p & H & _). by rewrite lookup_empty in H.
  - intros s. by rewrite !lookup_empty.
Qed.

Lemma AllFull_values r : AllFull r ≡ₚ (map_to_list (tools r)).*2.
Proof. apply merge_sort_Permutation. Qed.

Lemma represents_by_server A r s : spec_ok A -> represents A r ->
  forall e, e ∈ entries_of r s <-> Server e = s /\ tools r !! FullName e = Some e.
Proof.
  intros Hok [Ht Hh Hb] e. unfold entries_of. rewrite Hb, Ht. split.
  - destruct (A !! s) as [p|] eqn:HA; simpl; [|set_solver]. destruct (Hok _ _ HA) as [<- _].
    destruct (view_view_inv p) as [seen []]. intros Hin. destruct (vi_entries0 _ Hin) as [(Hs & _) _].
    split; [done|]. exists (p_name p), p. split; [done|]. by apply vi_tools0.
  - intros [Hs (s' & p & HA & Hk)]. destruct (Hok _ _ HA) as [<- _].
    destruct (view_tools_server _ _ _ Hk) as [Hs' _]. rewrite Hs in Hs'. subst s. rewrite Hs', HA. simpl.
    destruct (view_view_inv p) as [seen []]. by apply vi_tools0 in Hk as [Hk _].
Qed.

Lemma represents_tools_key A r k e : represents A r -> tools r !! k = Some e -> FullName e = k.
Proof. intros [Ht _ _] H. apply Ht in H as (s & p & _ & Hk). by apply view_tools_server in Hk as (_ & ? & _). Qed.

Lemma represents_nodup A r s : spec_ok A -> represents A r -> NoDup (entries_of r s).
Proof.
  intros Hok [_ _ Hb]. unfold entries_of. rewrite Hb. destruct (A !! s) as [p|] eqn:HA; simpl; [|apply NoDup_nil_2].
  destruct (Hok _ _ HA) as [<- _]. destruct (view_view_inv p) as [seen []]. by apply NoDup_fmap_1 in vi_nodup0.
Qed.

Lemma values_nodup A r : represents A r -> NoDup (AllFull r).
Proof.
  intros Hrep. rewrite AllFull_values. apply (NoDup_fmap_1 FullName).
  replace (FullName <$> (map_to_list (tools r)).*2) with ((map_to_list (tools r)).*1); [apply NoDup_fst_map_to_list|].
  rewrite <- list_fmap_compose. apply list_fmap_ext. intros i [k e] He%list_elem_of_lookup_2. simpl.
  rewrite elem_of_map_to_list in He. symmetry. by eapply represents_tools_key.
Qed.

(** ** Properties *)

(** Every tool's final visible name is its real name or its configured, valid alias that no tool of the server really has, and no two tools of the server end with the same visible name. *)
Theorem resolve_aliases_distinct names al n v :
  visible (ResolveAliases names al) !! n = Some v ->
  (v = n \/ (al !! n = Some v /\ AliasFor (ResolveAliases names al) n = v /\ re_match ValidToolName v = true /\ v ∉ names)) /\
  (forall m, visible (ResolveAliases names al) !! m = Some v -> m = n).
Proof.
  destruct (ResolveAliases_ok names al) as [Hv _]. unfold AliasFor. intros H. rewrite H. simpl.
  rewrite Hv in H. case_decide as Hn; [|done]. injection H as H. split.
  - destruct (decide (v = n)) as [|Hne]; [by left|right]. rewrite (proj2 (String.eqb_neq v n)) by done.
    assert (asks names al n = v) as Ha by (unfold final in H; destruct (clashes names al n); congruence).
    destruct (asks_alias names al n) as (H1 & H2 & H3); [congruence|]. rewrite Ha in *.
    split; [|auto]. unfold asks, claimed_name in Ha.
    destruct (negb _ && _); [|done]. case_decide; simpl in Ha; [done|].
    destruct (al !! n); simpl in Ha; congruence.
  - intros m. rewrite Hv. case_decide; [|done]. intros [= Hm]. apply (final_inj names al); congruence.
Qed.

Lemma resolve_aliases_distinct_witness :
  AliasFor (ResolveAliases ["a"; "b"; "c"] {["a" := "x"; "b" := "x"; "c" := "y"]}) "c" = "y" /\
  (forall m, visible (ResolveAliases ["a"; "b"; "c"] {["a" := "x"; "b" := "x"; "c" := "y"]}) !! m = Some "a" -> m = "a").
Proof.
  split; [vm_compute; reflexivity|].
  apply (resolve_aliases_distinct ["a"; "b"; "c"] {["a" := "x"; "b" := "x"; "c" := "y"]} "a" "a"). vm_compute. reflexivity.
Defined.

(** The order in which Go visits the visible map while reverting clashing aliases does not matter: every order of its entries gives the same resolution. *)
Theorem revert_order_independent names al order :
  order ≡ₚ map_to_list (c_visible (buildAliasClaims names al)) ->
  revertClashingAliases_in order (buildAliasClaims names al) = ResolveAliases names al.
Proof.
  intros Hp. apply (resolution_unique names al); [|apply ResolveAliases_ok].
  apply revert_in_ok; [apply buildAliasClaims_ok|done].
Qed.

Lemma revert_order_independent_witness :
  revertClashingAliases_in (rev (map_to_list (c_visible (buildAliasClaims ["a"; "b"] {["a" := "x"; "b" := "x"]}))))
    (buildAliasClaims ["a"; "b"] {["a" := "x"; "b" := "x"]}) = ResolveAliases ["a"; "b"] {["a" := "x"; "b" := "x"]}.
Proof.
  apply (revert_order_independent ["a"; "b"] {["a" := "x"; "b" := "x"]}). symmetry. apply Permutation_rev.
Defined.

(** C1: The registry refines the map from server to the parameters it was last registered with: replacing a server replaces exactly its tools, hidden tools and list, removing it removes exactly them, and every other server's entries are untouched. *)
Theorem registry_refines A r p :
  spec_ok A -> re_match ValidServerName (p_name p) = true -> represents A r ->
  represents (<[p_name p := p]> A) (ReplaceServer r p) /\
  represents (delete (p_name p) A) (RemoveServer r (p_name p)) /\
  represents (<[p_name p := p]> (delete (p_name p) A)) (AddServer (RemoveServer r (p_name p)) p).
Proof.
  intros Hok Hp%server_name_no_dot Hrep. split; [by apply represents_replace|]. split; [by apply represents_remove|].
  apply represents_add; [by apply spec_ok_delete|done|apply lookup_delete_eq|by apply represents_remove].
Qed.

Definition sample_params (server : string) : ServerParams :=
  {| p_name := server;
     p_defs := [{| def_name := "list_issues"; def_body := "{}" |}; {| def_name := "delete_repo"; def_body := "{}" |}];
     p_perm := Some {| Hidden := ["Delete_Repo"] |};
     p_aliases := {["list_issues" := "issues"]} |}.

Lemma registry_refines_witness :
  represents {["gh" := sample_params "gh"]} (ReplaceServer New (sample_params "gh")).
Proof.
  apply (registry_refines ∅ New (sample_params "gh")); [apply spec_ok_empty|vm_compute; reflexivity|apply represents_empty].
Defined.

(** A tool found by its full name comes from the parameters of its server, and [Lookup] yields it exactly when the server's permissions do not hide its upstream name. *)
Theorem lookup_respects_permissions A r k e :
  spec_ok A -> represents A r -> LookupWithHidden r k = Some e ->
  exists p, A !! Server e = Some p /\ Def e ∈ p_defs p /\ FullName e = k /\
    UpstreamName (EntryName e) = def_name (Def e) /\
    Lookup r k = if Hides (p_perm p) (UpstreamName (EntryName e)) then Err ("tool not found: " +:+ k) else Ok e.
Proof.
  intros Hok [Ht Hh _]. unfold LookupWithHidden, entryByFullNameLocked, Lookup.
  destruct (tools r !! k) as [e'|] eqn:E.
  - intros [= ->]. apply Ht in E as (s & p & HA & Hk). destruct (Hok _ _ HA) as [<- _].
    destruct (view_view_inv p) as [seen []]. apply vi_tools0 in Hk as [Hin Hk].
    apply vi_entries0 in Hin as [(Hs & _ & Hu & Hd & Hhide) _]. exists p. rewrite Hs, Hu, Hhide. auto.
  - intros Hk. apply Hh in Hk as (s & p & HA & Hk). destruct (Hok _ _ HA) as [<- _].
    destruct (view_view_inv p) as [seen Hvi].
    destruct (vi_hidden _ _ _ Hvi _ _ Hk) as [(Hs & _ & Hu & Hd & Hhide) [Hk' _]].
    exists p. rewrite Hs, Hu, Hhide. auto.
Qed.

Lemma lookup_respects_permissions_witness :
  let r := ReplaceServer New (sample_params "gh") in
  (exists e, Lookup r "gh.issues" = Ok e) /\ LookupWithHidden r "gh.delete_repo" <> None /\
  forall e, LookupWithHidden r "gh.delete_repo" = Some e ->
    exists p, <["gh" := sample_params "gh"]> (∅ : spec) !! Server e = Some p /\ Def e ∈ p_defs p.
Proof.
  intros r. split; [eexists; vm_compute; reflexivity|]. split; [vm_compute; discriminate|].
  intros e He.
  destruct (lookup_respects_permissions (<["gh" := sample_params "gh"]> ∅) r "gh.delete_repo" e) as (p & H1 & H2 & _).
  - apply (spec_ok_insert ∅ (sample_params "gh")); [apply spec_ok_empty|vm_compute; reflexivity].
  - apply (represents_replace ∅ New (sample_params "gh")); [apply spec_ok_empty|vm_compute; reflexivity|apply represents_empty].
  - exact He.
  - exists p. exact (conj H1 H2).
Defined.

(** [ToolCount] and [AllFull] agree with the lookups: the list holds each visible tool once, sorted by full name, and a server's count is the number of its tools in the list. *)
Theorem tool_count_all_full A r :
  spec_ok A -> represents A r ->
  (forall e, e ∈ AllFull r <-> Lookup r (FullName e) = Ok e) /\ NoDup (AllFull r) /\
  StronglySorted (fun a b => String.le (FullName a) (FullName b)) (AllFull r) /\
  (forall s, ToolCount r s = length (filter (fun e => Server e = s) (AllFull r))).
Proof.
  intros Hok Hrep.
  assert (forall e, e ∈ AllFull r <-> tools r !! FullName e = Some e) as Hel.
  { intros e. rewrite AllFull_values, list_elem_of_fmap. split.
    - intros ([k e'] & -> & He). rewrite elem_of_map_to_list in He. simpl.
      by rewrite (represents_tools_key A r k e' Hrep He).
    - intros H. exists (FullName e, e). by rewrite elem_of_map_to_list. }
  pose proof (values_nodup A r Hrep) as Hnd. split; [|split; [done|split]].
  - intros e. rewrite Hel. unfold Lookup. destruct (tools r !! FullName e); split; congruence.
  - assert (Transitive (fun a b => String.le (FullName a) (FullName b))) by (intros a b c; apply transitivity).
    assert (Total (fun a b => String.le (FullName a) (FullName b))) by (intros a b; apply total, _).
    apply (StronglySorted_merge_sort (fun a b => String.le (FullName a) (FullName b))).
  - intros s. unfold ToolCount. fold (entries_of r s). apply Permutation_length, NoDup_Permutation.
    + by eapply represents_nodup.
    + by apply NoDup_filter.
    + intros e. rewrite (represents_by_server A r s Hok Hrep), list_elem_of_filter, Hel. done.
Qed.

Lemma tool_count_all_full_witness :
  ToolCount (ReplaceServer New (sample_params "gh")) "gh" = 1%nat /\
  NoDup (AllFull (ReplaceServer New (sample_params "gh"))).
Proof.
  split; [vm_compute; reflexivity|].
  apply (tool_count_all_full (<["gh" := sample_params "gh"]> ∅)).
  - apply (spec_ok_insert ∅ (sample_params "gh")); [apply spec_ok_empty|vm_compute; reflexivity].
  - apply (represents_replace ∅ New (sample_params "gh")); [apply spec_ok_empty|vm_compute; reflexivity|apply represents_empty].
Defined.
