(* ===== verification/Response.v ===== *)
(** * The response store and envelope (src/internal/response)

    [Store] is the bookkeeping of the raw response files kept on disk.  Each part of
    an operation that runs under the store's mutex is one function of the state; what
    [os.Remove] and [os.OpenFile] answer is an argument.  Times are nanoseconds. *)
From S2P Require Import Prelude GoStr Float64 GoStd.

Record storedFile : Type := { path : string; size : Z; expires : Z }.
#[global] Instance storedFile_eq_dec : EqDecision storedFile.
Proof. solve_decision. Defined.

Record Store : Type := { dir : string; ttl : Z; budgetBytes : Z; usedBytes : Z; files : list storedFile }.

Definition with_files (s : Store) (used : Z) (fs : list storedFile) : Store :=
  {| dir := dir s; ttl := ttl s; budgetBytes := budgetBytes s; usedBytes := used; files := fs |}.

Record StoreConfig : Type := { Dir : string; TTL : Z; BudgetMB : Z }.

Definition empty_store (cfg : StoreConfig) : Store :=
  {| dir := Dir cfg; ttl := TTL cfg; budgetBytes := wrap64 (wrap64 (BudgetMB cfg * 1024) * 1024); usedBytes := 0; files := [] |}.

(** ** Loading the files of an earlier run *)
Record DirEntry : Type := { e_name : string; e_isdir : bool; e_size : option Z (* None: Info fails *) }.

Definition parseTimestamp (name : string) : option Z :=
  let base := trim_suffix name (Ext name) in
  let part := match index_byte base "_" with
              | Some idx => if Nat.ltb 0 idx then str_take idx base else base
              | None => base
              end in
  match ParseInt part with
  | Some n => if n <=? 0 then None else Some n
  | None => None
  end.

Definition ms : Z := 1000000.

Definition storeEntryIfFresh (s : Store) (e : DirEntry) (created now : Z) : Store :=
  let expires := created * ms + ttl s in
  if expires <? now then s
  else match e_size e with
       | None => s
       | Some size => with_files s (usedBytes s + size)
           (files s ++ [{| path := Join (dir s) (e_name e); size := size; expires := expires |}])
       end.

Definition loadEntry (now : Z) (s : Store) (e : DirEntry) : Store :=
  if e_isdir e || negb (String.eqb (Ext (e_name e)) ".json") || contains_str (e_name e) ".raw." then s
  else match parseTimestamp (e_name e) with
       | Some created => storeEntryIfFresh s e created now
       | None => s
       end.

(** [entries] is what [os.ReadDir] returns ([None] when it fails). *)
Definition loadExisting (s : Store) (entries : option (list DirEntry)) (now : Z) : Store :=
  match entries with None => s | Some es => foldl (loadEntry now) s es end.

(** ** Eviction *)
Fixpoint evict_loop (used budget : Z) (fs : list storedFile) : Z * list storedFile * list storedFile :=
  match fs with
  | f :: ((_ :: _) as rest) =>
      if budget <? used then
        let '(used', out, kept) := evict_loop (used - size f) budget rest in (used', f :: out, kept)
      else (used, [], fs)
  | _ => (used, [], fs)
  end.

Definition evictOvershoot (s : Store) : Store * list storedFile :=
  if (budgetBytes s =? 0) || (usedBytes s <=? budgetBytes s) then (s, [])
  else
    let '(used, out, kept) := evict_loop (usedBytes s) (budgetBytes s) (files s) in
    (with_files s used kept, out).

Fixpoint partitionByExpiry (fs : list storedFile) (now : Z) : list storedFile * list storedFile :=
  match fs with
  | [] => ([], [])
  | f :: fs =>
      let '(kept, expired) := partitionByExpiry fs now in
      if now <? expires f then (f :: kept, expired) else (kept, f :: expired)
  end.

Definition sub_sizes (used : Z) (fs : list storedFile) : Z := foldl (fun u f => u - size f) used fs.
Definition add_sizes (used : Z) (fs : list storedFile) : Z := foldl (fun u f => u + size f) used fs.

(** The locked part of [evictExpired]; the files to remove come second. *)
Definition evictExpired_locked (s : Store) (now : Z) : Store * list storedFile :=
  let '(kept, toRemove) := partitionByExpiry (files s) now in
  (with_files s (sub_sizes (usedBytes s) toRemove) kept, toRemove).

Inductive remove_result : Type := Removed | NotExist | RemoveFailed.
Definition warnRemoveErr (r : remove_result) : bool := match r with RemoveFailed => true | _ => false end.

Definition collectRemoveFailed (rm : string -> remove_result) (fs : list storedFile) : list storedFile :=
  List.filter (fun f => warnRemoveErr (rm (path f))) fs.

(** The locked part of [restoreRemoveFailed]. *)
Definition restore_locked (s : Store) (failed : list storedFile) : Store :=
  match failed with
  | [] => s
  | _ => with_files s (add_sizes (usedBytes s) failed) (failed ++ files s)
  end.
Definition restoreRemoveFailed (rm : string -> remove_result) (s : Store) (fs : list storedFile) : Store :=
  restore_locked s (collectRemoveFailed rm fs).

Definition evictExpired (rm : string -> remove_result) (s : Store) (now : Z) : Store :=
  let '(s', toRemove) := evictExpired_locked s now in restoreRemoveFailed rm s' toRemove.

(** ** Writing *)
Definition recordWrite_locked (s : Store) (p : string) (sz now : Z) : Store * list storedFile :=
  evictOvershoot (with_files s (usedBytes s + sz) (files s ++ [{| path := p; size := sz; expires := now + ttl s |}])).

Definition recordWrite (rm : string -> remove_result) (s : Store) (p : string) (sz now : Z) : Store :=
  let '(s', toRemove) := recordWrite_locked s p sz now in restoreRemoveFailed rm s' toRemove.

Definition newFileBase (now : Z) : string := itoa (now / ms).

Inductive create_result : Type := Created | Exists | CreateFailed (msg : string).
Definition maxAttempts : nat := 5.

(** [randutil.HexString] of the random bytes: lower case hexadecimal. *)
Definition hex_digit (n : Z) : ascii := az (if n <? 10 then 48 + n else 87 + n).
Definition hex_byte (c : ascii) : string := String (hex_digit (bz c / 16)) (String (hex_digit (bz c mod 16)) "").
Definition HexString (random : string) : string := str_flat_map hex_byte random.

(** [create i p] answers the [i]th attempt, [rnd i] is its two random bytes. *)
Fixpoint create_from (create : nat -> string -> create_result) (rnd : nat -> string) (d base : string) (i remaining : nat)
    : res string string :=
  match remaining with
  | O => Err ("write response file: name collision for " +:+ base)
  | S remaining =>
      let name := if Nat.ltb 0 i then base +:+ "_" +:+ HexString (rnd i) else base in
      let p := Join d (name +:+ ".json") in
      match create i p with
      | Created => Ok p
      | Exists => create_from create rnd d base (S i) remaining
      | CreateFailed msg => Err ("write response file: " +:+ msg)
      end
  end.
Definition createUniqueFile create rnd (d base : string) : res string string := create_from create rnd d base 0 maxAttempts.

(** The environment of one write: the clock, the file system's answers, the random bytes. *)
Record write_env : Type := {
  we_now : Z;
  we_create : nat -> string -> create_result;
  we_rnd : nat -> string;
  we_remove : string -> remove_result
}.

Definition writeBytes (env : write_env) (s : Store) (b : string) : Store * res string string :=
  match createUniqueFile (we_create env) (we_rnd env) (dir s) (newFileBase (we_now env)) with
  | Err e => (s, Err e)
  | Ok p => (recordWrite (we_remove env) s p (slen b) (we_now env), Ok p)
  end.

(** ** Envelope *)
Section envelope.
(** [Data any], and the indented form [json.Indent] gives raw bytes ([None]: not JSON). *)
Context {data : Type} (Indent : string -> option string).

Definition prettyJSON (b : string) : string := default b (Indent b).

Definition WriteRaw (env : write_env) (s : Store) (raw : string) : Store * res string string :=
  match writeBytes env s (prettyJSON raw) with
  | (s', Err e) => (s', Err e)
  | (s', Ok p) => let name := Base p in (s', Ok (trim_suffix name (Ext name)))
  end.

Record Truncation : Type := { JQPath : string; Chars : Z; Items : Z }.

Record Envelope : Type := {
  Data : option data;
  Excluded : list string;
  Truncated : list Truncation;
  File : option string;
  EError : string;
  Message : string;
  Retryable : bool;
  Action : string
}.

Inductive wire : Type :=
| WData (d : option data)
| WStrings (l : list string)
| WTruncations (l : list Truncation)
| WString (s : string)
| WBool (b : bool).

Definition set_if (b : bool) (k : string) (v : wire) (m : gmap string wire) : gmap string wire :=
  if b then <[k := v]> m else m.

Definition WireMap (e : Envelope) : gmap string wire :=
  if negb (String.eqb (EError e) "") then
    set_if (negb (String.eqb (Action e) "")) "action" (WString (Action e))
      (set_if (Retryable e) "retryable" (WBool true)
        (set_if (negb (String.eqb (Message e) "")) "message" (WString (Message e))
          {["error" := WString (EError e)]}))
  else
    let out := set_if (negb (Nat.eqb (length (Truncated e)) 0)) "truncated" (WTruncations (Truncated e))
      (set_if (negb (Nat.eqb (length (Excluded e)) 0)) "excluded" (WStrings (Excluded e))
        {["data" := WData (Data e)]}) in
    match File e with Some f => <["file" := WString f]> out | None => out end.

Record BuildParams : Type := { Raw : string; Summary : option data; PExcluded : list string; PTruncated : list Truncation }.

Definition newEnvelope (p : BuildParams) : Envelope :=
  {| Data := Summary p; Excluded := PExcluded p; Truncated := PTruncated p; File := None;
     EError := ""; Message := ""; Retryable := false; Action := "" |}.

Definition with_file (e : Envelope) (key : string) : Envelope :=
  {| Data := Data e; Excluded := Excluded e; Truncated := Truncated e; File := Some key;
     EError := EError e; Message := Message e; Retryable := Retryable e; Action := Action e |}.

Definition writeRawFile (env : write_env) (s : Store) (e : Envelope) (p : BuildParams) : Store * res string Envelope :=
  match WriteRaw env s (Raw p) with
  | (s', Err msg) => (s', Err ("store response: " +:+ msg))
  | (s', Ok key) => (s', Ok (with_file e key))
  end.

Definition Build (env : write_env) (s : Store) (p : BuildParams) : Store * res string Envelope :=
  let e := newEnvelope p in
  if Nat.ltb 0 (length (PExcluded p)) || Nat.ltb 0 (length (PTruncated p)) then writeRawFile env s e p
  else (s, Ok e).

Definition BuildError (code message : string) (retryable : bool) (action : string) : Envelope :=
  {| Data := None; Excluded := []; Truncated := []; File := None;
     EError := code; Message := message; Retryable := retryable; Action := action |}.
End envelope.

Definition EstimateTokensRaw (b : string) : Z := slen b / 3.

(** ** Reading a stored response back (src/internal/server/read_tool.go) *)
Definition resolveReadPath (d file : string) : string :=
  Join d (if String.eqb (Ext file) "" then file +:+ ".json" else file).

(** [resolve] is the symlink resolution, an argument in the source too. *)
Definition validateStorePathWith (storeDir p : string) (resolve : string -> res string string) : res string unit :=
  match resolve storeDir with
  | Err e => Err ("read: resolve response directory: " +:+ e)
  | Ok storeDir =>
      match resolve p with
      | Err e => Err ("read: resolve response path: " +:+ e)
      | Ok abs =>
          if has_prefix abs (storeDir +:+ "/") then Ok tt
          else Err "read: path must be within mini response directory"
      end
  end.

(** ** Goroutines: writers and the cleanup loop interleave between the locked parts *)

(** What a goroutine still has to do: register a file it created, or delete evicted
    files one by one, the failures kept for [restore_locked]. *)
Inductive task : Type :=
| TRecord (p : string) (sz : Z)
| TRemove (todo failed : list storedFile).

Record system : Type := { store : Store; disk : gset string; tasks : list task }.

Inductive step : system -> system -> Prop :=
| SCreate st d ts p sz : p ∉ d -> 0 <= sz ->
    step {| store := st; disk := d; tasks := ts |}
         {| store := st; disk := {[p]} ∪ d; tasks := TRecord p sz :: ts |}
| SRecord st d ts1 ts2 p sz now st' out : recordWrite_locked st p sz now = (st', out) ->
    step {| store := st; disk := d; tasks := ts1 ++ TRecord p sz :: ts2 |}
         {| store := st'; disk := d; tasks := ts1 ++ TRemove out [] :: ts2 |}
| SExpire st d ts now st' out : evictExpired_locked st now = (st', out) ->
    step {| store := st; disk := d; tasks := ts |}
         {| store := st'; disk := d; tasks := TRemove out [] :: ts |}
| SRemoved st d ts1 ts2 f todo failed :
    step {| store := st; disk := d; tasks := ts1 ++ TRemove (f :: todo) failed :: ts2 |}
         {| store := st; disk := d ∖ {[path f]}; tasks := ts1 ++ TRemove todo failed :: ts2 |}
| SRemoveFailed st d ts1 ts2 f todo failed :
    step {| store := st; disk := d; tasks := ts1 ++ TRemove (f :: todo) failed :: ts2 |}
         {| store := st; disk := d; tasks := ts1 ++ TRemove todo (failed ++ [f]) :: ts2 |}
| SRestore st d ts1 ts2 failed :
    step {| store := st; disk := d; tasks := ts1 ++ TRemove [] failed :: ts2 |}
         {| store := restore_locked st failed; disk := d; tasks := ts1 ++ ts2 |}.
