(* ===== verification/ResponseProps.v ===== *)
(** * The response store: accounting under interleaving, eviction, file names *)
From S2P Require Import Prelude GoStr Float64 GoStd Response.

(** ** Sizes *)
Definition sizes (fs : list storedFile) : Z := foldr (fun f n => size f + n) 0 fs.

Lemma sizes_app a b : sizes (a ++ b) = sizes a + sizes b.
Proof. induction a as [|f a IH]; simpl; [done|]. rewrite IH. lia. Qed.

Lemma sizes_nonneg fs : Forall (fun f => 0 <= size f) fs -> 0 <= sizes fs.
Proof. induction 1; simpl; lia. Qed.

Lemma sub_sizes_eq used fs : sub_sizes used fs = used - sizes fs.
Proof. unfold sub_sizes. revert used. induction fs as [|f fs IH]; intros used; simpl; [lia|]. rewrite IH. lia. Qed.

Lemma add_sizes_eq used fs : add_sizes used fs = used + sizes fs.
Proof. unfold add_sizes. revert used. induction fs as [|f fs IH]; intros used; simpl; [lia|]. rewrite IH. lia. Qed.

(** ** Eviction *)
Lemma evict_loop_spec used budget fs used' out kept :
  evict_loop used budget fs = (used', out, kept) ->
  fs = out ++ kept /\ used' = used - sizes out /\ (used' <= budget \/ (length kept <= 1)%nat) /\
  (fs <> [] -> kept <> []) /\
  (forall f l, out = l ++ [f] -> budget < used - sizes l).
Proof.
  revert used used' out kept. induction fs as [|f fs IH]; intros used used' out kept H; simpl in H.
  - injection H as <- <- <-. simpl. split_and!; [done|lia|right; lia|done|]. intros f l Hl. by destruct l.
  - destruct fs as [|g fs].
    + injection H as <- <- <-. simpl. split_and!; [done|lia|right; lia|done|]. intros f' l Hl. by destruct l.
    + destruct (budget <? used) eqn:Hb.
      * destruct (evict_loop (used - size f) budget (g :: fs)) as [[u o] k] eqn:E.
        injection H as <- <- <-. destruct (IH _ _ _ _ E) as (Heq & Hu & Hb' & Hne & Hlast). cbn [app sizes foldr].
        fold (sizes o). split_and!; [by rewrite Heq|lia|done|intros _; by apply Hne|].
        intros f' [|x l] Hl; simpl in Hl.
        -- injection Hl as <- ->. apply Z.ltb_lt in Hb. simpl. lia.
        -- injection Hl as <- Hl. specialize (Hlast _ _ Hl). simpl. lia.
      * injection H as <- <- <-. apply Z.ltb_ge in Hb. simpl. split_and!; [done|lia|by left|done|]. intros f' l Hl. by destruct l.
Qed.

Lemma evictOvershoot_files st st' out : evictOvershoot st = (st', out) ->
  files st = out ++ files st' /\ usedBytes st' = usedBytes st - sizes out /\
  budgetBytes st' = budgetBytes st /\ ttl st' = ttl st /\ dir st' = dir st.
Proof.
  unfold evictOvershoot. destruct (_ || _); intros H.
  - injection H as <- <-. simpl. split_and!; [done|lia|done..].
  - destruct (evict_loop _ _ _) as [[u o] k] eqn:E. injection H as <- <-.
    destruct (evict_loop_spec _ _ _ _ _ _ E) as (? & ? & _). done.
Qed.

Lemma partition_spec fs now kept expired : partitionByExpiry fs now = (kept, expired) ->
  fs ≡ₚ kept ++ expired /\ Forall (fun f => now < expires f) kept /\ Forall (fun f => expires f <= now) expired /\
  sublist kept fs.
Proof.
  revert kept expired. induction fs as [|f fs IH]; intros kept expired; simpl.
  - intros [= <- <-]. split_and!; constructor.
  - destruct (partitionByExpiry fs now) as [k e]. destruct (IH _ _ eq_refl) as (Hp & Hk & He & Hs).
    destruct (now <? expires f) eqn:E; intros [= <- <-].
    + apply Z.ltb_lt in E. split_and!; [by rewrite Hp|by constructor|done|by apply sublist_skip].
    + apply Z.ltb_ge in E. split_and!; [by rewrite Hp, Permutation_middle|done|by constructor|by apply sublist_cons].
Qed.

(** ** Accounting *)

(** The files a task is responsible for, and their sizes. *)
Definition task_paths (t : task) : list string :=
  match t with TRecord p _ => [p] | TRemove todo failed => map path (todo ++ failed) end.
Definition tracked (sys : system) : list string :=
  map path (files (store sys)) ++ concat (map task_paths (tasks sys)).

(** [U]: the files of the directory the store never loaded. *)
Record sys_ok (U : gset string) (sys : system) : Prop := {
  ok_used : usedBytes (store sys) = sizes (files (store sys));
  ok_nodup : NoDup (tracked sys);
  ok_disk : forall p, p ∈ disk sys <-> p ∈ U \/ p ∈ tracked sys;
  ok_untracked : forall p, p ∈ U -> p ∉ tracked sys
}.

(** A step that only moves tracked files keeps the accounting. *)
Lemma sys_ok_perm U sys sys' : sys_ok U sys -> disk sys' = disk sys -> tracked sys' ≡ₚ tracked sys ->
  usedBytes (store sys') = sizes (files (store sys')) -> sys_ok U sys'.
Proof.
  intros [_ Hn Hd Hu] Hdisk Hp Hused. split; [done|by rewrite Hp| |].
  - intros p. by rewrite Hdisk, Hd, Hp.
  - intros p Hin. rewrite Hp. auto.
Qed.

Lemma tracked_middle st d ts1 t ts2 :
  tracked {| store := st; disk := d; tasks := ts1 ++ t :: ts2 |} ≡ₚ
  map path (files st) ++ task_paths t ++ concat (map task_paths (ts1 ++ ts2)).
Proof.
  unfold tracked. simpl. apply Permutation_app_head. rewrite !map_app, !concat_app. simpl.
  rewrite app_assoc, (Permutation_app_comm (concat _) (task_paths t)). by rewrite <- app_assoc.
Qed.

Lemma recordWrite_perm st p sz now st' out : recordWrite_locked st p sz now = (st', out) ->
  map path out ++ map path (files st') = map path (files st) ++ [p] /\
  (usedBytes st = sizes (files st) -> usedBytes st' = sizes (files st')).
Proof.
  unfold recordWrite_locked. intros H. apply evictOvershoot_files in H as (Hf & Hu & _). simpl in Hf, Hu.
  rewrite <- map_app, <- Hf, map_app. split; [done|]. intros Hs. apply (f_equal sizes) in Hf.
  rewrite !sizes_app in Hf. simpl in Hf. lia.
Qed.

Lemma sys_ok_removed U st d ts1 ts2 f todo failed :
  sys_ok U {| store := st; disk := d; tasks := ts1 ++ TRemove (f :: todo) failed :: ts2 |} ->
  sys_ok U {| store := st; disk := d ∖ {[path f]}; tasks := ts1 ++ TRemove todo failed :: ts2 |}.
Proof.
  intros [Hused Hn Hd Hu].
  assert (tracked {| store := st; disk := d; tasks := ts1 ++ TRemove (f :: todo) failed :: ts2 |} ≡ₚ
    path f :: tracked {| store := st; disk := d ∖ {[path f]}; tasks := ts1 ++ TRemove todo failed :: ts2 |}) as Hp.
  { rewrite !tracked_middle. simpl. by rewrite <- Permutation_middle. }
  rewrite Hp in Hn. apply NoDup_cons in Hn as [Hfn Hn]. split; [done|done| |].
  - intros p. simpl in *. rewrite elem_of_difference, Hd, Hp, elem_of_cons, elem_of_singleton. split.
    + tauto.
    + intros [HU|Ht].
      * split; [by left|]. intros ->. apply (Hu _ HU). rewrite Hp. by left.
      * split; [tauto|]. by intros ->.
  - intros p HU Ht. apply (Hu p HU). rewrite Hp. by right.
Qed.

Lemma step_ok U sys sys' : step sys sys' -> sys_ok U sys -> sys_ok U sys'.
Proof.
  intros Hstep Hok. destruct Hstep as [st d ts p sz Hp Hsz|st d ts1 ts2 p sz now st' out E|st d ts now st' out E
    |st d ts1 ts2 f todo failed|st d ts1 ts2 f todo failed|st d ts1 ts2 failed].
  - destruct Hok as [Hused Hn Hd Hu]. simpl in *.
    assert (tracked {| store := st; disk := {[p]} ∪ d; tasks := TRecord p sz :: ts |} ≡ₚ
      p :: tracked {| store := st; disk := d; tasks := ts |}) as Ht.
    { unfold tracked. simpl. by rewrite <- Permutation_middle. }
    rewrite Hd in Hp. split; simpl; [done| | |].
    + rewrite Ht. apply NoDup_cons. tauto.
    + intros q. rewrite elem_of_union, elem_of_singleton, Hd, Ht, elem_of_cons. tauto.
    + intros q HU Hq. rewrite Ht, elem_of_cons in Hq. destruct Hq as [->|Hq]; [tauto|]. by apply (Hu q).
  - destruct (recordWrite_perm _ _ _ _ _ _ E) as [Hp Hs]. apply (sys_ok_perm U _ _ Hok); simpl; [done| |apply Hs, Hok].
    rewrite !tracked_middle. cbn [task_paths]. rewrite app_nil_r.
    rewrite !app_assoc. apply Permutation_app_tail. by rewrite (Permutation_app_comm (map path (files st'))), Hp.
  - unfold evictExpired_locked in E. destruct (partitionByExpiry (files st) now) as [kept exp] eqn:Ep. injection E as <- <-.
    destruct (partition_spec _ _ _ _ Ep) as (Hp & _). apply (sys_ok_perm U _ _ Hok); simpl; [done| |].
    + unfold tracked. simpl. rewrite app_nil_r, app_assoc, <- map_app. by rewrite Hp.
    + rewrite sub_sizes_eq. destruct Hok as [Hused _ _ _]. simpl in Hused. rewrite Hused.
      assert (sizes (files st) = sizes (kept ++ exp)) as ->; [|rewrite sizes_app; lia].
      clear -Hp. induction Hp; simpl; lia.
  - by apply sys_ok_removed.
  - apply (sys_ok_perm U _ _ Hok); simpl; [done| |apply Hok].
    rewrite !tracked_middle. simpl. apply Permutation_app_head. rewrite !map_app. simpl.
    rewrite (app_assoc (map path todo)), <- (Permutation_cons_append (map path todo ++ map path failed)). done.
  - assert (files (restore_locked st failed) = failed ++ files st) as Hf by by destruct failed.
    apply (sys_ok_perm U _ _ Hok); simpl; [done| |].
    + rewrite tracked_middle. unfold tracked. simpl. rewrite Hf, map_app, !app_assoc.
      apply Permutation_app_tail, Permutation_app_comm.
    + destruct Hok as [Hused _ _ _]. simpl in Hused. rewrite Hf, sizes_app, <- Hused.
      destruct failed as [|f failed]; [simpl; lia|].
      change (add_sizes (usedBytes st) (f :: failed) = sizes (f :: failed) + usedBytes st).
      rewrite add_sizes_eq. lia.
Qed.

(** ** Loading *)
Lemma storeEntryIfFresh_files st e created now : exists l, files (storeEntryIfFresh st e created now) = files st ++ l /\
  usedBytes (storeEntryIfFresh st e created now) = usedBytes st + sizes l.
Proof.
  unfold storeEntryIfFresh. destruct (_ <? now); [exists []; simpl; rewrite app_nil_r; split; [done|lia]|].
  destruct (e_size e) as [sz|]; [|exists []; simpl; rewrite app_nil_r; split; [done|lia]].
  eexists [_]. simpl. split; [done|]. simpl. lia.
Qed.

Lemma loadEntry_files st e now : exists l, files (loadEntry now st e) = files st ++ l /\
  usedBytes (loadEntry now st e) = usedBytes st + sizes l.
Proof.
  unfold loadEntry. destruct (_ || _); [|destruct (parseTimestamp _); [apply storeEntryIfFresh_files|]];
    exists []; simpl; rewrite app_nil_r; split; [done|lia|done|lia].
Qed.

Lemma loadExisting_used st es now : usedBytes st = sizes (files st) ->
  usedBytes (loadExisting st es now) = sizes (files (loadExisting st es now)).
Proof.
  destruct es as [es|]; [|done]. simpl. revert st. induction es as [|e es IH]; intros st H; simpl; [done|].
  apply IH. destruct (loadEntry_files st e now) as (l & -> & ->). rewrite sizes_app. lia.
Qed.

(** ** File names *)
Lemma itoa_nonneg n : 0 <= n -> itoa n = dec_string n.
Proof. intros H. unfold itoa, dec_string. destruct n as [|p|p]; [done|done|lia]. Qed.

Definition name_byte (c : ascii) : bool := is_alnum c || Ascii.eqb c "_".

Lemma hex_alnum s : str_forall is_alnum (HexString s) = true.
Proof.
  induction s as [|c s IH]; [done|]. unfold HexString. cbn [str_flat_map]. rewrite str_forall_app. apply andb_true_iff.
  split; [|exact IH]. revert c. by apply ascii_forall_dec.
Qed.

Lemma alnum_name s : str_forall is_alnum s = true -> str_forall name_byte s = true.
Proof. apply str_forall_impl. intros c H. unfold name_byte. by rewrite H. Qed.

Lemma digits_alnum s : str_forall is_digit s = true -> str_forall is_alnum s = true.
Proof. apply str_forall_impl. intros c H. unfold is_alnum. by rewrite H, orb_true_r. Qed.

(** The name of the [i]th attempt, without its extension. *)
Definition stem (rnd : nat -> string) (base : string) (i : nat) : string :=
  if Nat.ltb 0 i then base +:+ "_" +:+ HexString (rnd i) else base.

Lemma stem_name rnd n i : 0 <= n -> str_forall name_byte (stem rnd (dec_string n) i) = true.
Proof.
  intros Hn. destruct (dec_string_digits n) as [Hd _]. unfold stem.
  destruct (Nat.ltb 0 i); rewrite ?str_forall_app, ?(alnum_name (HexString _)) by apply hex_alnum;
    by rewrite (alnum_name _ (digits_alnum _ Hd)).
Qed.

Lemma stem_no_slash rnd n i : 0 <= n -> byte_in "/" (stem rnd (dec_string n) i +:+ ".json") = false.
Proof.
  intros Hn. apply (str_forall_no_byte (fun c => name_byte c || Ascii.eqb c ".")); [done|].
  rewrite str_forall_app. rewrite andb_true_iff. split; [|done].
  eapply str_forall_impl, (stem_name rnd n i Hn). intros c H. by rewrite H.
Qed.

Lemma stem_simple rnd n i : 0 <= n -> simple_name (stem rnd (dec_string n) i +:+ ".json").
Proof.
  intros Hn. split_and!; [..|by apply stem_no_slash]; intros H; apply (f_equal String.length) in H;
    rewrite str_length_app in H; simpl in H; lia.
Qed.

Lemma stem_ext rnd n i : 0 <= n -> Ext (stem rnd (dec_string n) i +:+ ".json") = ".json".
Proof. intros Hn. apply Ext_app; [done|]. by apply stem_no_slash. Qed.

Lemma parseTimestamp_stem rnd n i : 0 < n <= int64_max -> parseTimestamp (stem rnd (dec_string n) i +:+ ".json") = Some n.
Proof.
  intros Hn. unfold parseTimestamp. rewrite stem_ext, trim_suffix_app by lia.
  destruct (dec_string_digits n) as [Hd Hne].
  assert (byte_in "_" (dec_string n) = false) as Hu by by apply byte_in_digits.
  assert ((match index_byte (stem rnd (dec_string n) i) "_" with
     | Some idx => if Nat.ltb 0 idx then str_take idx (stem rnd (dec_string n) i) else stem rnd (dec_string n) i
     | None => stem rnd (dec_string n) i end) = dec_string n) as ->.
  { unfold stem. destruct (Nat.ltb 0 i).
    - change ("_" +:+ HexString (rnd i)) with (String "_" (HexString (rnd i))). rewrite index_byte_app by done.
      destruct (dec_string n) as [|c s] eqn:E; [done|]. cbn [Nat.ltb Nat.leb String.length]. rewrite <- E.
      replace (S (String.length s)) with (String.length (dec_string n)) by (rewrite E; done).
      apply str_take_app_length.
    - by rewrite index_byte_none. }
  rewrite ParseInt_dec_string by lia. destruct (Z.leb_spec n 0); [lia|done].
Qed.

Fixpoint count_byte (b : ascii) (s : string) : nat :=
  match s with "" => 0 | String c s => (if Ascii.eqb b c then 1 else 0) + count_byte b s end.

Lemma count_byte_app b s t : count_byte b (s +:+ t) = (count_byte b s + count_byte b t)%nat.
Proof. induction s; simpl; lia. Qed.

Lemma count_byte_0 b s : byte_in b s = false -> count_byte b s = 0%nat.
Proof. induction s as [|c s IH]; [done|]. cbn [byte_in count_byte]. intros [-> H]%orb_false_iff. auto. Qed.

Lemma stem_no_raw rnd n i : 0 <= n -> contains_str (stem rnd (dec_string n) i +:+ ".json") ".raw." = false.
Proof.
  intros Hn. destruct (contains_str _ _) eqn:E; [|done]. apply contains_str_spec in E as (a & b & E).
  apply (f_equal (count_byte ".")) in E. rewrite !count_byte_app in E.
  rewrite count_byte_0 in E; [simpl in E; lia|].
  by apply (str_forall_no_byte name_byte), stem_name.
Qed.

Lemma create_from_spec create rnd d base i k p : create_from create rnd d base i k = Ok p ->
  exists j, (i <= j < i + k)%nat /\ p = Join d (stem rnd base j +:+ ".json") /\ create j p = Created /\
    forall m, (i <= m < j)%nat -> create m (Join d (stem rnd base m +:+ ".json")) = Exists.
Proof.
  revert i. induction k as [|k IH]; intros i H; simpl in H; [done|]. fold (stem rnd base i) in H.
  destruct (create i _) eqn:E; [|apply IH in H as (j & Hj & Hp & Hc & Hm)|done].
  - injection H as <-. exists i. split_and!; [lia|lia|done|done|]. intros m Hm. lia.
  - exists j. split_and!; [lia|lia|done|done|]. intros m Hmj. destruct (decide (m = i)) as [->|]; [done|]. apply Hm. lia.
Qed.

Lemma create_from_err create rnd d base i k e : create_from create rnd d base i k = Err e ->
  (forall m, (i <= m < i + k)%nat -> create m (Join d (stem rnd base m +:+ ".json")) = Exists) \/
  exists j msg, (i <= j < i + k)%nat /\ create j (Join d (stem rnd base j +:+ ".json")) = CreateFailed msg.
Proof.
  revert i. induction k as [|k IH]; intros i H; simpl in H; [left; lia|]. fold (stem rnd base i) in H.
  destruct (create i _) eqn:E; [done| |].
  - destruct (IH _ H) as [Hm|(j & msg & Hj & Hc)].
    + left. intros m Hmi. destruct (decide (m = i)) as [->|]; [done|]. apply Hm. lia.
    + right. exists j, msg. split; [lia|done].
  - right. exists i, msg. split; [lia|done].
Qed.

(** ** Properties *)

(** C2: Whatever the interleaving of writers, the cleanup loop and their file deletions, the store's byte count is the sum of its entries, and the files on disk are exactly the ones it never loaded and the ones tracked once, by an entry or by a goroutine still working on them. *)
Theorem store_accounting U sys sys' :
  sys_ok U sys -> rtc step sys sys' ->
  usedBytes (store sys') = sizes (files (store sys')) /\ NoDup (tracked sys') /\
  (forall p, p ∈ disk sys' <-> p ∈ U \/ p ∈ tracked sys') /\
  (tasks sys' = [] -> forall p, p ∈ disk sys' <-> p ∈ U \/ p ∈ map path (files (store sys'))).
Proof.
  intros Hok Hsteps.
  assert (sys_ok U sys') as [Hs Hn Hd Hu].
  { revert Hok. induction Hsteps; [done|]. intros Hok. by apply IHHsteps, (step_ok U x). }
  split_and!; [done|done|done|]. intros Ht p. rewrite Hd. unfold tracked. rewrite Ht. simpl. by rewrite app_nil_r.
Qed.

Definition sample_store : Store := {| dir := "/r"; ttl := 10; budgetBytes := 5; usedBytes := 0; files := [] |}.
Definition sample_sys (st : Store) (d : gset string) (ts : list task) : system := {| store := st; disk := d; tasks := ts |}.

Lemma sample_ok : sys_ok {["other"]} (sample_sys sample_store {["other"]} []).
Proof.
  split; unfold tracked; simpl; [done|apply NoDup_nil_2|set_solver|set_solver].
Qed.

Lemma store_accounting_witness :
  let st' := fst (recordWrite_locked sample_store "/r/1.json" 3 0) in
  files st' = [{| path := "/r/1.json"; size := 3; expires := 10 |}] /\
  usedBytes st' = sizes (files st').
Proof.
  split; [vm_compute; reflexivity|].
  apply (store_accounting {["other"]} (sample_sys sample_store {["other"]} [])
    (sample_sys (fst (recordWrite_locked sample_store "/r/1.json" 3 0)) ({["/r/1.json"]} ∪ {["other"]}) [TRemove [] []])).
  - apply sample_ok.
  - eapply rtc_l; [apply (SCreate _ _ _ "/r/1.json" 3); [set_solver|lia]|].
    eapply rtc_l; [|apply rtc_refl]. apply (SRecord _ _ [] [] _ _ 0). vm_compute. reflexivity.
Defined.

(** Recording a write evicts the oldest entries and as few as possible: the entries left are within the budget or a single one, the file just written is among them, and evicting one entry fewer would leave the store over budget. *)
Theorem recordWrite_evicts_oldest st p sz now st' out :
  recordWrite_locked st p sz now = (st', out) ->
  files st ++ [{| path := p; size := sz; expires := now + ttl st |}] = out ++ files st' /\
  (exists l, files st' = l ++ [{| path := p; size := sz; expires := now + ttl st |}]) /\
  usedBytes st' = usedBytes st + sz - sizes out /\
  (budgetBytes st = 0 /\ out = [] \/ usedBytes st' <= budgetBytes st \/ length (files st') = 1%nat) /\
  (forall f l, out = l ++ [f] -> budgetBytes st < usedBytes st + sz - sizes l).
Proof.
  unfold recordWrite_locked, evictOvershoot. simpl. set (w := {| path := p; size := sz; expires := now + ttl st |}).
  destruct (budgetBytes st =? 0) eqn:Eb; [|destruct (usedBytes st + sz <=? budgetBytes st) eqn:Eu]; simpl.
  1,2: intros [= <- <-]; simpl; apply Z.eqb_eq in Eb || apply Z.leb_le in Eu;
    (split_and!; [done|by eexists|lia|auto|]); intros f l Hl; by destruct l.
  destruct (evict_loop (usedBytes st + sz) (budgetBytes st) (files st ++ [w])) as [[u o] k] eqn:E.
  intros [= <- <-]. simpl. destruct (evict_loop_spec _ _ _ _ _ _ E) as (Hf & Hu & Hb & Hne & Hl).
  assert (k <> []) as Hk by (apply Hne; intros H; by apply app_eq_nil in H as [_ ?]).
  split_and!; [done| |done| |done].
  - destruct (exists_last Hk) as (l & x & Hx). exists l. rewrite Hx, app_assoc in Hf. apply app_inj_tail in Hf as [_ <-]. done.
  - destruct Hb as [Hb|Hb]; [auto|]. right. right. destruct k; simpl in *; [done|lia].
Qed.

Lemma recordWrite_evicts_oldest_witness :
  let st := with_files sample_store 6 [{| path := "a"; size := 2; expires := 1 |}; {| path := "b"; size := 4; expires := 2 |}] in
  exists st', recordWrite_locked st "c" 1 0 = (st', [{| path := "a"; size := 2; expires := 1 |}]) /\
    usedBytes st' = 6 + 1 - 2.
Proof.
  eexists. split; [vm_compute; reflexivity|].
  apply (recordWrite_evicts_oldest
    (with_files sample_store 6 [{| path := "a"; size := 2; expires := 1 |}; {| path := "b"; size := 4; expires := 2 |}])
    "c" 1 0 _ [{| path := "a"; size := 2; expires := 1 |}]).
  vm_compute. reflexivity.
Defined.

(** A cleanup run drops exactly the expired entries whose file is gone: the entries that have not expired stay in order, and an expired entry survives only when deleting its file failed. *)
Theorem evictExpired_spec rm st now :
  exists expired, let kept := List.filter (fun f => now <? expires f) (files st) in
  files st ≡ₚ kept ++ expired /\ Forall (fun f => expires f <= now) expired /\
  files (evictExpired rm st now) = collectRemoveFailed rm expired ++ kept /\
  (usedBytes st = sizes (files st) -> usedBytes (evictExpired rm st now) = sizes (files (evictExpired rm st now))).
Proof.
  assert (forall fs, fst (partitionByExpiry fs now) = List.filter (fun f => now <? expires f) fs) as Hk.
  { induction fs as [|f fs IH]; [done|]. simpl. destruct (partitionByExpiry fs now). simpl in IH. subst.
    by destruct (now <? expires f). }
  unfold evictExpired, evictExpired_locked. destruct (partitionByExpiry (files st) now) as [kept exp] eqn:E.
  specialize (Hk (files st)). rewrite E in Hk. simpl in Hk. rewrite <- Hk. exists exp.
  destruct (partition_spec _ _ _ _ E) as (Hp & _ & He & _).
  assert (sizes (files st) = sizes kept + sizes exp) as Hs.
  { rewrite <- sizes_app. clear -Hp. induction Hp; simpl; lia. }
  split_and!; [done|done| |]; unfold restoreRemoveFailed; destruct (collectRemoveFailed rm exp) as [|f l] eqn:Ec; simpl; [done|done| |].
  - rewrite sub_sizes_eq. lia.
  - change (foldl _ _ _) with (add_sizes (sub_sizes (usedBytes st) exp + size f) l).
    rewrite add_sizes_eq, sub_sizes_eq, sizes_app. simpl. lia.
Qed.

(** A stored response can be read back under the key the agent got: the key resolves to the file that was created, which no earlier attempt overwrote; and a restarted store that finds the file, fresh, registers it under the same path, expiring within a millisecond of the original time. *)
Theorem stored_response_readable Indent env st raw st' key sz now2 st2 :
  WriteRaw Indent env st raw = (st', Ok key) -> 0 < we_now env / ms <= int64_max ->
  now2 <= we_now env / ms * ms + ttl st2 -> dir st2 = dir st ->
  exists i p, resolveReadPath (dir st) key = p /\ we_create env i p = Created /\
    p = Join (dir st) (key +:+ ".json") /\
    files (loadEntry now2 st2 {| e_name := key +:+ ".json"; e_isdir := false; e_size := Some sz |}) =
      files st2 ++ [{| path := p; size := sz; expires := we_now env / ms * ms + ttl st2 |}] /\
    we_now env + ttl st2 - ms < we_now env / ms * ms + ttl st2 <= we_now env + ttl st2.
Proof.
  unfold WriteRaw, writeBytes, createUniqueFile, newFileBase. intros H Hnow Hfresh Hdir. set (n := we_now env / ms) in *.
  rewrite itoa_nonneg in H by lia.
  destruct (create_from _ _ _ _ _ _) as [p|e] eqn:E; [|done]. injection H as _ Hkey.
  apply create_from_spec in E as (j & _ & -> & Hc & _). set (nm := stem (we_rnd env) (dec_string n) j) in *.
  rewrite Base_Join in Hkey by (apply stem_simple; lia).
  unfold nm in Hkey. rewrite stem_ext, trim_suffix_app in Hkey by lia. fold nm in Hkey. subst key.
  exists j, (Join (dir st) (nm +:+ ".json")). split_and!; [|done|done| |..].
  - unfold resolveReadPath. assert (str_forall name_byte nm = true) as Hnm by (apply stem_name; lia).
    rewrite Ext_none; [done|by apply (str_forall_no_byte name_byte)..].
  - unfold loadEntry. cbn [e_isdir e_name e_size orb]. unfold nm. rewrite stem_ext, stem_no_raw by lia. cbn [negb String.eqb orb].
    rewrite parseTimestamp_stem by lia. unfold storeEntryIfFresh. cbn [e_size e_name].
    rewrite (proj2 (Z.ltb_ge _ _)) by lia. by rewrite Hdir.
  - pose proof (Z.mul_succ_div_gt (we_now env) ms). unfold n, ms in *. lia.
  - pose proof (Z.mul_div_le (we_now env) ms). unfold n, ms in *. lia.
Qed.

Definition sample_env : write_env :=
  {| we_now := 1700000000123 * ms + 42;
     we_create := fun i _ => if Nat.ltb i 2 then Exists else Created;
     we_rnd := fun i => if Nat.ltb i 2 then String "!" "z" else String "A" "k";
     we_remove := fun _ => Removed |}.

Lemma stored_response_readable_witness :
  exists st', WriteRaw (fun _ => None) sample_env sample_store "{}" = (st', Ok "1700000000123_416b") /\
    resolveReadPath "/r" "1700000000123_416b" = "/r/1700000000123_416b.json" /\
    exists i p, resolveReadPath "/r" "1700000000123_416b" = p /\ we_create sample_env i p = Created.
Proof.
  eexists. split; [vm_compute; reflexivity|]. split; [vm_compute; reflexivity|].
  destruct (stored_response_readable (fun _ => None) sample_env sample_store "{}"
      (fst (WriteRaw (fun _ => None) sample_env sample_store "{}")) "1700000000123_416b" 2 0 sample_store)
    as (i & p & H1 & H2 & _).
  - vm_compute. reflexivity.
  - vm_compute. split; [reflexivity|discriminate].
  - vm_compute. discriminate.
  - reflexivity.
  - exists i, p. exact (conj H1 H2).
Defined.

(** A write fails exactly when five names in a row exist or the file system refuses one: a collision among fewer than five names is never an error, and a failed write leaves the store as it was. *)
Theorem write_fails_only_after_five env st b st' e :
  writeBytes env st b = (st', Err e) ->
  st' = st /\
  ((forall m, (m < 5)%nat -> we_create env m (Join (dir st) (stem (we_rnd env) (newFileBase (we_now env)) m +:+ ".json")) = Exists) \/
   exists j msg, (j < 5)%nat /\ we_create env j (Join (dir st) (stem (we_rnd env) (newFileBase (we_now env)) j +:+ ".json")) = CreateFailed msg).
Proof.
  unfold writeBytes, createUniqueFile. destruct (create_from _ _ _ _ _ _) as [p|e'] eqn:E; intros [= <- <-].
  split; [done|]. destruct (create_from_err _ _ _ _ _ _ _ E) as [H|(j & msg & Hj & H)].
  - left. intros m Hm. apply H. unfold maxAttempts. lia.
  - right. exists j, msg. split; [unfold maxAttempts in Hj; lia|done].
Qed.

Lemma write_fails_only_after_five_witness :
  let env := {| we_now := 5 * ms; we_create := fun _ _ => Exists; we_rnd := fun _ => "ab"; we_remove := fun _ => Removed |} in
  writeBytes env sample_store "x" = (sample_store, Err "write response file: name collision for 5").
Proof.
  intros env. assert (writeBytes env sample_store "x" = (sample_store, Err "write response file: name collision for 5")) as H
    by (vm_compute; reflexivity).
  destruct (write_fails_only_after_five env sample_store "x" sample_store _ H) as [_ _]. exact H.
Defined.

(** A filtered response always names the file of the full one, an unfiltered response writes nothing, and the wire shape carries the data or the error, never both. *)
Theorem envelope_shape {data} (Indent : string -> option string) env st (p : @BuildParams data) st' e :
  Build Indent env st p = (st', Ok e) ->
  (File e = None <-> PExcluded p = [] /\ PTruncated p = []) /\
  (File e = None -> st' = st) /\
  WireMap e !! "data" = Some (WData (Summary p)) /\ WireMap e !! "error" = None /\
  WireMap e !! "file" = WString <$> File e /\
  (forall code message retryable action, code <> "" ->
     WireMap (@BuildError data code message retryable action) !! "data" = None /\
     WireMap (@BuildError data code message retryable action) !! "error" = Some (WString code) /\
     WireMap (@BuildError data code message retryable action) !! "file" = None).
Proof.
  intros H.
  assert (forall code message retryable action, code <> "" ->
     WireMap (@BuildError data code message retryable action) !! "data" = None /\
     WireMap (@BuildError data code message retryable action) !! "error" = Some (WString code) /\
     WireMap (@BuildError data code message retryable action) !! "file" = None) as Herr.
  { intros code message retryable action Hc. unfold WireMap, BuildError, set_if. simpl.
    rewrite (proj2 (String.eqb_neq code "")) by done. simpl.
    destruct (negb (String.eqb action "")), retryable, (negb (String.eqb message "")); by vm_compute. }
  assert (forall file, let e := {| Data := Summary p; Excluded := PExcluded p; Truncated := PTruncated p; File := file;
      EError := ""; Message := ""; Retryable := false; Action := "" |} in
      WireMap e !! "data" = Some (WData (Summary p)) /\ WireMap e !! "error" = None /\ WireMap e !! "file" = WString <$> file) as Hw.
  { intros file. unfold WireMap, set_if. simpl.
    destruct (negb _), (negb _), file; by vm_compute. }
  unfold Build, writeRawFile in H. destruct (_ || _) eqn:Ef.
  - destruct (WriteRaw _ _ _ _) as [st1 [key|msg]]; [|done]. injection H as <- <-.
    split_and!; [|done|apply (Hw (Some key))..|done]. split; [done|]. intros [H1 H2]. by rewrite H1, H2 in Ef.
  - injection H as <- <-. split_and!; [|done|apply (Hw None)..|done]. split; [|done]. intros _.
    apply orb_false_iff in Ef as [H1 H2]. by destruct (PExcluded p), (PTruncated p).
Qed.

Lemma envelope_shape_witness :
  let p := {| Raw := "{}"; Summary := Some tt; PExcluded := [".a"]; PTruncated := [] |} in
  exists st' e, Build (fun _ => None) sample_env sample_store p = (st', Ok e) /\
    File e = Some "1700000000123_416b" /\ WireMap e !! "error" = None.
Proof.
  intros p. eexists _, _. split; [vm_compute; reflexivity|]. split; [reflexivity|].
  eapply (envelope_shape (fun _ => None) sample_env sample_store p). vm_compute. reflexivity.
Defined.
