(* ===== verification/JsonText.v ===== *)
(** * The text of JSON strings, as Go's [encoding/json] writes them

    [json_string html s] is [json.Marshal] of a string ([html := true]) or the output
    of an encoder after [SetEscapeHTML(false)]. *)
From S2P Require Import Prelude GoStr Utf8.

Definition dquote : ascii := az 34.
Definition backslash : ascii := az 92.

Definition hex_char (n : Z) : ascii := if n <? 10 then az (48 + n) else az (87 + n).
(** A [\u] escape of a rune below 0x10000. *)
Definition unicode_escape (r : Z) : string :=
  String backslash (String "u" (String (hex_char (r / 4096 mod 16)) (String (hex_char (r / 256 mod 16))
    (String (hex_char (r / 16 mod 16)) (String (hex_char (r mod 16)) ""))))).

Definition json_rune (html : bool) (rn : Z * nat) : string :=
  let r := fst rn in
  if bad_rune rn then unicode_escape RuneError
  else if r =? 92 then String backslash (String backslash "")
  else if r =? 34 then String backslash (String dquote "")
  else if r =? 8 then String backslash "b"
  else if r =? 12 then String backslash "f"
  else if r =? 10 then String backslash "n"
  else if r =? 13 then String backslash "r"
  else if r =? 9 then String backslash "t"
  else if r <? 32 then unicode_escape r
  else if html && ((r =? 60) || (r =? 62) || (r =? 38)) then unicode_escape r
  else if (r =? 8232) || (r =? 8233) then unicode_escape r
  else encode_rune r.

Fixpoint json_body_from (html : bool) (skip : nat) (s : string) : string :=
  match s with
  | "" => ""
  | String _ s' =>
      match skip with
      | S k => json_body_from html k s'
      | O => let rn := decode_rune s in json_rune html rn +:+ json_body_from html (pred (snd rn)) s'
      end
  end.
Definition json_body (html : bool) (s : string) : string := json_body_from html 0 s.
Definition json_string (html : bool) (s : string) : string := String dquote (json_body html s +:+ String dquote "").

(** A body has no quote that is not escaped: the reader below passes over it. *)
Fixpoint escaped_body (s : string) : bool :=
  match s with
  | "" => true
  | String c s' =>
      if Ascii.eqb c backslash then match s' with String _ s'' => escaped_body s'' | "" => false end
      else negb (Ascii.eqb c dquote) && escaped_body s'
  end.

Lemma escaped_body_app a b : escaped_body a = true -> escaped_body b = true -> escaped_body (a +:+ b) = true.
Proof.
  intros Ha Hb. remember (String.length a) as n eqn:Hn. revert a Hn Ha.
  induction (lt_wf n) as [n _ IH]. intros a -> Ha. destruct a as [|c a]; [done|].
  cbn [escaped_body String.append] in *. destruct (Ascii.eqb c backslash).
  - destruct a as [|d a]; [done|]. cbn [String.append]. eapply (IH (String.length a)); [simpl; lia|done|done].
  - apply andb_true_iff in Ha as [-> Ha]. cbn [andb]. eapply (IH (String.length a)); [simpl; lia|done|done].
Qed.

Lemma escaped_plain s : str_forall (fun c => negb (ascii_byte c)) s = true -> escaped_body s = true.
Proof.
  induction s as [|c s IH]; [done|]. cbn [str_forall escaped_body]. intros [Hc Hs]%andb_true_iff.
  assert (c <> backslash /\ c <> dquote) as [H1 H2] by (split; intros ->; done).
  rewrite (proj2 (Ascii.eqb_neq c backslash)), (proj2 (Ascii.eqb_neq c dquote)) by done. auto.
Qed.

Lemma escaped_unicode r : escaped_body (unicode_escape r) = true.
Proof.
  assert (forall n, hex_char (n mod 16) <> backslash /\ hex_char (n mod 16) <> dquote) as Hh.
  { intros n. pose proof (Z.mod_pos_bound n 16). set (m := n mod 16) in *. clearbody m.
    assert (m ∈ [0;1;2;3;4;5;6;7;8;9;10;11;12;13;14;15]) as Hm by (rewrite !elem_of_cons; lia).
    repeat (apply elem_of_cons in Hm as [->|Hm]; [split; discriminate|]). by apply not_elem_of_nil in Hm. }
  unfold unicode_escape. cbn [escaped_body]. rewrite Ascii.eqb_refl.
  repeat (rewrite (proj2 (Ascii.eqb_neq _ backslash)), (proj2 (Ascii.eqb_neq _ dquote)) by apply Hh; cbn [negb andb]).
  reflexivity.
Qed.

Lemma json_rune_escaped html s : s <> "" -> escaped_body (json_rune html (decode_rune s)) = true.
Proof.
  intros Hne. unfold json_rune. destruct (bad_rune _) eqn:Eb; [apply escaped_unicode|].
  destruct (decode_rune s) as [r n] eqn:E. cbn [fst]. rewrite <- E in Eb.
  destruct (decode_rune_inv s) as [[_ Es]|[E'|(r' & n' & E' & D)]]; [done|by rewrite E' in Eb|].
  rewrite E in E'. injection E' as <- <-.
  destruct (Z.eqb_spec r 92) as [|H92]; [done|]. destruct (Z.eqb_spec r 34) as [|H34]; [done|].
  repeat (destruct (_ =? _); [reflexivity|]).
  destruct (r <? 32); [apply escaped_unicode|]. destruct (html && _); [apply escaped_unicode|].
  destruct (_ || _); [apply escaped_unicode|].
  destruct (decoded_bytes _ _ _ D) as [(c & -> & -> & Hc)|[_ Hb]]; [|by apply escaped_plain].
  cbn [escaped_body]. rewrite (proj2 (Ascii.eqb_neq c backslash)), (proj2 (Ascii.eqb_neq c dquote)); [done|..];
    intros ->; contradiction.
Qed.

Lemma json_body_escaped html s : escaped_body (json_body html s) = true.
Proof.
  unfold json_body. generalize 0%nat. induction s as [|c s IH]; intros skip; [done|].
  cbn [json_body_from]. destruct skip as [|k]; [|apply IH]. apply escaped_body_app; [by apply json_rune_escaped|apply IH].
Qed.

(** * [json.Valid]

    The grammar of [encoding/json]'s scanner, by recursive descent: each function
    returns what follows the part it accepted.  Like the scanner it accepts any byte
    from 0x20 on inside a string, and refuses more than 10000 nested containers. *)

Definition json_space (c : ascii) : bool := let b := bz c in (b =? 32) || (b =? 9) || (b =? 10) || (b =? 13).

Fixpoint skip_ws (s : string) : string :=
  match s with String c s' => if json_space c then skip_ws s' else s | "" => "" end.

Definition is_hex (c : ascii) : bool := is_digit c || in_range 97 102 c || in_range 65 70 c.

(** After the opening quote. *)
Fixpoint scan_string (s : string) : option string :=
  match s with
  | "" => None
  | String c s' =>
      if Ascii.eqb c dquote then Some s'
      else if Ascii.eqb c backslash then
        match s' with
        | String "u"%char (String a (String b (String d (String e s'')))) =>
            if is_hex a && is_hex b && is_hex d && is_hex e then scan_string s'' else None
        | String e s'' => if byte_in e (String dquote (String backslash "/bfnrt")) then scan_string s'' else None
        | "" => None
        end
      else if bz c <? 32 then None
      else scan_string s'
  end.

Fixpoint scan_digits (s : string) : string :=
  match s with String c s' => if is_digit c then scan_digits s' else s | "" => "" end.
Definition scan_digits1 (s : string) : option string :=
  match s with String c s' => if is_digit c then Some (scan_digits s') else None | "" => None end.

Definition scan_number (s : string) : option string :=
  let s := trim_prefix s "-" in
  let int := match s with String "0"%char s' => Some s' | _ => scan_digits1 s end in
  match int with
  | None => None
  | Some s =>
      let frac := match s with String "."%char s' => scan_digits1 s' | _ => Some s end in
      match frac with
      | None => None
      | Some (String c s') =>
          if Ascii.eqb c "e" || Ascii.eqb c "E" then
            match s' with
            | String d s'' => if Ascii.eqb d "+" || Ascii.eqb d "-" then scan_digits1 s'' else scan_digits1 s'
            | "" => None
            end
          else Some (String c s')
      | Some "" => Some ""
      end
  end.

Definition scan_literal (lit s : string) : option string :=
  if has_prefix s lit then Some (str_drop (String.length lit) s) else None.

(** A string, number or literal that starts at the head of [s]. *)
Definition scan_scalar (s : string) : option string :=
  match s with
  | "" => None
  | String c s' =>
      if Ascii.eqb c dquote then scan_string s'
      else if Ascii.eqb c "t" then scan_literal "true" s
      else if Ascii.eqb c "f" then scan_literal "false" s
      else if Ascii.eqb c "n" then scan_literal "null" s
      else scan_number s
  end.

Definition max_nesting : nat := 10000.

Section value.
(** [value depth s]: a value with its leading spaces, inside [depth] containers. *)
Variable value : nat -> string -> option string.

(** Array elements after the bracket, object members after the brace; [fuel] bounds their number. *)
Fixpoint scan_elements (fuel depth : nat) (s : string) : option string :=
  match fuel with
  | O => None
  | S fuel =>
      match value depth s with
      | None => None
      | Some s =>
          match skip_ws s with
          | String ","%char s' => scan_elements fuel depth s'
          | String "]"%char s' => Some s'
          | _ => None
          end
      end
  end.

Fixpoint scan_members (fuel depth : nat) (s : string) : option string :=
  match fuel with
  | O => None
  | S fuel =>
      match skip_ws s with
      | String q s1 =>
          if Ascii.eqb q dquote then
            match scan_string s1 with
            | None => None
            | Some s2 =>
                match skip_ws s2 with
                | String ":"%char s3 =>
                    match value depth s3 with
                    | None => None
                    | Some s4 =>
                        match skip_ws s4 with
                        | String ","%char s5 => scan_members fuel depth s5
                        | String "}"%char s5 => Some s5
                        | _ => None
                        end
                    end
                | _ => None
                end
            end
          else None
      | "" => None
      end
  end.
End value.

Fixpoint scan_value (fuel depth : nat) (s : string) : option string :=
  match fuel with
  | O => None
  | S fuel =>
      match skip_ws s with
      | "" => None
      | String c s' =>
          if Ascii.eqb c "[" then
            if Nat.leb max_nesting depth then None
            else match skip_ws s' with
                 | String "]"%char s'' => Some s''
                 | _ => scan_elements (scan_value fuel) (S (String.length s')) (S depth) s'
                 end
          else if Ascii.eqb c "{" then
            if Nat.leb max_nesting depth then None
            else match skip_ws s' with
                 | String "}"%char s'' => Some s''
                 | _ => scan_members (scan_value fuel) (S (String.length s')) (S depth) s'
                 end
          else scan_scalar (String c s')
      end
  end.

(** Each nested value starts at least one byte further: the length is fuel enough. *)
Definition json_valid (s : string) : bool :=
  match scan_value (S (String.length s)) 0 s with
  | Some rest => String.eqb (skip_ws rest) ""
  | None => false
  end.

Definition q (s : string) : string := String dquote (s +:+ String dquote "").
Example json_valid_ex :
  json_valid ("{" +:+ q "a" +:+ ": [1, -2.5e+10, true, null, {}, [ ]], " +:+ q "b" +:+ ":" +:+ q (String backslash "u00e9x") +:+ "} ") = true /\
  json_valid "01" = false /\ json_valid "[1,]" = false /\ json_valid "{} x" = false /\ json_valid "" = false /\
  json_valid "1." = false /\ json_valid "nul" = false.
Proof. vm_compute. tauto. Qed.
