(* ===== verification/Jq.v ===== *)
(** * jq paths and bounded jq output (src/internal/jq)

    [FormatPath] renders the path of a field as a jq filter, [CollapseIndex] forgets
    its array indexes, and [runQuery] collects the results of a filter under a byte
    and a count limit.  The filter engine is a parameter: the sequence of its results. *)
From S2P Require Import Prelude GoStr Utf8 Float64 GoStd JsonText.

(** ** Paths *)
Definition ident_rune (r : Z) : bool :=
  ((97 <=? r) && (r <=? 122)) || ((65 <=? r) && (r <=? 90)) || ((48 <=? r) && (r <=? 57)) || (r =? 95).

Definition isIdentSafe (s : string) : bool :=
  negb (String.eqb s "") &&
  (match runes s with r :: _ => negb ((48 <=? r) && (r <=? 57)) | [] => true end) &&
  forallb ident_rune (runes s).

Definition writeSegment (b seg : string) : string :=
  if isIdentSafe seg then b +:+ "." +:+ seg
  else
    let b := if String.eqb b "" then "." else b in
    if has_prefix seg "[" then b +:+ seg
    else b +:+ "[" +:+ json_string true seg +:+ "]".

Definition FormatPath (path : list string) : string :=
  match path with [] => "." | _ => foldl writeSegment "" path end.

(** [collapseNumericIndex] after the opening bracket: the rest of [p] on success. *)
Fixpoint index_digits (p : string) : nat * string :=
  match p with
  | String c p' => if is_digit c then let '(n, r) := index_digits p' in (S n, r) else (O, p)
  | "" => (O, "")
  end.
Definition collapseNumericIndex (p : string) : option string :=
  match index_digits p with
  | (S _, String "]"%char rest) => Some rest
  | _ => None
  end.

(** [copyQuotedKey] after the opening bracket and quote: what is copied, and the rest. *)
Fixpoint copyQuotedKey (p : string) : string * string :=
  match p with
  | "" => ("", "")
  | String c p' =>
      if Ascii.eqb c backslash then
        match p' with
        | String d p'' => let '(o, r) := copyQuotedKey p'' in (String c (String d o), r)
        | "" => (String c "", "")
        end
      else if Ascii.eqb c dquote then
        match p' with
        | String "]"%char p'' => (String c "]", p'')
        | _ => let '(o, r) := copyQuotedKey p' in (String c o, r)
        end
      else let '(o, r) := copyQuotedKey p' in (String c o, r)
  end.

Fixpoint collapse_from (fuel : nat) (p : string) : string :=
  match fuel with
  | O => ""
  | S fuel =>
      match p with
      | "" => ""
      | String c p' =>
          if Ascii.eqb c "[" then
            match p' with
            | String q p'' =>
                if Ascii.eqb q dquote then
                  let '(o, r) := copyQuotedKey p'' in "[" +:+ String q o +:+ collapse_from fuel r
                else match collapseNumericIndex p' with
                     | Some r => "[]" +:+ collapse_from fuel r
                     | None => String c (collapse_from fuel p')
                     end
            | "" => String c (collapse_from fuel p')
            end
          else String c (collapse_from fuel p')
      end
  end.

(** Each turn consumes a byte at least: the length of the path is fuel enough. *)
Definition CollapseIndex (p : string) : string :=
  if negb (byte_in "[" p) then p else collapse_from (S (String.length p)) p.

(** ** Results *)
Definition maxOutputBytes : Z := 4 * 1024 * 1024.
Definition maxOutputResults : Z := 10000.

Definition newline : string := String (az 10) "".

(** [line] is the marshalled result, or the error of [marshalJSON]. *)
Definition writeResult (b : string) (line : res string string) (index : Z) : res string string :=
  if maxOutputResults <=? index then Err ("jq: output exceeded " +:+ itoa maxOutputResults +:+ " results")
  else match line with
       | Err e => Err ("jq marshal: " +:+ e)
       | Ok line =>
           let size := if 0 <? index then slen line + 1 else slen line in
           if maxOutputBytes <? slen b + size then Err ("jq: output exceeded " +:+ itoa maxOutputBytes +:+ " bytes")
           else Ok ((if 0 <? index then b +:+ newline else b) +:+ line)
       end.

(** One answer of the iterator: a result, which marshals or not, or an evaluation error. *)
Inductive iter_result : Type := IterError (msg : string) | IterValue (line : res string string).

(** [iter i] is the [i]th answer of the iterator; [None] from the outer option when the fuel is spent. *)
Fixpoint run_from (fuel : nat) (iter : nat -> option iter_result) (i : nat) (b : string) : option (res string string) :=
  match fuel with
  | O => None
  | S fuel =>
      match iter i with
      | None => Some (Ok b)
      | Some (IterError msg) => Some (Err ("jq: " +:+ msg))
      | Some (IterValue line) =>
          match writeResult b line (Z.of_nat i) with
          | Err e => Some (Err e)
          | Ok b => run_from fuel iter (S i) b
          end
      end
  end.
Definition run_fuel : nat := S (Z.to_nat maxOutputResults).
Definition runQuery (iter : nat -> option iter_result) : option (res string string) := run_from run_fuel iter 0 "".

(** ** Lemmas on paths *)
Lemma index_digits_app d t : str_forall is_digit d = true -> (forall c s, t = String c s -> is_digit c = false) ->
  index_digits (d +:+ t) = (String.length d, t).
Proof.
  intros Hd Ht. induction d as [|c d IH]; cbn [String.append index_digits String.length].
  - destruct t as [|c t]; [done|]. cbn [index_digits]. by rewrite (Ht c t).
  - cbn [str_forall] in Hd. apply andb_true_iff in Hd as [Hc Hd]. by rewrite Hc, IH.
Qed.

Lemma copyQuotedKey_body b t : escaped_body b = true ->
  copyQuotedKey (b +:+ String dquote (String "]" t)) = (b +:+ String dquote "]", t).
Proof.
  intros Hb. remember (String.length b) as n eqn:Hn. revert b Hn Hb.
  induction (lt_wf n) as [n _ IH]. intros b -> Hb. destruct b as [|c b]; [done|].
  cbn [String.append copyQuotedKey escaped_body] in *. destruct (Ascii.eqb c backslash).
  - destruct b as [|d b]; [done|]. cbn [String.append].
    rewrite (IH (String.length b)); [done|simpl; lia|done|done].
  - apply andb_true_iff in Hb as [Hq Hb]. apply negb_true_iff in Hq. rewrite Hq.
    by rewrite (IH (String.length b)) by (simpl; auto).
Qed.

Lemma index_digits_length p n r : index_digits p = (n, r) -> String.length p = (n + String.length r)%nat.
Proof.
  revert n r. induction p as [|c p IH]; intros n r; cbn [index_digits].
  - by intros [= <- <-].
  - destruct (is_digit c); [|by intros [= <- <-]]. destruct (index_digits p) as [m r'] eqn:E. intros [= <- <-].
    simpl. by rewrite (IH m r').
Qed.

Lemma collapseNumericIndex_length p r : collapseNumericIndex p = Some r -> (String.length r < String.length p)%nat.
Proof.
  unfold collapseNumericIndex. destruct (index_digits p) as [[|n] rest] eqn:E; [done|]. apply index_digits_length in E.
  destruct rest as [|c rest]; [done|]. destruct c as [[] [] [] [] [] [] [] []]; try done. intros [= <-]. simpl in E. lia.
Qed.

Lemma copyQuotedKey_length p o r : copyQuotedKey p = (o, r) -> (String.length r <= String.length p)%nat.
Proof.
  remember (String.length p) as n eqn:Hn. revert p Hn o r. induction (lt_wf n) as [n _ IH]. intros p -> o r.
  destruct p as [|c p]; cbn [copyQuotedKey]; [by intros [= <- <-]|].
  destruct (Ascii.eqb c backslash); [destruct p as [|d p]|destruct (Ascii.eqb c dquote)].
  - intros [= <- <-]. simpl. lia.
  - destruct (copyQuotedKey p) as [o' r'] eqn:E. intros [= <- <-].
    pose proof (IH (String.length p) ltac:(simpl; lia) p eq_refl o' r' E). simpl. lia.
  - assert (forall o r, (let '(o, r) := copyQuotedKey p in (String c o, r)) = (o, r) ->
      (String.length r <= String.length (String c p))%nat) as H.
    { intros o1 r1. destruct (copyQuotedKey p) as [o' r'] eqn:E. intros [= <- <-].
      pose proof (IH (String.length p) ltac:(simpl; lia) p eq_refl o' r' E). simpl. lia. }
    destruct p as [|d p]; [apply H|]. destruct d as [[] [] [] [] [] [] [] []]; try apply H. intros [= <- <-]. simpl. lia.
  - destruct (copyQuotedKey p) as [o' r'] eqn:E. intros [= <- <-].
    pose proof (IH (String.length p) ltac:(simpl; lia) p eq_refl o' r' E). simpl. lia.
Qed.

(** More fuel than bytes never changes the result. *)
Lemma collapse_fuel f1 f2 p : (String.length p < f1)%nat -> (String.length p < f2)%nat -> collapse_from f1 p = collapse_from f2 p.
Proof.
  revert f2 p. induction f1 as [|f1 IH]; intros [|f2] p H1 H2; try lia. destruct p as [|c p]; [done|].
  cbn [collapse_from String.length] in *. destruct (Ascii.eqb c "["); [|by rewrite (IH f2 p) by lia].
  destruct p as [|q p]; [by rewrite (IH f2 "") by (simpl in *; lia)|]. simpl in H1, H2. destruct (Ascii.eqb q dquote).
  - destruct (copyQuotedKey p) as [o r] eqn:E. apply copyQuotedKey_length in E. by rewrite (IH f2 r) by lia.
  - destruct (collapseNumericIndex _) as [r|] eqn:E; [|by rewrite (IH f2 (String q p)) by (simpl; lia)].
    apply collapseNumericIndex_length in E. simpl in E. by rewrite (IH f2 r) by lia.
Qed.

(** * jq paths and results: properties *)

(** ** [CollapseIndex] piece by piece *)
Definition col (p : string) : string := collapse_from (S (String.length p)) p.

Lemma col_plain c t : c <> "["%char -> col (String c t) = String c (col t).
Proof. intros H. unfold col. cbn [collapse_from String.length]. by rewrite (proj2 (Ascii.eqb_neq c "[")). Qed.

Lemma col_app_plain a t : byte_in "[" a = false -> col (a +:+ t) = a +:+ col t.
Proof.
  induction a as [|c a IH]; [done|]. cbn [byte_in String.append]. intros [H1 H2]%orb_false_iff.
  rewrite col_plain, IH; [done|done|]. intros ->. by rewrite Ascii.eqb_refl in H1.
Qed.

Lemma collapse_quoted f p o r : copyQuotedKey p = (o, r) ->
  collapse_from (S f) (String "[" (String dquote p)) = String "[" (String dquote (o +:+ collapse_from f r)).
Proof. intros E. cbn [collapse_from]. by rewrite !Ascii.eqb_refl, E. Qed.

Lemma collapse_numeric f c p r : Ascii.eqb c dquote = false -> collapseNumericIndex (String c p) = Some r ->
  collapse_from (S f) (String "[" (String c p)) = "[]" +:+ collapse_from f r.
Proof. intros Hc E. cbn [collapse_from]. by rewrite Ascii.eqb_refl, Hc, E. Qed.

Lemma col_quoted b t : escaped_body b = true ->
  col ("[" +:+ String dquote (b +:+ String dquote (String "]" t))) = "[" +:+ String dquote (b +:+ String dquote (String "]" (col t))).
Proof.
  intros Hb. unfold col at 1. rewrite (collapse_quoted _ _ _ _ (copyQuotedKey_body b t Hb)).
  rewrite (collapse_fuel _ (S (String.length t))); [by rewrite <- str_app_assoc| |lia].
  change (String.length ("[" +:+ String dquote ?x)) with (S (S (String.length x))). rewrite str_length_app. simpl. lia.
Qed.

Lemma col_index d t : str_forall is_digit d = true -> d <> "" -> col ("[" +:+ d +:+ String "]" t) = "[]" +:+ col t.
Proof.
  intros Hd Hne. unfold col at 1.
  assert (collapseNumericIndex (d +:+ String "]" t) = Some t) as Hc.
  { unfold collapseNumericIndex. rewrite index_digits_app; [by destruct d|done|]. by intros c s [= <- <-]. }
  assert (exists c r, d +:+ String "]" t = String c r /\ Ascii.eqb c dquote = false) as (c & r & E & Hq).
  { destruct d as [|c d]; [done|]. exists c, (d +:+ String "]" t). split; [done|]. cbn [str_forall] in Hd.
    apply andb_true_iff in Hd as [Hd _]. apply Ascii.eqb_neq. by intros ->. }
  pose proof (f_equal String.length E) as El. rewrite str_length_app in El. cbn [String.length] in El.
  rewrite E in Hc |- *. change ("[" +:+ String c r) with (String "[" (String c r)).
  rewrite (collapse_numeric _ _ _ _ Hq Hc). cbn [String.length].
  by rewrite (collapse_fuel _ (S (String.length t))) by lia.
Qed.

Lemma CollapseIndex_col p : CollapseIndex p = col p.
Proof.
  unfold CollapseIndex. destruct (byte_in "[" p) eqn:E; [done|]. simpl. rewrite <- (str_app_nil_r p) at 2.
  rewrite col_app_plain by done. by rewrite str_app_nil_r.
Qed.

(** ** [FormatPath] as a concatenation *)
Definition seg_text (first : bool) (seg : string) : string :=
  if isIdentSafe seg then "." +:+ seg
  else (if first then "." else "") +:+ (if has_prefix seg "[" then seg else "[" +:+ json_string true seg +:+ "]").

Lemma writeSegment_text b seg : writeSegment b seg = b +:+ seg_text (String.eqb b "") seg.
Proof.
  unfold writeSegment, seg_text. destruct (isIdentSafe seg); [done|].
  destruct (String.eqb_spec b "") as [->|]; destruct (has_prefix seg "["); done.
Qed.

Lemma seg_text_nonempty seg : seg_text true seg <> "".
Proof. unfold seg_text. destruct (isIdentSafe seg); discriminate. Qed.

Lemma fold_segments path b : b <> "" -> foldl writeSegment b path = b +:+ concat_str (map (seg_text false) path).
Proof.
  revert b. induction path as [|s path IH]; intros b Hb; simpl; [by rewrite str_app_nil_r|].
  rewrite writeSegment_text, (proj2 (String.eqb_neq b "")) by done. rewrite IH; [by rewrite str_app_assoc|].
  intros H. apply str_app_eq_nil in H as [H _]. done.
Qed.

Lemma FormatPath_cons s path : FormatPath (s :: path) = seg_text true s +:+ concat_str (map (seg_text false) path).
Proof.
  unfold FormatPath. simpl. rewrite writeSegment_text. rewrite String.eqb_refl. cbn [String.append].
  apply fold_segments, seg_text_nonempty.
Qed.

Lemma ident_no_bracket s : forallb ident_rune (runes s) = true -> byte_in "[" s = false.
Proof.
  remember (String.length s) as n eqn:Hn. revert s Hn. induction (lt_wf n) as [n _ IH]. intros s -> H.
  destruct s as [|c s]; [done|].
  destruct (decode_rune_inv (String c s)) as [[_ ?]|[E|(r & k & E & D)]]; [done| |].
  - exfalso. unfold runes in H. cbn [runes_from] in H. rewrite E in H. discriminate H.
  - rewrite (runes_decoded _ r k) in H by done. cbn [forallb] in H. apply andb_true_iff in H as [Hr H].
    destruct (decoded_encode _ _ _ D) as [Es Hk].
    destruct (decoded_bytes _ _ _ D) as [(d & -> & Hd & Hlt)|[Hge _]].
    + rewrite Hd in Es, Hk. simpl in Hk. subst k. cbn [str_drop String.append] in *. injection Es as ->.
      cbn [byte_in]. rewrite (IH (String.length s)) by (simpl; auto). rewrite orb_false_r. apply Ascii.eqb_neq.
      intros <-. discriminate Hr.
    + exfalso. unfold ident_rune in Hr. bool_to_prop. lia.
Qed.

Lemma isIdentSafe_no_bracket s : isIdentSafe s = true -> byte_in "[" s = false.
Proof. unfold isIdentSafe. intros H. apply andb_true_iff in H as [_ H]. by apply ident_no_bracket. Qed.

Lemma has_prefix_bracket s : byte_in "[" s = false -> has_prefix s "[" = false.
Proof.
  destruct s as [|c s]; [done|]. cbn [byte_in has_prefix]. intros [H _]%orb_false_iff. rewrite andb_true_r.
  apply Ascii.eqb_neq. intros ->. by rewrite Ascii.eqb_refl in H.
Qed.

(** An index segment of a projection path, and what collapsing makes of it. *)
Definition index_segment (seg : string) : Prop := exists d, seg = "[" +:+ d +:+ "]" /\ d <> "" /\ str_forall is_digit d = true.
Definition collapse_segment (seg : string) : string := if has_prefix seg "[" then "[]" else seg.

Lemma col_segment first seg t : (has_prefix seg "[" = true -> index_segment seg) ->
  col (seg_text first seg +:+ t) = seg_text first (collapse_segment seg) +:+ col t.
Proof.
  intros Hidx. unfold seg_text, collapse_segment. destruct (isIdentSafe seg) eqn:Ei.
  - pose proof (isIdentSafe_no_bracket seg Ei) as Hb. rewrite has_prefix_bracket, Ei by done.
    rewrite <- !str_app_assoc. rewrite col_app_plain by done. by rewrite col_app_plain.
  - assert (forall x, col (((if first then "." else "") +:+ x) +:+ t) = (if first then "." else "") +:+ col (x +:+ t)) as Hdot.
    { intros x. rewrite <- str_app_assoc. apply col_app_plain. by destruct first. }
    rewrite Hdot. destruct (has_prefix seg "[") eqn:Ep.
    + destruct (Hidx eq_refl) as (d & -> & Hne & Hd). rewrite <- !str_app_assoc.
      change ("]" +:+ t) with (String "]" t). rewrite col_index by done. by destruct first.
    + rewrite Ei, Ep. unfold json_string. rewrite <- !str_app_assoc. f_equal. cbn [String.append].
      rewrite <- !str_app_assoc. cbn [String.append]. apply col_quoted, json_body_escaped.
Qed.

Lemma col_segments first path t : Forall (fun seg => has_prefix seg "[" = true -> index_segment seg) path ->
  col (concat_str (map (seg_text first) path) +:+ t) = concat_str (map (seg_text first) (map collapse_segment path)) +:+ col t.
Proof.
  induction 1 as [|s path Hs Hp IH]; [done|]. simpl. rewrite <- !str_app_assoc. rewrite col_segment by done. by rewrite IH.
Qed.

(** ** Results *)
Lemma writeResult_ok b line i b' : writeResult b line i = Ok b' ->
  i < maxOutputResults /\ slen b' <= maxOutputBytes /\
  exists l, line = Ok l /\ b' = (if 0 <? i then b +:+ newline else b) +:+ l.
Proof.
  unfold writeResult. destruct (Z.leb_spec maxOutputResults i) as [|Hi]; [done|]. destruct line as [l|e]; [|done].
  destruct (Z.ltb_spec maxOutputBytes (slen b + (if 0 <? i then slen l + 1 else slen l))) as [|Hs]; [done|].
  intros [= <-]. split; [done|]. split; [|by eexists]. destruct (0 <? i); rewrite !slen_app in *; change (slen newline) with 1; lia.
Qed.

Lemma run_from_ok fuel iter i b out lines : run_from fuel iter i b = Some (Ok out) ->
  length lines = i -> b = join newline lines -> slen b <= maxOutputBytes -> (Z.of_nat i <= maxOutputResults) ->
  (forall k l, lines !! k = Some l -> iter k = Some (IterValue (Ok l))) ->
  exists lines', out = join newline lines' /\ slen out <= maxOutputBytes /\ Z.of_nat (length lines') <= maxOutputResults /\
    iter (length lines') = None /\ forall k l, lines' !! k = Some l -> iter k = Some (IterValue (Ok l)).
Proof.
  revert i b lines. induction fuel as [|fuel IH]; intros i b lines H Hlen Hb Hsz Hi Hlines; [done|]. simpl in H.
  destruct (iter i) as [[msg|line]|] eqn:Ei; [done| |].
  - destruct (writeResult b line (Z.of_nat i)) as [b'|e] eqn:Ew; [|done].
    apply writeResult_ok in Ew as (Hlt & Hsz' & l & -> & Hb').
    apply (IH (S i) b' (lines ++ [l])); [done|rewrite length_app; simpl; lia| |done|lia|].
    + rewrite join_snoc, Hb'. destruct lines as [|x lines]; simpl in Hlen; subst i b; [done|].
      rewrite (proj2 (Z.ltb_lt _ _)) by lia. by rewrite <- str_app_assoc.
    + intros k l'. rewrite lookup_app_Some, list_lookup_singleton_Some. intros [?|(? & ? & <-)]; [auto|].
      replace k with i by lia. done.
  - injection H as <-. exists lines. subst i b. auto.
Qed.

Lemma run_from_total fuel iter i b : maxOutputResults < Z.of_nat (fuel + i) -> Z.of_nat i <= maxOutputResults ->
  run_from fuel iter i b <> None.
Proof.
  revert i b. induction fuel as [|fuel IH]; intros i b Hf Hi; [simpl in Hf; lia|]. cbn [run_from].
  destruct (iter i) as [[msg|line]|]; [done| |done].
  destruct (writeResult b line (Z.of_nat i)) as [b'|e] eqn:Ew; [|done].
  apply writeResult_ok in Ew as (Hlt & _). apply IH; lia.
Qed.

(** ** Properties *)

(** Collapsing the indexes of a formatted path is formatting the path with its index segments replaced by []: keys that need quoting are left alone, whatever brackets they hold. *)
Theorem collapse_format_path path :
  Forall (fun seg => has_prefix seg "[" = true -> index_segment seg) path ->
  CollapseIndex (FormatPath path) = FormatPath (map collapse_segment path).
Proof.
  intros H. rewrite CollapseIndex_col. destruct path as [|s path]; [reflexivity|]. inversion_clear H as [|? ? Hs Hp].
  cbn [map]. rewrite !FormatPath_cons, col_segment by done. f_equal.
  rewrite <- (str_app_nil_r (concat_str _)) at 1. rewrite col_segments by done. by rewrite str_app_nil_r.
Qed.

Lemma collapse_format_path_witness :
  CollapseIndex (FormatPath ["items"; "[12]"; "a[0] b"]) = FormatPath ["items"; "[]"; "a[0] b"].
Proof.
  apply (collapse_format_path ["items"; "[12]"; "a[0] b"]).
  apply Forall_cons_2; [vm_compute; discriminate|]. apply Forall_cons_2; [intros _; by exists "12"|].
  apply Forall_cons_2; [vm_compute; discriminate|apply Forall_nil_2].
Defined.

(** A jq query ends for every sequence of results, even an endless one, within the fuel of the result limit; when it succeeds its output is all the results, at most ten thousand, one per line, in at most 4 MiB. *)
Theorem runQuery_bounded (iter : nat -> option iter_result) :
  runQuery iter <> None /\
  forall out, runQuery iter = Some (Ok out) ->
    exists lines, out = join newline lines /\ slen out <= maxOutputBytes /\ Z.of_nat (length lines) <= maxOutputResults /\
      iter (length lines) = None /\ forall k l, lines !! k = Some l -> iter k = Some (IterValue (Ok l)).
Proof.
  split; [apply run_from_total; unfold run_fuel, maxOutputResults; lia|].
  intros out H. apply (run_from_ok _ _ _ _ _ [] H); [done|done|by vm_compute|by vm_compute|].
  intros k l. by rewrite lookup_nil.
Qed.

Lemma runQuery_bounded_witness :
  runQuery (fun i => match i with 0%nat => Some (IterValue (Ok "1")) | 1%nat => Some (IterValue (Ok "2")) | _ => None end)
    = Some (Ok ("1" +:+ newline +:+ "2")) /\
  runQuery (fun i => Some (IterValue (Ok "1"))) <> None.
Proof. split; [reflexivity|]. apply (runQuery_bounded (fun i => Some (IterValue (Ok "1")))). Defined.

(** An object key that begins with a bracket is rendered verbatim, like an index. *)
Example bracket_key_verbatim : FormatPath ["a"; "[0] total"] = ".a[0] total".
Proof. reflexivity. Qed.
