(* ===== verification/ExcludePath.v ===== *)
(** * Exclude paths (src/internal/config/projection_validation.go)

    The rule language of excluded fields, and the validation of projection rules. *)
From S2P Require Import Prelude GoStr GoStd Config.

Record ExcludeStep : Type := { Field : string; Array : bool }.
#[global] Instance ExcludeStep_eq_dec : EqDecision ExcludeStep.
Proof. solve_decision. Defined.

Definition field_step (name : string) : ExcludeStep := {| Field := name; Array := false |}.
Definition array_step : ExcludeStep := {| Field := ""; Array := true |}.

Inductive exclude_error : Type :=
| errExcludeEmptyField | errExcludeBadChar | errExcludeBracket | errExcludeIndex
| errArrayEnd (hint : string)
| errNoSteps.

Definition isExcludeFieldByte (b : ascii) : bool := is_alnum b || Ascii.eqb b "_" || Ascii.eqb b "-".

(** The loop over the bracket pairs; [strings.Trim(inner, digits)] is empty when all bytes are digits. *)
Fixpoint count_from (fuel : nat) (s : string) (count : nat) : res exclude_error nat :=
  match fuel, s with
  | _, "" => Ok count
  | O, _ => Ok count (* not reached: every turn drops two bytes at least *)
  | S fuel, String c s' =>
      if negb (Ascii.eqb c "[") && negb (Ascii.eqb c "]") then Err errExcludeBadChar
      else match index_byte s "]" with
           | None => Err errExcludeBracket
           | Some closing =>
               if negb (Ascii.eqb c "[") then Err errExcludeBracket
               else
                 let inner := str_take (closing - 1) s' in
                 if String.eqb inner "" then count_from fuel (str_drop (S closing) s) (S count)
                 else if str_forall is_digit inner then Err errExcludeIndex
                 else Err errExcludeBracket
           end
  end.
Definition countArraySteps (s : string) : res exclude_error nat := count_from (String.length s) s 0.

(** The bytes of the field name, and the rest of the segment. *)
Fixpoint span_field (s : string) : string * string :=
  match s with
  | String c s' => if isExcludeFieldByte c then let '(a, b) := span_field s' in (String c a, b) else ("", s)
  | "" => ("", "")
  end.

Definition parseExcludeSegment (segment : string) (first : bool) : res exclude_error (list ExcludeStep) :=
  let '(name, brackets) := span_field segment in
  let* items := countArraySteps brackets in
  if String.eqb name "" && (negb first || Nat.eqb items 0) then Err errExcludeEmptyField
  else Ok ((if String.eqb name "" then [] else [field_step name]) ++ replicate items array_step).

Fixpoint parse_segments (first : bool) (segments : list string) (steps : list ExcludeStep)
    : res exclude_error (list ExcludeStep) :=
  match segments with
  | [] => Ok steps
  | segment :: segments =>
      let* parsed := parseExcludeSegment segment first in
      parse_segments false segments (steps ++ parsed)
  end.

Fixpoint trim_brackets (fuel : nat) (whole : string) : string :=
  match fuel with
  | O => whole
  | S fuel => if has_suffix whole "[]" then trim_brackets fuel (trim_suffix whole "[]") else whole
  end.
Definition arrayEndHint (rule : string) : string :=
  let whole := trim_brackets (String.length rule) rule in
  if String.eqb whole "" then
    "a path must end in a field name; name the field to remove inside each item, for example [].secret"
  else "a path must end in a field name; to drop the whole array use " +:+ whole.

(** [errNoSteps] stands for the index out of range of an empty list of steps. *)
Definition ParseExcludePath (rule : string) : res exclude_error (list ExcludeStep) :=
  let* steps := parse_segments true (split_byte rule ".") [] in
  match last steps with
  | None => Err errNoSteps
  | Some st => if Array st then Err (errArrayEnd (arrayEndHint rule)) else Ok steps
  end.

Inductive projection_error : Type := BadFormat (e : format_error) | BadExclude (path : string) (e : exclude_error).

Definition ValidateProjection (p : option ProjectionConfig) : res projection_error unit :=
  match p with
  | None => Ok tt
  | Some p =>
      match ValidResponseFormat (Format p) with
      | Err e => Err (BadFormat e)
      | Ok _ =>
          for_each (fun _ path => match ParseExcludePath path with Err e => Err (BadExclude path e) | Ok _ => Ok tt end)
            (Exclude p) tt
      end
  end.

(** ** The printed form of a path *)
Fixpoint print_from (first : bool) (steps : list ExcludeStep) : string :=
  match steps with
  | [] => ""
  | st :: steps => (if Array st then "[]" else (if first then "" else ".") +:+ Field st) +:+ print_from false steps
  end.
Definition print_path (steps : list ExcludeStep) : string := print_from true steps.

Definition step_ok (st : ExcludeStep) : Prop :=
  if Array st then Field st = "" else Field st <> "" /\ str_forall isExcludeFieldByte (Field st) = true.
Definition path_ok (steps : list ExcludeStep) : Prop :=
  Forall step_ok steps /\ exists l name, steps = l ++ [field_step name].

(** ** Lemmas *)
Lemma span_field_app name t : str_forall isExcludeFieldByte name = true ->
  (forall c s, t = String c s -> isExcludeFieldByte c = false) -> span_field (name +:+ t) = (name, t).
Proof.
  intros Hn Ht. induction name as [|c name IH]; cbn [String.append span_field].
  - destruct t as [|c t]; [done|]. cbn [span_field]. by rewrite (Ht c t).
  - cbn [str_forall] in Hn. apply andb_true_iff in Hn as [-> Hn]. by rewrite IH.
Qed.

Lemma span_field_inv s name t : span_field s = (name, t) -> s = name +:+ t /\ str_forall isExcludeFieldByte name = true.
Proof.
  revert name t. induction s as [|c s IH]; intros name t; cbn [span_field]; [by intros [= <- <-]|].
  destruct (isExcludeFieldByte c) eqn:E; [|by intros [= <- <-]].
  destruct (span_field s) as [a b]. destruct (IH a b eq_refl) as [-> Ha]. intros [= <- <-]. split; [done|]. cbn. by rewrite E.
Qed.

Lemma count_from_repeat fuel k count : (2 * k <= fuel)%nat -> count_from fuel (str_repeat "[]" k) count = Ok (count + k)%nat.
Proof.
  revert fuel count. induction k as [|k IH]; intros fuel count Hf; [by destruct fuel; rewrite Nat.add_0_r|].
  destruct fuel as [|fuel]; [lia|]. cbn. rewrite IH by lia. f_equal. lia.
Qed.

Lemma countArraySteps_repeat k : countArraySteps (str_repeat "[]" k) = Ok k.
Proof.
  unfold countArraySteps. rewrite count_from_repeat; [done|]. induction k as [|k IH]; [done|].
  cbn [str_repeat]. rewrite str_length_app. simpl. lia.
Qed.

Lemma index_byte_inv s b i : index_byte s b = Some i -> s = str_take i s +:+ String b (str_drop (S i) s).
Proof.
  revert i. induction s as [|c s IH]; intros i; cbn [index_byte]; [done|].
  destruct (Ascii.eqb_spec c b) as [->|]; [by intros [= <-]|].
  destruct (index_byte s b) as [j|]; [|done]. intros [= <-]. cbn [str_take str_drop String.append]. f_equal. by apply IH.
Qed.

Lemma count_from_inv fuel s count n : (String.length s <= fuel)%nat -> count_from fuel s count = Ok n ->
  exists k, n = (count + k)%nat /\ s = str_repeat "[]" k.
Proof.
  revert s count. induction fuel as [|fuel IH]; intros s count Hf; destruct s as [|c s]; cbn [count_from].
  - intros [= <-]. exists 0%nat. split; [lia|done].
  - simpl in Hf. lia.
  - intros [= <-]. exists 0%nat. split; [lia|done].
  - destruct (negb _ && negb _); [done|]. destruct (index_byte (String c s) "]") as [i|] eqn:Ei; [|done].
    destruct (Ascii.eqb_spec c "[") as [->|]; [|done]. cbn [negb].
    destruct (String.eqb_spec (str_take (i - 1) s) "") as [Ht|]; [|by destruct (str_forall _ _)].
    apply index_byte_inv in Ei. destruct i as [|i]; [done|]. cbn [str_take str_drop String.append] in Ei.
    injection Ei as Ei. replace (S i - 1)%nat with i in Ht by lia. rewrite Ht in Ei. cbn [String.append] in Ei.
    intros H. cbn [str_drop] in H. rewrite Ei in H. cbn [str_drop] in H. destruct i as [|i].
    + cbn [str_drop] in *. apply IH in H as (k & -> & Hk).
      * exists (S k). split; [lia|]. cbn [str_repeat]. rewrite <- Hk. cbn [String.append]. f_equal. rewrite Ei at 1. simpl. done.
      * rewrite Ei in Hf. simpl in Hf. lia.
    + exfalso. destruct s as [|d s]; [done|]. discriminate Ht.
Qed.

Lemma print_from_app first a b : a <> [] -> print_from first (a ++ b) = print_from first a +:+ print_from false b.
Proof.
  revert first. induction a as [|st a IH]; intros first Hne; [done|]. cbn [app print_from]. rewrite <- str_app_assoc. f_equal.
  destruct a as [|st' a]; [done|]. by apply IH.
Qed.

Lemma print_arrays k : print_from false (replicate k array_step) = str_repeat "[]" k.
Proof. induction k as [|k IH]; [done|]. cbn. by rewrite IH. Qed.

Lemma segment_inv segment first parsed : parseExcludeSegment segment first = Ok parsed ->
  parsed <> [] /\ Forall step_ok parsed /\ print_from first parsed = (if first then "" else ".") +:+ segment.
Proof.
  unfold parseExcludeSegment. destruct (span_field segment) as [name t] eqn:Es. apply span_field_inv in Es as [-> Hname].
  intros H. apply rbind_Ok in H as (items & Hc & H). apply count_from_inv in Hc as (k & -> & ->); [|done]. cbn [Nat.add] in H.
  destruct (String.eqb_spec name "") as [->|Hne]; cbn [andb] in H.
  - destruct first; [|done]. destruct k as [|k]; [done|]. cbn in H. injection H as <-. split; [done|]. split.
    + change (array_step :: replicate k array_step) with (replicate (S k) array_step). by apply Forall_replicate.
    + cbn. by rewrite print_arrays.
  - injection H as <-. split; [done|]. split; [|cbn; by rewrite print_arrays, str_app_assoc].
    cbn [app]. apply Forall_cons. split; [done|by apply Forall_replicate].
Qed.

Lemma parse_segments_inv first segments steps r : parse_segments first segments steps = Ok r ->
  (first = true -> steps = []) -> (first = false -> steps <> []) -> Forall step_ok steps ->
  exists new, r = steps ++ new /\ (segments <> [] -> new <> []) /\ Forall step_ok r /\
    print_from first new = (match segments with [] => "" | _ => (if first then "" else ".") +:+ join "." segments end).
Proof.
  revert first steps. induction segments as [|segment segments IH]; intros first steps H Ht Hf Hok; cbn [parse_segments] in H.
  - injection H as <-. exists []. rewrite app_nil_r. by split_and!.
  - apply rbind_Ok in H as (parsed & Hp & H). destruct (segment_inv _ _ _ Hp) as (Hne & Hpok & Hprint).
    apply IH in H as (new & -> & Hnew & Hrok & Hprint').
    + exists (parsed ++ new). rewrite app_assoc. split_and!; [done|by destruct parsed|done|].
      rewrite print_from_app, Hprint, Hprint' by done. rewrite <- str_app_assoc. f_equal.
      destruct segments as [|s2 segments]; [by rewrite str_app_nil_r|done].
    + done.
    + intros _ Happ. apply app_eq_nil in Happ as [_ ?]. done.
    + by apply Forall_app.
Qed.

(** The segments of a path: [cur] is the text of the segment being built. *)
Fixpoint group_from (cur : string) (steps : list ExcludeStep) : list string :=
  match steps with
  | [] => [cur]
  | st :: steps => if Array st then group_from (cur +:+ "[]") steps else cur :: group_from (Field st) steps
  end.

Lemma group_from_join cur steps : Forall step_ok steps -> join "." (group_from cur steps) = cur +:+ print_from false steps.
Proof.
  intros H. revert cur. induction H as [|st steps Hst Hs IH]; intros cur; cbn [group_from print_from]; [by rewrite str_app_nil_r|].
  destruct (Array st).
  - by rewrite IH, str_app_assoc.
  - assert (exists x l, group_from (Field st) steps = x :: l) as (x & l & E).
    { assert (forall c, group_from c steps <> []) as Hg.
      { clear. induction steps as [|st steps IH]; intros c; [done|]. cbn. by destruct (Array st). }
      specialize (Hg (Field st)). destruct (group_from _ _); [done|]. eauto. }
    specialize (IH (Field st)). rewrite E in *. cbn [join] in *. destruct l; by rewrite IH, <- str_app_assoc.
Qed.

Lemma field_byte_no_dot name : str_forall isExcludeFieldByte name = true -> byte_in "." name = false.
Proof. by apply str_forall_no_byte. Qed.

Lemma group_from_no_dot cur steps : byte_in "." cur = false -> Forall step_ok steps ->
  Forall (fun s => byte_in "." s = false) (group_from cur steps).
Proof.
  intros Hc H. revert cur Hc. induction H as [|st steps Hst Hs IH]; intros cur Hc; cbn [group_from]; [by constructor|].
  unfold step_ok in Hst. destruct (Array st).
  - apply IH. by rewrite byte_in_app, Hc.
  - constructor; [done|]. apply IH, field_byte_no_dot, Hst.
Qed.

Lemma split_join l : l <> [] -> Forall (fun s => byte_in "." s = false) l -> split_byte (join "." l) "." = l.
Proof.
  intros Hne H. induction H as [|s l Hs Hl IH]; [done|]. destruct l as [|t l].
  - cbn. by apply split_byte_no_sep.
  - change (join "." (s :: t :: l)) with (s +:+ String "." (join "." (t :: l))).
    rewrite split_byte_app, (split_byte_no_sep s) by done. rewrite IH by done. done.
Qed.

Lemma segment_parse name k first : str_forall isExcludeFieldByte name = true -> (name <> "" \/ first = true /\ (0 < k)%nat) ->
  parseExcludeSegment (name +:+ str_repeat "[]" k) first =
  Ok ((if String.eqb name "" then [] else [field_step name]) ++ replicate k array_step).
Proof.
  intros Hn Hok. unfold parseExcludeSegment. rewrite span_field_app; [|done|].
  - rewrite countArraySteps_repeat. cbn [rbind]. destruct (String.eqb_spec name "") as [->|]; [|done].
    destruct Hok as [|[-> Hk]]; [done|]. by destruct k; [lia|].
  - intros c s. destruct k; [done|]. cbn. by intros [= <- <-].
Qed.

Lemma str_repeat_snoc k : str_repeat "[]" k +:+ "[]" = str_repeat "[]" (S k).
Proof. induction k as [|k IH]; [done|]. cbn [str_repeat]. rewrite <- str_app_assoc, IH. done. Qed.

Lemma parse_group first name k steps acc : str_forall isExcludeFieldByte name = true ->
  (name <> "" \/ first = true /\ (0 < k)%nat) -> Forall step_ok steps ->
  parse_segments first (group_from (name +:+ str_repeat "[]" k) steps) acc =
  Ok (acc ++ ((if String.eqb name "" then [] else [field_step name]) ++ replicate k array_step) ++ steps).
Proof.
  intros Hn Hok H. revert first name k acc Hn Hok. induction H as [|st steps Hst Hs IH]; intros first name k acc Hn Hok; cbn [group_from].
  - cbn [parse_segments]. rewrite segment_parse by done. cbn [rbind parse_segments]. by rewrite app_nil_r.
  - destruct st as [f arr]. unfold step_ok in Hst. cbn [Field Array] in *. destruct arr.
    + subst f. rewrite <- str_app_assoc, str_repeat_snoc, IH; [|done|destruct Hok as [|[]]; auto with lia].
      rewrite (replicate_S_end k). rewrite <- !app_assoc. done.
    + cbn [parse_segments]. rewrite segment_parse by done. cbn [rbind]. destruct Hst as [Hf1 Hf2].
      specialize (IH false f 0%nat (acc ++ (if String.eqb name "" then [] else [field_step name]) ++ replicate k array_step) Hf2 (or_introl Hf1)).
      cbn [str_repeat] in IH. rewrite str_app_nil_r in IH. rewrite IH, (proj2 (String.eqb_neq f "")) by done.
      cbn [replicate app]. by rewrite <- !app_assoc.
Qed.

Lemma parse_print steps : path_ok steps -> parse_segments true (split_byte (print_path steps) ".") [] = Ok steps.
Proof.
  intros [Hok (l & name & Hlast)]. destruct steps as [|st steps]; [by destruct l|]. apply Forall_cons in Hok as [Hst Hok].
  destruct st as [f arr]. unfold step_ok in Hst. cbn [Field Array] in Hst. destruct arr.
  - subst f. change (print_path ({| Field := ""; Array := true |} :: steps)) with ("[]" +:+ print_from false steps).
    rewrite <- group_from_join by done. rewrite split_join.
    + apply (parse_group true "" 1 steps []); [done|right; auto with lia|done].
    + intros H. pose proof (group_from_join "[]" steps Hok) as Hj. rewrite H in Hj. done.
    + by apply group_from_no_dot.
  - destruct Hst as [Hf1 Hf2]. change (print_path ({| Field := f; Array := false |} :: steps)) with (f +:+ print_from false steps).
    rewrite <- group_from_join by done. rewrite split_join.
    + pose proof (parse_group true f 0 steps [] Hf2 (or_introl Hf1) Hok) as Hp. cbn [str_repeat] in Hp.
      rewrite str_app_nil_r, (proj2 (String.eqb_neq f "")) in Hp by done. exact Hp.
    + intros H. pose proof (group_from_join f steps Hok) as Hj. rewrite H in Hj. by destruct f.
    + apply group_from_no_dot; [by apply field_byte_no_dot|done].
Qed.

(** ** Properties *)

(** An exclude path and its list of steps determine each other: parsing accepts exactly the printed form of a list of named steps that ends in a field, and yields that list. *)
Theorem exclude_path_roundtrip rule steps : ParseExcludePath rule = Ok steps <-> path_ok steps /\ print_path steps = rule.
Proof.
  unfold ParseExcludePath. split.
  - intros H. apply rbind_Ok in H as (r & Hp & H). apply parse_segments_inv in Hp as (new & -> & Hne & Hok & Hprint); [|done..].
    cbn [app] in *. destruct (last new) as [st|] eqn:El; [|done]. destruct (Array st) eqn:Ea; [done|]. injection H as <-.
    apply last_Some in El as [l ->]. split.
    + split; [done|]. exists l, (Field st). destruct st as [f a]. cbn in *. by subst a.
    + unfold print_path. rewrite Hprint. cbn [String.append]. pose proof (split_byte_join rule ".") as Hj.
      destruct (split_byte rule ".") eqn:E; [by apply split_byte_nonempty in E|exact Hj].
  - intros [Hok <-]. rewrite parse_print by done. cbn [rbind]. destruct Hok as [_ (l & name & ->)].
    by rewrite last_snoc.
Qed.

Example exclude_path_examples :
  ParseExcludePath "items[][].author.login" = Ok [field_step "items"; array_step; array_step; field_step "author"; field_step "login"] /\
  ParseExcludePath "[].secret" = Ok [array_step; field_step "secret"] /\
  ParseExcludePath "a..b" = Err errExcludeEmptyField /\ ParseExcludePath "a[0].b" = Err errExcludeIndex /\
  ParseExcludePath "a.*" = Err errExcludeBadChar /\ ParseExcludePath "a[x]" = Err errExcludeBracket /\
  ParseExcludePath "a.items[][]" = Err (errArrayEnd "a path must end in a field name; to drop the whole array use a.items").
Proof. vm_compute. tauto. Qed.
