(* ===== verification/Content.v ===== *)
(** * Markup stripping (src/internal/projection/content.go)

    Content type detection, HTML and Markdown to plain text, removal of inline media,
    whitespace.  The Markdown converter and the HTML tokenizer are third-party code:
    they are parameters, the tokenizer as the list of tokens before its error token. *)
From S2P Require Import Prelude GoStr Utf8 Regex.

Definition newline : string := String (az 10) "".

(** ** Whitespace *)

(** [unicode.IsSpace]. *)
Definition IsSpace (r : Z) : bool :=
  ((9 <=? r) && (r <=? 13)) || (r =? 32) || (r =? 133) || (r =? 160) || (r =? 5760) ||
  ((8192 <=? r) && (r <=? 8202)) || (r =? 8232) || (r =? 8233) || (r =? 8239) || (r =? 8287) || (r =? 12288).

Fixpoint trim_left_space (skip : nat) (s : string) : string :=
  match s with
  | "" => ""
  | String _ s' =>
      match skip with
      | S k => trim_left_space k s'
      | O => let '(r, n) := decode_rune s in if IsSpace r then trim_left_space (pred n) s' else s
      end
  end.

Fixpoint trim_right_space (fuel : nat) (s : string) : string :=
  match fuel with
  | O => s
  | S fuel =>
      if String.eqb s "" then ""
      else let r := decode_last_rune s in
           if IsSpace r then trim_right_space fuel (str_take (String.length s - String.length (encode_rune r)) s) else s
  end.

(** [strings.TrimSpace]. *)
Definition TrimSpace (s : string) : string := let t := trim_left_space 0 s in trim_right_space (String.length t) t.

(** The class of [multiSpacePattern], and the replacement of its runs by one space. *)
Definition space_not_newline (c : ascii) : bool := let b := bz c in (b =? 9) || (b =? 12) || (b =? 13) || (b =? 32).

Fixpoint squeeze_spaces (in_run : bool) (s : string) : string :=
  match s with
  | "" => ""
  | String c s' =>
      if space_not_newline c then (if in_run then "" else " ") +:+ squeeze_spaces true s'
      else String c (squeeze_spaces false s')
  end.

(** Runs of three newlines or more become two ([multiNewlinePattern]). *)
Fixpoint squeeze_newlines (seen : nat) (s : string) : string :=
  match s with
  | "" => ""
  | String c s' =>
      if Ascii.eqb c (az 10) then (if Nat.ltb seen 2 then newline else "") +:+ squeeze_newlines (S seen) s'
      else String c (squeeze_newlines 0 s')
  end.

Definition normalizeWhitespace (s : string) : string := TrimSpace (squeeze_newlines 0 (squeeze_spaces false s)).

(** ** Content type *)
Inductive ContentType : Type := ContentPlain | ContentHTML | ContentMarkdown.

Definition RAny : re := RStar (RCls (fun _ => true)).
Definition regexp_space (c : ascii) : bool := space_not_newline c || Ascii.eqb c (az 10).

(** [[a-z]] under [(?i)]: Unicode folding adds U+017F and U+212A. *)
Definition fold_letter : re :=
  RAlt (RCls (fun c => is_lower c || is_upper c))
    (RAlt (RCat (RChar (az 197)) (RChar (az 191)))
      (RCat (RChar (az 226)) (RCat (RChar (az 132)) (RChar (az 170))))).

Definition htmlTagPattern : re :=
  RCat (RChar "<") (RCat fold_letter (RCat (RStar (RAlt fold_letter (RCls is_digit)))
    (RCat (RCls (fun c => regexp_space c || Ascii.eqb c ">" || Ascii.eqb c "/")) RAny))).

(** The alternatives of [markdownPattern]: at the start of a line, and anywhere. *)
Fixpoint RString (s : string) : re :=
  match s with "" => REps | String c "" => RChar c | String c s => RCat (RChar c) (RString s) end.
Definition RNotNewline : re := RPlus (RCls (fun c => negb (Ascii.eqb c (az 10)))).
Definition hashes : re :=
  RCat (RChar "#") (RCat (ROpt (RChar "#")) (RCat (ROpt (RChar "#")) (RCat (ROpt (RChar "#")) (RCat (ROpt (RChar "#")) (ROpt (RChar "#")))))).
Definition markdown_line_start : re :=
  RAlt (RCat hashes (RChar " ")) (RAlt (RString "* ")
    (RAlt (RCat (RString "- [") (RCat (RCls (fun c => Ascii.eqb c " " || Ascii.eqb c "x")) (RChar "]"))) (RChar "|"))).
Definition backticks : string := String (az 96) (String (az 96) (String (az 96) "")).
Definition markdown_anywhere : re :=
  RAlt (RString "**") (RAlt (RString "__") (RAlt (RString backticks)
    (RCat (RChar "[") (RCat RNotNewline (RCat (RString "](") (RCat RNotNewline (RChar ")"))))))).

Fixpoint markdown_search (line_start : bool) (s : string) : bool :=
  (line_start && re_match (RCat markdown_line_start RAny) s) || re_match (RCat markdown_anywhere RAny) s ||
  match s with "" => false | String c s' => markdown_search (Ascii.eqb c (az 10)) s' end.

Definition DetectContentType (s : string) : ContentType :=
  let trimmed := TrimSpace s in
  if re_match htmlTagPattern trimmed then ContentHTML
  else if markdown_search true trimmed then ContentMarkdown
  else ContentPlain.

(** ** Inline media *)
Fixpoint span_bytes (p : ascii -> bool) (s : string) : string * string :=
  match s with
  | String c s' => if p c then let '(a, b) := span_bytes p s' in (String c a, b) else ("", s)
  | "" => ("", "")
  end.

Definition base64_byte (c : ascii) : bool := is_alnum c || Ascii.eqb c "+" || Ascii.eqb c "/".

(** [base64URIPattern] at the start of [s]: the match, its payload, and the rest. *)
Definition match_data_uri (s : string) : option (string * string * string) :=
  if negb (has_prefix s "data:") then None
  else
    let '(mime, s1) := span_bytes base64_byte (str_drop 5 s) in
    if String.eqb mime "" || negb (has_prefix s1 ";base64,") then None
    else
      let '(body, s2) := span_bytes base64_byte (str_drop 8 s1) in
      if String.eqb body "" then None
      else let '(pad, rest) := span_bytes (fun c => Ascii.eqb c "=") s2 in
           Some ("data:" +:+ mime +:+ ";base64," +:+ body +:+ pad, body +:+ pad, rest).

(** [base64.StdEncoding.DecodeString] succeeds. *)
Fixpoint base64_ok (s : string) : bool :=
  match s with
  | "" => true
  | String a (String b (String c (String d rest))) =>
      base64_byte a && base64_byte b &&
      (if Ascii.eqb c "=" then Ascii.eqb d "=" && String.eqb rest ""
       else base64_byte c && (if Ascii.eqb d "=" then String.eqb rest "" else base64_byte d && base64_ok rest))
  | _ => false
  end.

(** Left to right; a match is replaced when its first 64 payload bytes decode. *)
Fixpoint strip_uris_from (fuel : nat) (s : string) : string :=
  match fuel with
  | O => ""
  | S fuel =>
      match s with
      | "" => ""
      | String c s' =>
          match match_data_uri s with
          | Some (matched, payload, rest) =>
              (if base64_ok (str_take 64 payload) then "[media]" else matched) +:+ strip_uris_from fuel rest
          | None => String c (strip_uris_from fuel s')
          end
      end
  end.
Definition stripBase64DataURIs (s : string) : string := strip_uris_from (S (String.length s)) s.

(** ** HTML *)
Inductive html_token : Type :=
| TextToken (text : string)
| StartTag (name : string) (attrs : list (string * string)) (selfClosing : bool)
| EndTag (name : string)
| CommentToken
| DoctypeToken.

Definition skipTags (name : string) : bool := bool_decide (name ∈ ["script"; "style"; "head"]).
Definition blockTags (name : string) : bool :=
  bool_decide (name ∈ ["p"; "div"; "br"; "h1"; "h2"; "h3"; "h4"; "h5"; "h6"; "li"; "tr"; "td"; "th"; "blockquote"; "pre"; "hr"]).

Definition nextSkipDepth (name : string) (isSelfClose : bool) (skipDepth : nat) : option nat :=
  if Nat.ltb 0 skipDepth then Some (if isSelfClose then skipDepth else S skipDepth)
  else if negb (skipTags name) then None
  else Some (if isSelfClose then 0%nat else 1%nat).

Definition writeImgAlt (attrs : list (string * string)) (sb : string) : string :=
  foldl (fun sb kv => if String.eqb (fst kv) "alt" && Nat.ltb 0 (String.length (snd kv)) then sb +:+ snd kv else sb) sb attrs.

(** The builder and the skip depth after a start tag. *)
Definition processStartTag (sb : string) (skipDepth : nat) (name : string) (attrs : list (string * string)) (selfClosing : bool)
    : string * nat :=
  match nextSkipDepth name selfClosing skipDepth with
  | Some next => (sb, next)
  | None =>
      let sb := if blockTags name then sb +:+ newline else sb in
      let sb := if String.eqb name "img" && Nat.ltb 0 (length attrs) then writeImgAlt attrs sb else sb in
      (sb, 0%nat)
  end.

Definition processHTMLToken (st : string * nat) (tok : html_token) : string * nat :=
  let '(sb, skipDepth) := st in
  match tok with
  | TextToken text => (if Nat.eqb skipDepth 0 then sb +:+ text else sb, skipDepth)
  | StartTag name attrs selfClosing => processStartTag sb skipDepth name attrs selfClosing
  | EndTag _ => (sb, if Nat.ltb 0 skipDepth then pred skipDepth else skipDepth)
  | CommentToken | DoctypeToken => (sb, skipDepth)
  end.

Section markup.
Context (mdConvert : string -> option string) (tokenize : string -> list html_token).

Definition StripHTML (s : string) : string := normalizeWhitespace (fst (foldl processHTMLToken ("", 0%nat) (tokenize s))).

Definition StripMarkdown (s : string) : string :=
  match mdConvert s with None => s | Some html => StripHTML html end.

Definition StripMarkup (s : string) : string :=
  let s := stripBase64DataURIs s in
  match DetectContentType s with
  | ContentHTML => StripHTML s
  | ContentMarkdown => StripMarkdown s
  | ContentPlain => s
  end.
End markup.

(** ** Documents as trees, and the text they show *)
Inductive node : Type :=
| Text (text : string)
| Void (name : string) (attrs : list (string * string))           (* a start tag without an end tag: <br>, <meta> *)
| SelfClosed (name : string) (attrs : list (string * string))     (* <img/> *)
| Element (name : string) (attrs : list (string * string)) (children : list node)
| Comment.

Fixpoint node_tokens (n : node) : list html_token :=
  match n with
  | Text t => [TextToken t]
  | Void name attrs => [StartTag name attrs false]
  | SelfClosed name attrs => [StartTag name attrs true]
  | Element name attrs children => StartTag name attrs false :: concat (map node_tokens children) ++ [EndTag name]
  | Comment => [CommentToken]
  end.

Definition tag_text (name : string) (attrs : list (string * string)) : string :=
  (if blockTags name then newline else "") +:+
  (if String.eqb name "img" && Nat.ltb 0 (length attrs) then writeImgAlt attrs "" else "").

(** What a reader sees: text, image descriptions, a newline per block, nothing of a skipped subtree. *)
Fixpoint visible_text (n : node) : string :=
  match n with
  | Text t => t
  | Void name attrs | SelfClosed name attrs => if skipTags name then "" else tag_text name attrs
  | Element name attrs children =>
      if skipTags name then "" else tag_text name attrs +:+ concat_str (map visible_text children)
  | Comment => ""
  end.

Fixpoint no_void (n : node) : bool :=
  match n with Void _ _ => false | Element _ _ children => forallb no_void children | _ => true end.

(** No start tag without end tag inside a skipped subtree, nor a skipped tag left open. *)
Fixpoint balanced (n : node) : bool :=
  match n with
  | Void name _ => negb (skipTags name)
  | Element name _ children => if skipTags name then forallb no_void children else forallb balanced children
  | _ => true
  end.

Section node_ind.
Variable P : node -> Prop.
Hypothesis HText : forall t, P (Text t).
Hypothesis HVoid : forall n a, P (Void n a).
Hypothesis HSelf : forall n a, P (SelfClosed n a).
Hypothesis HElem : forall n a ch, Forall P ch -> P (Element n a ch).
Hypothesis HComment : P Comment.
Fixpoint node_ind' (n : node) : P n :=
  match n with
  | Text t => HText t
  | Void n a => HVoid n a
  | SelfClosed n a => HSelf n a
  | Element n a ch =>
      HElem n a ch ((fix go l : Forall P l := match l with [] => Forall_nil_2 P | x :: l => Forall_cons_2 P x l (node_ind' x) (go l) end) ch)
  | Comment => HComment
  end.
End node_ind.

(** ** Trimming *)
Definition plain_end (c : ascii) : bool := ascii_byte c && negb (IsSpace (bz c)).

Lemma last_byte_snoc s c : last_byte (s +:+ String c "") = Some c.
Proof.
  unfold last_byte. rewrite str_length_app. cbn [String.length]. rewrite Nat.add_1_r. cbn [pred].
  induction s as [|d s IH]; [done|]. cbn [String.append String.length String.get]. exact IH.
Qed.

Lemma trim_left_plain c s : plain_end c = true -> trim_left_space 0 (String c s) = String c s.
Proof.
  unfold plain_end, ascii_byte. intros [H1 H2]%andb_true_iff. cbn [trim_left_space decode_rune]. rewrite H1. cbv iota beta.
  by rewrite (proj1 (negb_true_iff _) H2).
Qed.

Lemma trim_right_plain fuel s c : plain_end c = true -> trim_right_space fuel (s +:+ String c "") = s +:+ String c "".
Proof.
  unfold plain_end, ascii_byte. intros [H1 H2]%andb_true_iff. destruct fuel as [|fuel]; [done|]. cbn [trim_right_space].
  replace (String.eqb (s +:+ String c "") "") with false by (by destruct s).
  unfold decode_last_rune. rewrite last_byte_snoc, H1. cbv iota beta. by rewrite (proj1 (negb_true_iff _) H2).
Qed.

(** A text that starts and ends with visible ASCII characters has nothing to trim. *)
Lemma TrimSpace_visible c s t d : String c s = t +:+ String d "" -> plain_end c = true -> plain_end d = true -> TrimSpace (String c s) = String c s.
Proof. intros E Hc Hd. unfold TrimSpace. rewrite trim_left_plain by done. rewrite E. by apply trim_right_plain. Qed.

Lemma foldl_concat {A B} (f : A -> B -> A) (ls : list (list B)) a : foldl f a (concat ls) = foldl (foldl f) a ls.
Proof. revert a. induction ls as [|l ls IH]; intros a; simpl; [done|]. by rewrite foldl_app, IH. Qed.

(** Inside a skipped subtree nothing is written, and balanced content keeps the depth. *)
Lemma skip_node sb d n : no_void n = true -> foldl processHTMLToken (sb, S d) (node_tokens n) = (sb, S d).
Proof.
  revert d. induction n as [t|name a|name a|name a ch IH|] using node_ind'; intros d Hv; cbn; [done|done|done| |done].
  rewrite foldl_app, foldl_concat.
  assert (foldl (foldl processHTMLToken) (sb, S (S d)) (map node_tokens ch) = (sb, S (S d))) as Hch.
  { cbn in Hv. induction IH as [|n ch Hn Hch IHch]; [done|]. cbn in Hv. apply andb_true_iff in Hv as [Hv1 Hv2].
    cbn [map foldl]. rewrite Hn by done. by apply IHch. }
  by rewrite Hch.
Qed.

Lemma skip_nodes sb d ch : forallb no_void ch = true ->
  foldl (foldl processHTMLToken) (sb, S d) (map node_tokens ch) = (sb, S d).
Proof.
  intros Hv. induction ch as [|n ch IH]; [done|]. cbn in Hv. apply andb_true_iff in Hv as [Hv1 Hv2].
  cbn [map foldl]. by rewrite skip_node, IH.
Qed.

Lemma writeImgAlt_app attrs sb t : writeImgAlt attrs (sb +:+ t) = sb +:+ writeImgAlt attrs t.
Proof.
  unfold writeImgAlt. revert t. induction attrs as [|[k v] attrs IH]; intros t; [done|]. cbn [foldl]. destruct (_ && _); [|apply IH].
  by rewrite <- str_app_assoc, IH.
Qed.

Lemma start_tag_shown sb name attrs sc : skipTags name = false -> processStartTag sb 0 name attrs sc = (sb +:+ tag_text name attrs, 0%nat).
Proof.
  intros Hs. unfold processStartTag, nextSkipDepth, tag_text. rewrite Hs. cbn.
  destruct (blockTags name), (_ && _); rewrite <- ?writeImgAlt_app, ?str_app_nil_r; done.
Qed.

Lemma show_node sb n : balanced n = true -> foldl processHTMLToken (sb, 0%nat) (node_tokens n) = (sb +:+ visible_text n, 0%nat).
Proof.
  revert sb. induction n as [t|name a|name a|name a ch IH|] using node_ind'; intros sb Hb; cbn -[blockTags skipTags processStartTag]; [done| | | |by rewrite str_app_nil_r].
  - cbn in Hb. apply negb_true_iff in Hb. rewrite Hb. by apply start_tag_shown.
  - destruct (skipTags name) eqn:E; [|by apply start_tag_shown]. unfold processStartTag, nextSkipDepth. rewrite E. cbn.
    by rewrite str_app_nil_r.
  - cbn -[skipTags] in Hb. rewrite foldl_app, foldl_concat. destruct (skipTags name) eqn:E.
    + unfold processStartTag, nextSkipDepth. rewrite E. cbn [Nat.ltb Nat.leb negb]. rewrite skip_nodes by done. cbn.
      by rewrite str_app_nil_r.
    + rewrite start_tag_shown by done.
      assert (forall sb, foldl (foldl processHTMLToken) (sb, 0%nat) (map node_tokens ch) = (sb +:+ concat_str (map visible_text ch), 0%nat)) as Hch.
      { clear sb. induction IH as [|n ch Hn Hch IHch]; intros sb; [by cbn; rewrite str_app_nil_r|].
        cbn in Hb. apply andb_true_iff in Hb as [Hb1 Hb2]. cbn [map foldl]. rewrite Hn, IHch by done.
        by rewrite <- str_app_assoc. }
      rewrite Hch. cbn. by rewrite <- str_app_assoc.
Qed.

Lemma show_nodes sb ns : forallb balanced ns = true ->
  foldl processHTMLToken (sb, 0%nat) (concat (map node_tokens ns)) = (sb +:+ concat_str (map visible_text ns), 0%nat).
Proof.
  intros Hb. rewrite foldl_concat. revert sb. induction ns as [|n ns IH]; intros sb; cbn; [by rewrite str_app_nil_r|].
  cbn in Hb. apply andb_true_iff in Hb as [Hb1 Hb2]. rewrite show_node by done. rewrite IH by done. by rewrite str_app_assoc.
Qed.

(** After a void element inside a skipped one, the depth never returns to zero. *)
Lemma stuck_node sb d n : (exists m, snd (foldl processHTMLToken (sb, S d) (node_tokens n)) = S m /\ (d <= m)%nat) /\
  fst (foldl processHTMLToken (sb, S d) (node_tokens n)) = sb.
Proof.
  revert d. induction n as [t|name a|name a|name a ch IH|] using node_ind'; intros d; cbn; try (split; [eexists; split; [reflexivity|lia]|done]).
  rewrite foldl_app, foldl_concat.
  assert (forall d, (exists m, snd (foldl (foldl processHTMLToken) (sb, S d) (map node_tokens ch)) = S m /\ (d <= m)%nat) /\
    fst (foldl (foldl processHTMLToken) (sb, S d) (map node_tokens ch)) = sb) as Hch.
  { clear d. induction IH as [|n ch Hn Hch IHch]; intros d; cbn [map foldl]; [split; [eexists; split; [reflexivity|lia]|done]|].
    destruct (Hn d) as [(m & Hm & Hle) Hf]. rewrite (surjective_pairing (foldl _ _ (node_tokens n))), Hf, Hm.
    destruct (IHch m) as [(m' & Hm' & Hle') Hf']. split; [exists m'; split; [done|lia]|done]. }
  destruct (Hch (S d)) as [(m & Hm & Hle) Hf]. rewrite (surjective_pairing (foldl _ _ (map _ _))), Hf, Hm. cbn.
  split; [|done]. destruct m as [|m]; [lia|]. exists m. split; [done|lia].
Qed.

Lemma stuck_nodes sb d ns : (exists m, snd (foldl (foldl processHTMLToken) (sb, S d) (map node_tokens ns)) = S m /\ (d <= m)%nat) /\
  fst (foldl (foldl processHTMLToken) (sb, S d) (map node_tokens ns)) = sb.
Proof.
  revert d. induction ns as [|n ns IH]; intros d; cbn [map foldl]; [split; [eexists; split; [reflexivity|lia]|done]|].
  destruct (stuck_node sb d n) as [(m & Hm & Hle) Hf]. rewrite (surjective_pairing (foldl _ _ (node_tokens n))), Hf, Hm.
  destruct (IH m) as [(m' & Hm' & Hle') Hf']. split; [exists m'; split; [done|lia]|done].
Qed.

(** ** Properties *)

(** Stripping a document yields its visible text: the text and image descriptions in order, a newline before each block, and nothing from script, style and head, provided these hold no start tag that lacks an end tag. *)
Theorem StripHTML_visible (tokenize : string -> list html_token) s doc :
  tokenize s = concat (map node_tokens doc) -> forallb balanced doc = true ->
  StripHTML tokenize s = normalizeWhitespace (concat_str (map visible_text doc)).
Proof. intros Ht Hb. unfold StripHTML. by rewrite Ht, show_nodes. Qed.

Definition sample_doc : list node :=
  [Element "head" [] [Element "title" [] [Text "T"]]; Element "p" [] [Text "Hello "; Void "img" [("src", "x"); ("alt", "pic")]; Void "br" []; Text "world"]].

Lemma StripHTML_visible_witness :
  StripHTML (fun _ => concat (map node_tokens sample_doc)) "" = normalizeWhitespace (concat_str (map visible_text sample_doc)) /\
  normalizeWhitespace (concat_str (map visible_text sample_doc)) = "Hello pic" +:+ newline +:+ "world".
Proof. split; [apply (StripHTML_visible _ "" sample_doc); reflexivity|vm_compute; reflexivity]. Defined.

(** A void element such as meta inside head is counted as an open element that nothing closes: everything after the head is dropped, whatever it is. *)
Theorem StripHTML_void_in_head (tokenize : string -> list html_token) s void_name attrs before rest :
  tokenize s = StartTag "head" [] false :: concat (map node_tokens before) ++ StartTag void_name attrs false :: EndTag "head" ::
    concat (map node_tokens rest) ->
  StripHTML tokenize s = "".
Proof.
  intros Ht. unfold StripHTML. rewrite Ht. cbn [foldl]. rewrite foldl_app, foldl_concat.
  change (processHTMLToken ("", 0%nat) (StartTag "head" [] false)) with ("", 1%nat).
  destruct (stuck_nodes "" 0 before) as [(m & Hm & _) Hf]. rewrite (surjective_pairing (foldl _ _ (map _ before))), Hf, Hm.
  cbn [foldl]. change (processHTMLToken ("", S m) (StartTag void_name attrs false)) with ("", S (S m)).
  change (processHTMLToken ("", S (S m)) (EndTag "head")) with ("", S m). rewrite foldl_concat.
  destruct (stuck_nodes "" m rest) as [_ Hf']. by rewrite Hf'.
Qed.

Lemma StripHTML_void_in_head_witness :
  StripHTML (fun _ => [StartTag "head" [] false; StartTag "meta" [("charset", "utf-8")] false; EndTag "head";
    StartTag "body" [] false; TextToken "Hello"; EndTag "body"]) "" = "".
Proof.
  apply (StripHTML_void_in_head _ "" "meta" [("charset", "utf-8")] [] [Element "body" [] [Text "Hello"]]). reflexivity.
Defined.
