(* ===== verification/Projection.v ===== *)
(** * Projection of tool results (src/internal/projection: engine.go, merge.go, excluded.go)

    A parsed JSON value is reduced by exclusion rules, include lists, array and string
    limits.  An object is the list of its members in the order Go's map iteration
    visits them, so a statement about every such list holds for every iteration order.
    The accumulated [excluded] and [truncated] slices are returned. *)
From S2P Require Import Prelude GoStr Utf8 Float64 Config ExcludePath JsonText Jq Content Response.

Inductive json : Type :=
| JNull
| JBool (b : bool)
| JNum (lexeme : string)
| JStr (s : string)
| JArr (l : list json)
| JObj (fs : list (string * json)).

(** ** Configuration *)
Record Defaults : Type := { StringLimit : Z; ContentFields : list string; AutoStripThreshold : Z }.

Record effectiveConfig : Type := {
  includeOnly : list string;
  exclude : list (list ExcludeStep);
  arrayLimits : gmap string Z;
  stringLimits : gmap string Z;
  defaultArrayLimit : Z;
  defaultStringLimit : Z;
  stripContent : bool;
  contentFieldSet : gset string;
  autoStripThreshold : Z
}.

Definition stringLimitFor (c : effectiveConfig) (field : string) : Z :=
  match stringLimits c !! field with Some v => v | None => defaultStringLimit c end.

Definition arrayLimitFor (c : effectiveConfig) (field : string) : Z :=
  if negb (String.eqb field "") then
    match arrayLimits c !! field with Some v => v | None => defaultArrayLimit c end
  else defaultArrayLimit c.

Definition effectiveFromDefaults (d : Defaults) : effectiveConfig :=
  {| includeOnly := []; exclude := []; arrayLimits := ∅; stringLimits := ∅; defaultArrayLimit := 0;
     defaultStringLimit := StringLimit d; stripContent := false; contentFieldSet := list_to_set (ContentFields d);
     autoStripThreshold := AutoStripThreshold d |}.

Definition prepareExclusions (rules : list string) : list (list ExcludeStep) :=
  omap (fun rule => match ParseExcludePath rule with Ok steps => Some steps | Err _ => None end) rules.

Definition applyProjectionConfig (e : effectiveConfig) (cfg : ProjectionConfig) : effectiveConfig :=
  {| includeOnly := IncludeOnly cfg;
     exclude := prepareExclusions (Exclude cfg);
     arrayLimits := ArrayLimits cfg;
     stringLimits := StringLimits cfg;
     defaultArrayLimit := match ArrayLimits cfg !! "default" with Some v => v | None => defaultArrayLimit e end;
     defaultStringLimit := defaultStringLimit e;
     stripContent := stripContent e || StripMarkupOpt cfg;
     contentFieldSet := contentFieldSet e;
     autoStripThreshold := autoStripThreshold e |}.

Definition mergeWithDefaults (cfg : option ProjectionConfig) (d : Defaults) : effectiveConfig :=
  match cfg with
  | None => effectiveFromDefaults d
  | Some cfg => applyProjectionConfig (effectiveFromDefaults d) cfg
  end.

(** ** Truncation at a boundary *)
Fixpoint rune_offset_from (n : nat) (i : nat) (rest : string) : nat :=
  match n with
  | O => i
  | S n =>
      let size := snd (decode_rune rest) in
      let rest' := str_drop size rest in
      if String.eqb rest' "" then (i + String.length rest)%nat else rune_offset_from n (i + size) rest'
  end.
Definition runeOffset (s : string) (n : Z) : nat := rune_offset_from (Z.to_nat n) 0 s.

(** Indexes [limit], [limit-1], ... above [limit-window] and above 0. *)
Fixpoint scanBackward (text : string) (i window : nat) (match_ : ascii -> bool) : option nat :=
  match window, i with
  | S window, S i' =>
      match String.get i text with
      | Some c => if match_ c then Some i else scanBackward text i' window match_
      | None => None (* out of range: not reached, the limit is inside the text *)
      end
  | _, _ => None
  end.

Definition truncateAtBoundary (s : string) (runeLimit : Z) : string :=
  let byteLimit := runeOffset s runeLimit in
  if Nat.leb (String.length s) byteLimit then s
  else
    match scanBackward s byteLimit 100 (fun b => Ascii.eqb b "." || Ascii.eqb b (az 10)) with
    | Some sentenceCut => str_take (S sentenceCut) s
    | None =>
        match scanBackward s byteLimit 50 (fun b => Ascii.eqb b " ") with
        | Some wordCut => str_take wordCut s
        | None => str_take byteLimit s
        end
    end.

Definition truncateArray {A} (arr : list A) (limit : Z) : list A * nat :=
  ((if (0 <? limit) && (limit <? Z.of_nat (length arr)) then take (Z.to_nat limit) arr else arr), length arr).

(** ** The walk *)
Record projCtx : Type := { cfg : effectiveConfig; depth : nat; path : list string; steps : list ExcludeStep }.

Definition child (c : projCtx) (segment : string) (step : ExcludeStep) (depthDelta : nat) : projCtx :=
  {| cfg := cfg c; depth := depth c + depthDelta; path := path c ++ [segment];
     steps := if Nat.ltb 0 (length (exclude (cfg c))) then steps c ++ [step] else [] |}.

Definition isIncluded (key : string) (includeOnly : list string) : bool := bool_decide (key ∈ includeOnly).

Definition isExcluded (key : string) (parent : list ExcludeStep) (exclude : list (list ExcludeStep)) : bool :=
  existsb (fun rule =>
    Nat.eqb (length rule) (length parent + 1) && bool_decide (rule !! length parent = Some (field_step key)) &&
    bool_decide (parent = take (length parent) rule)) exclude.

Definition shouldSkipField (key : string) (ctx : projCtx) : bool :=
  isExcluded key (steps ctx) (exclude (cfg ctx)) ||
  (Nat.eqb (depth ctx) 0 && Nat.ltb 0 (length (includeOnly (cfg ctx))) && negb (isIncluded key (includeOnly (cfg ctx)))).

Definition index_seg (i : nat) : string := "[" +:+ itoa (Z.of_nat i) +:+ "]".

Record walked (A : Type) : Type := Walked { w_value : A; w_excluded : list string; w_truncated : list Truncation }.
Arguments Walked {A}.
Arguments w_value {A}.
Arguments w_excluded {A}.
Arguments w_truncated {A}.

Section engine.
Context (StripMarkup : string -> string).

Definition projectString (s : string) (ctx : projCtx) (fieldName : string) : walked string :=
  let s := if stripContent (cfg ctx) ||
              ((0 <? autoStripThreshold (cfg ctx)) && (autoStripThreshold (cfg ctx) <=? slen s) &&
               bool_decide (fieldName ∈ contentFieldSet (cfg ctx)))
           then StripMarkup s else s in
  let limit := stringLimitFor (cfg ctx) fieldName in
  if (0 <? limit) && (limit <? rune_count s) then
    let cut := truncateAtBoundary s limit in
    Walked cut [] [{| JQPath := FormatPath (path ctx); Chars := rune_count s - rune_count cut; Items := 0 |}]
  else Walked s [] [].

Section walk.
Variable rec : json -> projCtx -> string -> walked json.

(** [projectMapValue]: scalars other than strings are kept, containers go one level down. *)
Definition projectMapValue (value : json) (ctx : projCtx) (fieldName : string) : walked json :=
  let delta := match value with JArr _ | JObj _ => 1%nat | _ => 0%nat end in
  rec value (child ctx fieldName (field_step fieldName) delta) fieldName.

Fixpoint projectMap (fs : list (string * json)) (ctx : projCtx) : walked (list (string * json)) :=
  match fs with
  | [] => Walked [] [] []
  | (k, v) :: fs =>
      let rest := projectMap fs ctx in
      if shouldSkipField k ctx then
        Walked (w_value rest) (FormatPath (path ctx ++ [k]) :: w_excluded rest) (w_truncated rest)
      else
        let out := projectMapValue v ctx k in
        Walked ((k, w_value out) :: w_value rest) (w_excluded out ++ w_excluded rest) (w_truncated out ++ w_truncated rest)
  end.

(** The items from index [i] on; [n] are left below the limit. *)
Fixpoint projectItems (l : list json) (n i : nat) (ctx : projCtx) : walked (list json) :=
  match l, n with
  | v :: l, S n =>
      let out := rec v (child ctx (index_seg i) array_step 0) "" in
      let rest := projectItems l n (S i) ctx in
      Walked (w_value out :: w_value rest) (w_excluded out ++ w_excluded rest) (w_truncated out ++ w_truncated rest)
  | _, _ => Walked [] [] []
  end.

Definition projectNamedArray (arr : list json) (ctx : projCtx) (fieldName : string) : walked (list json) :=
  let '(kept, original) := truncateArray arr (arrayLimitFor (cfg ctx) fieldName) in
  let out := projectItems arr (length kept) 0 ctx in
  if Nat.ltb (length kept) original then
    Walked (w_value out) (w_excluded out)
      (w_truncated out ++ [{| JQPath := FormatPath (path ctx); Chars := 0; Items := Z.of_nat (original - length kept) |}])
  else out.
End walk.

(** [project], with the field name that [projectMapValue] passes on to strings and arrays. *)
Fixpoint project_named (value : json) (ctx : projCtx) (fieldName : string) : walked json :=
  match value with
  | JObj fs => let out := projectMap project_named fs ctx in Walked (JObj (w_value out)) (w_excluded out) (w_truncated out)
  | JArr l => let out := projectNamedArray project_named l ctx fieldName in Walked (JArr (w_value out)) (w_excluded out) (w_truncated out)
  | JStr s => let out := projectString s ctx fieldName in Walked (JStr (w_value out)) (w_excluded out) (w_truncated out)
  | v => Walked v [] []
  end.
Definition project (value : json) (ctx : projCtx) : walked json := project_named value ctx "".

(** ** Results *)
#[global] Instance trunc_le_dec : RelDecision (fun a b : Truncation => String.le (JQPath a) (JQPath b)).
Proof. intros a b. apply _. Defined.
Definition sortTruncated (l : list Truncation) : list Truncation := merge_sort (fun a b => String.le (JQPath a) (JQPath b)) l.

Fixpoint collapse_keys (seen : gset string) (paths : list string) : list string :=
  match paths with
  | [] => []
  | p :: paths =>
      let wk := CollapseIndex p in
      if decide (wk ∈ seen) then collapse_keys seen paths else wk :: collapse_keys ({[wk]} ∪ seen) paths
  end.
Definition collapseExcluded (paths : list string) : list string := merge_sort String.le (collapse_keys ∅ paths).

Record Result : Type := { Summary : json; ExcludedKeys : list string; RTruncated : list Truncation }.

Definition root_ctx (e : effectiveConfig) : projCtx := {| cfg := e; depth := 0; path := []; steps := [] |}.

Definition Apply (value : json) (c : option ProjectionConfig) (defaults : Defaults) : Result :=
  let out := project value (root_ctx (mergeWithDefaults c defaults)) in
  {| Summary := w_value out;
     ExcludedKeys := collapseExcluded (merge_sort String.le (w_excluded out));
     RTruncated := sortTruncated (w_truncated out) |}.
End engine.

Section json_ind.
Variable P : json -> Prop.
Hypothesis HNull : P JNull.
Hypothesis HBool : forall b, P (JBool b).
Hypothesis HNum : forall n, P (JNum n).
Hypothesis HStr : forall s, P (JStr s).
Hypothesis HArr : forall l, Forall P l -> P (JArr l).
Hypothesis HObj : forall fs, Forall (fun kv => P (snd kv)) fs -> P (JObj fs).
Fixpoint json_ind' (v : json) : P v :=
  match v with
  | JNull => HNull
  | JBool b => HBool b
  | JNum n => HNum n
  | JStr s => HStr s
  | JArr l => HArr l ((fix go l : Forall P l := match l with [] => Forall_nil_2 P | x :: l => Forall_cons_2 P x l (json_ind' x) (go l) end) l)
  | JObj fs =>
      HObj fs ((fix go l : Forall (fun kv => P (snd kv)) l :=
        match l with [] => Forall_nil_2 _ | (k, x) :: l => Forall_cons_2 (fun kv => P (snd kv)) (k, x) l (json_ind' x) (go l) end) fs)
  end.
End json_ind.
