(* ===== verification/ProjectionProps.v ===== *)
(** * Projection: exclusion, losslessness, map order, truncation *)
From S2P Require Import Prelude GoStr Utf8 Float64 Config ExcludePath JsonText Jq Content Response Projection.

(** ** Paths inside a value *)
Fixpoint has_path (p : list ExcludeStep) (v : json) : Prop :=
  match p with
  | [] => True
  | st :: p =>
      match v with
      | JObj fs => exists k x, st = field_step k /\ (k, x) ∈ fs /\ has_path p x
      | JArr l => st = array_step /\ exists x, x ∈ l /\ has_path p x
      | _ => False
      end
  end.

Section walk.
Context (StripMarkup : string -> string).

Lemma isExcluded_spec k parent rules : isExcluded k parent rules = true <-> (parent ++ [field_step k]) ∈ rules.
Proof.
  unfold isExcluded. rewrite existsb_exists. split.
  - intros (rule & Hin & H). rewrite !andb_true_iff, Nat.eqb_eq, !bool_decide_eq_true in H. destruct H as [[Hl Hk] Hp].
    assert (rule = parent ++ [field_step k]) as <-; [|by apply list_elem_of_In].
    rewrite <- (take_drop (length parent) rule), <- Hp. f_equal.
    rewrite (drop_S _ _ _ Hk), drop_ge; [done|lia].
  - intros Hin. exists (parent ++ [field_step k]). split; [by apply list_elem_of_In|].
    rewrite !andb_true_iff, Nat.eqb_eq, !bool_decide_eq_true. rewrite length_app, take_app_length, list_lookup_middle; done.
Qed.

(** How many items an array keeps: it depends on its length only. *)
Definition kept (n : nat) (ctx : projCtx) (name : string) : nat :=
  let limit := arrayLimitFor (cfg ctx) name in
  if (0 <? limit) && (limit <? Z.of_nat n) then Z.to_nat limit else n.

Lemma kept_le n ctx name : (kept n ctx name <= n)%nat.
Proof. unfold kept. destruct (_ && _) eqn:E; bool_to_prop; lia. Qed.

Lemma projectNamedArray_eq rec l ctx name :
  projectNamedArray rec l ctx name =
  let out := projectItems rec l (kept (length l) ctx name) 0 ctx in
  Walked (w_value out) (w_excluded out) (w_truncated out ++
    if Nat.ltb (kept (length l) ctx name) (length l)
    then [{| JQPath := FormatPath (path ctx); Chars := 0; Items := Z.of_nat (length l - kept (length l) ctx name) |}] else []).
Proof.
  unfold projectNamedArray, truncateArray. cbv zeta.
  assert (length (if (0 <? arrayLimitFor (cfg ctx) name) && (arrayLimitFor (cfg ctx) name <? Z.of_nat (length l))
    then take (Z.to_nat (arrayLimitFor (cfg ctx) name)) l else l) = kept (length l) ctx name) as ->.
  { unfold kept. cbv zeta. destruct (_ && _) eqn:E; [|done]. apply andb_true_iff in E as [E1 E2].
    apply Z.ltb_lt in E1, E2. rewrite length_take. lia. }
  destruct (Nat.ltb _ _); [done|]. rewrite app_nil_r. by destruct (projectItems _ _ _ _ _).
Qed.

Lemma projectItems_values rec l n i ctx y :
  y ∈ w_value (projectItems rec l n i ctx) -> exists x j, x ∈ l /\ y = w_value (rec x (child ctx (index_seg j) array_step 0) "").
Proof.
  revert n i. induction l as [|x l IH]; intros [|n] i; cbn; try (intros H; by apply not_elem_of_nil in H).
  intros [->|H]%elem_of_cons; [exists x, i; split; [by left|done]|].
  destruct (IH n (S i) H) as (z & j & Hz & Hy). exists z, j. split; [by right|done].
Qed.

Lemma projectMap_values rec fs ctx k y :
  (k, y) ∈ w_value (projectMap rec fs ctx) -> shouldSkipField k ctx = false /\ exists x, (k, x) ∈ fs /\ y = w_value (projectMapValue rec x ctx k).
Proof.
  induction fs as [|[k' x] fs IH]; cbn; [intros H; by apply not_elem_of_nil in H|].
  destruct (shouldSkipField k' ctx) eqn:E; cbn; [intros (? & z & Hz & Hy)%IH; split; [done|]; exists z; split; [by right|done]|].
  intros [[= -> ->]|H]%elem_of_cons; [split; [done|]; exists x; split; [by left|done]|].
  destruct (IH H) as (? & z & Hz & Hy). split; [done|]. exists z. split; [by right|done].
Qed.

(** No excluded path is left in the projected value: [pre] is the path walked so far. *)
Lemma excluded_gone v : forall ctx name pre suffix,
  (exclude (cfg ctx) <> [] -> steps ctx = pre) -> (pre ++ suffix) ∈ exclude (cfg ctx) ->
  suffix <> [] -> (forall l, suffix <> l ++ [array_step]) ->
  ~ has_path suffix (w_value (project_named StripMarkup v ctx name)).
Proof.
  induction v as [|b|n|s|l IH|fs IH] using json_ind'; intros ctx name pre suffix Hsteps Hrule Hne Hlast Hpath;
    (destruct suffix as [|st suffix]; [done|]); cbn [project_named w_value has_path] in Hpath; try done.
  - rewrite projectNamedArray_eq in Hpath. destruct Hpath as [-> (y & Hy & Hpath)].
    apply projectItems_values in Hy as (x & j & Hx & ->). rewrite Forall_forall in IH.
    apply (IH x Hx (child ctx (index_seg j) array_step 0) "" (pre ++ [array_step]) suffix); [|by rewrite <- app_assoc| | |done].
    + intros He. cbn in *. destruct (exclude (cfg ctx)) as [|r rs] eqn:Er; [done|]. cbn. by rewrite Hsteps.
    + intros ->. by apply (Hlast []).
    + intros l' ->. apply (Hlast (array_step :: l')). done.
  - destruct Hpath as (k & y & -> & Hy & Hpath). apply projectMap_values in Hy as (Hskip & x & Hx & ->).
    rewrite Forall_forall in IH. unfold shouldSkipField in Hskip. apply orb_false_iff in Hskip as [Hskip _].
    destruct (decide (suffix = [])) as [->|Hs].
    + rewrite Hsteps in Hskip by (intros He; rewrite He in Hrule; by apply not_elem_of_nil in Hrule).
      rewrite (proj2 (isExcluded_spec _ _ _)) in Hskip; done.
    + unfold projectMapValue in Hpath.
      eapply (IH (k, x) Hx (child ctx k (field_step k) _) k (pre ++ [field_step k]) suffix); [|by rewrite <- app_assoc|done| |exact Hpath].
      * intros He. cbn in *. destruct (exclude (cfg ctx)) as [|r rs] eqn:Er; [done|]. cbn. by rewrite Hsteps.
      * intros l' ->. apply (Hlast (field_step k :: l')). done.
Qed.

(** ** Nothing is lost silently *)
Definition no_strip (c : effectiveConfig) : Prop := stripContent c = false /\ autoStripThreshold c = 0.

Lemma projectString_lossless s ctx name : no_strip (cfg ctx) -> w_truncated (projectString StripMarkup s ctx name) = [] ->
  w_value (projectString StripMarkup s ctx name) = s.
Proof. intros [H1 H2]. unfold projectString. rewrite H1, H2. cbn. by destruct (_ && _). Qed.

Lemma project_lossless v : forall ctx name, no_strip (cfg ctx) ->
  w_excluded (project_named StripMarkup v ctx name) = [] -> w_truncated (project_named StripMarkup v ctx name) = [] ->
  w_value (project_named StripMarkup v ctx name) = v.
Proof.
  induction v as [|b|n|s|l IH|fs IH] using json_ind'; intros ctx name Hns; cbn [project_named w_value w_excluded w_truncated]; try done.
  - intros _ Ht. by rewrite projectString_lossless.
  - rewrite projectNamedArray_eq. cbv zeta. cbn [w_value w_excluded w_truncated]. intros He [Ht Hk]%app_eq_nil. f_equal.
    assert (kept (length l) ctx name = length l) as Hkept.
    { pose proof (kept_le (length l) ctx name). destruct (Nat.ltb_spec (kept (length l) ctx name) (length l)); [done|lia]. }
    rewrite Hkept in *. clear Hk Hkept. revert He Ht. generalize 0%nat.
    induction IH as [|x l Hx Hl IHl]; intros i; cbn; [done|].
    intros [He1 He2]%app_eq_nil [Ht1 Ht2]%app_eq_nil. by rewrite Hx, IHl.
  - intros He Ht. f_equal. induction IH as [|[k x] fs Hx Hfs IHfs]; cbn -[project_named] in *; [done|].
    destruct (shouldSkipField k ctx); cbn -[project_named] in *; [done|]. apply app_eq_nil in He as [He1 He2], Ht as [Ht1 Ht2].
    unfold projectMapValue in *. rewrite Hx by done. by rewrite IHfs.
Qed.

(** ** Map iteration order *)

(** One object of a value visited in another order. *)
Inductive jswap : json -> json -> Prop :=
| JSwap fs gs : fs ≡ₚ gs -> jswap (JObj fs) (JObj gs)
| JSwapField a k x y b : jswap x y -> jswap (JObj (a ++ (k, x) :: b)) (JObj (a ++ (k, y) :: b))
| JSwapItem a x y b : jswap x y -> jswap (JArr (a ++ x :: b)) (JArr (a ++ y :: b)).

Definition same_walk {A} (R : A -> A -> Prop) (x y : walked A) : Prop :=
  R (w_value x) (w_value y) /\ w_excluded x ≡ₚ w_excluded y /\ w_truncated x ≡ₚ w_truncated y.

Lemma same_walk_jobj x y : same_walk Permutation x y -> same_walk jswap (Walked (JObj (w_value x)) (w_excluded x) (w_truncated x))
  (Walked (JObj (w_value y)) (w_excluded y) (w_truncated y)).
Proof. intros (H1 & H2 & H3). split; [by constructor|done]. Qed.

Lemma projectMap_perm rec fs gs ctx : fs ≡ₚ gs -> same_walk Permutation (projectMap rec fs ctx) (projectMap rec gs ctx).
Proof.
  induction 1 as [|[k x] fs gs H IH|[k x] [k' x'] fs|fs gs hs H1 IH1 H2 IH2]; [done| | |].
  - cbn. destruct IH as (IH1 & IH2 & IH3). destruct (shouldSkipField k ctx); split_and!; cbn; [done|by rewrite IH2|done|by rewrite IH1|by rewrite IH2|by rewrite IH3].
  - cbn. destruct (shouldSkipField k ctx), (shouldSkipField k' ctx); split_and!; cbn; try done; try by apply Permutation_swap.
    + symmetry. apply Permutation_middle.
    + apply Permutation_middle.
    + rewrite !app_assoc. apply Permutation_app_tail, Permutation_app_comm.
    + rewrite !app_assoc. apply Permutation_app_tail, Permutation_app_comm.
  - destruct IH1 as (? & ? & ?), IH2 as (? & ? & ?). split_and!; etransitivity; eauto.
Qed.

(** Values of one another's order in a field or item: [rtc] since a dropped field changes nothing. *)
Definition jsame : json -> json -> Prop := rtc jswap.

Lemma jsame_field a k x y b : jsame x y -> jsame (JObj (a ++ (k, x) :: b)) (JObj (a ++ (k, y) :: b)).
Proof. induction 1; [apply rtc_refl|]. eapply rtc_l; [by apply JSwapField|done]. Qed.
Lemma jsame_item a x y b : jsame x y -> jsame (JArr (a ++ x :: b)) (JArr (a ++ y :: b)).
Proof. induction 1; [apply rtc_refl|]. eapply rtc_l; [by apply JSwapItem|done]. Qed.

Lemma projectMap_app rec a b ctx : projectMap rec (a ++ b) ctx =
  Walked (w_value (projectMap rec a ctx) ++ w_value (projectMap rec b ctx))
    (w_excluded (projectMap rec a ctx) ++ w_excluded (projectMap rec b ctx))
    (w_truncated (projectMap rec a ctx) ++ w_truncated (projectMap rec b ctx)).
Proof.
  induction a as [|[k x] a IH]; cbn; [by destruct (projectMap rec b ctx)|]. rewrite IH.
  destruct (shouldSkipField k ctx); cbn; by rewrite <- ?app_assoc.
Qed.

Lemma projectItems_swap rec a x y b n i ctx :
  (forall j, same_walk jsame (rec x (child ctx (index_seg j) array_step 0) "") (rec y (child ctx (index_seg j) array_step 0) "")) ->
  same_walk (fun l m => jsame (JArr l) (JArr m)) (projectItems rec (a ++ x :: b) n i ctx) (projectItems rec (a ++ y :: b) n i ctx).
Proof.
  intros H. revert n i. induction a as [|z a IH]; intros [|n] i; cbn; try (split; [apply rtc_refl|done]).
  - destruct (H i) as (H1 & H2 & H3). split_and!; cbn; [by apply (jsame_item [])|by rewrite H2|by rewrite H3].
  - destruct (IH n (S i)) as (H1 & H2 & H3). split_and!; cbn; [|by rewrite H2|by rewrite H3]. clear -H1.
    assert (forall u v, jsame u v -> forall l, u = JArr l -> exists m, v = JArr m /\ forall z, jsame (JArr (z :: l)) (JArr (z :: m))) as Hgen.
    { clear. induction 1 as [u|u v w Hs _ IH]; intros l ->; [exists l; split; [done|]; intros; apply rtc_refl|].
      inversion Hs; subst. destruct (IH _ eq_refl) as (m & -> & Hm). exists m. split; [done|]. intros z.
      eapply rtc_l; [|apply Hm]. by apply (JSwapItem (z :: a)). }
    destruct (Hgen _ _ H1 _ eq_refl) as (m & Hm & Hz). injection Hm as <-. apply Hz.
Qed.

Lemma project_swap x y : jswap x y -> forall ctx name,
  same_walk jsame (project_named StripMarkup x ctx name) (project_named StripMarkup y ctx name).
Proof.
  induction 1 as [fs gs H|a k x y b H IH|a x y b H IH]; intros ctx name; cbn [project_named].
  - destruct (projectMap_perm (project_named StripMarkup) fs gs ctx H) as (H1 & H2 & H3).
    split; [apply rtc_once; by constructor|done].
  - rewrite !projectMap_app. cbn [projectMap]. assert (match x with JArr _ | JObj _ => 1%nat | _ => 0%nat end = match y with JArr _ | JObj _ => 1%nat | _ => 0%nat end) as Hd
      by by inversion H.
    destruct (shouldSkipField k ctx); cbn; [split; [apply rtc_refl|done]|]. unfold projectMapValue. rewrite Hd.
    destruct (IH (child ctx k (field_step k) match y with JArr _ | JObj _ => 1%nat | _ => 0%nat end) k) as (H1 & H2 & H3).
    split_and!; cbn; [by apply jsame_field|by rewrite H2|by rewrite H3].
  - rewrite !projectNamedArray_eq, !length_app. cbv zeta. cbn [length w_value w_excluded w_truncated].
    destruct (projectItems_swap (project_named StripMarkup) a x y b (kept (length a + S (length b)) ctx name) 0 ctx) as (H1 & H2 & H3);
      [intros j; apply IH|].
    split_and!; cbn [w_value w_excluded w_truncated]; [done|done|by rewrite H3].
Qed.

Lemma project_same x y : jsame x y -> forall ctx name,
  same_walk jsame (project_named StripMarkup x ctx name) (project_named StripMarkup y ctx name).
Proof.
  induction 1 as [x|x y z Hs _ IH]; intros ctx name; [split; [apply rtc_refl|done]|].
  destruct (project_swap x y Hs ctx name) as (H1 & H2 & H3), (IH ctx name) as (H4 & H5 & H6).
  split_and!; etransitivity; eauto.
Qed.
End walk.

(** ** Truncation *)
Lemma rune_offset_spec n : forall i rest, valid_utf8 rest = true ->
  exists p q, rest = p +:+ q /\ valid_utf8 p = true /\ valid_utf8 q = true /\
    rune_offset_from n i rest = (i + String.length p)%nat /\ (rune_count p = Z.of_nat n \/ q = "") /\ rune_count p <= Z.of_nat n.
Proof.
  induction n as [|n IH]; intros i rest Hv.
  - exists "", rest. split_and!; [done|done|done|cbn; lia|by left|done].
  - destruct (valid_inv rest Hv) as [->|(r & k & E & D & Hv')].
    + exists "", "". split_and!; [done..|cbn; lia|by right|unfold rune_count; cbn; lia].
    + cbn [rune_offset_from]. rewrite E. cbn [snd]. pose proof (decoded_length _ _ _ D) as Hl.
      assert (valid_utf8 (str_take k rest) = true /\ rune_count (str_take k rest) = 1) as [Hvt Hct].
      { pose proof (decoded_take _ _ _ D) as De. assert (str_drop k (str_take k rest) = "") as Hd.
        { apply str_drop_all. rewrite str_length_take. lia. }
        split; [eapply valid_decoded; [exact De|by rewrite Hd]|].
        unfold rune_count. rewrite (runes_decoded _ r k) by (done || by apply decoded_decode). by rewrite Hd. }
      destruct (String.eqb_spec (str_drop k rest) "") as [Hd|Hd].
      * exists rest, "". rewrite str_app_nil_r. pose proof (str_take_drop k rest) as Htd. rewrite Hd, str_app_nil_r in Htd.
        rewrite Htd in Hct. split_and!; [done..|by right|lia].
      * destruct (IH (i + k)%nat (str_drop k rest) Hv') as (p & q & Hpq & Hp & Hq & Ho & Hc & Hle).
        exists (str_take k rest +:+ p), q. rewrite Ho, rune_count_app, Hct, str_length_app, str_length_take by done.
        split_and!; [by rewrite <- str_app_assoc, <- Hpq, str_take_drop|by apply valid_app_runes|done|lia| |lia].
        destruct Hc; [left; lia|by right].
Qed.

Lemma scanBackward_spec text limit window m i : scanBackward text limit window m = Some i ->
  (0 < i <= limit)%nat /\ exists c, String.get i text = Some c /\ m c = true.
Proof.
  revert limit. induction window as [|w IH]; intros [|l]; cbn; try done.
  destruct (String.get (S l) text) as [c|] eqn:E; [|done]. destruct (m c) eqn:Em.
  - intros [= <-]. split; [lia|]. eauto.
  - intros H. destruct (IH l H) as [Hi Hc]. split; [lia|done].
Qed.

Lemma get_split s i c : String.get i s = Some c -> s = str_take i s +:+ String c (str_drop (S i) s) /\
  str_take (S i) s = str_take i s +:+ String c "" /\ (i < String.length s)%nat.
Proof.
  revert i. induction s as [|d s IH]; intros [|i]; cbn [String.get]; try done.
  - intros [= ->]. split; [done|]. split; [by destruct s|simpl; lia].
  - intros H. destruct (IH i H) as (H1 & H2 & H3).
    change (str_take (S (S i)) (String d s)) with (String d (str_take (S i) s)).
    change (str_take (S i) (String d s)) with (String d (str_take i s)).
    change (str_drop (S (S i)) (String d s)) with (str_drop (S i) s).
    split; [by rewrite H1 at 1|]. split; [by rewrite H2|simpl; lia].
Qed.

Lemma str_take_prefix a b k : (k <= String.length a)%nat -> str_take k (a +:+ b) = str_take k a.
Proof.
  revert a. induction k as [|k IH]; intros [|c a] H; try done; [simpl in H; lia|].
  cbn [String.append str_take]. rewrite IH; [done|simpl in H; lia].
Qed.

Lemma rune_count_nonneg s : 0 <= rune_count s.
Proof. unfold rune_count. lia. Qed.

(** A cut at an ASCII byte at or before the limit. *)
Lemma cut_bound p q i c : valid_utf8 p = true -> valid_utf8 q = true -> String.get i (p +:+ q) = Some c -> bz c < 128 ->
  (i <= String.length p)%nat ->
  valid_utf8 (str_take i (p +:+ q)) = true /\ rune_count (str_take i (p +:+ q)) <= rune_count p /\
  ((i < String.length p)%nat -> rune_count (str_take i (p +:+ q)) + 1 <= rune_count p).
Proof.
  intros Hp Hq Hget Hc Hi. destruct (get_split _ _ _ Hget) as (Hs & _ & _).
  destruct (decide (i = String.length p)) as [->|Hne].
  - rewrite str_take_app_length. split_and!; [done|lia|lia].
  - rewrite str_take_prefix by lia. assert (String.get i p = Some c) as Hgp.
    { clear -Hget Hi Hne. revert i Hget Hi Hne. induction p as [|d p IH]; intros i Hg Hi Hne; simpl in *; [lia|].
      destruct i as [|i]; [done|]. apply IH; [done|lia|lia]. }
    destruct (get_split _ _ _ Hgp) as (Hsp & _ & _). assert (Hp' := Hp). rewrite Hsp in Hp'.
    apply valid_split in Hp' as [Ha Hb]; [|done].
    assert (rune_count p = rune_count (str_take i p) + (1 + rune_count (str_drop (S i) p))) as Hcnt.
    { rewrite Hsp at 1. destruct (valid_ascii c Hc) as [Hv1 Hc1]. change (String c ?x) with (String c "" +:+ x).
      rewrite !rune_count_app, Hc1; [lia|done|done|done|]. by apply valid_app_runes. }
    pose proof (rune_count_nonneg (str_drop (S i) p)). split_and!; [done|lia|lia].
Qed.

Lemma cut_after_bound p q i c : valid_utf8 p = true -> valid_utf8 q = true -> String.get i (p +:+ q) = Some c -> bz c < 128 ->
  (i <= String.length p)%nat ->
  valid_utf8 (str_take (S i) (p +:+ q)) = true /\ rune_count (str_take (S i) (p +:+ q)) <= rune_count p + 1 /\
  (rune_count (str_take (S i) (p +:+ q)) = rune_count p + 1 -> str_take (S i) (p +:+ q) = p +:+ String c "").
Proof.
  intros Hp Hq Hget Hc Hi. destruct (cut_bound p q i c Hp Hq Hget Hc Hi) as (Hv & Hle & Hlt).
  destruct (get_split _ _ _ Hget) as (_ & -> & _). destruct (valid_ascii c Hc) as [Hv1 Hc1].
  rewrite rune_count_app, Hc1 by done. split_and!; [by apply valid_app_runes|lia|]. intros He.
  destruct (decide (i = String.length p)) as [->|]; [by rewrite str_take_app_length|lia].
Qed.

(** ** Properties *)

(** C4: A projected result holds no field that an exclusion rule names, at any depth and through arrays, whatever the other limits. *)
Theorem excluded_paths_absent StripMarkup value cfg d rule p :
  rule ∈ Exclude cfg -> ParseExcludePath rule = Ok p -> ~ has_path p (Summary (Apply StripMarkup value (Some cfg) d)).
Proof.
  intros Hrule Hp. cbn. apply (excluded_gone StripMarkup value (root_ctx (applyProjectionConfig (effectiveFromDefaults d) cfg)) "" [] p).
  - done.
  - cbn. unfold prepareExclusions. apply list_elem_of_omap. exists rule. by rewrite Hp.
  - intros ->. unfold ParseExcludePath in Hp. apply rbind_Ok in Hp as (s & _ & Hp). destruct (last s) as [st|] eqn:E; [|done].
    destruct (Array st); [done|]. injection Hp as ->. done.
  - intros l ->. unfold ParseExcludePath in Hp. apply rbind_Ok in Hp as (s & _ & Hp). destruct (last s) as [st|] eqn:E; [|done].
    destruct (Array st) eqn:Ea; [done|]. injection Hp as ->. rewrite last_snoc in E. by injection E as <-.
Qed.

Definition sample_cfg : ProjectionConfig :=
  {| Alias := ""; IncludeOnly := []; Exclude := ["items[].secret"]; ArrayLimits := {["default" := 2]}; StringLimits := ∅;
     StripMarkupOpt := false; Format := "" |}.
Definition sample_defaults : Defaults := {| StringLimit := 4; ContentFields := []; AutoStripThreshold := 0 |}.
Definition sample_value : json :=
  JObj [("items", JArr [JObj [("id", JNum "1"); ("secret", JStr "x")]; JNull; JNull]); ("note", JStr "aa bbbb")].

Lemma excluded_paths_absent_witness :
  Summary (Apply id sample_value (Some sample_cfg) sample_defaults) =
    JObj [("items", JArr [JObj [("id", JNum "1")]; JNull]); ("note", JStr "aa")] /\
  ~ has_path [field_step "items"; array_step; field_step "secret"] (Summary (Apply id sample_value (Some sample_cfg) sample_defaults)).
Proof.
  split; [vm_compute; reflexivity|].
  apply (excluded_paths_absent id sample_value sample_cfg sample_defaults "items[].secret"); [by left|vm_compute; reflexivity].
Defined.

(** Nothing is lost silently: when markup stripping is off and the result reports no excluded key and no truncation, the projected value is the value itself. *)
Theorem projection_lossless StripMarkup value c d :
  no_strip (mergeWithDefaults c d) ->
  ExcludedKeys (Apply StripMarkup value c d) = [] -> RTruncated (Apply StripMarkup value c d) = [] ->
  Summary (Apply StripMarkup value c d) = value.
Proof.
  intros Hns He Ht. unfold Apply in He, Ht |- *. cbn [Summary ExcludedKeys RTruncated] in *. apply project_lossless; [done| |].
  - destruct (w_excluded _) as [|x l] eqn:E; [done|]. exfalso.  unfold collapseExcluded in He.
    assert (collapse_keys ∅ (merge_sort String.le (x :: l)) = []) as Hk.
    { apply (f_equal length) in He. rewrite (Permutation_length (merge_sort_Permutation _ _)) in He. by destruct (collapse_keys _ _). }
    destruct (merge_sort String.le (x :: l)) as [|y m] eqn:Em.
    + pose proof (merge_sort_Permutation String.le (x :: l)) as Hp. rewrite Em in Hp. by apply Permutation_nil_cons in Hp.
    + cbn in Hk. by case_decide.
  - destruct (w_truncated _) as [|x l] eqn:E; [done|]. exfalso.  unfold sortTruncated in Ht.
    pose proof (merge_sort_Permutation (fun a b => String.le (JQPath a) (JQPath b)) (x :: l)) as Hp. rewrite Ht in Hp.
    by apply Permutation_nil_cons in Hp.
Qed.

Lemma projection_lossless_witness :
  let v := JObj [("a", JStr "abc"); ("b", JArr [JNum "1"; JBool true])] in
  Summary (Apply id v (Some sample_cfg) sample_defaults) = v.
Proof. apply (projection_lossless id); [split; reflexivity|vm_compute; reflexivity..]. Defined.

(** The order in which Go visits a map does not show in the result: two orders of the same value give the same excluded keys, the same truncations and the same summary up to the order of object members. *)
Theorem projection_order_independent StripMarkup x y c d :
  jsame x y ->
  jsame (Summary (Apply StripMarkup x c d)) (Summary (Apply StripMarkup y c d)) /\
  ExcludedKeys (Apply StripMarkup x c d) = ExcludedKeys (Apply StripMarkup y c d) /\
  RTruncated (Apply StripMarkup x c d) ≡ₚ RTruncated (Apply StripMarkup y c d).
Proof.
  intros H. destruct (project_same StripMarkup x y H (root_ctx (mergeWithDefaults c d)) "") as (H1 & H2 & H3).
  split_and!; cbn; [done| |unfold sortTruncated; by rewrite !merge_sort_Permutation].
  unfold project. f_equal. apply (Sorted_unique String.le); [apply (Sorted_merge_sort String.le)..|]. by rewrite !merge_sort_Permutation.
Qed.

Lemma projection_order_independent_witness :
  ExcludedKeys (Apply id (JObj [("a", JStr "xxxxxx"); ("b", JNull)]) (Some sample_cfg) sample_defaults) =
  ExcludedKeys (Apply id (JObj [("b", JNull); ("a", JStr "xxxxxx")]) (Some sample_cfg) sample_defaults).
Proof.
  apply (projection_order_independent id). apply rtc_once, JSwap, Permutation_swap.
Defined.

(** Cutting an over-long well-formed string gives a non-empty well-formed prefix of at most one rune more than the limit; that extra rune, when there is one, is the sentence end the cut was made at. *)
Theorem truncateAtBoundary_spec s limit :
  valid_utf8 s = true -> 0 < limit < rune_count s ->
  let t := truncateAtBoundary s limit in
  (exists u, s = t +:+ u) /\ t <> "" /\ valid_utf8 t = true /\ rune_count t <= limit + 1 /\
  (rune_count t = limit + 1 -> exists t', rune_count t' = limit /\ (t = t' +:+ "." \/ t = t' +:+ newline)).
Proof.
  intros Hv Hlim. unfold truncateAtBoundary, runeOffset.
  destruct (rune_offset_spec (Z.to_nat limit) 0 s Hv) as (p & q & -> & Hp & Hq & -> & Hcnt & Hle). cbn [Nat.add].
  rewrite Z2Nat.id in Hcnt, Hle by lia.
  assert (q <> "") as Hqne by (intros ->; rewrite str_app_nil_r in Hlim; lia). destruct Hcnt as [Hcnt|]; [|done].
  assert (p <> "") as Hpne by (intros ->; unfold rune_count in Hcnt; cbn in Hcnt; lia).
  rewrite (proj2 (Nat.leb_gt _ _)) by (rewrite str_length_app; destruct q; simpl; [done|lia]).
  destruct (scanBackward (p +:+ q) (String.length p) 100 _) as [i|] eqn:E1;
    [|destruct (scanBackward (p +:+ q) (String.length p) 50 _) as [i|] eqn:E2].
  - apply scanBackward_spec in E1 as (Hi & c & Hget & Hm).
    assert (c = "."%char \/ c = az 10) as Hc by (apply orb_true_iff in Hm as [H%Ascii.eqb_eq|H%Ascii.eqb_eq]; auto).
    assert (bz c < 128) as Hlt by (destruct Hc as [->| ->]; by vm_compute).
    destruct (cut_after_bound p q i c Hp Hq Hget Hlt ltac:(lia)) as (H1 & H2 & H3).
    split_and!; [eexists; symmetry; apply str_take_drop| |done|lia|].
    + intros He. apply (f_equal String.length) in He. rewrite str_length_take, str_length_app in He. simpl in He.
      destruct p; simpl in *; [done|lia].
    + intros He. rewrite Hcnt in H3. exists p. split; [done|]. rewrite (H3 He). destruct Hc as [->| ->]; [by left|by right].
  - apply scanBackward_spec in E2 as (Hi & c & Hget & Hm). apply Ascii.eqb_eq in Hm. subst c.
    destruct (cut_bound p q i " " Hp Hq Hget ltac:(by vm_compute) ltac:(lia)) as (H1 & H2 & _).
    split_and!; [eexists; symmetry; apply str_take_drop| |done|lia|intros; lia].
    intros He. apply (f_equal String.length) in He. rewrite str_length_take, str_length_app in He. simpl in He.
    destruct p; simpl in *; [done|lia].
  - rewrite str_take_app_length. split_and!; [by eexists|done|done|lia|intros; lia].
Qed.

Lemma truncateAtBoundary_spec_witness :
  truncateAtBoundary "aaaa. tail" 4 = "aaaa." /\ rune_count (truncateAtBoundary "aaaa. tail" 4) <= 4 + 1.
Proof. split; [vm_compute; reflexivity|]. apply (truncateAtBoundary_spec "aaaa. tail" 4); by vm_compute. Defined.

(** A string one rune over the limit that ends a sentence there is kept whole, and reported as truncated by zero runes. *)
Example sentence_end_over_limit :
  projectString id "aaaa." (root_ctx (effectiveFromDefaults sample_defaults)) "" =
  Walked "aaaa." [] [{| JQPath := "."; Chars := 0; Items := 0 |}].
Proof. vm_compute. reflexivity. Qed.
