(* ===== verification/JsonToken.v ===== *)
(** * [json.Decoder]: the token reader of [encoding/json]

    String literals are decoded as [unquote] does it: an escape becomes its rune, a
    lone surrogate and an ill-formed sequence become U+FFFD.  The decoder is a state
    machine over the rest of the input; a number is kept as its literal (UseNumber). *)
From S2P Require Import Prelude GoStr Utf8 JsonText.

(** ** String literals *)
Definition hex_digit_value (c : ascii) : Z :=
  if is_digit c then bz c - 48 else if in_range 97 102 c then bz c - 87 else bz c - 55.

Definition getu4 (s : string) : option Z :=
  match s with
  | String b (String u (String c1 (String c2 (String c3 (String c4 _))))) =>
      if Ascii.eqb b backslash && Ascii.eqb u "u" && (is_hex c1 && is_hex c2 && is_hex c3 && is_hex c4)
      then Some (((hex_digit_value c1 * 16 + hex_digit_value c2) * 16 + hex_digit_value c3) * 16 + hex_digit_value c4)
      else None
  | _ => None
  end.

Definition is_surrogate (r : Z) : bool := (55296 <=? r) && (r <? 57344).
Definition utf16_decode (r1 r2 : Z) : option Z :=
  if (55296 <=? r1) && (r1 <? 56320) && ((56320 <=? r2) && (r2 <? 57344))
  then Some ((r1 - 55296) * 1024 + (r2 - 56320) + 65536) else None.

(** The rune of a [\u] escape at the head of [s], and the bytes it takes. *)
Definition unicode_rune (s : string) : option (Z * nat) :=
  match getu4 s with
  | None => None
  | Some r =>
      if is_surrogate r then
        match getu4 (str_drop 6 s) with
        | Some r2 => match utf16_decode r r2 with Some r => Some (r, 12%nat) | None => Some (RuneError, 6%nat) end
        | None => Some (RuneError, 6%nat)
        end
      else Some (r, 6%nat)
  end.

Definition simple_escape (c : ascii) : option ascii :=
  if byte_in c (String dquote (String backslash "/'")) then Some c
  else if Ascii.eqb c "b" then Some (az 8)
  else if Ascii.eqb c "f" then Some (az 12)
  else if Ascii.eqb c "n" then Some (az 10)
  else if Ascii.eqb c "r" then Some (az 13)
  else if Ascii.eqb c "t" then Some (az 9)
  else None.

Definition prepend (a : string) (o : option string) : option string := option_map (fun b => a +:+ b) o.

(** The contents of a literal, without its quotes; [skip] counts the bytes of the current rune still to pass. *)
Fixpoint unquote_from (skip : nat) (s : string) : option string :=
  match s with
  | "" => Some ""
  | String c s' =>
      match skip with
      | S k => unquote_from k s'
      | O =>
          if Ascii.eqb c backslash then
            match unicode_rune s with
            | Some (r, n) => prepend (encode_rune r) (unquote_from (pred n) s')
            | None =>
                match s' with
                | String e _ =>
                    match simple_escape e with
                    | Some d => prepend (String d "") (unquote_from 1 s')
                    | None => None
                    end
                | "" => None
                end
            end
          else if Ascii.eqb c dquote || (bz c <? 32) then None
          else let rn := decode_rune s in prepend (encode_rune (fst rn)) (unquote_from (pred (snd rn)) s')
      end
  end.
Definition unquote_literal (s : string) : option string := unquote_from 0 s.

(** ** The decoder *)
Inductive tokenState : Type :=
| tokenTopValue | tokenArrayStart | tokenArrayValue | tokenArrayComma
| tokenObjectStart | tokenObjectKey | tokenObjectColon | tokenObjectValue | tokenObjectComma.

Inductive token : Type :=
| JDelim (c : ascii) | JNull | JBool (b : bool) | JNumber (n : string) | JString (s : string).

Record Decoder : Type := { rest : string; state : tokenState; stack : list tokenState }.

Definition NewDecoder (raw : string) : Decoder := {| rest := raw; state := tokenTopValue; stack := [] |}.

Definition tokenValueAllowed (st : tokenState) : bool :=
  match st with tokenTopValue | tokenArrayStart | tokenArrayValue | tokenObjectValue => true | _ => false end.
Definition tokenValueEnd (st : tokenState) : tokenState :=
  match st with
  | tokenArrayStart | tokenArrayValue => tokenArrayComma
  | tokenObjectValue => tokenObjectComma
  | st => st
  end.

Definition More (d : Decoder) : bool :=
  match skip_ws (rest d) with
  | "" => false
  | String c _ => negb (Ascii.eqb c "]") && negb (Ascii.eqb c "}")
  end.

Inductive token_answer : Type :=
| TokenOk (t : token) (d : Decoder)
| TokenEOF
| TokenBad.

(** [dec.Decode] of a scalar at the head of [s]. *)
Definition decode_scalar (s : string) : option (token * string) :=
  match scan_scalar s with
  | None => None
  | Some r =>
      let lexeme := str_take (String.length s - String.length r) s in
      match lexeme with
      | "" => None
      | String c l =>
          if Ascii.eqb c dquote then
            match unquote_literal (str_take (pred (String.length l)) l) with
            | Some u => Some (JString u, r)
            | None => None
            end
          else if Ascii.eqb c "t" then Some (JBool true, r)
          else if Ascii.eqb c "f" then Some (JBool false, r)
          else if Ascii.eqb c "n" then Some (JNull, r)
          else Some (JNumber lexeme, r)
      end
  end.

Definition open_state (c : ascii) : option tokenState :=
  if Ascii.eqb c "[" then Some tokenArrayStart else if Ascii.eqb c "{" then Some tokenObjectStart else None.
Definition closes (c : ascii) (st : tokenState) : bool :=
  match st with
  | tokenArrayStart | tokenArrayComma => Ascii.eqb c "]"
  | tokenObjectStart | tokenObjectComma => Ascii.eqb c "}"
  | _ => false
  end.
(** The state after a comma or a colon that is allowed. *)
Definition punctuate (c : ascii) (st : tokenState) : option tokenState :=
  match st with
  | tokenObjectColon => if Ascii.eqb c ":" then Some tokenObjectValue else None
  | tokenArrayComma => if Ascii.eqb c "," then Some tokenArrayValue else None
  | tokenObjectComma => if Ascii.eqb c "," then Some tokenObjectKey else None
  | _ => None
  end.
Definition key_allowed (st : tokenState) : bool :=
  match st with tokenObjectStart | tokenObjectKey => true | _ => false end.

(** [Token] once punctuation has been passed: [s] starts with [c], not a space, comma or colon. *)
Definition token_at (c : ascii) (s : string) (st : tokenState) (stk : list tokenState) : token_answer :=
  match open_state c with
  | Some st' =>
      if tokenValueAllowed st then TokenOk (JDelim c) {| rest := str_drop 1 s; state := st'; stack := st :: stk |} else TokenBad
  | None =>
      if Ascii.eqb c "]" || Ascii.eqb c "}" then
        if closes c st then
          match stk with
          | st' :: stk => TokenOk (JDelim c) {| rest := str_drop 1 s; state := tokenValueEnd st'; stack := stk |}
          | [] => TokenBad
          end
        else TokenBad
      else if Ascii.eqb c dquote && key_allowed st then
        match decode_scalar s with
        | Some (t, r) => TokenOk t {| rest := r; state := tokenObjectColon; stack := stk |}
        | None => TokenBad
        end
      else if tokenValueAllowed st then
        match decode_scalar s with
        | Some (t, r) => TokenOk t {| rest := r; state := tokenValueEnd st; stack := stk |}
        | None => TokenBad
        end
      else TokenBad
  end.

(** The loop of [Token]: after an allowed comma or colon no other one is allowed, so two rounds are enough. *)
Definition Token (d : Decoder) : token_answer :=
  match skip_ws (rest d) with
  | "" => TokenEOF
  | String c s' as s =>
      if Ascii.eqb c "," || Ascii.eqb c ":" then
        match punctuate c (state d) with
        | None => TokenBad
        | Some st =>
            match skip_ws s' with
            | "" => TokenEOF
            | String c' _ as s2 => if Ascii.eqb c' "," || Ascii.eqb c' ":" then TokenBad else token_at c' s2 st (stack d)
            end
        end
      else token_at c s (state d) (stack d)
  end.
