(* ===== verification/GoError.v ===== *)
(** * Errors

    An error with what [errors.Is] and [errors.As] find in it: the [Unwrap] tree, in order.
    The named errors are the sentinels and the error types the server tells apart. *)
From S2P Require Import Prelude GoStr.

(** [UnsetEnvError] of package config. *)
Record unset_env : Type := { Field : string; Names : list string }.

Definition unset_env_text (e : unset_env) : string :=
  let verb := if Nat.ltb 1 (List.length (Names e)) then "aren't" else "isn't" in
  Field e +:+ ": " +:+ join ", " (Names e) +:+ " " +:+ verb +:+ " set where mini runs".

Inductive go_error : Type :=
| ErrReauthRequired
| ErrAgentCommandNotAllowed
| UnsetEnvError (e : option unset_env) (* [None]: a nil pointer *)
| DeadlineExceeded
| Canceled
| RPCError (code : Z) (message : string)
| ErrInputRequired
| ErrToolReturnedError
| OtherError (msg : string)
| ConnError (err : go_error) (* connError of package server *)
| ConnectionError (err : go_error) (* transport.ConnectionError *)
| Wrapped (msg : string) (inner : list go_error).

Fixpoint unwrap_tree (e : go_error) : list go_error :=
  match e with
  | ConnError e' | ConnectionError e' => e :: unwrap_tree e'
  | Wrapped _ inner => e :: concat (map unwrap_tree inner)
  | _ => [e]
  end.

Definition is_reauth (e : go_error) : bool :=
  existsb (fun e => match e with ErrReauthRequired => true | _ => false end) (unwrap_tree e).
Definition is_not_allowed (e : go_error) : bool :=
  existsb (fun e => match e with ErrAgentCommandNotAllowed => true | _ => false end) (unwrap_tree e).
Fixpoint first_unset (l : list go_error) : option (option unset_env) :=
  match l with
  | [] => None
  | UnsetEnvError e :: _ => Some e
  | _ :: l => first_unset l
  end.

(** [errors.Is] with one of the two errors of an ended context. *)
Definition is_context_error (e : go_error) : bool :=
  existsb (fun e => match e with DeadlineExceeded | Canceled => true | _ => false end) (unwrap_tree e).
Definition is_canceled (e : go_error) : bool :=
  existsb (fun e => match e with Canceled => true | _ => false end) (unwrap_tree e).
Definition is_input_required (e : go_error) : bool :=
  existsb (fun e => match e with ErrInputRequired => true | _ => false end) (unwrap_tree e).
(** [errors.As] with a [*RPCError], a [connError] and a [*ConnectionError]. *)
Definition is_rpc_error (e : go_error) : bool :=
  existsb (fun e => match e with RPCError _ _ => true | _ => false end) (unwrap_tree e).
Definition isConnError (e : go_error) : bool :=
  existsb (fun e => match e with ConnError _ => true | _ => false end) (unwrap_tree e).
Definition IsConnectionError (e : go_error) : bool :=
  existsb (fun e => match e with ConnectionError _ => true | _ => false end) (unwrap_tree e).

(** [Error()]; the nil pointer would panic. *)
Fixpoint error_text (e : go_error) : string :=
  match e with
  | ErrReauthRequired => "re-authorization required"
  | ErrAgentCommandNotAllowed => "runs a command an agent added"
  | UnsetEnvError e => match e with Some e => unset_env_text e | None => "" end
  | DeadlineExceeded => "context deadline exceeded"
  | Canceled => "context canceled"
  | RPCError _ m => m
  | ErrInputRequired => "upstream asked for user input"
  | ErrToolReturnedError => "tool returned error"
  | OtherError m | Wrapped m _ => m
  | ConnError e | ConnectionError e => error_text e
  end.
