(* ===== verification/Startup.v ===== *)
(** * Start of the upstream servers: what agents are told (src/internal/server/startup_state.go, startup_errors.go, startup_wait.go)

    The tracker and the parts of [Server] that an install, a failure, a removal and a
    lookup touch.  Times are nanoseconds since the epoch; the channel that
    [broadcastChange] closes and renews is its number.  The zero [time.Time] is year 1. *)
From S2P Require Import Prelude GoStr Regex Config Registry Response JsonText GoError.

Definition second : Z := 1000000000.
Definition startupHold : Z := 10 * second.
Definition zero_time : Z := -62135596800 * second.

Inductive startupPhase : Type := phaseConnected | phaseConnecting | phaseDelayed | phaseFailed.

Inductive startupFailure : Type := needsAuthStatus | needsEnvStatus (envVars : list string) | notTrustedStatus.
Inductive startupStatus : Type := connectedStatus | connectingStatus | delayedStatus | failedStatus (f : startupFailure).

Definition logMessage (f : startupFailure) : string :=
  match f with
  | needsAuthStatus => "upstream needs authorization, not retrying"
  | needsEnvStatus _ => "upstream needs an environment variable mini didn't start with, not retrying"
  | notTrustedStatus => "upstream not allowed to start, not retrying"
  end.

(** ** The tracker *)
Record startupTracker : Type := {
  startedAt : gmap string Z;
  toolsReady : gmap string bool;
  failures : gmap string startupFailure;
  changed : nat
}.

Definition newStartupTracker : startupTracker := {| startedAt := ∅; toolsReady := ∅; failures := ∅; changed := 0 |}.

Definition broadcastChange (t : startupTracker) : startupTracker :=
  {| startedAt := startedAt t; toolsReady := toolsReady t; failures := failures t; changed := S (changed t) |}.
Definition open (t : startupTracker) (name : string) (now : Z) : startupTracker :=
  broadcastChange {| startedAt := <[name := now]> (startedAt t); toolsReady := toolsReady t; failures := failures t; changed := changed t |}.
Definition markReady (t : startupTracker) (name : string) : startupTracker :=
  broadcastChange {| startedAt := startedAt t; toolsReady := <[name := true]> (toolsReady t); failures := failures t; changed := changed t |}.
Definition recordFailure (t : startupTracker) (name : string) (failure : startupFailure) : startupTracker :=
  broadcastChange {| startedAt := startedAt t; toolsReady := toolsReady t; failures := <[name := failure]> (failures t); changed := changed t |}.
Definition forget (t : startupTracker) (name : string) : startupTracker :=
  broadcastChange {| startedAt := delete name (startedAt t); toolsReady := delete name (toolsReady t);
                     failures := delete name (failures t); changed := changed t |}.

Definition ready (t : startupTracker) (name : string) : bool := default false (toolsReady t !! name).
Definition windowEnd (t : startupTracker) (name : string) : Z := default zero_time (startedAt t !! name) + startupHold.

Definition state (t : startupTracker) (name : string) (now : Z) : startupStatus :=
  if ready t name then connectedStatus
  else match failures t !! name with
       | Some failure => failedStatus failure
       | None => if now <? windowEnd t name then connectingStatus else delayedStatus
       end.

Definition phase (st : startupStatus) : startupPhase :=
  match st with
  | connectedStatus => phaseConnected
  | connectingStatus => phaseConnecting
  | delayedStatus => phaseDelayed
  | failedStatus _ => phaseFailed
  end.

(** ** Which connection errors end the retries *)
Definition terminalStartupFailure (err : go_error) : option startupFailure :=
  if is_reauth err then Some needsAuthStatus
  else if is_not_allowed err then Some notTrustedStatus
  else match first_unset (unwrap_tree err) with
       | Some (Some e) => Some (needsEnvStatus (Names e))
       | _ => None
       end.

(** ** What is reported *)
(** [%q] of a server name: the loader accepts names of letters, digits, underscores and hyphens, none of which it escapes. *)
Definition quoted (name : string) : string := String dquote (name +:+ String dquote "").
Definition status_command : string := quoted "mini status".

Definition envVarList (names : list string) : string :=
  match names with
  | [name] => "the environment variable " +:+ name
  | _ => "the environment variables " +:+ join ", " names
  end.

Definition failure_reason (f : startupFailure) (name : string) : string :=
  match f with
  | needsEnvStatus envVars =>
      "server " +:+ quoted name +:+ " needs " +:+ envVarList envVars +:+ ", which the running mini was started without. " +:+
      "Ask the user to write what's missing into its server file, which mini applies within seconds, " +:+
      "or to set it where mini runs and restart mini."
  | needsAuthStatus =>
      "server " +:+ quoted name +:+ " needs authorization: call config with action " +:+ quoted "start_auth" +:+ " and server " +:+
      quoted name +:+ ", then finish the login in the browser."
  | notTrustedStatus =>
      "server " +:+ quoted name +:+ " runs a command an agent added, so mini won't start it until a person trusts it. " +:+
      "Ask the user to delete agent_added from its server file; mini starts it within seconds of the save."
  end.

Definition reason (st : startupStatus) (name : string) : string :=
  match st with
  | connectedStatus => ""
  | connectingStatus =>
      "server " +:+ quoted name +:+ " is still connecting; its tools appear when it's ready. Try again in a few seconds."
  | delayedStatus =>
      "server " +:+ quoted name +:+ " hasn't connected yet; mini keeps trying in the background. " +:+
      "If this persists, ask the user to run " +:+ status_command +:+ "."
  | failedStatus f => failure_reason f name
  end.

Definition errorCode (st : startupStatus) : string :=
  match st with
  | connectedStatus => ""
  | connectingStatus => "server_starting"
  | delayedStatus => "server_delayed"
  | failedStatus needsAuthStatus => "server_needs_auth"
  | failedStatus (needsEnvStatus _) => "server_needs_env"
  | failedStatus notTrustedStatus => "server_not_trusted"
  end.
Definition retryable (st : startupStatus) : bool :=
  match st with connectingStatus | delayedStatus => true | _ => false end.
Definition action (st : startupStatus) : string :=
  match st with failedStatus needsAuthStatus => "start_auth" | _ => "" end.
