(* ===== verification/Install.v ===== *)
(** * Installing, failing and removing upstream servers (src/internal/server/upstream_install.go, startup_state.go, upstream_refresh.go)

    [Server] is the part of the server that these operations share.  Every function
    is one critical section of [stateMu] or of the registry's lock; [server_step]
    composes them as the code does: an install, a removal, a failure and a refresh hold
    [serverOpMu] for their whole length, so [task] is what its holder still has to do,
    while lookups, new windows and edits of the projections run between any two of them. *)
From S2P Require Import Prelude GoStr Regex Config Registry RegistryProps Response JsonText Startup.

Record ServerConfig : Type := {
  cfg_Name : string;
  cfg_Permissions : option PermissionsConfig;
  cfg_Projections : option (gmap string (option ProjectionConfig));
  cfg_Auth : option string;
  cfg_Enabled : option bool
}.
Record upstreamServer : Type := { u_id : nat; u_cfg : ServerConfig; lastDefs : list ToolDefinition }.
Record configServer : Type := { settings : ServerConfig; loginSavedAt : Z }.

Record Server : Type := {
  startup : startupTracker;
  upstreams : gmap string upstreamServer;
  projections : gmap string (gmap string (option ProjectionConfig));
  configServers : gmap string configServer;
  removeGen : gmap string Z;
  reg : registry;
  next_id : nat
}.

Definition with_startup (s : Server) (t : startupTracker) : Server :=
  {| startup := t; upstreams := upstreams s; projections := projections s; configServers := configServers s;
     removeGen := removeGen s; reg := reg s; next_id := next_id s |}.
Definition with_reg (s : Server) (r : registry) : Server :=
  {| startup := startup s; upstreams := upstreams s; projections := projections s; configServers := configServers s;
     removeGen := removeGen s; reg := r; next_id := next_id s |}.
Definition with_projections (s : Server) (p : gmap string (gmap string (option ProjectionConfig))) : Server :=
  {| startup := startup s; upstreams := upstreams s; projections := p; configServers := configServers s;
     removeGen := removeGen s; reg := reg s; next_id := next_id s |}.
Definition with_configServers (s : Server) (c : gmap string configServer) : Server :=
  {| startup := startup s; upstreams := upstreams s; projections := projections s; configServers := c;
     removeGen := removeGen s; reg := reg s; next_id := next_id s |}.

Definition empty_server : Server :=
  {| startup := newStartupTracker; upstreams := ∅; projections := ∅; configServers := ∅; removeGen := ∅; reg := New; next_id := 0 |}.

(** ** Installs *)
Record upstreamInstall : Type := { in_cfg : ServerConfig; in_removeGen : Z; refuseIfRunning : bool; keepLiveProjections : bool }.
Inductive install_error : Type := errServerRemoved (name : string) | errAlreadyRegistered (name : string).

Definition snapshotRemoveGen (s : Server) (name : string) : Z := default 0 (removeGen s !! name).
Definition startupInstall (s : Server) (sc : ServerConfig) : upstreamInstall :=
  {| in_cfg := sc; in_removeGen := snapshotRemoveGen s (cfg_Name sc); refuseIfRunning := true; keepLiveProjections := true |}.
Definition newServerInstall (s : Server) (sc : ServerConfig) : upstreamInstall :=
  {| in_cfg := sc; in_removeGen := snapshotRemoveGen s (cfg_Name sc); refuseIfRunning := true; keepLiveProjections := false |}.
Definition replacingInstall (s : Server) (sc : ServerConfig) : upstreamInstall :=
  {| in_cfg := sc; in_removeGen := snapshotRemoveGen s (cfg_Name sc); refuseIfRunning := false; keepLiveProjections := false |}.

Definition checkInstallLocked (s : Server) (i : upstreamInstall) : res install_error unit :=
  let name := cfg_Name (in_cfg i) in
  if negb (snapshotRemoveGen s name =? in_removeGen i) then Err (errServerRemoved name)
  else if negb (refuseIfRunning i) then Ok tt
  else match upstreams s !! name with Some _ => Err (errAlreadyRegistered name) | None => Ok tt end.

Definition liveProjections (s : Server) (name : string) : option (gmap string (option ProjectionConfig)) := projections s !! name.

(** The configuration [installChecked] installs. *)
Definition install_config (s : Server) (i : upstreamInstall) : ServerConfig :=
  let c := in_cfg i in
  if keepLiveProjections i then
    {| cfg_Name := cfg_Name c; cfg_Permissions := cfg_Permissions c; cfg_Projections := liveProjections s (cfg_Name c);
       cfg_Auth := cfg_Auth c; cfg_Enabled := cfg_Enabled c |}
  else c.

Definition newUpstreamServer (s : Server) (sc : ServerConfig) (tools : list ToolDefinition) : upstreamServer :=
  {| u_id := next_id s; u_cfg := sc; lastDefs := tools |}.

Definition swapUpstream (s : Server) (name : string) (u : upstreamServer) : option upstreamServer * Server :=
  (upstreams s !! name,
   {| startup := startup s; upstreams := <[name := u]> (upstreams s); projections := projections s;
      configServers := configServers s; removeGen := removeGen s; reg := reg s; next_id := S (next_id s) |}).

Definition seedProjectionsIfNone (s : Server) (sc : ServerConfig) : Server :=
  match cfg_Projections sc, projections s !! cfg_Name sc with
  | Some p, None => with_projections s (<[cfg_Name sc := p]> (projections s))
  | _, _ => s
  end.

Definition currentAliasesFor (s : Server) (serverName : string) : gmap string string :=
  default ∅ (AliasesFromProjections (default ∅ (projections s !! serverName))).

Definition registry_params (sc : ServerConfig) (tools : list ToolDefinition) (aliases : gmap string string) : ServerParams :=
  {| p_name := cfg_Name sc; p_defs := tools; p_perm := cfg_Permissions sc; p_aliases := aliases |}.

(** [registerTools] once it has the aliases. *)
Definition registerTools (s : Server) (sc : ServerConfig) (tools : list ToolDefinition) (aliases : gmap string string)
    (old : option upstreamServer) : Server :=
  let p := registry_params sc tools aliases in
  match old with
  | Some _ => with_reg s (ReplaceServer (reg s) p)
  | None => with_reg s (AddServer (reg s) p)
  end.

Definition markToolsReady (s : Server) (name : string) : Server := with_startup s (markReady (startup s) name).
Definition openConnectWindow (s : Server) (name : string) (now : Z) : Server := with_startup s (open (startup s) name now).

(** [detected]: the configuration after [MergeDetectedOAuth]; [savedAt]: the age of the saved login. *)
Definition recordStartupFailure (s : Server) (i : upstreamInstall) (failure : startupFailure) (savedAt : Z) (detected : option string) : Server :=
  let name := cfg_Name (in_cfg i) in
  if negb (snapshotRemoveGen s name =? in_removeGen i) then s
  else
    let s := with_startup s (recordFailure (startup s) name failure) in
    match configServers s !! name with
    | None => s
    | Some record =>
        let c := settings record in
        let auth := match cfg_Auth c with None => detected | Some a => Some a end in
        let c := {| cfg_Name := cfg_Name c; cfg_Permissions := cfg_Permissions c; cfg_Projections := cfg_Projections c;
                    cfg_Auth := auth; cfg_Enabled := cfg_Enabled c |} in
        with_configServers s (<[name := {| settings := c; loginSavedAt := savedAt |}]> (configServers s))
    end.

Definition recordConfigServers (s : Server) (servers : list ServerConfig) : Server :=
  with_configServers s (foldl (fun m sc => if IsEnabled (cfg_Enabled sc) then <[cfg_Name sc := {| settings := sc; loginSavedAt := zero_time |}]> m else m)
    (configServers s) servers).

(** [current]: the upstream still has this connection and its context is alive. *)
Definition publishRefreshedTools (s : Server) (u : upstreamServer) (current : bool) (tools : list ToolDefinition) : Server * bool :=
  let name := cfg_Name (u_cfg u) in
  match upstreams s !! name with
  | Some u' =>
      if current && Nat.eqb (u_id u') (u_id u) then
        let s := {| startup := startup s; upstreams := <[name := {| u_id := u_id u'; u_cfg := u_cfg u'; lastDefs := tools |}]> (upstreams s);
                    projections := projections s; configServers := configServers s; removeGen := removeGen s; reg := reg s; next_id := next_id s |} in
        (with_reg s (ReplaceServer (reg s) (registry_params (u_cfg u) tools (currentAliasesFor s name))), true)
      else (s, false)
  | None => (s, false)
  end.

(** ** Removals *)
Definition bump_removeGen (s : Server) (name : string) : Server :=
  {| startup := startup s; upstreams := upstreams s; projections := projections s; configServers := configServers s;
     removeGen := <[name := (snapshotRemoveGen s name + 1) mod 2 ^ 64]> (removeGen s); reg := reg s; next_id := next_id s |}.

Definition detachUpstreamLocked (s : Server) (name : string) : Server :=
  {| startup := forget (startup s) name; upstreams := delete name (upstreams s); projections := projections s;
     configServers := delete name (configServers s); removeGen := removeGen s; reg := reg s; next_id := next_id s |}.
Definition detachUpstreamKeepingProjections := detachUpstreamLocked.
Definition detachUpstream (s : Server) (name : string) : Server :=
  detachUpstreamLocked (with_projections s (delete name (projections s))) name.
Definition closeDetached (s : Server) (name : string) : Server := with_reg s (RemoveServer (reg s) name).

(** ** Lookups *)
Definition toolFullName (server tool : string) : string := server +:+ "." +:+ tool.

Definition serverNotReadyError (s : Server) (server : string) (now : Z) : option (Envelope (data := unit)) :=
  match configServers s !! server with
  | None => None
  | Some _ =>
      let st := state (startup s) server now in
      match phase st with
      | phaseConnected => None
      | _ => Some (BuildError (errorCode st) (reason st server) (retryable st) (action st))
      end
  end.

Inductive lookup_error : Type := errServerNotReady (env : Envelope (data := unit)) | ErrNotFound (msg : string).

(** [lookupTool] reads the state of the server first ([s1]) and the registry later ([s2]). *)
Definition lookupTool (s1 : Server) (now : Z) (s2 : Server) (server tool : string) : res lookup_error ToolEntry :=
  match serverNotReadyError s1 server now with
  | Some env => Err (errServerNotReady env)
  | None => match Lookup (reg s2) (toolFullName server tool) with Ok e => Ok e | Err m => Err (ErrNotFound m) end
  end.

(** ** Reports and waits *)
Record startupReport : Type := { starting : list string; unavailable : gmap string (startupPhase * string) }.

Definition report_step (t : startupTracker) (now : Z) (r : startupReport) (name : string) : startupReport :=
  let st := state t name now in
  match st with
  | connectingStatus => {| starting := starting r ++ [name]; unavailable := unavailable r |}
  | delayedStatus | failedStatus _ => {| starting := starting r; unavailable := <[name := (phase st, reason st name)]> (unavailable r) |}
  | connectedStatus => r
  end.
Definition startupReportLocked (s : Server) (now : Z) : startupReport :=
  let r := foldl (report_step (startup s) now) {| starting := []; unavailable := ∅ |} (map fst (map_to_list (configServers s))) in
  {| starting := merge_sort String.le (starting r); unavailable := unavailable r |}.

(** The server waited for, if one is still connecting: its window's end and the channel to watch. *)
Definition startupWaitTarget (s : Server) (now : Z) : option (nat * Z) :=
  match List.find (fun name => match phase (state (startup s) name now) with phaseConnecting => true | _ => false end)
          (map fst (map_to_list (configServers s))) with
  | Some name => Some (changed (startup s), windowEnd (startup s) name)
  | None => None
  end.

Inductive wake : Type := WakeChanged | WakeWindowEnd | WakeHoldEnd | WakeContextDone (msg : string) | WakeStopped.
Inductive wait_error : Type := errStoppedWaiting | ContextError (msg : string).

(** [waitForStartup] over what each round sees and what ends its wait; [None]: still waiting. *)
Fixpoint waitForStartup (rounds : list (Server * Z * wake)) : option (res wait_error unit) :=
  match rounds with
  | [] => None
  | (s, now, w) :: rounds =>
      match startupWaitTarget s now with
      | None => Some (Ok tt)
      | Some _ =>
          match w with
          | WakeChanged | WakeWindowEnd => waitForStartup rounds
          | WakeHoldEnd => Some (Ok tt)
          | WakeContextDone msg => Some (Err (ContextError msg))
          | WakeStopped => Some (Err errStoppedWaiting)
          end
      end
  end.

(** ** Interleavings *)
(** What the holder of [serverOpMu] still has to do. *)
Inductive task : Type :=
| Idle
| TaskSwap (sc : ServerConfig) (defs : list ToolDefinition)
| TaskSeed (sc : ServerConfig) (defs : list ToolDefinition) (old : option upstreamServer)
| TaskAliases (sc : ServerConfig) (defs : list ToolDefinition) (old : option upstreamServer)
| TaskRegister (sc : ServerConfig) (defs : list ToolDefinition) (old : option upstreamServer) (aliases : gmap string string)
| TaskReady (sc : ServerConfig)
| TaskDetach (name : string) (keepProjections : bool)
| TaskRemove (name : string).

(** The next critical section of an install ([installUpstreamLocked]) or of a removal. *)
Definition task_step (s : Server) (t : task) : Server * task :=
  match t with
  | Idle => (s, Idle)
  | TaskSwap sc defs =>
      let '(old, s) := swapUpstream s (cfg_Name sc) (newUpstreamServer s sc defs) in (s, TaskSeed sc defs old)
  | TaskSeed sc defs old => (seedProjectionsIfNone s sc, TaskAliases sc defs old)
  | TaskAliases sc defs old => (s, TaskRegister sc defs old (currentAliasesFor s (cfg_Name sc)))
  | TaskRegister sc defs old aliases => (registerTools s sc defs aliases old, TaskReady sc)
  | TaskReady sc => (markToolsReady s (cfg_Name sc), Idle)
  | TaskDetach name keep => (if keep then detachUpstreamKeepingProjections s name else detachUpstream s name, TaskRemove name)
  | TaskRemove name => (closeDetached s name, Idle)
  end.

Inductive server_step : Server * task -> Server * task -> Prop :=
| StepTask s t : t <> Idle -> server_step (s, t) (task_step s t)
| StepInstall s i defs : checkInstallLocked s i = Ok tt -> re_match ValidServerName (cfg_Name (in_cfg i)) = true ->
    server_step (s, Idle) (s, TaskSwap (install_config s i) defs)
| StepRemove s name keep : server_step (s, Idle) (bump_removeGen s name, TaskDetach name keep)
| StepFailure s i f savedAt detected : server_step (s, Idle) (recordStartupFailure s i f savedAt detected, Idle)
| StepRefresh s u current defs : server_step (s, Idle) (fst (publishRefreshedTools s u current defs), Idle)
| StepWindow s t name now : server_step (s, t) (openConnectWindow s name now, t)
| StepRecord s t servers : server_step (s, t) (recordConfigServers s servers, t)
| StepProjections s t p : server_step (s, t) (with_projections s p, t).

Definition reachable (x : Server * task) : Prop := rtc server_step (empty_server, Idle) x.

(** Steps during which [server] is not being removed. *)
Definition removing (server : string) (t : task) : bool :=
  match t with TaskDetach name _ | TaskRemove name => String.eqb name server | _ => false end.
Definition step_keeping (server : string) (x y : Server * task) : Prop := server_step x y /\ removing server (snd y) = false.
