(* ===== verification/InstallProps.v ===== *)
(** * Properties of installs and lookups

    [ready_inv] ties the tracker to the registry: a server marked ready is registered,
    whatever runs in between. *)
From S2P Require Import Prelude GoStr Regex Config Registry RegistryProps Response JsonText Startup Install.

Definition task_inv (A : spec) (s : Server) (t : task) : Prop :=
  match t with
  | TaskSwap sc _ => dot_free (cfg_Name sc)
  | TaskSeed sc _ old | TaskAliases sc _ old | TaskRegister sc _ old _ =>
      dot_free (cfg_Name sc) /\ is_Some (upstreams s !! cfg_Name sc) /\ (old = None -> A !! cfg_Name sc = None)
  | TaskReady sc => is_Some (A !! cfg_Name sc)
  | _ => True
  end.

Record ready_inv (A : spec) (s : Server) (t : task) : Prop := {
  ri_ok : spec_ok A;
  ri_rep : represents A (reg s);
  ri_ready : forall n, ready (startup s) n = true -> is_Some (A !! n) /\ t <> TaskRemove n;
  ri_names : forall n, is_Some (upstreams s !! n) -> dot_free n;
  ri_upstream : forall n, is_Some (A !! n) -> is_Some (upstreams s !! n) \/ t = TaskRemove n;
  ri_task : task_inv A s t
}.

Lemma ready_markReady t name n : ready (markReady t name) n = true <-> n = name \/ ready t n = true.
Proof.
  unfold ready. cbn. destruct (decide (n = name)) as [->|Hne]; [rewrite lookup_insert_eq; tauto|].
  rewrite lookup_insert_ne by done. tauto.
Qed.

Lemma ready_forget t name n : ready (forget t name) n = true <-> n <> name /\ ready t n = true.
Proof.
  unfold ready. cbn. destruct (decide (n = name)) as [->|Hne]; [rewrite lookup_delete_eq; naive_solver|].
  rewrite lookup_delete_ne by done. tauto.
Qed.

Lemma empty_ready_inv : ready_inv ∅ empty_server Idle.
Proof.
  split; cbn; [apply spec_ok_empty|apply represents_empty| | | |done].
  - intros n. unfold ready. cbn. by rewrite lookup_empty.
  - intros n [? H]. by rewrite lookup_empty in H.
  - intros n [? H]. by rewrite lookup_empty in H.
Qed.

(** Steps that leave the registry, the upstreams and readiness alone keep the invariant. *)
Lemma ready_inv_frame A s s' t : ready_inv A s t -> reg s' = reg s -> upstreams s' = upstreams s ->
  (forall n, ready (startup s') n = ready (startup s) n) -> ready_inv A s' t.
Proof.
  intros [H1 H2 H3 H4 H5 H6] Hr Hu Hs. split; [done|by rewrite Hr| |by rewrite Hu|by rewrite Hu|by destruct t; cbn in *; rewrite ?Hu].
  intros n. rewrite Hs. apply H3.
Qed.

Lemma publish_inv A s u current defs : ready_inv A s Idle ->
  exists A', ready_inv A' (fst (publishRefreshedTools s u current defs)) Idle /\ forall n, is_Some (A !! n) -> is_Some (A' !! n).
Proof.
  intros Hi. unfold publishRefreshedTools. destruct (upstreams s !! cfg_Name (u_cfg u)) as [u'|] eqn:Eu; [|eauto].
  destruct (_ && _); [|eauto]. cbn [fst]. destruct Hi as [H1 H2 H3 H4 H5 H6].
  set (p := registry_params _ _ _). assert (dot_free (p_name p)) as Hd by (apply H4; eauto).
  assert (forall n, is_Some (A !! n) -> is_Some (<[p_name p := p]> A !! n)) as Hk.
  { intros n Hn. destruct (decide (n = p_name p)) as [->|]; [rewrite lookup_insert_eq; eauto|by rewrite lookup_insert_ne]. }
  exists (<[p_name p := p]> A). split; [|done]. split; cbn.
  - by apply spec_ok_insert.
  - by apply represents_replace.
  - intros n Hn. split; [by apply Hk, H3|done].
  - intros n. destruct (decide (n = cfg_Name (u_cfg u))) as [->|Hne]; [intros _; apply H4; eauto|]. rewrite lookup_insert_ne by done. apply H4.
  - intros n Hn. left. destruct (decide (n = cfg_Name (u_cfg u))) as [->|Hne]; [rewrite lookup_insert_eq; eauto|].
    rewrite lookup_insert_ne by done. change (p_name p) with (cfg_Name (u_cfg u)) in Hn. rewrite lookup_insert_ne in Hn by done.
    by destruct (H5 n Hn).
  - done.
Qed.

(** The critical sections of an install or a removal. *)
Lemma task_step_inv A s t : ready_inv A s t ->
  let '(s', t') := task_step s t in
  exists A', ready_inv A' s' t' /\ forall n, is_Some (A !! n) -> t <> TaskRemove n -> is_Some (A' !! n).
Proof.
  intros Hi. pose proof Hi as [H1 H2 H3 H4 H5 H6].
  destruct t as [|sc defs|sc defs old|sc defs old|sc defs old aliases|sc|name keep|name]; cbn [task_step task_inv] in *.
  - eauto.
  - unfold swapUpstream. exists A. split; [|done]. split; cbn; try done.
    + intros n Hn. split; [by apply H3|done].
    + intros n. destruct (decide (n = cfg_Name sc)) as [->|Hne]; [done|]. rewrite lookup_insert_ne by done. apply H4.
    + intros n Hn. left. destruct (decide (n = cfg_Name sc)) as [->|Hne]; [rewrite lookup_insert_eq; eauto|].
      rewrite lookup_insert_ne by done. by destruct (H5 n Hn).
    + split; [done|]. split; [rewrite lookup_insert_eq; eauto|]. intros Hold. destruct (A !! cfg_Name sc) eqn:E; [|done]. exfalso.
      destruct (H5 (cfg_Name sc)) as [[? Hx]|]; [eauto|congruence|done].
  - exists A. split; [|done]. apply (ready_inv_frame A s); [|unfold seedProjectionsIfNone; by repeat case_match..].
    split; cbn; try done; [intros n Hn; split; [by apply H3|done]|intros n Hn; left; by destruct (H5 n Hn)].
  - exists A. split; [|done]. split; cbn; try done; [intros n Hn; split; [by apply H3|done]|intros n Hn; left; by destruct (H5 n Hn)].
  - destruct H6 as (Hd & Hu & Hold). set (p := registry_params sc defs aliases).
    assert (forall n, is_Some (A !! n) -> is_Some (<[p_name p := p]> A !! n)) as Hk.
    { intros n Hn. destruct (decide (n = p_name p)) as [->|]; [rewrite lookup_insert_eq; eauto|by rewrite lookup_insert_ne]. }
    exists (<[p_name p := p]> A). split; [|intros n Hn _; by apply Hk].
    assert (represents (<[p_name p := p]> A) (reg (registerTools s sc defs aliases old))) as Hrep.
    { unfold registerTools. destruct old; [by apply represents_replace|]. apply represents_add; auto. }
    assert (startup (registerTools s sc defs aliases old) = startup s /\ upstreams (registerTools s sc defs aliases old) = upstreams s) as [Es Eu]
      by (unfold registerTools; by destruct old).
    split; rewrite ?Es, ?Eu; [by apply spec_ok_insert|done| |done| |].
    + intros n Hn. split; [by apply Hk, H3|done].
    + intros n Hn. left. destruct (decide (n = cfg_Name sc)) as [->|Hne]; [done|].
      change (p_name p) with (cfg_Name sc) in Hn. rewrite lookup_insert_ne in Hn by done. by destruct (H5 n Hn).
    + cbn. change (p_name p) with (cfg_Name sc). rewrite lookup_insert_eq. eauto.
  - exists A. split; [|done]. split; cbn; try done; [|intros n Hn; left; by destruct (H5 n Hn)].
    intros n [->|Hn]%ready_markReady; (split; [|done]); [done|by apply H3].
  - assert (ready_inv A (detachUpstreamLocked s name) (TaskRemove name)) as Hd.
    { split; cbn; try done.
      - intros n [Hne Hn]%ready_forget. split; [by apply H3|congruence].
      - intros n [? [Hne Hn]%lookup_delete_Some]. apply H4. eauto.
      - intros n Hn. destruct (decide (n = name)) as [->|Hne]; [by right|left]. rewrite lookup_delete_ne by done. by destruct (H5 n Hn). }
    exists A. split; [|done]. destruct keep; [done|]. by eapply ready_inv_frame.
  - exists (delete name A). split.
    + split; cbn; [by apply spec_ok_delete|by apply represents_remove| |done| |done].
      * intros n Hn. destruct (H3 n Hn) as [HA Ht]. split; [|done]. rewrite lookup_delete_ne by congruence. done.
      * intros n [? [Hne HA]%lookup_delete_Some]. left. destruct (H5 n) as [?|[= Hx]]; [eauto|done|congruence].
    + intros n HA Ht. rewrite lookup_delete_ne by congruence. done.
Qed.

Lemma server_step_inv A x y : ready_inv A (fst x) (snd x) -> server_step x y ->
  exists A', ready_inv A' (fst y) (snd y) /\ forall n, is_Some (A !! n) -> snd x <> TaskRemove n -> is_Some (A' !! n).
Proof.
  intros Hi Hs. destruct Hs as [s t Ht|s i defs Hc Hn|s name keep|s i f at_ det|s u cur defs|s t name now|s t servers|s t p]; cbn [fst snd] in *.
  - pose proof (task_step_inv A s t Hi) as H. by destruct (task_step s t).
  - exists A. split; [|done]. destruct Hi as [H1 H2 H3 H4 H5 H6]. split; cbn; try done.
    + intros n Hr. split; [by apply H3|done].
    + intros n Hr. left. by destruct (H5 n Hr).
    + apply server_name_no_dot. unfold install_config. by destruct (keepLiveProjections i).
  - exists A. split; [|done]. destruct Hi as [H1 H2 H3 H4 H5 H6]. split; cbn; try done.
    + intros n Hr. split; [by apply H3|done].
    + intros n Hr. left. by destruct (H5 n Hr).
  - exists A. split; [|done]. eapply ready_inv_frame; [exact Hi|..]; unfold recordStartupFailure; by repeat case_match.
  - destruct (publish_inv A s u cur defs Hi) as (A' & ? & ?). eauto.
  - exists A. split; [|done]. by eapply ready_inv_frame.
  - exists A. split; [|done]. by eapply ready_inv_frame.
  - exists A. split; [|done]. by eapply ready_inv_frame.
Qed.

Lemma reachable_ready x : reachable x -> exists A, ready_inv A (fst x) (snd x).
Proof.
  intros H. assert (exists A, ready_inv A (fst (empty_server, Idle)) (snd (empty_server, Idle))) as H0 by (exists ∅; apply empty_ready_inv).
  revert H0. induction H as [x|x y z Hxy _ IH]; [done|]. intros [A HA]. apply IH.
  destruct (server_step_inv A x y HA Hxy) as (A' & ? & _). eauto.
Qed.

Lemma keeping_registered server x y : rtc (step_keeping server) x y ->
  forall A, ready_inv A (fst x) (snd x) -> is_Some (A !! server) -> snd x <> TaskRemove server ->
  exists A', ready_inv A' (fst y) (snd y) /\ is_Some (A' !! server).
Proof.
  induction 1 as [x|x y z [Hxy Hk] _ IH]; intros A HA Hs Ht; [eauto|].
  destruct (server_step_inv A x y HA Hxy) as (A' & HA' & Hkeep). apply (IH A'); [done|by apply Hkeep|].
  intros E. rewrite E in Hk. cbn in Hk. by rewrite String.eqb_refl in Hk.
Qed.


(** The holder's remaining critical sections, run one after the other. *)
Fixpoint task_run (n : nat) (x : Server * task) : Server * task :=
  match n with
  | O => x
  | S n => match snd x with Idle => x | t => task_run n (task_step (fst x) t) end
  end.

Lemma task_run_steps n x : rtc server_step x (task_run n x).
Proof.
  revert x. induction n as [|n IH]; intros [s t]; cbn [task_run fst snd]; [apply rtc_refl|].
  destruct t; [apply rtc_refl|eapply rtc_l; [by apply StepTask|apply IH]..].
Qed.

Definition sample_config : ServerConfig :=
  {| cfg_Name := "gh"; cfg_Permissions := None; cfg_Projections := None; cfg_Auth := None; cfg_Enabled := None |}.
Definition sample_defs : list ToolDefinition := [{| def_name := "list_issues"; def_body := "{}" |}].
Definition installed_server : Server :=
  let s := recordConfigServers empty_server [sample_config] in
  fst (task_run 6 (s, TaskSwap (install_config s (startupInstall s sample_config)) sample_defs)).

Lemma installed_reachable : reachable (installed_server, Idle).
Proof.
  eapply rtc_l; [apply (StepRecord empty_server Idle [sample_config])|].
  eapply rtc_l; [apply (StepInstall _ (startupInstall (recordConfigServers empty_server [sample_config]) sample_config) sample_defs); reflexivity|].
  apply (task_run_steps 6).
Qed.


(** ** Removal *)
Definition later_gen (g g' : Z) (k : nat) : Prop := g' = g \/ exists j, 1 <= j <= Z.of_nat k /\ g' = (g + j) mod 2 ^ 64.

Lemma server_step_gen x y name : server_step x y -> later_gen (snapshotRemoveGen (fst x) name) (snapshotRemoveGen (fst y) name) 1.
Proof.
  intros Hs. destruct Hs as [s t Ht|s i defs Hc Hn|s n keep|s i f at_ det|s u cur defs|s t n now|s t servers|s t p]; cbn [fst snd]; try (by left).
  - left. by destruct t; cbn; unfold seedProjectionsIfNone, registerTools; repeat case_match.
  - unfold snapshotRemoveGen at 2. cbn. destruct (decide (n = name)) as [->|Hne].
    + rewrite lookup_insert_eq. right. exists 1. cbn. split; [lia|done].
    + left. by rewrite lookup_insert_ne.
  - left. unfold recordStartupFailure. by repeat case_match.
  - left. unfold publishRefreshedTools. by repeat case_match.
Qed.

Lemma later_gen_step g g' g'' k : later_gen g g' 1 -> later_gen g' g'' k -> later_gen g g'' (S k).
Proof.
  intros [->|(j & Hj & ->)] [->|(j' & Hj' & ->)]; [by left|right; exists j'; split; [lia|done]|right; exists j; split; [lia|done]|].
  right. exists (j + j'). split; [lia|]. rewrite Zplus_mod_idemp_l. f_equal. lia.
Qed.

Lemma later_gen_run k : forall x y name, nsteps server_step k x y -> later_gen (snapshotRemoveGen (fst x) name) (snapshotRemoveGen (fst y) name) k.
Proof.
  induction k as [|k IH]; intros x y name H; inversion H; subst; [by left|].
  eapply later_gen_step; [by apply server_step_gen|by apply IH].
Qed.

(** A connection attempt that began before its server was removed is refused when it
    ends, and its failure leaves no trace: a removal is never undone by an attempt still
    under way (the generation would have to wrap around at [2^64] first). *)
Theorem removed_install_refused s0 t0 s1 s2 t2 i keep k1 k2 f savedAt detected :
  let name := cfg_Name (in_cfg i) in
  in_removeGen i = snapshotRemoveGen s0 name ->
  nsteps server_step k1 (s0, t0) (s1, Idle) ->
  nsteps server_step k2 (bump_removeGen s1 name, TaskDetach name keep) (s2, t2) ->
  Z.of_nat (k1 + k2) < 2 ^ 64 - 1 ->
  checkInstallLocked s2 i = Err (errServerRemoved name) /\ recordStartupFailure s2 i f savedAt detected = s2.
Proof.
  intros name Hi H1 H2 Hk.
  pose proof (later_gen_run k1 _ _ name H1) as G1. pose proof (later_gen_run k2 _ _ name H2) as G2. cbn [fst] in G1, G2.
  assert (snapshotRemoveGen (bump_removeGen s1 name) name = (snapshotRemoveGen s1 name + 1) mod 2 ^ 64) as Eb
    by (unfold snapshotRemoveGen at 1; cbn; by rewrite lookup_insert_eq).
  rewrite Eb in G2. set (g0 := snapshotRemoveGen s0 name) in *. set (g1 := snapshotRemoveGen s1 name) in *.
  assert (snapshotRemoveGen s2 name <> g0) as Hne.
  { assert (exists j, 1 <= j < 2 ^ 64 /\ snapshotRemoveGen s2 name = (g0 + j) mod 2 ^ 64) as (j & Hj & ->).
    { assert (exists j, 0 <= j <= Z.of_nat k1 /\ (g1 + 1) mod 2 ^ 64 = (g0 + j + 1) mod 2 ^ 64) as (j & Hj & E1).
      { destruct G1 as [->|(j & Hj & ->)]; [exists 0; split; [lia|f_equal; lia]|].
        exists j. split; [lia|]. by rewrite Zplus_mod_idemp_l. }
      rewrite E1 in G2. destruct G2 as [->|(j' & Hj' & ->)].
      - exists (j + 1). split; [lia|f_equal; lia].
      - exists (j + 1 + j'). split; [lia|]. rewrite Zplus_mod_idemp_l. f_equal. lia. }
    intros E. assert (g0 mod 2 ^ 64 = g0) as Hg by (rewrite <- E at 1; rewrite Zmod_mod; by rewrite E).
    assert ((g0 + j - g0) mod 2 ^ 64 = 0) as H0 by (rewrite Zminus_mod, E, Hg, Z.sub_diag; done).
    replace (g0 + j - g0) with j in H0 by lia. rewrite Z.mod_small in H0; lia. }
  unfold checkInstallLocked, recordStartupFailure. fold name. rewrite Hi, (proj2 (Z.eqb_neq _ _) Hne). done.
Qed.

Lemma removed_install_refused_witness :
  let i := startupInstall empty_server sample_config in
  let s2 := bump_removeGen empty_server "gh" in
  checkInstallLocked s2 i = Err (errServerRemoved "gh") /\ recordStartupFailure s2 i needsAuthStatus 0 None = s2.
Proof.
  apply (removed_install_refused empty_server Idle empty_server (bump_removeGen empty_server "gh") (TaskDetach "gh" false)
    (startupInstall empty_server sample_config) false 0 0);
    [reflexivity|apply nsteps_O|apply nsteps_O|reflexivity].
Defined.
