(* ===== verification/AuthHeader.v ===== *)
(** * The parameters of a Bearer challenge (src/internal/auth/www_authenticate.go)

    The loops over a header keep the slice they are building instead of its indices.
    The loop of [splitAuthParams] visits runes in the source and bytes here: it compares
    only with ASCII characters, which no longer rune contains. *)
From S2P Require Import Prelude GoStr Utf8 Config Content JsonText.

Definition blank (c : ascii) : bool := Ascii.eqb c " " || Ascii.eqb c (az 9).
Fixpoint skip_blanks (s : string) : string :=
  match s with String c s' => if blank c then skip_blanks s' else s | "" => "" end.

Definition bearer : string := "Bearer".

(** [None] is -1; the start found is given as what follows the scheme. *)
Definition bearerSchemeAt (header : string) : option string :=
  let s := skip_blanks header in
  if (String.length s <? 6)%nat || negb (EqualFold (str_take 6 s) bearer) then None
  else
    let rest := str_drop 6 s in
    match rest with
    | String c _ => if negb (blank c) && negb (Ascii.eqb c ",") then None
                    else match skip_blanks rest with String "="%char _ => None | _ => Some rest end
    | "" => Some ""
    end.

(** [segmentStart]: the current byte starts a segment; [rest] is what the loop has still to visit, [segment] the header from the start of the segment. *)
Fixpoint bearer_from (rest segment : string) (segmentStart quoted escaped : bool) : option string :=
  match rest with
  | "" => if negb quoted then bearerSchemeAt segment else None
  | String c rest' =>
      match (if negb quoted && segmentStart then bearerSchemeAt segment else None) with
      | Some r => Some r
      | None =>
          if escaped then bearer_from rest' segment false quoted false
          else if quoted && Ascii.eqb c backslash then bearer_from rest' segment false quoted true
          else if Ascii.eqb c dquote then bearer_from rest' segment false (negb quoted) false
          else if Ascii.eqb c "," && negb quoted then bearer_from rest' rest' true quoted false
          else bearer_from rest' segment false quoted false
      end
  end.
Definition bearerStart (header : string) : option string := bearer_from header header true false false.

(** [strings.ContainsRune] of an ASCII rune, and the token characters of RFC 9110. *)
Definition token_symbols : string := "!#$%&'*+-.^_" +:+ String (az 96) "|~".
Definition isAuthTokenChar (r : Z) : bool :=
  ((97 <=? r) && (r <=? 122)) || ((65 <=? r) && (r <=? 90)) || ((48 <=? r) && (r <=? 57)) ||
  ((0 <=? r) && (r <? 128) && byte_in (az r) token_symbols).
Definition isAuthToken (value : string) : bool := negb (String.eqb value "") && forallb isAuthTokenChar (runes value).

Definition authSchemeStart (part : string) : bool :=
  let '(key, _, hasValue) := cut_byte part "=" in
  if hasValue && isAuthToken (TrimSpace key) then false
  else negb (String.eqb (TrimSpace part) ""). (* [strings.Fields] is empty on spaces only *)

Fixpoint split_from (rest part : string) (quoted escaped : bool) : list string :=
  match rest with
  | "" =>
      let last := TrimSpace part in
      if negb (String.eqb last "") && negb (authSchemeStart last) then [last] else []
  | String c rest' =>
      let grown := part +:+ String c "" in
      if escaped then split_from rest' grown quoted false
      else if quoted && Ascii.eqb c backslash then split_from rest' grown quoted true
      else if Ascii.eqb c dquote then split_from rest' grown (negb quoted) false
      else if Ascii.eqb c "," && negb quoted then
        let p := TrimSpace part in
        if authSchemeStart p then [] else p :: split_from rest' "" quoted false
      else split_from rest' grown quoted false
  end.

Definition splitAuthParams (header : string) : list string :=
  match bearerStart header with
  | None => []
  | Some params => split_from params "" false false
  end.

(** The contents of a quoted value; [None] when a backslash ends it. *)
Fixpoint unescape (s : string) : option string :=
  match s with
  | "" => Some ""
  | String c s' =>
      if Ascii.eqb c backslash then
        match s' with
        | String d s'' => option_map (String d) (unescape s'')
        | "" => None
        end
      else option_map (String c) (unescape s')
  end.

Definition unquoteAuthValue (value : string) : string :=
  match value with
  | String c rest =>
      if Ascii.eqb c dquote then
        if negb (Nat.ltb 1 (String.length value)) || negb (bool_decide (last_byte value = Some dquote)) then ""
        else default "" (unescape (str_take (pred (String.length rest)) rest))
      else value
  | "" => ""
  end.

Fixpoint find_param (parts : list string) (param : string) : string :=
  match parts with
  | [] => ""
  | value :: parts =>
      let '(key, paramValue, ok) := cut_byte (TrimSpace value) "=" in
      if ok && EqualFold (TrimSpace key) param then unquoteAuthValue (TrimSpace paramValue)
      else find_param parts param
  end.
Definition parseWWWAuthParam (header param : string) : string := find_param (splitAuthParams header) param.

Definition dq (s : string) : string := String dquote (s +:+ String dquote "").
Example parse_ex :
  parseWWWAuthParam ("Basic realm=" +:+ dq "x, Bearer scope=y" +:+ ", bearer Scope = " +:+ dq ("a " +:+ String backslash (String dquote "b")) +:+ ",error=nope, Digest q=1") "scope" = "a " +:+ String dquote "b" /\
  parseWWWAuthParam ("Bearer error=x, Digest scope=y") "scope" = "" /\
  parseWWWAuthParam ("Bearer error=x, error_description=y") "error_description" = "y".
Proof. vm_compute. tauto. Qed.

(** ** Reading back a printed challenge *)
Fixpoint escape (v : string) : string :=
  match v with
  | "" => ""
  | String c v => if Ascii.eqb c dquote || Ascii.eqb c backslash then String backslash (String c (escape v)) else String c (escape v)
  end.
(** A quoted string of RFC 9110. *)
Definition quote (v : string) : string := String dquote (escape v +:+ String dquote "").
Definition param_text (p : string * string) : string := fst p +:+ "=" +:+ quote (snd p).
Definition challenge (scheme : string) (params : list (string * string)) : string := scheme +:+ " " +:+ join ", " (map param_text params).

(** A token, as bytes: its characters are ASCII. *)
Definition token_byte (c : ascii) : bool := isAuthTokenChar (bz c).
Definition token (k : string) : Prop := str_forall token_byte k = true /\ k <> "".

Lemma list_ascii_app a b : list_ascii_of_string (a +:+ b) = list_ascii_of_string a ++ list_ascii_of_string b.
Proof. induction a as [|c a IH]; [done|]. cbn. by rewrite <- IH. Qed.

Lemma token_ascii k : str_forall token_byte k = true -> str_forall ascii_byte k = true.
Proof. apply str_forall_impl. by apply ascii_impl_dec. Qed.

Lemma token_isAuthToken k : token k -> isAuthToken k = true.
Proof.
  intros [Hk Hne]. unfold isAuthToken. rewrite (proj2 (String.eqb_neq _ _) Hne), runes_ascii by by apply token_ascii.
  cbn [negb andb]. clear Hne. induction k as [|c k IH]; [done|]. cbn in Hk |- *. apply andb_true_iff in Hk as [Hc Hk].
  unfold token_byte in Hc. by rewrite Hc, IH.
Qed.

(** Spaces before a text that starts and ends with visible ASCII characters are trimmed. *)
Lemma TrimSpace_plain a c s t d : str_forall blank a = true -> String c s = t +:+ String d "" -> plain_end c = true -> plain_end d = true ->
  TrimSpace (a +:+ String c s) = String c s.
Proof.
  intros Ha E Hc Hd. unfold TrimSpace.
  assert (trim_left_space 0 (a +:+ String c s) = String c s) as ->.
  { induction a as [|b a IH]; [by apply trim_left_plain|]. cbn in Ha. apply andb_true_iff in Ha as [Hb Ha]. specialize (IH Ha).
    cbn [String.append trim_left_space decode_rune]. unfold blank in Hb. apply orb_true_iff in Hb as [Hb|Hb]; apply Ascii.eqb_eq in Hb as ->; exact IH. }
  rewrite E. by apply trim_right_plain.
Qed.

Lemma token_plain c : token_byte c = true -> plain_end c = true.
Proof. revert c. by apply ascii_impl_dec. Qed.

Lemma token_split k : token k -> exists c s t d, k = String c s /\ k = t +:+ String d "" /\ token_byte c = true /\ token_byte d = true.
Proof.
  intros [Hk Hne]. destruct k as [|c s]; [done|]. assert (token_byte c = true) as Hc by (cbn [str_forall] in Hk; apply andb_true_iff in Hk as [? _]; done).
  assert (exists t d, String c s = t +:+ String d "" /\ token_byte d = true) as (t & d & E & Hd).
  { clear Hne Hc. revert c Hk. induction s as [|c' s IH]; intros c Hk.
    - exists "", c. split; [done|]. cbn [str_forall] in Hk. by rewrite andb_true_r in Hk.
    - cbn [str_forall] in Hk. apply andb_true_iff in Hk as [_ Hk]. destruct (IH c' Hk) as (t & d & E & Hd). exists (String c t), d. split; [|done].
      cbn [String.append]. by rewrite <- E. }
  exists c, s, t, d. auto.
Qed.

Lemma TrimSpace_token k : token k -> TrimSpace k = k.
Proof.
  intros Hk. destruct (token_split k Hk) as (c & s & t & d & E & E' & Hc & Hd).
  pose proof (TrimSpace_plain "" c s t d eq_refl) as H. cbn [String.append] in H. rewrite <- E in H. apply H; [done|..]; by apply token_plain.
Qed.

Lemma quote_snoc v : exists t, quote v = t +:+ String dquote "".
Proof. by exists (String dquote (escape v)). Qed.

Lemma TrimSpace_param a k v : str_forall blank a = true -> token k -> TrimSpace (a +:+ param_text (k, v)) = param_text (k, v).
Proof.
  intros Ha Hk. unfold param_text. cbn [fst snd]. destruct (token_split k Hk) as (c & s & _ & _ & -> & _ & Hc & _).
  destruct (quote_snoc v) as [t ->]. cbn [String.append].
  eapply (TrimSpace_plain a c _ (String c (s +:+ String "=" t)) dquote); [done| |by apply token_plain|done].
  cbn [String.append]. by rewrite <- str_app_assoc.
Qed.

Lemma TrimSpace_quote v : TrimSpace (quote v) = quote v.
Proof. apply (TrimSpace_plain "" dquote _ (String dquote (escape v)) dquote); done. Qed.

Lemma unescape_escape v : unescape (escape v) = Some v.
Proof.
  induction v as [|c v IH]; [done|]. cbn [escape]. destruct (_ || _) eqn:E; cbn [unescape].
  - rewrite Ascii.eqb_refl, IH. done.
  - apply orb_false_iff in E as [_ ->]. by rewrite IH.
Qed.

Lemma unquote_quote v : unquoteAuthValue (quote v) = v.
Proof.
  unfold unquoteAuthValue, quote. cbn [String.length]. rewrite Ascii.eqb_refl, str_length_app. cbn [String.length].
  rewrite Nat.add_1_r. change (String dquote (escape v +:+ String dquote "")) with (String dquote (escape v) +:+ String dquote "").
  rewrite last_byte_snoc, bool_decide_true by done. cbn [Nat.ltb Nat.leb negb orb pred].
  by rewrite str_take_app_length, unescape_escape.
Qed.

(** ** Splitting a printed challenge *)
Lemma split_escape v r part : split_from (escape v +:+ String dquote r) part true false = split_from r (part +:+ escape v +:+ String dquote "") false false.
Proof.
  revert part. induction v as [|c v IH]; intros part; [done|]. cbn [escape]. destruct (_ || _) eqn:E.
  - cbn [String.append split_from]. rewrite Ascii.eqb_refl. cbn [andb]. rewrite IH. by rewrite <- !str_app_assoc.
  - apply orb_false_iff in E as [E1 E2]. cbn [String.append split_from]. rewrite E1, E2. cbn [andb negb]. rewrite andb_false_r.
    cbn [andb]. rewrite IH. by rewrite <- !str_app_assoc.
Qed.

Definition plain_byte (c : ascii) : bool := negb (Ascii.eqb c dquote) && negb (Ascii.eqb c ",").

Lemma split_plain k r part : str_forall plain_byte k = true -> split_from (k +:+ r) part false false = split_from r (part +:+ k) false false.
Proof.
  revert part. induction k as [|c k IH]; intros part; [by rewrite str_app_nil_r|]. cbn [str_forall]. intros [Hc Hk]%andb_true_iff.
  unfold plain_byte in Hc. apply andb_true_iff in Hc as [H1 H2]. apply negb_true_iff in H1, H2.
  cbn [String.append split_from]. rewrite H1, H2. cbn [andb]. rewrite IH by done. by rewrite <- str_app_assoc.
Qed.

Lemma token_plain_bytes k : str_forall token_byte k = true -> str_forall plain_byte k = true.
Proof. apply str_forall_impl. by apply ascii_impl_dec. Qed.

Lemma split_param p r part : token (fst p) -> split_from (param_text p +:+ r) part false false = split_from r (part +:+ param_text p) false false.
Proof.
  intros [Hk _]. unfold param_text, quote. rewrite <- !str_app_assoc. rewrite split_plain by by apply token_plain_bytes.
  rewrite (split_plain "=") by done. cbn [String.append split_from]. rewrite Ascii.eqb_refl. cbn [andb negb].
  change (Ascii.eqb dquote backslash) with false. cbv iota. rewrite <- str_app_assoc. cbn [String.append].
  rewrite split_escape. by rewrite <- !str_app_assoc.
Qed.

Lemma cut_param p : token (fst p) -> cut_byte (param_text p) "=" = (fst p, quote (snd p), true).
Proof.
  intros [Hk _]. unfold param_text. change ("=" +:+ quote (snd p)) with (String "=" (quote (snd p))). apply cut_byte_app.
  by apply (str_forall_no_byte token_byte).
Qed.

Lemma param_not_scheme p : token (fst p) -> authSchemeStart (param_text p) = false.
Proof. intros Hk. unfold authSchemeStart. rewrite cut_param by done. by rewrite TrimSpace_token, token_isAuthToken. Qed.

Lemma param_text_nonempty p : param_text p <> "".
Proof. unfold param_text, quote. intros [_ [=]%str_app_eq_nil%proj2]%str_app_eq_nil. Qed.

Lemma find_params ps param : Forall (fun p => token (fst p)) ps ->
  find_param (map param_text ps) param = match List.find (fun p => EqualFold (fst p) param) ps with Some p => snd p | None => "" end.
Proof.
  induction 1 as [|p ps Hk _ IH]; [done|]. cbn [map find_param List.find].
  pose proof (TrimSpace_param "" (fst p) (snd p) eq_refl Hk) as Ht. rewrite <- surjective_pairing in Ht. cbn [String.append] in Ht. rewrite Ht, cut_param by done.
  rewrite TrimSpace_token by done. cbn [andb]. destruct (EqualFold _ _); [by rewrite TrimSpace_quote, unquote_quote|done].
Qed.

(** A list of challenges, each with a parameter at least. *)
Definition params_ok (ps : list (string * string)) : Prop := ps <> [] /\ Forall (fun p => token (fst p)) ps.
Definition other_ok (o : string * list (string * string)) : Prop := token (fst o) /\ EqualFold (fst o) bearer = false /\ params_ok (snd o).
Definition other_text (o : string * list (string * string)) : string := challenge (fst o) (snd o).
Definition after_text (others : list (string * list (string * string))) : string := concat_str (map (fun o => ", " +:+ other_text o) others).

Lemma join_params_cons p ps : join ", " (map param_text (p :: ps)) = param_text p +:+ concat_str (map (fun p => ", " +:+ param_text p) ps).
Proof.
  revert p. induction ps as [|p' ps IH]; intros p; [by rewrite str_app_nil_r|].
  change (join ", " (map param_text (p :: p' :: ps))) with (param_text p +:+ ", " +:+ join ", " (map param_text (p' :: ps))).
  rewrite IH. cbn [map concat_str foldr]. by rewrite <- !str_app_assoc.
Qed.

Lemma spaced_not_token o k : token o -> token k -> isAuthToken (TrimSpace (o +:+ " " +:+ k)) = true -> False.
Proof.
  intros Ho Hk. destruct (token_split o Ho) as (c & s & _ & _ & E & _ & Hc & _), (token_split k Hk) as (_ & _ & t & d & _ & E' & _ & Hd).
  assert (TrimSpace (o +:+ " " +:+ k) = o +:+ " " +:+ k) as ->.
  { rewrite E, E'. cbn [String.append].
    apply (TrimSpace_plain "" c _ (String c (s +:+ String " " t)) d); [done| |by apply token_plain..]. cbn [String.append]. by rewrite <- !str_app_assoc. }
  unfold isAuthToken. intros [_ H]%andb_true_iff. rewrite runes_ascii in H.
  - rewrite !list_ascii_app, !map_app in H. rewrite !forallb_app in H. apply andb_true_iff in H as [_ H]. apply andb_true_iff in H as [H _]. vm_compute in H. done.
  - rewrite !str_forall_app. destruct Ho as [Ho _], Hk as [Hk _]. rewrite (token_ascii o Ho), (token_ascii k Hk). reflexivity.
Qed.

Lemma TrimSpace_scheme a o p : str_forall blank a = true -> token o ->
  TrimSpace (a +:+ o +:+ " " +:+ param_text p) = o +:+ " " +:+ param_text p.
Proof.
  intros Ha Ho. destruct (token_split o Ho) as (c & s & _ & _ & E & _ & Hc & _).
  unfold param_text. destruct (quote_snoc (snd p)) as [t ->]. rewrite E. cbn [String.append].
  eapply (TrimSpace_plain a c _ (String c (s +:+ String " " (fst p +:+ String "=" t))) dquote); [done| |by apply token_plain|done].
  cbn [String.append]. rewrite <- str_app_assoc. cbn [String.append]. by rewrite <- str_app_assoc.
Qed.

Lemma cut_scheme o p : token o -> token (fst p) ->
  cut_byte (o +:+ " " +:+ param_text p) "=" = (o +:+ " " +:+ fst p, quote (snd p), true).
Proof.
  intros [Ho _] [Hp _]. unfold param_text.
  replace (o +:+ " " +:+ fst p +:+ "=" +:+ quote (snd p)) with ((o +:+ " " +:+ fst p) +:+ String "=" (quote (snd p)))
    by (by rewrite <- !str_app_assoc).
  apply cut_byte_app, (str_forall_no_byte (fun c => negb (Ascii.eqb c "="))); [done|].
  assert (forall k, str_forall token_byte k = true -> str_forall (fun c => negb (Ascii.eqb c "=")) k = true) as H
    by (intros k; apply str_forall_impl; by apply ascii_impl_dec).
  rewrite !str_forall_app, (H o Ho), (H (fst p) Hp). done.
Qed.

Lemma scheme_text_start a o p : str_forall blank a = true -> token o -> token (fst p) ->
  authSchemeStart (TrimSpace (a +:+ o +:+ " " +:+ param_text p)) = true.
Proof.
  intros Ha Ho Hp. rewrite TrimSpace_scheme by done. unfold authSchemeStart. rewrite cut_scheme by done.
  destruct (isAuthToken (TrimSpace (o +:+ " " +:+ fst p))) eqn:Et; [by destruct (spaced_not_token o (fst p) Ho Hp Et)|].
  cbn [andb]. apply negb_true_iff, String.eqb_neq.
  assert (TrimSpace (o +:+ " " +:+ param_text p) = o +:+ " " +:+ param_text p) as -> by exact (TrimSpace_scheme "" o p eq_refl Ho). by intros [-> _]%str_app_eq_nil; destruct Ho.
Qed.

Lemma split_comma part r : authSchemeStart (TrimSpace part) = false ->
  split_from ("," +:+ r) part false false = TrimSpace part :: split_from r "" false false.
Proof. intros H. cbn [String.append split_from]. by rewrite H. Qed.

Lemma split_stops x part : x = "" \/ (exists t, x = String "," t) -> authSchemeStart (TrimSpace part) = true -> split_from x part false false = [].
Proof.
  intros [->|[t ->]] H; cbn [split_from]; rewrite H; [by rewrite andb_false_r|done].
Qed.

(** The parameters of a challenge, up to its end or to the next challenge. *)
Lemma split_challenge ps others : params_ok ps -> Forall other_ok others ->
  split_from (" " +:+ join ", " (map param_text ps) +:+ after_text others) "" false false = map param_text ps.
Proof.
  intros [Hne Hps] Ho. destruct Hps as [|p ps Hp Hps]; [done|]. clear Hne. rewrite join_params_cons.
  rewrite (split_plain " ") by done. change ("" +:+ " ") with " ". rewrite <- str_app_assoc, split_param by done.
  revert p Hp. induction Hps as [|p' ps Hp' _ IH]; intros p Hp; cbn [map concat_str foldr];
    pose proof (TrimSpace_param " " (fst p) (snd p) eq_refl Hp) as Ht; rewrite <- surjective_pairing in Ht;
    pose proof (param_not_scheme p Hp) as Hn; rewrite <- Ht in Hn.
  - change ("" +:+ after_text others) with (after_text others).
    destruct Ho as [|o others (Hs & _ & Hq) _].
    + cbn [after_text map concat_str foldr split_from]. rewrite Hn, Ht.
      rewrite (proj2 (String.eqb_neq _ _) (param_text_nonempty p)). done.
    + change (after_text (o :: others)) with ((", " +:+ other_text o) +:+ after_text others). rewrite <- str_app_assoc.
      change (", " +:+ ?x) with ("," +:+ " " +:+ x).
      rewrite split_comma by done. rewrite Ht. f_equal. destruct o as [o [|q qs]]; [by destruct Hq|]. destruct Hq as [_ Hq].
      inversion Hq as [|? ? Hq1 _]; subst. unfold other_text, challenge. cbn [fst snd] in *. rewrite join_params_cons, <- !str_app_assoc.
      rewrite (split_plain " ") by done. rewrite (split_plain o) by apply token_plain_bytes, Hs.
      rewrite (split_plain " "), split_param by done. rewrite <- !str_app_assoc.
      apply split_stops; [|by apply (scheme_text_start " ")].
      destruct qs as [|q' qs]; [|right; by eexists]. destruct others; [by left|right; by eexists].
  - change (foldr append "") with concat_str. rewrite <- !str_app_assoc.
    match goal with |- split_from (", " +:+ ?x) _ _ _ = _ => change (", " +:+ x) with ("," +:+ " " +:+ x) end.
    rewrite split_comma by done. rewrite Ht. f_equal. rewrite (split_plain " "), split_param by done. by apply IH.
Qed.

(** ** Finding the Bearer challenge *)
Lemma token_not_blank c : token_byte c = true -> blank c = false.
Proof. intros H. apply negb_true_iff. revert c H. by apply ascii_impl_dec. Qed.

Lemma skip_blanks_token a o u : str_forall blank a = true -> token o -> skip_blanks (a +:+ o +:+ u) = o +:+ u.
Proof.
  intros Ha Ho. destruct (token_split o Ho) as (c & s & _ & _ & -> & _ & Hc & _).
  pose proof (token_not_blank c Hc) as Hb.
  induction a as [|b a IH]; cbn [String.append skip_blanks]; [by rewrite Hb|]. cbn [str_forall] in Ha.
  apply andb_true_iff in Ha as [-> Ha]. exact (IH Ha).
Qed.

Lemma str_take_app_le n a b : (n <= String.length a)%nat -> str_take n (a +:+ b) = str_take n a.
Proof. revert a. induction n as [|n IH]; intros [|c a] H; cbn in *; try done; [lia|]. f_equal. apply IH. lia. Qed.
Lemma str_drop_app_le n a b : (n <= String.length a)%nat -> str_drop n (a +:+ b) = str_drop n a +:+ b.
Proof. revert a. induction n as [|n IH]; intros [|c a] H; cbn in *; try done; [lia|]. apply IH. lia. Qed.
Lemma str_take_app_ge n a b : (String.length a <= n)%nat -> str_take n (a +:+ b) = a +:+ str_take (n - String.length a) b.
Proof. revert n. induction a as [|c a IH]; intros n H; cbn in *; [by rewrite Nat.sub_0_r|]. destruct n; [lia|]. cbn. f_equal. apply IH. lia. Qed.

Lemma no_fold_bearer o x w : token o -> x = " "%char \/ x = "="%char -> EqualFold (o +:+ String x w) bearer = false.
Proof.
  intros [Ho _] Hx. unfold EqualFold. apply bool_decide_eq_false. intros E.
  rewrite runes_ascii_app in E by by apply token_ascii. rewrite map_app in E.
  assert (runes (String x w) = bz x :: runes w) as Er by (by destruct Hx as [->| ->]).
  rewrite Er in E. assert (fold_rune (bz x) ∈ map fold_rune (runes bearer)) as Hin by (rewrite <- E; apply elem_of_app; right; left).
  vm_compute in Hin. destruct Hx as [->| ->]; vm_compute in Hin; repeat (apply elem_of_cons in Hin as [|Hin]; [discriminate|]);
    by apply not_elem_of_nil in Hin.
Qed.

(** A segment that starts with another scheme, or with a parameter, is no Bearer challenge. *)
Lemma bearer_not a o x u : str_forall blank a = true -> token o -> x = "="%char \/ x = " "%char /\ EqualFold o bearer = false ->
  bearerSchemeAt (a +:+ o +:+ String x u) = None.
Proof.
  intros Ha Ho Hx. unfold bearerSchemeAt. rewrite skip_blanks_token by done.
  destruct (_ <? _)%nat eqn:El; [done|]. cbn [orb]. destruct (EqualFold (str_take 6 _) bearer) eqn:Ef; [|done]. cbn [negb].
  destruct (decide (String.length o < 6)%nat) as [Hl|Hl].
  - exfalso. rewrite str_take_app_ge in Ef by lia. destruct (6 - String.length o)%nat eqn:En; [lia|]. cbn [str_take] in Ef.
    rewrite no_fold_bearer in Ef; [done|done|tauto].
  - rewrite str_take_app_le in Ef by lia. rewrite str_drop_app_le by lia. pose proof (str_take_drop 6 o) as Eo.
    destruct (str_drop 6 o) as [|c o'].
    + rewrite str_app_nil_r in Eo. rewrite Eo in Ef. cbn [String.append]. destruct Hx as [->|[-> Hx]]; [done|congruence].
    + cbn [String.append]. destruct Ho as [Ho _]. rewrite <- Eo, str_forall_app in Ho. cbn [str_forall] in Ho.
      apply andb_true_iff in Ho as [_ [Hc _]%andb_true_iff].
      assert (negb (blank c) && negb (Ascii.eqb c ",") = true) as ->; [|done]. clear -Hc. revert c Hc. by apply ascii_impl_dec.
Qed.

Lemma bearer_at a scheme u : str_forall blank a = true -> token scheme -> String.length scheme = 6%nat -> EqualFold scheme bearer = true ->
  (match skip_blanks u with String "="%char _ => False | _ => True end) ->
  bearerSchemeAt (a +:+ scheme +:+ " " +:+ u) = Some (" " +:+ u).
Proof.
  intros Ha Hs Hl Hf Hu. unfold bearerSchemeAt. rewrite skip_blanks_token by done.
  replace (_ <? _)%nat with false by (symmetry; apply Nat.ltb_ge; rewrite str_length_app; lia).
  rewrite <- Hl, str_take_app_length, str_drop_app_length, Hf. cbn.
  destruct (skip_blanks u) as [|c w]; [done|]. by destruct c as [[] [] [] [] [] [] [] []].
Qed.

Lemma bearer_escape v r seg : bearer_from (escape v +:+ String dquote r) seg false true false = bearer_from r seg false false false.
Proof.
  induction v as [|c v IH]; [done|]. cbn [escape]. destruct (_ || _) eqn:E.
  - cbn [String.append bearer_from andb negb]. rewrite Ascii.eqb_refl. done.
  - apply orb_false_iff in E as [E1 E2]. cbn [String.append bearer_from andb negb]. rewrite E1, E2, andb_false_r. done.
Qed.

Lemma bearer_step c r seg start : plain_byte c = true -> (start = true -> bearerSchemeAt seg = None) ->
  bearer_from (String c r) seg start false false = bearer_from r seg false false false.
Proof.
  unfold plain_byte. intros [H1 H2]%andb_true_iff Hs. apply negb_true_iff in H1, H2. cbn [bearer_from negb andb].
  destruct start; [rewrite Hs by done|]; by rewrite H1, H2.
Qed.

Lemma bearer_plain k r seg : str_forall plain_byte k = true -> bearer_from (k +:+ r) seg false false false = bearer_from r seg false false false.
Proof.
  induction k as [|c k IH]; [done|]. cbn [str_forall]. intros [Hc Hk]%andb_true_iff. cbn [String.append].
  rewrite bearer_step by done. auto.
Qed.

Lemma bearer_param p r seg : token (fst p) -> bearer_from (param_text p +:+ r) seg false false false = bearer_from r seg false false false.
Proof.
  intros [Hk _]. unfold param_text, quote. rewrite <- !str_app_assoc, bearer_plain by by apply token_plain_bytes.
  rewrite (bearer_plain "=") by done. cbn [String.append]. cbn [bearer_from negb andb]. change (Ascii.eqb dquote dquote) with true. cbv iota.
  rewrite <- str_app_assoc. apply bearer_escape.
Qed.

(** The first bytes of a segment that is no Bearer challenge. *)
Lemma bearer_segment a o x u : str_forall blank a = true -> token o -> x = "="%char \/ x = " "%char /\ EqualFold o bearer = false ->
  let seg := a +:+ o +:+ String x u in bearer_from seg seg true false false = bearer_from u seg false false false.
Proof.
  intros Ha Ho Hx seg. pose proof (bearer_not a o x u Ha Ho Hx) as Hn. fold seg in Hn.
  assert (exists c w, seg = String c w /\ plain_byte c = true /\ w = str_drop 1 (a +:+ o) +:+ String x u /\ str_forall plain_byte (str_drop 1 (a +:+ o)) = true)
    as (c & w & E & Hc & Ew & Hw).
  { assert (str_forall plain_byte (a +:+ o) = true) as Hp.
    { rewrite str_forall_app. rewrite (token_plain_bytes o) by apply Ho. rewrite andb_true_r. revert Ha. apply str_forall_impl. by apply ascii_impl_dec. }
    destruct (a +:+ o) as [|c w] eqn:E; [by apply str_app_eq_nil in E as [_ ->]; destruct Ho|].
    cbn [str_forall] in Hp. apply andb_true_iff in Hp as [Hc Hw]. exists c, (w +:+ String x u). unfold seg. rewrite str_app_assoc, E. auto. }
  rewrite E at 1. rewrite bearer_step by done. rewrite Ew, bearer_plain by done.
  apply bearer_step; [by destruct Hx as [->|[-> _]]|done].
Qed.

Lemma bearer_comma r seg : bearer_from ("," +:+ r) seg false false false = bearer_from r r true false false.
Proof. reflexivity. Qed.

Lemma bearer_other a o r : str_forall blank a = true -> other_ok o ->
  let seg := a +:+ other_text o +:+ ", " +:+ r in bearer_from seg seg true false false = bearer_from (" " +:+ r) (" " +:+ r) true false false.
Proof.
  intros Ha (Ho & Hf & Hne & Hps) seg. destruct o as [o [|p ps]]; [done|]. cbn [fst snd] in *. inversion Hps as [|? ? Hp Hps']; subst. clear Hne Hps.
  assert (seg = a +:+ o +:+ String " " (param_text p +:+ concat_str (map (fun p => ", " +:+ param_text p) ps) +:+ ", " +:+ r)) as E.
  { unfold seg, other_text, challenge. cbn [fst snd]. rewrite join_params_cons, <- !str_app_assoc. done. }
  rewrite E. pose proof (bearer_segment a o " " (param_text p +:+ concat_str (map (fun p => ", " +:+ param_text p) ps) +:+ ", " +:+ r) Ha Ho) as Hs.
  cbv zeta in Hs. rewrite Hs by auto. rewrite bearer_param by done. clear E Hs Hp. clearbody seg.
  generalize (a +:+ o +:+ String " " (param_text p +:+ concat_str (map (fun p => ", " +:+ param_text p) ps) +:+ ", " +:+ r)).
  induction Hps' as [|q ps Hq _ IH]; intros sg; cbn [map concat_str foldr].
  - done.
  - change (foldr append "") with concat_str. rewrite <- !str_app_assoc.
    match goal with |- bearer_from (", " +:+ ?x) _ _ _ _ = _ => change (", " +:+ x) with ("," +:+ " " +:+ x) end. rewrite bearer_comma.
    change (param_text q) with (fst q +:+ "=" +:+ quote (snd q)). rewrite <- !str_app_assoc.
    match goal with |- bearer_from (" " +:+ _ +:+ "=" +:+ ?x) _ _ _ _ = _ =>
      change ("=" +:+ x) with (String "=" x); pose proof (bearer_segment " " (fst q) "=" x eq_refl Hq (or_introl eq_refl)) as Hs end.
    cbv zeta in Hs. rewrite Hs. clear Hs. unfold quote. rewrite str_app_cons, <- str_app_assoc. cbn [bearer_from negb andb].
    change (Ascii.eqb dquote dquote) with true. cbv iota. cbn [String.append]. rewrite bearer_escape. apply IH.
Qed.

Definition before_text (others : list (string * list (string * string))) : string := concat_str (map (fun o => other_text o +:+ ", ") others).

Lemma bearer_found a scheme ps before r : str_forall blank a = true -> token scheme -> String.length scheme = 6%nat ->
  EqualFold scheme bearer = true -> params_ok ps -> Forall other_ok before ->
  let h := a +:+ before_text before +:+ challenge scheme ps +:+ r in
  bearer_from h h true false false = Some (" " +:+ join ", " (map param_text ps) +:+ r).
Proof.
  intros Ha Hs Hl Hf Hps Hb. revert a Ha. induction Hb as [|o before Ho _ IH]; intros a Ha h; subst h.
  - cbn [before_text map concat_str foldr]. change ("" +:+ ?x) with x. unfold challenge. rewrite <- !str_app_assoc.
    assert (bearerSchemeAt (a +:+ scheme +:+ " " +:+ join ", " (map param_text ps) +:+ r) = Some (" " +:+ join ", " (map param_text ps) +:+ r)) as E.
    { apply bearer_at; try done. destruct Hps as [Hne Hps], Hps as [|p ps Hp _]; [done|]. rewrite join_params_cons.
      unfold param_text at 1. destruct (token_split (fst p) Hp) as (c & s & _ & _ & -> & _ & Hc & _). cbn [String.append skip_blanks].
      rewrite (token_not_blank c Hc). by destruct c as [[] [] [] [] [] [] [] []]. }
    destruct (a +:+ scheme +:+ " " +:+ join ", " (map param_text ps) +:+ r) as [|c w] eqn:Eh; [by vm_compute in E|].
    cbn [bearer_from negb andb]. by rewrite E.
  - unfold before_text. cbn [map concat_str foldr]. change (foldr append "" (map (fun o => other_text o +:+ ", ") before)) with (before_text before).
    rewrite <- !str_app_assoc. rewrite (bearer_other a o (before_text before +:+ challenge scheme ps +:+ r) Ha Ho).
    by apply (IH " ").
Qed.

(** C26: from a header that holds a Bearer challenge (its name in any letter case) between
    other challenges, any parameter the challenge was given is read back, whatever
    characters its value has: the value of the first parameter of that name, or the empty
    string.  A Bearer challenge quoted inside another one is never taken for it. *)
Theorem challenge_roundtrip before scheme ps after param :
  Forall other_ok before -> Forall other_ok after -> params_ok ps ->
  token scheme -> String.length scheme = 6%nat -> EqualFold scheme bearer = true ->
  parseWWWAuthParam (before_text before +:+ challenge scheme ps +:+ after_text after) param =
  match List.find (fun p => EqualFold (fst p) param) ps with Some p => snd p | None => "" end.
Proof.
  intros Hb Ha Hps Hs Hl Hf. unfold parseWWWAuthParam, splitAuthParams, bearerStart.
  pose proof (bearer_found "" scheme ps before (after_text after) eq_refl Hs Hl Hf Hps Hb) as E. cbv zeta in E.
  change ("" +:+ ?x) with x in E. rewrite E, split_challenge by done. apply find_params, Hps.
Qed.

Lemma challenge_roundtrip_witness :
  parseWWWAuthParam (before_text [("Basic", [("realm", "x, Bearer scope=y")])] +:+ challenge "bearer" [("error", "no"); ("Scope", String dquote "a, b")] +:+
    after_text [("Digest", [("scope", "z")])]) "scope" = String dquote "a, b".
Proof.
  assert (forall k, k ∈ ["Basic"; "realm"; "bearer"; "error"; "Scope"; "Digest"; "scope"] -> token k) as Ht.
  { intros k Hk. repeat (apply elem_of_cons in Hk as [->|Hk]; [split; [reflexivity|discriminate]|]). by apply not_elem_of_nil in Hk. }
  apply (challenge_roundtrip [("Basic", [("realm", "x, Bearer scope=y")])] "bearer" [("error", "no"); ("Scope", String dquote "a, b")]
    [("Digest", [("scope", "z")])] "scope").
  - repeat constructor; try discriminate; apply Ht; set_solver.
  - repeat constructor; try discriminate; apply Ht; set_solver.
  - split; [discriminate|]. repeat constructor; apply Ht; set_solver.
  - apply Ht. set_solver.
  - reflexivity.
  - vm_compute. reflexivity.
Defined.
