(* ===== verification/JsonTokenProps.v ===== *)
(** * Properties of the token reader

    What the printer of JsonText.v writes is read back: string literals and numbers
    followed by anything that ends them; and every token takes at least one byte. *)
From S2P Require Import Prelude GoStr Utf8.
From S2P Require Import ToonValue ToonQuote ToonNumbers.
From S2P Require Import JsonText JsonToken.

(** ** String literals *)
Lemma unquote_from_drop n s : unquote_from n s = unquote_literal (str_drop n s).
Proof. revert n. induction s as [|c s IH]; intros [|n]; simpl; auto. Qed.

Lemma hex_char_digit n : 0 <= n < 16 -> is_hex (hex_char n) = true /\ hex_digit_value (hex_char n) = n.
Proof.
  intros H. assert (n ∈ [0;1;2;3;4;5;6;7;8;9;10;11;12;13;14;15]) as Hn by (rewrite !elem_of_cons; lia).
  repeat (apply elem_of_cons in Hn as [->|Hn]; [done|]). by apply not_elem_of_nil in Hn.
Qed.

Lemma getu4_escape r t : 0 <= r < 65536 -> getu4 (unicode_escape r +:+ t) = Some r.
Proof.
  intros H. unfold unicode_escape. cbn [String.append]. unfold getu4. rewrite !Ascii.eqb_refl. cbn [andb].
  rewrite !(fun n => proj1 (hex_char_digit (n mod 16) (Z.mod_pos_bound n 16 eq_refl))). cbn [andb].
  rewrite !(fun n => proj2 (hex_char_digit (n mod 16) (Z.mod_pos_bound n 16 eq_refl))).
  f_equal. Z.div_mod_to_equations. lia.
Qed.

Lemma getu4_other b e u : e <> "u"%char -> getu4 (String b (String e u)) = None.
Proof.
  intros H. destruct u as [|c1 [|c2 [|c3 [|c4 u]]]]; [done..|]. unfold getu4.
  by rewrite (proj2 (Ascii.eqb_neq _ _) H), andb_false_r.
Qed.

Lemma unquote_unicode r t : 0 <= r < 55296 \/ 57344 <= r < 65536 ->
  unquote_literal (unicode_escape r +:+ t) = prepend (encode_rune r) (unquote_literal t).
Proof.
  intros H. unfold unquote_literal. change (unicode_escape r +:+ t) with (String backslash (str_drop 1 (unicode_escape r +:+ t))) at 1.
  cbn [unquote_from]. rewrite Ascii.eqb_refl. unfold unicode_rune.
  change (String backslash (str_drop 1 (unicode_escape r +:+ t))) with (unicode_escape r +:+ t).
  rewrite getu4_escape by lia. replace (is_surrogate r) with false by (symmetry; unfold is_surrogate; bool_to_prop; lia).
  rewrite unquote_from_drop. reflexivity.
Qed.

Lemma decoded_prefix s r n t : decoded s r n -> decode_rune (encode_rune r +:+ t) = (r, n) /\ n = String.length (encode_rune r).
Proof.
  intros D. destruct (decoded_encode _ _ _ D) as [E L]. split; [|done].
  apply decoded_decode, decoded_app. replace (encode_rune r) with (str_take n s); [by apply decoded_take|].
  rewrite E, L at 1. apply str_take_app_length.
Qed.

Lemma unquote_plain s r n t : decoded s r n -> 32 <= r -> r <> 34 -> r <> 92 ->
  unquote_literal (encode_rune r +:+ t) = prepend (encode_rune r) (unquote_literal t).
Proof.
  intros D Hr Hq Hb. destruct (decoded_prefix s r n t D) as [E L]. pose proof (decoded_pos _ _ _ D) as Hn.
  assert (Hd : str_drop n (encode_rune r +:+ t) = t) by (rewrite L; apply str_drop_app_length).
  destruct (encode_rune r +:+ t) as [|c u] eqn:Eu; [by destruct (encode_rune r); [simpl in L; lia|]|].
  assert (c <> backslash /\ c <> dquote /\ 32 <= bz c) as (H1 & H2 & H3).
  { destruct (decoded_bytes _ _ _ D) as [(c' & -> & Ec & Hc)|[_ Hc]].
    - rewrite Ec in Eu. injection Eu as -> _. split_and!; [by intros ->|by intros ->|done].
    - destruct (encode_rune r) as [|c' w]; [simpl in L; lia|]. injection Eu as -> _. cbn [str_forall] in Hc.
      apply andb_true_iff in Hc as [Hc _]. unfold ascii_byte in Hc. split_and!; [by intros ->|by intros ->|bool_to_prop; lia]. }
  unfold unquote_literal. cbn [unquote_from]. rewrite (proj2 (Ascii.eqb_neq _ _) H1), (proj2 (Ascii.eqb_neq _ _) H2).
  replace (bz c <? 32) with false by (symmetry; bool_to_prop; lia). cbn [orb]. rewrite E. cbn [fst snd].
  rewrite unquote_from_drop. by destruct n as [|n]; [lia|]; cbn [pred str_drop] in *; rewrite Hd.
Qed.

(** Each rune of a well-formed string: its escape is read back and passed over. *)
Lemma json_rune_cases html s r n : decoded s r n -> decode_rune s = (r, n) ->
  (exists e d, json_rune html (r, n) = String backslash (String e "") /\ encode_rune r = String d "" /\
     simple_escape e = Some d /\ byte_in e (String dquote (String backslash "/bfnrt")) = true /\ e <> "u"%char) \/
  (json_rune html (r, n) = unicode_escape r /\ (0 <= r < 55296 \/ 57344 <= r < 65536)) \/
  (json_rune html (r, n) = encode_rune r /\ 32 <= r /\ r <> 34 /\ r <> 92).
Proof.
  intros D E. unfold json_rune. cbn [fst].
  assert (bad_rune (r, n) = false) as ->.
  { unfold bad_rune, RuneError. cbn [fst snd]. destruct D; [|by rewrite andb_false_r..].
    rewrite (proj2 (Z.eqb_neq _ 65533)) by lia. done. }
  assert (0 <= r) by (destruct (decoded_bytes _ _ _ D) as [(c & -> & _)|[? _]]; [apply bz_range|lia]).
  destruct (Z.eqb_spec r 92) as [->|?]; [left; by exists backslash, backslash|].
  destruct (Z.eqb_spec r 34) as [->|?]; [left; by exists dquote, dquote|].
  destruct (Z.eqb_spec r 8) as [->|?]; [left; by exists "b"%char, (az 8)|].
  destruct (Z.eqb_spec r 12) as [->|?]; [left; by exists "f"%char, (az 12)|].
  destruct (Z.eqb_spec r 10) as [->|?]; [left; by exists "n"%char, (az 10)|].
  destruct (Z.eqb_spec r 13) as [->|?]; [left; by exists "r"%char, (az 13)|].
  destruct (Z.eqb_spec r 9) as [->|?]; [left; by exists "t"%char, (az 9)|].
  right. destruct (r <? 32) eqn:E1; [left; split; [done|bool_to_prop; lia]|].
  destruct (html && _) eqn:E2; [left; split; [done|apply andb_true_iff in E2 as [_ E2]; bool_to_prop; lia]|].
  destruct ((r =? 8232) || _) eqn:E3; [left; split; [done|bool_to_prop; lia]|].
  right. bool_to_prop. split_and!; [done|lia|lia|lia].
Qed.

Lemma json_body_from_drop html n s : json_body_from html n s = json_body html (str_drop n s).
Proof. revert n. induction s as [|c s IH]; intros [|n]; simpl; auto. Qed.

Lemma json_body_decoded html s r n : decode_rune s = (r, n) -> decoded s r n ->
  json_body html s = json_rune html (r, n) +:+ json_body html (str_drop n s).
Proof.
  intros E D. pose proof (decoded_pos _ _ _ D). destruct s as [|c s]; [by inversion D|]. unfold json_body at 1.
  cbn [json_body_from]. rewrite E. cbn [snd]. f_equal. destruct n as [|n]; [lia|]. cbn [pred str_drop].
  apply json_body_from_drop.
Qed.

Lemma prepend_prepend a b o : prepend a (prepend b o) = prepend (a +:+ b) o.
Proof. destruct o; simpl; [by rewrite str_app_assoc|done]. Qed.

(** The body of a string literal reads back as the string. *)
Lemma unquote_body html s t : valid_utf8 s = true -> unquote_literal (json_body html s +:+ t) = prepend s (unquote_literal t).
Proof.
  revert s. apply valid_ind; [change (json_body html "" +:+ t) with t; by destruct (unquote_literal t)|]. intros s r n E D _ IH.
  rewrite (json_body_decoded _ _ _ _ E D), <- str_app_assoc.
  replace (prepend s (unquote_literal t)) with (prepend (encode_rune r) (unquote_literal (json_body html (str_drop n s) +:+ t)))
    by (rewrite IH, prepend_prepend; by destruct (decoded_encode _ _ _ D) as [<- _]).
  destruct (json_rune_cases html s r n D E) as [(e & d & -> & -> & He & _ & Hu)|[[-> Hr]|(-> & Hr & Hq & Hb)]];
    [|by apply unquote_unicode|by eapply unquote_plain].
  unfold unquote_literal at 1. cbn [String.append unquote_from]. rewrite Ascii.eqb_refl. unfold unicode_rune.
  rewrite getu4_other by done. rewrite He. by rewrite unquote_from_drop.
Qed.

Lemma scan_string_plain e t : str_forall (fun c => negb (Ascii.eqb c dquote) && negb (Ascii.eqb c backslash) && negb (bz c <? 32)) e = true ->
  scan_string (e +:+ t) = scan_string t.
Proof.
  induction e as [|c e IH]; [done|]. cbn [str_forall String.append scan_string]. rewrite !andb_true_iff, !negb_true_iff.
  intros [[[-> ->] ->] He]. auto.
Qed.

Lemma scan_rune html s r n u : decode_rune s = (r, n) -> decoded s r n -> scan_string (json_rune html (r, n) +:+ u) = scan_string u.
Proof.
  intros E D. destruct (json_rune_cases html s r n D E) as [(e & d & -> & _ & _ & He & Hu)|[[-> Hr]|(-> & Hr & Hq & Hb)]].
  - cbn [String.append scan_string]. rewrite Ascii.eqb_refl. change (Ascii.eqb backslash dquote) with false. cbv iota.
    destruct (decide (e = "u"%char)) as [|_]; [done|]. rewrite He.
    destruct e as [[] [] [] [] [] [] [] []]; try done.
  - unfold unicode_escape. cbn [String.append scan_string]. rewrite Ascii.eqb_refl. change (Ascii.eqb backslash dquote) with false.
    cbv iota. by rewrite !(fun n => proj1 (hex_char_digit (n mod 16) (Z.mod_pos_bound n 16 eq_refl))).
  - apply scan_string_plain. destruct (decoded_bytes _ _ _ D) as [(c & -> & -> & Hc)|[_ Hc]].
    + cbn [str_forall]. rewrite (proj2 (Ascii.eqb_neq c dquote)), (proj2 (Ascii.eqb_neq c backslash)) by (intros ->; done).
      replace (bz c <? 32) with false by (symmetry; bool_to_prop; lia). done.
    + eapply str_forall_impl; [|exact Hc]. intros c Hn. unfold ascii_byte in Hn.
      rewrite (proj2 (Ascii.eqb_neq c dquote)), (proj2 (Ascii.eqb_neq c backslash)) by (intros ->; done).
      replace (bz c <? 32) with false by (symmetry; bool_to_prop; lia). done.
Qed.

(** What is not UTF-8 is written as an escape, so that every body is read over. *)
Lemma scan_string_body html s t : scan_string (json_body html s +:+ t) = scan_string t.
Proof.
  remember (String.length s) as k eqn:Hk. revert s Hk. induction (lt_wf k) as [k _ IH]; intros s ->.
  destruct (decode_rune_inv s) as [[_ ->]|[E|(r & n & E & D)]]; [done| |].
  - destruct s as [|c s]; [done|]. unfold json_body. cbn [json_body_from]. rewrite E. cbn [snd pred]. change (json_body_from html 0 s) with (json_body html s).
    rewrite <- str_app_assoc. change (scan_string (json_body html s +:+ t) = scan_string t). eapply IH; [|reflexivity]. cbn [String.length]. lia.
  - rewrite (json_body_decoded _ _ _ _ E D), <- str_app_assoc, (scan_rune _ _ _ _ _ E D). eapply IH; [|reflexivity].
    pose proof (decoded_pos _ _ _ D). destruct s as [|c s]; [by inversion D|]. rewrite str_length_drop. cbn [String.length]. lia.
Qed.

Lemma decode_scalar_string html s t : valid_utf8 s = true ->
  decode_scalar (json_string html s +:+ t) = Some (JString s, t).
Proof.
  intros Hs. unfold json_string. rewrite str_app_cons, <- str_app_assoc. cbn [String.append].
  unfold decode_scalar. cbn [scan_scalar]. rewrite Ascii.eqb_refl, scan_string_body by done. cbn [scan_string]. rewrite Ascii.eqb_refl.
  assert (str_take (String.length (String dquote (json_body html s +:+ String dquote t)) - String.length t)
            (String dquote (json_body html s +:+ String dquote t)) = String dquote (json_body html s +:+ String dquote "")) as ->.
  { change (String dquote (json_body html s +:+ String dquote t)) with (String dquote (json_body html s) +:+ String dquote "" +:+ t).
    rewrite str_app_assoc, str_length_app, Nat.add_sub. rewrite str_take_app_length. done. }
  rewrite Ascii.eqb_refl. rewrite str_length_app. cbn [String.length]. rewrite Nat.add_1_r. cbn [pred].
  rewrite str_take_app_length. pose proof (unquote_body html s "" Hs) as H. rewrite str_app_nil_r in H. rewrite H. simpl.
  by rewrite str_app_nil_r.
Qed.

(** ** Numbers *)
(** What may follow a value. *)
Definition stops (r : string) : bool :=
  match r with "" => true | String c _ => json_space c || byte_in c ",]}" end.

Lemma stops_head r : stops r = true ->
  no_digit_head r /\ match r with String c _ => c <> "."%char /\ Ascii.eqb c "e" || Ascii.eqb c "E" = false | "" => True end.
Proof.
  destruct r as [|c r]; [done|]. cbn [stops no_digit_head]. destruct c as [[] [] [] [] [] [] [] []]; done.
Qed.

Lemma scan_digits_app d r : str_forall is_digit d = true -> no_digit_head r -> scan_digits (d +:+ r) = r.
Proof.
  induction d as [|c d IH]; cbn [str_forall String.append scan_digits].
  - destruct r as [|c r]; [done|]. cbn [no_digit_head String.append scan_digits]. by intros _ ->.
  - rewrite andb_true_iff. intros [-> Hd]. auto.
Qed.

Lemma scan_digits1_app d r : digits1 d -> no_digit_head r -> scan_digits1 (d +:+ r) = Some r.
Proof.
  intros [Hd Hne] Hr. destruct d as [|c d]; [done|]. cbn [str_forall String.append scan_digits1] in *.
  apply andb_true_iff in Hd as [-> Hd]. by rewrite scan_digits_app.
Qed.

Lemma not_digit_head c d r : digits1 d -> is_digit c = false -> exists e d', d +:+ r = String e d' /\ e <> c.
Proof.
  intros [Hd Hne] Hc. destruct d as [|e d]; [done|]. eexists _, _. split; [done|]. intros ->. cbn in Hd. by rewrite Hc in Hd.
Qed.

Lemma scan_exp ex r : exp_part ex -> stops r = true ->
  match ex +:+ r with
  | "" => Some ""
  | String c s' =>
      if Ascii.eqb c "e" || Ascii.eqb c "E" then
        match s' with
        | String d s'' => if Ascii.eqb d "+" || Ascii.eqb d "-" then scan_digits1 s'' else scan_digits1 s'
        | "" => None
        end
      else Some (String c s')
  end = Some r.
Proof.
  intros He Hs. destruct (stops_head r Hs) as [Hn Hr]. destruct He as [->|(e & sg & d & -> & He & Hsg & Hd)].
  - cbn [String.append]. destruct r as [|c r]; [done|]. by destruct Hr as [_ ->].
  - cbn [String.append]. rewrite (proj2 (is_exp_char e) He), <- str_app_assoc. destruct Hsg as [->|[->| ->]].
    + cbn [String.append]. destruct (not_digit_head "+" d r) as (x & d' & E & Hx); [done..|].
      destruct (not_digit_head "-" d r) as (x' & d'' & E' & Hx'); [done..|]. rewrite E in E'. injection E' as -> ->.
      rewrite E, (proj2 (Ascii.eqb_neq _ _) Hx), (proj2 (Ascii.eqb_neq _ _) Hx'). cbn [orb]. rewrite <- E. by apply scan_digits1_app.
    + cbn [String.append]. by apply scan_digits1_app.
    + cbn [String.append]. by apply scan_digits1_app.
Qed.

Lemma scan_number_json n r : json_number n -> stops r = true -> scan_number (n +:+ r) = Some r.
Proof.
  intros [sg ip fr ex Hsg [Hip Hz] Hfr Hex] Hs. unfold scan_number. rewrite <- !str_app_assoc.
  assert (trim_prefix (sg +:+ ip +:+ fr +:+ ex +:+ r) "-" = ip +:+ fr +:+ ex +:+ r) as ->.
  { destruct Hsg as [->| ->]; [|apply trim_prefix_app]. cbn [String.append].
    destruct (not_digit_head "-" ip (fr +:+ ex +:+ r)) as (x & d' & -> & Hx); [done..|]. unfold trim_prefix. cbn [has_prefix].
    by rewrite (proj2 (Ascii.eqb_neq _ _) Hx). }
  assert (no_digit_head (fr +:+ ex +:+ r)) as Hn.
  { destruct Hfr as [->|(d & -> & _)]; [|done]. destruct Hex as [->|(e & sg' & d & -> & [->| ->] & _)]; [by apply stops_head|done..]. }
  assert (no_digit_head (ex +:+ r)) as Hn'.
  { destruct Hex as [->|(e & sg' & d & -> & [->| ->] & _)]; [by apply stops_head|done..]. }
  assert (match ip +:+ fr +:+ ex +:+ r with String "0"%char s' => Some s' | _ => scan_digits1 (ip +:+ fr +:+ ex +:+ r) end = Some (fr +:+ ex +:+ r)) as ->.
  { rewrite scan_digits1_app by done. destruct Hz as [->|Hz]; [done|]. destruct ip as [|c ip]; [by destruct Hip|].
    cbn [String.append]. destruct c as [[] [] [] [] [] [] [] []]; try reflexivity. done. }
  pose proof (scan_exp ex r Hex Hs) as HX. destruct Hfr as [->|(d & -> & Hd)]; cbn [String.append].
  - assert (match ex +:+ r with String "."%char s' => scan_digits1 s' | _ => Some (ex +:+ r) end = Some (ex +:+ r)) as ->; [|done].
    assert (match ex +:+ r with String c _ => c <> "."%char | "" => True end) as Hc.
    { destruct Hex as [->|(e & sg' & d & -> & [->| ->] & _)]; [|done..]. destruct r; [done|]. by apply stops_head in Hs as [_ [? _]]. }
    destruct (ex +:+ r) as [|c u]; [done|]. destruct c as [[] [] [] [] [] [] [] []]; try reflexivity. done.
  - rewrite scan_digits1_app by done. done.
Qed.

Lemma json_number_head n : json_number n -> exists c t, n = String c t /\ (c = "-"%char \/ is_digit c = true).
Proof.
  intros [sg ip fr ex [->| ->] [[Hd Hne] _] _ _]; [|by eexists _, _; eauto].
  destruct ip as [|c ip]; [done|]. cbn in Hd. apply andb_true_iff in Hd as [Hd _]. eexists _, _. cbn [String.append]. eauto.
Qed.

Lemma scalar_lexeme a r : str_take (String.length (a +:+ r) - String.length r) (a +:+ r) = a.
Proof. rewrite str_length_app, Nat.add_sub. apply str_take_app_length. Qed.

Lemma decode_scalar_number n r : json_number n -> stops r = true -> decode_scalar (n +:+ r) = Some (JNumber n, r).
Proof.
  intros Hj Hs. destruct (json_number_head n Hj) as (c & t & E & Hc).
  assert (forall x, is_digit x = false -> x <> "-"%char -> Ascii.eqb c x = false) as Hne.
  { intros x Hx Hm. apply Ascii.eqb_neq. intros ->. destruct Hc; [by subst|congruence]. }
  unfold decode_scalar. assert (scan_scalar (n +:+ r) = scan_number (n +:+ r)) as ->.
  { rewrite E. cbn [String.append scan_scalar]. by rewrite !Hne. }
  rewrite (scan_number_json n r Hj Hs), scalar_lexeme. rewrite E. by rewrite !Hne.
Qed.

Lemma scan_literal_app l r : scan_literal l (l +:+ r) = Some r.
Proof. unfold scan_literal. rewrite (proj2 (has_prefix_spec _ _)) by eauto. by rewrite str_drop_app_length. Qed.

Lemma decode_scalar_literal l t r : (l, t) ∈ [("null", JNull); ("true", JBool true); ("false", JBool false)] ->
  decode_scalar (l +:+ r) = Some (t, r).
Proof.
  intros H. unfold decode_scalar.
  assert (scan_scalar (l +:+ r) = scan_literal l (l +:+ r)) as ->.
  { repeat (apply elem_of_cons in H as [[= -> ->]|H]; [reflexivity|]). by apply not_elem_of_nil in H. }
  rewrite scan_literal_app, scalar_lexeme.
  repeat (apply elem_of_cons in H as [[= -> ->]|H]; [reflexivity|]). by apply not_elem_of_nil in H.
Qed.

(** ** Tokens *)
Lemma skip_ws_length s : (String.length (skip_ws s) <= String.length s)%nat.
Proof. induction s as [|c s IH]; [done|]. cbn [skip_ws]. destruct (json_space c); cbn [String.length] in *; lia. Qed.

Lemma decode_scalar_shorter s t r : decode_scalar s = Some (t, r) -> (String.length r < String.length s)%nat.
Proof.
  unfold decode_scalar. destruct (scan_scalar s) as [r'|]; [|done]. intros H.
  enough (r' = r /\ String.length s - String.length r' <> 0)%nat as [-> ?] by lia.
  destruct (String.length s - String.length r')%nat; [done|]. split; [|done].
  destruct (str_take _ s) as [|c l]; [done|]. repeat case_match; simplify_eq; done.
Qed.

Lemma token_at_shorter c s st stk t d : token_at c s st stk = TokenOk t d -> s <> "" -> (String.length (rest d) < String.length s)%nat.
Proof.
  intros H Hs. assert (String.length (str_drop 1 s) < String.length s)%nat by (destruct s; [done|simpl; lia]).
  unfold token_at in H. destruct (open_state c).
  - destruct (tokenValueAllowed st); [|done]. by injection H as <- <-.
  - destruct (_ || _).
    + destruct (closes c st); [|done]. destruct stk; [done|]. by injection H as <- <-.
    + destruct (_ && _).
      * destruct (decode_scalar s) as [[t' r]|] eqn:E; [|done]. injection H as <- <-. by apply decode_scalar_shorter in E.
      * destruct (tokenValueAllowed st); [|done].
        destruct (decode_scalar s) as [[t' r]|] eqn:E; [|done]. injection H as <- <-. by apply decode_scalar_shorter in E.
Qed.

Lemma Token_shorter d t d' : Token d = TokenOk t d' -> (String.length (rest d') < String.length (rest d))%nat.
Proof.
  unfold Token. pose proof (skip_ws_length (rest d)) as H1. destruct (skip_ws (rest d)) as [|c s]; [done|].
  destruct (_ || _).
  - destruct (punctuate c (state d)); [|done]. pose proof (skip_ws_length s) as H2. cbn [String.length] in H1.
    destruct (skip_ws s) as [|c' s']; [done|]. destruct (_ || _); [done|]. intros H. apply token_at_shorter in H; [lia|done].
  - intros H. apply token_at_shorter in H; [lia|done].
Qed.

(** The punctuation before a value and the state it leads to. *)
Definition lead (p : string) (st st' : tokenState) : Prop :=
  (p = "" /\ st' = st) \/ (p = "," /\ st = tokenArrayComma /\ st' = tokenArrayValue) \/
  (p = "," /\ st = tokenObjectComma /\ st' = tokenObjectKey) \/ (p = ":" /\ st = tokenObjectColon /\ st' = tokenObjectValue).

Definition value_head (c : ascii) : bool := negb (json_space c) && negb (byte_in c ",:]}").

Lemma value_head_inv c : value_head c = true ->
  json_space c = false /\ Ascii.eqb c "," = false /\ Ascii.eqb c ":" = false /\ Ascii.eqb c "]" = false /\ Ascii.eqb c "}" = false.
Proof. unfold value_head. cbn [byte_in]. rewrite andb_true_iff, !negb_true_iff, !orb_false_iff. tauto. Qed.

Lemma Token_lead p st st' c u stk : lead p st st' -> value_head c = true ->
  Token {| rest := p +:+ String c u; state := st; stack := stk |} = token_at c (String c u) st' stk.
Proof.
  intros Hl Hc. apply value_head_inv in Hc as (Hw & H1 & H2 & _ & _). unfold Token. cbn [rest state stack].
  assert (skip_ws (String c u) = String c u) as Hs by (cbn [skip_ws]; by rewrite Hw).
  destruct Hl as [(-> & ->)|[(-> & -> & ->)|[(-> & -> & ->)|(-> & -> & ->)]]].
  - cbn [String.append]. rewrite Hs. by rewrite H1, H2.
  - change (skip_ws ("," +:+ String c u)) with ("," +:+ String c u). cbn [String.append]. cbn [punctuate Ascii.eqb Bool.eqb andb orb].
    rewrite Hs. by rewrite H1, H2.
  - change (skip_ws ("," +:+ String c u)) with ("," +:+ String c u). cbn [String.append]. cbn [punctuate Ascii.eqb Bool.eqb andb orb].
    rewrite Hs. by rewrite H1, H2.
  - change (skip_ws (":" +:+ String c u)) with (":" +:+ String c u). cbn [String.append]. cbn [punctuate Ascii.eqb Bool.eqb andb orb].
    rewrite Hs. by rewrite H1, H2.
Qed.

Lemma More_lead p st st' c u d : lead p st st' -> st <> tokenObjectColon -> value_head c = true -> rest d = p +:+ String c u -> More d = true.
Proof.
  intros Hl Hst Hc E. apply value_head_inv in Hc as (Hw & _ & _ & H3 & H4). unfold More. rewrite E.
  destruct Hl as [(-> & _)|[(-> & _)|[(-> & _)|(_ & -> & _)]]]; [|done..]. cbn [String.append skip_ws]. by rewrite Hw, H3, H4.
Qed.

(** A token of a scalar or an opening bracket, after the punctuation before it. *)
Lemma token_at_scalar c u st stk t r : decode_scalar (String c u) = Some (t, r) -> open_state c = None ->
  value_head c = true -> tokenValueAllowed st = true ->
  token_at c (String c u) st stk = TokenOk t {| rest := r; state := tokenValueEnd st; stack := stk |}.
Proof.
  intros Hd Ho Hc Ha. apply value_head_inv in Hc as (_ & _ & _ & H3 & H4). unfold token_at. rewrite Ho, H3, H4.
  cbn [orb]. replace (key_allowed st) with false by (by destruct st). by rewrite andb_false_r, Ha, Hd.
Qed.

(** ** Decoded strings are well-formed *)
Lemma encode_rune_valid r : valid_utf8 (encode_rune r) = true.
Proof.
  unfold encode_rune. set (r1 := if (r <? 0) || (1114111 <? r) || ((55296 <=? r) && (r <=? 57343)) then RuneError else r).
  assert (0 <= r1 <= 1114111 /\ (r1 < 55296 \/ 57343 < r1)) as [H1 H2].
  { unfold r1. destruct (_ || _) eqn:E; [unfold RuneError; lia|bool_to_prop; lia]. }
  clearbody r1. clear r. cbv zeta. assert (forall s r n, decoded s r n -> str_drop n s = "" -> valid_utf8 s = true) as HV.
  { intros s r n D E. eapply valid_decoded; [exact D|]. by rewrite E. }
  destruct (r1 <? 128) eqn:E1; bool_to_prop.
  { eapply HV; [eapply dec1; [reflexivity|rewrite bz_az; lia]|done]. }
  destruct (r1 <? 2048) eqn:E2; bool_to_prop.
  { eapply HV; [eapply dec2; [reflexivity|..]|done]; rewrite bz_az; Z.div_mod_to_equations; lia. }
  destruct (r1 <? 65536) eqn:E3; bool_to_prop.
  { eapply HV; [eapply dec3; [reflexivity|..]|done]; rewrite !bz_az; Z.div_mod_to_equations; lia. }
  eapply HV; [eapply dec4; [reflexivity|..]|done]; rewrite !bz_az; Z.div_mod_to_equations; lia.
Qed.

Lemma unquote_valid s u : unquote_literal s = Some u -> valid_utf8 u = true.
Proof.
  unfold unquote_literal. generalize 0%nat. revert u. induction s as [|c s IH]; intros u n; cbn [unquote_from]; [by intros [= <-]|].
  assert (forall a k, valid_utf8 a = true -> prepend a (unquote_from k s) = Some u -> valid_utf8 u = true) as HP.
  { intros a k Ha. destruct (unquote_from k s) eqn:E; [|done]. intros [= <-]. apply IH in E. by apply valid_app_runes. }
  destruct n; [|apply IH]. destruct (Ascii.eqb c backslash).
  - destruct (unicode_rune _) as [[r k]|]; [apply HP, encode_rune_valid|]. destruct s as [|e s']; [done|].
    destruct (simple_escape e) as [d|] eqn:E; [|done]. apply HP. apply valid_ascii.
    unfold simple_escape in E. destruct (byte_in _ _) eqn:Eb; [|repeat case_match; simplify_eq; done]. injection E as ->.
    enough ((bz d <? 128) = true) by (bool_to_prop; lia). clear -Eb. revert d Eb. by apply ascii_impl_dec.
  - destruct (_ || _); [done|]. apply HP, encode_rune_valid.
Qed.

Lemma decode_scalar_valid s u r : decode_scalar s = Some (JString u, r) -> valid_utf8 u = true.
Proof.
  unfold decode_scalar. destruct (scan_scalar s); [|done]. destruct (str_take _ _) as [|c l]; [done|].
  destruct (Ascii.eqb c dquote); [|repeat case_match; done].
  destruct (unquote_literal _) eqn:E; [|done]. intros [= <- <-]. by eapply unquote_valid.
Qed.

Lemma Token_valid d u d' : Token d = TokenOk (JString u) d' -> valid_utf8 u = true.
Proof.
  assert (forall (c : ascii) (s : string) (st : tokenState) (stk : list tokenState), token_at c s st stk = TokenOk (JString u) d' -> valid_utf8 u = true) as H.
  { intros c s st stk. unfold token_at. destruct (open_state c); [by case_match|]. destruct (_ || _); [by repeat case_match|].
    destruct (_ && _); [|destruct (tokenValueAllowed st); [|done]];
      (destruct (decode_scalar s) as [[t r]|] eqn:E; [|done]); intros [= -> _]; by eapply decode_scalar_valid. }
  unfold Token. repeat (case_match; [|..]; try done); apply H.
Qed.
