(* ===== verification/JsonObject.v ===== *)
(** * JSON objects as [encoding/json] reads and writes them

    Decoding into a [map[string]json.RawMessage] and into the members a struct names, and
    [json.Marshal] of such a map.  A raw message is the text of a value. *)
From S2P Require Import Prelude GoStr Utf8 Config JsonText JsonToken JsonTokenProps.

(** ** Reading *)

(** The members of an object, in order, after the opening brace; the text is valid JSON. *)
Fixpoint members (fuel : nat) (s : string) : option (list (string * string)) :=
  match fuel with
  | O => None
  | S fuel =>
      match decode_scalar (skip_ws s) with
      | Some (JString key, s2) =>
          match skip_ws s2 with
          | String ":"%char s3 =>
              let v := skip_ws s3 in
              match scan_value (S (String.length v)) 1 v with
              | None => None
              | Some s4 =>
                  let m := (key, str_take (String.length v - String.length s4) v) in
                  match skip_ws s4 with
                  | String ","%char s5 => option_map (cons m) (members fuel s5)
                  | String "}"%char _ => Some [m]
                  | _ => None
                  end
              end
          | _ => None
          end
      | _ => None
      end
  end.

Inductive shape : Type := ObjectShape | NullShape | OtherShape.

(** What [json.Unmarshal] sees: an error for text that is not JSON. *)
Definition shape_of (raw : string) : option shape :=
  if json_valid raw then
    Some match skip_ws raw with
         | String "{"%char _ => ObjectShape
         | String "n"%char _ => NullShape
         | _ => OtherShape
         end
  else None.

Definition object_members (raw : string) : list (string * string) :=
  match skip_ws raw with
  | String "{"%char s =>
      match skip_ws s with
      | String "}"%char _ => []
      | _ => default [] (members (S (String.length s)) s)
      end
  | _ => []
  end.

(** Of equal keys the last one counts. *)
Definition map_of (ms : list (string * string)) : gmap string string := foldl (fun m kv => <[fst kv := snd kv]> m) ∅ ms.

(** Into a [map[string]json.RawMessage]: [None] is an error, [Some None] the nil map of [null]. *)
Definition unmarshal_map (raw : string) : option (option (gmap string string)) :=
  match shape_of raw with
  | Some ObjectShape => Some (Some (map_of (object_members raw)))
  | Some NullShape => Some None
  | _ => None
  end.

(** The raw members of a struct: a key names a field when it is equal to its name but for
    the letters' case.  [null] leaves the struct as it is. *)
Definition struct_members (raw : string) : option (list (string * string)) :=
  match shape_of raw with
  | Some ObjectShape => Some (object_members raw)
  | Some NullShape => Some []
  | _ => None
  end.
Definition named (field : string) (m : string * string) : bool := String.eqb (fst m) field || EqualFold (fst m) field.
(** A field of type [json.RawMessage]: the last member that names it, or nil. *)
Definition raw_field (field : string) (ms : list (string * string)) : string :=
  foldl (fun acc m => if named field m then snd m else acc) "" ms.

(** Values into a string, a boolean: [None] is a type error, [null] changes nothing. *)
Definition unmarshal_string (old raw : string) : option string :=
  match decode_scalar (skip_ws raw) with
  | Some (JString s, _) => Some s
  | Some (JNull, _) => Some old
  | _ => None
  end.
Definition unmarshal_bool (old : bool) (raw : string) : option bool :=
  match decode_scalar (skip_ws raw) with
  | Some (JBool b, _) => Some b
  | Some (JNull, _) => Some old
  | _ => None
  end.
(** A field of such a type: every member that names it is decoded, the last one stays; a
    type error in any of them is an error of the whole. *)
Definition typed_field {A} (dec : A -> string -> option A) (zero : A) (field : string) (ms : list (string * string)) : option A :=
  foldl (fun acc m => match acc with Some a => if named field m then dec a (snd m) else Some a | None => None end) (Some zero) ms.
Definition string_field : string -> list (string * string) -> option string := typed_field unmarshal_string "".
Definition bool_field : string -> list (string * string) -> option bool := typed_field unmarshal_bool false.

(** [json.Unmarshal] into a variable of type [string]. *)
Definition decode_string (raw : string) : option string := if json_valid raw then unmarshal_string "" raw else None.

Example struct_ex :
  let line := "{ " +:+ q "ID" +:+ ": 7, " +:+ q "method" +:+ ":" +:+ q "ping" +:+ ", " +:+ q "x" +:+ ": {} }" in
  option_map (raw_field "id") (struct_members line) = Some "7" /\
  (struct_members line ≫= string_field "method") = Some "ping" /\
  unmarshal_map "null" = Some None /\ unmarshal_map "[]" = None.
Proof. vm_compute. tauto. Qed.

(** ** Writing *)

(** [json.Compact] with the escapes of [json.Marshal]; [skip] counts the bytes of an escaped rune. *)
Fixpoint compact_from (html instr : bool) (esc : bool) (skip : nat) (s : string) : string :=
  match s with
  | "" => ""
  | String c s' =>
      match skip with
      | S k => compact_from html instr esc k s'
      | O =>
          if html && (Ascii.eqb c "<" || Ascii.eqb c ">" || Ascii.eqb c "&") then unicode_escape (bz c) +:+ compact_from html instr false 0 s'
          else if html && has_prefix s (String (az 226) (String (az 128) (String (az 168) ""))) then String backslash "u2028" +:+ compact_from html instr false 2 s'
          else if html && has_prefix s (String (az 226) (String (az 128) (String (az 169) ""))) then String backslash "u2029" +:+ compact_from html instr false 2 s'
          else if instr then
            if esc then String c (compact_from html true false 0 s')
            else if Ascii.eqb c backslash then String c (compact_from html true true 0 s')
            else String c (compact_from html (negb (Ascii.eqb c dquote)) false 0 s')
          else if json_space c then compact_from html false false 0 s'
          else String c (compact_from html (Ascii.eqb c dquote) false 0 s')
      end
  end.
Definition compact (html : bool) (s : string) : string := compact_from html false false 0 s.

(** Keys in the order of their bytes. *)
Definition key_le (a b : string * string) : Prop := String.leb (fst a) (fst b) = true.
#[global] Instance key_le_dec a b : Decision (key_le a b).
Proof. unfold key_le. apply _. Defined.

Definition field_text (html : bool) (kv : string * string) : string :=
  json_string html (fst kv) +:+ ":" +:+ compact html (snd kv).
Definition marshal_members (html : bool) (ms : list (string * string)) : string :=
  "{" +:+ join "," (map (field_text html) ms) +:+ "}".
Definition marshal_map (html : bool) (m : gmap string string) : string :=
  marshal_members html (merge_sort key_le (map_to_list m)).

Example marshal_ex :
  marshal_map true (<["b" := "[1, <2>]"]> {["a" := " 1"]}) = "{" +:+ q "a" +:+ ":1," +:+ q "b" +:+ ":[1," +:+ unicode_escape 60 +:+ "2" +:+ unicode_escape 62 +:+ "]}".
Proof. vm_compute. reflexivity. Qed.

(** ** A value followed by more text *)
Lemma scan_string_app s r t : scan_string s = Some r -> scan_string (s +:+ t) = Some (r +:+ t).
Proof.
  revert r. induction s as [s IH] using (induction_ltof1 _ String.length). unfold ltof in IH. intros r.
  destruct s as [|c s]; [done|]. cbn [scan_string String.append].
  destruct (Ascii.eqb c dquote); [by intros [= <-]|]. destruct (Ascii.eqb c backslash).
  - destruct s as [|e s]; [done|]. cbn [String.append].
    destruct e as [[] [] [] [] [] [] [] []]; try (destruct (byte_in _ _); [|done]; intros H; apply IH; [simpl; lia|done]).
    destruct s as [|x1 [|x2 [|x3 [|x4 s]]]]; try done. cbn [String.append].
    destruct (_ && _); [|done]. intros H. apply IH; [simpl; lia|done].
  - destruct (bz c <? 32); [done|]. intros H. apply IH; [simpl; lia|done].
Qed.

(** What may follow without becoming part of a number. *)
Definition ends (r t : string) : Prop := r <> "" \/ stops t = true.

Lemma stops_not_digit t c t' : stops t = true -> t = String c t' -> is_digit c = false /\ c <> "."%char /\ c <> "e"%char /\ c <> "E"%char.
Proof.
  intros H ->. cbn in H. unfold is_digit, in_range. destruct c as [[] [] [] [] [] [] [] []]; try done.
Qed.

Lemma scan_digits_ext s t : ends (scan_digits s) t -> scan_digits (s +:+ t) = scan_digits s +:+ t.
Proof.
  intros He. induction s as [|c s IH].
  - destruct He as [|He]; [done|]. cbn. destruct t as [|c t']; [done|]. cbn. by destruct (stops_not_digit _ _ _ He eq_refl) as [-> _].
  - cbn [scan_digits String.append] in *. destruct (is_digit c); [by apply IH|done].
Qed.
Lemma scan_digits1_ext s r t : scan_digits1 s = Some r -> ends r t -> scan_digits1 (s +:+ t) = Some (r +:+ t).
Proof.
  destruct s as [|c s]; [done|]. cbn. destruct (is_digit c); [|done]. intros [= <-] He. by rewrite scan_digits_ext.
Qed.
Lemma scan_digits_shape s : scan_digits s = "" \/ exists c s', scan_digits s = String c s' /\ is_digit c = false.
Proof. induction s as [|c s IH]; [by left|]. cbn. destruct (is_digit c) eqn:E; [done|right; eauto]. Qed.

(** The head of what a scanner leaves decides nothing once something follows. *)
Lemma head_app r t c r' : r = String c r' -> r +:+ t = String c (r' +:+ t).
Proof. by intros ->. Qed.

Lemma scan_number_ext s r t : scan_number s = Some r -> ends r t -> scan_number (s +:+ t) = Some (r +:+ t).
Proof.
  unfold scan_number. intros H He. assert (s <> "") as Hs by (intros ->; done).
  assert (trim_prefix (s +:+ t) "-" = trim_prefix s "-" +:+ t) as ->.
  { destruct s as [|c s]; [done|]. unfold trim_prefix. cbn [String.append has_prefix]. by destruct (Ascii.eqb c "-"). }
  set (u := trim_prefix s "-") in *. clearbody u. clear s Hs.
  assert (forall i, (match u with String "0"%char s' => Some s' | _ => scan_digits1 u end) = Some i ->
    (i <> "" \/ stops t = true) ->
    (match u +:+ t with String "0"%char s' => Some s' | _ => scan_digits1 (u +:+ t) end) = Some (i +:+ t)) as Hint.
  { intros i Hi Hit. destruct u as [|c u]; [done|]. destruct (decide (c = "0"%char)) as [->|Hne]; [by injection Hi as <-|].
    assert (scan_digits1 (String c u) = Some i) as Hi' by (destruct c as [[] [] [] [] [] [] [] []]; done).
    pose proof (scan_digits1_ext _ _ t Hi' Hit) as Hx. cbn [String.append] in *.
    destruct c as [[] [] [] [] [] [] [] []]; done. }
  destruct (match u with String "0"%char s' => Some s' | _ => scan_digits1 u end) as [i|] eqn:Ei; [|done].
  assert (forall f, (match i with String "."%char s' => scan_digits1 s' | _ => Some i end) = Some f -> ends f t ->
    (match i +:+ t with String "."%char s' => scan_digits1 s' | _ => Some (i +:+ t) end) = Some (f +:+ t)) as Hfrac.
  { intros f Hf Hft. destruct i as [|c i].
    - injection Hf as <-. destruct Hft as [|Hft]; [done|]. destruct t as [|c t]; [done|]. cbn [String.append].
      destruct (stops_not_digit _ _ _ Hft eq_refl) as (_ & Hc & _). destruct c as [[] [] [] [] [] [] [] []]; done.
    - destruct (decide (c = "."%char)) as [->|Hne]; [cbn [String.append]; by apply scan_digits1_ext|].
      assert (f = String c i) as -> by (destruct c as [[] [] [] [] [] [] [] []]; try done; by injection Hf). cbn [String.append].
      destruct c as [[] [] [] [] [] [] [] []]; done. }
  destruct (match i with String "."%char s' => scan_digits1 s' | _ => Some i end) as [f|] eqn:Ef; [|done].
  assert (i = "" -> f = "") as Hif by (intros ->; by injection Ef as <-).
  assert (ends f t -> (match u +:+ t with String "0"%char s' => Some s' | _ => scan_digits1 (u +:+ t) end) = Some (i +:+ t)) as Hu.
  { intros Hf. apply Hint; [done|]. destruct Hf as [Hf|]; [left; intros ->; by apply Hf, Hif|by right]. }
  destruct f as [|c f].
  - injection H as <-. destruct He as [|He]; [done|]. rewrite (Hu (or_intror He)), (Hfrac "" eq_refl (or_intror He)).
    destruct t as [|c t]; [done|]. cbn [String.append].
    destruct (stops_not_digit _ _ _ He eq_refl) as (_ & _ & H1 & H2).
    by rewrite (proj2 (Ascii.eqb_neq c "e")), (proj2 (Ascii.eqb_neq c "E")).
  - assert (ends (String c f) t) as Hf by by left. rewrite (Hu Hf), (Hfrac _ eq_refl Hf). cbn [String.append].
    destruct (Ascii.eqb c "e" || Ascii.eqb c "E"); [|by injection H as <-].
    destruct f as [|d f]; [done|]. cbn [String.append]. destruct (Ascii.eqb d "+" || Ascii.eqb d "-").
    + by apply scan_digits1_ext.
    + change (String d (f +:+ t)) with (String d f +:+ t). by apply scan_digits1_ext.
Qed.

Lemma scan_literal_ext l s r t : scan_literal l s = Some r -> scan_literal l (s +:+ t) = Some (r +:+ t).
Proof.
  unfold scan_literal. intros H. destruct (has_prefix s l) eqn:E; [|done]. injection H as H. apply has_prefix_spec in E as (u & ->).
  rewrite str_drop_app_length in H. subst u. rewrite <- str_app_assoc.
  rewrite (proj2 (has_prefix_spec _ _)) by (eexists; reflexivity). by rewrite str_drop_app_length.
Qed.

Lemma scan_scalar_ext s r t : scan_scalar s = Some r -> ends r t -> scan_scalar (s +:+ t) = Some (r +:+ t).
Proof.
  intros H He. destruct s as [|c s]; [done|]. cbn [scan_scalar String.append] in *.
  change (String c (s +:+ t)) with (String c s +:+ t).
  repeat case_match; [by apply scan_string_app|by apply scan_literal_ext..|by apply scan_number_ext].
Qed.

Lemma skip_ws_ext s t : skip_ws s <> "" -> skip_ws (s +:+ t) = skip_ws s +:+ t.
Proof. induction s as [|c s IH]; [done|]. cbn. by destruct (json_space c). Qed.
Lemma skip_ws_case s c r t : skip_ws s = String c r -> skip_ws (s +:+ t) = String c (r +:+ t).
Proof. intros H. rewrite skip_ws_ext by by rewrite H. by rewrite H. Qed.

Section ext.
Variables (v w : nat -> string -> option string).
Variable grows : forall d s r t, v d s = Some r -> ends r t -> w d (s +:+ t) = Some (r +:+ t).

Lemma scan_elements_ext n : forall m d s r t, (n <= m)%nat -> scan_elements v n d s = Some r -> scan_elements w m d (s +:+ t) = Some (r +:+ t).
Proof.
  induction n as [|n IH]; intros m d s r t Hm; cbn [scan_elements]; [done|]. destruct m as [|m]; [lia|]. cbn [scan_elements].
  destruct (v d s) as [s1|] eqn:E; [|done]. destruct (skip_ws s1) as [|c s2] eqn:Ews; [done|].
  assert (s1 <> "") as Hne by (intros ->; done). rewrite (grows _ _ _ t E) by by left. rewrite (skip_ws_case _ _ _ _ Ews).
  destruct c as [[] [] [] [] [] [] [] []]; try done; [by intros [= <-]|]. intros H. apply (IH m); [lia|done].
Qed.

Lemma scan_members_ext n : forall m d s r t, (n <= m)%nat -> scan_members v n d s = Some r -> scan_members w m d (s +:+ t) = Some (r +:+ t).
Proof.
  induction n as [|n IH]; intros m d s r t Hm; cbn [scan_members]; [done|]. destruct m as [|m]; [lia|]. cbn [scan_members].
  destruct (skip_ws s) as [|qc s1] eqn:E1; [done|]. rewrite (skip_ws_case _ _ _ _ E1). destruct (Ascii.eqb qc dquote); [|done].
  destruct (scan_string s1) as [s2|] eqn:E2; [|done]. rewrite (scan_string_app _ _ t E2).
  destruct (skip_ws s2) as [|c s3] eqn:E3; [done|]. rewrite (skip_ws_case _ _ _ _ E3).
  destruct c as [[] [] [] [] [] [] [] []]; try done.
  destruct (v d s3) as [s4|] eqn:E4; [|done]. destruct (skip_ws s4) as [|c s5] eqn:E5; [done|].
  assert (s4 <> "") as Hne by (intros ->; done). rewrite (grows _ _ _ t E4) by by left. rewrite (skip_ws_case _ _ _ _ E5).
  destruct c as [[] [] [] [] [] [] [] []]; try done; [by intros [= <-]|]. intros H. apply (IH m); [lia|done].
Qed.
End ext.

(** A value that ends before some text is found with that text behind it, also with more fuel. *)
Lemma scan_value_ext n : forall m d s r t, (n <= m)%nat -> scan_value n d s = Some r -> ends r t -> scan_value m d (s +:+ t) = Some (r +:+ t).
Proof.
  induction n as [|n IH]; intros m d s r t Hm; cbn [scan_value]; [done|]. destruct m as [|m]; [lia|]. cbn [scan_value].
  destruct (skip_ws s) as [|c s'] eqn:Es; [done|]. rewrite (skip_ws_case _ _ _ _ Es). intros H He.
  assert (forall d s r t, scan_value n d s = Some r -> ends r t -> scan_value m d (s +:+ t) = Some (r +:+ t)) as Hg by (intros; apply IH; [lia|done|done]).
  assert (String.length s' <= String.length (s' +:+ t))%nat as Hlen by (rewrite str_length_app; lia).
  destruct (Ascii.eqb c "["); [|destruct (Ascii.eqb c "{")].
  - destruct (Nat.leb max_nesting d); [done|]. destruct (skip_ws s') as [|e s''] eqn:Es'.
    + cbn [scan_elements] in H. destruct n; cbn [scan_value] in H; [done|by rewrite Es' in H].
    + rewrite (skip_ws_case _ _ _ _ Es'). destruct (decide (e = "]"%char)) as [->|Hne]; [by injection H as <-|].
      assert (scan_elements (scan_value n) (S (String.length s')) (S d) s' = Some r) as H' by (destruct e as [[] [] [] [] [] [] [] []]; done).
      apply (scan_elements_ext _ _ Hg _ (S (String.length (s' +:+ t))) _ _ _ t) in H'; [|lia].
      destruct e as [[] [] [] [] [] [] [] []]; done.
  - destruct (Nat.leb max_nesting d); [done|]. destruct (skip_ws s') as [|e s''] eqn:Es'.
    + cbn [scan_members] in H. by rewrite Es' in H.
    + rewrite (skip_ws_case _ _ _ _ Es'). destruct (decide (e = "}"%char)) as [->|Hne]; [by injection H as <-|].
      assert (scan_members (scan_value n) (S (String.length s')) (S d) s' = Some r) as H' by (destruct e as [[] [] [] [] [] [] [] []]; done).
      apply (scan_members_ext _ _ Hg _ (S (String.length (s' +:+ t))) _ _ _ t) in H'; [|lia].
      destruct e as [[] [] [] [] [] [] [] []]; done.
  - change (String c (s' +:+ t)) with (String c s' +:+ t). by apply scan_scalar_ext.
Qed.

(** ** The map as a whole *)
Lemma map_of_list (ms : list (string * string)) : forall m : gmap string string,
  foldl (fun m kv => <[fst kv := snd kv]> m) m ms = list_to_map (rev ms) ∪ m.
Proof.
  induction ms as [|[k v] ms IH]; intros m; cbn [foldl rev].
  - by rewrite list_to_map_nil, map_empty_union.
  - rewrite IH, list_to_map_app. rewrite list_to_map_cons, list_to_map_nil. cbn [fst snd]. rewrite <- (assoc_L (∪)). f_equal.
    rewrite <- insert_union_l. by rewrite map_empty_union.
Qed.

Lemma map_of_nodup (ms : list (string * string)) : NoDup (map fst ms) -> map_of ms = list_to_map ms.
Proof.
  intros Hnd. unfold map_of. rewrite map_of_list, map_union_empty. apply list_to_map_proper.
  - change (NoDup (map fst (rev ms))). rewrite map_rev. by rewrite <- Permutation_rev.
  - symmetry. apply Permutation_rev.
Qed.
