(* ===== verification/JsonCompact.v ===== *)
(** * Compact JSON: [json.Compact] and [json.Marshal] of raw messages keep a value a value

    The text of any JSON value, compacted, is again a JSON value, the same one compacted
    again, and may stand inside an object.  With it the round trip of JsonObject.v holds for
    any raw values, compact or not. *)
From S2P Require Import Prelude GoStr Utf8 Config JsonText ToonNumbers JsonToken JsonTokenProps JsonObject.

Section compact.
Variable html : bool.
#[local] Abbreviation Cc := (compact_from html false false 0).
#[local] Abbreviation Ic := (compact_from html true false 0).

Definition e2 : ascii := az 226.
Definition separator (s : string) : bool :=
  has_prefix s (String e2 (String (az 128) (String (az 168) ""))) || has_prefix s (String e2 (String (az 128) (String (az 169) ""))).
Definition angle (c : ascii) : bool := Ascii.eqb c "<" || Ascii.eqb c ">" || Ascii.eqb c "&".
(** Bytes that are copied outside strings. *)
Definition copied (c : ascii) : bool := negb (json_space c) && negb (angle c) && negb (Ascii.eqb c dquote) && negb (Ascii.eqb c e2).

Lemma has_prefix_cons c s a p : has_prefix (String c s) (String a p) = Ascii.eqb c a && has_prefix s p.
Proof. done. Qed.
Lemma separator_head s : separator s = true -> exists s', s = String e2 s'.
Proof. destruct s as [|c s]; [done|]. unfold separator. cbn [has_prefix]. destruct (Ascii.eqb_spec c e2) as [->|]; [eauto|done]. Qed.

Lemma inside_plain c s : html && angle c = false -> html && separator (String c s) = false -> Ascii.eqb c backslash = false ->
  Ic (String c s) = String c (compact_from html (negb (Ascii.eqb c dquote)) false 0 s).
Proof.
  intros Ha Hs Hb. cbn [compact_from]. unfold angle in Ha. rewrite Ha.
  unfold separator, e2 in Hs. rewrite andb_orb_distrib_r in Hs. apply orb_false_iff in Hs as [H1 H2]. rewrite H1, H2. by rewrite Hb.
Qed.

Lemma outside_copied c s : copied c = true -> Cc (String c s) = String c (Cc s).
Proof.
  unfold copied. rewrite !andb_true_iff, !negb_true_iff. intros [[[Hw Ha] Hq] He]. cbn [compact_from]. unfold angle in Ha. rewrite Ha, andb_false_r.
  assert (forall p, has_prefix (String c s) (String (az 226) p) = false) as Hp by (intros p; cbn [has_prefix]; unfold e2 in He; by rewrite He).
  rewrite !Hp, !andb_false_r, Hw. by rewrite Hq.
Qed.
Lemma outside_copied_app a s : str_forall copied a = true -> Cc (a +:+ s) = a +:+ Cc s.
Proof.
  induction a as [|c a IH]; [done|]. cbn [str_forall String.append]. intros [Hc Ha]%andb_true_iff. rewrite outside_copied by done. by rewrite IH.
Qed.
Lemma outside_quote s : Cc (String dquote s) = String dquote (Ic s).
Proof. cbn [compact_from]. change (Ascii.eqb dquote "<") with false. change (Ascii.eqb dquote ">") with false. change (Ascii.eqb dquote "&") with false.
  rewrite andb_false_r. cbn [orb]. cbn [has_prefix]. change (Ascii.eqb dquote (az 226)) with false. rewrite !andb_false_r. done. Qed.
Lemma outside_skip s : Cc (skip_ws s) = Cc s.
Proof.
  induction s as [|c s IH]; [done|]. cbn [skip_ws]. destruct (json_space c) eqn:E; [|done]. rewrite IH. cbn [compact_from].
  assert (angle c = false /\ Ascii.eqb c (az 226) = false) as [Ha He].
  { revert E. unfold json_space, angle. destruct c as [[] [] [] [] [] [] [] []]; try done. }
  unfold angle in Ha. rewrite Ha, andb_false_r. cbn [has_prefix]. rewrite He. rewrite !andb_false_r. by rewrite E.
Qed.

(** ** Strings *)
Definition multi (c : ascii) : bool := (128 <=? bz c) && negb (Ascii.eqb c e2).
(** [k] is what a compacted string contributes: it is scanned and compacted as it stands, and
    its first bytes above ASCII are those of [s]. *)
Definition string_part (s k : string) : Prop :=
  (forall t, scan_string (k +:+ t) = Some t) /\ (forall t, Ic (k +:+ t) = k +:+ Cc t) /\
  (forall p t, str_forall multi p = true -> has_prefix (k +:+ t) p = has_prefix s p).

Lemma low_prefix c s d k t p : bz c < 128 \/ c = e2 -> bz d < 128 \/ d = e2 -> str_forall multi p = true ->
  has_prefix (String d k +:+ t) p = has_prefix (String c s) p.
Proof.
  intros Hc Hd Hp. destruct p as [|a p]; [done|]. cbn [str_forall] in Hp. apply andb_true_iff in Hp as [Ha _]. unfold multi in Ha.
  apply andb_true_iff in Ha as [Ha1 Ha2]. apply negb_true_iff, Ascii.eqb_neq in Ha2. cbn [has_prefix String.append].
  assert (forall x, bz x < 128 \/ x = e2 -> Ascii.eqb x a = false) as H.
  { intros x Hx. apply Ascii.eqb_neq. intros ->. destruct Hx as [Hx|Hx]; [lia|done]. }
  by rewrite (H c Hc), (H d Hd).
Qed.

Lemma part_plain c s k : bz c <> 34 -> bz c <> 92 -> 32 <= bz c -> html && angle c = false ->
  html && separator (String c s) = false -> string_part s k -> string_part (String c s) (String c k).
Proof.
  intros Hq Hb Hw Ha Hs (H1 & H2 & H3).
  assert (Ascii.eqb c dquote = false /\ Ascii.eqb c backslash = false) as [Eq Eb] by (split; apply Ascii.eqb_neq; intros ->; done).
  split_and!.
  - intros t. cbn [scan_string String.append]. rewrite Eq, Eb. destruct (Z.ltb_spec (bz c) 32); [lia|]. apply H1.
  - intros t. cbn [String.append]. rewrite inside_plain; [by rewrite Eq; cbn [negb]; rewrite H2|done| |done].
    rewrite <- Hs. f_equal. unfold separator. rewrite !has_prefix_cons. by rewrite !(H3 (String (az 128) _)) by reflexivity.
  - intros [|a p] t Hp; [done|]. cbn [str_forall] in Hp. apply andb_true_iff in Hp as [_ Hp]. cbn [has_prefix String.append]. by rewrite H3.
Qed.

Lemma part_quote s : string_part (String dquote s) (String dquote "").
Proof.
  split_and!; [done| |].
  - intros t. cbn [String.append]. rewrite inside_plain; [done|by rewrite andb_false_r|by rewrite andb_false_r|done].
  - intros p t Hp. by apply low_prefix; [left|left|].
Qed.
Lemma inside_quote s : Ic (String dquote s) = String dquote "" +:+ Cc s.
Proof. cbn [String.append]. rewrite inside_plain; [done|by rewrite andb_false_r|by rewrite andb_false_r|done]. Qed.

(** An escape: a backslash, a byte and perhaps more that is copied. *)
Lemma inside_escape e s : angle e = false -> e <> e2 -> Ic (String backslash (String e s)) = String backslash (String e (Ic s)).
Proof.
  intros Ha He. cbn [compact_from]. change (Ascii.eqb backslash "<") with false. change (Ascii.eqb backslash ">") with false. change (Ascii.eqb backslash "&") with false.
  cbn [orb has_prefix]. change (Ascii.eqb backslash (az 226)) with false. cbn [andb]. rewrite !andb_false_r. change (Ascii.eqb backslash backslash) with true. cbv iota. f_equal.
  unfold angle in Ha. rewrite Ha. apply Ascii.eqb_neq in He. unfold e2 in He. rewrite He. by rewrite !andb_false_r.
Qed.
Lemma hex_low c : is_hex c = true -> bz c < 128 /\ 32 <= bz c /\ bz c <> 34 /\ bz c <> 92 /\ angle c = false.
Proof. destruct c as [[] [] [] [] [] [] [] []]; try done; intros _; vm_compute; repeat split; done. Qed.
Lemma separator_low c s : bz c < 128 -> separator (String c s) = false.
Proof. intros Hc. destruct (separator (String c s)) eqn:E; [|done]. apply separator_head in E as (s' & [= -> _]). done. Qed.

Lemma inside_hex c s : is_hex c = true -> Ic (String c s) = String c (Ic s).
Proof.
  intros (Hl & Hw & Hq & Hb & Ha)%hex_low. rewrite inside_plain; [|by rewrite Ha, andb_false_r|by rewrite separator_low, andb_false_r|].
  - assert (Ascii.eqb c dquote = false) as -> by (apply Ascii.eqb_neq; intros ->; done). done.
  - apply Ascii.eqb_neq. intros ->. done.
Qed.

Lemma part_escape s k e : byte_in e (String dquote (String backslash "/bfnrt")) = true -> string_part s k ->
  string_part (String backslash (String e s)) (String backslash (String e k)).
Proof.
  intros He (H1 & H2 & H3). assert (angle e = false /\ e <> e2 /\ e <> "u"%char) as (Ha & Hn & Hu) by (destruct e as [[] [] [] [] [] [] [] []]; done).
  split_and!.
  - intros t. cbn [scan_string String.append]. change (Ascii.eqb backslash dquote) with false. change (Ascii.eqb backslash backslash) with true. cbv iota. rewrite He.
    destruct e as [[] [] [] [] [] [] [] []]; try done; apply H1.
  - intros t. cbn [String.append]. rewrite inside_escape by done. by rewrite H2.
  - intros p t Hp. by apply low_prefix; [left|left|].
Qed.
Lemma part_unicode s k a b c d : is_hex a && is_hex b && is_hex c && is_hex d = true -> string_part s k ->
  string_part (String backslash (String "u" (String a (String b (String c (String d s)))))) (String backslash (String "u" (String a (String b (String c (String d k)))))).
Proof.
  intros Hh (H1 & H2 & H3). pose proof Hh as Hh2. rewrite !andb_true_iff in Hh2. destruct Hh2 as [[[Ha Hb] Hc] Hd]. split_and!.
  - intros t. cbn [scan_string String.append]. change (Ascii.eqb backslash dquote) with false. change (Ascii.eqb backslash backslash) with true. cbv iota. rewrite Hh. apply H1.
  - intros t. cbn [String.append]. rewrite inside_escape by done. rewrite !inside_hex by done. by rewrite H2.
  - intros p t Hp. by apply low_prefix; [left|left|].
Qed.

Lemma part_angle c s k : angle c = true -> string_part s k -> string_part (String c s) (unicode_escape (bz c) +:+ k).
Proof.
  intros Ha Hp. assert (exists a b d e, unicode_escape (bz c) = String backslash (String "u" (String a (String b (String d (String e ""))))) /\
    is_hex a && is_hex b && is_hex d && is_hex e = true /\ bz c < 128) as (a & b & d & e & -> & Hh & Hl).
  { destruct c as [[] [] [] [] [] [] [] []]; try done; do 4 eexists; (split; [reflexivity|]); split; reflexivity. }
  destruct (part_unicode s k a b d e Hh Hp) as (H1 & H2 & _). split_and!; [exact H1|exact H2|]. intros p t Hm. by apply low_prefix; [left|left|].
Qed.
Lemma inside_angle c s : html = true -> angle c = true -> Ic (String c s) = unicode_escape (bz c) +:+ Ic s.
Proof. intros Hh Ha. cbn [compact_from]. unfold angle in Ha. by rewrite Hh, Ha. Qed.

Lemma part_separator s k d : Ascii.eqb d "8" || Ascii.eqb d "9" = true -> forall x y, string_part s k ->
  string_part (String e2 (String x (String y s))) (String backslash (String "u" (String "2" (String "0" (String "2" (String d k)))))).
Proof.
  intros Hd x y Hp. assert (is_hex "2" && is_hex "0" && is_hex "2" && is_hex d = true) as Hh by (destruct d as [[] [] [] [] [] [] [] []]; done).
  destruct (part_unicode s k "2" "0" "2" d Hh Hp) as (H1 & H2 & _). split_and!; [exact H1|exact H2|]. intros p t Hm. by apply low_prefix; [right|left|].
Qed.
Lemma separator_shape s : separator s = true -> exists d s', Ascii.eqb d "8" || Ascii.eqb d "9" = true /\
  s = String e2 (String (az 128) (String (az (if Ascii.eqb d "8" then 168 else 169)) s')).
Proof.
  unfold separator. intros [H|H]%orb_true_iff; apply has_prefix_spec in H as (t & ->); [exists "8"%char, t|exists "9"%char, t]; done.
Qed.
Lemma inside_separator d s : html = true -> Ascii.eqb d "8" || Ascii.eqb d "9" = true ->
  Ic (String e2 (String (az 128) (String (az (if Ascii.eqb d "8" then 168 else 169)) s))) = String backslash (String "u" (String "2" (String "0" (String "2" (String d (Ic s)))))).
Proof. intros Hh [->%Ascii.eqb_eq| ->%Ascii.eqb_eq]%orb_true_iff; cbn [compact_from]; rewrite Hh; reflexivity. Qed.

(** A scanned string: [p] is what was scanned and [k] what it becomes. *)
Record string_split (s r p k : string) : Prop := {
  ss_split : s = p +:+ r;
  ss_compact : forall u, Ic (p +:+ u) = k +:+ Cc u;
  ss_prefix : forall q u, str_forall multi q = true -> has_prefix (p +:+ u) q = has_prefix s q;
  ss_part : string_part s k
}.
Lemma multi_cons c x y q : (forall q, str_forall multi q = true -> has_prefix x q = has_prefix y q) -> str_forall multi q = true ->
  has_prefix (String c x) q = has_prefix (String c y) q.
Proof. intros H Hq. destruct q as [|a q]; [done|]. cbn [str_forall] in Hq. apply andb_true_iff in Hq as [_ Hq]. rewrite !has_prefix_cons. by rewrite H. Qed.

Lemma split_quote s : string_split (String dquote s) s (String dquote "") (String dquote "").
Proof. split; [done|apply inside_quote| |apply part_quote]. intros q u Hq. by apply low_prefix; [left|left|]. Qed.
Lemma string_split_plain c s r p k : bz c <> 34 -> bz c <> 92 -> 32 <= bz c -> html && angle c = false -> html && separator (String c s) = false ->
  string_split s r p k -> string_split (String c s) r (String c p) (String c k).
Proof.
  intros Hq Hb Hw Ha Hs [-> H1 H2 H3]. split; [done| | |by apply part_plain].
  - intros u. cbn [String.append]. rewrite inside_plain; [|done| |apply Ascii.eqb_neq; intros ->; done].
    + rewrite (proj2 (Ascii.eqb_neq c dquote)) by (intros ->; done). cbn [negb]. by rewrite H1.
    + rewrite <- Hs. f_equal. unfold separator. rewrite !has_prefix_cons. by rewrite (H2 (String (az 128) (String (az 168) "")) u), (H2 (String (az 128) (String (az 169) "")) u) by reflexivity.
  - intros q u Hm. cbn [String.append]. apply multi_cons; [|done]. intros q' Hq'. by apply H2.
Qed.

Lemma string_compact s : forall r, scan_string s = Some r -> exists p k, string_split s r p k.
Proof.
  induction s as [s IH] using (induction_ltof1 _ String.length). unfold ltof in IH. intros r H.
  destruct s as [|c s]; [done|]. cbn [scan_string] in H. destruct (Ascii.eqb_spec c dquote) as [->|Hq].
  { injection H as ->. eexists _, _. apply split_quote. }
  destruct (Ascii.eqb_spec c backslash) as [->|Hb].
  { destruct s as [|e s]; [done|]. destruct (decide (e = "u"%char)) as [->|Hu].
    - destruct s as [|x1 [|x2 [|x3 [|x4 s]]]]; try done. destruct (is_hex x1 && is_hex x2 && is_hex x3 && is_hex x4) eqn:Hh; [|done].
      destruct (IH s) with (r := r) as (p & k & [-> H1 _ Hp]); [cbn [String.length]; lia|done|].
      exists (String backslash (String "u" (String x1 (String x2 (String x3 (String x4 p)))))). eexists. split; [done| | |by apply part_unicode].
      + rewrite !andb_true_iff in Hh. destruct Hh as [[[Ha Hbb] Hc] Hd]. intros u. cbn [String.append]. rewrite inside_escape by done. rewrite !inside_hex by done. by rewrite H1.
      + intros q u Hm. by apply low_prefix; [left|left|].
    - assert (byte_in e (String dquote (String backslash "/bfnrt")) = true /\ scan_string s = Some r) as [He Hs].
      { destruct (byte_in e (String dquote (String backslash "/bfnrt"))) eqn:E; destruct e as [[] [] [] [] [] [] [] []]; done. }
      destruct (IH s) with (r := r) as (p & k & [-> H1 _ Hp]); [cbn [String.length]; lia|done|].
      exists (String backslash (String e p)). eexists. split; [done| | |by apply part_escape].
      + assert (angle e = false /\ e <> e2) as [Ha Hn] by (destruct e as [[] [] [] [] [] [] [] []]; done). intros u. cbn [String.append]. rewrite inside_escape by done. by rewrite H1.
      + intros q u Hm. by apply low_prefix; [left|left|]. }
  destruct (Z.ltb_spec (bz c) 32); [done|]. destruct (html && angle c) eqn:Ea.
  { apply andb_true_iff in Ea as [Eh Ea]. destruct (IH s) with (r := r) as (p & k & [-> H1 _ Hp]); [cbn [String.length]; lia|done|].
    exists (String c p). eexists. split; [done| | |by apply part_angle].
    - intros u. cbn [String.append]. rewrite inside_angle by done. by rewrite H1, str_app_assoc.
    - assert (bz c < 128) as Hl by (destruct c as [[] [] [] [] [] [] [] []]; done). intros q u Hm. by apply low_prefix; [left|left|]. }
  destruct (html && separator (String c s)) eqn:Es.
  { apply andb_true_iff in Es as [Eh Es]. destruct (separator_shape _ Es) as (d & s' & Hd & [= -> ->]).
    assert (scan_string s' = Some r) as Hs' by (rewrite <- H; by apply orb_true_iff in Hd as [->%Ascii.eqb_eq| ->%Ascii.eqb_eq]).
    destruct (IH s') with (r := r) as (p & k & [-> H1 _ Hp]); [cbn [String.length]; lia|done|].
    exists (String e2 (String (az 128) (String (az (if Ascii.eqb d "8" then 168 else 169)) p))). eexists. split; [done| | |by eapply part_separator].
    - intros u. cbn [String.append]. rewrite inside_separator by done. by rewrite H1.
    - intros q u Hm. by apply low_prefix; [right|right|]. }
  destruct (IH s) with (r := r) as (p & k & Hp); [cbn [String.length]; lia|done|]. exists (String c p), (String c k).
  apply string_split_plain; try done; intros E; [apply Hq|apply Hb]; apply (f_equal az) in E; rewrite az_bz in E; exact E.
Qed.

(** ** Numbers and literals *)
Lemma scan_digits_split s : exists d, s = d +:+ scan_digits s /\ str_forall is_digit d = true.
Proof.
  induction s as [|c s (d & E & Hd)]; [by exists ""|]. cbn [scan_digits]. destruct (is_digit c) eqn:Ec; [|by exists ""].
  exists (String c d). cbn [String.append str_forall]. rewrite Ec. by rewrite <- E.
Qed.
Lemma scan_digits1_split s r : scan_digits1 s = Some r -> exists d, s = d +:+ r /\ digits1 d.
Proof.
  destruct s as [|c s]; [done|]. cbn [scan_digits1]. destruct (is_digit c) eqn:Ec; [|done]. intros [= <-].
  destruct (scan_digits_split s) as (d & E & Hd). exists (String c d). cbn [String.append]. rewrite <- E. split; [done|].
  split; [cbn [str_forall]; by rewrite Ec|done].
Qed.
Lemma scan_number_split s r : scan_number s = Some r -> exists n, s = n +:+ r /\ json_number n.
Proof.
  unfold scan_number. intros H. assert (exists sg, s = sg +:+ trim_prefix s "-" /\ (sg = "" \/ sg = "-")) as (sg & Es & Hsg).
  { destruct s as [|c s]; [by exists ""; auto|]. unfold trim_prefix. cbn [has_prefix]. destruct (Ascii.eqb_spec c "-") as [->|]; [exists "-"; auto|exists ""; auto]. }
  set (u := trim_prefix s "-") in *. clearbody u. subst s.
  destruct (match u with String "0"%char s' => Some s' | _ => scan_digits1 u end) as [i|] eqn:Ei; [|done].
  assert (exists ip, u = ip +:+ i /\ int_part ip) as (ip & -> & Hip).
  { destruct u as [|c u]; [done|]. destruct (decide (c = "0"%char)) as [->|Hne].
    - injection Ei as ->. exists "0". split; [done|]. split; [done|by left].
    - assert (scan_digits1 (String c u) = Some i) as Hi by (destruct c as [[] [] [] [] [] [] [] []]; done).
      destruct (scan_digits1_split _ _ Hi) as (d & E & Hd). exists d. split; [done|]. split; [done|right].
      destruct d as [|c' d]; [by destruct Hd|]. injection E as <- _. done. }
  destruct (match i with String "."%char s' => scan_digits1 s' | _ => Some i end) as [f|] eqn:Ef; [|done].
  assert (exists fr, i = fr +:+ f /\ frac_part fr) as (fr & -> & Hfr).
  { destruct i as [|c i]; [injection Ef as <-; exists ""; split; [done|by left]|]. destruct (decide (c = "."%char)) as [->|Hne].
    - destruct (scan_digits1_split _ _ Ef) as (d & -> & Hd). exists (String "." d). split; [done|right; by exists d].
    - assert (f = String c i) as -> by (destruct c as [[] [] [] [] [] [] [] []]; try done; by injection Ef). exists "". split; [done|by left]. }
  assert (exists ex, f = ex +:+ r /\ exp_part ex) as (ex & -> & Hex).
  { destruct f as [|c f]; [injection H as <-; exists ""; split; [done|by left]|]. destruct (Ascii.eqb c "e" || Ascii.eqb c "E") eqn:Ee;
      [|injection H as <-; exists ""; split; [done|by left]].
    assert (c = "e"%char \/ c = "E"%char) as Hc by (by apply orb_true_iff in Ee as [?%Ascii.eqb_eq|?%Ascii.eqb_eq]; [left|right]).
    destruct f as [|g f]; [done|]. destruct (Ascii.eqb g "+" || Ascii.eqb g "-") eqn:Eg.
    - destruct (scan_digits1_split _ _ H) as (d & -> & Hd). exists (String c (String g d)). split; [done|]. right. exists c, (String g ""), d.
      split; [done|]. split; [done|]. split; [|done]. apply orb_true_iff in Eg as [->%Ascii.eqb_eq| ->%Ascii.eqb_eq]; [right; by left|right; by right].
    - destruct (scan_digits1_split _ _ H) as (d & E & Hd). exists (String c d). rewrite E. split; [done|]. right. exists c, "", d.
      split; [done|]. split; [done|]. split; [by left|done]. }
  exists (sg +:+ ip +:+ fr +:+ ex). split; [by rewrite <- !str_app_assoc|]. by constructor.
Qed.

Lemma digit_copied c : is_digit c = true -> copied c = true.
Proof. destruct c as [[] [] [] [] [] [] [] []]; done. Qed.
Lemma digits_copied d : str_forall is_digit d = true -> str_forall copied d = true.
Proof. intros H. eapply str_forall_impl; [|exact H]. apply digit_copied. Qed.
Lemma number_copied n : json_number n -> str_forall copied n = true.
Proof.
  intros [sg ip fr ex Hsg [[Hip _] _] Hfr Hex]. rewrite !str_forall_app, !andb_true_iff. split; [by destruct Hsg as [->| ->]|].
  split; [by apply digits_copied|]. split.
  - destruct Hfr as [->|(d & -> & Hd & _)]; [done|]. cbn [str_forall]. by rewrite digits_copied.
  - destruct Hex as [->|(e & g & d & -> & He & Hg & Hd & _)]; [done|]. cbn [str_forall]. rewrite str_forall_app, (digits_copied d) by done.
    by destruct He as [->| ->], Hg as [->|[->| ->]].
Qed.

(** ** Values *)

(** [k] is what a compacted value contributes, found by [scan] in front of any text that stops
    a number. *)
Definition opens (k : string) : Prop :=
  exists c k', k = String c k' /\ json_space c = false /\ c <> "]"%char /\ c <> "}"%char.
Definition value_part (d : nat) (k : string) : Prop :=
  opens k /\ (forall m t, (String.length k <= m)%nat -> stops t = true -> scan_value (S m) d (k +:+ t) = Some t) /\
  (forall t, Cc (k +:+ t) = k +:+ Cc t).
(** [s] is [p], then [r]; [p] becomes [k]. *)
Definition splits (s r p k : string) : Prop := s = p +:+ r /\ forall u, Cc (p +:+ u) = k +:+ Cc u.
Definition value_compacts (v : nat -> string -> option string) : Prop :=
  forall d s r, v d s = Some r -> exists p k, splits s r p k /\ value_part d k.

Lemma opens_skip k t : opens k -> skip_ws (k +:+ t) = k +:+ t.
Proof. intros (c & k' & -> & Hc & _). cbn [String.append skip_ws]. by rewrite Hc. Qed.
Lemma opens_length k : opens k -> (1 <= String.length k)%nat.
Proof. intros (c & k' & -> & _). cbn [String.length]. lia. Qed.

Lemma scalar_compact c s r d : json_space c = false -> Ascii.eqb c "[" = false -> Ascii.eqb c "{" = false -> scan_scalar (String c s) = Some r ->
  exists p k, splits (String c s) r p k /\ value_part d k.
Proof.
  intros Hw Hb1 Hb2 H. assert (forall k u, k = String c u -> opens k -> (forall t, stops t = true -> scan_scalar (k +:+ t) = Some t) -> 
    forall m t, (String.length k <= m)%nat -> stops t = true -> scan_value (S m) d (k +:+ t) = Some t) as Hscan.
  { intros k u -> Hk Hs m t _ Ht. cbn [scan_value]. rewrite (opens_skip _ _ Hk). cbn [String.append]. rewrite Hb1, Hb2. by apply (Hs t). }
  assert (c <> "]"%char /\ c <> "}"%char) as [Hn1 Hn2] by (split; intros ->; done).
  pose proof H as H0. cbn [scan_scalar] in H. destruct (Ascii.eqb_spec c dquote) as [->|Hq].
  - destruct (string_compact _ _ H) as (p & k & [-> Hk _ (H1 & H2 & _)]). exists (String dquote p), (String dquote k).
    split; [split; [done|intros u; cbn [String.append]; by rewrite outside_quote, Hk]|].
    assert (opens (String dquote k)) as Ho by (by exists dquote, k). split_and!; [done| |].
    + eapply Hscan; [done|done|]. intros t Ht. cbn [String.append scan_scalar]. by rewrite H1.
    + intros t. cbn [String.append]. by rewrite outside_quote, H2.
  - assert (exists k, String c s = k +:+ r /\ opens k /\ (exists u, k = String c u) /\ str_forall copied k = true /\
      (forall t, stops t = true -> scan_scalar (k +:+ t) = Some t)) as (k & E & Ho & (u & Hu) & Hcp & Hs).
    { assert (forall l, has_prefix l (String c "") = true -> opens l -> str_forall copied l = true -> (forall t, scan_scalar (l +:+ t) = scan_literal l (l +:+ t)) ->
        scan_literal l (String c s) = Some r ->
        exists k, String c s = k +:+ r /\ opens k /\ (exists u, k = String c u) /\ str_forall copied k = true /\ (forall t, stops t = true -> scan_scalar (k +:+ t) = Some t)) as Hlit.
      { intros l Hl Hol Hcl Hsl Hr. exists l. unfold scan_literal in Hr. destruct (has_prefix (String c s) l) eqn:El; [|done]. injection Hr as <-.
        apply has_prefix_spec in El as (u & Eu). split; [rewrite Eu at 2; rewrite str_drop_app_length; done|].
        split; [done|]. split; [apply has_prefix_spec in Hl as (w & ->); by exists w|]. split; [done|]. intros t _. by rewrite Hsl, scan_literal_app. }
      destruct (Ascii.eqb_spec c "t") as [->|Ht]; [apply (Hlit "true"); try done; by eexists _, _|].
      destruct (Ascii.eqb_spec c "f") as [->|Hf]; [apply (Hlit "false"); try done; by eexists _, _|].
      destruct (Ascii.eqb_spec c "n") as [->|Hnn]; [apply (Hlit "null"); try done; by eexists _, _|].
      destruct (scan_number_split _ _ H) as (n & E & Hn). destruct (json_number_head n Hn) as (c' & u & -> & Hc'). injection E as <- E.
      exists (String c u). split; [cbn [String.append]; by rewrite <- E|]. split; [by exists c, u|]. split; [by exists u|]. split; [by apply number_copied|].
      intros t Hst. rewrite <- (scan_number_json _ t Hn Hst). cbn [String.append scan_scalar].
      rewrite (proj2 (Ascii.eqb_neq c dquote)), (proj2 (Ascii.eqb_neq c "t")), (proj2 (Ascii.eqb_neq c "f")), (proj2 (Ascii.eqb_neq c "n")) by done. done. }
    exists k, k. split; [split; [done|intros t; by apply outside_copied_app]|]. split_and!; [done|by eapply Hscan|]. intros t. by apply outside_copied_app.
Qed.

(** Elements after the bracket, members after the brace. *)
Definition list_part (scan : nat -> nat -> nat -> string -> option string) (d : nat) (k : string) : Prop :=
  opens k /\ (forall m f t, (String.length k <= m)%nat -> (String.length k <= f)%nat -> scan m f d (k +:+ t) = Some t) /\
  (forall t, Cc (k +:+ t) = k +:+ Cc t).

Lemma splits_app s s1 r p1 k1 p2 k2 : splits s s1 p1 k1 -> splits s1 r p2 k2 -> splits s r (p1 +:+ p2) (k1 +:+ k2).
Proof. intros [-> H1] [-> H2]. split; [by rewrite str_app_assoc|]. intros u. by rewrite <- !str_app_assoc, H1, H2. Qed.
Lemma splits_ws s : exists w, splits s (skip_ws s) w "".
Proof.
  induction s as [|c s (w & E & Hw)]; [exists ""; split; done|]. cbn [skip_ws]. destruct (json_space c) eqn:Ec; [|exists ""; split; done].
  exists (String c w). split; [cbn [String.append]; by rewrite <- E|]. intros u. cbn [String.append]. rewrite <- (outside_skip (String c _)). cbn [skip_ws]. rewrite Ec.
  rewrite outside_skip. apply Hw.
Qed.
Lemma splits_byte c s : copied c = true -> splits (String c s) s (String c "") (String c "").
Proof. intros Hc. split; [done|]. intros u. cbn [String.append]. by apply outside_copied. Qed.
Lemma splits_then s c u : skip_ws s = String c u -> copied c = true -> exists p, splits s u p (String c "").
Proof. intros Hs Hc. destruct (splits_ws s) as [w Hw]. rewrite Hs in Hw. eexists. exact (splits_app _ _ _ _ _ _ _ Hw (splits_byte c u Hc)). Qed.
Lemma opens_app k u : opens k -> opens (k +:+ u).
Proof. intros (c & k' & -> & H). by exists c, (k' +:+ u). Qed.

Lemma elements_compact v n : value_compacts v -> forall d s r, scan_elements v n d s = Some r ->
  exists p k, splits s r p k /\ list_part (fun m f d s => scan_elements (scan_value m) f d s) d k.
Proof.
  intros Hv. induction n as [|n IH]; intros d s r; cbn [scan_elements]; [done|]. destruct (v d s) as [s1|] eqn:E; [|done].
  destruct (Hv _ _ _ E) as (p1 & k1 & Hk1 & Ho & Hs1 & Hc1). destruct (skip_ws s1) as [|c s2] eqn:Ews; [done|].
  assert (forall c u k, k = k1 +:+ String c u -> copied c = true -> stops (String c "") = true ->
    forall m f t, (String.length k <= m)%nat -> (String.length k <= S f)%nat ->
      scan_elements (scan_value m) (S f) d (k +:+ t) = match String c (u +:+ t) with
                                                       | String ","%char s' => scan_elements (scan_value m) f d s'
                                                       | String "]"%char s' => Some s'
                                                       | _ => None end) as Hstep.
  { clear -Hs1 Ho. intros c u k -> Hc Hst m f t Hm Hf. rewrite <- str_app_assoc. cbn [String.append scan_elements]. rewrite str_length_app in Hm. cbn [String.length] in Hm.
    destruct m as [|m]; [lia|]. rewrite Hs1; [|lia|done]. cbn [skip_ws]. assert (json_space c = false) as ->; [|done].
    unfold copied in Hc. rewrite !andb_true_iff in Hc. destruct Hc as [[[Hc _] _] _]. by apply negb_true_iff. }
  destruct (decide (c = ","%char)) as [->|H1]; [|destruct (decide (c = "]"%char)) as [->|H2]; [|destruct c as [[] [] [] [] [] [] [] []]; done]].
  - intros H. destruct (IH _ _ _ H) as (p2 & k2 & Hk2 & Ho2 & Hs2 & Hc2). destruct (splits_then _ _ _ Ews eq_refl) as [w Hw].
    eexists _, (k1 +:+ String "," k2). split; [exact (splits_app _ _ _ _ _ _ _ Hk1 (splits_app _ _ _ _ _ _ _ Hw Hk2))|]. split_and!.
    + by apply opens_app.
    + intros m f t Hm Hf. destruct f as [|f]; [rewrite str_length_app in Hf; cbn [String.length] in Hf; lia|].
      rewrite (Hstep ","%char k2) by done. rewrite str_length_app in Hm, Hf. cbn [String.length] in Hm, Hf. apply Hs2; lia.
    + intros t. rewrite <- !str_app_assoc, Hc1. cbn [String.append]. by rewrite outside_copied, Hc2.
  - intros [= <-]. destruct (splits_then _ _ _ Ews eq_refl) as [w Hw].
    eexists _, (k1 +:+ "]"). split; [exact (splits_app _ _ _ _ _ _ _ Hk1 Hw)|]. split_and!.
    + by apply opens_app.
    + intros m f t Hm Hf. destruct f as [|f]; [rewrite str_length_app in Hf; cbn [String.length] in Hf; lia|]. by rewrite (Hstep "]"%char "").
    + intros t. rewrite <- !str_app_assoc, Hc1. cbn [String.append]. by rewrite outside_copied.
Qed.

Lemma members_compact v n : value_compacts v -> forall d s r, scan_members v n d s = Some r ->
  exists p k, splits s r p k /\ list_part (fun m f d s => scan_members (scan_value m) f d s) d k.
Proof.
  intros Hv. induction n as [|n IH]; intros d s r; cbn [scan_members]; [done|]. destruct (skip_ws s) as [|qc s1] eqn:E1; [done|].
  destruct (Ascii.eqb_spec qc dquote) as [->|]; [|done]. destruct (scan_string s1) as [s2|] eqn:E2; [|done].
  destruct (string_compact _ _ E2) as (pq & kq & [Hsq Hkq _ (Hq1 & Hq2 & _)]). destruct (skip_ws s2) as [|c s3] eqn:E3; [done|].
  destruct (decide (c = ":"%char)) as [->|]; [|destruct c as [[] [] [] [] [] [] [] []]; done].
  destruct (v d s3) as [s4|] eqn:E4; [|done]. destruct (Hv _ _ _ E4) as (pv & kv & Hkv & Hov & Hs1 & Hc1). destruct (skip_ws s4) as [|c s5] eqn:E5; [done|].
  set (head := String dquote (kq +:+ String ":" kv)).
  assert (exists p, splits s s4 p head) as [ph Hhead].
  { destruct (splits_ws s) as [w Hw]. rewrite E1 in Hw. destruct (splits_then _ _ _ E3 eq_refl) as [w2 Hw2].
    assert (splits (String dquote s1) s2 (String dquote pq) (String dquote kq)) as Hq.
    { split; [by rewrite Hsq|]. intros u. cbn [String.append]. by rewrite outside_quote, Hkq. }
    eexists. exact (splits_app _ _ _ _ _ _ _ Hw (splits_app _ _ _ _ _ _ _ Hq (splits_app _ _ _ _ _ _ _ Hw2 Hkv))). }
  assert (forall t, Cc (head +:+ t) = head +:+ Cc t) as Hidem.
  { intros t. unfold head. cbn [String.append]. rewrite <- !str_app_assoc. cbn [String.append]. rewrite outside_quote, Hq2, outside_copied, Hc1 by done. done. }
  assert (opens head) as Hoh by (by exists dquote, (kq +:+ String ":" kv)).
  assert (forall c u, copied c = true -> stops (String c "") = true ->
    forall m f t, (String.length head <= m)%nat ->
      scan_members (scan_value m) (S f) d (head +:+ String c u +:+ t) = match String c (u +:+ t) with
                                                       | String ","%char s' => scan_members (scan_value m) f d s'
                                                       | String "}"%char s' => Some s'
                                                       | _ => None end) as Hstep.
  { clear -Hs1 Hq1. intros c u Hc Hst m f t Hm. unfold head in *. cbn [String.append scan_members skip_ws]. change (json_space dquote) with false. change (Ascii.eqb dquote dquote) with true. cbv iota.
    rewrite <- !str_app_assoc. rewrite Hq1. cbn [String.append skip_ws]. change (json_space ":") with false. cbv iota.
    cbn [String.length] in Hm. rewrite str_length_app in Hm. cbn [String.length] in Hm. destruct m as [|m]; [lia|].
    rewrite Hs1; [|lia|done]. cbn [skip_ws]. assert (json_space c = false) as ->; [|done].
    unfold copied in Hc. rewrite !andb_true_iff in Hc. destruct Hc as [[[Hc _] _] _]. by apply negb_true_iff. }
  destruct (decide (c = ","%char)) as [->|H1]; [|destruct (decide (c = "}"%char)) as [->|H2]; [|destruct c as [[] [] [] [] [] [] [] []]; done]].
  - intros H. destruct (IH _ _ _ H) as (p2 & k2 & Hk2 & Ho2 & Hs2 & Hc2). destruct (splits_then _ _ _ E5 eq_refl) as [w Hw].
    eexists _, (head +:+ String "," k2). split; [exact (splits_app _ _ _ _ _ _ _ Hhead (splits_app _ _ _ _ _ _ _ Hw Hk2))|]. split_and!.
    + by apply opens_app.
    + intros m f t Hm Hf. rewrite str_length_app in Hm, Hf. cbn [String.length] in Hm, Hf. destruct f as [|f]; [lia|]. rewrite <- str_app_assoc.
      rewrite (Hstep ","%char k2) by (done || lia). apply Hs2; lia.
    + intros t. rewrite <- !str_app_assoc, Hidem. cbn [String.append]. by rewrite outside_copied, Hc2.
  - intros [= <-]. destruct (splits_then _ _ _ E5 eq_refl) as [w Hw].
    eexists _, (head +:+ "}"). split; [exact (splits_app _ _ _ _ _ _ _ Hhead Hw)|]. split_and!.
    + by apply opens_app.
    + intros m f t Hm Hf. rewrite str_length_app in Hm, Hf. cbn [String.length] in Hm, Hf. destruct f as [|f]; [lia|]. rewrite <- str_app_assoc.
      by rewrite (Hstep "}"%char "") by (done || lia).
    + intros t. rewrite <- !str_app_assoc, Hidem. cbn [String.append]. by rewrite outside_copied.
Qed.

Lemma not_bracket {A} k t (a : string -> A) b : opens k -> (match k +:+ t with String "]"%char s' => a s' | _ => b end) = b.
Proof. intros (c & k' & -> & _ & Hc & _). cbn [String.append]. destruct c as [[] [] [] [] [] [] [] []]; done. Qed.
Lemma not_brace {A} k t (a : string -> A) b : opens k -> (match k +:+ t with String "}"%char s' => a s' | _ => b end) = b.
Proof. intros (c & k' & -> & _ & _ & Hc). cbn [String.append]. destruct c as [[] [] [] [] [] [] [] []]; done. Qed.

(** Every value. *)
Lemma value_compact n : value_compacts (scan_value n).
Proof.
  induction n as [|n IH]; intros d s r; cbn [scan_value]; [done|]. destruct (skip_ws s) as [|c s'] eqn:Es; [done|].
  assert (json_space c = false) as Hw.
  { clear -Es. induction s as [|x s IHs]; [done|]. cbn [skip_ws] in Es. destruct (json_space x) eqn:E; [auto|]. by injection Es as -> _. }
  assert (forall k r p, splits (String c s') r p k -> exists p, splits s r p k) as Hlead.
  { intros k r0 p Hp. destruct (splits_ws s) as [w Hws]. rewrite Es in Hws. eexists. exact (splits_app _ _ _ _ _ _ _ Hws Hp). }
  destruct (Ascii.eqb_spec c "[") as [->|Hb1]; [|destruct (Ascii.eqb_spec c "{") as [->|Hb2]].
  - destruct (Nat.leb max_nesting d) eqn:Ed; [done|]. destruct (skip_ws s') as [|e s''] eqn:Es'.
    { intros H. cbn [scan_elements] in H. destruct n; cbn [scan_value] in H; [done|by rewrite Es' in H]. }
    destruct (decide (e = "]"%char)) as [->|Hne].
    + intros [= <-]. destruct (splits_then _ _ _ Es' eq_refl) as [w Hw2].
      destruct (Hlead "[]" _ _ (splits_app _ _ _ _ _ _ _ (splits_byte "[" s' eq_refl) Hw2)) as [p Hp]. exists p, "[]". split; [exact Hp|]. split_and!; [by eexists _, _| |].
      * intros m t _ _. cbn [scan_value String.append skip_ws]. change (json_space "[") with false. change (Ascii.eqb "[" "[") with true. cbv iota. by rewrite Ed.
      * intros t. cbn [String.append]. by rewrite !outside_copied.
    + intros H. assert (scan_elements (scan_value n) (S (String.length s')) (S d) s' = Some r) as H' by (destruct e as [[] [] [] [] [] [] [] []]; done).
      destruct (elements_compact _ _ IH _ _ _ H') as (p & k & Hk & Ho & Hs & Hc).
      destruct (Hlead (String "[" k) _ _ (splits_app _ _ _ _ _ _ _ (splits_byte "[" s' eq_refl) Hk)) as [p' Hp]. exists p', (String "[" k). split; [exact Hp|].
      split_and!; [by eexists _, _| |].
      * intros m t Hm _. cbn [String.length] in Hm. cbn [scan_value String.append skip_ws]. change (json_space "[") with false. change (Ascii.eqb "[" "[") with true. cbv iota. rewrite Ed.
        rewrite (opens_skip _ _ Ho). rewrite not_bracket by done.
        apply Hs; rewrite ?str_length_app; lia.
      * intros t. cbn [String.append]. by rewrite outside_copied, Hc.
  - destruct (Nat.leb max_nesting d) eqn:Ed; [done|]. destruct (skip_ws s') as [|e s''] eqn:Es'.
    { intros H. cbn [scan_members] in H. by rewrite Es' in H. }
    destruct (decide (e = "}"%char)) as [->|Hne].
    + intros [= <-]. destruct (splits_then _ _ _ Es' eq_refl) as [w Hw2].
      destruct (Hlead "{}" _ _ (splits_app _ _ _ _ _ _ _ (splits_byte "{" s' eq_refl) Hw2)) as [p Hp]. exists p, "{}". split; [exact Hp|]. split_and!; [by eexists _, _| |].
      * intros m t _ _. cbn [scan_value String.append skip_ws]. change (json_space "{") with false. change (Ascii.eqb "{" "[") with false. change (Ascii.eqb "{" "{") with true. cbv iota. by rewrite Ed.
      * intros t. cbn [String.append]. by rewrite !outside_copied.
    + intros H. assert (scan_members (scan_value n) (S (String.length s')) (S d) s' = Some r) as H' by (destruct e as [[] [] [] [] [] [] [] []]; done).
      destruct (members_compact _ _ IH _ _ _ H') as (p & k & Hk & Ho & Hs & Hc).
      destruct (Hlead (String "{" k) _ _ (splits_app _ _ _ _ _ _ _ (splits_byte "{" s' eq_refl) Hk)) as [p' Hp]. exists p', (String "{" k). split; [exact Hp|].
      split_and!; [by eexists _, _| |].
      * intros m t Hm _. cbn [String.length] in Hm. cbn [scan_value String.append skip_ws]. change (json_space "{") with false. change (Ascii.eqb "{" "[") with false. change (Ascii.eqb "{" "{") with true. cbv iota. rewrite Ed.
        rewrite (opens_skip _ _ Ho). rewrite not_brace by done.
        apply Hs; rewrite ?str_length_app; lia.
      * intros t. cbn [String.append]. by rewrite outside_copied, Hc.
  - intros H. destruct (scalar_compact c s' r d) as (p & k & Hp & Hpart); [done|by apply Ascii.eqb_neq|by apply Ascii.eqb_neq|done|].
    destruct (Hlead k r p Hp) as [p' Hp']. by exists p', k.
Qed.
End compact.
