(* ===== verification/JsonParts.v ===== *)
(** * Values inside values

    [json_part d v]: the text [v] is a JSON value that may stand inside [d] containers.  What
    is decoded as a member or an element is such a part one level down, and what is encoded
    from parts is one a level up. *)
From S2P Require Import Prelude GoStr Utf8 Config JsonText ToonNumbers JsonToken JsonTokenProps JsonObject JsonCompact.

Definition json_part (d : nat) (v : string) : Prop := exists n, scan_value n d v = Some "".

(** ** More fuel *)
Lemma scan_more n m d s r : (n <= m)%nat -> scan_value n d s = Some r -> scan_value m d s = Some r.
Proof.
  intros Hnm H. apply (scan_value_ext n m d s r "" Hnm) in H; [|by right]. by rewrite !str_app_nil_r in H.
Qed.
Lemma scan_same n m d s r r' : scan_value n d s = Some r -> scan_value m d s = Some r' -> r = r'.
Proof.
  intros H H'. apply (scan_more _ (Nat.max n m)) in H; [|lia]. apply (scan_more _ (Nat.max n m)) in H'; [|lia]. rewrite H in H'. by injection H'.
Qed.

Lemma part_extends d v t : json_part d v -> stops t = true -> exists n, forall m, (n <= m)%nat -> scan_value m d (v +:+ t) = Some t.
Proof. intros [n H] Ht. exists n. intros m Hm. apply (scan_value_ext n m d v "" t Hm H). by right. Qed.

(** ** What was scanned is a value of its own *)
Lemma skip_split s c u : skip_ws s = String c u -> exists w, s = w +:+ String c u /\ forall t, skip_ws (w +:+ String c t) = String c t /\
  (byte_in c ",]}" = true -> stops (w +:+ String c t) = true).
Proof.
  induction s as [|x s IH]; [done|]. cbn [skip_ws]. destruct (json_space x) eqn:Ex.
  - intros H. destruct (IH H) as (w & -> & Hw). exists (String x w). split; [done|]. intros t. cbn [String.append skip_ws stops]. rewrite Ex. split; [apply Hw|done].
  - intros [= -> ->]. exists "". split; [done|]. intros t. cbn [String.append skip_ws stops]. rewrite Ex. done.
Qed.

Lemma scan_string_split s : forall r, scan_string s = Some r -> exists b, s = b +:+ String dquote r /\ scan_string (b +:+ String dquote "") = Some "".
Proof.
  induction s as [s IH] using (induction_ltof1 _ String.length). unfold ltof in IH. intros r. destruct s as [|c s]; [done|]. cbn [scan_string].
  destruct (Ascii.eqb_spec c dquote) as [->|Hq].
  { intros [= ->]. by exists "". }
  apply Ascii.eqb_neq in Hq as Eq. destruct (Ascii.eqb c backslash) eqn:Eb.
  - destruct s as [|e s]; [done|]. destruct (decide (e = "u"%char)) as [->|Hu].
    + destruct s as [|x1 [|x2 [|x3 [|x4 s]]]]; try done. destruct (is_hex x1 && is_hex x2 && is_hex x3 && is_hex x4) eqn:Hh; [|done]. intros H.
      destruct (IH s) with (r := r) as (p & -> & Hp); [cbn [String.length]; lia|done|].
      exists (String c (String "u" (String x1 (String x2 (String x3 (String x4 p)))))). split; [done|]. cbn [scan_string String.append]. by rewrite Eq, Eb, Hh.
    + intros H. assert (byte_in e (String dquote (String backslash "/bfnrt")) = true /\ scan_string s = Some r) as [He Hs].
      { destruct (byte_in e (String dquote (String backslash "/bfnrt"))) eqn:E; destruct e as [[] [] [] [] [] [] [] []]; done. }
      destruct (IH s) with (r := r) as (p & -> & Hp); [cbn [String.length]; lia|done|]. exists (String c (String e p)). split; [done|].
      cbn [scan_string String.append]. rewrite Eq, Eb, He. destruct e as [[] [] [] [] [] [] [] []]; done.
  - destruct (bz c <? 32) eqn:Ew; [done|]. intros H. destruct (IH s) with (r := r) as (p & -> & Hp); [cbn [String.length]; lia|done|].
    exists (String c p). split; [done|]. cbn [scan_string String.append]. by rewrite Eq, Eb, Ew.
Qed.
Lemma scan_string_prefix s r : scan_string s = Some r -> exists p, s = p +:+ r /\ scan_string p = Some "".
Proof. intros H. destruct (scan_string_split s r H) as (b & -> & Hb). exists (b +:+ String dquote ""). split; [by rewrite <- str_app_assoc|done]. Qed.

Lemma scan_scalar_prefix s r : scan_scalar s = Some r -> exists c p, s = String c p +:+ r /\ scan_scalar (String c p) = Some "".
Proof.
  destruct s as [|c s]; [done|]. cbn [scan_scalar]. destruct (Ascii.eqb c dquote) eqn:Eq.
  { intros H. destruct (scan_string_prefix _ _ H) as (p & -> & Hp). exists c, p. cbn [scan_scalar]. by rewrite Eq. }
  assert (forall l, scan_literal l (String c s) = Some r -> l <> "" -> exists p, String c s = String c p +:+ r /\ scan_literal l (String c p) = Some "") as Hlit.
  { unfold scan_literal. intros l H Hl. destruct (has_prefix (String c s) l) eqn:E; [|done]. injection H as <-. apply has_prefix_spec in E as (u & E).
    destruct l as [|c' l]; [done|]. injection E as <- ->. exists l. change (String c (l +:+ u)) with (String c l +:+ u). rewrite str_drop_app_length. split; [done|].
    rewrite (proj2 (has_prefix_spec _ _)) by (exists ""; by rewrite str_app_nil_r). pose proof (str_drop_app_length (String c l) "") as Hd. rewrite str_app_nil_r in Hd. by rewrite Hd. }
  destruct (Ascii.eqb c "t") eqn:Et; [intros H; destruct (Hlit _ H ltac:(done)) as (p & E & Hp); exists c, p; cbn [scan_scalar]; by rewrite Eq, Et|].
  destruct (Ascii.eqb c "f") eqn:Ef; [intros H; destruct (Hlit _ H ltac:(done)) as (p & E & Hp); exists c, p; cbn [scan_scalar]; by rewrite Eq, Et, Ef|].
  destruct (Ascii.eqb c "n") eqn:En; [intros H; destruct (Hlit _ H ltac:(done)) as (p & E & Hp); exists c, p; cbn [scan_scalar]; by rewrite Eq, Et, Ef, En|].
  intros H. destruct (scan_number_split _ _ H) as (x & E & Hx). destruct (json_number_head x Hx) as (c' & p & -> & _). injection E as <- ->.
  exists c, p. split; [done|]. cbn [scan_scalar]. rewrite Eq, Et, Ef, En. pose proof (scan_number_json (String c p) "" Hx eq_refl) as Hn. by rewrite str_app_nil_r in Hn.
Qed.

Section prefix.
Variable n : nat.
Hypothesis IH : forall d s r, scan_value n d s = Some r -> exists p, s = p +:+ r /\ json_part d p.

Lemma part_nonempty d p : json_part d p -> p <> "".
Proof. intros [m H] ->. destruct m; done. Qed.
Lemma elements_prefix f : forall d s r, scan_elements (scan_value n) f d s = Some r ->
  exists p N, s = p +:+ r /\ forall m F, (N <= m)%nat -> (String.length p <= F)%nat -> scan_elements (scan_value m) F d p = Some "".
Proof.
  induction f as [|f IHf]; intros d s r; cbn [scan_elements]; [done|]. destruct (scan_value n d s) as [s1|] eqn:E; [|done].
  destruct (IH _ _ _ E) as (p1 & -> & Hp1). destruct (skip_ws s1) as [|c s2] eqn:E1; [done|]. destruct (skip_split _ _ _ E1) as (w & -> & Hw).
  assert (byte_in c ",]}" = true -> forall t, exists N, forall m, (N <= m)%nat -> scan_value m d (p1 +:+ w +:+ String c t) = Some (w +:+ String c t)) as Hval.
  { intros Hc t. apply part_extends; [done|]. by apply Hw. }
  assert (1 <= String.length p1)%nat as Hlen by (destruct p1; [by apply part_nonempty in Hp1|cbn [String.length]; lia]).
  destruct (decide (c = ","%char)) as [->|H1]; [|destruct (decide (c = "]"%char)) as [->|H2]; [|destruct c as [[] [] [] [] [] [] [] []]; done]].
  - intros H. destruct (IHf _ _ _ H) as (p2 & N2 & -> & Hp2). destruct (Hval eq_refl p2) as [N1 HN1]. exists (p1 +:+ w +:+ String "," p2), (Nat.max N1 N2).
    split; [by rewrite <- !str_app_assoc|]. intros m F Hm HF. rewrite !str_length_app in HF. cbn [String.length] in HF. destruct F as [|F]; [lia|]. cbn [scan_elements].
    rewrite HN1 by lia. rewrite (proj1 (Hw p2)). apply Hp2; lia.
  - intros [= <-]. destruct (Hval eq_refl "") as [N1 HN1]. exists (p1 +:+ w +:+ "]"), N1. split; [by rewrite <- !str_app_assoc|].
    intros m F Hm HF. rewrite !str_length_app in HF. destruct F as [|F]; [lia|]. cbn [scan_elements]. rewrite HN1 by lia. by rewrite (proj1 (Hw "")).
Qed.
Lemma members_prefix f : forall d s r, scan_members (scan_value n) f d s = Some r ->
  exists p N, s = p +:+ r /\ forall m F, (N <= m)%nat -> (String.length p <= F)%nat -> scan_members (scan_value m) F d p = Some "".
Proof.
  induction f as [|f IHf]; intros d s r; cbn [scan_members]; [done|]. destruct (skip_ws s) as [|qc s1] eqn:E1; [done|]. destruct (skip_split _ _ _ E1) as (w1 & -> & Hw1).
  destruct (Ascii.eqb qc dquote) eqn:Eq; [|done]. destruct (scan_string s1) as [s2|] eqn:E2; [|done]. destruct (scan_string_prefix _ _ E2) as (ps & -> & Hps).
  destruct (skip_ws s2) as [|c s3] eqn:E3; [done|]. destruct (skip_split _ _ _ E3) as (w2 & -> & Hw2).
  destruct (decide (c = ":"%char)) as [->|]; [|destruct c as [[] [] [] [] [] [] [] []]; done].
  destruct (scan_value n d s3) as [s4|] eqn:E4; [|done]. destruct (IH _ _ _ E4) as (pv & -> & Hpv).
  destruct (skip_ws s4) as [|c s5] eqn:E5; [done|]. destruct (skip_split _ _ _ E5) as (w3 & -> & Hw3).
  set (front := fun u => w1 +:+ String qc (ps +:+ w2 +:+ String ":" (pv +:+ w3 +:+ u))).
  assert (byte_in c ",]}" = true -> forall t, exists N, forall m F, (N <= m)%nat ->
    scan_members (scan_value m) (S F) d (front (String c t)) = match String c t with
                                                    | String ","%char s5 => scan_members (scan_value m) F d s5
                                                    | String "}"%char s5 => Some s5
                                                    | _ => None end) as Hfront.
  { intros Hc t. destruct (part_extends d pv (w3 +:+ String c t) Hpv) as [N HN]; [by apply Hw3|]. exists N. intros m F Hm. unfold front. cbn [scan_members].
    rewrite (proj1 (Hw1 _)), Eq. rewrite (scan_string_app _ _ _ Hps). cbn [String.append]. rewrite (proj1 (Hw2 _)), HN by done. by rewrite (proj1 (Hw3 t)). }
  assert (forall u r, front u +:+ r = front (u +:+ r) /\ (String.length u <= String.length (front u))%nat /\ (1 <= String.length (front u))%nat) as Hfr.
  { intros u r'. unfold front. split; [rewrite <- !str_app_assoc; cbn [String.append]; by rewrite <- !str_app_assoc; cbn [String.append]; rewrite <- !str_app_assoc|].
    rewrite str_length_app. cbn [String.length]. rewrite !str_length_app. cbn [String.length]. rewrite !str_length_app. lia. }
  destruct (decide (c = ","%char)) as [->|H1]; [|destruct (decide (c = "}"%char)) as [->|H2]; [|destruct c as [[] [] [] [] [] [] [] []]; done]].
  - intros H. destruct (IHf _ _ _ H) as (p2 & N2 & -> & Hp2). destruct (Hfront eq_refl p2) as [N1 HN1]. exists (front (String "," p2)), (Nat.max N1 N2).
    split; [symmetry; apply Hfr|]. intros m F Hm HF. destruct (Hfr (String "," p2) "") as (_ & Hl & _). cbn [String.length] in Hl. destruct F as [|F]; [lia|].
    rewrite HN1 by lia. apply Hp2; lia.
  - intros [= <-]. destruct (Hfront eq_refl "") as [N1 HN1]. exists (front "}"), N1. split; [symmetry; apply (Hfr "}" s5)|].
    intros m F Hm HF. destruct (Hfr "}" "") as (_ & _ & Hl). destruct F as [|F]; [lia|]. by rewrite HN1.
Qed.
End prefix.

Lemma scan_prefix n : forall d s r, scan_value n d s = Some r -> exists p, s = p +:+ r /\ json_part d p.
Proof.
  induction n as [|n IH]; intros d s r; cbn [scan_value]; [done|]. destruct (skip_ws s) as [|c s'] eqn:Es; [done|]. destruct (skip_split _ _ _ Es) as (w & -> & Hw).
  destruct (Ascii.eqb c "[") eqn:E1; [|destruct (Ascii.eqb c "{") eqn:E2].
  - destruct (Nat.leb max_nesting d) eqn:Ed; [done|]. intros H. destruct (skip_ws s') as [|e s''] eqn:Es'.
    { cbn [scan_elements] in H. destruct n; cbn [scan_value] in H; [done|by rewrite Es' in H]. }
    destruct (decide (e = "]"%char)) as [->|Hne].
    + injection H as <-. destruct (skip_split _ _ _ Es') as (w' & -> & Hw'). exists (w +:+ String c (w' +:+ "]")).
      split; [rewrite <- str_app_assoc; cbn [String.append]; by rewrite <- str_app_assoc|]. exists 1%nat. cbn [scan_value]. rewrite (proj1 (Hw _)), E1, Ed. by rewrite (proj1 (Hw' "")).
    + assert (scan_elements (scan_value n) (S (String.length s')) (S d) s' = Some r) as H' by (destruct e as [[] [] [] [] [] [] [] []]; done).
      destruct (elements_prefix n IH _ _ _ _ H') as (p & N & -> & Hp). exists (w +:+ String c p). split; [by rewrite <- str_app_assoc|].
      exists (S N). cbn [scan_value]. rewrite (proj1 (Hw _)), E1, Ed. pose proof (Hp N (S (String.length p)) (le_n _) ltac:(lia)) as HpN.
      destruct (skip_ws p) as [|x p'] eqn:Ep; [done|]. destruct (decide (x = "]"%char)) as [->|Hx].
      * apply (skip_ws_case _ _ _ r) in Ep. rewrite Ep in Es'. by injection Es' as <- _.
      * destruct x as [[] [] [] [] [] [] [] []]; done.
  - destruct (Nat.leb max_nesting d) eqn:Ed; [done|]. intros H. destruct (skip_ws s') as [|e s''] eqn:Es'.
    { cbn [scan_members] in H. by rewrite Es' in H. }
    destruct (decide (e = "}"%char)) as [->|Hne].
    + injection H as <-. destruct (skip_split _ _ _ Es') as (w' & -> & Hw'). exists (w +:+ String c (w' +:+ "}")).
      split; [rewrite <- str_app_assoc; cbn [String.append]; by rewrite <- str_app_assoc|]. exists 1%nat. cbn [scan_value]. rewrite (proj1 (Hw _)), E1, E2, Ed. by rewrite (proj1 (Hw' "")).
    + assert (scan_members (scan_value n) (S (String.length s')) (S d) s' = Some r) as H' by (destruct e as [[] [] [] [] [] [] [] []]; done).
      destruct (members_prefix n IH _ _ _ _ H') as (p & N & -> & Hp). exists (w +:+ String c p). split; [by rewrite <- str_app_assoc|].
      exists (S N). cbn [scan_value]. rewrite (proj1 (Hw _)), E1, E2, Ed. pose proof (Hp N (S (String.length p)) (le_n _) ltac:(lia)) as HpN.
      destruct (skip_ws p) as [|x p'] eqn:Ep; [done|]. destruct (decide (x = "}"%char)) as [->|Hx].
      * apply (skip_ws_case _ _ _ r) in Ep. rewrite Ep in Es'. by injection Es' as <- _.
      * destruct x as [[] [] [] [] [] [] [] []]; done.
  - intros H. destruct (scan_scalar_prefix _ _ H) as (c' & p & E & Hp). injection E as <- ->. exists (w +:+ String c p). split; [by rewrite <- str_app_assoc|].
    exists 1%nat. cbn [scan_value]. by rewrite (proj1 (Hw p)), E1, E2.
Qed.

(** ** Less depth, and fuel for the length *)
Lemma scan_value_shorter n d s r : scan_value n d s = Some r -> (String.length r < String.length s)%nat.
Proof.
  intros H. destruct (scan_prefix n d s r H) as (p & -> & Hp). apply part_nonempty in Hp. rewrite str_length_app. destruct p; [done|cbn [String.length]; lia].
Qed.
Lemma skip_ws_cons_length s c u : skip_ws s = String c u -> (String.length u < String.length s)%nat.
Proof. intros H. pose proof (skip_ws_length s) as Hl. rewrite H in Hl. cbn [String.length] in Hl. lia. Qed.

Section transfer.
Variables (v w : nat -> string -> option string) (L d d' : nat).
Hypothesis shorter : forall s r, v d s = Some r -> (String.length r < String.length s)%nat.
Hypothesis same : forall s r, (String.length s <= L)%nat -> v d s = Some r -> w d' s = Some r.
Lemma scan_elements_transfer n : forall s r, (String.length s <= L)%nat -> scan_elements v n d s = Some r -> scan_elements w n d' s = Some r.
Proof.
  induction n as [|n IH]; intros s r Hl; cbn [scan_elements]; [done|]. destruct (v d s) as [s1|] eqn:E; [|done]. rewrite (same _ _ Hl E). apply shorter in E.
  destruct (skip_ws s1) as [|c s2] eqn:E1; [done|]. apply skip_ws_cons_length in E1. destruct (decide (c = ","%char)) as [->|]; [apply IH; lia|]. destruct c as [[] [] [] [] [] [] [] []]; done.
Qed.
Lemma scan_members_transfer n : forall s r, (String.length s <= L)%nat -> scan_members v n d s = Some r -> scan_members w n d' s = Some r.
Proof.
  induction n as [|n IH]; intros s r Hl; cbn [scan_members]; [done|]. destruct (skip_ws s) as [|q s1] eqn:E1; [done|]. apply skip_ws_cons_length in E1. destruct (Ascii.eqb q dquote); [|done].
  destruct (scan_string s1) as [s2|] eqn:E2; [|done]. destruct (scan_string_prefix _ _ E2) as (p & -> & _). rewrite str_length_app in E1.
  destruct (skip_ws s2) as [|c s3] eqn:E3; [done|]. apply skip_ws_cons_length in E3.
  destruct (decide (c = ":"%char)) as [->|]; [|destruct c as [[] [] [] [] [] [] [] []]; done]. destruct (v d s3) as [s4|] eqn:E; [|done]. rewrite (same s3 s4) by (lia || done). apply shorter in E.
  destruct (skip_ws s4) as [|c s5] eqn:E5; [done|]. apply skip_ws_cons_length in E5. destruct (decide (c = ","%char)) as [->|]; [apply IH; lia|]. destruct c as [[] [] [] [] [] [] [] []]; done.
Qed.
End transfer.

Lemma scan_value_transfer n : forall m d d' s r, (d' <= d)%nat -> (String.length s < m)%nat -> scan_value n d s = Some r -> scan_value m d' s = Some r.
Proof.
  induction n as [|n IH]; intros m d d' s r Hd Hm; cbn [scan_value]; [done|]. destruct m as [|m]; [lia|]. cbn [scan_value]. destruct (skip_ws s) as [|c s'] eqn:Es; [done|].
  apply skip_ws_cons_length in Es.
  assert (forall t u, (String.length t <= String.length s')%nat -> scan_value n (S d) t = Some u -> scan_value m (S d') t = Some u) as Hsame.
  { intros t u Ht. apply IH; lia. }
  destruct (Ascii.eqb c "["); [|destruct (Ascii.eqb c "{"); [|done]]; destruct (Nat.leb_spec max_nesting d); [done| |done|]; destruct (Nat.leb_spec max_nesting d'); [lia| |lia|].
  - pose proof (scan_elements_transfer _ _ _ _ _ (scan_value_shorter n (S d)) Hsame (S (String.length s')) s' r (le_n _)) as H1.
    destruct (skip_ws s') as [|e s'']; [done|]. destruct (decide (e = "]"%char)) as [->|]; [done|]. destruct e as [[] [] [] [] [] [] [] []]; done.
  - pose proof (scan_members_transfer _ _ _ _ _ (scan_value_shorter n (S d)) Hsame (S (String.length s')) s' r (le_n _)) as H1.
    destruct (skip_ws s') as [|e s'']; [done|]. destruct (decide (e = "}"%char)) as [->|]; [done|]. destruct e as [[] [] [] [] [] [] [] []]; done.
Qed.
Lemma part_shallower d d' v : (d' <= d)%nat -> json_part d v -> json_part d' v.
Proof. intros Hd [n H]. exists (S (String.length v)). apply (scan_value_transfer n _ d); [done|lia|done]. Qed.
Lemma part_scan d v : json_part d v -> scan_value (S (String.length v)) d v = Some "".
Proof. intros [n H]. apply (scan_value_transfer n _ d); [done|lia|done]. Qed.
Lemma scan_depths n m d d' s r r' : (d' <= d)%nat -> scan_value n d s = Some r -> scan_value m d' s = Some r' -> r = r'.
Proof. intros Hd H H'. apply (scan_value_transfer _ (S (String.length s)) d d') in H; [|done|lia]. by eapply scan_same. Qed.
Lemma part_valid v : json_part 0 v -> json_valid v = true.
Proof. intros H%part_scan. unfold json_valid. by rewrite H. Qed.
Lemma valid_part s : json_valid s = true -> exists p w, s = p +:+ w /\ json_part 0 p /\ skip_ws w = "".
Proof.
  unfold json_valid. destruct (scan_value _ 0 s) as [r|] eqn:E; [|done]. intros Hr%String.eqb_eq. destruct (scan_prefix _ _ _ _ E) as (p & -> & Hp). by exists p, r.
Qed.

(** ** Compacted *)
Lemma part_value html d v : json_part d v -> value_part html d (compact html v).
Proof.
  intros [n H]. destruct (value_compact html n _ _ _ H) as (p & k & [E Hk] & Hp). rewrite str_app_nil_r in E. subst p. specialize (Hk ""). rewrite !str_app_nil_r in Hk. unfold compact. by rewrite Hk.
Qed.
Lemma value_json_part html d k : value_part html d k -> json_part d k.
Proof. intros (_ & Hs & _). exists (S (String.length k)). specialize (Hs (String.length k) "" (le_n _) eq_refl). by rewrite str_app_nil_r in Hs. Qed.
Lemma part_compact html d v : json_part d v -> json_part d (compact html v).
Proof. intros H. by apply (value_json_part html), part_value. Qed.
Lemma part_skip d v t : json_part d v -> forall html, skip_ws (compact html v +:+ t) = compact html v +:+ t.
Proof. intros H html. destruct (part_value html _ _ H) as [Ho _]. by apply opens_skip. Qed.
Lemma compact_compact html d v : json_part d v -> compact html (compact html v) = compact html v.
Proof. intros H. destruct (part_value html _ _ H) as (_ & _ & Hc). specialize (Hc ""). rewrite !str_app_nil_r in Hc. exact Hc. Qed.

(** ** Writing an object of parts *)
Lemma nesting_two d : (d < 2)%nat -> (d < max_nesting)%nat.
Proof. assert (2 < max_nesting)%nat by (apply Nat.ltb_lt; reflexivity). lia. Qed.
Definition part_member (d : nat) (m : string * string) : Prop := valid_utf8 (fst m) = true /\ json_part d (snd m).
Definition compact_member (html : bool) (m : string * string) : string * string := (fst m, compact html (snd m)).
Lemma part_member_shallower d d' m : (d' <= d)%nat -> part_member d m -> part_member d' m.
Proof. intros Hd [Hk Hv]. split; [done|by apply (part_shallower d)]. Qed.

Section write.
Variable html : bool.
Lemma members_cons m t n : part_member 1 m -> stops t = true ->
  members (S n) (field_text html m +:+ t) =
    match skip_ws t with
    | String ","%char s5 => option_map (cons (compact_member html m)) (members n s5)
    | String "}"%char _ => Some [compact_member html m]
    | _ => None
    end.
Proof.
  destruct m as [k v]. intros [Hk Hv] Ht. cbn [fst snd] in *. unfold field_text, compact_member. cbn [fst snd]. rewrite <- str_app_assoc. cbn [members].
  change (skip_ws (json_string html k +:+ ?u)) with (json_string html k +:+ u). rewrite decode_scalar_string by done.
  rewrite <- str_app_assoc. cbn [String.append skip_ws]. change (json_space ":") with false. cbv iota. rewrite (part_skip 1) by done.
  destruct (part_value html _ _ Hv) as (_ & Hs & _). rewrite Hs; [by rewrite scalar_lexeme|rewrite str_length_app; lia|done].
Qed.
Lemma scan_members_cons d m t n f : part_member d m -> stops t = true -> (String.length (field_text html m) <= f)%nat ->
  scan_members (scan_value (S f)) (S n) d (field_text html m +:+ t) =
    match skip_ws t with
    | String ","%char s5 => scan_members (scan_value (S f)) n d s5
    | String "}"%char s5 => Some s5
    | _ => None
    end.
Proof.
  destruct m as [k v]. intros [Hk Hv] Ht Hf. cbn [fst snd] in *. unfold field_text in *. cbn [fst snd] in *. rewrite !str_length_app in Hf.
  unfold json_string. rewrite <- !str_app_assoc. cbn [scan_members]. rewrite str_app_cons. cbn [skip_ws].
  change (json_space dquote) with false. cbv iota. rewrite Ascii.eqb_refl. rewrite <- !str_app_assoc, scan_string_body by done.
  cbn [String.append scan_string]. rewrite Ascii.eqb_refl. cbn [skip_ws]. change (json_space ":") with false. cbv iota.
  destruct (part_value html _ _ Hv) as (_ & Hs & _). rewrite Hs; [done|lia|done].
Qed.

Definition fields_text (ms : list (string * string)) : string := join "," (map (field_text html) ms).
Lemma fields_cons m ms : fields_text (m :: ms) = field_text html m +:+ match ms with [] => "" | _ => "," +:+ fields_text ms end.
Proof. destruct ms; [by rewrite str_app_nil_r|done]. Qed.
Lemma fields_head m ms : exists r, fields_text (m :: ms) = String dquote r.
Proof. rewrite fields_cons. unfold field_text, json_string. rewrite <- !str_app_assoc. by eexists. Qed.
Lemma fields_count ms : (List.length ms <= S (String.length (fields_text ms)))%nat.
Proof.
  induction ms as [|m ms IH]; [simpl; lia|]. rewrite fields_cons. destruct ms; [simpl; lia|]. rewrite str_length_app. cbn [String.append String.length List.length] in *. lia.
Qed.

Lemma members_fields ms : forall n t, ms <> [] -> (List.length ms <= n)%nat -> Forall (part_member 1) ms ->
  members n (fields_text ms +:+ String "}" t) = Some (map (compact_member html) ms).
Proof.
  induction ms as [|m ms IH]; intros n t Hne Hn Hf; [done|]. apply Forall_cons in Hf as [Hm Hf]. destruct n as [|n]; [simpl in Hn; lia|].
  rewrite fields_cons, <- str_app_assoc. destruct ms as [|m2 ms]; rewrite members_cons by done; [done|].
  cbn [String.append skip_ws]. change (json_space ",") with false. cbv iota. by rewrite IH by (done || (simpl in *; lia)).
Qed.
Lemma scan_members_fields d ms : forall n f t, ms <> [] -> (List.length ms <= n)%nat -> Forall (part_member d) ms -> (String.length (fields_text ms) <= f)%nat ->
  scan_members (scan_value (S f)) n d (fields_text ms +:+ String "}" t) = Some t.
Proof.
  induction ms as [|m ms IH]; intros n f t Hne Hn Hf Hl; [done|]. apply Forall_cons in Hf as [Hm Hf]. destruct n as [|n]; [simpl in Hn; lia|].
  rewrite fields_cons in *. rewrite str_length_app in Hl. rewrite <- str_app_assoc. destruct ms as [|m2 ms]; rewrite scan_members_cons by (done || lia); [done|].
  cbn [String.append skip_ws]. change (json_space ",") with false. cbv iota. apply IH; try done; [simpl in *; lia|]. cbn [String.append String.length] in Hl. lia.
Qed.

Lemma marshal_shape ms : marshal_members html ms = String "{" (fields_text ms +:+ "}").
Proof. done. Qed.
Lemma fields_not_end m ms u {A} (a : string -> A) (b : A) : match skip_ws (fields_text (m :: ms) +:+ u) with String "}"%char s => a s | _ => b end = b.
Proof. destruct (fields_head m ms) as [r ->]. done. Qed.
Lemma marshal_scan d ms t n : (d < max_nesting)%nat -> Forall (part_member (S d)) ms -> (String.length (marshal_members html ms) <= n)%nat ->
  scan_value (S n) d (marshal_members html ms +:+ t) = Some t.
Proof.
  intros Hd Hf Hn. rewrite marshal_shape in *. cbn [String.length] in Hn. rewrite str_length_app in Hn. cbn [String.length] in Hn.
  cbn [scan_value String.append skip_ws]. change (json_space "{") with false. change (Ascii.eqb "{" "[") with false. change (Ascii.eqb "{" "{") with true. cbv iota.
  destruct (Nat.leb_spec max_nesting d); [lia|]. destruct ms as [|m ms]; [done|].
  rewrite <- str_app_assoc, fields_not_end. cbn [String.append]. destruct n as [|n]; [lia|]. apply scan_members_fields; [done| |done|lia].
  rewrite str_length_app. pose proof (fields_count (m :: ms)). lia.
Qed.
Lemma marshal_part d ms : (d < max_nesting)%nat -> Forall (part_member (S d)) ms -> json_part d (marshal_members html ms).
Proof. intros Hd Hf. eexists. rewrite <- (str_app_nil_r (marshal_members html ms)). by apply marshal_scan. Qed.
Lemma marshal_object ms : Forall (part_member 1) ms ->
  shape_of (marshal_members html ms) = Some ObjectShape /\ object_members (marshal_members html ms) = map (compact_member html) ms.
Proof.
  intros Hf. unfold shape_of. rewrite part_valid by (apply marshal_part; [apply nesting_two; lia|done]). split; [done|].
  rewrite marshal_shape. unfold object_members. cbn [skip_ws]. change (json_space "{") with false. cbv iota. destruct ms as [|m ms]; [done|]. rewrite fields_not_end.
  rewrite members_fields; [done|done| |done]. rewrite str_length_app. pose proof (fields_count (m :: ms)). cbn [String.length]. lia.
Qed.
End write.

(** ** A scanned literal is unquoted *)
Lemma getu4_inv s v : getu4 s = Some v -> exists a b c d u, s = String backslash (String "u" (String a (String b (String c (String d u))))) /\ is_hex a && is_hex b && is_hex c && is_hex d = true.
Proof.
  destruct s as [|x [|y [|a [|b [|c [|d u]]]]]]; try done. unfold getu4. destruct (Ascii.eqb_spec x backslash) as [->|]; [|done]. destruct (Ascii.eqb_spec y "u") as [->|]; [|done].
  cbn [andb]. destruct (is_hex a && is_hex b && is_hex c && is_hex d) eqn:E; [|done]. intros _. by exists a, b, c, d, u.
Qed.
Lemma is_Some_prepend a o : is_Some o -> is_Some (prepend a o).
Proof. intros [b ->]. by eexists. Qed.
Lemma scan_escape c e s : c = backslash -> scan_string (String c (String e s)) = 
  match String e s with
  | String "u"%char (String a (String b (String d (String e s'')))) => if is_hex a && is_hex b && is_hex d && is_hex e then scan_string s'' else None
  | String e s'' => if byte_in e (String dquote (String backslash "/bfnrt")) then scan_string s'' else None
  | "" => None
  end.
Proof. by intros ->. Qed.
Lemma scan_hex a b c d s : is_hex a && is_hex b && is_hex c && is_hex d = true ->
  scan_string (String backslash (String "u" (String a (String b (String c (String d s)))))) = scan_string s.
Proof. intros H. cbn [scan_string]. by rewrite H. Qed.
Lemma scan_string_ends s r : scan_string s = Some r -> (String.length r < String.length s)%nat.
Proof. intros H. destruct (scan_string_prefix s r H) as (p & -> & Hp). rewrite str_length_app. destruct p; [done|cbn [String.length]; lia]. Qed.

Lemma unquote_scanned b : forall r, scan_string (b +:+ String dquote r) = Some r -> is_Some (unquote_literal b).
Proof.
  induction b as [b IH] using (induction_ltof1 _ String.length). unfold ltof in IH. intros r H. destruct b as [|c b]; [by eexists|].
  unfold unquote_literal. cbn [unquote_from]. destruct (Ascii.eqb_spec c backslash) as [->|Hb].
  - destruct (unicode_rune (String backslash b)) as [[v n]|] eqn:Eu.
    + apply is_Some_prepend. rewrite unquote_from_drop. unfold unicode_rune in Eu. destruct (getu4 (String backslash b)) as [u|] eqn:E; [|done].
      destruct (getu4_inv _ _ E) as (x1 & x2 & x3 & x4 & b' & [= ->] & Hx). cbn [String.append] in H. rewrite scan_hex in H by done.
      assert (n = 6%nat \/ exists w, n = 12%nat /\ getu4 b' = Some w) as [->|(w & -> & Ew)].
      { change (str_drop 6 _) with b' in Eu. destruct (is_surrogate u); [|left; congruence]. destruct (getu4 b') as [w|] eqn:Ew; [|left; congruence].
        destruct (utf16_decode u w); [right; exists w; split; congruence|left; congruence]. }
      * apply (IH b') with (r := r); [cbn [String.length]; lia|done].
      * destruct (getu4_inv _ _ Ew) as (y1 & y2 & y3 & y4 & b2 & -> & Hy). cbn [String.append] in H. rewrite scan_hex in H by done.
        apply (IH b2) with (r := r); [cbn [String.length]; lia|done].
    + destruct b as [|e b].
      { exfalso. cbn [String.append] in H. change (scan_string r = Some r) in H. apply scan_string_ends in H. lia. }
      cbn [String.append] in H. rewrite scan_escape in H by done. destruct (decide (e = "u"%char)) as [->|He].
      { exfalso. destruct b as [|x1 [|x2 [|x3 [|x4 b]]]]; cbn [String.append] in H; [destruct r as [|? [|? [|? ?]]]; done|destruct r as [|? [|? ?]]; try done; by destruct (is_hex x1)|
          destruct r as [|? ?]; try done; by destruct (is_hex x1), (is_hex x2)|by destruct (is_hex x1), (is_hex x2), (is_hex x3)|].
        destruct (is_hex x1 && is_hex x2 && is_hex x3 && is_hex x4) eqn:Ex; [|done]. unfold unicode_rune, getu4 in Eu. change (Ascii.eqb backslash backslash) with true in Eu.
        change (Ascii.eqb "u" "u") with true in Eu. cbn [andb] in Eu. rewrite Ex in Eu. repeat case_match; done. }
      assert (byte_in e (String dquote (String backslash "/bfnrt")) = true /\ scan_string (b +:+ String dquote r) = Some r) as [H1 H2].
      { destruct (byte_in e (String dquote (String backslash "/bfnrt"))) eqn:E; destruct e as [[] [] [] [] [] [] [] []]; done. }
      assert (exists d, simple_escape e = Some d) as [d ->] by (destruct e as [[] [] [] [] [] [] [] []]; try done; by eexists).
      apply is_Some_prepend. rewrite unquote_from_drop. apply (IH b) with (r := r); [cbn [String.length]; lia|done].
  - cbn [String.append scan_string] in H. destruct (Ascii.eqb c dquote) eqn:Eq.
    { exfalso. injection H as H. apply (f_equal String.length) in H. rewrite str_length_app in H. cbn [String.length] in H. lia. }
    rewrite (proj2 (Ascii.eqb_neq _ _) Hb) in H. destruct (bz c <? 32) eqn:Ew; [done|]. cbn [orb]. cbv zeta. apply is_Some_prepend. rewrite unquote_from_drop.
    destruct (decode_rune_inv (String c b)) as [[_ ?]|[E|(v & n & E & D)]]; [done| |].
    + rewrite E. cbn [snd pred str_drop]. apply (IH b) with (r := r); [cbn [String.length]; lia|done].
    + rewrite E. cbn [snd]. pose proof (decoded_pos _ _ _ D) as Hn. destruct n as [|n]; [lia|]. cbn [pred].
      apply (IH _) with (r := r); [rewrite str_length_drop; cbn [String.length]; lia|].
      rewrite <- (scan_string_plain (str_take n b) (str_drop n b +:+ String dquote r)); [by rewrite str_app_assoc, str_take_drop|].
      destruct (decoded_bytes _ _ _ D) as [(c' & _ & Ec & Hc)|[_ Hc]]; destruct (decoded_encode _ _ _ D) as [Et Hl].
      * rewrite Ec in Hl. injection Hl as ->. done.
      * pose proof (str_take_app_length (encode_rune v) (str_drop (S n) (String c b))) as Ht. rewrite <- Hl, <- Et in Ht. rewrite <- Ht in Hc. cbn [str_take str_forall] in Hc. apply andb_true_iff in Hc as [_ Hc]. eapply str_forall_impl; [|exact Hc].
        intros x. unfold ascii_byte. destruct x as [[] [] [] [] [] [] [] []]; done.
Qed.

(** ** Reading an object *)
Lemma skip_ws_idem s : skip_ws (skip_ws s) = skip_ws s.
Proof. induction s as [|c s IH]; [done|]. cbn [skip_ws]. destruct (json_space c) eqn:E; [done|]. cbn [skip_ws]. by rewrite E. Qed.
Lemma members_parts d n : forall s ms m f r, members n s = Some ms -> (1 <= d)%nat -> scan_members (scan_value m) f d s = Some r -> Forall (part_member d) ms.
Proof.
  induction n as [|n IH]; intros s ms m f r; cbn [members]; [done|]. destruct (decode_scalar (skip_ws s)) as [[[| | | |key] s2]|] eqn:Ek; try done.
  intros Hms Hd Hs. destruct f as [|f]; [done|]. cbn [scan_members] in Hs. destruct (skip_ws s) as [|c s1] eqn:E1; [done|]. destruct (Ascii.eqb c dquote) eqn:Eq; [|done].
  assert (scan_string s1 = Some s2) as Hs2.
  { unfold decode_scalar in Ek. destruct (scan_scalar (String c s1)) as [u|] eqn:Eu; [|done]. assert (u = s2) as <- by (clear -Ek; repeat case_match; by simplify_eq).
    cbn [scan_scalar] in Eu. by rewrite Eq in Eu. }
  rewrite Hs2 in Hs. destruct (skip_ws s2) as [|c2 s3] eqn:E2; [done|]. destruct (decide (c2 = ":"%char)) as [->|]; [|destruct c2 as [[] [] [] [] [] [] [] []]; done].
  destruct (scan_value _ 1 (skip_ws s3)) as [s4|] eqn:Ev; [|done]. destruct (scan_value m d s3) as [s4'|] eqn:Ev'; [|done].
  assert (scan_value m d (skip_ws s3) = Some s4') as Ev2.
  { clear -Ev'. destruct m; [done|]. cbn [scan_value] in *. by rewrite skip_ws_idem. }
  pose proof (scan_depths _ _ _ _ _ _ _ Hd Ev2 Ev) as <-. destruct (scan_prefix _ _ _ _ Ev2) as (p & Ep & Hp). rewrite Ep, scalar_lexeme in Hms.
  assert (part_member d (key, p)) as Hm by (split; [by eapply decode_scalar_valid|done]).
  destruct (skip_ws s4') as [|c4 s5]; [done|]. destruct (decide (c4 = ","%char)) as [->|H1].
  - destruct (members n s5) as [l|] eqn:El; [|done]. injection Hms as <-. constructor; [done|by eapply IH].
  - destruct (decide (c4 = "}"%char)) as [->|H2]; [injection Hms as <-; by constructor|destruct c4 as [[] [] [] [] [] [] [] []]; done].
Qed.

(** Every member is read: the length is fuel enough. *)
Lemma decode_scalar_scanned s r : scan_string s = Some r -> exists k, decode_scalar (String dquote s) = Some (JString k, r).
Proof.
  intros H. destruct (scan_string_split s r H) as (b & -> & _). destruct (unquote_scanned b r H) as [k Hk]. exists k. unfold decode_scalar. cbn [scan_scalar]. rewrite Ascii.eqb_refl, H.
  change (String dquote (b +:+ String dquote r)) with (String dquote b +:+ String dquote "" +:+ r). rewrite str_app_assoc, scalar_lexeme. cbn [String.append].
  rewrite Ascii.eqb_refl. rewrite str_length_app. cbn [String.length]. rewrite Nat.add_1_r. cbn [pred]. by rewrite str_take_app_length, Hk.
Qed.
Lemma members_read f : forall n s m d r, (1 <= d)%nat -> (String.length s < n)%nat -> scan_members (scan_value m) f d s = Some r -> is_Some (members n s).
Proof.
  induction f as [|f IH]; intros n s m d r Hd Hn; [done|]. destruct n as [|n]; [lia|]. cbn [scan_members members].
  destruct (skip_ws s) as [|c s1] eqn:E1; [done|]. apply skip_ws_cons_length in E1. destruct (Ascii.eqb_spec c dquote) as [->|]; [|done].
  destruct (scan_string s1) as [s2|] eqn:E2; [|done]. destruct (decode_scalar_scanned _ _ E2) as [k ->]. apply scan_string_ends in E2.
  destruct (skip_ws s2) as [|c s3] eqn:E3; [done|]. apply skip_ws_cons_length in E3. destruct (decide (c = ":"%char)) as [->|]; [|destruct c as [[] [] [] [] [] [] [] []]; done].
  destruct (scan_value m d s3) as [s4|] eqn:E4; [|done].
  assert (scan_value m d (skip_ws s3) = Some s4) as E5 by (clear -E4; destruct m; [done|]; cbn [scan_value] in *; by rewrite skip_ws_idem).
  rewrite (scan_value_transfer m (S (String.length (skip_ws s3))) d 1 _ _ Hd (Nat.lt_succ_diag_r _) E5). apply scan_value_shorter in E4.
  destruct (skip_ws s4) as [|c s5] eqn:E6; [done|]. apply skip_ws_cons_length in E6. destruct (decide (c = ","%char)) as [->|H1].
  - intros H. apply (IH n) in H as [l ->]; [by eexists|done|lia].
  - destruct (decide (c = "}"%char)) as [->|H2]; [by eexists|destruct c as [[] [] [] [] [] [] [] []]; done].
Qed.
Lemma object_members_read raw : shape_of raw = Some ObjectShape -> exists u, skip_ws raw = String "{" u /\
  ((exists v, skip_ws u = String "}" v /\ object_members raw = []) \/ members (S (String.length u)) u = Some (object_members raw)).
Proof.
  unfold shape_of, json_valid, object_members. destruct (scan_value _ 0 raw) as [r|] eqn:E; [|done]. destruct (String.eqb _ _); [|done]. cbn [scan_value] in E.
  destruct (skip_ws raw) as [|c u]; [done|]. destruct (decide (c = "{"%char)) as [->|Hc]; [|destruct c as [[] [] [] [] [] [] [] []]; done]. intros _. exists u. split; [done|].
  change (Ascii.eqb "{" "[") with false in E. change (Ascii.eqb "{" "{") with true in E. change (Nat.leb max_nesting 0) with false in E. cbv iota in E.
  assert (scan_members (scan_value (String.length raw)) (S (String.length u)) 1 u = Some r -> members (S (String.length u)) u = Some (default [] (members (S (String.length u)) u))) as H.
  { intros H. apply (members_read _ (S (String.length u))) in H as [l ->]; [done|lia|lia]. }
  destruct (skip_ws u) as [|e v]; [right; by apply H|]. destruct (decide (e = "}"%char)) as [->|He]; [left; by exists v|]. right.
  destruct e as [[] [] [] [] [] [] [] []]; try (by apply H); done.
Qed.

(** The members of an object inside [d] containers. *)
Lemma object_parts n d s r : scan_value n d s = Some r -> Forall (part_member (S d)) (object_members s).
Proof.
  unfold object_members. destruct n as [|n]; [done|]. cbn [scan_value]. destruct (skip_ws s) as [|c u]; [constructor|].
  destruct (decide (c = "{"%char)) as [->|Hc]; [|destruct c as [[] [] [] [] [] [] [] []]; try constructor; done].
  change (Ascii.eqb "{" "[") with false. change (Ascii.eqb "{" "{") with true. cbv iota. destruct (Nat.leb max_nesting d); [done|].
  assert (scan_members (scan_value n) (S (String.length u)) (S d) u = Some r -> Forall (part_member (S d)) (default [] (members (S (String.length u)) u))) as H.
  { intros H. destruct (members (S (String.length u)) u) as [ms|] eqn:E; [|constructor]. eapply members_parts; [exact E|lia|exact H]. }
  destruct (skip_ws u) as [|e u']; [exact H|]. destruct (decide (e = "}"%char)) as [->|He]; [constructor|]. destruct e as [[] [] [] [] [] [] [] []]; try exact H; done.
Qed.
Lemma map_of_forall (P : string * string -> Prop) ms : Forall P ms -> map_Forall (fun k v => P (k, v)) (map_of ms).
Proof.
  unfold map_of. intros Hf. assert (map_Forall (fun k v => P (k, v)) (∅ : gmap string string)) as H by apply map_Forall_empty. revert H. generalize (∅ : gmap string string).
  induction Hf as [|[k v] ms Hm _ IH]; intros m H; [done|]. cbn [foldl fst snd]. apply IH. by apply map_Forall_insert_2.
Qed.
Definition part_map (d : nat) (m : gmap string string) : Prop := map_Forall (fun k v => part_member d (k, v)) m.
Lemma unmarshal_map_parts raw m : unmarshal_map raw = Some (Some m) -> part_map 1 m.
Proof.
  unfold unmarshal_map, shape_of, json_valid. destruct (scan_value _ 0 raw) as [r|] eqn:E; [|done].
  intros H. apply object_parts in E. assert (m = map_of (object_members raw)) as -> by (repeat case_match; congruence). by apply map_of_forall.
Qed.
(** The members of a member lie deeper. *)
Lemma unmarshal_part_parts d raw m : json_part d raw -> unmarshal_map raw = Some (Some m) -> part_map (S d) m.
Proof.
  intros [n Hn] H. unfold unmarshal_map in H. apply object_parts in Hn. assert (m = map_of (object_members raw)) as -> by (repeat case_match; congruence). by apply map_of_forall.
Qed.

(** ** Encoding a map of parts *)
Section map.
Variables (html : bool) (d : nat) (m : gmap string string).
Hypothesis parts : part_map (S d) m.
Lemma sorted_parts : Forall (part_member (S d)) (merge_sort key_le (map_to_list m)).
Proof. apply Forall_forall. intros [k v] Hin. rewrite (merge_sort_Permutation key_le) in Hin. by apply elem_of_map_to_list, parts in Hin. Qed.
Lemma marshal_map_part : (d < max_nesting)%nat -> json_part d (marshal_map html m).
Proof. intros Hd. apply marshal_part; [done|apply sorted_parts]. Qed.
Lemma marshal_map_members : object_members (marshal_map html m) = map (compact_member html) (merge_sort key_le (map_to_list m)).
Proof. apply marshal_object. eapply Forall_impl; [apply sorted_parts|]. intros. apply (part_member_shallower (S d)); [lia|done]. Qed.
Lemma unmarshal_marshal : unmarshal_map (marshal_map html m) = Some (Some (compact html <$> m)).
Proof.
  set (ms := merge_sort key_le (map_to_list m)). assert (Permutation ms (map_to_list m)) as Hp by apply merge_sort_Permutation.
  assert (Forall (part_member 1) ms) as Hms by (eapply Forall_impl; [apply sorted_parts|]; intros; apply (part_member_shallower (S d)); [lia|done]).
  destruct (marshal_object html ms Hms) as [H1 H2]. unfold unmarshal_map. change (marshal_map html m) with (marshal_members html ms). rewrite H1, H2. do 2 f_equal.
  assert (NoDup (map fst ms)) as Hnd by (rewrite Hp; apply NoDup_fst_map_to_list). rewrite map_of_nodup by (rewrite map_map; exact Hnd).
  assert ((list_to_map ms : gmap string string) = m) as Em by (rewrite <- (list_to_map_to_list m); by apply list_to_map_proper).
  rewrite <- Em at 1. apply (list_to_map_fmap (compact html) ms).
Qed.
End map.

(** ** What is written is compact *)
Section written.
Variable html : bool.
#[local] Abbreviation Cc := (compact_from html false false 0).
#[local] Abbreviation Ic := (compact_from html true false 0).
Lemma inside_high c s : 128 <= bz c -> html && separator (String c s) = false -> Ic (String c s) = String c (Ic s).
Proof.
  intros Hc Hs. assert (angle c = false /\ c <> dquote /\ c <> backslash) as (Ha & Hq & Hb).
  { split_and!; [|intros ->; done|intros ->; done]. unfold angle. rewrite !(proj2 (Ascii.eqb_neq _ _)) by (intros ->; done). done. }
  rewrite inside_plain; [by rewrite (proj2 (Ascii.eqb_neq _ _) Hq)|by rewrite Ha, andb_false_r|done|by apply Ascii.eqb_neq].
Qed.
Lemma inside_cont c s : 128 <= bz c -> c <> e2 -> Ic (String c s) = String c (Ic s).
Proof. intros Hc He. apply inside_high; [done|]. destruct (separator (String c s)) eqn:E; [|by rewrite andb_false_r]. apply separator_head in E as (s' & [= -> _]). done. Qed.
Lemma inside_rune s r n t : decoded s r n -> r <> 34 -> r <> 92 -> html && ((r =? 8232) || (r =? 8233)) = false -> html && ((r =? 60) || (r =? 62) || (r =? 38)) = false ->
  Ic (str_take n s +:+ t) = str_take n s +:+ Ic t.
Proof.
  assert (forall c, bz c <> 226 -> c <> e2) as Hne by (intros c Hc ->; done).
  destruct 1 as [c u -> H|c0 c1 u -> H0 H1|c0 c1 c2 u -> H0 H1 H2 Ha Hb|c0 c1 c2 c3 u -> H0 H1 H2 H3 Ha Hb]; intros R1 R2 R3 R5; cbn [str_take String.append].
  - assert (c <> dquote /\ c <> backslash) as [Hq Hb] by (split; intros ->; done). rewrite inside_plain.
    + by rewrite (proj2 (Ascii.eqb_neq _ _) Hq).
    + destruct html; [|done]. cbn [andb] in *. unfold angle. destruct c as [[] [] [] [] [] [] [] []]; done.
    + by rewrite separator_low, andb_false_r.
    + by apply Ascii.eqb_neq.
  - rewrite (inside_cont c0), (inside_cont c1); try done; [lia|apply Hne; lia|lia|apply Hne; lia].
  - rewrite (inside_high c0); [|lia|].
    + rewrite (inside_cont c1), (inside_cont c2); try done; [lia|apply Hne; lia|lia|apply Hne; lia].
    + destruct (separator _) eqn:E; [|by rewrite andb_false_r]. destruct html; [|done]. destruct (separator_shape _ E) as (d & s' & Hd & [= -> -> -> _]).
      apply orb_true_iff in Hd as [->%Ascii.eqb_eq| ->%Ascii.eqb_eq]; done.
  - rewrite (inside_cont c0), (inside_cont c1), (inside_cont c2), (inside_cont c3); try done; first [lia|apply Hne; lia].
Qed.
Lemma inside_body s t : valid_utf8 s = true -> Ic (json_body html s +:+ t) = json_body html s +:+ Ic t.
Proof.
  revert s. apply valid_ind; [done|]. intros s r n E D _ IH. rewrite (json_body_decoded _ _ _ _ E D), <- !str_app_assoc, <- IH. clear IH.
  generalize (json_body html (str_drop n s) +:+ t). intros u. unfold json_rune. cbn [fst].
  assert (forall e, e <> e2 -> angle e = false -> Ic (String backslash (String e "") +:+ u) = String backslash (String e "") +:+ Ic u) as Hesc.
  { intros e He Ha. cbn [String.append]. by rewrite inside_escape. }
  assert (0 <= r) by (destruct (decoded_bytes _ _ _ D) as [(c & -> & _)|[? _]]; [apply bz_range|lia]).
  assert (Ic (unicode_escape r +:+ u) = unicode_escape r +:+ Ic u) as Hu.
  { unfold unicode_escape. cbn [String.append]. rewrite inside_escape by done.
    rewrite !inside_hex by (apply hex_char_digit, Z.mod_pos_bound; done). done. }
  destruct (bad_rune (r, n)) eqn:Ebad.
  { unfold unicode_escape. cbn [String.append]. rewrite inside_escape by done. rewrite !inside_hex by (apply hex_char_digit, Z.mod_pos_bound; done). done. }
  destruct (Z.eqb_spec r 92) as [?|?]; [by apply Hesc|]. destruct (Z.eqb_spec r 34) as [?|?]; [by apply Hesc|].
  destruct (r =? 8); [by apply Hesc|]. destruct (r =? 12); [by apply Hesc|]. destruct (r =? 10); [by apply Hesc|]. destruct (r =? 13); [by apply Hesc|]. destruct (r =? 9); [by apply Hesc|].
  destruct (r <? 32); [done|]. destruct (html && _) eqn:E2; [done|]. destruct ((r =? 8232) || (r =? 8233)) eqn:E3; [done|].
  destruct (decoded_encode _ _ _ D) as [Et Hl]. pose proof (str_take_app_length (encode_rune r) (str_drop n s)) as Ht. rewrite <- Hl, <- Et in Ht. rewrite <- Ht.
  apply (inside_rune s r n u D); try done. by rewrite E3, andb_false_r.
Qed.
Lemma outside_string s t : valid_utf8 s = true -> Cc (json_string html s +:+ t) = json_string html s +:+ Cc t.
Proof. intros Hs. unfold json_string. rewrite !str_app_cons, <- !str_app_assoc. rewrite outside_quote, inside_body by done. cbn [String.append]. by rewrite (inside_quote html t). Qed.
Lemma outside_field d m t : part_member d m -> Cc (field_text html m +:+ t) = field_text html m +:+ Cc t.
Proof.
  intros [Hk Hv]. unfold field_text. rewrite <- !str_app_assoc, outside_string by done. cbn [String.append]. rewrite outside_copied by done.
  destruct (part_value html _ _ Hv) as (_ & _ & Hc). by rewrite Hc.
Qed.
Lemma outside_fields d ms t : Forall (part_member d) ms -> Cc (fields_text html ms +:+ t) = fields_text html ms +:+ Cc t.
Proof.
  induction 1 as [|m ms Hm Hms IH]; [done|]. rewrite fields_cons, <- !str_app_assoc, (outside_field d) by done.
  destruct ms as [|m2 ms]; [done|]. cbn [String.append]. by rewrite outside_copied, IH.
Qed.
Lemma marshal_compact d ms : Forall (part_member d) ms -> compact html (marshal_members html ms) = marshal_members html ms.
Proof.
  intros Hf. unfold compact. rewrite marshal_shape, outside_copied, (outside_fields d) by done. by rewrite outside_copied.
Qed.
Lemma string_compacted s : valid_utf8 s = true -> compact html (json_string html s) = json_string html s.
Proof. intros Hs. unfold compact. rewrite <- (str_app_nil_r (json_string html s)) at 1. rewrite outside_string by done. apply str_app_nil_r. Qed.
Lemma string_part_any d s : valid_utf8 s = true -> json_part d (json_string html s).
Proof.
  intros Hs. exists 1%nat. cbn [scan_value json_string skip_ws]. change (json_space dquote) with false. cbn [scan_scalar]. rewrite Ascii.eqb_refl.
  change (Ascii.eqb dquote "[") with false. change (Ascii.eqb dquote "{") with false. cbv iota. by rewrite scan_string_body.
Qed.
End written.

(** ** Objects with given members *)
Lemma unmarshal_members html ms : Forall (part_member 1) ms -> unmarshal_map (marshal_members html ms) = Some (Some (map_of (map (compact_member html) ms))).
Proof. intros Hf. destruct (marshal_object html ms Hf) as [H1 H2]. unfold unmarshal_map. by rewrite H1, H2. Qed.
Lemma struct_marshal_members html ms : Forall (part_member 1) ms -> struct_members (marshal_members html ms) = Some (map (compact_member html) ms).
Proof. intros Hf. destruct (marshal_object html ms Hf) as [H1 H2]. unfold struct_members. by rewrite H1, H2. Qed.
Lemma struct_marshal_map html m : part_map 1 m -> struct_members (marshal_map html m) = Some (map (compact_member html) (merge_sort key_le (map_to_list m))).
Proof. intros Hf. apply struct_marshal_members. by apply (sorted_parts 0). Qed.

(** A field that no member names, and one that a single member names. *)
Section field.
Context {A : Type} (dec : A -> string -> option A) (field : string).
Lemma typed_field_none zero ms : Forall (fun m => named field m = false) ms -> typed_field dec zero field ms = Some zero.
Proof. unfold typed_field. revert zero. induction ms as [|m ms IH]; intros zero Hf; [done|]. apply Forall_cons in Hf as [Hm Hf]. cbn [foldl]. rewrite Hm. by apply IH. Qed.
Lemma typed_field_fail ms : foldl (fun acc m => match acc with Some a => if named field m then dec a (snd m) else Some a | None => None end) None ms = None.
Proof. by induction ms. Qed.
Lemma typed_field_one zero k v ms : NoDup (map fst ms) -> (k, v) ∈ ms -> named field (k, v) = true -> (forall k' v', (k', v') ∈ ms -> named field (k', v') = true -> k' = k) ->
  typed_field dec zero field ms = dec zero v.
Proof.
  induction ms as [|m ms IH] in zero |- *; intros Hnd Hin Hk Hone; [by apply not_elem_of_nil in Hin|]. cbn [map] in Hnd. apply NoDup_cons in Hnd as [Hm Hnd].
  unfold typed_field. cbn [foldl]. apply elem_of_cons in Hin as [<-|Hin].
  - rewrite Hk. cbn [snd]. destruct (dec zero v) as [a|]; [|apply typed_field_fail]. apply typed_field_none, Forall_forall. intros [k' v'] Hin. apply not_true_is_false. intros Hn.
    assert (k' = k) as -> by (eapply Hone; [by right|done]). apply Hm, list_elem_of_In. apply list_elem_of_In in Hin. by apply (in_map fst) in Hin.
  - destruct (named field m) eqn:En; [|apply IH; try done; intros k' v' H'; apply Hone; by right].
    destruct m as [k' v']. assert (k' = k) as -> by (eapply Hone; [by left|done]). exfalso. apply Hm, list_elem_of_In. apply list_elem_of_In in Hin. by apply (in_map fst) in Hin.
Qed.
End field.

(** No key names the field. *)
Definition clear_of (field : string) (m : gmap string string) : Prop := map_Forall (fun k v => named field (k, v) = false) m.
Lemma named_key field k v v' : named field (k, v) = named field (k, v').
Proof. done. Qed.
Lemma clear_of_lookup field m : clear_of field m -> m !! field = None.
Proof. intros H. destruct (m !! field) as [v|] eqn:E; [|done]. apply H in E. unfold named in E. cbn [fst] in E. by rewrite String.eqb_refl in E. Qed.
Section map_field.
Context {A : Type} (dec : A -> string -> option A) (zero : A) (field : string) (html : bool).
Lemma map_field_one m v : part_map 1 m -> m !! field = Some v -> clear_of field (delete field m) ->
  typed_field dec zero field (map (compact_member html) (merge_sort key_le (map_to_list m))) = dec zero (compact html v).
Proof.
  intros Hp Hv Hc. apply (typed_field_one dec field zero field).
  - rewrite map_map. cbn [compact_member fst]. change (NoDup (map fst (merge_sort key_le (map_to_list m)))). rewrite merge_sort_Permutation. apply NoDup_fst_map_to_list.
  - apply list_elem_of_In, in_map_iff. exists (field, v). split; [done|]. apply list_elem_of_In. rewrite merge_sort_Permutation. by apply elem_of_map_to_list.
  - unfold named. cbn [fst]. by rewrite String.eqb_refl.
  - intros k' v' Hin Hn. apply list_elem_of_In, in_map_iff in Hin as ([k2 v2] & [= <- <-] & Hin). apply list_elem_of_In in Hin. rewrite merge_sort_Permutation in Hin. apply elem_of_map_to_list in Hin.
    destruct (decide (k2 = field)) as [|Hne]; [done|]. specialize (Hc k2 v2). rewrite lookup_delete_ne in Hc by done. specialize (Hc Hin). rewrite (named_key field k2 v2 (compact html v2)) in Hc. congruence.
Qed.
Lemma map_field_none m : clear_of field m -> typed_field dec zero field (map (compact_member html) (merge_sort key_le (map_to_list m))) = Some zero.
Proof.
  intros Hc. apply typed_field_none, Forall_forall. intros [k v] Hin. apply list_elem_of_In, in_map_iff in Hin as ([k2 v2] & [= <- <-] & Hin). apply list_elem_of_In in Hin.
  rewrite merge_sort_Permutation in Hin. apply elem_of_map_to_list in Hin. by apply (Hc k2 v2).
Qed.
End map_field.

(** ** Members decoded into a struct *)
Lemma struct_members_part d raw ms : json_part d raw -> struct_members raw = Some ms -> Forall (part_member (S d)) ms.
Proof.
  intros [n Hn%object_parts] H. assert (ms = object_members raw \/ ms = []) as [->| ->]; [unfold struct_members in H; repeat case_match; simplify_eq; auto|exact Hn|constructor].
Qed.
Lemma struct_members_parts raw ms : struct_members raw = Some ms -> Forall (part_member 1) ms.
Proof.
  unfold struct_members, shape_of, json_valid. destruct (scan_value _ 0 raw) as [r|] eqn:E; [|done]. apply object_parts in E.
  destruct (String.eqb (skip_ws r) ""); [|done]. intros H. assert (ms = object_members raw \/ ms = []) as [->| ->]; [repeat case_match; simplify_eq; auto|exact E|constructor].
Qed.
(** A field keeps what holds of the zero value and is kept by decoding a member. *)
Lemma typed_field_inv {A} (P : A -> Prop) d (dec : A -> string -> option A) zero field ms v : P zero -> (forall a raw b, json_part d raw -> P a -> dec a raw = Some b -> P b) ->
  Forall (part_member d) ms -> typed_field dec zero field ms = Some v -> P v.
Proof.
  intros Hz Hd Hf. unfold typed_field. assert (forall acc, match acc with Some a => P a | None => True end ->
    foldl (fun acc m => match acc with Some a => if named field m then dec a (snd m) else Some a | None => None end) acc ms = Some v -> P v) as H; [|by apply (H (Some zero))].
  induction Hf as [|m ms [_ Hm] _ IH]; intros acc Ha; cbn [foldl]; [by intros ->|]. apply IH. destruct acc as [a|]; [|done]. destruct (named field m); [|done].
  destruct (dec a (snd m)) as [b|] eqn:E; [|done]. by eapply Hd.
Qed.
Definition part_or_none (d : nat) (raw : string) : Prop := raw = "" \/ json_part d raw.
Lemma raw_field_part d field ms : Forall (part_member d) ms -> part_or_none d (raw_field field ms).
Proof.
  unfold raw_field. intros Hf. assert (forall acc, part_or_none d acc -> part_or_none d (foldl (fun acc m => if named field m then snd m else acc) acc ms)) as H; [|by apply H; left].
  induction Hf as [|m ms [_ Hm] _ IH]; intros acc Ha; [exact Ha|]. cbn [foldl]. apply IH. destruct (named field m); [by right|exact Ha].
Qed.
