(* ===== verification/JsonTree.v ===== *)
(** * JSON values as trees: decoding into [any] with [UseNumber], and encoding again

    [decodeJSONValue] and [marshalCompact] of src/internal/server/proxy_result.go.  A decoded
    object has each key once; it lists its members in the order of their keys. *)
From S2P Require Import Prelude GoStr Utf8 Config JsonText JsonToken JsonObject Response Projection.

Definition member_le (a b : string * json) : Prop := String.leb (fst a) (fst b) = true.
#[global] Instance member_le_dec a b : Decision (member_le a b).
Proof. unfold member_le. apply _. Defined.
Definition sorted_members (fs : list (string * json)) : list (string * json) := merge_sort member_le fs.

(** Of equal keys the last member counts. *)
Definition object_of (ms : list (string * json)) : json :=
  JObj (sorted_members (map_to_list (foldl (fun m kv => <[fst kv := snd kv]> m) (∅ : gmap string json) ms))).

Section value.
Variable value : string -> option (json * string).

(** After the bracket, after the brace; [fuel] bounds the number of elements. *)
Fixpoint elements (fuel : nat) (s : string) : option (list json * string) :=
  match fuel with
  | O => None
  | S fuel =>
      match value s with
      | None => None
      | Some (v, s1) =>
          match skip_ws s1 with
          | String ","%char s2 => match elements fuel s2 with Some (l, s3) => Some (v :: l, s3) | None => None end
          | String "]"%char s2 => Some ([v], s2)
          | _ => None
          end
      end
  end.
Fixpoint object_fields (fuel : nat) (s : string) : option (list (string * json) * string) :=
  match fuel with
  | O => None
  | S fuel =>
      match decode_scalar (skip_ws s) with
      | Some (JString key, s1) =>
          match skip_ws s1 with
          | String ":"%char s2 =>
              match value s2 with
              | None => None
              | Some (v, s3) =>
                  match skip_ws s3 with
                  | String ","%char s4 => match object_fields fuel s4 with Some (fs, s5) => Some ((key, v) :: fs, s5) | None => None end
                  | String "}"%char s4 => Some ([(key, v)], s4)
                  | _ => None
                  end
              end
          | _ => None
          end
      | _ => None
      end
  end.
End value.

Definition scalar (t : token) : option json :=
  match t with
  | JsonToken.JNull => Some JNull
  | JsonToken.JBool b => Some (JBool b)
  | JNumber n => Some (JNum n)
  | JString s => Some (JStr s)
  | JDelim _ => None
  end.

Fixpoint parse_value (fuel : nat) (s : string) : option (json * string) :=
  match fuel with
  | O => None
  | S fuel =>
      match skip_ws s with
      | "" => None
      | String c s' =>
          if Ascii.eqb c "[" then
            match skip_ws s' with
            | String "]"%char s'' => Some (JArr [], s'')
            | _ => match elements (parse_value fuel) (S (String.length s')) s' with Some (l, r) => Some (JArr l, r) | None => None end
            end
          else if Ascii.eqb c "{" then
            match skip_ws s' with
            | String "}"%char s'' => Some (JObj [], s'')
            | _ => match object_fields (parse_value fuel) (S (String.length s')) s' with Some (fs, r) => Some (object_of fs, r) | None => None end
            end
          else match decode_scalar (String c s') with Some (t, r) => option_map (fun v => (v, r)) (scalar t) | None => None end
      end
  end.

(** A single value and nothing after it.  Each nested value starts a byte further: the
    length is fuel enough. *)
Definition decodeJSONValue (b : string) : option json :=
  if json_valid b then option_map fst (parse_value (S (String.length b)) b) else None.

(** The encoder sorts the keys of a map, as decoding has done here, writes a struct's members in
    their order, and leaves [<], [>] and [&] as they are. *)
Fixpoint marshalCompact (v : json) : string :=
  match v with
  | JNull => "null"
  | JBool b => if b then "true" else "false"
  | JNum n => n
  | JStr s => json_string false s
  | JArr l => "[" +:+ join "," (map marshalCompact l) +:+ "]"
  | JObj fs => "{" +:+ join "," (map (fun kv => json_string false (fst kv) +:+ ":" +:+ marshalCompact (snd kv)) fs) +:+ "}"
  end.

(** [reflect.DeepEqual] of two decoded values. *)
Fixpoint deep_equal (a b : json) : bool :=
  match a, b with
  | JNull, JNull => true
  | JBool x, JBool y => Bool.eqb x y
  | JNum x, JNum y | JStr x, JStr y => String.eqb x y
  | JArr l, JArr l' =>
      (fix items l l' : bool := match l, l' with [], [] => true | x :: l, y :: l' => deep_equal x y && items l l' | _, _ => false end) l l'
  | JObj fs, JObj fs' =>
      (fix members fs fs' : bool :=
         match fs, fs' with
         | [], [] => true
         | (k, x) :: fs, (k', y) :: fs' => String.eqb k k' && deep_equal x y && members fs fs'
         | _, _ => false
         end) fs fs'
  | _, _ => false
  end.

Example decode_ex :
  let raw := " { " +:+ q "b" +:+ ": [1.50, null], " +:+ q "a" +:+ ":" +:+ q "<x>" +:+ ", " +:+ q "b" +:+ ":[true,{}] } " in
  decodeJSONValue raw = Some (JObj [("a", JStr "<x>"); ("b", JArr [JBool true; JObj []])]) /\
  option_map marshalCompact (decodeJSONValue raw) = Some ("{" +:+ q "a" +:+ ":" +:+ q "<x>" +:+ "," +:+ q "b" +:+ ":[true,{}]}") /\
  decodeJSONValue (raw +:+ "x") = None.
Proof. vm_compute. auto. Qed.
