(* ===== verification/JsonMeaning.v ===== *)
(** * What a JSON text means

    [jvalue s v]: the text [s] is a JSON value, spaces before it included, that decodes to [v].
    The decoders of JsonObject.v and JsonTree.v read exactly these texts, and [json.Compact]
    keeps the meaning of each. *)
From S2P Require Import Prelude GoStr Utf8 Config JsonText ToonNumbers JsonToken JsonTokenProps JsonObject JsonCompact JsonParts Response Projection JsonTree.

(** ** String literals *)
Definition agree (s t : string) : Prop := forall p, str_forall multi p = true -> has_prefix s p = has_prefix t p.

Lemma agree_cons c s t : agree s t -> agree (String c s) (String c t).
Proof. intros H p Hp. apply multi_cons; [|done]. intros q. apply H. Qed.
Lemma agree_app a s t : agree s t -> agree (a +:+ s) (a +:+ t).
Proof. intros H. induction a as [|c a IH]; [done|]. by apply agree_cons. Qed.
Lemma agree_low c s d t : bz c < 128 \/ c = e2 -> bz d < 128 \/ d = e2 -> agree (String c s) (String d t).
Proof. intros Hc Hd p Hp. pose proof (low_prefix d t c "" s p Hd Hc Hp) as H. exact H. Qed.
Lemma agree_head c s t : bz c < 192 -> 128 <= bz c -> agree (String c s) t -> exists t', t = String c t' /\ agree s t'.
Proof.
  intros Hc1 Hc2 H. assert (multi c = true) as Hm.
  { unfold multi. rewrite (proj2 (Ascii.eqb_neq c e2)) by (intros ->; done). by rewrite (proj2 (Z.leb_le _ _) Hc2). }
  pose proof (H (String c "") ltac:(cbn [str_forall]; by rewrite Hm)) as H1. rewrite has_prefix_cons, Ascii.eqb_refl in H1. destruct t as [|d t]; [done|].
  rewrite has_prefix_cons in H1. destruct (Ascii.eqb_spec d c) as [->|]; [|done]. exists t. split; [done|]. intros p Hp.
  pose proof (H (String c p) ltac:(cbn [str_forall]; by rewrite Hm)) as H2. by rewrite !has_prefix_cons, Ascii.eqb_refl in H2.
Qed.
Lemma agree_sym s t : agree s t -> agree t s.
Proof. intros H p Hp. symmetry. by apply H. Qed.

(** A rune is decoded from its first byte and the continuation bytes behind it. *)
Lemma decoded_agree c s t r n : agree s t -> decoded (String c s) r n -> decoded (String c t) r n.
Proof.
  intros Ha. destruct 1 as [c0 u [= -> ->] H|c0 c1 u [= -> ->] H0 H1|c0 c1 c2 u [= -> ->] H0 H1 H2 Hx Hy|c0 c1 c2 c3 u [= -> ->] H0 H1 H2 H3 Hx Hy].
  - by eapply dec1.
  - apply agree_head in Ha as (t1 & -> & _); [by eapply dec2|lia|lia].
  - apply agree_head in Ha as (t1 & -> & Ha); [|lia|lia]. apply agree_head in Ha as (t2 & -> & _); [by eapply dec3|lia|lia].
  - apply agree_head in Ha as (t1 & -> & Ha); [|lia|lia]. apply agree_head in Ha as (t2 & -> & Ha); [|lia|lia]. apply agree_head in Ha as (t3 & -> & _); [by eapply dec4|lia|lia].
Qed.
Lemma decode_rune_agree c s t : agree s t -> decode_rune (String c s) = decode_rune (String c t).
Proof.
  intros H. destruct (decode_rune_inv (String c s)) as [[_ ?]|[E|(r & n & E & D)]]; [done| |].
  - destruct (decode_rune_inv (String c t)) as [[_ ?]|[E2|(r & n & E2 & D)]]; [done|by rewrite E, E2|].
    apply (decoded_agree c t s) in D; [|by apply agree_sym]. apply decoded_decode in D. congruence.
  - rewrite E. symmetry. by apply decoded_decode, (decoded_agree c s t).
Qed.

Section literal.
Variable html : bool.
#[local] Abbreviation Cc := (compact_from html false false 0).
#[local] Abbreviation Ic := (compact_from html true false 0).

(** An escape of a low surrogate, after the escape [v]. *)
Definition pair (v : Z) (b : string) : option (Z * option string) :=
  match getu4 b with
  | Some r2 => match utf16_decode v r2 with Some r => Some (r, unquote_literal (str_drop 6 b)) | None => None end
  | None => None
  end.
Lemma pair_other v c b : c <> backslash -> pair v (String c b) = None.
Proof. intros Hc. unfold pair. destruct (getu4 (String c b)) as [x|] eqn:E; [|done]. apply getu4_inv in E as (? & ? & ? & ? & ? & [= -> _] & _). done. Qed.

(** What the body [b] of a literal becomes. *)
Record body_compacts (b b' : string) : Prop := {
  bc_compact : forall u, Ic (b +:+ String dquote u) = b' +:+ String dquote (Cc u);
  bc_scan : forall u, scan_string (b' +:+ String dquote u) = Some u;
  bc_agree : agree b b';
  bc_unquote : unquote_literal b' = unquote_literal b;
  bc_pair : forall v, pair v b' = pair v b
}.

Lemma body_nil : body_compacts "" "".
Proof. split; [intros u; cbn [String.append]; apply inside_quote|done|done|done|done]. Qed.
Lemma unquote_rune c s : c <> backslash -> c <> dquote -> 32 <= bz c ->
  unquote_literal (String c s) = (let rn := decode_rune (String c s) in prepend (encode_rune (fst rn)) (unquote_literal (str_drop (pred (snd rn)) s))).
Proof.
  intros Hb Hq Hw. unfold unquote_literal at 1. cbn [unquote_from]. rewrite (proj2 (Ascii.eqb_neq _ _) Hb), (proj2 (Ascii.eqb_neq _ _) Hq). cbn [orb].
  destruct (Z.ltb_spec (bz c) 32); [lia|]. by rewrite unquote_from_drop.
Qed.
Lemma unquote_simple_escape e d s : simple_escape e = Some d -> e <> "u"%char -> unquote_literal (String backslash (String e s)) = prepend (String d "") (unquote_literal s).
Proof.
  intros He Hu. unfold unquote_literal at 1. cbn [unquote_from]. change (Ascii.eqb backslash backslash) with true. cbv iota.
  unfold unicode_rune. rewrite getu4_other by done. by rewrite He, unquote_from_drop.
Qed.

Lemma escape_compacts e b b' : byte_in e (String dquote (String backslash "/bfnrt")) = true -> body_compacts b b' ->
  body_compacts (String backslash (String e b)) (String backslash (String e b')).
Proof.
  intros He [H1 H2 H3 H4]. assert (angle e = false /\ e <> e2 /\ e <> "u"%char /\ exists d, simple_escape e = Some d) as (Ha & Hn & Hu & d & Hd).
  { destruct e as [[] [] [] [] [] [] [] []]; try done; split_and!; try done; by eexists. }
  split.
  - intros u. cbn [String.append]. rewrite inside_escape by done. by rewrite H1.
  - intros u. cbn [String.append]. rewrite scan_escape by done. rewrite He. destruct e as [[] [] [] [] [] [] [] []]; try done; apply H2.
  - by apply agree_low; left.
  - by rewrite !(unquote_simple_escape e d), H4.
  - intros v. unfold pair. by rewrite !getu4_other.
Qed.

(** A plain byte that is no part of a longer rune. *)
Lemma single_compacts c b b' : c <> backslash -> c <> dquote -> 32 <= bz c -> html && angle c = false -> html && separator (String c b) = false ->
  snd (decode_rune (String c b)) = 1%nat -> body_compacts b b' -> body_compacts (String c b) (String c b').
Proof.
  intros Hb Hq Hw Ha Hs Hn [H1 H2 H3 H4 _]. split.
  - intros u. cbn [String.append]. rewrite inside_plain; [by rewrite (proj2 (Ascii.eqb_neq _ _) Hq); cbn [negb]; rewrite H1|done| |by apply Ascii.eqb_neq].
    destruct (html && separator (String c (b +:+ String dquote u))) eqn:E; [|done]. apply andb_true_iff in E as [-> E]. cbn [andb] in Hs.
    unfold separator in E, Hs. rewrite !has_prefix_cons in *.
    assert (forall p x, has_prefix (b +:+ String dquote u) (String p (String x "")) = true -> p <> dquote -> x <> dquote -> has_prefix b (String p (String x "")) = true) as Hp.
    { intros p x Hpx Hp Hx. destruct b as [|y1 [|y2 b]]; cbn [String.append has_prefix] in *.
      - destruct (Ascii.eqb_spec dquote p); [by subst|done].
      - apply andb_true_iff in Hpx as [-> Hpx]. cbn [andb] in *. destruct (Ascii.eqb_spec dquote x); [by subst|done].
      - done. }
    apply orb_false_iff in Hs as [Hs1 Hs2]. apply orb_true_iff in E as [E|E]; apply andb_true_iff in E as [Ee E]; apply Hp in E; try done; rewrite Ee, E in *; done.
  - intros u. cbn [String.append scan_string]. rewrite (proj2 (Ascii.eqb_neq _ _) Hb), (proj2 (Ascii.eqb_neq _ _) Hq). destruct (Z.ltb_spec (bz c) 32); [lia|]. apply H2.
  - by apply agree_cons.
  - rewrite !unquote_rune by done. cbv zeta. rewrite <- (decode_rune_agree c b b') by done. rewrite Hn. cbn [pred str_drop]. by rewrite H4.
  - intros v. by rewrite !pair_other.
Qed.
(** A longer rune. *)
Lemma rune_compacts s r n b' : decoded s r n -> 128 <= r -> html && ((r =? 8232) || (r =? 8233)) = false -> body_compacts (str_drop n s) b' -> body_compacts s (str_take n s +:+ b').
Proof.
  intros D Hr R1 [H1 H2 H3 H4 _]. pose proof (decoded_pos _ _ _ D) as Hn.
  assert (str_forall (fun c => negb (Ascii.eqb c dquote) && negb (Ascii.eqb c backslash) && negb (bz c <? 32)) (str_take n s) = true /\ encode_rune r = str_take n s /\ n = String.length (str_take n s)) as (Hpl & He & Hl).
  { destruct (decoded_encode _ _ _ D) as [Et Hl]. pose proof (str_take_app_length (encode_rune r) (str_drop n s)) as Ht. rewrite <- Hl, <- Et in Ht. rewrite Ht. split_and!; [|done|done].
    destruct (decoded_bytes _ _ _ D) as [(c & -> & _ & Hc)|[_ Hc]]; [lia|]. eapply str_forall_impl; [|exact Hc]. intros x. unfold ascii_byte. destruct x as [[] [] [] [] [] [] [] []]; done. }
  assert (forall t, decode_rune (str_take n s +:+ t) = (r, n)) as Hdec by (intros t; by apply decoded_decode, decoded_app, decoded_take).
  assert (forall t, unquote_literal (str_take n s +:+ t) = prepend (encode_rune r) (unquote_literal t)) as Hunq.
  { intros t. destruct (str_take n s) as [|c e] eqn:Ee; [cbn [String.length] in Hl; lia|]. cbn [str_forall] in Hpl. rewrite !andb_true_iff, !negb_true_iff in Hpl. destruct Hpl as [[[Hq Hb] Hw] _].
    rewrite str_app_cons, unquote_rune; [|by apply Ascii.eqb_neq|by apply Ascii.eqb_neq|apply Z.ltb_ge in Hw; lia]. cbv zeta. rewrite <- str_app_cons, Hdec. cbn [fst snd].
    rewrite Hl. cbn [String.length pred]. by rewrite str_drop_app_length. }
  split.
  - intros u. rewrite <- (str_take_drop n s) at 1. rewrite <- !str_app_assoc, (inside_rune html s r n _ D) by (done || lia). by rewrite H1.
  - intros u. rewrite <- str_app_assoc. rewrite scan_string_plain by done. apply H2.
  - rewrite <- (str_take_drop n s) at 1. by apply agree_app.
  - rewrite Hunq, H4, <- Hunq. by rewrite str_take_drop.
  - intros v. destruct s as [|c s]; [by inversion D|]. destruct n as [|n]; [lia|]. cbn [str_take String.append]. cbn [str_take str_forall] in Hpl.
    rewrite !andb_true_iff, !negb_true_iff in Hpl. destruct Hpl as [[[_ Hb] _] _]. apply Ascii.eqb_neq in Hb. by rewrite !pair_other.
Qed.

(** Escapes of four digits. *)
Lemma unquote_backslash s r n : unicode_rune (String backslash s) = Some (r, n) -> unquote_literal (String backslash s) = prepend (encode_rune r) (unquote_literal (str_drop (pred n) s)).
Proof.
  intros H. unfold unquote_literal at 1. cbn [unquote_from]. change (Ascii.eqb backslash backslash) with true. cbv iota. by rewrite H, unquote_from_drop.
Qed.
Definition hex4 (a b c d : ascii) (s : string) : string := String backslash (String "u" (String a (String b (String c (String d s))))).
Lemma getu4_hex4 a b c d : is_hex a && is_hex b && is_hex c && is_hex d = true -> exists v, forall s : string, getu4 (hex4 a b c d s) = Some v.
Proof.
  intros H. eexists. intros t. unfold getu4, hex4. change (Ascii.eqb backslash backslash) with true. change (Ascii.eqb "u" "u") with true. cbn [andb]. rewrite H. reflexivity.
Qed.
Lemma unquote_hex4 a b c d v s : getu4 (hex4 a b c d s) = Some v ->
  unquote_literal (hex4 a b c d s) =
    if is_surrogate v then match pair v s with Some (r, o) => prepend (encode_rune r) o | None => prepend (encode_rune RuneError) (unquote_literal s) end
    else prepend (encode_rune v) (unquote_literal s).
Proof.
  intros H. unfold hex4 at 1. rewrite (unquote_backslash _ (match getu4 s with Some r2 => if is_surrogate v then match utf16_decode v r2 with Some r => r | None => RuneError end else v | None => if is_surrogate v then RuneError else v end)
    (match getu4 s with Some r2 => if is_surrogate v then match utf16_decode v r2 with Some r => 12%nat | None => 6%nat end else 6%nat | None => 6%nat end)).
  - unfold pair. destruct (getu4 s) as [r2|], (is_surrogate v); try done. by destruct (utf16_decode v r2).
  - unfold unicode_rune. change (String backslash (String "u" (String a (String b (String c (String d s)))))) with (hex4 a b c d s). rewrite H. change (str_drop 6 (hex4 a b c d s)) with s.
    destruct (getu4 s) as [r2|], (is_surrogate v); try done. by destruct (utf16_decode v r2).
Qed.
Lemma hex4_compacts a b c d s s' : is_hex a && is_hex b && is_hex c && is_hex d = true -> body_compacts s s' -> body_compacts (hex4 a b c d s) (hex4 a b c d s').
Proof.
  intros Hh [H1 H2 H3 H4 H5]. destruct (getu4_hex4 a b c d Hh) as [v Hv]. split.
  - pose proof Hh as Hh'. rewrite !andb_true_iff in Hh'. destruct Hh' as [[[Ha Hb] Hc] Hd]. intros u. unfold hex4. cbn [String.append]. rewrite inside_escape by done. rewrite !inside_hex by done. by rewrite H1.
  - intros u. unfold hex4. cbn [String.append]. rewrite scan_hex by done. apply H2.
  - unfold hex4. by apply agree_low; left.
  - rewrite !(unquote_hex4 _ _ _ _ v) by done. by rewrite H5, H4.
  - intros w. unfold pair. rewrite !Hv. change (str_drop 6 (hex4 a b c d s')) with s'. change (str_drop 6 (hex4 a b c d s)) with s. by rewrite H4.
Qed.

Lemma low_escape r s : 0 <= r < 55296 -> unquote_literal (unicode_escape r +:+ s) = prepend (encode_rune r) (unquote_literal s) /\ (forall v, pair v (unicode_escape r +:+ s) = None).
Proof.
  intros Hr. split; [by apply unquote_unicode; left|]. intros v. unfold pair. rewrite getu4_escape by lia. unfold utf16_decode. destruct (Z.leb_spec 56320 r); [lia|]. cbn [andb]. by rewrite andb_false_r.
Qed.
(** A rune that is escaped although the source has it as it is. *)
Lemma escaped_compacts s r n s' : decoded s r n -> 32 <= r < 55296 -> r <> 34 -> r <> 92 ->
  (forall u, Ic (s +:+ u) = unicode_escape r +:+ Ic (str_drop n s +:+ u)) -> (bz (default dquote (String.get 0 s)) < 128 \/ default dquote (String.get 0 s) = e2) ->
  body_compacts (str_drop n s) s' -> body_compacts s (unicode_escape r +:+ s').
Proof.
  intros D Hr R1 R2 Hi Hlow [H1 H2 H3 H4 H5]. destruct (low_escape r s') as [E1 E2]; [lia|]. split.
  - intros u. rewrite Hi, H1. by rewrite str_app_assoc.
  - intros u. rewrite <- str_app_assoc. unfold unicode_escape. cbn [String.append]. rewrite scan_hex; [apply H2|]. by rewrite !(fun n => proj1 (hex_char_digit (n mod 16) (Z.mod_pos_bound n 16 eq_refl))).
  - destruct s as [|c s]; [by inversion D|]. unfold unicode_escape. cbn [String.append]. apply agree_low; [exact Hlow|by left].
  - rewrite E1, H4. destruct (decoded_encode _ _ _ D) as [Et _]. rewrite Et at 2. symmetry. apply (unquote_plain s r n); [done|lia|done|done].
  - intros v. rewrite E2. destruct s as [|c s]; [by inversion D|]. symmetry. apply pair_other. cbn [default String.get id] in Hlow. intros ->.
    apply decoded_decode in D. cbn in D. injection D as <- _. done.
Qed.

Lemma bad_rune_high c b : decode_rune (String c b) = (RuneError, 1%nat) -> 128 <= bz c /\ separator (String c b) = false.
Proof.
  intros H. split.
  - destruct (Z.leb_spec 128 (bz c)); [done|]. cbn [decode_rune] in H. rewrite (proj2 (Z.ltb_lt _ _)) in H by lia. injection H as H. unfold RuneError in H. lia.
  - destruct (separator (String c b)) eqn:E; [|done]. destruct (separator_shape _ E) as (d & s' & Hd & [= -> ->]). exfalso. revert H.
    by apply orb_true_iff in Hd as [->%Ascii.eqb_eq| ->%Ascii.eqb_eq].
Qed.

Lemma decoded_ascii_or_high c b v n : decoded (String c b) v n -> (v = bz c /\ n = 1%nat /\ bz c < 128) \/ 128 <= v.
Proof. inversion 1 as [c0 t [= -> ->] Hc|c0 c1 t [= -> ->]|c0 c1 c2 t [= -> ->]|c0 c1 c2 c3 t [= -> ->]]; [by left|right..]; unfold rune2, rune3, rune4; lia. Qed.
Lemma decoded_separator s v n : decoded s v n -> (v =? 8232) || (v =? 8233) = true ->
  exists d t, Ascii.eqb d "8" || Ascii.eqb d "9" = true /\ s = String e2 (String (az 128) (String (az (if Ascii.eqb d "8" then 168 else 169)) t)) /\
    (if Ascii.eqb d "8" then 8232 else 8233) = v /\ n = 3%nat.
Proof.
  intros D Hv. inversion D as [c0 t Es|c0 c1 t Es|c0 c1 c2 t Es H0 H1 H2 Hx Hy|c0 c1 c2 c3 t Es]; clear D; subst v n; unfold rune2, rune3, rune4 in Hv; [lia|lia| |lia].
  assert (bz c0 = 226 /\ bz c1 = 128 /\ (bz c2 = 168 \/ bz c2 = 169)) as (E0 & E1 & E2) by lia.
  apply (f_equal az) in E0, E1. rewrite az_bz in E0, E1. subst c0 c1. unfold rune3.
  destruct E2 as [E2|E2]; pose proof (f_equal az E2) as Ec; rewrite az_bz in Ec; subst c2; [exists "8"%char, t|exists "9"%char, t]; done.
Qed.

Lemma body_compacts_exists b : forall r, scan_string (b +:+ String dquote r) = Some r -> exists b', body_compacts b b'.
Proof.
  induction b as [b IH] using (induction_ltof1 _ String.length). unfold ltof in IH. intros r H. destruct b as [|c b]; [exists ""; apply body_nil|].
  destruct (decide (c = backslash)) as [->|Hb].
  - destruct b as [|e b].
    { exfalso. cbn [String.append] in H. change (scan_string r = Some r) in H. apply scan_string_ends in H. lia. }
    cbn [String.append] in H. rewrite scan_escape in H by done. destruct (decide (e = "u"%char)) as [->|He].
    + destruct b as [|x1 [|x2 [|x3 [|x4 b]]]]; cbn [String.append] in H; [destruct r as [|? [|? [|? ?]]]; done|destruct r as [|? [|? ?]]; try done; by destruct (is_hex x1)|
          destruct r as [|? ?]; try done; by destruct (is_hex x1), (is_hex x2)|by destruct (is_hex x1), (is_hex x2), (is_hex x3)|].
      destruct (is_hex x1 && is_hex x2 && is_hex x3 && is_hex x4) eqn:Ex; [|done]. destruct (IH b) with (r := r) as [b' Hb']; [cbn [String.length]; lia|done|].
      exists (hex4 x1 x2 x3 x4 b'). by apply hex4_compacts.
    + assert (byte_in e (String dquote (String backslash "/bfnrt")) = true /\ scan_string (b +:+ String dquote r) = Some r) as [H1 H2].
      { destruct (byte_in e (String dquote (String backslash "/bfnrt"))) eqn:E; destruct e as [[] [] [] [] [] [] [] []]; done. }
      destruct (IH b) with (r := r) as [b' Hb']; [cbn [String.length]; lia|done|]. eexists. by apply escape_compacts.
  - pose proof H as H0. cbn [String.append scan_string] in H. destruct (Ascii.eqb_spec c dquote) as [->|Hq].
    { exfalso. injection H as H. apply (f_equal String.length) in H. rewrite str_length_app in H. cbn [String.length] in H. lia. }
    rewrite (proj2 (Ascii.eqb_neq _ _) Hb) in H. destruct (Z.ltb_spec (bz c) 32); [done|].
    destruct (decode_rune_inv (String c b)) as [[_ ?]|[E|(v & n & E & D)]]; [done| |].
    + destruct (bad_rune_high c b E) as [Hc Hs]. destruct (IH b) with (r := r) as [b' Hb']; [cbn [String.length]; lia|done|]. exists (String c b'). apply single_compacts; try done.
      * unfold angle. rewrite !(proj2 (Ascii.eqb_neq _ _)) by (intros ->; done). by rewrite andb_false_r.
      * by rewrite Hs, andb_false_r.
      * by rewrite E.
    + destruct (IH (str_drop n (String c b))) with (r := r) as [b' Hb'].
      { pose proof (decoded_pos _ _ _ D). rewrite str_length_drop. cbn [String.length]. lia. }
      { rewrite <- (scan_string_plain (str_take n (String c b)) (str_drop n (String c b) +:+ String dquote r)); [by rewrite str_app_assoc, str_take_drop|].
        destruct (decoded_encode _ _ _ D) as [Et Hl]. pose proof (str_take_app_length (encode_rune v) (str_drop n (String c b))) as Ht. rewrite <- Hl, <- Et in Ht.
        destruct (decoded_bytes _ _ _ D) as [(c' & -> & Ec & Hc)|[_ Hc]].
        - rewrite Ht, Ec. rewrite Ec in Et. injection Et as <- _. cbn [str_forall]. rewrite (proj2 (Ascii.eqb_neq _ _) Hb), (proj2 (Ascii.eqb_neq _ _) Hq). by destruct (Z.ltb_spec (bz c) 32); [lia|].
        - rewrite Ht. eapply str_forall_impl; [|exact Hc]. intros x. unfold ascii_byte. destruct x as [[] [] [] [] [] [] [] []]; done. }
      destruct (decoded_ascii_or_high _ _ _ _ D) as [(-> & -> & Hc)|Hv].
      * change (str_drop 1 (String c b)) with b in *. destruct (html && angle c) eqn:Ea.
        -- apply andb_true_iff in Ea as [Eh Ea]. exists (unicode_escape (bz c) +:+ b'). apply (escaped_compacts _ (bz c) 1); try done; [lia| | | |by left].
           ++ intros Hx. by rewrite <- (az_bz c), Hx in Ea.
           ++ intros Hx. by rewrite <- (az_bz c), Hx in Ea.
           ++ intros u. cbn [str_drop String.append]. by apply inside_angle.
        -- exists (String c b'). apply single_compacts; try done; [by rewrite separator_low, andb_false_r|by rewrite E].
      * destruct (html && ((v =? 8232) || (v =? 8233))) eqn:Es; [|eexists; by eapply rune_compacts].
        apply andb_true_iff in Es as [Eh Es]. destruct (decoded_separator _ _ _ D Es) as (d & t & Hd & [= -> ->] & Ed & ->).
        exists (unicode_escape v +:+ b'). apply (escaped_compacts _ v 3); try done; [lia|lia|lia| |by right].
        intros u. cbn [str_drop String.append]. rewrite inside_separator by done. rewrite <- Ed. by apply orb_true_iff in Hd as [->%Ascii.eqb_eq| ->%Ascii.eqb_eq].
Qed.
End literal.

(** ** The grammar *)
Definition spaces (w : string) : bool := str_forall json_space w.
(** A member: key, text of the value without the spaces before it, value. *)
Definition member : Type := string * string * json.

Inductive jvalue : nat -> string -> json -> Prop :=
| jv_scalar d w c p t v : spaces w = true -> json_space c = false -> c <> "["%char -> c <> "{"%char ->
    decode_scalar (String c p) = Some (t, "") -> scalar t = Some v -> jvalue d (w +:+ String c p) v
| jv_array_nil d w w' : spaces w = true -> spaces w' = true -> (d < max_nesting)%nat -> jvalue d (w +:+ String "[" (w' +:+ "]")) (JArr [])
| jv_array d w e l : spaces w = true -> (d < max_nesting)%nat -> jelements (S d) e l -> jvalue d (w +:+ String "[" e) (JArr l)
| jv_object_nil d w w' : spaces w = true -> spaces w' = true -> (d < max_nesting)%nat -> jvalue d (w +:+ String "{" (w' +:+ "}")) (JObj [])
| jv_object d w e ms : spaces w = true -> (d < max_nesting)%nat -> jmembers (S d) e ms ->
    jvalue d (w +:+ String "{" e) (object_of (map (fun m => (fst (fst m), snd m)) ms))
with jelements : nat -> string -> list json -> Prop :=
| je_last d p v w : jvalue d p v -> spaces w = true -> jelements d (p +:+ w +:+ "]") [v]
| je_more d p v w e l : jvalue d p v -> spaces w = true -> jelements d e l -> jelements d (p +:+ w +:+ String "," e) (v :: l)
with jmembers : nat -> string -> list member -> Prop :=
| jm_last d w0 b key w1 p v w2 : spaces w0 = true -> scan_string (b +:+ String dquote "") = Some "" -> unquote_literal b = Some key -> spaces w1 = true ->
    jvalue d p v -> spaces w2 = true -> jmembers d (w0 +:+ String dquote (b +:+ String dquote (w1 +:+ String ":" (p +:+ w2 +:+ "}")))) [(key, skip_ws p, v)]
| jm_more d w0 b key w1 p v w2 e ms : spaces w0 = true -> scan_string (b +:+ String dquote "") = Some "" -> unquote_literal b = Some key -> spaces w1 = true ->
    jvalue d p v -> spaces w2 = true -> jmembers d e ms ->
    jmembers d (w0 +:+ String dquote (b +:+ String dquote (w1 +:+ String ":" (p +:+ w2 +:+ String "," e)))) ((key, skip_ws p, v) :: ms).

Scheme jvalue_mut := Induction for jvalue Sort Prop
with jelements_mut := Induction for jelements Sort Prop
with jmembers_mut := Induction for jmembers Sort Prop.
Combined Scheme json_mutind from jvalue_mut, jelements_mut, jmembers_mut.

(** *** Whatever is scanned is a text of the grammar *)
Lemma skip_spaces s : exists w, spaces w = true /\ s = w +:+ skip_ws s.
Proof.
  induction s as [|c s (w & Hw & E)]; [by exists ""|]. cbn [skip_ws]. destruct (json_space c) eqn:Ec; [|by exists ""].
  exists (String c w). split; [unfold spaces in *; cbn [str_forall]; by rewrite Ec|]. cbn [String.append]. by rewrite <- E.
Qed.
Lemma skip_spaces_cons s c u : skip_ws s = String c u -> exists w, spaces w = true /\ s = w +:+ String c u.
Proof. intros H. destruct (skip_spaces s) as (w & Hw & E). exists w. by rewrite <- H. Qed.
Lemma str_take_all s : str_take (String.length s) s = s.
Proof. pose proof (str_take_app_length s "") as H. by rewrite str_app_nil_r in H. Qed.
Lemma decode_scalar_app c p t r : decode_scalar (String c p) = Some (t, "") -> stops r = true -> decode_scalar (String c p +:+ r) = Some (t, r).
Proof.
  unfold decode_scalar. intros H Hr. destruct (scan_scalar (String c p)) as [u|] eqn:E; [|done]. assert (u = "") as -> by (clear -H; repeat case_match; by simplify_eq).
  rewrite (scan_scalar_ext _ _ r E) by by right. cbn [String.append] in *. rewrite Nat.sub_0_r, str_take_all in H.
  change (String c (p +:+ r)) with (String c p +:+ r). rewrite scalar_lexeme. clear E. repeat case_match; by simplify_eq.
Qed.
Lemma scalar_read c s r : json_space c = false -> c <> "["%char -> c <> "{"%char -> scan_scalar (String c s) = Some r ->
  exists p t v, String c s = String c p +:+ r /\ decode_scalar (String c p) = Some (t, "") /\ scalar t = Some v.
Proof.
  intros Hc H1 H2 H. destruct (scan_scalar_prefix _ _ H) as (c' & p & E & Hp). injection E as <- ->.
  assert (exists t v, decode_scalar (String c p) = Some (t, "") /\ scalar t = Some v) as (t & v & Ht & Hv); [|by exists p, t, v].
  unfold decode_scalar. rewrite Hp. cbn [String.length]. rewrite Nat.sub_0_r. change (S (String.length p)) with (String.length (String c p)).
  rewrite str_take_all. destruct (Ascii.eqb_spec c dquote) as [->|Hq].
  - cbn [scan_scalar] in Hp. rewrite Ascii.eqb_refl in Hp. destruct (scan_string_split _ _ Hp) as (b & -> & Hb). destruct (unquote_scanned b "" Hb) as [k Hk].
    rewrite str_length_app. cbn [String.length]. rewrite Nat.add_1_r. cbn [pred]. rewrite str_take_app_length, Hk. by do 2 eexists.
  - destruct (Ascii.eqb c "t"); [by do 2 eexists|]. destruct (Ascii.eqb c "f"); [by do 2 eexists|]. destruct (Ascii.eqb c "n"); by do 2 eexists.
Qed.

Section scanned.
Variable n : nat.
Hypothesis IH : forall d s r, scan_value n d s = Some r -> exists p v, s = p +:+ r /\ jvalue d p v.
Lemma elements_scanned f : forall d s r, scan_elements (scan_value n) f d s = Some r -> exists p l, s = p +:+ r /\ jelements d p l.
Proof.
  induction f as [|f IHf]; intros d s r; cbn [scan_elements]; [done|]. destruct (scan_value n d s) as [s1|] eqn:E; [|done]. destruct (IH _ _ _ E) as (p & v & -> & Hv).
  destruct (skip_ws s1) as [|c s2] eqn:E1; [done|]. destruct (skip_spaces_cons _ _ _ E1) as (w & Hw & ->).
  destruct (decide (c = ","%char)) as [->|H1]; [|destruct (decide (c = "]"%char)) as [->|H2]; [|destruct c as [[] [] [] [] [] [] [] []]; done]].
  - intros H. destruct (IHf _ _ _ H) as (e & l & -> & Hl). eexists _, _. split; [|by apply (je_more d p v w e l)]. by rewrite <- !str_app_assoc.
  - intros [= <-]. eexists _, _. split; [|by apply (je_last d p v w)]. by rewrite <- !str_app_assoc.
Qed.
Lemma members_scanned f : forall d s r, scan_members (scan_value n) f d s = Some r -> exists p ms, s = p +:+ r /\ jmembers d p ms.
Proof.
  induction f as [|f IHf]; intros d s r; cbn [scan_members]; [done|]. destruct (skip_ws s) as [|qc s1] eqn:E1; [done|]. destruct (skip_spaces_cons _ _ _ E1) as (w0 & Hw0 & ->).
  destruct (Ascii.eqb_spec qc dquote) as [->|]; [|done]. destruct (scan_string s1) as [s2|] eqn:E2; [|done]. destruct (scan_string_split _ _ E2) as (b & -> & Hb). destruct (unquote_scanned b _ E2) as [key Hk].
  destruct (skip_ws s2) as [|c s3] eqn:E3; [done|]. destruct (skip_spaces_cons _ _ _ E3) as (w1 & Hw1 & ->).
  destruct (decide (c = ":"%char)) as [->|]; [|destruct c as [[] [] [] [] [] [] [] []]; done].
  destruct (scan_value n d s3) as [s4|] eqn:E4; [|done]. destruct (IH _ _ _ E4) as (p & v & -> & Hv). destruct (skip_ws s4) as [|c s5] eqn:E5; [done|]. destruct (skip_spaces_cons _ _ _ E5) as (w2 & Hw2 & ->).
  assert (forall u t, (w0 +:+ String dquote (b +:+ String dquote (w1 +:+ String ":" (p +:+ w2 +:+ u)))) +:+ t = w0 +:+ String dquote (b +:+ String dquote (w1 +:+ String ":" (p +:+ w2 +:+ u +:+ t)))) as Hassoc.
  { intros u t. rewrite <- str_app_assoc. cbn [String.append]. rewrite <- str_app_assoc. cbn [String.append]. rewrite <- str_app_assoc. cbn [String.append]. by rewrite <- !str_app_assoc. }
  destruct (decide (c = ","%char)) as [->|H1]; [|destruct (decide (c = "}"%char)) as [->|H2]; [|destruct c as [[] [] [] [] [] [] [] []]; done]].
  - intros H. destruct (IHf _ _ _ H) as (e & ms & -> & Hms). eexists _, _. split; [|by apply (jm_more d w0 b key w1 p v w2 e ms)]. by rewrite Hassoc.
  - intros [= <-]. eexists _, _. split; [|by apply (jm_last d w0 b key w1 p v w2)]. by rewrite Hassoc.
Qed.
End scanned.
Lemma value_scanned n : forall d s r, scan_value n d s = Some r -> exists p v, s = p +:+ r /\ jvalue d p v.
Proof.
  induction n as [|n IH]; intros d s r; cbn [scan_value]; [done|]. destruct (skip_ws s) as [|c s'] eqn:Es; [done|]. destruct (skip_spaces_cons _ _ _ Es) as (w & Hw & ->).
  assert (json_space c = false) as Hc.
  { pose proof (skip_ws_idem (w +:+ String c s')) as Hi. rewrite Es in Hi. cbn [skip_ws] in Hi. destruct (json_space c); [|done]. exfalso. pose proof (skip_ws_length s') as Hl. rewrite Hi in Hl. cbn [String.length] in Hl. lia. }
  destruct (Ascii.eqb_spec c "[") as [->|Hb1]; [|destruct (Ascii.eqb_spec c "{") as [->|Hb2]].
  - destruct (Nat.leb_spec max_nesting d) as [|Hd]; [done|]. intros H. destruct (skip_ws s') as [|e s''] eqn:Es'.
    { cbn [scan_elements] in H. destruct n; cbn [scan_value] in H; [done|by rewrite Es' in H]. }
    destruct (decide (e = "]"%char)) as [->|Hne].
    + injection H as <-. destruct (skip_spaces_cons _ _ _ Es') as (w' & Hw' & ->). eexists _, _. split; [|by apply (jv_array_nil d w w')].
      rewrite <- str_app_assoc. cbn [String.append]. by rewrite <- str_app_assoc.
    + assert (scan_elements (scan_value n) (S (String.length s')) (S d) s' = Some r) as H' by (destruct e as [[] [] [] [] [] [] [] []]; done).
      destruct (elements_scanned n IH _ _ _ _ H') as (e' & l & -> & Hl). eexists _, _. split; [|by apply (jv_array d w e' l)]. by rewrite <- str_app_assoc.
  - destruct (Nat.leb_spec max_nesting d) as [|Hd]; [done|]. intros H. destruct (skip_ws s') as [|e s''] eqn:Es'.
    { cbn [scan_members] in H. by rewrite Es' in H. }
    destruct (decide (e = "}"%char)) as [->|Hne].
    + injection H as <-. destruct (skip_spaces_cons _ _ _ Es') as (w' & Hw' & ->). eexists _, _. split; [|by apply (jv_object_nil d w w')].
      rewrite <- str_app_assoc. cbn [String.append]. by rewrite <- str_app_assoc.
    + assert (scan_members (scan_value n) (S (String.length s')) (S d) s' = Some r) as H' by (destruct e as [[] [] [] [] [] [] [] []]; done).
      destruct (members_scanned n IH _ _ _ _ H') as (e' & ms & -> & Hms). eexists _, _. split; [|by apply (jv_object d w e' ms)]. by rewrite <- str_app_assoc.
  - intros H. destruct (scalar_read c s' r Hc Hb1 Hb2 H) as (p & t & v & E & Ht & Hv). rewrite E, str_app_assoc. eexists _, _. split; [done|]. by eapply jv_scalar.
Qed.

(** *** Texts of the grammar are read *)
Lemma skip_spaces_app w c u : spaces w = true -> json_space c = false -> skip_ws (w +:+ String c u) = String c u.
Proof.
  intros Hw Hc. induction w as [|x w IH]; [cbn [String.append skip_ws]; by rewrite Hc|]. unfold spaces in Hw. cbn [str_forall] in Hw. apply andb_true_iff in Hw as [Hx Hw].
  cbn [String.append skip_ws]. by rewrite Hx, IH.
Qed.
Lemma spaces_stop w c u : spaces w = true -> byte_in c ",]}" = true -> stops (w +:+ String c u) = true.
Proof.
  intros Hw Hc. destruct w as [|x w]; [unfold stops; cbn [String.append]; by rewrite Hc, orb_true_r|]. unfold spaces in Hw. cbn [str_forall] in Hw. apply andb_true_iff in Hw as [Hx Hw].
  unfold stops. cbn [String.append]. by rewrite Hx.
Qed.
Definition starts (p : string) : Prop := exists c u, skip_ws p = String c u /\ c <> "]"%char /\ c <> "}"%char /\ c <> ","%char.
Lemma starts_app p u : starts p -> exists c t, skip_ws (p +:+ u) = String c t /\ c <> "]"%char /\ c <> "}"%char /\ c <> ","%char.
Proof. intros (c & t & E & H). exists c, (t +:+ u). split; [by apply skip_ws_case|done]. Qed.
Lemma length_pos p : starts p -> (1 <= String.length p)%nat.
Proof. intros (c & u & E & _). destruct p; [done|cbn [String.length]; lia]. Qed.

(** A value is found by the scanner and by the decoder, with the length as fuel. *)
Definition reads (d : nat) (p : string) (v : json) : Prop := starts p /\ forall m t, (String.length p <= m)%nat -> stops t = true ->
  scan_value (S m) d (p +:+ t) = Some t /\ parse_value (S m) (p +:+ t) = Some (v, t).
Definition reads_elements (d : nat) (e : string) (l : list json) : Prop := starts e /\ forall m f t, (String.length e <= m)%nat -> (String.length e <= f)%nat ->
  scan_elements (scan_value m) f d (e +:+ t) = Some t /\ elements (parse_value m) f (e +:+ t) = Some (l, t).
Definition reads_members (d : nat) (e : string) (ms : list member) : Prop := starts e /\ (forall m f t, (String.length e <= m)%nat -> (String.length e <= f)%nat ->
  scan_members (scan_value m) f d (e +:+ t) = Some t /\ object_fields (parse_value m) f (e +:+ t) = Some (map (fun m => (fst (fst m), snd m)) ms, t)) /\
  (forall f t, (1 <= d)%nat -> (String.length e <= f)%nat -> members f (e +:+ t) = Some (map fst ms)).

Lemma not_close {A} e u (a : string -> A) (b : A) : starts e ->
  match skip_ws (e +:+ u) with String "]"%char s => a s | _ => b end = b /\ match skip_ws (e +:+ u) with String "}"%char s => a s | _ => b end = b.
Proof. intros H. destruct (starts_app e u H) as (c & t & -> & H1 & H2 & _). destruct c as [[] [] [] [] [] [] [] []]; done. Qed.

Lemma scalar_reads d w c p t v : spaces w = true -> json_space c = false -> c <> "["%char -> c <> "{"%char -> decode_scalar (String c p) = Some (t, "") -> scalar t = Some v ->
  reads d (w +:+ String c p) v.
Proof.
  intros Hw Hc H1 H2 Ht Hv. assert (c <> "]"%char /\ c <> "}"%char /\ c <> ","%char) as Hn by (split_and!; intros ->; done).
  split; [exists c, p; split; [by apply skip_spaces_app|done]|]. intros m u _ Hu. rewrite <- str_app_assoc. cbn [scan_value parse_value]. rewrite str_app_cons, !skip_spaces_app by done.
  rewrite (proj2 (Ascii.eqb_neq _ _) H1), (proj2 (Ascii.eqb_neq _ _) H2). rewrite <- str_app_cons. rewrite (decode_scalar_app c p t u Ht Hu), Hv. split; [|done].
  unfold decode_scalar in Ht. destruct (scan_scalar (String c p)) as [x|] eqn:E; [|done]. assert (x = "") as -> by (clear -Ht; repeat case_match; by simplify_eq).
  rewrite (scan_scalar_ext _ _ u E) by by right. done.
Qed.
Lemma bracket_head b w e t : b = "["%char \/ b = "{"%char -> spaces w = true -> skip_ws ((w +:+ String b e) +:+ t) = String b (e +:+ t).
Proof. intros Hb Hw. rewrite <- str_app_assoc. cbn [String.append]. apply skip_spaces_app; [done|by destruct Hb as [->| ->]]. Qed.
Lemma bracket_starts b w e : b = "["%char \/ b = "{"%char -> spaces w = true -> starts (w +:+ String b e).
Proof. intros Hb Hw. exists b, e. split; [apply skip_spaces_app; [done|by destruct Hb as [->| ->]]|by destruct Hb as [->| ->]]. Qed.
Lemma closed_head w c t : spaces w = true -> json_space c = false -> skip_ws ((w +:+ String c "") +:+ t) = String c t.
Proof. intros Hw Hc. rewrite <- str_app_assoc. by apply skip_spaces_app. Qed.

Lemma array_nil_reads d w w' : spaces w = true -> spaces w' = true -> (d < max_nesting)%nat -> reads d (w +:+ String "[" (w' +:+ "]")) (JArr []).
Proof.
  intros Hw Hw' Hd. split; [by apply bracket_starts; [left|]|]. intros m t _ _. cbn [scan_value parse_value]. rewrite bracket_head by (by left || done).
  change (Ascii.eqb "[" "[") with true. cbv iota. destruct (Nat.leb_spec max_nesting d); [lia|]. by rewrite closed_head.
Qed.
Lemma object_nil_reads d w w' : spaces w = true -> spaces w' = true -> (d < max_nesting)%nat -> reads d (w +:+ String "{" (w' +:+ "}")) (JObj []).
Proof.
  intros Hw Hw' Hd. split; [by apply bracket_starts; [right|]|]. intros m t _ _. cbn [scan_value parse_value]. rewrite bracket_head by (by right || done).
  change (Ascii.eqb "{" "[") with false. change (Ascii.eqb "{" "{") with true. cbv iota. destruct (Nat.leb_spec max_nesting d); [lia|]. by rewrite closed_head.
Qed.
Lemma array_reads d w e l : spaces w = true -> (d < max_nesting)%nat -> reads_elements (S d) e l -> reads d (w +:+ String "[" e) (JArr l).
Proof.
  intros Hw Hd [Hs He]. split; [by apply bracket_starts; [left|]|]. intros m t Hm _. cbn [scan_value parse_value]. rewrite bracket_head by (by left || done).
  change (Ascii.eqb "[" "[") with true. cbv iota. destruct (Nat.leb_spec max_nesting d); [lia|]. rewrite !(proj1 (not_close e t _ _ Hs)).
  rewrite str_length_app in Hm. cbn [String.length] in Hm. assert (String.length e <= S (String.length (e +:+ t)))%nat as Hf by (rewrite str_length_app; lia).
  destruct (He m (S (String.length (e +:+ t))) t ltac:(lia) Hf) as [-> ->]. done.
Qed.
Lemma object_reads d w e ms : spaces w = true -> (d < max_nesting)%nat -> reads_members (S d) e ms ->
  reads d (w +:+ String "{" e) (object_of (map (fun m => (fst (fst m), snd m)) ms)).
Proof.
  intros Hw Hd (Hs & He & _). split; [by apply bracket_starts; [right|]|]. intros m t Hm _. cbn [scan_value parse_value]. rewrite bracket_head by (by right || done).
  change (Ascii.eqb "{" "[") with false. change (Ascii.eqb "{" "{") with true. cbv iota. destruct (Nat.leb_spec max_nesting d); [lia|]. rewrite !(proj2 (not_close e t _ _ Hs)).
  rewrite str_length_app in Hm. cbn [String.length] in Hm. assert (String.length e <= S (String.length (e +:+ t)))%nat as Hf by (rewrite str_length_app; lia).
  destruct (He m (S (String.length (e +:+ t))) t ltac:(lia) Hf) as [-> ->]. done.
Qed.

(** An element and what stands behind it. *)
Lemma element_step d p v w c u m f : reads d p v -> spaces w = true -> byte_in c ",]}" = true -> (String.length p < m)%nat ->
  scan_elements (scan_value m) (S f) d (p +:+ w +:+ String c u) = match String c u with String ","%char s => scan_elements (scan_value m) f d s | String "]"%char s => Some s | _ => None end /\
  elements (parse_value m) (S f) (p +:+ w +:+ String c u) =
    match String c u with String ","%char s => match elements (parse_value m) f s with Some (l, r) => Some (v :: l, r) | None => None end | String "]"%char s => Some ([v], s) | _ => None end.
Proof.
  intros [_ Hr] Hw Hc Hm. destruct m as [|m]; [lia|]. destruct (Hr m (w +:+ String c u)) as [H1 H2]; [lia|by apply spaces_stop|].
  cbn [scan_elements elements]. rewrite H1, H2. assert (json_space c = false) as Hsp by (destruct c as [[] [] [] [] [] [] [] []]; done). by rewrite skip_spaces_app.
Qed.
Lemma last_reads d p v w : reads d p v -> spaces w = true -> reads_elements d (p +:+ w +:+ "]") [v].
Proof.
  intros Hr Hw. pose proof (length_pos p (proj1 Hr)) as Hl. split; [apply starts_app, Hr|]. intros m f t Hm Hf. rewrite !str_length_app in Hm, Hf. cbn [String.length] in Hm, Hf.
  destruct f as [|f]; [lia|]. rewrite <- !str_app_assoc. cbn [String.append]. destruct (element_step d p v w "]" t m f Hr Hw eq_refl ltac:(lia)) as [H1 H2]. by rewrite H1, H2.
Qed.
Lemma more_reads d p v w e l : reads d p v -> spaces w = true -> reads_elements d e l -> reads_elements d (p +:+ w +:+ String "," e) (v :: l).
Proof.
  intros Hr Hw [_ He]. pose proof (length_pos p (proj1 Hr)) as Hl. split; [apply starts_app, Hr|]. intros m f t Hm Hf. rewrite !str_length_app in Hm, Hf. cbn [String.length] in Hm, Hf.
  destruct f as [|f]; [lia|]. rewrite <- !str_app_assoc. cbn [String.append]. destruct (element_step d p v w "," (e +:+ t) m f Hr Hw eq_refl ltac:(lia)) as [-> ->].
  destruct (He m f t ltac:(lia) ltac:(lia)) as [-> ->]. done.
Qed.

(** A member and what stands behind it. *)
Definition member_text (w0 b w1 p w2 u : string) : string := w0 +:+ String dquote (b +:+ String dquote (w1 +:+ String ":" (p +:+ w2 +:+ u))).
Lemma member_text_app w0 b w1 p w2 u t : member_text w0 b w1 p w2 u +:+ t = member_text w0 b w1 p w2 (u +:+ t).
Proof. unfold member_text. repeat (rewrite <- str_app_assoc; cbn [String.append]). done. Qed.
Lemma member_text_length w0 b w1 p w2 u : (String.length p + String.length u + 3 <= String.length (member_text w0 b w1 p w2 u))%nat.
Proof. unfold member_text. repeat (rewrite str_length_app; cbn [String.length]). lia. Qed.
Lemma member_starts w0 b w1 p w2 u : spaces w0 = true -> starts (member_text w0 b w1 p w2 u).
Proof. intros Hw. eexists dquote, _. split; [by apply skip_spaces_app|done]. Qed.
Lemma decode_literal b key u : scan_string (b +:+ String dquote "") = Some "" -> unquote_literal b = Some key -> decode_scalar (String dquote (b +:+ String dquote u)) = Some (JString key, u).
Proof.
  intros Hb Hk. unfold decode_scalar. cbn [scan_scalar]. rewrite Ascii.eqb_refl. pose proof (scan_string_app _ _ u Hb) as Hs. rewrite <- str_app_assoc in Hs. cbn [String.append] in Hs. rewrite Hs.
  replace (String dquote (b +:+ String dquote u)) with (String dquote (b +:+ String dquote "") +:+ u) by (cbn [String.append]; by rewrite <- str_app_assoc). rewrite scalar_lexeme.
  rewrite Ascii.eqb_refl, str_length_app. cbn [String.length]. rewrite Nat.add_1_r. cbn [pred]. by rewrite str_take_app_length, Hk.
Qed.

Section member_step.
Variables (d : nat) (w0 b key w1 p w2 : string) (v : json) (c : ascii) (u : string) (m f : nat).
Hypotheses (Hw0 : spaces w0 = true) (Hb : scan_string (b +:+ String dquote "") = Some "") (Hk : unquote_literal b = Some key) (Hw1 : spaces w1 = true)
  (Hr : reads d p v) (Hw2 : spaces w2 = true) (Hc : byte_in c ",]}" = true).
Let s : string := member_text w0 b w1 p w2 (String c u).
Lemma member_colon x : skip_ws (w1 +:+ String ":" x) = String ":" x.
Proof. by apply skip_spaces_app. Qed.
Lemma member_scan : scan_string (b +:+ String dquote (w1 +:+ String ":" (p +:+ w2 +:+ String c u))) = Some (w1 +:+ String ":" (p +:+ w2 +:+ String c u)).
Proof. pose proof (scan_string_app _ _ (w1 +:+ String ":" (p +:+ w2 +:+ String c u)) Hb) as Hs. rewrite <- str_app_assoc in Hs. exact Hs. Qed.
Lemma member_after : skip_ws (w2 +:+ String c u) = String c u.
Proof. apply skip_spaces_app; [done|]. destruct c as [[] [] [] [] [] [] [] []]; done. Qed.

Lemma member_scans : (String.length p < m)%nat ->
  scan_members (scan_value m) (S f) d s = match String c u with String ","%char s => scan_members (scan_value m) f d s | String "}"%char s => Some s | _ => None end /\
  object_fields (parse_value m) (S f) s =
    match String c u with String ","%char s => match object_fields (parse_value m) f s with Some (fs, r) => Some ((key, v) :: fs, r) | None => None end | String "}"%char s => Some ([(key, v)], s) | _ => None end.
Proof.
  intros Hm. destruct m as [|m']; [lia|]. destruct (proj2 Hr m' (w2 +:+ String c u)) as [H1 H2]; [lia|by apply spaces_stop|].
  unfold s, member_text. cbn [scan_members object_fields]. rewrite !skip_spaces_app by done. rewrite Ascii.eqb_refl, member_scan, (decode_literal _ key) by done.
  rewrite member_colon, H1, H2. by rewrite member_after.
Qed.
Lemma member_read : (1 <= d)%nat -> members (S f) s =
  match String c u with String ","%char s => option_map (cons (key, skip_ws p)) (members f s) | String "}"%char _ => Some [(key, skip_ws p)] | _ => None end.
Proof.
  intros Hd. destruct (proj2 Hr (String.length p) (w2 +:+ String c u)) as [H1 _]; [lia|by apply spaces_stop|].
  assert (skip_ws (p +:+ w2 +:+ String c u) = skip_ws p +:+ w2 +:+ String c u) as Hp.
  { apply skip_ws_ext. destruct Hr as [(x & y & -> & _) _]. done. }
  assert (scan_value (S (String.length p)) d (skip_ws (p +:+ w2 +:+ String c u)) = Some (w2 +:+ String c u)) as H2.
  { cbn [scan_value] in *. by rewrite skip_ws_idem. }
  apply (scan_value_transfer _ (S (String.length (skip_ws (p +:+ w2 +:+ String c u)))) d 1) in H2; [|done|lia].
  unfold s, member_text. cbn [members]. rewrite !skip_spaces_app by done. rewrite (decode_literal _ key), member_colon by done. rewrite H2, Hp, scalar_lexeme. by rewrite member_after.
Qed.
End member_step.

Lemma member_last_reads d w0 b key w1 p v w2 : spaces w0 = true -> scan_string (b +:+ String dquote "") = Some "" -> unquote_literal b = Some key -> spaces w1 = true ->
  reads d p v -> spaces w2 = true -> reads_members d (member_text w0 b w1 p w2 "}") [(key, skip_ws p, v)].
Proof.
  intros Hw0 Hb Hk Hw1 Hr Hw2. split; [by apply member_starts|]. pose proof (member_text_length w0 b w1 p w2 "}") as Hl. cbn [String.length] in Hl. split.
  - intros m f t Hm Hf. rewrite member_text_app. destruct f as [|f]; [lia|]. cbn [String.append].
    destruct (member_scans d w0 b key w1 p w2 v "}" t m f Hw0 Hb Hk Hw1 Hr Hw2 eq_refl ltac:(lia)) as [H1 H2]. by rewrite H1, H2.
  - intros f t Hd Hf. rewrite member_text_app. destruct f as [|f]; [lia|]. cbn [String.append]. by rewrite (member_read d w0 b key w1 p w2 v "}" t f Hw0 Hb Hk Hw1 Hr Hw2 eq_refl Hd).
Qed.
Lemma member_more_reads d w0 b key w1 p v w2 e ms : spaces w0 = true -> scan_string (b +:+ String dquote "") = Some "" -> unquote_literal b = Some key -> spaces w1 = true ->
  reads d p v -> spaces w2 = true -> reads_members d e ms -> reads_members d (member_text w0 b w1 p w2 (String "," e)) ((key, skip_ws p, v) :: ms).
Proof.
  intros Hw0 Hb Hk Hw1 Hr Hw2 (_ & He1 & He2). split; [by apply member_starts|]. pose proof (member_text_length w0 b w1 p w2 (String "," e)) as Hl. cbn [String.length] in Hl. split.
  - intros m f t Hm Hf. rewrite member_text_app. destruct f as [|f]; [lia|]. cbn [String.append].
    destruct (member_scans d w0 b key w1 p w2 v "," (e +:+ t) m f Hw0 Hb Hk Hw1 Hr Hw2 eq_refl ltac:(lia)) as [-> ->].
    destruct (He1 m f t ltac:(lia) ltac:(lia)) as [-> ->]. done.
  - intros f t Hd Hf. rewrite member_text_app. destruct f as [|f]; [lia|]. cbn [String.append]. rewrite (member_read d w0 b key w1 p w2 v "," (e +:+ t) f Hw0 Hb Hk Hw1 Hr Hw2 eq_refl Hd).
    by rewrite He2 by (done || lia).
Qed.

Lemma grammar_reads : (forall d p v, jvalue d p v -> reads d p v) /\ (forall d e l, jelements d e l -> reads_elements d e l) /\ (forall d e ms, jmembers d e ms -> reads_members d e ms).
Proof.
  apply json_mutind; intros; [by eapply scalar_reads|by apply array_nil_reads|by apply array_reads|by apply object_nil_reads|by apply object_reads|by apply last_reads|by apply more_reads|
    by apply member_last_reads|by apply member_more_reads].
Qed.

(** *** Compaction keeps the grammar *)
Section compaction.
Variable html : bool.
#[local] Abbreviation Cc := (compact_from html false false 0).
Definition tight (k : string) : Prop := forall u, skip_ws (k +:+ u) = k +:+ u.
Definition becomes (s k : string) : Prop := forall u, Cc (s +:+ u) = k +:+ Cc u.
Lemma spaces_vanish w : spaces w = true -> becomes w "".
Proof.
  intros Hw u. induction w as [|c w IH]; [done|]. unfold spaces in Hw. cbn [str_forall] in Hw. apply andb_true_iff in Hw as [Hc Hw]. cbn [String.append].
  rewrite <- (outside_skip html (String c _)). cbn [skip_ws]. rewrite Hc, outside_skip. by apply IH.
Qed.
Lemma becomes_app s1 k1 s2 k2 : becomes s1 k1 -> becomes s2 k2 -> becomes (s1 +:+ s2) (k1 +:+ k2).
Proof. intros H1 H2 u. by rewrite <- !str_app_assoc, H1, H2. Qed.
Lemma becomes_byte c s k : copied c = true -> becomes s k -> becomes (String c s) (String c k).
Proof. intros Hc H u. cbn [String.append]. by rewrite outside_copied, H. Qed.
Lemma becomes_compact s k : becomes s k -> compact html s = k.
Proof. intros H. specialize (H ""). rewrite !str_app_nil_r in H. exact H. Qed.
Lemma becomes_skip s k : becomes s k -> compact html (skip_ws s) = k.
Proof. intros H. unfold compact. rewrite outside_skip. by apply becomes_compact in H. Qed.
Lemma becomes_spaced w s k : spaces w = true -> becomes s k -> becomes (w +:+ s) k.
Proof. intros Hw H. change k with ("" +:+ k). by apply becomes_app; [apply spaces_vanish|]. Qed.
Lemma becomes_literal b b' s k : body_compacts html b b' -> becomes s k -> becomes (String dquote (b +:+ String dquote s)) (String dquote (b' +:+ String dquote k)).
Proof.
  intros [Hb _ _ _ _] H u. cbn [String.append]. rewrite <- str_app_assoc. cbn [String.append]. rewrite outside_quote, Hb, H. by rewrite <- str_app_assoc.
Qed.

Definition compacts_value (d : nat) (p : string) (v : json) : Prop := exists k, becomes p k /\ tight k /\ jvalue d k v.
Definition compacts_elements (d : nat) (e : string) (l : list json) : Prop := exists k, becomes e k /\ tight k /\ jelements d k l.
Definition compact_triple (m : member) : member := (fst (fst m), compact html (snd (fst m)), snd m).
Definition compacts_members (d : nat) (e : string) (ms : list member) : Prop := exists k, becomes e k /\ tight k /\ jmembers d k (map compact_triple ms).

Lemma tight_cons c k : json_space c = false -> tight (String c k).
Proof. intros Hc u. cbn [String.append skip_ws]. by rewrite Hc. Qed.
Lemma tight_app k u : tight k -> k <> "" -> tight (k +:+ u).
Proof. intros H _ t. by rewrite <- str_app_assoc, H. Qed.
Lemma decode_scalar_copied c p t : decode_scalar (String c p) = Some (t, "") -> c <> dquote -> str_forall copied (String c p) = true.
Proof.
  intros H Hq. assert (scan_scalar (String c p) = Some "") as Hs.
  { unfold decode_scalar in H. destruct (scan_scalar (String c p)) as [x|]; [|done]. clear Hq. repeat case_match; by simplify_eq. }
  cbn [scan_scalar] in Hs. rewrite (proj2 (Ascii.eqb_neq _ _) Hq) in Hs.
  assert (forall l, scan_literal l (String c p) = Some "" -> String c p = l) as Hlit.
  { intros l. unfold scan_literal. destruct (has_prefix _ l) eqn:E; [|done]. intros [= Hd]. apply has_prefix_spec in E as (t' & E). rewrite E in Hd. rewrite str_drop_app_length in Hd. subst t'. by rewrite str_app_nil_r in E. }
  destruct (Ascii.eqb c "t"); [by rewrite (Hlit _ Hs)|]. destruct (Ascii.eqb c "f"); [by rewrite (Hlit _ Hs)|]. destruct (Ascii.eqb c "n"); [by rewrite (Hlit _ Hs)|].
  destruct (scan_number_split _ _ Hs) as (n & E & Hn). rewrite str_app_nil_r in E. rewrite E. by apply number_copied.
Qed.
Lemma becomes_copied s : str_forall copied s = true -> becomes s s.
Proof. intros H u. by apply outside_copied_app. Qed.

Lemma scalar_compacts d w c p t v : spaces w = true -> json_space c = false -> c <> "["%char -> c <> "{"%char -> decode_scalar (String c p) = Some (t, "") -> scalar t = Some v ->
  compacts_value d (w +:+ String c p) v.
Proof.
  intros Hw Hc H1 H2 Ht Hv. destruct (decide (c = dquote)) as [->|Hq].
  - assert (exists b key, p = b +:+ String dquote "" /\ scan_string (b +:+ String dquote "") = Some "" /\ unquote_literal b = Some key /\ t = JString key) as (b & key & -> & Hb & Hk & ->).
    { unfold decode_scalar in Ht. cbn [scan_scalar] in Ht. rewrite Ascii.eqb_refl in Ht. destruct (scan_string p) as [x|] eqn:E; [|done]. destruct (scan_string_split _ _ E) as (b & -> & Hb).
      destruct (unquote_scanned b x E) as [key Hk]. pose proof (decode_scalar_scanned _ _ E) as [k' Hk']. assert (x = "") as ->.
      { clear -Ht. cbn [String.append] in Ht. repeat case_match; by simplify_eq. }
      exists b, key. split_and!; try done. pose proof (decode_literal b key "" Hb Hk) as Hd. rewrite Hd in Hk'.
      unfold decode_scalar in Hd. cbn [scan_scalar] in Hd. rewrite Ascii.eqb_refl, E in Hd. congruence. }
    destruct (body_compacts_exists html b "" Hb) as [b' Hb']. exists (String dquote (b' +:+ String dquote "")).
    split; [apply becomes_spaced; [done|]; apply becomes_literal; [done|]; by intros u|]. split; [by apply tight_cons|].
    apply (jv_scalar d "" dquote _ (JString key)); try done. apply decode_literal; [apply Hb'|]. rewrite <- Hk. apply Hb'.
  - exists (String c p). split; [apply becomes_spaced; [done|]; by apply becomes_copied, decode_scalar_copied with t|]. split; [by apply tight_cons|]. by apply (jv_scalar d "" c p t).
Qed.
Lemma bracket_becomes b w e k : b = "["%char \/ b = "{"%char -> spaces w = true -> becomes e k -> becomes (w +:+ String b e) (String b k).
Proof. intros Hb Hw He. apply becomes_spaced; [done|]. apply becomes_byte; [by destruct Hb as [->| ->]|done]. Qed.
Lemma tight_part d k v t : jvalue d k v -> tight k -> tight (k +:+ t).
Proof. intros _ Hk u. by rewrite <- str_app_assoc, Hk. Qed.

Lemma grammar_compacts : (forall d p v, jvalue d p v -> compacts_value d p v) /\ (forall d e l, jelements d e l -> compacts_elements d e l) /\ (forall d e ms, jmembers d e ms -> compacts_members d e ms).
Proof.
  apply json_mutind.
  - intros. by eapply scalar_compacts.
  - intros d w w' Hw Hw' Hd. exists "[]". split; [|split; [done|by apply (jv_array_nil d "" "")]]. apply bracket_becomes; [by left|done|]. apply becomes_spaced; [done|]. by apply becomes_copied.
  - intros d w e l Hw Hd _ (k & Hk & Ht & Hj). exists (String "[" k). split; [by apply bracket_becomes; [left|..]|]. split; [by apply tight_cons|]. by apply (jv_array d "" k l).
  - intros d w w' Hw Hw' Hd. exists "{}". split; [|split; [done|by apply (jv_object_nil d "" "")]]. apply bracket_becomes; [by right|done|]. apply becomes_spaced; [done|]. by apply becomes_copied.
  - intros d w e ms Hw Hd _ (k & Hk & Ht & Hj). exists (String "{" k). split; [by apply bracket_becomes; [right|..]|]. split; [by apply tight_cons|].
    replace (map (fun m => (fst (fst m), snd m)) ms) with (map (fun m => (fst (fst m), snd m)) (map compact_triple ms)) by (rewrite map_map; done). by apply (jv_object d "" k).
  - intros d p v w _ (k & Hk & Ht & Hj) Hw. exists (k +:+ "" +:+ "]"). split; [|split; [by eapply tight_part|by apply je_last]].
    apply becomes_app; [done|]. apply becomes_app; [by apply spaces_vanish|by apply becomes_copied].
  - intros d p v w e l _ (k & Hk & Ht & Hj) Hw _ (k2 & Hk2 & _ & Hj2). exists (k +:+ "" +:+ String "," k2). split; [|split; [by eapply tight_part|by apply je_more]].
    apply becomes_app; [done|]. apply becomes_app; [by apply spaces_vanish|by apply becomes_byte].
  - intros d w0 b key w1 p v w2 Hw0 Hb Hkey Hw1 _ (k & Hk & Ht & Hj) Hw2. destruct (body_compacts_exists html b "" Hb) as [b' Hb'].
    exists ("" +:+ String dquote (b' +:+ String dquote ("" +:+ String ":" (k +:+ "" +:+ "}")))). split; [|split; [by apply tight_cons|]].
    + apply becomes_app; [by apply spaces_vanish|]. apply becomes_literal; [done|]. apply becomes_app; [by apply spaces_vanish|]. apply becomes_byte; [done|].
      apply becomes_app; [done|]. apply becomes_app; [by apply spaces_vanish|by apply becomes_copied].
    + unfold compact_triple. cbn [map fst snd]. rewrite (becomes_skip p k Hk). replace k with (skip_ws k) at 2 by (specialize (Ht ""); by rewrite str_app_nil_r in Ht).
      apply (jm_last d "" b' key "" k v ""); try done; [apply Hb'|by rewrite (bc_unquote _ _ _ Hb')].
  - intros d w0 b key w1 p v w2 e ms Hw0 Hb Hkey Hw1 _ (k & Hk & Ht & Hj) Hw2 _ (k2 & Hk2 & _ & Hj2). destruct (body_compacts_exists html b "" Hb) as [b' Hb'].
    exists ("" +:+ String dquote (b' +:+ String dquote ("" +:+ String ":" (k +:+ "" +:+ String "," k2)))). split; [|split; [by apply tight_cons|]].
    + apply becomes_app; [by apply spaces_vanish|]. apply becomes_literal; [done|]. apply becomes_app; [by apply spaces_vanish|]. apply becomes_byte; [done|].
      apply becomes_app; [done|]. apply becomes_app; [by apply spaces_vanish|by apply becomes_byte].
    + unfold compact_triple at 1. cbn [map fst snd]. rewrite (becomes_skip p k Hk). replace k with (skip_ws k) at 2 by (specialize (Ht ""); by rewrite str_app_nil_r in Ht).
      apply (jm_more d "" b' key "" k v "" k2); try done; [apply Hb'|by rewrite (bc_unquote _ _ _ Hb')].
Qed.
End compaction.

(** ** The decoders agree, and compaction changes no meaning *)
Lemma spaces_stops w : spaces w = true -> stops w = true /\ skip_ws w = "".
Proof.
  intros Hw. split; [destruct w as [|c w]; [done|]; unfold spaces in Hw; cbn [str_forall] in Hw; apply andb_true_iff in Hw as [Hc _]; unfold stops; by rewrite Hc|].
  induction w as [|c w IH]; [done|]. unfold spaces in Hw. cbn [str_forall] in Hw. apply andb_true_iff in Hw as [Hc Hw]. cbn [skip_ws]. rewrite Hc. by apply IH.
Qed.
Lemma skip_empty w : skip_ws w = "" -> spaces w = true.
Proof. intros H. destruct (skip_spaces w) as (w' & Hw & E). rewrite H, str_app_nil_r in E. by subst. Qed.
Lemma valid_grammar s : json_valid s = true -> exists p w v, s = p +:+ w /\ spaces w = true /\ jvalue 0 p v.
Proof.
  unfold json_valid. destruct (scan_value _ 0 s) as [r|] eqn:E; [|done]. intros Hr%String.eqb_eq%skip_empty. destruct (value_scanned _ _ _ _ E) as (p & v & -> & Hv). by exists p, r, v.
Qed.
Lemma grammar_decoded d p w v : jvalue d p v -> spaces w = true -> json_valid (p +:+ w) = true /\ decodeJSONValue (p +:+ w) = Some v.
Proof.
  intros Hv [Hs Hw]%spaces_stops. destruct (proj1 grammar_reads _ _ _ Hv) as [_ Hr]. destruct (Hr (String.length (p +:+ w)) w) as [H1 H2]; [rewrite str_length_app; lia|done|].
  apply (scan_value_transfer _ (S (String.length (p +:+ w))) d 0) in H1; [|lia|lia].
  assert (json_valid (p +:+ w) = true) as Hval by (unfold json_valid; by rewrite H1, Hw). split; [done|]. unfold decodeJSONValue. by rewrite Hval, H2.
Qed.
Lemma value_decoded d p v : jvalue d p v -> decodeJSONValue p = Some v.
Proof. intros Hv. destruct (grammar_decoded d p "" v Hv eq_refl) as [_ H]. by rewrite str_app_nil_r in H. Qed.

Lemma compact_value html d p v : jvalue d p v -> jvalue d (compact html p) v.
Proof. intros Hv. destruct (proj1 (grammar_compacts html) _ _ _ Hv) as (k & Hk & _ & Hj). by rewrite (becomes_compact html _ _ Hk). Qed.
Lemma compact_trailing html p w : spaces w = true -> forall d v, jvalue d p v -> compact html (p +:+ w) = compact html p.
Proof.
  intros Hw d v Hv. destruct (proj1 (grammar_compacts html) _ _ _ Hv) as (k & Hk & _). rewrite (becomes_compact html _ _ Hk). unfold compact. rewrite Hk.
  pose proof (spaces_vanish html w Hw "") as H. rewrite str_app_nil_r in H. by rewrite H, str_app_nil_r.
Qed.

(** Every valid text is decoded, and compacted it is valid and decodes to the same value. *)
Lemma compact_decoded html s : json_valid s = true -> json_valid (compact html s) = true /\ is_Some (decodeJSONValue s) /\ decodeJSONValue (compact html s) = decodeJSONValue s.
Proof.
  intros Hs. destruct (valid_grammar s Hs) as (p & w & v & -> & Hw & Hv). rewrite (compact_trailing html p w Hw 0 v Hv). destruct (grammar_decoded 0 p w v Hv Hw) as [_ ->].
  pose proof (compact_value html 0 p v Hv) as Hc. destruct (grammar_decoded 0 (compact html p) "" v Hc eq_refl) as [H1 H2]. rewrite str_app_nil_r in H1, H2. by rewrite H1, H2.
Qed.

(** The members of an object, as texts and as values. *)
Definition val (raw : string) : json := default JNull (decodeJSONValue raw).
Lemma value_skip d p v : jvalue d p v -> jvalue d (skip_ws p) v.
Proof.
  destruct 1; rewrite skip_spaces_app by done; [by eapply (jv_scalar d "" c)|by apply (jv_array_nil d "")|by apply (jv_array d "")|by apply (jv_object_nil d "")|by apply (jv_object d "")].
Qed.
Lemma members_values d e ms : jmembers d e ms -> Forall (fun m => jvalue d (snd (fst m)) (snd m)) ms.
Proof. induction 1; constructor; try done; by apply value_skip. Qed.
Lemma members_val d e ms : jmembers d e ms -> map (fun m => (fst (fst m), snd m)) ms = map (fun kv => (fst kv, val (snd kv))) (map fst ms).
Proof.
  intros H%members_values. rewrite map_map. apply map_ext_in. intros m Hin. apply list_elem_of_In in Hin. rewrite Forall_forall in H. apply H, value_decoded in Hin. unfold val. by rewrite Hin.
Qed.
Lemma map_of_fmap {A} (f : string -> A) (ms : list (string * string)) :
  foldl (fun m kv => <[fst kv := snd kv]> m) (∅ : gmap string A) (map (fun kv => (fst kv, f (snd kv))) ms) = f <$> map_of ms.
Proof.
  unfold map_of. rewrite <- (fmap_empty f) at 1. generalize (∅ : gmap string string). induction ms as [|[k x] ms IH]; intros m; [done|]. cbn [map foldl fst snd]. by rewrite <- fmap_insert, IH.
Qed.
Definition object_value (m : gmap string string) : json := JObj (sorted_members (map_to_list (val <$> m))).

(** The text of an object and its members. *)
Inductive jobject : string -> list member -> Prop :=
| jo_nil w w' : spaces w = true -> spaces w' = true -> jobject (w +:+ String "{" (w' +:+ "}")) []
| jo_members w e ms : spaces w = true -> jmembers 1 e ms -> jobject (w +:+ String "{" e) ms.
Lemma jobject_value p ms : jobject p ms -> jvalue 0 p (object_of (map (fun m => (fst (fst m), snd m)) ms)).
Proof.
  assert (0 < max_nesting)%nat by (apply nesting_two; lia). destruct 1; [|by apply jv_object]. change (object_of _) with (JObj []). by apply jv_object_nil.
Qed.
Lemma jobject_members p ms t : jobject p ms -> object_members (p +:+ t) = map fst ms /\ exists u, skip_ws (p +:+ t) = String "{" u.
Proof.
  destruct 1 as [w w' Hw Hw'|w e ms Hw Hms]; (split; [|eexists; apply bracket_head; by right || done]); unfold object_members; rewrite bracket_head by (by right || done).
  - by rewrite closed_head.
  - destruct (proj2 (proj2 grammar_reads) _ _ _ Hms) as (Hs & _ & Hr). rewrite (proj2 (not_close e t _ _ Hs)). by rewrite Hr by (lia || (rewrite str_length_app; lia)).
Qed.
Lemma jobject_compact html p ms : jobject p ms -> jobject (compact html p) (map (compact_triple html) ms).
Proof.
  destruct 1 as [w w' Hw Hw'|w e ms Hw Hms].
  - rewrite (becomes_compact html _ "{}"); [by apply (jo_nil "" "")|]. apply bracket_becomes; [by right|done|]. apply becomes_spaced; [done|]. by apply becomes_copied.
  - destruct (proj2 (proj2 (grammar_compacts html)) _ _ _ Hms) as (k & Hk & _ & Hj). rewrite (becomes_compact html _ (String "{" k)); [by apply (jo_members "")|]. by apply bracket_becomes; [right|..].
Qed.
Lemma jobject_unmarshal p ms w : jobject p ms -> spaces w = true -> unmarshal_map (p +:+ w) = Some (Some (map_of (map fst ms))).
Proof.
  intros Ho Hw. destruct (grammar_decoded 0 p w _ (jobject_value p ms Ho) Hw) as [Hv _]. destruct (jobject_members p ms w Ho) as [Hm [u Hu]].
  unfold unmarshal_map, shape_of. by rewrite Hv, Hu, Hm.
Qed.
Lemma unmarshal_object raw m : unmarshal_map raw = Some (Some m) -> exists p w ms, raw = p +:+ w /\ spaces w = true /\ jobject p ms /\ m = map_of (map fst ms).
Proof.
  intros H. pose proof H as H0. unfold unmarshal_map, shape_of in H. destruct (json_valid raw) eqn:Hs; [|done]. destruct (valid_grammar raw Hs) as (p & w & v & -> & Hw & Hv). remember 0%nat as d0 eqn:Ed in Hv.
  assert (exists u, skip_ws (p +:+ w) = String "{" u) as [u Hu] by (repeat case_match; try done; by eexists).
  assert (exists ms, jobject p ms) as [ms Ho].
  { destruct Hv as [d w1 c q t x Hw1 Hc H1 H2|d w1 w2 Hw1|d w1 e l Hw1|d w1 w2 Hw1 Hw2|d w1 e ms Hw1 Hd Hms].
    - rewrite <- str_app_assoc in Hu. cbn [String.append] in Hu. rewrite skip_spaces_app in Hu by done. by injection Hu as -> _.
    - rewrite bracket_head in Hu by (by left || done). done.
    - rewrite bracket_head in Hu by (by left || done). done.
    - eexists. by apply jo_nil.
    - exists ms. subst d. by apply jo_members. }
  exists p, w, ms. split_and!; try done. rewrite (jobject_unmarshal p ms w Ho Hw) in H0. by injection H0 as <-.
Qed.
(** An object decodes to the values of its members. *)
Lemma decode_object raw m : unmarshal_map raw = Some (Some m) -> decodeJSONValue raw = Some (object_value m).
Proof.
  intros (p & w & ms & -> & Hw & Ho & ->)%unmarshal_object. destruct (grammar_decoded 0 p w _ (jobject_value p ms Ho) Hw) as [_ ->]. f_equal. unfold object_of, object_value.
  destruct Ho as [|w1 e ms Hw1 Hms]; [done|]. by rewrite (members_val _ _ _ Hms), map_of_fmap.
Qed.
Lemma unmarshal_compact html raw m : unmarshal_map raw = Some (Some m) -> unmarshal_map (compact html raw) = Some (Some (compact html <$> m)).
Proof.
  intros (p & w & ms & -> & Hw & Ho & ->)%unmarshal_object. rewrite (compact_trailing html p w Hw 0 _ (jobject_value p ms Ho)).
  pose proof (jobject_unmarshal _ _ "" (jobject_compact html p ms Ho) eq_refl) as H. rewrite str_app_nil_r in H. rewrite H. do 2 f_equal. rewrite <- (map_of_fmap (compact html)), !map_map. done.
Qed.
Lemma val_compact html raw : json_valid raw = true -> val (compact html raw) = val raw.
Proof. intros H. unfold val. by destruct (compact_decoded html raw H) as (_ & _ & ->). Qed.
Lemma object_value_compact html m : part_map 1 m -> object_value (compact html <$> m) = object_value m.
Proof.
  intros Hm. unfold object_value. rewrite <- map_fmap_compose. do 3 f_equal. apply map_fmap_ext. intros k x Hx. apply val_compact, part_valid. destruct (Hm k x Hx) as [_ Hp]. by apply (part_shallower 1); [lia|].
Qed.


