(* ===== verification/RequestMeta.v ===== *)
(** * Requests between protocol versions (src/internal/transport/request_meta.go, result_type.go,
      version.go, tool_call_mrtr.go, src/internal/server/protocol_version.go)

    A modern request carries its protocol version in the [_meta] of its parameters.  mini adds
    what is missing there before it forwards a request, checks what agents send, and strips it
    again for legacy servers.  [Version] is mini's build version. *)
From S2P Require Import Prelude GoStr Utf8 Config GoStd Content JsonText JsonToken JsonTokenProps JsonObject JsonCompact JsonParts JsonMeaning.

(** ** Versions (version.go) *)
Definition LatestLegacyVersion : string := "2025-11-25".
Definition LegacyVersions : list string := [LatestLegacyVersion; "2025-06-18"; "2025-03-26"; "2024-11-05"].
Definition ModernVersions : list string := ["2026-07-28"].
Definition IsLegacyVersion (v : string) : bool := existsb (String.eqb v) LegacyVersions.
Definition IsModernVersion (v : string) : bool := existsb (String.eqb v) ModernVersions.
Definition SupportedVersions : list string := ModernVersions ++ LegacyVersions.

(** ** The metadata (request_meta.go) *)
Definition protocolVersionMeta : string := "io.modelcontextprotocol/protocolVersion".
Definition clientInfoMeta : string := "io.modelcontextprotocol/clientInfo".
Definition clientCapabilitiesMeta : string := "io.modelcontextprotocol/clientCapabilities".

Record ClientInfo : Type := { Name : string; ci_Version : string }.
Record ClientCapabilities : Type := { Elicitation : string (* raw; no bytes: absent *) }.
Record RequestMeta : Type := {
  ProtocolVersion : string;
  rm_ClientInfo : option ClientInfo;
  rm_ClientCapabilities : option ClientCapabilities
}.
Definition no_meta : RequestMeta := {| ProtocolVersion := ""; rm_ClientInfo := None; rm_ClientCapabilities := None |}.

Inductive meta_error : Type :=
| ParamsNotObject | ParamsInvalidJSON | MetaNotObject | VersionNotString | CapabilitiesNotObject
| ResultNotObject | ResultMetaNotObject | NonStandardResponse | UnknownResultType.

(** [json.Marshal] of the structs. *)
Definition clientInfo_text (c : ClientInfo) : string :=
  marshal_members true [("name", json_string true (Name c)); ("version", json_string true (ci_Version c))].
Definition omit_empty (name raw : string) : list (string * string) := if String.eqb raw "" then [] else [(name, raw)].
Definition clientCapabilities_text (c : ClientCapabilities) : string := marshal_members true (omit_empty "elicitation" (Elicitation c)).
Definition requestMeta_text (m : RequestMeta) : string :=
  marshal_members true
    ((if String.eqb (ProtocolVersion m) "" then [] else [(protocolVersionMeta, json_string true (ProtocolVersion m))]) ++
     match rm_ClientInfo m with Some c => [(clientInfoMeta, clientInfo_text c)] | None => [] end ++
     match rm_ClientCapabilities m with Some c => [(clientCapabilitiesMeta, clientCapabilities_text c)] | None => [] end).

(** [json.Unmarshal] into them: a value goes into what is there, [null] sets a pointer to nil. *)
Definition into_pointer {A} (dec : A -> string -> option A) (zero : A) (old : option A) (raw : string) : option (option A) :=
  if String.eqb raw "null" then Some None else option_map Some (dec (default zero old) raw).
Definition into_clientInfo (old : ClientInfo) (raw : string) : option ClientInfo :=
  match struct_members raw with
  | None => None
  | Some ms =>
      match typed_field unmarshal_string (Name old) "name" ms, typed_field unmarshal_string (ci_Version old) "version" ms with
      | Some n, Some v => Some {| Name := n; ci_Version := v |}
      | _, _ => None
      end
  end.
Definition into_raw (_ raw : string) : option string := Some raw.
Definition into_capabilities (old : ClientCapabilities) (raw : string) : option ClientCapabilities :=
  match struct_members raw with
  | None => None
  | Some ms => option_map (fun e => {| Elicitation := e |}) (typed_field into_raw (Elicitation old) "elicitation" ms)
  end.
Definition into_meta (old : RequestMeta) (raw : string) : option RequestMeta :=
  match struct_members raw with
  | None => None
  | Some ms =>
      match typed_field unmarshal_string (ProtocolVersion old) protocolVersionMeta ms,
            typed_field (into_pointer into_clientInfo {| Name := ""; ci_Version := "" |}) (rm_ClientInfo old) clientInfoMeta ms,
            typed_field (into_pointer into_capabilities {| Elicitation := "" |}) (rm_ClientCapabilities old) clientCapabilitiesMeta ms with
      | Some v, Some i, Some c => Some {| ProtocolVersion := v; rm_ClientInfo := i; rm_ClientCapabilities := c |}
      | _, _, _ => None
      end
  end.

Definition ProtocolVersionFromParams (params : string) : string :=
  match struct_members params with
  | Some ms => match typed_field into_meta no_meta "_meta" ms with Some m => ProtocolVersion m | None => "" end
  | None => ""
  end.

Definition decodeObjectParams (params : string) : res meta_error (gmap string string) :=
  if String.eqb params "" || String.eqb (TrimSpace params) "null" then Ok ∅
  else match unmarshal_map params with Some (Some fields) => Ok fields | _ => Err ParamsNotObject end.

(** The raw values mini puts in: the encoded defaults, decoded member by member. *)
Definition default_meta (Version modernVersion : string) : gmap string string :=
  default ∅ (default None (unmarshal_map (requestMeta_text
    {| ProtocolVersion := modernVersion; rm_ClientInfo := Some {| Name := "mini"; ci_Version := Version |};
       rm_ClientCapabilities := Some {| Elicitation := "" |} |}))).
Definition addDefaultMeta (Version modernVersion : string) (meta : gmap string string) : gmap string string := meta ∪ default_meta Version modernVersion.

Definition decode_meta (fields : gmap string string) : res meta_error (gmap string string) :=
  match fields !! "_meta" with
  | None => Ok ∅
  | Some raw => match unmarshal_map raw with Some (Some meta) => Ok meta | _ => Err MetaNotObject end
  end.
Definition prepareModernParams (Version params modernVersion : string) : res meta_error string :=
  let* fields := decodeObjectParams params in
  let* meta := decode_meta fields in
  Ok (marshal_map true (<["_meta" := marshal_map true (addDefaultMeta Version modernVersion meta)]> fields)).

(** The nil map of absent parameters is the empty one. *)
Definition decodeRequestParams (params : string) : res meta_error (gmap string string) :=
  let t := TrimSpace params in
  if String.eqb t "" || String.eqb t "null" then Ok ∅
  else if negb (has_prefix t "{") then Ok ∅
  else match unmarshal_map params with
       | None => Err ParamsInvalidJSON
       | Some fields => Ok (default ∅ fields)
       end.
Definition decodeRequestMeta (raw : string) : res meta_error (gmap string string) :=
  match unmarshal_map raw with Some (Some meta) => Ok meta | _ => Err MetaNotObject end.

Definition hasKey (m : gmap string string) (k : string) : bool := match m !! k with Some _ => true | None => false end.
Definition hasModernRequestIntent (meta : gmap string string) : bool :=
  hasKey meta protocolVersionMeta || hasKey meta clientInfoMeta || hasKey meta clientCapabilitiesMeta.
Definition validateProtocolVersion (raw : string) : res meta_error unit :=
  match decode_string raw with
  | Some v => if String.eqb raw "" || String.eqb v "" then Err VersionNotString else Ok tt
  | None => Err VersionNotString
  end.
Definition validateClientCapabilities (raw : string) : res meta_error unit :=
  match unmarshal_map raw with
  | Some (Some _) => if String.eqb raw "" then Err CapabilitiesNotObject else Ok tt
  | _ => Err CapabilitiesNotObject
  end.

Definition ValidateModernRequestMeta (params : string) : res meta_error unit :=
  let* fields := decodeRequestParams params in
  match fields !! "_meta" with
  | None => Ok tt
  | Some raw =>
      let* meta := decodeRequestMeta raw in
      if negb (hasModernRequestIntent meta) then Ok tt
      else
        let* _ := validateProtocolVersion (default "" (meta !! protocolVersionMeta)) in
        validateClientCapabilities (default "" (meta !! clientCapabilitiesMeta))
  end.
Definition HasModernRequestIntent (params : string) : bool :=
  match decodeRequestParams params with
  | Err _ => false
  | Ok fields =>
      match fields !! "_meta" with
      | None => false
      | Some raw => match decodeRequestMeta raw with Err _ => true | Ok meta => hasModernRequestIntent meta end
      end
  end.

(** ** Result types (result_type.go) *)
Inductive ResultType : Type := ResultComplete | ResultInputRequired.
Definition ResultTypeOf (raw : string) : res meta_error ResultType :=
  match struct_members raw with
  | None => Err NonStandardResponse
  | Some ms =>
      let r := raw_field "resultType" ms in
      if String.eqb r "" then Ok ResultComplete
      else match decode_scalar (skip_ws r) with
           | Some (JString s, _) =>
               if String.eqb s "complete" then Ok ResultComplete
               else if String.eqb s "input_required" then Ok ResultInputRequired
               else Err UnknownResultType
           | _ => Err UnknownResultType
           end
  end.

(** ** Results for modern agents (protocol_version.go) *)
Definition modernRequestVersion (line : string) : string :=
  match struct_members line with Some ms => ProtocolVersionFromParams (raw_field "params" ms) | None => "" end.
(** The version to report as unsupported. *)
Definition modernVersionError (params : string) : option string :=
  let version := ProtocolVersionFromParams params in
  if String.eqb version "" || IsModernVersion version then None else Some version.

Definition addMissingField (key value : string) (fields : gmap string string) : gmap string string :=
  match fields !! key with Some _ => fields | None => <[key := value]> fields end.
Definition addMiniServerIdentity (Version : string) (fields : gmap string string) : res meta_error (gmap string string) :=
  let* meta :=
    match fields !! "_meta" with
    | None => Ok ∅
    | Some raw =>
        if String.eqb (TrimSpace raw) "null" then Ok ∅
        else match unmarshal_map raw with Some (Some meta) => Ok meta | _ => Err ResultMetaNotObject end
    end in
  let identity := clientInfo_text {| Name := "mini"; ci_Version := Version |} in (* [ServerInfo] has the same members *)
  Ok (<["_meta" := marshal_map true (addMissingField "io.modelcontextprotocol/serverInfo" identity meta)]> fields).

Definition modern_fields (Version method : string) (fields : gmap string string) : res meta_error (gmap string string) :=
  let fields := addMissingField "resultType" (json_string true "complete") fields in
  let fields := if String.eqb method "tools/list" then addMissingField "cacheScope" (json_string true "private") (addMissingField "ttlMs" "0" fields) else fields in
  addMiniServerIdentity Version fields.
(** [raw] is the result as [json.Marshal] writes it; what is returned is written next. *)
Definition addModernResultFields (Version method raw : string) : res meta_error string :=
  match unmarshal_map raw with
  | Some (Some fields) =>
      if hasKey fields "resultType" && negb (String.eqb method "tools/list") then Ok raw
      else let* fields := modern_fields Version method fields in Ok (marshal_map true fields)
  | _ => Err ResultNotObject
  end.

(** ** Calls that need input (tool_call_mrtr.go) *)
Definition deleteKeys (keys : list string) (fields : gmap string string) : gmap string string * bool :=
  foldl (fun s key => match fst s !! key with Some _ => (delete key (fst s), true) | None => s end) (fields, false) keys.
Definition deleteMetaKey (key : string) (fields : gmap string string) : gmap string string * bool :=
  match unmarshal_map (default "" (fields !! "_meta")) with
  | Some (Some meta) =>
      let (meta', removed) := deleteKeys [key] meta in
      if negb removed then (fields, false)
      else if decide (meta' = ∅) then (delete "_meta" fields, true)
      else (<["_meta" := marshal_map true meta']> fields, true)
  | _ => (fields, false)
  end.
Definition stripModernToolCallFields (params : string) : string :=
  match unmarshal_map params with
  | Some (Some fields) =>
      let (fields1, removedMeta) := deleteMetaKey clientCapabilitiesMeta fields in
      let (fields2, removedFields) := deleteKeys ["inputResponses"; "requestState"] fields1 in
      if negb removedMeta && negb removedFields then params else marshal_map true fields2
  | _ => params (* not an object; [null] has nothing to remove *)
  end.

(** ** What is prepared *)
Lemma named_self field v : named field (field, v) = true.
Proof. unfold named. cbn [fst]. by rewrite String.eqb_refl. Qed.

Section defaults.
Variables (Version v : string).
Hypotheses (HV : valid_utf8 Version = true) (Hv : valid_utf8 v = true).
Definition default_members : list (string * string) :=
  (if String.eqb v "" then [] else [(protocolVersionMeta, json_string true v)]) ++
  [(clientInfoMeta, clientInfo_text {| Name := "mini"; ci_Version := Version |}); (clientCapabilitiesMeta, "{}")].

Lemma clientInfo_members d : Forall (part_member d) [("name", json_string true "mini"); ("version", json_string true Version)].
Proof. repeat constructor; by apply string_part_any. Qed.
Lemma clientInfo_compact : compact true (clientInfo_text {| Name := "mini"; ci_Version := Version |}) = clientInfo_text {| Name := "mini"; ci_Version := Version |}.
Proof. apply (marshal_compact true 1), clientInfo_members. Qed.
Lemma clientInfo_part : json_part 2 (clientInfo_text {| Name := "mini"; ci_Version := Version |}).
Proof. apply marshal_part; [apply Nat.ltb_lt; reflexivity|apply clientInfo_members]. Qed.
Lemma default_members_part : Forall (part_member 2) default_members.
Proof.
  unfold default_members. apply Forall_app. split.
  - destruct (String.eqb v ""); repeat constructor; by apply string_part_any.
  - constructor; [|constructor; [|constructor]]; (split; [reflexivity|]); [apply clientInfo_part|]. exists 1%nat. reflexivity.
Qed.
Lemma requestMeta_text_members : requestMeta_text {| ProtocolVersion := v; rm_ClientInfo := Some {| Name := "mini"; ci_Version := Version |}; rm_ClientCapabilities := Some {| Elicitation := "" |} |} =
  marshal_members true default_members.
Proof. reflexivity. Qed.
Lemma default_meta_eq : default_meta Version v = map_of default_members.
Proof.
  unfold default_meta. rewrite requestMeta_text_members. rewrite unmarshal_members.
  - cbn [default id]. f_equal. unfold default_members. rewrite map_app. cbn [map]. unfold compact_member at 2 3. cbn [fst snd]. rewrite clientInfo_compact. f_equal.
    destruct (String.eqb v ""); [done|]. cbn [map]. unfold compact_member. cbn [fst snd]. by rewrite string_compacted.
  - eapply Forall_impl; [apply default_members_part|]. intros m. apply part_member_shallower. lia.
Qed.
Lemma default_meta_part : part_map 2 (default_meta Version v).
Proof. rewrite default_meta_eq. apply map_of_forall, default_members_part. Qed.
Lemma default_version : v <> "" -> default_meta Version v !! protocolVersionMeta = Some (json_string true v).
Proof. intros Hne. rewrite default_meta_eq. unfold default_members. by rewrite (proj2 (String.eqb_neq _ _) Hne). Qed.
Lemma default_info : default_meta Version v !! clientInfoMeta = Some (clientInfo_text {| Name := "mini"; ci_Version := Version |}).
Proof. rewrite default_meta_eq. unfold default_members. by destruct (String.eqb v ""). Qed.
Lemma default_capabilities : default_meta Version v !! clientCapabilitiesMeta = Some "{}".
Proof. rewrite default_meta_eq. unfold default_members. by destruct (String.eqb v ""). Qed.
Lemma default_keys k x : default_meta Version v !! k = Some x -> k ∈ [protocolVersionMeta; clientInfoMeta; clientCapabilitiesMeta].
Proof.
  rewrite default_meta_eq. unfold default_members, map_of. intros H. destruct (String.eqb v ""); cbn [app foldl fst snd] in H;
    repeat (rewrite lookup_insert in H; case_decide; [subst; set_solver|]); by rewrite lookup_empty in H.
Qed.
End defaults.

Lemma decode_params_parts params fields : decodeObjectParams params = Ok fields -> part_map 1 fields.
Proof.
  unfold decodeObjectParams. destruct (_ || _); [intros [= <-]; apply map_Forall_empty|]. destruct (unmarshal_map params) as [[m|]|] eqn:E; try done. intros [= <-]. by apply unmarshal_map_parts in E.
Qed.
Lemma decode_meta_parts fields meta : part_map 1 fields -> decode_meta fields = Ok meta -> part_map 2 meta.
Proof.
  unfold decode_meta. intros Hf. destruct (fields !! "_meta") as [raw|] eqn:E; [|intros [= <-]; apply map_Forall_empty].
  destruct (unmarshal_map raw) as [[m|]|] eqn:Em; try done. intros [= <-]. apply Hf in E as [_ E]. by apply (unmarshal_part_parts 1 raw).
Qed.
Lemma part_map_union d (m1 m2 : gmap string string) : part_map d m1 -> part_map d m2 -> part_map d (m1 ∪ m2).
Proof. intros H1 H2 k x. rewrite lookup_union_Some_raw. intros [H|[_ H]]; [by apply H1|by apply H2]. Qed.
Lemma part_map_insert d m k x : part_map d m -> part_member d (k, x) -> part_map d (<[k := x]> m).
Proof. intros Hm Hx. by apply map_Forall_insert_2. Qed.
Lemma map_member d m : (S d < max_nesting)%nat -> part_map (S (S d)) m -> part_member (S d) ("_meta", marshal_map true m).
Proof. intros Hd Hm. split; [done|]. by apply marshal_map_part. Qed.

Section read_back.
Variables (Version v : string).
Hypotheses (HV : valid_utf8 Version = true) (Hv : valid_utf8 v = true) (Hne : v <> "").
Let info : string := clientInfo_text {| Name := "mini"; ci_Version := Version |}.

Lemma info_read : into_pointer into_clientInfo {| Name := ""; ci_Version := "" |} None info = Some (Some {| Name := "mini"; ci_Version := Version |}).
Proof.
  unfold into_pointer. change (String.eqb info "null") with false. cbv iota. cbn [default]. unfold into_clientInfo, info, clientInfo_text. cbn [Name ci_Version].
  rewrite struct_marshal_members by (apply clientInfo_members; done). cbn [map]. unfold compact_member. cbn [fst snd]. rewrite !string_compacted by done.
  unfold typed_field. cbn [foldl]. change (named "name" ("name", ?x)) with true. change (named "name" ("version", ?x)) with false. change (named "version" ("version", ?x)) with true. change (named "version" ("name", ?x)) with false.
  cbv iota. cbn [snd]. unfold unmarshal_string. rewrite <- (str_app_nil_r (json_string true Version)), <- (str_app_nil_r (json_string true "mini")). 
  change (skip_ws (json_string true ?s +:+ "")) with (json_string true s +:+ ""). by rewrite !decode_scalar_string.
Qed.
Lemma caps_read : into_pointer into_capabilities {| Elicitation := "" |} None "{}" = Some (Some {| Elicitation := "" |}).
Proof. vm_compute. reflexivity. Qed.
Lemma version_read old : unmarshal_string old (json_string true v) = Some v.
Proof.
  unfold unmarshal_string. rewrite <- (str_app_nil_r (json_string true v)). change (skip_ws (json_string true v +:+ "")) with (json_string true v +:+ ""). by rewrite decode_scalar_string.
Qed.

(** The metadata a decoder finds when the caller named none of the three fields. *)
Lemma meta_read meta : part_map 2 meta -> clear_of protocolVersionMeta meta -> clear_of clientInfoMeta meta -> clear_of clientCapabilitiesMeta meta ->
  into_meta no_meta (marshal_map true (addDefaultMeta Version v meta)) =
    Some {| ProtocolVersion := v; rm_ClientInfo := Some {| Name := "mini"; ci_Version := Version |}; rm_ClientCapabilities := Some {| Elicitation := "" |} |}.
Proof.
  intros Hm H1 H2 H3. unfold into_meta, addDefaultMeta. set (m := meta ∪ default_meta Version v).
  assert (part_map 1 m) as Hp.
  { intros k x Hx. apply (part_member_shallower 2); [lia|]. revert k x Hx. apply part_map_union; [done|by apply default_meta_part]. }
  rewrite struct_marshal_map by done.
  assert (forall f x, meta !! f = None -> default_meta Version v !! f = Some x -> m !! f = Some x) as Hl.
  { intros f x Hn Hd. apply lookup_union_Some_raw. by right. }
  assert (forall f, clear_of f meta -> f ∈ [protocolVersionMeta; clientInfoMeta; clientCapabilitiesMeta] -> clear_of f (delete f m)) as Hclear.
  { intros f Hf Hin k x. rewrite lookup_delete_Some. intros [Hk Hx]. apply lookup_union_Some_raw in Hx as [Hx|[_ Hx]]; [by apply (Hf k)|]. apply default_keys in Hx; [|done|done].
    rewrite !elem_of_cons, elem_of_nil in Hin, Hx. destruct Hin as [->|[->|[->|[]]]], Hx as [->|[->|[->|[]]]]; try done. }
  rewrite (map_field_one unmarshal_string _ protocolVersionMeta true m (json_string true v)) by (done || (apply Hl; [by apply clear_of_lookup|by apply default_version]) || (apply Hclear; [done|set_solver])).
  rewrite (map_field_one _ _ clientInfoMeta true m info) by (done || (apply Hl; [by apply clear_of_lookup|by apply default_info]) || (apply Hclear; [done|set_solver])).
  rewrite (map_field_one _ _ clientCapabilitiesMeta true m "{}") by (done || (apply Hl; [by apply clear_of_lookup|by apply default_capabilities]) || (apply Hclear; [done|set_solver])).
  rewrite string_compacted by done. rewrite version_read. unfold info. rewrite clientInfo_compact by done. cbn [rm_ClientInfo rm_ClientCapabilities no_meta].
  fold info. rewrite info_read. change (compact true "{}") with "{}". by rewrite caps_read.
Qed.

(** The decoded form of what is prepared. *)
Lemma prepared_read params p : prepareModernParams Version params v = Ok p -> exists fields meta, decodeObjectParams params = Ok fields /\ decode_meta fields = Ok meta /\
  part_map 1 fields /\ part_map 2 meta /\ p = marshal_map true (<["_meta" := marshal_map true (addDefaultMeta Version v meta)]> fields) /\
  part_map 2 (addDefaultMeta Version v meta) /\ part_map 1 (<["_meta" := marshal_map true (addDefaultMeta Version v meta)]> fields).
Proof.
  unfold prepareModernParams. intros H. inv_ok H. inv_ok H. rename v0 into fields, v1 into meta. exists fields, meta. injection H as <-.
  pose proof (decode_params_parts _ _ E) as Hf. pose proof (decode_meta_parts _ _ Hf E0) as Hm.
  assert (part_map 2 (addDefaultMeta Version v meta)) as Ha by (apply part_map_union; [done|by apply default_meta_part]).
  split_and!; try done. apply part_map_insert; [done|]. apply map_member; [apply Nat.ltb_lt; reflexivity|done].
Qed.
End read_back.

Lemma marshal_trim m : TrimSpace (marshal_map true m) = marshal_map true m.
Proof. unfold marshal_map. rewrite marshal_shape. eapply (TrimSpace_visible "{" _ (String "{" (fields_text true _)) "}"); reflexivity. Qed.
Lemma decodeRequestParams_map m : part_map 1 m -> decodeRequestParams (marshal_map true m) = Ok (compact true <$> m).
Proof. intros Hm. unfold decodeRequestParams. rewrite marshal_trim. cbv zeta. rewrite (unmarshal_marshal true 0 m Hm). unfold marshal_map. by rewrite marshal_shape. Qed.

(** What the caller's metadata and mini's defaults come to. *)
Definition keeps (m m' : gmap string string) : Prop := forall k x, m !! k = Some x -> m' !! k = Some (compact true x).

(** C30: what mini sends a modern server carries everything the caller sent: the prepared
    parameters are an object with the caller's members, and a [_meta] with the caller's
    metadata, in which only missing fields are filled in.  A caller that named none of the
    three protocol fields gets metadata that passes mini's own validation, and the version read
    from it is the negotiated one. *)
Theorem prepared_params Version v params p : valid_utf8 Version = true -> valid_utf8 v = true -> v <> "" ->
  prepareModernParams Version params v = Ok p ->
  exists fields meta fields' raw meta',
    decodeObjectParams params = Ok fields /\ decode_meta fields = Ok meta /\
    unmarshal_map p = Some (Some fields') /\ fields' !! "_meta" = Some raw /\ unmarshal_map raw = Some (Some meta') /\
    keeps (delete "_meta" fields) fields' /\ keeps meta meta' /\
    dom fields' = {["_meta"]} ∪ dom fields /\ dom meta' = dom meta ∪ {[protocolVersionMeta; clientInfoMeta; clientCapabilitiesMeta]} /\
    HasModernRequestIntent p = true /\
    (meta !! protocolVersionMeta = None -> meta !! clientCapabilitiesMeta = None -> ValidateModernRequestMeta p = Ok tt) /\
    (clear_of "_meta" (delete "_meta" fields) -> clear_of protocolVersionMeta meta -> clear_of clientInfoMeta meta -> clear_of clientCapabilitiesMeta meta ->
     ProtocolVersionFromParams p = v).
Proof.
  intros HV Hv Hne H. destruct (prepared_read Version v HV Hv params p H) as (fields & meta & E1 & E2 & Hf & Hm & -> & Ha & Hp).
  set (added := addDefaultMeta Version v meta) in *. set (m := <["_meta" := _]> fields) in *.
  assert (compact true (marshal_map true added) = marshal_map true added) as Hc by (apply (marshal_compact true 2), (sorted_parts 1), Ha).
  assert (forall k x, meta !! k = None -> default_meta Version v !! k = Some x -> (compact true <$> added) !! k = Some (compact true x)) as Hd.
  { intros k x Hn Hx. rewrite lookup_fmap. unfold added, addDefaultMeta. by rewrite lookup_union_r, Hx. }
  assert (dom (default_meta Version v) = {[protocolVersionMeta; clientInfoMeta; clientCapabilitiesMeta]}) as Hdom.
  { apply set_eq. intros k. rewrite elem_of_dom. split.
    - intros [x Hx]. apply default_keys in Hx; [|done|done]. set_solver.
    - rewrite !elem_of_union, !elem_of_singleton. intros [[->| ->]| ->]; eexists; [by apply default_version|by apply default_info|by apply default_capabilities]. }
  assert (is_Some ((compact true <$> added) !! protocolVersionMeta)) as [pv Hpv].
  { apply elem_of_dom. rewrite dom_fmap_L. unfold added, addDefaultMeta. rewrite dom_union_L, Hdom. set_solver. }
  assert (unmarshal_map (marshal_map true added) = Some (Some (compact true <$> added))) as Hu by by apply (unmarshal_marshal true 1).
  exists fields, meta, (compact true <$> m), (marshal_map true added), (compact true <$> added). split_and!; try done.
  - by apply (unmarshal_marshal true 0).
  - unfold m. rewrite lookup_fmap, lookup_insert_eq. cbn [fmap option_fmap option_map]. by rewrite Hc.
  - intros k x [Hk Hx]%lookup_delete_Some. unfold m. by rewrite lookup_fmap, lookup_insert_ne, Hx.
  - intros k x Hx. rewrite lookup_fmap. unfold added, addDefaultMeta. by rewrite (lookup_union_Some_l _ _ _ _ Hx).
  - rewrite dom_fmap_L. unfold m. apply dom_insert_L.
  - rewrite dom_fmap_L. unfold added, addDefaultMeta. by rewrite dom_union_L, Hdom.
  - unfold HasModernRequestIntent. rewrite decodeRequestParams_map by done. unfold m. rewrite lookup_fmap, lookup_insert_eq. cbn [fmap option_fmap option_map].
    rewrite Hc. unfold decodeRequestMeta. rewrite Hu. unfold hasModernRequestIntent, hasKey. by rewrite Hpv.
  - intros Hn1 Hn2. unfold ValidateModernRequestMeta. rewrite decodeRequestParams_map by done. cbn [rbind]. unfold m. rewrite lookup_fmap, lookup_insert_eq. cbn [fmap option_fmap option_map].
    rewrite Hc. unfold decodeRequestMeta. rewrite Hu. cbn [rbind]. unfold hasModernRequestIntent, hasKey. rewrite Hpv. cbn [orb negb].
    rewrite (Hd _ _ Hn1 (default_version Version v HV Hv Hne)) in Hpv. injection Hpv as <-. rewrite (Hd _ _ Hn2 (default_capabilities Version v HV Hv)). cbn [default id].
    unfold validateProtocolVersion, decode_string. rewrite string_compacted by done. rewrite part_valid by by apply string_part_any. rewrite version_read by done.
    rewrite (proj2 (String.eqb_neq v "") Hne). reflexivity.
  - intros H0 H1 H2 H3. unfold ProtocolVersionFromParams. rewrite struct_marshal_map by done.
    rewrite (map_field_one into_meta no_meta "_meta" true m (marshal_map true added)); [|done|by unfold m; rewrite lookup_insert_eq|unfold m; by rewrite delete_insert_eq].
    rewrite Hc. unfold added. by rewrite meta_read.
Qed.

Lemma prepared_params_witness :
  let params := "{ " +:+ q "name" +:+ " : " +:+ q "echo" +:+ ", " +:+ q "_meta" +:+ ": { " +:+ q "progressToken" +:+ " : 7 } }" in
  let p := "{" +:+ q "_meta" +:+ ":{" +:+ q clientCapabilitiesMeta +:+ ":{}," +:+ q clientInfoMeta +:+ ":{" +:+ q "name" +:+ ":" +:+ q "mini" +:+ "," +:+ q "version" +:+ ":" +:+ q "dev" +:+ "}," +:+
    q protocolVersionMeta +:+ ":" +:+ q "2026-07-28" +:+ "," +:+ q "progressToken" +:+ ":7}," +:+ q "name" +:+ ":" +:+ q "echo" +:+ "}" in
  prepareModernParams "dev" params "2026-07-28" = Ok p /\ HasModernRequestIntent p = true /\ exists fields', unmarshal_map p = Some (Some fields').
Proof.
  intros params p. assert (prepareModernParams "dev" params "2026-07-28" = Ok p) as H by (vm_compute; reflexivity). split; [exact H|].
  destruct (prepared_params "dev" "2026-07-28" params p eq_refl eq_refl ltac:(done) H) as (fields & meta & fields' & raw & meta' & _ & _ & Hu & _ & _ & _ & _ & _ & _ & Hi & _).
  split; [exact Hi|]. exists fields'. exact Hu.
Defined.

(** ** What is stripped *)
Lemma deleteKeys_spec keys : forall m, (forall k, fst (deleteKeys keys m) !! k = if decide (k ∈ keys) then None else m !! k) /\ (snd (deleteKeys keys m) = false -> fst (deleteKeys keys m) = m).
Proof.
  unfold deleteKeys. intros m. set (f := fun s key => _).
  assert (forall keys s, (forall k, fst (foldl f s keys) !! k = if decide (k ∈ keys) then None else fst s !! k) /\ (snd (foldl f s keys) = false -> snd s = false /\ fst (foldl f s keys) = fst s)) as H.
  { clear. induction keys as [|key keys IH]; intros [m r]; cbn [foldl]; [by split|]. destruct (IH (f (m, r) key)) as [IH1 IH2]. unfold f in IH1, IH2 |- *. cbn [fst snd] in *. fold f in IH1, IH2 |- *.
    destruct (m !! key) as [x|] eqn:Ex; cbn [fst snd] in *; split.
    - intros k. rewrite IH1. destruct (decide (k ∈ keys)), (decide (k ∈ key :: keys)) as [Hk|Hk]; try done; [destruct Hk; by right| |].
      + apply elem_of_cons in Hk as [->|Hk]; [apply lookup_delete_eq|done].
      + apply lookup_delete_ne. intros ->. apply Hk. by left.
    - intros [E1 _]%IH2. done.
    - intros k. rewrite IH1. destruct (decide (k ∈ keys)), (decide (k ∈ key :: keys)) as [Hk|Hk]; try done; [destruct Hk; by right|]. apply elem_of_cons in Hk as [->|Hk]; done.
    - exact IH2. }
  destruct (H keys (m, false)) as [H1 H2]. split; [exact H1|]. intros E. by apply H2.
Qed.

Definition same_meta (key : string) (fields fields' : gmap string string) : Prop :=
  match decode_meta fields with
  | Ok meta => exists meta', decode_meta fields' = Ok meta' /\ meta' !! key = None /\ forall k, k <> key -> val <$> meta' !! k = val <$> meta !! k
  | Err _ => val <$> fields' !! "_meta" = val <$> fields !! "_meta"
  end.

Lemma deleteMetaKey_spec key fields : part_map 1 fields ->
  part_map 1 (fst (deleteMetaKey key fields)) /\ (forall k, k <> "_meta" -> fst (deleteMetaKey key fields) !! k = fields !! k) /\ same_meta key fields (fst (deleteMetaKey key fields)) /\
  (snd (deleteMetaKey key fields) = false -> fst (deleteMetaKey key fields) = fields).
Proof.
  intros Hf. unfold deleteMetaKey, same_meta, decode_meta. destruct (fields !! "_meta") as [raw|] eqn:Eraw; cbn [default id].
  - destruct (Hf _ _ Eraw) as [_ Hraw]. cbn [snd] in Hraw. destruct (unmarshal_map raw) as [[meta|]|] eqn:Em; cbn [fst snd]; try (split_and!; try done; by rewrite Eraw).
    pose proof (unmarshal_part_parts 1 raw meta Hraw Em) as Hm. destruct (deleteKeys_spec [key] meta) as [D1 D2]. destruct (deleteKeys [key] meta) as [meta' removed]. cbn [fst snd] in D1, D2.
    assert (meta' !! key = None) as Hkey by (rewrite D1; rewrite decide_True; [done|set_solver]).
    assert (forall k, k <> key -> meta' !! k = meta !! k) as Hother by (intros k Hk; rewrite D1, decide_False; [done|set_solver]).
    destruct removed; cbn [negb fst snd].
    + assert (part_map 2 meta') as Hm'.
      { intros k x Hx. destruct (decide (k = key)) as [->|Hk]; [congruence|]. apply Hm. by rewrite <- Hother. }
      destruct (decide (meta' = ∅)) as [He|_]; cbn [fst snd].
      * split_and!; [|intros k Hk; by apply lookup_delete_ne| |done].
        -- intros k x [_ Hx]%lookup_delete_Some. by apply Hf.
        -- exists ∅. rewrite lookup_delete_eq. split; [done|]. split; [done|]. intros k Hk. by rewrite <- Hother, He.
      * split_and!; [|intros k Hk; by apply lookup_insert_ne| |done].
        -- apply part_map_insert; [done|]. apply map_member; [apply Nat.ltb_lt; reflexivity|done].
        -- rewrite lookup_insert_eq, (unmarshal_marshal true 1) by done. exists (compact true <$> meta'). split; [done|]. rewrite lookup_fmap, Hkey. split; [done|]. intros k Hk.
           rewrite lookup_fmap, Hother by done. destruct (meta !! k) as [x|] eqn:Ex; [|done]. cbn [fmap option_fmap option_map]. f_equal. apply val_compact, part_valid. apply (part_shallower 2); [lia|]. by apply (Hm k).
    + specialize (D2 eq_refl). subst meta'. split_and!; try done. rewrite Eraw, Em. by exists meta.
  - change (unmarshal_map "") with (@None (option (gmap string string))). cbn [fst snd]. split_and!; try done. rewrite Eraw. exists ∅. split_and!; done.
Qed.

(** A call for a legacy server loses the members its protocol version does not define and
    nothing else: no retry fields and no client capabilities are left, every other member and
    every other entry of [_meta] decodes to the same value as before. *)
Theorem strip_spec params fields : unmarshal_map params = Some (Some fields) ->
  exists fields', unmarshal_map (stripModernToolCallFields params) = Some (Some fields') /\
    fields' !! "inputResponses" = None /\ fields' !! "requestState" = None /\
    (forall k, k ∉ ["inputResponses"; "requestState"; "_meta"] -> val <$> fields' !! k = val <$> fields !! k) /\
    same_meta clientCapabilitiesMeta fields fields'.
Proof.
  intros H. pose proof (unmarshal_map_parts _ _ H) as Hf. unfold stripModernToolCallFields. rewrite H. destruct (deleteMetaKey_spec clientCapabilitiesMeta fields Hf) as (P1 & P2 & P3 & P4).
  destruct (deleteMetaKey clientCapabilitiesMeta fields) as [fields1 r1]. cbn [fst snd] in *. destruct (deleteKeys_spec ["inputResponses"; "requestState"] fields1) as [D1 D2].
  destruct (deleteKeys ["inputResponses"; "requestState"] fields1) as [fields2 r2]. cbn [fst snd] in *.
  assert (fields2 !! "inputResponses" = None /\ fields2 !! "requestState" = None /\ forall k, k ∉ ["inputResponses"; "requestState"] -> fields2 !! k = fields1 !! k) as (N1 & N2 & N3).
  { split_and!; [by rewrite D1|by rewrite D1|]. intros k Hk. by rewrite D1, decide_False. }
  destruct (negb r1 && negb r2) eqn:Er.
  - apply andb_true_iff in Er as [->%negb_true_iff ->%negb_true_iff]. specialize (D2 eq_refl). specialize (P4 eq_refl). subst. exists fields. split_and!; done.
  - assert (part_map 1 fields2) as Hf2.
    { intros k x Hx. destruct (decide (k ∈ ["inputResponses"; "requestState"])) as [Hk|Hk]; [rewrite D1, decide_True in Hx; done|]. apply P1. by rewrite <- N3. }
    assert (forall k, val <$> (compact true <$> fields2) !! k = val <$> fields2 !! k) as Hval.
    { intros k. rewrite lookup_fmap. destruct (fields2 !! k) as [x|] eqn:Ex; [|done]. cbn [fmap option_fmap option_map]. f_equal. apply val_compact, part_valid, (part_shallower 1); [lia|]. by apply (Hf2 k). }
    exists (compact true <$> fields2). split; [by apply (unmarshal_marshal true 0)|]. split; [by rewrite lookup_fmap, N1|]. split; [by rewrite lookup_fmap, N2|]. split.
    + intros k Hk. rewrite Hval, N3, P2; [done|set_solver|set_solver].
    + assert (fields2 !! "_meta" = fields1 !! "_meta") as Em by (apply N3; set_solver). unfold same_meta in *. destruct (decode_meta fields) as [meta|e].
      * destruct P3 as (meta1 & E1 & K1 & K2). unfold decode_meta in E1 |- *. rewrite lookup_fmap, Em. destruct (fields1 !! "_meta") as [raw|] eqn:Eraw; cbn [fmap option_fmap option_map]; [|by exists meta1].
        destruct (unmarshal_map raw) as [[x|]|] eqn:Eu; try done. injection E1 as ->. rewrite (unmarshal_compact true _ _ Eu). exists (compact true <$> meta1). rewrite lookup_fmap, K1. split_and!; try done.
        intros k Hk. rewrite <- K2 by done. rewrite lookup_fmap. destruct (meta1 !! k) as [y|] eqn:Ey; [|done]. cbn [fmap option_fmap option_map]. f_equal. apply val_compact, part_valid, (part_shallower 1); [lia|].
        by apply (unmarshal_map_parts _ _ Eu k).
      * by rewrite Hval, Em.
Qed.

Lemma strip_spec_witness :
  let params := "{" +:+ q "name" +:+ ":" +:+ q "f" +:+ "," +:+ q "requestState" +:+ ":1," +:+ q "_meta" +:+ ":{" +:+ q clientCapabilitiesMeta +:+ ":{}," +:+ q "progressToken" +:+ ":3}}" in
  stripModernToolCallFields params = "{" +:+ q "_meta" +:+ ":{" +:+ q "progressToken" +:+ ":3}," +:+ q "name" +:+ ":" +:+ q "f" +:+ "}" /\
  exists fields', unmarshal_map (stripModernToolCallFields params) = Some (Some fields') /\ fields' !! "requestState" = None.
Proof.
  intros params. split; [vm_compute; reflexivity|].
  destruct (strip_spec params (default ∅ (default None (unmarshal_map params)))) as (fields' & H1 & _ & H2 & _); [vm_compute; reflexivity|]. exists fields'. split; [exact H1|exact H2].
Defined.

(** Field names are matched without regard to case when the version is read, and exactly when
    the metadata is validated: this request counts as modern, but its missing capabilities are not reported. *)
Example case_variant_unvalidated :
  let params := "{" +:+ q "_META" +:+ ":{" +:+ q protocolVersionMeta +:+ ":" +:+ q "2026-07-28" +:+ "}}" in
  let exact := "{" +:+ q "_meta" +:+ ":{" +:+ q protocolVersionMeta +:+ ":" +:+ q "2026-07-28" +:+ "}}" in
  IsModernVersion (ProtocolVersionFromParams params) = true /\ ValidateModernRequestMeta params = Ok tt /\
  ProtocolVersionFromParams exact = ProtocolVersionFromParams params /\ ValidateModernRequestMeta exact = Err CapabilitiesNotObject.
Proof. vm_compute. tauto. Qed.
