(* ===== verification/OutputSchema.v ===== *)
(** * Output schemas of proxied tools (src/internal/server/proxy_output_schema.go, proxy_schema.go)

    mini trims the results of tools, so it loosens the schemas that describe them.  A schema
    is a decoded JSON value; an object is the list of its members.  The code edits the decoded
    value in place; here each step returns the new one. *)
From S2P Require Import Prelude GoStr Projection.

(** ** Objects *)
Fixpoint get (key : string) (fs : list (string * json)) : option json :=
  match fs with [] => None | (k, v) :: fs => if String.eqb k key then Some v else get key fs end.
Definition has (key : string) (fs : list (string * json)) : bool := match get key fs with Some _ => true | None => false end.
Definition remove (key : string) (fs : list (string * json)) : list (string * json) :=
  List.filter (fun kv => negb (String.eqb (fst kv) key)) fs.
Fixpoint update (key : string) (v : json) (fs : list (string * json)) : list (string * json) :=
  match fs with [] => [] | (k, x) :: fs => if String.eqb k key then (k, v) :: fs else (k, x) :: update key v fs end.
Definition set (key : string) (v : json) (fs : list (string * json)) : list (string * json) :=
  if has key fs then update key v fs else fs ++ [(key, v)].

Definition obj (j : option json) : option (list (string * json)) := match j with Some (JObj fs) => Some fs | _ => None end.
Definition arr (j : option json) : option (list json) := match j with Some (JArr l) => Some l | _ => None end.

(** ** Keywords *)
Definition trimSensitiveKeywords : list string :=
  ["required"; "dependentRequired"; "dependencies"; "minProperties"; "maxProperties"; "minLength"; "pattern"; "format";
   "minItems"; "contains"; "minContains"; "uniqueItems"; "maxItems"; "unevaluatedItems"].
Definition subschemaKeys : list string :=
  ["anyOf"; "allOf"; "prefixItems"; "items"; "additionalProperties"; "then"; "else"; "propertyNames"; "unevaluatedProperties"].
Definition subschemaMapKeys : list string := ["properties"; "patternProperties"; "$defs"; "definitions"; "dependentSchemas"].
Definition arrayItemKeys : list string := ["items"; "prefixItems"].
Definition knownDialects : list string :=
  ["json-schema.org/draft-04/schema"; "json-schema.org/draft-06/schema"; "json-schema.org/draft-07/schema";
   "json-schema.org/draft/2019-09/schema"; "json-schema.org/draft/2020-12/schema"].

Definition mem (k : string) (l : list string) : bool := existsb (String.eqb k) l.

Definition hasKnownDialect (schema : list (string * json)) : bool :=
  match get "$schema" schema with
  | Some (JStr dialect) => mem (trim_prefix (trim_prefix (trim_suffix dialect "#") "https://") "http://") knownDialects
  | _ => true
  end.

Fixpoint containsRef (node : json) : bool :=
  match node with
  | JArr l => existsb containsRef l
  | JObj fs => has "$ref" fs || existsb (fun kv => containsRef (snd kv)) fs
  | _ => false
  end.

Fixpoint negationRefersOut (node : json) : bool :=
  match node with
  | JArr l => existsb negationRefersOut l
  | JObj fs =>
      existsb (fun kv => (String.eqb (fst kv) "not" || String.eqb (fst kv) "if") && containsRef (snd kv) || negationRefersOut (snd kv)) fs
  | _ => false
  end.

(** ** Loosening *)
Definition oneOfToAnyOf (schema : list (string * json)) : list (string * json) :=
  match get "oneOf" schema with
  | None => schema
  | Some branches =>
      let schema := remove "oneOf" schema in
      if negb (has "anyOf" schema) then set "anyOf" branches schema
      else
        let allOf := default [] (arr (get "allOf" schema)) in
        set "allOf" (JArr (allOf ++ [JObj [("anyOf", branches)]])) schema
  end.

(** A member changed in place, when it is there. *)
Definition modify (f : json -> json) (schema : list (string * json)) (key : string) : list (string * json) :=
  match get key schema with Some v => update key (f v) schema | None => schema end.
Definition modify_named (f : json -> json) (schema : list (string * json)) (key : string) : list (string * json) :=
  match obj (get key schema) with
  | Some named => update key (JObj (map (fun kv => (fst kv, f (snd kv))) named)) schema
  | None => schema
  end.

(** [loosen] is [loosenSchema] for the subschemas. *)
Definition loosenSchemaObject (loosen : json -> json) (schema : list (string * json)) : list (string * json) :=
  let schema := foldl (fun s k => remove k s) schema trimSensitiveKeywords in
  let schema := oneOfToAnyOf schema in
  let schema := foldl (modify loosen) schema subschemaKeys in
  foldl (modify_named loosen) schema subschemaMapKeys.

(** [fuel] bounds the depth; [JBool true] would accept everything. *)
Fixpoint loosenSchema (fuel : nat) (node : json) : json :=
  match fuel with
  | O => JBool true
  | S fuel =>
      match node with
      | JArr l => JArr (map (loosenSchema fuel) l)
      | JObj schema => JObj (loosenSchemaObject (loosenSchema fuel) schema)
      | _ => node
      end
  end.

Fixpoint height (node : json) : nat :=
  match node with
  | JArr l => S (foldr (fun v n => Nat.max (height v) n) 0%nat l)
  | JObj fs => S (foldr (fun kv n => Nat.max (height (snd kv)) n) 0%nat fs)
  | _ => 1
  end.
Definition loosen_fuel (node : json) : nat := 3 * height node.

(** ** The notice *)
Definition ty (t : string) : string * json := ("type", JStr t).

Definition truncatedItemsSchema : json :=
  JObj [ty "array";
        ("items", JObj [ty "object"; ("required", JArr [JStr "path"]);
          ("properties", JObj [("path", JObj [ty "string"]); ("chars", JObj [ty "integer"]); ("items", JObj [ty "integer"])])])].
Definition miniOutputMetaSchema : json :=
  JObj [ty "object";
        ("properties", JObj [("msg", JObj [ty "string"]); ("file", JObj [ty "string"]);
          ("excluded", JObj [ty "array"; ("items", JObj [ty "string"])]); ("truncated", truncatedItemsSchema)])].
Definition miniNoticeItemSchema : json :=
  JObj [ty "object"; ("properties", JObj [("__mini", miniOutputMetaSchema)]); ("required", JArr [JStr "__mini"])].

Definition hasAnyKey (schema : list (string * json)) (keys : list string) : bool := existsb (fun k => has k schema) keys.

Definition is_str (name : string) (v : json) : bool := match v with JStr s => String.eqb s name | _ => false end.
Definition typeIncludes (schema : list (string * json)) (name : string) : bool :=
  match get "type" schema with
  | Some (JStr t) => String.eqb t name
  | Some (JArr l) => existsb (is_str name) l
  | _ => false
  end.
Definition isObjectish (schema : list (string * json)) : bool := negb (has "type" schema) || typeIncludes schema "object".
Definition isArrayish (schema : list (string * json)) : bool :=
  typeIncludes schema "array" || (negb (has "type" schema) && hasAnyKey schema arrayItemKeys).

(** [schemaProperties] gives the object to change, adding one where there is none. *)
Definition schemaProperties (schema : list (string * json)) : list (string * json) := default [] (obj (get "properties" schema)).
Definition placeMiniProperty (schema : list (string * json)) : list (string * json) :=
  let properties := schemaProperties schema in
  let properties' := if has "__mini" properties then properties else set "__mini" miniOutputMetaSchema properties in
  set "properties" (JObj properties') schema.

Definition placeMiniItem (schema : list (string * json)) : option (list (string * json)) :=
  if has "prefixItems" schema then None
  else
    match get "items" schema with
    | None => Some schema
    | Some (JBool true) => Some schema
    | Some (JObj items) => Some (set "items" (JObj [("anyOf", JArr [JObj items; miniNoticeItemSchema])]) schema)
    | Some _ => None
    end.

(** The branches of one keyword, each changed by [f]; [None] when one fails. *)
Definition place_branches (f : json -> option json) (schema : list (string * json)) (key : string) : option (list (string * json)) :=
  match arr (get key schema) with
  | None => Some schema
  | Some branches => option_map (fun bs => update key (JArr bs) schema) (mapM f branches)
  end.

Fixpoint placeMiniNotice (fuel : nat) (schema : list (string * json)) : option (list (string * json)) :=
  match fuel with
  | O => None
  | S fuel =>
      if has "$ref" schema then None
      else
        let objectish := isObjectish schema in
        let arrayish := isArrayish schema in
        if negb objectish && negb arrayish then None
        else
          let schema := if objectish then placeMiniProperty schema else schema in
          match (if arrayish then placeMiniItem schema else Some schema) with
          | None => None
          | Some schema =>
              let branch b :=
                match b with
                | JObj s => if negb (isObjectish s) && negb (isArrayish s) then Some b else option_map JObj (placeMiniNotice fuel s)
                | _ => Some b
                end in
              match place_branches branch schema "anyOf" with
              | Some schema => place_branches branch schema "allOf"
              | None => None
              end
          end
  end.

Definition looseOutputSchema (schema : list (string * json)) : json :=
  match get "type" schema with Some t => JObj [("type", t)] | None => JObj [] end.

(** What the tool's [outputSchema] becomes; [None]: no such member. *)
Definition setProxyOutputSchema (outputSchema : option json) : option json :=
  match outputSchema with
  | Some (JObj schema) =>
      if negb (hasKnownDialect schema) || negationRefersOut (JObj schema) then Some (looseOutputSchema schema)
      else
        match loosenSchema (loosen_fuel (JObj schema)) (JObj schema) with
        | JObj loose =>
            match placeMiniNotice (height (JObj loose)) loose with
            | Some placed => Some (JObj placed)
            | None => Some (looseOutputSchema loose)
            end
        | other => Some other (* not reached: an object stays an object *)
        end
  | Some JNull | None => None
  | Some other => Some other
  end.

(** ** The input schema: the [__mini] control (proxy_schema.go) *)
Definition miniInputControlSchema : json :=
  JObj [ty "object";
        ("properties", JObj [("projection", JObj [ty "string"; ("enum", JArr [JStr "default"; JStr "raw"])])]);
        ("additionalProperties", JBool false)].
Definition defaultObjectSchema : list (string * json) := [ty "object"; ("properties", JObj [])].
Definition acceptsMiniControl (schema : list (string * json)) : bool :=
  negb (hasAnyKey schema ["$ref"; "allOf"; "anyOf"; "oneOf"]) &&
  match get "type" schema with None => true | Some t => is_str "object" t end.
(** [inputSchema]: the decoded schema, [None] when it is not a JSON object. *)
Definition proxyInputSchema (inputSchema : option (list (string * json))) : list (string * json) :=
  let schema := default defaultObjectSchema inputSchema in
  if negb (acceptsMiniControl schema) then schema
  else
    let schema := if has "type" schema then schema else set "type" (JStr "object") schema in
    set "properties" (JObj (set "__mini" miniInputControlSchema (schemaProperties schema))) schema.

Definition prefixTitle (holder : list (string * json)) (server : string) : list (string * json) :=
  match get "title" holder with
  | Some (JStr title) => if String.eqb title "" then holder else update "title" (JStr (server +:+ ": " +:+ title)) holder
  | _ => holder
  end.
Definition prefixDisplayTitles (tool : list (string * json)) (server : string) : list (string * json) :=
  let tool := prefixTitle tool server in
  match obj (get "annotations" tool) with
  | Some annotations => update "annotations" (JObj (prefixTitle annotations server)) tool
  | None => tool
  end.

(** [proxyUpstreamToolSchema]: [def] is the decoded tool definition, [name] its agent-facing name. *)
Definition proxyUpstreamToolSchema (def : list (string * json)) (server name : string) : list (string * json) :=
  let input := obj (get "inputSchema" def) in
  let m := set "name" (JStr (server +:+ "__" +:+ name)) def in
  let m := set "inputSchema" (JObj (proxyInputSchema input)) m in
  let m := match setProxyOutputSchema (get "outputSchema" m) with
           | Some s => set "outputSchema" s m
           | None => remove "outputSchema" m
           end in
  prefixDisplayTitles m server.
