(* ===== verification/ResultDoc.v ===== *)
(** * Results of proxied tools (src/internal/server/mcp_result.go, proxy_result_doc.go, proxy_result.go)

    A tool's result is decoded as far as mini edits it; each text is projected by itself, the
    notice of what was cut is put into one of them or into a block of its own, and everything
    else is written back as it came. *)
From S2P Require Import Prelude GoStr Utf8 Float64 Config Content JsonText JsonToken JsonObject Response Projection JsonTree OutputSchema.

(** ** Splitting and joining an object (mcp_result.go) *)
Definition extraFields : Type := gmap string string.

Definition splitObject (raw : string) (modeled : list string) : option (list (string * string) * extraFields) :=
  match struct_members raw, unmarshal_map raw with
  | Some known, Some all =>
      Some (known, foldl (fun m name => if String.eqb (default "" (m !! name)) "null" then m else delete name m) (default ∅ all) modeled)
  | _, _ => None
  end.

(** [known] are the members the struct writes. *)
Definition joinObject (known : list (string * string)) (extra : extraFields) : string :=
  if decide (extra = ∅) then marshal_members false known else marshal_map false (extra ∪ map_of known).

(** [json.Unmarshal] into pointers: [null] gives nil. *)
Definition pointer {A} (dec : string -> option A) (_ : option A) (raw : string) : option (option A) :=
  if String.eqb raw "null" then Some None else option_map Some (dec raw).
Definition when_some {A} (name : string) (text : A -> string) (o : option A) : list (string * string) :=
  match o with Some a => [(name, text a)] | None => [] end.

Record embeddedResource : Type := { URI : string; MimeType : option string; r_Text : option string; r_extra : extraFields }.

Definition unmarshal_resource (raw : string) : option embeddedResource :=
  match splitObject raw ["uri"; "mimeType"; "text"] with
  | None => None
  | Some (ms, extra) =>
      match string_field "uri" ms, typed_field (pointer (unmarshal_string "")) None "mimeType" ms,
            typed_field (pointer (unmarshal_string "")) None "text" ms with
      | Some uri, Some mime, Some text => Some {| URI := uri; MimeType := mime; r_Text := text; r_extra := extra |}
      | _, _, _ => None
      end
  end.
Definition resource_text (e : embeddedResource) : string :=
  joinObject (("uri", json_string false (URI e)) :: when_some "mimeType" (json_string false) (MimeType e) ++ when_some "text" (json_string false) (r_Text e))
    (r_extra e).

Record contentBlock : Type := {
  Type_ : string;
  Text : option string;
  Resource : option embeddedResource;
  upstream : string;
  edited : bool;
  extra : extraFields
}.

Definition newTextBlock (text : string) : contentBlock :=
  {| Type_ := "text"; Text := Some text; Resource := None; upstream := ""; edited := true; extra := ∅ |}.
Definition setText (text : string) (b : contentBlock) : contentBlock :=
  {| Type_ := Type_ b; Text := Some text; Resource := Resource b; upstream := upstream b; edited := true; extra := extra b |}.
(** The code dereferences [b.Resource]: callers have checked it. *)
Definition setResourceText (text : string) (b : contentBlock) : contentBlock :=
  {| Type_ := Type_ b; Text := Text b;
     Resource := option_map (fun e => {| URI := URI e; MimeType := MimeType e; r_Text := Some text; r_extra := r_extra e |}) (Resource b);
     upstream := upstream b; edited := true; extra := extra b |}.

Definition unmarshal_block (raw : string) : option contentBlock :=
  match splitObject raw ["type"; "text"; "resource"] with
  | None => None
  | Some (ms, ex) =>
      match string_field "type" ms, typed_field (pointer (unmarshal_string "")) None "text" ms,
            typed_field (pointer unmarshal_resource) None "resource" ms with
      | Some ty, Some text, Some res =>
          Some {| Type_ := ty; Text := text; Resource := res; upstream := raw; edited := false; extra := ex |}
      | _, _, _ => None
      end
  end.
Definition marshal_block (b : contentBlock) : string :=
  if negb (edited b) then upstream b
  else joinObject (("type", json_string false (Type_ b)) :: when_some "text" (json_string false) (Text b) ++ when_some "resource" resource_text (Resource b))
         (extra b).

Record toolResult : Type := {
  Content : list contentBlock;
  StructuredContent : string; (* no bytes: absent *)
  hasContent : bool;
  t_extra : extraFields
}.

(** The raw elements of an array that is valid JSON, after the bracket. *)
Fixpoint raw_items (fuel : nat) (s : string) : list string :=
  match fuel with
  | O => []
  | S fuel =>
      let v := skip_ws s in
      match scan_value (S (String.length v)) 1 v with
      | None => []
      | Some s1 =>
          let x := str_take (String.length v - String.length s1) v in
          match skip_ws s1 with String ","%char s2 => x :: raw_items fuel s2 | _ => [x] end
      end
  end.
Definition unmarshal_list {A} (dec : string -> option A) (raw : string) : option (list A) :=
  match skip_ws raw with
  | String "["%char s =>
      match skip_ws s with
      | String "]"%char _ => Some []
      | _ => mapM dec (raw_items (S (String.length s)) s)
      end
  | _ => None
  end.

Definition unmarshal_result (raw : string) : option toolResult :=
  match splitObject raw ["content"; "structuredContent"] with
  | None => None
  | Some (ms, ex) =>
      match typed_field (pointer (unmarshal_list unmarshal_block)) None "content" ms with
      | None => None
      | Some content =>
          Some {| Content := default [] content; StructuredContent := raw_field "structuredContent" ms;
                  hasContent := match content with Some _ => true | None => false end; t_extra := ex |}
      end
  end.
Definition list_text (l : list string) : string := "[" +:+ join "," l +:+ "]".
Definition marshal_result (r : toolResult) : string :=
  let content :=
    if hasContent r || negb (Nat.eqb (List.length (Content r)) 0)
    then [("content", list_text (map (fun b => compact false (marshal_block b)) (Content r)))] else [] in
  let structured := if String.eqb (StructuredContent r) "" then [] else [("structuredContent", StructuredContent r)] in
  joinObject (content ++ structured) (t_extra r).

(** ** Units (proxy_result_doc.go) *)
Inductive unitKind : Type := unitStructured | unitJSONText | unitPlainText | unitResourceText.
#[global] Instance unitKind_eq_dec : EqDecision unitKind.
Proof. solve_decision. Defined.

Record projectUnit : Type := {
  kind : unitKind;
  block : nat; (* not used by [unitStructured], where the code has -1 *)
  prefix : string;
  value : json;
  result : Result;
  changed : bool
}.
Definition no_result : Result := {| Summary := JNull; ExcludedKeys := []; RTruncated := [] |}.
Definition new_unit (k : unitKind) (i : nat) (p : string) (v : json) : projectUnit :=
  {| kind := k; block := i; prefix := p; value := v; result := no_result; changed := false |}.
Definition with_result (u : projectUnit) (r : Result) (ch : bool) : projectUnit :=
  {| kind := kind u; block := block u; prefix := prefix u; value := value u; result := r; changed := ch |}.

(** [markup] is [StripMarkup] of the projection, over the HTML tokenizer. *)
Definition project_unit (markup : string -> string) (cfg : option ProjectionConfig) (defaults : Defaults) (u : projectUnit) : projectUnit :=
  let r := Apply markup (value u) cfg defaults in
  with_result u r (negb (deep_equal (Summary r) (value u))).

(** The notice: [response.ProjectionMeta] as JSON. *)
Record ProjectionMeta : Type := { Msg : string; m_File : string; m_Excluded : list string; m_Truncated : list Truncation }.
Definition int_field (name : string) (n : Z) : list (string * json) := if n =? 0 then [] else [(name, JNum (itoa n))].
Definition truncation_json (t : Truncation) : json := JObj (("path", JStr (JQPath t)) :: int_field "chars" (Chars t) ++ int_field "items" (Items t)).
Definition str_opt (name s : string) : list (string * json) := if String.eqb s "" then [] else [(name, JStr s)].
Definition list_opt (name : string) (l : list json) : list (string * json) := match l with [] => [] | _ => [(name, JArr l)] end.
Definition meta_json (m : ProjectionMeta) : json :=
  JObj (str_opt "msg" (Msg m) ++ str_opt "file" (m_File m) ++ list_opt "excluded" (map JStr (m_Excluded m)) ++
        list_opt "truncated" (map truncation_json (m_Truncated m))).

(** What [carry] makes of a summary. *)
Definition carry_value (notice : json) (v : json) : option json :=
  match v with
  | JObj fs => Some (JObj (sorted_members (set "__mini" notice fs)))
  | JArr l => Some (JArr (l ++ [JObj [("__mini", notice)]]))
  | _ => None
  end.
Definition carry (notice : json) (u : projectUnit) : projectUnit :=
  match carry_value notice (Summary (result u)) with
  | Some v => with_result u {| Summary := v; ExcludedKeys := ExcludedKeys (result u); RTruncated := RTruncated (result u) |} true
  | None => u
  end.

Definition unit_text (u : projectUnit) : string :=
  match kind u with
  | unitJSONText => marshalCompact (Summary (result u))
  | _ => match Summary (result u) with JStr s => s | _ => "" end
  end.

Record resultDoc : Type := { d_result : toolResult; structured : json; hasStructured : bool; mirrors : list nat }.
Definition with_mirror (d : resultDoc) (i : nat) : resultDoc :=
  {| d_result := d_result d; structured := structured d; hasStructured := hasStructured d; mirrors := mirrors d ++ [i] |}.
Definition with_doc_result (d : resultDoc) (r : toolResult) : resultDoc :=
  {| d_result := r; structured := structured d; hasStructured := hasStructured d; mirrors := mirrors d |}.

Definition parseResultDoc (raw : string) : option resultDoc :=
  match unmarshal_result raw with
  | None => None
  | Some r =>
      let dec := if String.eqb (StructuredContent r) "" then None else decodeJSONValue (StructuredContent r) in
      Some {| d_result := r; structured := default JNull dec; hasStructured := match dec with Some _ => true | None => false end; mirrors := [] |}
  end.

Definition trimmedJSONValue (text : string) : option json := decodeJSONValue (TrimSpace text).

Definition appendTextUnit (du : resultDoc * list projectUnit) (i : nat) (text : string) : resultDoc * list projectUnit :=
  let (d, units) := du in
  let p := ".content[" +:+ itoa (Z.of_nat i) +:+ "].text" in
  match trimmedJSONValue text with
  | None => (d, units ++ [new_unit unitPlainText i p (JStr text)])
  | Some v =>
      if hasStructured d && deep_equal v (structured d) then (with_mirror d i, units)
      else (d, units ++ [new_unit unitJSONText i (p +:+ " | fromjson") v])
  end.
Definition appendBlockUnit (du : resultDoc * list projectUnit) (i : nat) (b : contentBlock) : resultDoc * list projectUnit :=
  match (if String.eqb (Type_ b) "text" then Text b else None) with
  | Some text => appendTextUnit du i text
  | None =>
      match (if String.eqb (Type_ b) "resource" then Resource b ≫= r_Text else None) with
      | Some text => (fst du, snd du ++ [new_unit unitResourceText i (".content[" +:+ itoa (Z.of_nat i) +:+ "].resource.text") (JStr text)])
      | None => du
      end
  end.

(** From the block with index [i]. *)
Fixpoint collect_blocks (du : resultDoc * list projectUnit) (i : nat) (bs : list contentBlock) : resultDoc * list projectUnit :=
  match bs with
  | [] => du
  | b :: bs => collect_blocks (appendBlockUnit du i b) (S i) bs
  end.
Definition collectUnits (d : resultDoc) : resultDoc * list projectUnit :=
  let units := if hasStructured d then [new_unit unitStructured 0 ".structuredContent" (structured d)] else [] in
  collect_blocks (d, units) 0 (Content (d_result d)).

Definition isMiniFreeObject (v : json) : bool := match v with JObj fs => negb (has "__mini" fs) | _ => false end.
Definition is_array (v : json) : bool := match v with JArr _ => true | _ => false end.

(** The index of the unit that carries the notice. *)
Fixpoint sole_object (i : nat) (found : option nat) (units : list projectUnit) : option nat :=
  match units with
  | [] => found
  | u :: units =>
      if negb (bool_decide (kind u = unitJSONText)) || negb (isMiniFreeObject (value u)) then sole_object (S i) found units
      else match found with Some _ => None | None => sole_object (S i) (Some i) units end
  end.
Definition pickCarrier (units : list projectUnit) (hasStructured : bool) : option nat :=
  if hasStructured then
    match units with
    | u :: _ => if is_array (value u) || isMiniFreeObject (value u) then Some 0%nat else None
    | [] => None (* not reached: the structured unit is the first *)
    end
  else sole_object 0 None units.

(** ** Building the result (proxy_result.go) *)
Definition edit_block (f : contentBlock -> contentBlock) (i : nat) (r : toolResult) : toolResult :=
  {| Content := alter f i (Content r); StructuredContent := StructuredContent r; hasContent := hasContent r; t_extra := t_extra r |}.
Definition set_structured (raw : string) (r : toolResult) : toolResult :=
  {| Content := Content r; StructuredContent := raw; hasContent := hasContent r; t_extra := t_extra r |}.

Definition applyStructured (d : resultDoc) (u : projectUnit) : resultDoc :=
  let encoded := marshalCompact (Summary (result u)) in
  let r := set_structured encoded (d_result d) in
  with_doc_result d (foldl (fun r i => edit_block (setText encoded) i r) r (mirrors d)).
Definition applyUnit (d : resultDoc) (u : projectUnit) : resultDoc :=
  if negb (changed u) then d
  else match kind u with
       | unitStructured => applyStructured d u
       | unitResourceText => with_doc_result d (edit_block (setResourceText (unit_text u)) (block u) (d_result d))
       | _ => with_doc_result d (edit_block (setText (unit_text u)) (block u) (d_result d))
       end.

Definition reportedPaths (units : list projectUnit) : list string * list Truncation :=
  (flat_map (fun u => map (fun p => prefix u +:+ " | " +:+ p) (ExcludedKeys (result u))) units,
   flat_map (fun u => map (fun t => {| JQPath := prefix u +:+ " | " +:+ JQPath t; Chars := Chars t; Items := Items t |}) (RTruncated (result u))) units).
Definition anyChanged (units : list projectUnit) : bool := existsb changed units.

Definition noticeCarried (d : resultDoc) (carrier : option projectUnit) : bool :=
  match carrier with
  | Some u => negb (bool_decide (kind u = unitStructured)) || negb (Nat.eqb (List.length (mirrors d)) 0)
  | None => false
  end.
Definition appendNoticeBlock (d : resultDoc) (notice : json) : resultDoc :=
  let r := d_result d in
  let b := newTextBlock (String (az 10) (marshalCompact (JObj [("__mini", notice)]))) in
  with_doc_result d {| Content := Content r ++ [b]; StructuredContent := StructuredContent r; hasContent := hasContent r; t_extra := t_extra r |}.

Record builtProxyResult : Type := { b_Raw : string; NoticeBlock : Z }.

Definition assemble (d : resultDoc) (units : list projectUnit) (carrier : option nat) (notice : option json) : builtProxyResult :=
  let units := match carrier, notice with Some i, Some n => alter (carry n) i units | _, _ => units end in
  let d := foldl applyUnit d units in
  match notice with
  | Some n =>
      if noticeCarried d (carrier ≫= fun i => units !! i) then {| b_Raw := compact false (marshal_result (d_result d)); NoticeBlock := -1 |}
      else
        let d := appendNoticeBlock d n in
        {| b_Raw := compact false (marshal_result (d_result d)); NoticeBlock := Z.of_nat (List.length (Content (d_result d))) - 1 |}
  | None => {| b_Raw := compact false (marshal_result (d_result d)); NoticeBlock := -1 |}
  end.

Definition ProxyMsg : string := "Response filtered, some fields were excluded or truncated, use read(<file>, <jq filter>) to fetch full values.".

Section build.
(** [json.Indent], which the store's writer uses, and the projection's [StripMarkup]. *)
Context (Indent : string -> option string) (markup : string -> string).

Definition proxyNotice (env : write_env) (s : Store) (raw : string) (units : list projectUnit) : Store * res string (option ProjectionMeta) :=
  let (ex, tr) := reportedPaths units in
  match ex, tr with
  | [], [] => (s, Ok None)
  | _, _ =>
      match WriteRaw Indent env s raw with
      | (s, Err e) => (s, Err ("store response: " +:+ e))
      | (s, Ok key) => (s, Ok (Some {| Msg := ProxyMsg; m_File := key; m_Excluded := ex; m_Truncated := tr |}))
      end
  end.

Definition buildProxyResult (env : write_env) (s : Store) (raw : string) (cfg : option ProjectionConfig) (defaults : Defaults)
    : Store * res string builtProxyResult :=
  let unchanged := {| b_Raw := raw; NoticeBlock := -1 |} in
  match parseResultDoc raw with
  | None => (s, Ok unchanged)
  | Some d =>
      let (d, units) := collectUnits d in
      let units := map (project_unit markup cfg defaults) units in
      let carrier := pickCarrier units (hasStructured d) in
      match proxyNotice env s raw units with
      | (s, Err e) => (s, Err e)
      | (s, Ok notice) =>
          match notice with
          | None => if anyChanged units then (s, Ok (assemble d units carrier None)) else (s, Ok unchanged)
          | Some m => (s, Ok (assemble d units carrier (Some (meta_json m))))
          end
      end
  end.
End build.

(** A resource block with a member mini does not model, a list that is cut, and the notice in
    a block of its own since the client may not show the structured content. *)
Example build_ex :
  let env := {| we_now := 1700000000000000000; we_create := fun _ _ => Created; we_rnd := fun _ => ""; we_remove := fun _ => Removed |} in
  let store := {| dir := "/r"; ttl := 1000; budgetBytes := 100000; usedBytes := 0; files := [] |} in
  let cfg := {| Alias := ""; IncludeOnly := []; Exclude := ["secret"]; ArrayLimits := {["default" := 2]}; StringLimits := ∅; StripMarkupOpt := false; Format := "" |} in
  let defaults := {| StringLimit := 100; ContentFields := []; AutoStripThreshold := 1000 |} in
  let raw := "{" +:+ q "content" +:+ ":[{" +:+ q "type" +:+ ":" +:+ q "image" +:+ ", " +:+ q "data" +:+ ":" +:+ q "AA" +:+ "}], " +:+
             q "structuredContent" +:+ ":{" +:+ q "secret" +:+ ":1," +:+ q "xs" +:+ ":[1,2,3]}, " +:+ q "isError" +:+ ": false}" in
  exists built, snd (buildProxyResult Some (fun s => s) env store raw (Some cfg) defaults) = Ok built /\ NoticeBlock built = 1.
Proof. vm_compute. eexists. split; reflexivity. Qed.
