(* ===== verification/HttpHeaders.v ===== *)
(** * Headers made from tool parameters (src/internal/transport/http_param_headers.go, http_param_schema.go)

    A modern HTTP server may ask for some arguments of a tool call as headers: the properties
    of the input schema that carry [x-mcp-header].  mini reads them from the schema, drops
    tools whose annotations are wrong, and sets the headers of each call.  Where the code
    iterates over the properties of a schema, [order] gives the order; it may depend on the
    place in the schema. *)
From S2P Require Import Prelude GoStr Utf8 Config Float64 GoStd JsonText ToonNumbers JsonToken JsonTokenProps JsonObject JsonCompact JsonParts Response Projection JsonTree JsonMeaning ResultDoc RequestMeta.

(** ** Annotations in a schema (http_param_schema.go) *)
Record headerParameter : Type := { h_name : string; h_path : list string }.
Inductive header_error : Type := SchemaNotObject | BadHeaderName | BadPropertyType | DuplicateHeaderNames | HiddenHeader | HeaderFuel.

Definition isHeaderTokenByte (ch : ascii) : bool := is_digit ch || is_upper ch || is_lower ch || byte_in ch ("!#$%&'*+-.^_" +:+ String (az 96) "|~").
Definition validHeaderToken (value : string) : bool := if String.eqb value "" then false else str_forall isHeaderTokenByte value.
Definition validHeaderType (typ : string) : bool := String.eqb typ "string" || String.eqb typ "integer" || String.eqb typ "boolean".

Definition hasDuplicateHeaderNames (headers : list headerParameter) : bool :=
  existsb (fun i => existsb (fun j => match headers !! i, headers !! j with Some a, Some b => EqualFold (h_name a) (h_name b) | _, _ => false end) (seq 0 i)) (seq 0 (length headers)).

Definition parseDirectHeader (schema : gmap string string) (parent : list string) : res header_error (list headerParameter) :=
  match schema !! "x-mcp-header" with
  | None => Ok []
  | Some raw =>
      match decode_string raw with
      | None => Err BadHeaderName
      | Some name =>
          if negb (validHeaderToken name) then Err BadHeaderName
          else match schema !! "type" with
               | None => Err BadPropertyType
               | Some typeRaw =>
                   match decode_string typeRaw with
                   | Some typ => if validHeaderType typ then Ok [{| h_name := name; h_path := parent |}] else Err BadPropertyType
                   | None => Err BadPropertyType
                   end
               end
      end
  end.

Section schema.
Variable order : list string -> gmap string string -> list (string * string).

Section properties.
Variable rec : gmap string string -> list string -> res header_error (list headerParameter).
Definition property_headers (parent : list string) (acc : list headerParameter) (kv : string * string) : res header_error (list headerParameter) :=
  match unmarshal_map (snd kv) with
  | Some (Some child) => let* nested := rec child (parent ++ [fst kv]) in Ok (acc ++ nested)
  | _ => Ok acc
  end.
Definition parsePropertyHeaders (raw : string) (parent : list string) : res header_error (list headerParameter) :=
  match unmarshal_map raw with
  | Some (Some properties) => for_each (property_headers parent) (order parent properties) []
  | _ => Ok []
  end.
End properties.

Fixpoint parseSchemaProperties (fuel : nat) (schema : gmap string string) (parent : list string) : res header_error (list headerParameter) :=
  match fuel with
  | O => Err HeaderFuel
  | S fuel =>
      let* direct := parseDirectHeader schema parent in
      let* nested := parsePropertyHeaders (parseSchemaProperties fuel) (default "" (schema !! "properties")) parent in
      if hasDuplicateHeaderNames (direct ++ nested) then Err DuplicateHeaderNames else Ok (direct ++ nested)
  end.

Fixpoint containsHeaderKeyword (fuel : nat) (raw : string) : bool :=
  match fuel with
  | O => false
  | S fuel =>
      match unmarshal_map raw with
      | Some (Some object) => hasKey object "x-mcp-header" || existsb (fun kv => containsHeaderKeyword fuel (snd kv)) (map_to_list object)
      | _ => match unmarshal_list Some raw with Some items => existsb (containsHeaderKeyword fuel) items | None => false end
      end
  end.
Fixpoint schemaHasHiddenHeader (fuel : nat) (raw : string) (schemaRoot : bool) : bool :=
  match fuel with
  | O => false
  | S fuel =>
      match unmarshal_map raw with
      | Some (Some object) =>
          existsb (fun kv =>
            if String.eqb (fst kv) "x-mcp-header" && schemaRoot then true
            else if String.eqb (fst kv) "properties" then
              match unmarshal_map (snd kv) with
              | Some (Some children) => existsb (fun c => schemaHasHiddenHeader fuel (snd c) false) (map_to_list children)
              | _ => false
              end
            else containsHeaderKeyword fuel (snd kv)) (map_to_list object)
      | _ => false
      end
  end.

(** Nested schemas are shorter than the text around them: its length is fuel enough. *)
Definition parseHeaderParameters (raw : string) : res header_error (list headerParameter) :=
  if String.eqb raw "" || String.eqb raw "null" then Ok []
  else match unmarshal_map raw with
       | Some (Some root) =>
           let* params := parseSchemaProperties (S (String.length raw)) root [] in
           if schemaHasHiddenHeader (S (String.length raw)) raw true then Err HiddenHeader else Ok params
       | _ => Err SchemaNotObject
       end.

(** The tools mini keeps, and the headers of each by name; a later tool of the same name replaces an earlier one. *)
Record ToolDefinition : Type := { t_Name : string; InputSchema : string }.
Definition rebuildToolHeaders (tools : list ToolDefinition) : gmap string (list headerParameter) * list ToolDefinition :=
  foldl (fun s tool => match parseHeaderParameters (InputSchema tool) with
                       | Err _ => s
                       | Ok params => (<[t_Name tool := params]> (fst s), snd s ++ [tool])
                       end) (∅, []) tools.
End schema.

(** ** Values (http_param_headers.go) *)
(** [base64.StdEncoding.EncodeToString]. *)
Definition base64_digit (n : Z) : ascii :=
  if n <? 26 then az (65 + n) else if n <? 52 then az (71 + n) else if n <? 62 then az (n - 4) else if n =? 62 then "+"%char else "/"%char.
Fixpoint base64 (s : string) : string :=
  match s with
  | "" => ""
  | String a "" => String (base64_digit (bz a / 4)) (String (base64_digit (bz a mod 4 * 16)) "==")
  | String a (String b "") => String (base64_digit (bz a / 4)) (String (base64_digit (bz a mod 4 * 16 + bz b / 16)) (String (base64_digit (bz b mod 16 * 4)) "="))
  | String a (String b (String c s)) =>
      String (base64_digit (bz a / 4)) (String (base64_digit (bz a mod 4 * 16 + bz b / 16))
        (String (base64_digit (bz b mod 16 * 4 + bz c / 64)) (String (base64_digit (bz c mod 64)) (base64 s))))
  end.

Definition tab : ascii := az 9.
Definition blanks : string := String " " (String tab "").
Definition header_byte (c : ascii) : bool := ((32 <=? bz c) && (bz c <=? 126)) || Ascii.eqb c tab.
Definition base64HeaderValue (value : string) : string := "=?base64?" +:+ base64 value +:+ "?=".
Definition encodeModernHeaderValue (value : string) : string :=
  let plain := (negb (has_prefix value "=?base64?") || negb (has_suffix value "?=")) && String.eqb (Trim value blanks) value && str_forall header_byte value in
  if plain then value else base64HeaderValue value.

Definition modernParamString (fields : gmap string string) (key : string) : option string := fields !! key ≫= decode_string.

(** [big.Rat.SetString] of a JSON number, as mantissa and power of ten; an exponent over a
    million, or one that is no 64-bit integer, is refused. *)
Definition json_number_parts (n : string) : bool * string * string * string :=
  let neg := has_prefix n "-" in
  let s := trim_prefix n "-" in
  let '(mant, e, _) := match cut_byte s "e" with (m, e, true) => (m, e, true) | _ => cut_byte s "E" end in
  let '(ip, fr, _) := cut_byte mant "." in
  (neg, ip, fr, e).
Definition rat_integer (n : string) : option Z :=
  let '(neg, ip, fr, e) := json_number_parts n in
  match dec_value (ip +:+ fr) 0, (if String.eqb e "" then Some 0 else ParseInt e) with
  | Some m, Some e =>
      let exp5 := e - slen fr in
      if m =? 0 then Some 0
      else if 1000000 <? Z.abs exp5 then None
      else let m := if neg : bool then - m else m in
           if 0 <=? exp5 then Some (m * 10 ^ exp5)
           else if m mod 10 ^ (- exp5) =? 0 then Some (m / 10 ^ (- exp5)) else None
  | _, _ => None
  end.
Definition max_safe_integer : Z := 9007199254740991.
Definition integerHeaderValue (value : string) : option string :=
  match rat_integer value with
  | Some z => if (z <? - max_safe_integer) || (max_safe_integer <? z) then None else Some (itoa z)
  | None => None
  end.

Definition primitiveHeaderValue (raw : string) : option string :=
  match decodeJSONValue raw with
  | Some (JStr s) => Some s
  | Some (JBool b) => Some (if b then "true" else "false")
  | Some (JNum n) => integerHeaderValue n
  | _ => None
  end.
Fixpoint argumentAtPath (args : gmap string string) (path : list string) : option string :=
  match path with
  | [] => None
  | [key] => args !! key ≫= primitiveHeaderValue
  | key :: path =>
      match args !! key with
      | None => None
      | Some raw => match unmarshal_map raw with Some (Some child) => argumentAtPath child path | _ => None end
      end
  end.

(** The headers a call sets, in order. *)
Definition addToolCallHeaders (modernHeaders : gmap string (list headerParameter)) (params : string) : list (string * string) :=
  match decodeObjectParams params with
  | Err _ => []
  | Ok fields =>
      match modernParamString fields "name" with
      | None => []
      | Some name =>
          ("Mcp-Name", encodeModernHeaderValue name) ::
          match unmarshal_map (default "" (fields !! "arguments")) with
          | None => []
          | Some args =>
              omap (fun h => option_map (fun v => ("Mcp-Param-" +:+ h_name h, encodeModernHeaderValue v)) (argumentAtPath (default ∅ args) (h_path h)))
                (default [] (modernHeaders !! name))
          end
      end
  end.

Example headers_ex :
  let schema := "{" +:+ q "properties" +:+ ":{" +:+ q "region" +:+ ":{" +:+ q "type" +:+ ":" +:+ q "string" +:+ "," +:+ q "x-mcp-header" +:+ ":" +:+ q "Region" +:+ "}," +:+
    q "page" +:+ ":{" +:+ q "properties" +:+ ":{" +:+ q "size" +:+ ":{" +:+ q "x-mcp-header" +:+ ":" +:+ q "Size" +:+ "," +:+ q "type" +:+ ":" +:+ q "integer" +:+ "}}}}}" in
  let params := "{" +:+ q "name" +:+ ":" +:+ q "list" +:+ "," +:+ q "arguments" +:+ ":{" +:+ q "region" +:+ ":" +:+ q " eu" +:+ "," +:+ q "page" +:+ ":{" +:+ q "size" +:+ ":1.2e3}}}" in
  let table := fst (rebuildToolHeaders (fun _ => map_to_list) [{| t_Name := "list"; InputSchema := schema |}]) in
  addToolCallHeaders table params = [("Mcp-Name", "list"); ("Mcp-Param-Region", "=?base64?IGV1?="); ("Mcp-Param-Size", "1200")].
Proof. vm_compute. reflexivity. Qed.

(** ** Header values *)

(** What a server reads: the text of a base64 value, any other value as it is. *)
Definition digit_value (c : ascii) : option Z :=
  if is_upper c then Some (bz c - 65) else if is_lower c then Some (bz c - 71) else if is_digit c then Some (bz c + 4)
  else if Ascii.eqb c "+" then Some 62 else if Ascii.eqb c "/" then Some 63 else None.
Fixpoint unbase64 (s : string) : option string :=
  match s with
  | "" => Some ""
  | String a (String b (String c (String d s))) =>
      match digit_value a, digit_value b with
      | Some x, Some y =>
          let first := az (x * 4 + y / 16) in
          if Ascii.eqb c "=" then if Ascii.eqb d "=" && String.eqb s "" then Some (String first "") else None
          else match digit_value c with
               | None => None
               | Some z =>
                   let second := az (y mod 16 * 16 + z / 4) in
                   if Ascii.eqb d "=" then if String.eqb s "" then Some (String first (String second "")) else None
                   else match digit_value d with
                        | None => None
                        | Some w => option_map (fun t => String first (String second (String (az (z mod 4 * 64 + w)) t))) (unbase64 s)
                        end
               end
      | _, _ => None
      end
  | _ => None
  end.
Definition read_header (h : string) : option string :=
  if has_prefix h "=?base64?" && has_suffix h "?=" && Nat.leb 11 (String.length h) then unbase64 (str_drop 9 (str_take (String.length h - 2) h)) else Some h.
(** A field value: visible ASCII, blanks only inside. *)
Definition field_value (h : string) : bool := str_forall header_byte h && String.eqb (Trim h blanks) h.

Lemma digit_value_digit n : 0 <= n < 64 -> digit_value (base64_digit n) = Some n /\ base64_digit n <> "="%char /\ header_byte (base64_digit n) = true.
Proof.
  intros H. assert (forallb (fun k => match digit_value (base64_digit (Z.of_nat k)) with Some z => (z =? Z.of_nat k) && negb (Ascii.eqb (base64_digit (Z.of_nat k)) "=") && header_byte (base64_digit (Z.of_nat k)) | None => false end) (seq 0 64) = true) as Hf by (vm_compute; reflexivity).
  rewrite forallb_forall in Hf. specialize (Hf (Z.to_nat n)). rewrite Z2Nat.id in Hf by lia. specialize (Hf ltac:(apply in_seq; lia)).
  destruct (digit_value (base64_digit n)) as [z|]; [|done]. rewrite !andb_true_iff in Hf. destruct Hf as [[->%Z.eqb_eq Hf] Hb]. split_and!; [done| |done]. intros E. by rewrite E in Hf.
Qed.

Lemma triple_ind (P : string -> Prop) : P "" -> (forall a, P (String a "")) -> (forall a b, P (String a (String b ""))) ->
  (forall a b c s, P s -> P (String a (String b (String c s)))) -> forall s, P s.
Proof.
  intros H0 H1 H2 H3 s. induction s as [s IH] using (induction_ltof1 _ String.length). unfold ltof in IH.
  destruct s as [|a [|b [|c s]]]; [done..|]. apply H3, IH. cbn [String.length]. lia.
Qed.
Lemma unbase64_base64 s : unbase64 (base64 s) = Some s.
Proof.
  assert (forall c, 0 <= bz c < 256) as Hr by apply bz_range.
  assert (forall n, 0 <= n < 64 -> Ascii.eqb (base64_digit n) "=" = false) as Hne by (intros n Hn; by apply Ascii.eqb_neq, digit_value_digit).
  induction s as [|a|a b|a b c s IH] using triple_ind; [done|..]; cbn [base64 unbase64]; pose proof (Hr a) as Ha; try pose proof (Hr b) as Hb; try pose proof (Hr c) as Hc.
  - rewrite !(fun n H => proj1 (digit_value_digit n H)) by (Z.div_mod_to_equations; lia). rewrite Ascii.eqb_refl. cbn [andb]. cbv iota. do 2 f_equal. apply az_eq. Z.div_mod_to_equations. lia.
  - rewrite !(fun n H => proj1 (digit_value_digit n H)) by (Z.div_mod_to_equations; lia). rewrite Hne by (Z.div_mod_to_equations; lia). rewrite Ascii.eqb_refl. cbv iota.
    do 2 f_equal; [|f_equal]; apply az_eq; Z.div_mod_to_equations; lia.
  - rewrite !(fun n H => proj1 (digit_value_digit n H)) by (Z.div_mod_to_equations; lia). rewrite !Hne by (Z.div_mod_to_equations; lia). rewrite IH. cbn [option_map].
    do 2 f_equal; [|do 1 f_equal; [|f_equal]]; apply az_eq; Z.div_mod_to_equations; lia.
Qed.

Lemma base64_bytes s : str_forall header_byte (base64 s) = true.
Proof.
  assert (forall n, 0 <= n < 64 -> header_byte (base64_digit n) = true) as Hd by (intros n Hn; by apply digit_value_digit).
  assert (forall c, 0 <= bz c < 256) as Hr by apply bz_range.
  induction s as [|a|a b|a b c s IH] using triple_ind; [done|..]; cbn [base64 str_forall]; pose proof (Hr a) as Ha; try pose proof (Hr b) as Hb; try pose proof (Hr c) as Hc;
    rewrite !Hd, ?IH by (Z.div_mod_to_equations; lia); reflexivity.
Qed.

Lemma trim_left_visible c s cut : byte_in c cut = false -> trim_left (String c s) cut = String c s.
Proof. intros Hc. cbn [trim_left]. by rewrite Hc. Qed.
Lemma trim_right_visible s c cut : byte_in c cut = false -> trim_right_bytes (s +:+ String c "") cut = s +:+ String c "".
Proof.
  intros Hc. induction s as [|x s IH]; cbn [String.append trim_right_bytes]; [by rewrite Hc|]. rewrite IH. destruct s; done.
Qed.
Lemma base64_value_safe v : field_value (base64HeaderValue v) = true.
Proof.
  unfold field_value, base64HeaderValue. rewrite !str_forall_app, base64_bytes. change (str_forall header_byte "=?base64?") with true. change (str_forall header_byte "?=") with true. cbn [andb].
  apply String.eqb_eq. unfold Trim. change ("=?base64?" +:+ base64 v +:+ "?=") with (String "=" ("?base64?" +:+ base64 v +:+ "?=")). rewrite trim_left_visible by done.
  replace (String "=" ("?base64?" +:+ base64 v +:+ "?=")) with (("=?base64?" +:+ base64 v +:+ "?") +:+ String "=" "") by (rewrite <- !str_app_assoc; done). by apply trim_right_visible.
Qed.

Lemma header_value_safe v : field_value (encodeModernHeaderValue v) = true.
Proof.
  unfold encodeModernHeaderValue. destruct ((_ || _) && _ && _) eqn:E; [|apply base64_value_safe]. rewrite !andb_true_iff in E. destruct E as [[_ E1] E2]. unfold field_value. by rewrite E1, E2.
Qed.
Lemma header_value_read v : read_header (encodeModernHeaderValue v) = Some v.
Proof.
  unfold encodeModernHeaderValue, read_header. destruct ((_ || _) && _ && _) eqn:E.
  - rewrite !andb_true_iff, orb_true_iff, !negb_true_iff in E. destruct E as [[[->| ->] _] _]; [done|]. by rewrite andb_false_r.
  - unfold base64HeaderValue. rewrite (proj2 (has_prefix_spec _ _)) by (by eexists). rewrite (proj2 (has_suffix_spec _ _)) by (exists ("=?base64?" +:+ base64 v); by rewrite <- str_app_assoc).
    rewrite !str_length_app. cbn [String.length andb]. destruct (Nat.leb_spec 11 (9 + (String.length (base64 v) + 2))); [|lia].
    replace (9 + (String.length (base64 v) + 2) - 2)%nat with (String.length ("=?base64?" +:+ base64 v)) by (rewrite str_length_app; cbn [String.length]; lia).
    rewrite str_app_assoc, str_take_app_length. change 9%nat with (String.length "=?base64?"). rewrite str_drop_app_length. apply unbase64_base64.
Qed.

(** ** The annotations of a schema *)

(** [annotated schema path name]: following [path] through the properties leads to a schema with this header name. *)
Inductive annotated : gmap string string -> list string -> string -> Prop :=
| annotated_here schema raw name : schema !! "x-mcp-header" = Some raw -> decode_string raw = Some name -> annotated schema [] name
| annotated_property schema raw properties k property child path name :
    schema !! "properties" = Some raw -> unmarshal_map raw = Some (Some properties) -> properties !! k = Some property -> unmarshal_map property = Some (Some child) ->
    annotated child path name -> annotated schema (k :: path) name.

Definition distinct_names (ps : list headerParameter) : Prop := forall i j a b, ps !! i = Some a -> ps !! j = Some b -> i <> j -> EqualFold (h_name a) (h_name b) = false.

Lemma EqualFold_sym a b : EqualFold a b = EqualFold b a.
Proof. unfold EqualFold. apply bool_decide_ext. split; intros H; by symmetry. Qed.
Lemma no_duplicates ps : hasDuplicateHeaderNames ps = false -> distinct_names ps.
Proof.
  unfold hasDuplicateHeaderNames. intros H.
  assert (forall i j a b, (j < i)%nat -> ps !! i = Some a -> ps !! j = Some b -> EqualFold (h_name a) (h_name b) = false) as Hlt.
  { intros i j a b Hij Ha Hb. apply not_true_is_false. intros E. apply not_true_iff_false in H. apply H, existsb_exists. exists i.
    pose proof (lookup_lt_Some _ _ _ Ha). split; [apply in_seq; lia|]. apply existsb_exists. exists j. split; [apply in_seq; lia|]. by rewrite Ha, Hb. }
  intros i j a b Ha Hb Hij. destruct (decide (j < i)%nat); [by eapply Hlt|]. rewrite EqualFold_sym. apply (Hlt j i); [lia|done|done].
Qed.

Lemma direct_spec schema parent ps : parseDirectHeader schema parent = Ok ps ->
  forall x, (x ∈ ps <-> h_path x = parent /\ annotated schema [] (h_name x)) /\ (x ∈ ps -> validHeaderToken (h_name x) = true).
Proof.
  unfold parseDirectHeader. destruct (schema !! "x-mcp-header") as [raw|] eqn:E.
  - destruct (decode_string raw) as [name|] eqn:En; [|done]. destruct (validHeaderToken name) eqn:Ev; [|done]. cbn [negb].
    assert ([{| h_name := name; h_path := parent |}] = ps -> forall x, (x ∈ ps <-> h_path x = parent /\ annotated schema [] (h_name x)) /\ (x ∈ ps -> validHeaderToken (h_name x) = true)) as H.
    { intros <- [n p]. rewrite list_elem_of_singleton. cbn [h_name h_path]. split; [|by intros [= -> ->]]. split.
      - intros [= -> ->]. split; [done|by eapply annotated_here].
      - intros (-> & Ha). inversion Ha; subst. f_equal. congruence. }
    destruct (schema !! "type") as [t|]; [|done]. destruct (decode_string t) as [typ|]; [|done]. destruct (validHeaderType typ); [|done]. intros [= <-]. by apply H.
  - intros [= <-] x. split; [|by intros ?%elem_of_nil]. split; [by intros ?%elem_of_nil|]. intros (_ & Ha). inversion Ha; subst; congruence.
Qed.

Lemma for_each_collect {A X} (f : list X -> A -> res header_error (list X)) (l : list A) (P : A -> X -> Prop) :
  (forall acc a r, a ∈ l -> f acc a = Ok r -> forall x, x ∈ r <-> x ∈ acc \/ P a x) -> forall acc r, for_each f l acc = Ok r -> forall x, x ∈ r <-> x ∈ acc \/ exists a, a ∈ l /\ P a x.
Proof.
  induction l as [|a l IH]; intros Hf acc r; cbn [for_each].
  - intros [= <-] x. split; [by left|]. intros [?|(a & Ha & _)]; [done|by apply elem_of_nil in Ha].
  - intros H x. inv_ok H. rewrite (IH (fun acc a r Ha => Hf acc a r (list_elem_of_further _ _ _ Ha)) _ _ H), (Hf _ _ _ (list_elem_of_here _ _) E). split.
    + intros [[?|?]|(b & Hb & Hp)]; [by left|right; exists a; split; [by left|done]|right; exists b; split; [by right|done]].
    + intros [?|(b & [->|Hb]%elem_of_cons & Hp)]; [by left; left|by left; right|right; by exists b].
Qed.

Section spec.
Variable order : list string -> gmap string string -> list (string * string).
Hypothesis order_all : forall p m, Permutation (order p m) (map_to_list m).

Lemma properties_spec rec raw parent ps (Q : gmap string string -> headerParameter -> list string -> Prop) :
  (forall child path r, rec child path = Ok r -> forall x, x ∈ r <-> Q child x path) -> parsePropertyHeaders order rec raw parent = Ok ps ->
  forall x, x ∈ ps <-> exists properties k property child, unmarshal_map raw = Some (Some properties) /\ properties !! k = Some property /\ unmarshal_map property = Some (Some child) /\ Q child x (parent ++ [k]).
Proof.
  intros Hrec. unfold parsePropertyHeaders. destruct (unmarshal_map raw) as [[properties|]|] eqn:E.
  - assert (forall acc kv r, kv ∈ order parent properties -> property_headers rec parent acc kv = Ok r ->
      forall x, x ∈ r <-> x ∈ acc \/ exists child, unmarshal_map (snd kv) = Some (Some child) /\ Q child x (parent ++ [fst kv])) as Hstep.
    { intros acc [k property] r _. unfold property_headers. cbn [fst snd]. destruct (unmarshal_map property) as [[child|]|] eqn:Ec.
      - intros Hr. inv_ok Hr. injection Hr as <-. intros y. rewrite elem_of_app, (Hrec _ _ _ E0). split; [intros [?|?]; [by left|right; by exists child]|]. intros [?|(c & [= <-] & ?)]; [by left|by right].
      - intros [= <-] y. split; [by left|]. intros [?|(c & ? & _)]; done.
      - intros [= <-] y. split; [by left|]. intros [?|(c & ? & _)]; done. }
    intros H x. rewrite (for_each_collect _ _ _ Hstep _ _ H). split.
    + intros [?%elem_of_nil|([k property] & Hin & child & Hc & Hq)]; [done|]. rewrite order_all in Hin. apply elem_of_map_to_list in Hin. by exists properties, k, property, child.
    + intros (properties' & k & property & child & [= <-] & Hk & Hc & Hq). right. exists (k, property). split; [rewrite order_all; by apply elem_of_map_to_list|]. by exists child.
  - intros [= <-] x. split; [by intros ?%elem_of_nil|]. by intros (? & ? & ? & ? & ? & _).
  - intros [= <-] x. split; [by intros ?%elem_of_nil|]. by intros (? & ? & ? & ? & ? & _).
Qed.

Definition found (child : gmap string string) (x : headerParameter) (path : list string) : Prop := exists rest, h_path x = path ++ rest /\ annotated child rest (h_name x).
Lemma schema_spec fuel : forall schema parent ps, parseSchemaProperties order fuel schema parent = Ok ps ->
  distinct_names ps /\ forall x, (x ∈ ps <-> found schema x parent) /\ (x ∈ ps -> validHeaderToken (h_name x) = true).
Proof.
  induction fuel as [|fuel IH]; intros schema parent ps; cbn [parseSchemaProperties]; [done|]. intros H. inv_ok H. inv_ok H. rename v into direct, v0 into nested.
  destruct (hasDuplicateHeaderNames (direct ++ nested)) eqn:Ed; [done|]. injection H as <-. split; [by apply no_duplicates|]. intros x.
  assert (forall child path r, parseSchemaProperties order fuel child path = Ok r -> forall x, x ∈ r <-> found child x path) as H1 by (intros child path r Hr y; by apply (IH child path r Hr)).
  assert (forall child path r, parseSchemaProperties order fuel child path = Ok r -> forall x, x ∈ r <-> found child x path /\ validHeaderToken (h_name x) = true) as H2.
  { intros child path r Hr y. destruct (proj2 (IH child path r Hr) y) as [Ha Hb]. rewrite <- Ha. tauto. }
  pose proof (properties_spec _ _ _ _ _ H1 E0 x) as N1. pose proof (properties_spec _ _ _ _ _ H2 E0 x) as N2. destruct (direct_spec _ _ _ E x) as [D1 D2]. rewrite elem_of_app. split.
  - rewrite D1, N1. split.
    + intros [(Hp & Ha)|(properties & k & property & child & K1 & K2 & K3 & rest & Hp & Ha)].
      * exists []. by rewrite app_nil_r.
      * exists (k :: rest). split; [by rewrite Hp, <- app_assoc|]. destruct (schema !! "properties") as [raw|] eqn:Er; [|done]. by eapply annotated_property.
    + intros (rest & Hp & Ha). inversion Ha as [? raw name E1 E2|? raw properties k property child path name E1 E2 E3 E4 E5]; subst.
      * left. rewrite app_nil_r in Hp. split; [done|]. by eapply annotated_here.
      * right. rewrite E1. exists properties, k, property, child. split_and!; try done. exists path. by rewrite Hp, <- app_assoc.
  - intros [Hx|Hx]; [by apply D2|]. apply N2 in Hx as (? & ? & ? & ? & _ & _ & _ & _ & Hv). exact Hv.
Qed.
End spec.

(** *** The fuel *)
Lemma members_shorter d e ms : jmembers d e ms -> Forall (fun m => (String.length (snd (fst m)) < String.length e)%nat) ms.
Proof.
  induction 1 as [d w0 b key w1 p v w2 Hw0 Hb Hk Hw1 Hv Hw2|d w0 b key w1 p v w2 e ms Hw0 Hb Hk Hw1 Hv Hw2 Hms IH]; constructor; cbn [fst snd]; try apply Forall_nil_2;
    pose proof (skip_ws_length p) as Hl; [pose proof (member_text_length w0 b w1 p w2 "}") as Ht|pose proof (member_text_length w0 b w1 p w2 (String "," e)) as Ht|];
    try (unfold member_text in Ht; cbn [String.length] in Ht; lia).
  pose proof (member_text_length w0 b w1 p w2 (String "," e)) as Ht. unfold member_text in Ht. cbn [String.length] in Ht. eapply Forall_impl; [exact IH|]. intros m Hm. cbn beta in *. lia.
Qed.
Lemma member_shorter raw m k x : unmarshal_map raw = Some (Some m) -> m !! k = Some x -> (String.length x < String.length raw)%nat.
Proof.
  intros (p & w & ms & -> & Hw & Ho & ->)%unmarshal_object. intros Hk.
  assert (Forall (fun kv => (String.length (snd kv) < String.length p)%nat) (map fst ms)) as Hf.
  { destruct Ho as [|w1 e ms Hw1 Hms]; [constructor|]. apply Forall_map. eapply Forall_impl; [apply (members_shorter _ _ _ Hms)|]. intros m Hm. cbn beta in *. rewrite str_length_app. cbn [String.length]. lia. }
  apply map_of_forall in Hf. apply Hf in Hk. cbn [snd] in Hk. rewrite str_length_app. lia.
Qed.

Section fuel.
Variable order : list string -> gmap string string -> list (string * string).
Hypothesis order_all : forall p m, Permutation (order p m) (map_to_list m).
Lemma for_each_no_err {A X} (f : X -> A -> res header_error X) e l : (forall acc a, a ∈ l -> f acc a <> Err e) -> forall acc, for_each f l acc <> Err e.
Proof.
  induction l as [|a l IH]; intros Hf acc; cbn [for_each]; [done|]. destruct (f acc a) as [y|e'] eqn:E; cbn [rbind].
  - apply IH. intros acc' b Hb. apply Hf. by right.
  - intros [= ->]. apply (Hf acc a); [by left|done].
Qed.
Lemma schema_fuel fuel : forall schema parent, (forall k x, schema !! k = Some x -> (String.length x < fuel)%nat) -> fuel <> 0%nat -> parseSchemaProperties order fuel schema parent <> Err HeaderFuel.
Proof.
  induction fuel as [|fuel IH]; intros schema parent Hs Hne; [done|]. cbn [parseSchemaProperties].
  assert (parseDirectHeader schema parent <> Err HeaderFuel) as Hd by (unfold parseDirectHeader; repeat case_match; done).
  destruct (parseDirectHeader schema parent) as [direct|e]; cbn [rbind]; [|congruence].
  assert (parsePropertyHeaders order (parseSchemaProperties order fuel) (default "" (schema !! "properties")) parent <> Err HeaderFuel) as Hp.
  { unfold parsePropertyHeaders. destruct (unmarshal_map _) as [[properties|]|] eqn:E; [|done|done]. destruct (schema !! "properties") as [raw|] eqn:Er; [|done]. cbn [default id] in E.
    specialize (Hs _ _ Er). apply for_each_no_err. intros acc [k property] Hin. rewrite order_all in Hin. apply elem_of_map_to_list in Hin. pose proof (member_shorter _ _ _ _ E Hin) as Hlen.
    unfold property_headers. cbn [fst snd]. destruct (unmarshal_map property) as [[child|]|] eqn:Ec; [|done|done].
    destruct (parseSchemaProperties order fuel child (parent ++ [k])) as [r|e] eqn:Ep; [done|]. cbn [rbind]. intros [= ->]. revert Ep. apply IH; [|lia].
    intros k' x Hx. pose proof (member_shorter _ _ _ _ Ec Hx). lia. }
  destruct (parsePropertyHeaders _ _ _ _) as [nested|e]; cbn [rbind]; [|congruence]. by destruct (hasDuplicateHeaderNames _).
Qed.
End fuel.

Lemma existsb_ext_in {A} (f g : A -> bool) l : (forall x, x ∈ l -> f x = g x) -> existsb f l = existsb g l.
Proof. induction l as [|x l IH]; intros H; [done|]. cbn [existsb]. rewrite (H x) by by left. rewrite IH; [done|]. intros y Hy. apply H. by right. Qed.
Lemma raw_items_length fuel : forall s, Forall (fun x => (String.length x <= String.length s)%nat) (raw_items fuel s).
Proof.
  induction fuel as [|fuel IH]; intros s; cbn [raw_items]; [constructor|]. destruct (scan_value _ 1 (skip_ws s)) as [s1|] eqn:E; [|constructor].
  pose proof (skip_ws_length s) as Hs. pose proof (scan_value_shorter _ _ _ _ E) as H1.
  assert (String.length (str_take (String.length (skip_ws s) - String.length s1) (skip_ws s)) <= String.length s)%nat as Hx by (rewrite str_length_take; lia).
  destruct (skip_ws s1) as [|c s2] eqn:E1; [by repeat constructor|]. apply skip_ws_cons_length in E1.
  assert (Forall (fun x => (String.length x <= String.length s)%nat) (raw_items fuel s2)) as Hr by (eapply Forall_impl; [apply IH|]; intros y Hy; cbn beta in *; lia).
  destruct c as [[] [] [] [] [] [] [] []]; by repeat constructor.
Qed.
Lemma items_shorter raw items x : unmarshal_list Some raw = Some items -> x ∈ items -> (String.length x < String.length raw)%nat.
Proof.
  unfold unmarshal_list. destruct (skip_ws raw) as [|c s] eqn:E; [done|]. apply skip_ws_cons_length in E. intros H Hx.
  assert (items = [] \/ items = raw_items (S (String.length s)) s) as [->| ->].
  { assert (forall l : list string, mapM Some l = Some l) as Hm by (induction l as [|y l IH]; [done|]; cbn; by rewrite IH).
    destruct (decide (c = "["%char)) as [->|]; [|destruct c as [[] [] [] [] [] [] [] []]; done]. destruct (skip_ws s) as [|e s'] eqn:E2; [rewrite Hm in H; right; congruence|].
    destruct (decide (e = "]"%char)) as [->|]; [left; congruence|]. right. rewrite Hm in H. destruct e as [[] [] [] [] [] [] [] []]; congruence. }
  - by apply elem_of_nil in Hx.
  - pose proof (raw_items_length (S (String.length s)) s) as Hf. rewrite Forall_forall in Hf. apply Hf in Hx. lia.
Qed.
Lemma keyword_fuel n : forall m raw, (String.length raw < n)%nat -> (String.length raw < m)%nat -> containsHeaderKeyword n raw = containsHeaderKeyword m raw.
Proof.
  induction n as [|n IH]; intros m raw Hn Hm; [lia|]. destruct m as [|m]; [lia|]. cbn [containsHeaderKeyword].
  assert (match unmarshal_list Some raw with Some items => existsb (containsHeaderKeyword n) items | None => false end = match unmarshal_list Some raw with Some items => existsb (containsHeaderKeyword m) items | None => false end) as Hi.
  { destruct (unmarshal_list Some raw) as [items|] eqn:E; [|done]. apply existsb_ext_in. intros x Hx. pose proof (items_shorter _ _ _ E Hx). apply IH; lia. }
  destruct (unmarshal_map raw) as [[o|]|] eqn:E; [|exact Hi|exact Hi]. f_equal. apply existsb_ext_in. intros [k x] Hx. apply elem_of_map_to_list in Hx. pose proof (member_shorter _ _ _ _ E Hx). apply IH; cbn [snd]; lia.
Qed.
Lemma hidden_fuel n : forall m raw b, (String.length raw < n)%nat -> (String.length raw < m)%nat -> schemaHasHiddenHeader n raw b = schemaHasHiddenHeader m raw b.
Proof.
  induction n as [|n IH]; intros m raw b Hn Hm; [lia|]. destruct m as [|m]; [lia|]. cbn [schemaHasHiddenHeader]. destruct (unmarshal_map raw) as [[o|]|] eqn:E; [|done|done].
  apply existsb_ext_in. intros [k x] Hx. apply elem_of_map_to_list in Hx. pose proof (member_shorter _ _ _ _ E Hx) as Hl. cbn [fst snd]. destruct (_ && b); [done|]. destruct (String.eqb k "properties").
  - destruct (unmarshal_map x) as [[cs|]|] eqn:Ec; [|done|done]. apply existsb_ext_in. intros [k' y] Hy. apply elem_of_map_to_list in Hy. pose proof (member_shorter _ _ _ _ Ec Hy). apply IH; cbn [snd]; lia.
  - apply keyword_fuel; lia.
Qed.

(** ** What is parsed, and what is sent *)
Lemma parameters_good order raw params : (forall p m, Permutation (order p m) (map_to_list m)) -> parseHeaderParameters order raw = Ok params ->
  distinct_names params /\ Forall (fun x => validHeaderToken (h_name x) = true) params.
Proof.
  intros Hord. unfold parseHeaderParameters. assert (distinct_names [] /\ Forall (fun x => validHeaderToken (h_name x) = true) []) as Hnil by (split; [intros i j a b Ha; by destruct i|constructor]).
  destruct (_ || _); [by intros [= <-]|]. destruct (unmarshal_map raw) as [[root|]|]; [|done|done]. intros H. inv_ok H. destruct (schemaHasHiddenHeader _ _ _); [done|]. injection H as <-.
  destruct (schema_spec order Hord _ _ _ _ E) as [Hd Hx]. split; [done|]. apply Forall_forall. intros x Hin. by apply Hx.
Qed.

(** the parameters mini sends as headers are exactly the annotated properties of the input
    schema: whatever the order in which properties are visited, a schema that is accepted
    yields one parameter per path that leads to an [x-mcp-header], the names are HTTP tokens
    and differ by more than case, and the limit on nesting is never what refuses a schema. *)
Theorem header_parameters_spec order raw root : (forall p m, Permutation (order p m) (map_to_list m)) -> unmarshal_map raw = Some (Some root) ->
  parseHeaderParameters order raw <> Err HeaderFuel /\
  forall params, parseHeaderParameters order raw = Ok params ->
    distinct_names params /\ (forall name path, {| h_name := name; h_path := path |} ∈ params <-> annotated root path name) /\
    Forall (fun x => validHeaderToken (h_name x) = true /\ h_path x <> []) params.
Proof.
  intros Hord Hr. unfold parseHeaderParameters. rewrite Hr.
  assert (String.eqb raw "" || String.eqb raw "null" = false) as Hraw.
  { apply orb_false_iff. split; apply String.eqb_neq; intros ->; vm_compute in Hr; congruence. }
  rewrite Hraw. pose proof (schema_fuel order Hord (S (String.length raw)) root [] (fun k x Hx => Nat.lt_lt_succ_r _ _ (member_shorter _ _ _ _ Hr Hx)) ltac:(done)) as Hfuel.
  destruct (parseSchemaProperties order (S (String.length raw)) root []) as [ps|e] eqn:E; cbn [rbind]; [|split; [congruence|done]].
  destruct (schemaHasHiddenHeader (S (String.length raw)) raw true) eqn:Eh; (split; [done|]); [done|]. intros params [= <-]. destruct (schema_spec order Hord _ _ _ _ E) as [Hd Hx]. split; [done|].
  assert (root !! "x-mcp-header" = None) as Hroot.
  { destruct (root !! "x-mcp-header") as [y|] eqn:Ey; [|done]. exfalso. apply not_true_iff_false in Eh. apply Eh. cbn [schemaHasHiddenHeader]. rewrite Hr. apply existsb_exists.
    exists ("x-mcp-header", y). split; [by apply list_elem_of_In, elem_of_map_to_list|done]. }
  split.
  - intros name path. rewrite (proj1 (Hx _)). unfold found. cbn [h_name h_path]. split; [by intros (rest & -> & H)|]. intros H. by exists path.
  - apply Forall_forall. intros x Hin. split; [by apply Hx|]. apply (proj1 (Hx x)) in Hin as (rest & Hp & Ha). cbn [app] in Hp. intros Hnil. subst rest.
    inversion Ha; congruence.
Qed.

(** Tables of headers that were read from schemas. *)
Definition good_table (table : gmap string (list headerParameter)) : Prop :=
  map_Forall (fun _ ps => distinct_names ps /\ Forall (fun x => validHeaderToken (h_name x) = true) ps) table.
Lemma rebuild_good order tools : (forall p m, Permutation (order p m) (map_to_list m)) -> good_table (fst (rebuildToolHeaders order tools)).
Proof.
  intros Hord. unfold rebuildToolHeaders. set (f := fun s tool => _).
  assert (forall tools s, good_table (fst s) -> good_table (fst (foldl f s tools))) as H; [|apply H, map_Forall_empty].
  clear tools. induction tools as [|tool tools IH]; intros s Hs; [done|]. cbn [foldl]. apply IH. unfold f. destruct (parseHeaderParameters order (InputSchema tool)) as [params|e] eqn:E; [|done].
  cbn [fst]. apply map_Forall_insert_2; [by eapply parameters_good|done].
Qed.

Definition folded (name : string) : list Z := map fold_rune (runes name).
Lemma distinct_nodup ps : distinct_names ps -> NoDup (map (fun x => folded (h_name x)) ps).
Proof.
  intros H. apply NoDup_alt. intros i j x. change (map ?f ps) with (f <$> ps). rewrite !list_lookup_fmap. intros Hi Hj.
  destruct (ps !! i) as [a|] eqn:Ea; [|done]. destruct (ps !! j) as [b|] eqn:Eb; [|done]. cbn in Hi, Hj. destruct (decide (i = j)) as [|Hij]; [done|].
  specialize (H i j a b Ea Eb Hij). unfold EqualFold in H. apply bool_decide_eq_false in H. exfalso. apply H. unfold folded in *. congruence.
Qed.
Lemma folded_prefix p n : str_forall ascii_byte p = true -> folded (p +:+ n) = map fold_rune (map bz (list_ascii_of_string p)) ++ folded n.
Proof. intros Hp. unfold folded. by rewrite runes_ascii_app, map_app. Qed.
Lemma token_ascii_bytes v : validHeaderToken v = true -> str_forall ascii_byte v = true.
Proof.
  unfold validHeaderToken. destruct (String.eqb v ""); [done|]. intros H. eapply str_forall_impl; [|exact H]. apply ascii_impl_dec. vm_compute. reflexivity.
Qed.
Lemma prefixed_token n : validHeaderToken n = true -> validHeaderToken ("Mcp-Param-" +:+ n) = true.
Proof. unfold validHeaderToken. destruct (String.eqb n ""); [done|]. intros H. cbn [String.append String.eqb]. cbn [str_forall]. by rewrite H. Qed.


Lemma header_parameters_spec_witness :
  let schema := "{" +:+ q "properties" +:+ ":{" +:+ q "page" +:+ ":{" +:+ q "properties" +:+ ":{" +:+ q "size" +:+ ":{" +:+ q "x-mcp-header" +:+ ":" +:+ q "Size" +:+ "," +:+ q "type" +:+ ":" +:+ q "integer" +:+ "}}}}}" in
  let root := default ∅ (default None (unmarshal_map schema)) in
  parseHeaderParameters (fun _ => map_to_list) schema = Ok [{| h_name := "Size"; h_path := ["page"; "size"] |}] /\ annotated root ["page"; "size"] "Size".
Proof.
  intros schema root. assert (parseHeaderParameters (fun _ => map_to_list) schema = Ok [{| h_name := "Size"; h_path := ["page"; "size"] |}]) as H by (vm_compute; reflexivity). split; [exact H|].
  destruct (header_parameters_spec (fun _ => map_to_list) schema root (fun _ m => Permutation_refl _) ltac:(vm_compute; reflexivity)) as [_ Hp].
  destruct (Hp _ H) as (_ & Hi & _). apply Hi. apply list_elem_of_here.
Defined.
