(* ===== verification/OutputSchemaProps.v ===== *)
(** * Trimmed results satisfy the loosened schema

    The meaning of a JSON schema, what projecting a result does to it, and the theorem that
    relates the two: what mini sends is valid for the schema mini announces. *)
From S2P Require Import Prelude GoStr Float64 Config ExcludePath Jq Response Projection JsonTree OutputSchema ResultDoc.

(** ** Trimming *)

(** What may happen to a value: members are left out, arrays cut after a prefix, strings
    changed.  Other scalars stay. *)
Fixpoint trim (v w : json) {struct v} : Prop :=
  match v, w with
  | JNull, JNull => True
  | JBool a, JBool b => a = b
  | JNum a, JNum b => a = b
  | JStr _, JStr _ => True
  | JArr l, JArr l' =>
      (fix items l l' : Prop :=
         match l', l with
         | [], _ => True
         | y :: l', x :: l => trim x y /\ items l l'
         | _, _ => False
         end) l l'
  | JObj fs, JObj fs' =>
      (fix members fs fs' : Prop :=
         match fs, fs' with
         | [], [] => True
         | (k, x) :: fs, [] => members fs []
         | (k, x) :: fs, (k', y) :: fs2 => (k = k' /\ trim x y /\ members fs fs2) \/ members fs fs'
         | [], _ :: _ => False
         end) fs fs'
  | _, _ => False
  end.

Fixpoint trim_items (l l' : list json) : Prop :=
  match l', l with
  | [], _ => True
  | y :: l', x :: l => trim x y /\ trim_items l l'
  | _, _ => False
  end.
Fixpoint trim_members (fs fs' : list (string * json)) : Prop :=
  match fs, fs' with
  | [], [] => True
  | (k, x) :: fs, [] => trim_members fs []
  | (k, x) :: fs, (k', y) :: fs2 => (k = k' /\ trim x y /\ trim_members fs fs2) \/ trim_members fs fs'
  | [], _ :: _ => False
  end.

Lemma trim_arr l w : trim (JArr l) w <-> exists l', w = JArr l' /\ trim_items l l'.
Proof.
  destruct w; try (split; [done|intros (? & ? & ?); done]). 
  assert (trim (JArr l) (JArr l0) <-> trim_items l l0) as ->.
  { done. }
  split; [eauto|]. by intros (? & [= <-] & ?).
Qed.
Lemma trim_obj fs w : trim (JObj fs) w <-> exists fs', w = JObj fs' /\ trim_members fs fs'.
Proof.
  destruct w as [| | | | |fs0]; try (split; [done|intros (? & ? & ?); done]).
  assert (trim (JObj fs) (JObj fs0) <-> trim_members fs fs0) as ->.
  { done. }
  split; [eauto|]. by intros (? & [= <-] & ?).
Qed.

(** ** Projection trims *)
Section project_trims.
Variable StripMarkup : string -> string.

Lemma trim_members_nil fs : trim_members fs [].
Proof. by induction fs as [|[k x] fs IH]. Qed.

Lemma projectMap_trims rec fs ctx : Forall (fun kv => forall ctx name, trim (snd kv) (w_value (rec (snd kv) ctx name))) fs ->
  trim_members fs (w_value (projectMap rec fs ctx)).
Proof.
  induction fs as [|[k x] fs IH]; intros Hf; [done|]. apply Forall_cons in Hf as [Hx Hf]. cbn [projectMap].
  destruct (shouldSkipField k ctx); cbn [w_value].
  - specialize (IH Hf). cbn [trim_members]. destruct (w_value (projectMap rec fs ctx)) as [|[k' y] l]; [done|by right].
  - left. split; [done|]. split; [apply Hx|by apply IH].
Qed.

Lemma projectItems_trims rec l n : forall i ctx, Forall (fun x => forall ctx name, trim x (w_value (rec x ctx name))) l ->
  trim_items l (w_value (projectItems rec l n i ctx)).
Proof.
  revert n. induction l as [|x l IH]; intros n i ctx Hf; [done|]. apply Forall_cons in Hf as [Hx Hf].
  destruct n; cbn [projectItems w_value]; [done|]. cbn [trim_items]. split; [apply Hx|by apply IH].
Qed.

Lemma project_named_trims v : forall ctx name, trim v (w_value (project_named StripMarkup v ctx name)).
Proof.
  induction v as [| | | |l IH|fs IH] using json_ind'; intros ctx name; try done.
  - apply trim_arr. eexists. split; [reflexivity|]. unfold projectNamedArray. destruct (truncateArray _ _) as [kept original].
    destruct (Nat.ltb _ _); cbn [w_value]; by apply projectItems_trims.
  - apply trim_obj. eexists. split; [reflexivity|]. by apply projectMap_trims.
Qed.

(** The summary of a projection is a trimmed value. *)
Lemma Apply_trims v c d : trim v (Summary (Apply StripMarkup v c d)).
Proof. apply project_named_trims. Qed.
End project_trims.

(** ** The meaning of a schema *)
Section meaning.
(** What the model leaves open: which numbers are integers, which names a pattern matches,
    what the assertions on numbers say, and what the keywords say that loosening removes. *)
Variable is_integer : string -> bool.
Variable matches : string -> string -> bool.
Variable on_number : string -> json -> string -> bool.
Variable asserts : string -> json -> json -> bool.

Definition of_type (v : json) (t : string) : bool :=
  match v with
  | JNull => String.eqb t "null"
  | JBool _ => String.eqb t "boolean"
  | JNum n => String.eqb t "number" || (String.eqb t "integer" && is_integer n)
  | JStr _ => String.eqb t "string"
  | JArr _ => String.eqb t "array"
  | JObj _ => String.eqb t "object"
  end.

(** Membership in an [enum] of scalars other than strings. *)
Definition same_scalar (a b : json) : bool :=
  match a, b with
  | JNull, JNull => true
  | JBool x, JBool y => Bool.eqb x y
  | JNum x, JNum y => String.eqb x y
  | _, _ => false
  end.

(** The assertions that leaving out members, cutting arrays and strings, or adding the notice
    can break, from draft-04 to 2020-12. *)
Definition cutKeywords : list string :=
  ["required"; "dependentRequired"; "dependencies"; "minProperties"; "maxProperties"; "minLength"; "pattern"; "format";
   "minItems"; "contains"; "minContains"; "uniqueItems"; "maxItems"; "unevaluatedItems"].
Definition numericKeywords : list string := ["minimum"; "maximum"; "exclusiveMinimum"; "exclusiveMaximum"; "multipleOf"].
Definition annotations : list string :=
  ["title"; "description"; "$schema"; "$id"; "$comment"; "default"; "examples"; "deprecated"; "readOnly"; "writeOnly"; "$defs"; "definitions"].

Definition members_of (v : json) : list (string * json) := match v with JObj fs => fs | _ => [] end.
Definition items_of (v : json) : list json := match v with JArr l => l | _ => [] end.
Definition keys (fs : list (string * json)) : list string := map fst fs.
(** Is the member named by [properties] or matched by [patternProperties]? *)
Definition declared (schema : list (string * json)) (name : string) : bool :=
  mem name (keys (default [] (obj (get "properties" schema)))) ||
  existsb (fun re => matches re name) (keys (default [] (obj (get "patternProperties" schema)))).
(** Where [items] starts: after the positions of [prefixItems]. *)
Definition rest_from (schema : list (string * json)) : nat := List.length (default [] (arr (get "prefixItems" schema))).

Section keyword.
Variable valid : json -> json -> bool.

Fixpoint positional (subs l : list json) : bool :=
  match subs, l with
  | s :: subs, x :: l => valid s x && positional subs l
  | _, _ => true
  end.
Definition all_branches (kv : json) (v : json) : bool := match kv with JArr bs => forallb (fun b => valid b v) bs | _ => true end.
Definition some_branch (kv : json) (v : json) : bool := match kv with JArr bs => existsb (fun b => valid b v) bs | _ => true end.
Definition one_branch (kv : json) (v : json) : bool :=
  match kv with JArr bs => Nat.eqb (List.length (List.filter (fun b => valid b v) bs)) 1 | _ => true end.

(** What keyword [k] with value [kv] of [schema] says of [v]. *)
Definition keyword (schema : list (string * json)) (k : string) (kv v : json) : bool :=
  if String.eqb k "type" then
    match kv with JStr t => of_type v t | JArr ts => existsb (fun t => match t with JStr t => of_type v t | _ => false end) ts | _ => false end
  else if String.eqb k "enum" then match kv with JArr vs => existsb (fun x => same_scalar x v) vs | _ => true end
  else if String.eqb k "const" then same_scalar kv v
  else if String.eqb k "properties" then
    match kv with
    | JObj props => forallb (fun ps => forallb (fun m => if String.eqb (fst m) (fst ps) then valid (snd ps) (snd m) else true) (members_of v)) props
    | _ => true
    end
  else if String.eqb k "patternProperties" then
    match kv with
    | JObj props => forallb (fun ps => forallb (fun m => if matches (fst ps) (fst m) then valid (snd ps) (snd m) else true) (members_of v)) props
    | _ => true
    end
  else if String.eqb k "additionalProperties" then
    forallb (fun m => if declared schema (fst m) then true else valid kv (snd m)) (members_of v)
  else if String.eqb k "propertyNames" then forallb (fun m => valid kv (JStr (fst m))) (members_of v)
  else if String.eqb k "items" then
    match kv with JArr subs => positional subs (items_of v) | _ => forallb (valid kv) (drop (rest_from schema) (items_of v)) end
  else if String.eqb k "additionalItems" then
    match get "items" schema with Some (JArr subs) => forallb (valid kv) (drop (List.length subs) (items_of v)) | _ => true end
  else if String.eqb k "prefixItems" then match kv with JArr subs => positional subs (items_of v) | _ => true end
  else if String.eqb k "anyOf" then some_branch kv v
  else if String.eqb k "allOf" then all_branches kv v
  else if String.eqb k "oneOf" then one_branch kv v
  else if String.eqb k "not" then negb (valid kv v)
  else if String.eqb k "required" then
    match v, kv with
    | JObj fs, JArr names => forallb (fun n => match n with JStr n => has n fs | _ => true end) names
    | _, _ => true
    end
  else if mem k numericKeywords then match v with JNum n => on_number k kv n | _ => true end
  else if mem k annotations then true
  else asserts k kv v.
End keyword.

(** Booleans accept everything or nothing. *)
Fixpoint valid (schema v : json) {struct schema} : bool :=
  match schema with
  | JBool b => b
  | JObj kws => forallb (fun kw => keyword valid kws (fst kw) (snd kw) v) kws
  | _ => false
  end.
End meaning.

(** ** Objects as maps *)
Lemma get_in k v fs : get k fs = Some v -> (k, v) ∈ fs.
Proof.
  induction fs as [|[k' x] fs IH]; [done|]. cbn. destruct (String.eqb_spec k' k) as [->|]; [intros [= ->]; by left|right; auto].
Qed.
Lemma get_nodup k v fs : NoDup (keys fs) -> (k, v) ∈ fs -> get k fs = Some v.
Proof.
  induction fs as [|[k' x] fs IH]; intros Hnd Hin; [by apply elem_of_nil in Hin|]. apply NoDup_cons in Hnd as [Hni Hnd]. cbn.
  apply elem_of_cons in Hin as [[= -> ->]|Hin]; [by rewrite String.eqb_refl|].
  rewrite (proj2 (String.eqb_neq _ _)); [by apply IH|]. intros ->. apply Hni. apply list_elem_of_fmap. by exists (k, v).
Qed.
Lemma get_remove k key fs : get k (remove key fs) = if String.eqb k key then None else get k fs.
Proof.
  unfold remove. induction fs as [|[k' x] fs IH]; [by destruct (String.eqb k key)|]. cbn.
  destruct (String.eqb_spec k' key) as [->|Hne]; cbn [negb get]; rewrite IH.
  - destruct (String.eqb_spec k key) as [->|Hk]; [done|]. by rewrite (proj2 (String.eqb_neq key k)) by congruence.
  - destruct (String.eqb_spec k key) as [->|Hk]; [by rewrite (proj2 (String.eqb_neq k' key))|done].
Qed.
Lemma get_update k key v fs : get k (update key v fs) = if String.eqb k key && has key fs then Some v else get k fs.
Proof.
  unfold has. induction fs as [|[k' x] fs IH]; [by rewrite andb_false_r|]. cbn.
  destruct (String.eqb_spec k' key) as [->|Hne]; cbn [get].
  - destruct (String.eqb_spec k key) as [->|Hk]; [by rewrite String.eqb_refl|]. by rewrite (proj2 (String.eqb_neq key k)) by congruence.
  - destruct (String.eqb_spec k' k) as [->|Hk]; [|done]. by rewrite (proj2 (String.eqb_neq k key)).
Qed.
Lemma get_app k fs gs : get k (fs ++ gs) = match get k fs with Some v => Some v | None => get k gs end.
Proof. induction fs as [|[k' x] fs IH]; [done|]. cbn. by destruct (String.eqb k' k). Qed.
Lemma get_set k key v fs : get k (set key v fs) = if String.eqb k key then Some v else get k fs.
Proof.
  unfold set. destruct (has key fs) eqn:E; [rewrite get_update, E; by destruct (String.eqb k key)|].
  rewrite get_app. unfold has in E. destruct (String.eqb_spec k key) as [->|Hne].
  - destruct (get key fs); [done|]. cbn. by rewrite String.eqb_refl.
  - destruct (get k fs) eqn:Ek; [done|]. cbn. by rewrite (proj2 (String.eqb_neq key k)) by congruence.
Qed.

Lemma keys_update key v fs : keys (update key v fs) = keys fs.
Proof. induction fs as [|[k x] fs IH]; [done|]. unfold keys in *. cbn. destruct (String.eqb k key); cbn; congruence. Qed.
Lemma remove_nodup key fs : NoDup (keys fs) -> NoDup (keys (remove key fs)).
Proof.
  unfold remove. induction fs as [|[k x] fs IH]; [done|]. cbn. intros [Hni Hnd]%NoDup_cons. destruct (negb (String.eqb k key)); [|by apply IH].
  cbn. apply NoDup_cons. split; [|by apply IH]. intros Hin. apply Hni. apply list_elem_of_fmap in Hin as ([k' y] & -> & Hin).
  apply list_elem_of_fmap. exists (k', y). split; [done|]. apply list_elem_of_In, filter_In in Hin as [Hin _]. by apply list_elem_of_In.
Qed.
Lemma has_keys key fs : has key fs = true <-> key ∈ keys fs.
Proof.
  unfold has. split.
  - destruct (get key fs) as [v|] eqn:E; [|done]. intros _. apply get_in in E. apply list_elem_of_fmap. by exists (key, v).
  - intros ([k x] & -> & Hin)%list_elem_of_fmap. cbn. induction fs as [|[k' y] fs IH]; [by apply elem_of_nil in Hin|]. cbn.
    destruct (String.eqb_spec k' k) as [->|Hne]; [done|]. apply IH. by apply elem_of_cons in Hin as [[= -> ->]|?].
Qed.
Lemma set_nodup key v fs : NoDup (keys fs) -> NoDup (keys (set key v fs)).
Proof.
  unfold set. intros Hnd. destruct (has key fs) eqn:E; [by rewrite keys_update|]. unfold keys. rewrite map_app. apply NoDup_app. split; [done|].
  split; [|apply NoDup_singleton]. intros k Hk Hk2. cbn in Hk2. apply list_elem_of_singleton in Hk2 as ->. apply has_keys in Hk. by rewrite E in Hk.
Qed.

Lemma get_modify f fs key k : get k (modify f fs key) = if String.eqb k key then option_map f (get k fs) else get k fs.
Proof.
  unfold modify. destruct (get key fs) as [v|] eqn:E.
  - rewrite get_update. unfold has. rewrite E, andb_true_r. destruct (String.eqb_spec k key) as [->|]; [by rewrite E|done].
  - destruct (String.eqb_spec k key) as [->|]; [by rewrite E|done].
Qed.
Lemma modify_keys f fs key : keys (modify f fs key) = keys fs.
Proof. unfold modify. destruct (get key fs); [apply keys_update|done]. Qed.

Lemma mem_cons k a l : mem k (a :: l) = String.eqb k a || mem k l.
Proof. done. Qed.
Lemma mem_false k l : mem k l = false <-> k ∉ l.
Proof.
  induction l as [|a l IH]; [split; [intros _; apply not_elem_of_nil|done]|]. rewrite mem_cons, orb_false_iff, IH, String.eqb_neq, not_elem_of_cons. done.
Qed.
Lemma mem_true k l : mem k l = true <-> k ∈ l.
Proof. rewrite <- not_false_iff_true, mem_false. split; [apply dec_stable|auto]. Qed.

(** Several members changed in turn, each once. *)
Lemma get_modify_all f l : NoDup l -> forall fs k, get k (foldl (modify f) fs l) = if mem k l then option_map f (get k fs) else get k fs.
Proof.
  induction l as [|a l IH]; intros Hnd fs k; [done|]. apply NoDup_cons in Hnd as [Hni Hnd]. cbn [foldl]. rewrite IH by done. rewrite get_modify, mem_cons.
  destruct (String.eqb_spec k a) as [->|Hne]; cbn [orb]; [|done]. by rewrite (proj2 (mem_false a l)).
Qed.
Definition map_named (f : json -> json) (v : json) : json :=
  match v with JObj named => JObj (map (fun kv => (fst kv, f (snd kv))) named) | _ => v end.
Lemma modify_named_eq f fs key : NoDup (keys fs) -> modify_named f fs key = modify (map_named f) fs key.
Proof.
  intros Hnd. unfold modify_named, modify. destruct (get key fs) as [[]|] eqn:E; try done; cbn [obj map_named]; clear -E;
    (induction fs as [|[k x] fs IH]; [done|]; cbn in *; destruct (String.eqb k key); [by injection E as ->|by rewrite <- IH]).
Qed.
Lemma modify_named_keys f fs key : keys (modify_named f fs key) = keys fs.
Proof. unfold modify_named. destruct (obj _); [apply keys_update|done]. Qed.
Lemma get_modify_named_all f l : NoDup l -> forall fs k, NoDup (keys fs) ->
  get k (foldl (modify_named f) fs l) = if mem k l then option_map (map_named f) (get k fs) else get k fs.
Proof.
  intros Hnd fs k Hk. assert (foldl (modify_named f) fs l = foldl (modify (map_named f)) fs l) as ->; [|by apply get_modify_all].
  revert fs Hk. clear. induction l as [|a l IH]; intros fs Hk; [done|]. cbn [foldl]. rewrite modify_named_eq by done. apply IH. by rewrite modify_keys.
Qed.
Lemma get_remove_all l : forall fs k, get k (foldl (fun s k => remove k s) fs l) = if mem k l then None else get k fs.
Proof.
  induction l as [|a l IH]; intros fs k; [done|]. cbn [foldl]. rewrite IH, get_remove, mem_cons. destruct (String.eqb k a), (mem k l); done.
Qed.
Lemma fold_keys (f : list (string * json) -> string -> list (string * json)) l : (forall fs k, NoDup (keys fs) -> NoDup (keys (f fs k))) ->
  forall fs, NoDup (keys fs) -> NoDup (keys (foldl f fs l)).
Proof. intros Hf. induction l as [|a l IH]; intros fs Hnd; [done|]. cbn. auto. Qed.

(** ** What loosening does to a member *)
Definition loosened (f : json -> json) (kws : list (string * json)) (k : string) : option json :=
  if mem k trimSensitiveKeywords then None
  else if String.eqb k "oneOf" then None
  else if String.eqb k "anyOf" then option_map f match get "anyOf" kws with Some v => Some v | None => get "oneOf" kws end
  else if String.eqb k "allOf" then
    option_map f match get "oneOf" kws, get "anyOf" kws with
                 | Some branches, Some _ => Some (JArr (default [] (arr (get "allOf" kws)) ++ [JObj [("anyOf", branches)]]))
                 | _, _ => get "allOf" kws
                 end
  else if mem k subschemaKeys then option_map f (get k kws)
  else if mem k subschemaMapKeys then option_map (map_named f) (get k kws)
  else get k kws.

Lemma loosen_obj n kws : loosenSchema (S n) (JObj kws) = JObj (loosenSchemaObject (loosenSchema n) kws).
Proof. reflexivity. Qed.
Lemma loosen_arr n l : loosenSchema (S n) (JArr l) = JArr (map (loosenSchema n) l).
Proof. done. Qed.

Lemma get_oneOfToAnyOf fs k : get k (oneOfToAnyOf fs) =
  if String.eqb k "oneOf" then None
  else if String.eqb k "anyOf" then match get "anyOf" fs with Some v => Some v | None => get "oneOf" fs end
  else if String.eqb k "allOf" then
    match get "oneOf" fs, get "anyOf" fs with
    | Some branches, Some _ => Some (JArr (default [] (arr (get "allOf" fs)) ++ [JObj [("anyOf", branches)]]))
    | _, _ => get "allOf" fs
    end
  else get k fs.
Proof.
  unfold oneOfToAnyOf. destruct (get "oneOf" fs) as [b|] eqn:E1.
  - unfold has at 1. rewrite get_remove. cbn. destruct (get "anyOf" fs) as [a|] eqn:E2; cbn [negb]; rewrite get_set, !get_remove;
      destruct (String.eqb_spec k "oneOf") as [->|H1]; try done; destruct (String.eqb_spec k "anyOf") as [->|H2]; try done;
      destruct (String.eqb_spec k "allOf") as [->|H3]; done.
  - destruct (String.eqb_spec k "oneOf") as [->|H1]; [done|]. destruct (String.eqb_spec k "anyOf") as [->|H2]; [by destruct (get "anyOf" fs)|].
    by destruct (String.eqb_spec k "allOf") as [->|H3].
Qed.
Lemma oneOfToAnyOf_nodup fs : NoDup (keys fs) -> NoDup (keys (oneOfToAnyOf fs)).
Proof.
  intros Hnd. unfold oneOfToAnyOf. destruct (get "oneOf" fs); [|done]. destruct (negb _); apply set_nodup, remove_nodup, Hnd.
Qed.

Lemma loosen_members_nodup f kws : NoDup (keys kws) -> NoDup (keys (loosenSchemaObject f kws)).
Proof.
  intros Hnd. unfold loosenSchemaObject. apply fold_keys; [intros; by rewrite modify_named_keys|]. apply fold_keys; [intros; by rewrite modify_keys|].
  apply oneOfToAnyOf_nodup, fold_keys; [intros; by apply remove_nodup|done].
Qed.

Lemma loosen_members_get f kws k : NoDup (keys kws) -> get k (loosenSchemaObject f kws) = loosened f kws k.
Proof.
  intros Hnd. unfold loosenSchemaObject.
  assert (NoDup subschemaKeys /\ NoDup subschemaMapKeys) as [Hn1 Hn2] by (split; apply (bool_decide_unpack _); vm_compute; exact I).
  rewrite get_modify_named_all; [|done|apply fold_keys; [intros; by rewrite modify_keys|]; apply oneOfToAnyOf_nodup, fold_keys; [intros; by apply remove_nodup|done]].
  rewrite get_modify_all, get_oneOfToAnyOf by done. rewrite !get_remove_all. unfold loosened.
  change (mem "oneOf" trimSensitiveKeywords) with false. change (mem "anyOf" trimSensitiveKeywords) with false. change (mem "allOf" trimSensitiveKeywords) with false. cbv iota.
  destruct (String.eqb_spec k "oneOf") as [->|H1]; [done|]. destruct (String.eqb_spec k "anyOf") as [->|H2]; [done|].
  destruct (String.eqb_spec k "allOf") as [->|H3]; [done|]. destruct (mem k trimSensitiveKeywords); [by destruct (mem k subschemaMapKeys), (mem k subschemaKeys)|].
  destruct (mem k subschemaMapKeys) eqn:Em; [|done].
  assert (mem k subschemaKeys = false) as ->; [|done]. apply mem_true in Em. apply mem_false. revert k Em H1 H2 H3.
  assert (forallb (fun k => negb (mem k subschemaKeys)) subschemaMapKeys = true) as H by reflexivity. rewrite forallb_forall in H.
  intros k Hk _ _ _. apply list_elem_of_In in Hk. specialize (H k Hk). apply negb_true_iff in H. by apply mem_false.
Qed.


(** ** Which schemas the theorem is about *)

Definition plain_scalar (v : json) : bool := match v with JNull | JBool _ | JNum _ => true | _ => false end.

(** Every keyword is one of those the model gives a meaning to, [enum] and [const] list no
    strings, arrays or objects, and no key occurs twice.  Outside: references, negations and
    conditions, [additionalItems], the dependent and the unevaluated keywords. *)
Fixpoint in_scope (s : json) : bool :=
  match s with
  | JBool _ => true
  | JObj kws =>
      bool_decide (NoDup (keys kws)) &&
      forallb (fun kw =>
        if mem (fst kw) ["anyOf"; "allOf"; "oneOf"; "prefixItems"] then match snd kw with JArr l => forallb in_scope l | _ => false end
        else if String.eqb (fst kw) "items" then match snd kw with JArr l => forallb in_scope l | _ => in_scope (snd kw) end
        else if mem (fst kw) ["additionalProperties"; "propertyNames"] then in_scope (snd kw)
        else if mem (fst kw) ["properties"; "patternProperties"] then
          match snd kw with JObj named => forallb (fun m => in_scope (snd m)) named | _ => false end
        else if String.eqb (fst kw) "enum" then match snd kw with JArr l => forallb plain_scalar l | _ => false end
        else if String.eqb (fst kw) "const" then plain_scalar (snd kw)
        else mem (fst kw) ("type" :: cutKeywords ++ numericKeywords ++ annotations)) kws
  | _ => false
  end.

(** ** Trimmed values *)
Lemma trim_members_in fs fs' k y : trim_members fs fs' -> (k, y) ∈ fs' -> exists x, (k, x) ∈ fs /\ trim x y.
Proof.
  revert fs'. induction fs as [|[k0 x0] fs IH]; intros [|[k1 y1] fs'] Ht Hin; try (by apply elem_of_nil in Hin); [done|]. cbn [trim_members] in Ht.
  destruct Ht as [(-> & Hx & Ht)|Ht].
  - apply elem_of_cons in Hin as [[= -> ->]|Hin]; [exists x0; split; [by left|done]|]. destruct (IH _ Ht Hin) as (x & ? & ?). exists x. split; [by right|done].
  - destruct (IH _ Ht Hin) as (x & ? & ?). exists x. split; [by right|done].
Qed.
Lemma members_of_trim v w k y : trim v w -> (k, y) ∈ members_of w -> exists x, (k, x) ∈ members_of v /\ trim x y.
Proof.
  intros Ht Hin. destruct w; try (by apply elem_of_nil in Hin). destruct v; try done. apply trim_obj in Ht as (fs' & [= <-] & Ht).
  by eapply trim_members_in.
Qed.
Lemma trim_items_get l : forall l' i y, trim_items l l' -> l' !! i = Some y -> exists x, l !! i = Some x /\ trim x y.
Proof.
  induction l as [|x l IH]; intros [|y0 l'] i y Ht Hi; try done. cbn [trim_items] in Ht. destruct Ht as [Hx Ht].
  destruct i as [|i]; [injection Hi as <-; by exists x|]. cbn in *. by eapply IH.
Qed.
Lemma items_of_trim v w i y : trim v w -> items_of w !! i = Some y -> exists x, items_of v !! i = Some x /\ trim x y.
Proof.
  intros Ht Hi. destruct w; try done. destruct v; try done. apply trim_arr in Ht as (l' & [= <-] & Ht). by eapply trim_items_get.
Qed.
Lemma trim_str s : trim (JStr s) (JStr s).
Proof. done. Qed.
Lemma same_scalar_trim x v w : trim v w -> same_scalar x v = true -> same_scalar x w = true.
Proof. destruct v, w, x; cbn; try done; by intros ->. Qed.

Section sound.
Context (is_integer : string -> bool) (matches : string -> string -> bool) (on_number : string -> json -> string -> bool)
        (asserts : string -> json -> json -> bool).
#[local] Abbreviation ok := (valid is_integer matches on_number asserts).
#[local] Abbreviation kwd := (keyword is_integer matches on_number asserts ok).
#[local] Abbreviation typed := (of_type is_integer).

Lemma of_type_trim v w t : trim v w -> typed w t = typed v t.
Proof. destruct v, w; try done. by intros [= ->]. Qed.

Lemma valid_get kws v k kv : ok (JObj kws) v = true -> get k kws = Some kv -> kwd kws k kv v = true.
Proof. cbn [valid]. rewrite forallb_forall. intros H Hg. apply (H (k, kv)). by apply list_elem_of_In, get_in. Qed.
Lemma valid_from_get kws v : NoDup (keys kws) -> (forall k kv, get k kws = Some kv -> kwd kws k kv v = true) -> ok (JObj kws) v = true.
Proof.
  intros Hnd H. cbn [valid]. apply forallb_forall. intros [k kv] Hin. apply list_elem_of_In in Hin. apply H. by apply get_nodup.
Qed.
Lemma scope_nodup kws : in_scope (JObj kws) = true -> NoDup (keys kws).
Proof. cbn [in_scope]. rewrite andb_true_iff. intros [H _]. by apply bool_decide_eq_true in H. Qed.

(** What the scope says of one member, by its key. *)
Definition member_scope (k : string) (kv : json) : bool :=
  if mem k ["anyOf"; "allOf"; "oneOf"; "prefixItems"] then match kv with JArr l => forallb in_scope l | _ => false end
  else if String.eqb k "items" then match kv with JArr l => forallb in_scope l | _ => in_scope kv end
  else if mem k ["additionalProperties"; "propertyNames"] then in_scope kv
  else if mem k ["properties"; "patternProperties"] then match kv with JObj named => forallb (fun m => in_scope (snd m)) named | _ => false end
  else if String.eqb k "enum" then match kv with JArr l => forallb plain_scalar l | _ => false end
  else if String.eqb k "const" then plain_scalar kv
  else mem k ("type" :: cutKeywords ++ numericKeywords ++ annotations).
Lemma scope_get kws k kv : in_scope (JObj kws) = true -> get k kws = Some kv -> member_scope k kv = true.
Proof.
  cbn [in_scope]. rewrite andb_true_iff, forallb_forall. intros [_ H] Hg. apply (H (k, kv)). by apply list_elem_of_In, get_in.
Qed.

(** ** Each keyword, for a trimmed value *)
Section step.
Variable f : json -> json.
(** [good s]: what [s] accepts, [f s] accepts once trimmed. *)
Definition good (s : json) : Prop := forall v w, trim v w -> ok s v = true -> ok (f s) w = true.

Lemma forall_members (P Q : string * json -> bool) v w : trim v w -> forallb P (members_of v) = true ->
  (forall k x y, trim x y -> P (k, x) = true -> Q (k, y) = true) -> forallb Q (members_of w) = true.
Proof.
  intros Ht HP H. apply forallb_forall. intros [k y] Hin. apply list_elem_of_In in Hin. destruct (members_of_trim _ _ _ _ Ht Hin) as (x & Hx & Hxy).
  apply (H k x y Hxy). rewrite forallb_forall in HP. apply HP. by apply list_elem_of_In.
Qed.
Lemma forall_items (P Q : json -> bool) n v w : trim v w -> forallb P (drop n (items_of v)) = true ->
  (forall x y, trim x y -> P x = true -> Q y = true) -> forallb Q (drop n (items_of w)) = true.
Proof.
  intros Ht HP H. apply forallb_forall. intros y Hin. apply list_elem_of_In, list_elem_of_lookup in Hin as [i Hi]. rewrite lookup_drop in Hi.
  destruct (items_of_trim _ _ _ _ Ht Hi) as (x & Hx & Hxy). apply (H x y Hxy). rewrite forallb_forall in HP. apply HP, list_elem_of_In, list_elem_of_lookup.
  exists i. by rewrite lookup_drop.
Qed.
Lemma positional_get (val : json -> json -> bool) subs l : positional val subs l = true <->
  forall i s x, subs !! i = Some s -> l !! i = Some x -> val s x = true.
Proof.
  revert l. induction subs as [|s subs IH]; intros l; [split; [intros _ i ? ? Hi; done|done]|]. destruct l as [|x l]; [split; [intros _ i ? ? _ Hi; done|done]|].
  cbn [positional]. rewrite andb_true_iff, IH. split.
  - intros [H1 H2] [|i] s' x' Hs Hx; cbn in *; [by simplify_eq|by eapply H2].
  - intros H. split; [by apply (H 0%nat)|]. intros i s' x' Hs Hx. by apply (H (S i)).
Qed.
Lemma positional_trim subs v w : trim v w -> (forall s, s ∈ subs -> good s) ->
  positional ok subs (items_of v) = true -> positional ok (map f subs) (items_of w) = true.
Proof.
  intros Ht Hg. rewrite !positional_get. intros H i s y Hs Hy. rewrite list_lookup_fmap in Hs. apply fmap_Some in Hs as (s0 & Hs0 & ->).
  destruct (items_of_trim _ _ _ _ Ht Hy) as (x & Hx & Hxy). refine (Hg s0 _ x y Hxy _); [by eapply list_elem_of_lookup_2|eauto].
Qed.
Lemma some_branch_trim bs v w : trim v w -> (forall s, s ∈ bs -> good s) -> existsb (fun b => ok b v) bs = true ->
  existsb (fun b => ok b w) (map f bs) = true.
Proof.
  intros Ht Hg. rewrite !existsb_exists. intros (b & Hin & Hb). exists (f b). split; [by apply in_map|].
  refine (Hg b _ v w Ht Hb). by apply list_elem_of_In.
Qed.
Lemma all_branches_trim bs v w : trim v w -> (forall s, s ∈ bs -> good s) -> forallb (fun b => ok b v) bs = true ->
  forallb (fun b => ok b w) (map f bs) = true.
Proof.
  intros Ht Hg. rewrite !forallb_forall. intros H b (b0 & <- & Hin)%in_map_iff. refine (Hg b0 _ v w Ht _); [by apply list_elem_of_In|eauto].
Qed.
Lemma one_some bs v : Nat.eqb (List.length (List.filter (fun b => ok b v) bs)) 1 = true -> existsb (fun b => ok b v) bs = true.
Proof.
  intros H. apply Nat.eqb_eq in H. destruct (List.filter _ bs) as [|b l] eqn:E; [done|]. apply existsb_exists. exists b.
  assert (In b (List.filter (fun b => ok b v) bs)) as Hin by (rewrite E; by left). by apply filter_In in Hin.
Qed.
Lemma named_trim (p : string -> string -> bool) named v w : trim v w -> (forall m, m ∈ named -> good (snd m)) ->
  forallb (fun ps => forallb (fun m => if p (fst ps) (fst m) then ok (snd ps) (snd m) else true) (members_of v)) named = true ->
  forallb (fun ps => forallb (fun m => if p (fst ps) (fst m) then ok (snd ps) (snd m) else true) (members_of w))
    (map (fun kv => (fst kv, f (snd kv))) named) = true.
Proof.
  intros Ht Hg. rewrite !forallb_forall. intros H ps' (ps & <- & Hin)%in_map_iff. cbn [fst snd].
  eapply forall_members; [exact Ht|by apply H|]. intros k x y Hxy. cbn [fst snd]. destruct (p (fst ps) k); [|done].
  intros Hv. refine (Hg ps _ x y Hxy Hv). by apply list_elem_of_In.
Qed.
Lemma keys_map_named (named : list (string * json)) : keys (map (fun kv => (fst kv, f (snd kv))) named) = keys named.
Proof. unfold keys. rewrite map_map. done. Qed.
End step.

(** ** Sizes: a subschema is lower than the schema it is in. *)
Lemma height_item x l : x ∈ l -> (height x < height (JArr l))%nat.
Proof. induction 1 as [|x y l _ IH]; cbn [height foldr] in *; lia. Qed.
Lemma height_member k x fs : (k, x) ∈ fs -> (height x < height (JObj fs))%nat.
Proof.
  induction fs as [|[k' y] fs IH]; intros Hin; [by apply elem_of_nil in Hin|]. apply elem_of_cons in Hin as [[= -> ->]|Hin]; cbn [height foldr snd]; [lia|].
  specialize (IH Hin). cbn [height] in IH. lia.
Qed.
Lemma height_get k x fs : get k fs = Some x -> (height x < height (JObj fs))%nat.
Proof. intros H. by eapply height_member, get_in. Qed.

Section level.
(** One object: [n] is the fuel left for its members. *)
Context (n : nat) (kws : list (string * json)).
Hypothesis Hscope : in_scope (JObj kws) = true.
Hypothesis Hfuel : (3 * height (JObj kws) <= S n)%nat.
Hypothesis IH : forall m s, (m <= n)%nat -> (3 * height s <= m)%nat -> in_scope s = true -> good (loosenSchema m) s.
#[local] Abbreviation f := (loosenSchema n).
#[local] Abbreviation loose := (loosenSchemaObject f kws).

Lemma get_loose k : get k loose = loosened f kws k.
Proof. apply loosen_members_get, scope_nodup, Hscope. Qed.

Lemma child_good k kv : get k kws = Some kv -> in_scope kv = true -> good f kv.
Proof. intros Hg Hs. apply (IH n kv); [lia| |done]. apply height_get in Hg. lia. Qed.

Lemma array_child k l : get k kws = Some (JArr l) -> exists m, n = S m /\ f (JArr l) = JArr (map (loosenSchema m) l) /\
  (forallb in_scope l = true -> forall s, s ∈ l -> good (loosenSchema m) s).
Proof.
  intros Hg. apply height_get in Hg. destruct n as [|m]; [lia|]. exists m. split; [done|]. split; [done|]. intros Hs s Hin.
  apply IH; [lia| |]; [apply height_item in Hin; lia|]. rewrite forallb_forall in Hs. apply Hs. by apply list_elem_of_In.
Qed.
Lemma named_child k named : get k kws = Some (JObj named) -> forallb (fun m => in_scope (snd m)) named = true -> forall m, m ∈ named -> good f (snd m).
Proof.
  intros Hg Hs [k' s] Hin. apply height_get in Hg. apply IH; [lia| |]; [apply height_member in Hin; cbn [snd]; lia|]. rewrite forallb_forall in Hs.
  by apply (Hs (k', s)), list_elem_of_In.
Qed.

Lemma declared_loose name : declared matches loose name = declared matches kws name.
Proof.
  unfold declared. rewrite !get_loose. unfold loosened. cbn [mem existsb trimSensitiveKeywords subschemaKeys subschemaMapKeys String.eqb Ascii.eqb Bool.eqb orb].
  f_equal; [destruct (get "properties" kws) as [[]|]|destruct (get "patternProperties" kws) as [[]|]]; try done; cbn [option_map map_named obj from_option id];
    by rewrite keys_map_named.
Qed.
Lemma rest_from_loose : rest_from loose = rest_from kws.
Proof.
  unfold rest_from. rewrite get_loose. change (loosened f kws "prefixItems") with (option_map f (get "prefixItems" kws)).
  destruct (get "prefixItems" kws) as [v|] eqn:E; [|done]. pose proof (scope_get _ _ _ Hscope E) as Hs. destruct v as [| | | |l|]; try done.
  destruct (array_child _ _ E) as (m & _ & Hf & _). cbn [option_map]. rewrite Hf. cbn. by rewrite length_map.
Qed.

Context (v w : json).
Hypothesis Ht : trim v w.
Hypothesis Hv : ok (JObj kws) v = true.

Lemma keyword_of k kv : get k kws = Some kv -> kwd kws k kv v = true.
Proof. by apply valid_get. Qed.

Lemma branches_any k l : get k kws = Some (JArr l) -> forallb in_scope l = true -> existsb (fun b => ok b v) l = true ->
  some_branch ok (f (JArr l)) w = true.
Proof.
  intros Hg Hs Hb. destruct (array_child _ _ Hg) as (m & _ & -> & Hgood). cbn [some_branch]. eapply some_branch_trim; eauto.
Qed.

Lemma loose_any kv : get "anyOf" loose = Some kv -> some_branch ok kv w = true.
Proof.
  rewrite get_loose. change (loosened f kws "anyOf") with (option_map f match get "anyOf" kws with Some v => Some v | None => get "oneOf" kws end).
  destruct (get "anyOf" kws) as [bs|] eqn:E.
  - intros [= <-]. pose proof (keyword_of _ _ E) as Hk. pose proof (scope_get _ _ _ Hscope E) as Hs. destruct bs; try done. by eapply branches_any.
  - destruct (get "oneOf" kws) as [bs|] eqn:E1; [|done]. intros [= <-]. pose proof (keyword_of _ _ E1) as Hk.
    pose proof (scope_get _ _ _ Hscope E1) as Hs. destruct bs; try done. eapply branches_any; [done|done|]. by apply one_some.
Qed.

Lemma loose_all kv : get "allOf" loose = Some kv -> all_branches ok kv w = true.
Proof.
  rewrite get_loose. change (loosened f kws "allOf") with
    (option_map f match get "oneOf" kws, get "anyOf" kws with
       | Some branches, Some _ => Some (JArr (default [] (arr (get "allOf" kws)) ++ [JObj [("anyOf", branches)]]))
       | _, _ => get "allOf" kws end).
  assert (forall l, get "allOf" kws = Some (JArr l) -> exists m, n = S m /\ forallb (fun b => ok b w) (map (loosenSchema m) l) = true) as Hplain.
  { intros l E. pose proof (keyword_of _ _ E) as Hk. pose proof (scope_get _ _ _ Hscope E) as Hs.
    destruct (array_child _ _ E) as (m & -> & _ & Hgood). exists m. split; [done|]. eapply all_branches_trim; eauto. }
  assert (forall b, get "allOf" kws = Some b -> exists l, b = JArr l) as Harr.
  { intros b E. pose proof (scope_get _ _ _ Hscope E) as Hs. destruct b; try done. eauto. }
  destruct (get "oneOf" kws) as [ones|] eqn:E1, (get "anyOf" kws) as [anys|] eqn:E2;
    [|intros Hb; destruct (get "allOf" kws) as [b|] eqn:E3; [|done]; destruct (Harr b eq_refl) as [l ->]; destruct (Hplain l eq_refl) as (m & Hm & Hl);
      rewrite Hm in Hb; injection Hb as <-; exact Hl ..].
  intros [= <-]. pose proof (keyword_of _ _ E1) as Hk. pose proof (scope_get _ _ _ Hscope E1) as Hs. destruct ones as [| | | |l|]; try done.
  pose proof (one_some l v Hk) as Hany.
  pose proof (height_get _ _ _ E1) as Hh. assert (1 <= height (JArr l))%nat by (cbn [height]; lia). destruct n as [|[|[|m]]]; [lia..|].
  rewrite loosen_arr. cbn [all_branches]. rewrite map_app, forallb_app, andb_true_iff. split.
  - destruct (get "allOf" kws) as [b|] eqn:E3; [|done]. destruct (Harr b eq_refl) as [l3 ->]. destruct (Hplain l3 eq_refl) as (m' & [= <-] & Hl). exact Hl.
  - cbn [map forallb]. rewrite andb_true_r, loosen_obj. change (loosenSchemaObject (loosenSchema (S m)) [("anyOf", JArr l)]) with [("anyOf", loosenSchema (S m) (JArr l))].
    rewrite loosen_arr. cbn [valid forallb fst snd]. rewrite andb_true_r. change (some_branch ok (JArr (map (loosenSchema m) l)) w = true).
    eapply some_branch_trim; [exact Ht| |exact Hany]. intros s Hin. apply IH; [lia| |].
    + apply height_get in E1. apply height_item in Hin. lia.
    + change (forallb in_scope l = true) in Hs. rewrite forallb_forall in Hs. by apply Hs, list_elem_of_In.
Qed.


(** [items] with one schema, for the positions that follow [prefixItems]. *)
Lemma loose_rest kv : in_scope kv = true -> good f kv -> forallb (ok kv) (drop (rest_from kws) (items_of v)) = true -> kwd loose "items" (f kv) w = true.
Proof.
  intros Hs Hgood Hall. assert (kwd loose "items" (f kv) w = forallb (ok (f kv)) (drop (rest_from loose) (items_of w))) as ->.
  { destruct n, kv; try done. }
  rewrite rest_from_loose. eapply forall_items; [exact Ht|exact Hall|]. intros x y Hxy Hx. exact (Hgood x y Hxy Hx).
Qed.

(** Every one of the assertions that could break is removed. *)
Lemma cut_removed k : mem k cutKeywords = true -> mem k trimSensitiveKeywords = true.
Proof.
  rewrite !mem_true. revert k. apply Forall_forall. apply (bool_decide_unpack _). vm_compute. exact I.
Qed.

(** The keywords that loosening keeps as they are. *)
Lemma plain_keyword k kv0 kv : mem k trimSensitiveKeywords = false ->
  (if mem k subschemaKeys then Some (f kv0) else if mem k subschemaMapKeys then Some (map_named f kv0) else Some kv0) = Some kv ->
  (if String.eqb k "enum" then match kv0 with JArr l => forallb plain_scalar l | _ => false end
   else if String.eqb k "const" then plain_scalar kv0
   else mem k ("type" :: cutKeywords ++ numericKeywords ++ annotations)) = true ->
  kwd kws k kv0 v = true -> kwd loose k kv w = true.
Proof.
  intros Hts Hl Hs Hk. destruct (String.eqb_spec k "enum") as [->|H1].
  { injection Hl as <-. destruct kv0 as [| | | |l|]; try done. change (existsb (fun x => same_scalar x w) l = true).
    change (existsb (fun x => same_scalar x v) l = true) in Hk. apply existsb_exists in Hk as (x & Hin & Hx). apply existsb_exists. exists x.
    split; [done|]. by eapply same_scalar_trim. }
  destruct (String.eqb_spec k "const") as [->|H2].
  { injection Hl as <-. change (same_scalar kv0 w = true). by eapply same_scalar_trim. }
  rewrite mem_cons in Hs. apply orb_true_iff in Hs as [->%String.eqb_eq|Hs].
  { injection Hl as <-. destruct kv0 as [| | |t|ts|]; try done.
    - change (typed w t = true). rewrite (of_type_trim v w) by done. exact Hk.
    - change (existsb (fun t => match t with JStr t => typed w t | _ => false end) ts = true). rewrite <- Hk. change (kwd kws "type" (JArr ts) v) with
        (existsb (fun t => match t with JStr t => typed v t | _ => false end) ts). clear -Ht. induction ts as [|t ts IH]; [done|]. cbn [existsb]. rewrite IH. f_equal.
      destruct t; try done. by apply of_type_trim. }
  apply mem_true in Hs. apply elem_of_app in Hs as [Hs|Hs]; [by apply mem_true, cut_removed in Hs; rewrite Hs in Hts|].
  apply elem_of_app in Hs as [Hs|Hs]; repeat (apply elem_of_cons in Hs as [->|Hs]); try (by apply elem_of_nil in Hs); try reflexivity;
    injection Hl as <-; destruct w; try reflexivity; destruct v; try done; cbn in Ht; subst; exact Hk.
Qed.

(** The keys the scope allows, one by one. *)
Lemma loose_keyword k kv : get k loose = Some kv -> kwd loose k kv w = true.
Proof.
  intros Hl. destruct (decide (k = "anyOf")) as [->|H1]; [by apply loose_any|]. destruct (decide (k = "allOf")) as [->|H2]; [by apply loose_all|].
  rewrite get_loose in Hl. unfold loosened in Hl. destruct (mem k trimSensitiveKeywords) eqn:Hts; [done|].
  rewrite (proj2 (String.eqb_neq k "anyOf")), (proj2 (String.eqb_neq k "allOf")) in Hl by done.
  destruct (String.eqb_spec k "oneOf") as [->|H3]; [done|].
  assert (exists kv0, get k kws = Some kv0) as [kv0 Hg] by (destruct (get k kws) as [x|]; [by exists x|by destruct (mem k subschemaKeys), (mem k subschemaMapKeys)]).
  pose proof (scope_get _ _ _ Hscope Hg) as Hs. pose proof (keyword_of _ _ Hg) as Hk. rewrite Hg in Hl. cbn [option_map] in Hl.
  unfold member_scope in Hs. cbn [mem existsb] in Hs.
  destruct (String.eqb_spec k "prefixItems") as [->|H4].
  { destruct kv0 as [| | | |l|]; try done. destruct (array_child _ _ Hg) as (m & -> & Hf & Hgood). cbn in Hl. injection Hl as <-.
    change (positional ok (map (loosenSchema m) l) (items_of w) = true). eapply positional_trim; [exact Ht|by apply Hgood|exact Hk]. }
  destruct (String.eqb_spec k "items") as [->|H5].
  { change (Some (f kv0) = Some kv) in Hl. injection Hl as <-. destruct (decide (in_scope kv0 = true)) as [Hsub|Hsub].
    - apply (loose_rest kv0); [done|by apply (child_good _ _ Hg)|]. by destruct kv0.
    - destruct kv0 as [| | | |l|]; try done. destruct (array_child _ _ Hg) as (m & -> & -> & Hgood).
      change (positional ok (map (loosenSchema m) l) (items_of w) = true). eapply positional_trim; [exact Ht|by apply Hgood|exact Hk]. }
  destruct (String.eqb_spec k "additionalProperties") as [->|H6].
  { change (Some (f kv0) = Some kv) in Hl. injection Hl as <-. pose proof (child_good _ _ Hg Hs) as Hgood.
    refine (forall_members _ _ v w Ht Hk _). intros name x y Hxy. cbn [fst snd]. rewrite declared_loose. destruct (declared matches kws name); [done|].
    intros Hx. exact (Hgood x y Hxy Hx). }
  destruct (String.eqb_spec k "propertyNames") as [->|H7].
  { change (Some (f kv0) = Some kv) in Hl. injection Hl as <-. pose proof (child_good _ _ Hg Hs) as Hgood.
    refine (forall_members _ _ v w Ht Hk _). intros name x y _. cbn [fst snd]. by apply Hgood. }
  destruct (String.eqb_spec k "properties") as [->|H8].
  { change (Some (map_named f kv0) = Some kv) in Hl. injection Hl as <-. destruct kv0 as [| | | | |named]; try done.
    refine (named_trim f (fun p name => String.eqb name p) named v w Ht _ Hk). by apply (named_child _ _ Hg). }
  destruct (String.eqb_spec k "patternProperties") as [->|H9].
  { change (Some (map_named f kv0) = Some kv) in Hl. injection Hl as <-. destruct kv0 as [| | | | |named]; try done.
    refine (named_trim f matches named v w Ht _ Hk). by apply (named_child _ _ Hg). }
  rewrite !(proj2 (String.eqb_neq k _)) in Hs by done. cbn [orb] in Hs. by eapply plain_keyword.
Qed.

End level.

(** With enough fuel, what a schema accepts its loosened form accepts trimmed. *)
Lemma loosen_sound n : forall s, (3 * height s <= n)%nat -> in_scope s = true -> good (loosenSchema n) s.
Proof.
  induction n as [n IH] using (well_founded_induction lt_wf). intros s Hn Hs v w Ht Hv. destruct n as [|n]; [destruct s; cbn [height] in Hn; lia|].
  destruct s as [|b| | | |kws]; try done. rewrite loosen_obj. apply valid_from_get; [by apply loosen_members_nodup, scope_nodup|].
  assert (forall m s, (m <= n)%nat -> (3 * height s <= m)%nat -> in_scope s = true -> good (loosenSchema m) s) as Hrec by (intros m s Hm; apply IH; lia).
  intros k kv Hk. exact (loose_keyword n kws Hs Hn Hrec v w Ht Hv k kv Hk).
Qed.
End sound.
