(* ===== verification/NoticeSchema.v ===== *)
(** * The notice in a result satisfies the announced schema

    [placeMiniNotice] makes room for the notice that [carry] puts into a trimmed result, and
    [setProxyOutputSchema] as a whole: what a tool's schema accepts, the announced schema
    accepts trimmed, with or without the notice. *)
From S2P Require Import Prelude GoStr Float64 GoStd Config ExcludePath Jq Response Projection JsonTree OutputSchema ResultDoc OutputSchemaProps.

(** ** Results with and without the notice *)
Inductive delivered (n : json) : json -> json -> Prop :=
| as_is w : has "__mini" (members_of w) = false -> delivered n w w
| in_object fs fs' : has "__mini" fs = false -> fs' ≡ₚ ("__mini", n) :: fs -> delivered n (JObj fs) (JObj fs')
| at_end l : delivered n (JArr l) (JArr (l ++ [JObj [("__mini", n)]])).
#[export] Hint Constructors delivered : core.

Lemma delivered_members n w cw k y : delivered n w cw -> (k, y) ∈ members_of cw -> ((k, y) ∈ members_of w /\ k <> "__mini") \/ (k = "__mini" /\ y = n).
Proof.
  assert (forall fs, has "__mini" fs = false -> (k, y) ∈ fs -> k <> "__mini") as Hfree.
  { intros fs Hf Hin ->. assert (has "__mini" fs = true) as E; [|by rewrite E in Hf]. apply has_keys, list_elem_of_fmap. by exists ("__mini", y). }
  destruct 1 as [w Hf|fs fs' Hf Hp|l]; intros Hin.
  - left. eauto.
  - cbn [members_of] in *. rewrite Hp in Hin. apply elem_of_cons in Hin as [[= -> ->]|Hin]; [by right|left; eauto].
  - by apply elem_of_nil in Hin.
Qed.
Lemma delivered_items n w cw y : delivered n w cw -> y ∈ items_of cw -> y ∈ items_of w \/ y = JObj [("__mini", n)].
Proof.
  destruct 1; intros Hin; [by left|by left|]. cbn [items_of] in *. apply elem_of_app in Hin as [Hin|Hin]; [by left|right]. by apply list_elem_of_singleton in Hin.
Qed.
Definition container (v : json) : bool := match v with JArr _ | JObj _ => true | _ => false end.
Lemma delivered_scalar n w cw : delivered n w cw -> container w = false -> cw = w.
Proof. by destruct 1. Qed.

(** ** The schemas considered: keywords as after loosening, and no [__mini] of the tool's own. *)
Fixpoint carries (s : json) : bool :=
  match s with
  | JBool _ => true
  | JObj kws =>
      bool_decide (NoDup (keys kws)) &&
      forallb (fun kw =>
        if mem (fst kw) ["anyOf"; "allOf"] then match snd kw with JArr l => forallb carries l | _ => false end
        else if String.eqb (fst kw) "properties" then match snd kw with JObj named => negb (has "__mini" named) | _ => false end
        else if String.eqb (fst kw) "enum" then match snd kw with JArr l => forallb plain_scalar l | _ => false end
        else if String.eqb (fst kw) "const" then plain_scalar (snd kw)
        else mem (fst kw) ("type" :: "items" :: "prefixItems" :: "additionalProperties" :: numericKeywords ++ annotations)) kws
  | _ => false
  end.
Definition member_carries (k : string) (kv : json) : bool :=
  if mem k ["anyOf"; "allOf"] then match kv with JArr l => forallb carries l | _ => false end
  else if String.eqb k "properties" then match kv with JObj named => negb (has "__mini" named) | _ => false end
  else if String.eqb k "enum" then match kv with JArr l => forallb plain_scalar l | _ => false end
  else if String.eqb k "const" then plain_scalar kv
  else mem k ("type" :: "items" :: "prefixItems" :: "additionalProperties" :: numericKeywords ++ annotations).
Lemma carries_get kws k kv : carries (JObj kws) = true -> get k kws = Some kv -> member_carries k kv = true.
Proof. cbn [carries]. rewrite andb_true_iff, forallb_forall. intros [_ H] Hg. apply (H (k, kv)). by apply list_elem_of_In, get_in. Qed.
Lemma carries_nodup kws : carries (JObj kws) = true -> NoDup (keys kws).
Proof. cbn [carries]. rewrite andb_true_iff. intros [H _]. by apply bool_decide_eq_true in H. Qed.
Lemma carries_branch kws k l s : carries (JObj kws) = true -> mem k ["anyOf"; "allOf"] = true -> get k kws = Some (JArr l) -> s ∈ l -> carries s = true.
Proof.
  intros Hc Hk Hg Hin. pose proof (carries_get _ _ _ Hc Hg) as H. unfold member_carries in H. rewrite Hk, forallb_forall in H. by apply H, list_elem_of_In.
Qed.

(** ** The members of a placed schema *)
Lemma placeMiniProperty_get kws k : carries (JObj kws) = true -> get k (placeMiniProperty kws) =
  if String.eqb k "properties" then Some (JObj (set "__mini" miniOutputMetaSchema (schemaProperties kws))) else get k kws.
Proof.
  intros Hc. unfold placeMiniProperty. rewrite get_set. destruct (String.eqb_spec k "properties") as [->|]; [|done].
  assert (has "__mini" (schemaProperties kws) = false) as ->; [|done]. unfold schemaProperties. destruct (get "properties" kws) as [v|] eqn:E; [|done].
  apply (carries_get _ _ _ Hc) in E. destruct v; try done. by apply negb_true_iff in E.
Qed.

Lemma placeMiniItem_get kws kws' : placeMiniItem kws = Some kws' -> NoDup (keys kws) ->
  get "prefixItems" kws = None /\ NoDup (keys kws') /\
  (get "items" kws = None \/ get "items" kws = Some (JBool true) \/ exists i, get "items" kws = Some (JObj i)) /\
  forall k, get k kws' = match get "items" kws with
                         | Some (JObj i) => if String.eqb k "items" then Some (JObj [("anyOf", JArr [JObj i; miniNoticeItemSchema])]) else get k kws
                         | _ => get k kws
                         end.
Proof.
  unfold placeMiniItem, has. destruct (get "prefixItems" kws); [done|]. destruct (get "items" kws) as [[|[]| | | |i]|] eqn:E; try done; intros [= <-] Hnd;
    (split; [done|]; split; [by try apply set_nodup|]; split; [by eauto|]); intros k; try done. by rewrite get_set.
Qed.

Lemma place_branches_get f kws kws' key : place_branches f kws key = Some kws' -> NoDup (keys kws) ->
  NoDup (keys kws') /\
  forall k, (k <> key -> get k kws' = get k kws) /\
    (k = key -> get k kws' = get k kws /\ arr (get k kws) = None \/
       exists bs bs', get k kws = Some (JArr bs) /\ mapM f bs = Some bs' /\ get k kws' = Some (JArr bs')).
Proof.
  unfold place_branches. destruct (arr (get key kws)) as [bs|] eqn:E.
  - assert (get key kws = Some (JArr bs)) as Hg by (destruct (get key kws) as [[]|]; try done; cbn in E; congruence).
    destruct (mapM f bs) as [bs'|] eqn:Em; [|done]. cbn. intros [= <-] Hnd. split; [by rewrite keys_update|]. intros k. rewrite get_update. unfold has. rewrite Hg. split.
    + intros Hne. by rewrite (proj2 (String.eqb_neq k key)).
    + intros ->. right. exists bs, bs'. rewrite String.eqb_refl. done.
  - intros [= <-] Hnd. split; [done|]. intros k. split; [done|]. intros ->. by left.
Qed.

(** ** Soundness of the placement *)
Section place.
Context (is_integer : string -> bool) (matches : string -> string -> bool) (on_number : string -> json -> string -> bool)
        (asserts : string -> json -> json -> bool).
#[local] Abbreviation ok := (valid is_integer matches on_number asserts).
#[local] Abbreviation kwd := (keyword is_integer matches on_number asserts ok).
#[local] Abbreviation typed := (of_type is_integer).

Variable n : json.
Hypothesis Hn : ok miniOutputMetaSchema n = true.

Lemma notice_item_ok : ok miniNoticeItemSchema (JObj [("__mini", n)]) = true.
Proof.
  change (ok miniNoticeItemSchema (JObj [("__mini", n)])) with (((ok miniOutputMetaSchema n && true) && true) && (true && true)).
  by rewrite Hn.
Qed.

Lemma of_type_delivered w cw t : delivered n w cw -> typed cw t = typed w t.
Proof. by destruct 1. Qed.
Lemma type_keyword w cw kv kws kws' : delivered n w cw -> kwd kws "type" kv w = true -> kwd kws' "type" kv cw = true.
Proof.
  intros Hd. destruct kv as [| | |t|ts|]; try done; [change (typed w t = true -> typed cw t = true); by rewrite (of_type_delivered w cw)|].
  change (existsb (fun t => match t with JStr t => typed w t | _ => false end) ts = true -> existsb (fun t => match t with JStr t => typed cw t | _ => false end) ts = true).
  rewrite !existsb_exists. intros (t & Hin & Ht). exists t. split; [done|]. destruct t; try done. by rewrite (of_type_delivered w cw).
Qed.

(** A type that leaves out objects or arrays lets none through. *)
Lemma type_excludes kws w : ok (JObj kws) w = true -> has "type" kws = true ->
  (typeIncludes kws "object" = false -> members_of w = [] /\ (forall fs, w <> JObj fs)) /\ (typeIncludes kws "array" = false -> forall l, w <> JArr l).
Proof.
  intros Hv. unfold has, typeIncludes. destruct (get "type" kws) as [kv|] eqn:E; [|done]. intros _. pose proof (valid_get _ _ _ _ _ _ _ _ Hv E) as Hk.
  assert (forall name, (match kv with JStr t => String.eqb t name | JArr l => existsb (is_str name) l | _ => false end) = false -> typed w name = true ->
    (forall t, typed w t = true -> t = name) -> False) as Hno.
  { intros name Hf Hw Huniq. destruct kv as [| | |t|ts|]; try done.
    - apply Huniq in Hk as ->. by rewrite String.eqb_refl in Hf.
    - change (existsb (fun t => match t with JStr t => typed w t | _ => false end) ts = true) in Hk. apply existsb_exists in Hk as (t & Hin & Ht).
      destruct t as [| | |t| |]; try done. apply Huniq in Ht as ->. assert (existsb (is_str name) ts = true) as E2; [|by rewrite E2 in Hf].
      apply existsb_exists. exists (JStr name). split; [done|]. apply String.eqb_refl. }
  split.
  - intros Hf. destruct w as [| | | | |fs]; try done. exfalso. apply (Hno "object" Hf); [done|]. intros t Ht. by apply String.eqb_eq in Ht.
  - intros Hf l ->. apply (Hno "array" Hf); [done|]. intros t Ht. by apply String.eqb_eq in Ht.
Qed.
Lemma not_objectish kws w : ok (JObj kws) w = true -> isObjectish kws = false -> members_of w = [] /\ (forall fs, w <> JObj fs).
Proof. unfold isObjectish. intros Hv [Ht%negb_false_iff Hf]%orb_false_iff. by apply (type_excludes kws). Qed.
Lemma not_arrayish kws w l : ok (JObj kws) w = true -> isArrayish kws = false -> w = JArr l -> hasAnyKey kws arrayItemKeys = false.
Proof.
  unfold isArrayish. intros Hv [Hf Hu]%orb_false_iff Hw. apply andb_false_iff in Hu as [Ht%negb_false_iff|Hu]; [|done].
  exfalso. by apply (proj2 (type_excludes kws w Hv Ht) Hf l).
Qed.

(** The keywords the placement does not touch. *)
Lemma unchanged_keyword w cw k kv kws kws' : delivered n w cw -> k <> "items" -> k <> "prefixItems" -> k <> "additionalProperties" ->
  (if String.eqb k "enum" then match kv with JArr l => forallb plain_scalar l | _ => false end
   else if String.eqb k "const" then plain_scalar kv
   else mem k ("type" :: "items" :: "prefixItems" :: "additionalProperties" :: numericKeywords ++ annotations)) = true ->
  kwd kws k kv w = true -> kwd kws' k kv cw = true.
Proof.
  intros Hd H1 H2 H3 Hs Hk. assert (forall x, same_scalar x w = true -> same_scalar x cw = true) as Hscalar.
  { intros x Hx. rewrite (delivered_scalar n w cw Hd); [done|]. by destruct x, w. }
  destruct (String.eqb_spec k "enum") as [->|H4].
  { destruct kv as [| | | |l|]; try done. change (existsb (fun x => same_scalar x w) l = true) in Hk. change (existsb (fun x => same_scalar x cw) l = true).
    apply existsb_exists in Hk as (x & Hin & Hx). apply existsb_exists. exists x. auto. }
  destruct (String.eqb_spec k "const") as [->|H5]; [by apply Hscalar|].
  rewrite !mem_cons in Hs. rewrite (proj2 (String.eqb_neq k "items")), (proj2 (String.eqb_neq k "prefixItems")), (proj2 (String.eqb_neq k "additionalProperties")) in Hs by done.
  cbn [orb] in Hs. apply orb_true_iff in Hs as [->%String.eqb_eq|Hs]; [by eapply type_keyword|].
  apply mem_true in Hs. apply elem_of_app in Hs as [Hs|Hs]; repeat (apply elem_of_cons in Hs as [->|Hs]); try (by apply elem_of_nil in Hs); try reflexivity;
    (destruct Hd; [exact Hk|reflexivity|reflexivity]).
Qed.

(** The branch of [placeMiniInBranch], with [m] the fuel left. *)
Definition branch (m : nat) (b : json) : option json :=
  match b with
  | JObj s => if negb (isObjectish s) && negb (isArrayish s) then Some b else option_map JObj (placeMiniNotice m s)
  | _ => Some b
  end.
Lemma place_steps m kws placed : placeMiniNotice (S m) kws = Some placed -> exists s2 s3,
  (if isArrayish kws then placeMiniItem (if isObjectish kws then placeMiniProperty kws else kws) = Some s2
   else s2 = if isObjectish kws then placeMiniProperty kws else kws) /\
  place_branches (branch m) s2 "anyOf" = Some s3 /\ place_branches (branch m) s3 "allOf" = Some placed.
Proof.
  cbn [placeMiniNotice]. destruct (has "$ref" kws); [done|]. destruct (negb (isObjectish kws) && negb (isArrayish kws)); [done|].
  destruct (isArrayish kws).
  - destruct (placeMiniItem _) as [s2|]; [|done]. destruct (place_branches _ s2 "anyOf") as [s3|] eqn:E; [|done]. intros Hp. by exists s2, s3.
  - destruct (place_branches _ _ "anyOf") as [s3|] eqn:E; [|done]. intros Hp. by exists (if isObjectish kws then placeMiniProperty kws else kws), s3.
Qed.

Section level.
Context (m : nat) (kws placed : list (string * json)).
Hypothesis Hc : carries (JObj kws) = true.
Hypothesis Hplaced : placeMiniNotice (S m) kws = Some placed.

Definition place_key (k : string) (kv : json) : Prop :=
  if mem k ["anyOf"; "allOf"] then exists bs bs', get k kws = Some (JArr bs) /\ mapM (branch m) bs = Some bs' /\ kv = JArr bs'
  else if String.eqb k "properties" && isObjectish kws then kv = JObj (set "__mini" miniOutputMetaSchema (schemaProperties kws))
  else if String.eqb k "items" && isArrayish kws then
    (kv = JBool true \/ exists i, get "items" kws = Some (JObj i) /\ kv = JObj [("anyOf", JArr [JObj i; miniNoticeItemSchema])])
  else get k kws = Some kv.

Lemma placed_facts : NoDup (keys placed) /\ (forall k kv, get k placed = Some kv -> place_key k kv) /\
  (isArrayish kws = true -> get "prefixItems" kws = None) /\
  (forall k, k <> "properties" -> k <> "items" -> k <> "anyOf" -> k <> "allOf" -> get k placed = get k kws) /\
  (isObjectish kws = true -> get "properties" placed = Some (JObj (set "__mini" miniOutputMetaSchema (schemaProperties kws)))).
Proof.
  destruct (place_steps _ _ _ Hplaced) as (s2 & s3 & H2 & H3 & H4). set (s1 := if isObjectish kws then placeMiniProperty kws else kws) in *.
  assert (NoDup (keys s1)) as Hn1.
  { unfold s1. destruct (isObjectish kws); [by apply set_nodup, carries_nodup|by apply carries_nodup]. }
  assert (forall k, get k s1 = if String.eqb k "properties" && isObjectish kws then Some (JObj (set "__mini" miniOutputMetaSchema (schemaProperties kws))) else get k kws) as Hg1.
  { intros k. unfold s1. destruct (isObjectish kws); [rewrite placeMiniProperty_get by done|]; by destruct (String.eqb k "properties"). }
  assert (NoDup (keys s2) /\ (isArrayish kws = true -> get "prefixItems" kws = None) /\ (forall k, k <> "items" -> get k s2 = get k s1) /\
    (forall kv, get "items" s2 = Some kv -> if isArrayish kws then kv = JBool true \/ exists i, get "items" kws = Some (JObj i) /\ kv = JObj [("anyOf", JArr [JObj i; miniNoticeItemSchema])]
       else get "items" kws = Some kv)) as (Hn2 & Hpre & Hg2 & Hitems).
  { destruct (isArrayish kws).
    - destruct (placeMiniItem_get _ _ H2 Hn1) as (Hpre & Hn2 & Hshape & Hg). rewrite Hg1 in Hpre, Hshape. split; [done|]. split; [done|].
      setoid_rewrite Hg. rewrite !Hg1. cbn [String.eqb Ascii.eqb Bool.eqb andb] in *. split.
      + intros k Hk. rewrite Hg1. destruct (get "items" kws) as [[]|]; try done. by rewrite (proj2 (String.eqb_neq k "items")).
      + intros kv. destruct Hshape as [->|[->|[i ->]]]; [done|intros [= <-]; by left|]. intros [= <-]. right. by exists i.
    - subst s2. split; [done|]. split; [done|]. split; [done|]. intros kv. by rewrite Hg1. }
  destruct (place_branches_get _ _ _ _ H3 Hn2) as [Hn3 Hg3]. destruct (place_branches_get _ _ _ _ H4 Hn3) as [Hn4 Hg4].
  assert (forall k, k <> "items" -> k <> "anyOf" -> k <> "allOf" -> get k placed = get k s1) as Hrest.
  { intros k Hk1 Hk2 Hk3. rewrite (proj1 (Hg4 k)), (proj1 (Hg3 k)) by done. by apply Hg2. }
  assert (get "items" placed = get "items" s2) as Hit by (rewrite (proj1 (Hg4 "items")), (proj1 (Hg3 "items")); done).
  split; [done|]. split; [|split; [done|split]].
  - intros k kv Hk. unfold place_key. destruct (decide (k = "anyOf")) as [->|Ha].
    { cbn. rewrite (proj1 (Hg4 "anyOf")) in Hk by done. destruct (proj2 (Hg3 "anyOf") eq_refl) as [[Hs Harr]|(bs & bs' & Hs & Hm & Hs')];
        rewrite Hg2, Hg1 in Hs by done; cbn in Hs.
      - rewrite Hg2, Hg1 in Harr by done. cbn in Harr. rewrite Hs in Hk. pose proof (carries_get _ _ _ Hc Hk) as Hm. rewrite Hk in Harr. by destruct kv.
      - exists bs, bs'. split; [done|]. split; [done|]. congruence. }
    destruct (decide (k = "allOf")) as [->|Hb].
    { cbn. destruct (proj2 (Hg4 "allOf") eq_refl) as [[Hs Harr]|(bs & bs' & Hs & Hm & Hs')]; rewrite (proj1 (Hg3 "allOf")), Hg2, Hg1 in Hs by done; cbn in Hs.
      - rewrite (proj1 (Hg3 "allOf")), Hg2, Hg1 in Harr by done. cbn in Harr. rewrite Hs in Hk. pose proof (carries_get _ _ _ Hc Hk) as Hm. rewrite Hk in Harr. by destruct kv.
      - exists bs, bs'. split; [done|]. split; [done|]. congruence. }
    assert (mem k ["anyOf"; "allOf"] = false) as ->.
    { apply mem_false. rewrite !not_elem_of_cons. split; [done|]. split; [done|]. apply not_elem_of_nil. }
    destruct (decide (k = "items")) as [->|Hi]; [rewrite Hit in Hk; apply Hitems in Hk; by destruct (isArrayish kws)|].
    rewrite (proj2 (String.eqb_neq k "items")) by done. cbn [andb]. rewrite Hrest, Hg1 in Hk by done. destruct (String.eqb k "properties" && isObjectish kws); congruence.
  - intros k Hk1 Hk2 Hk3 Hk4. rewrite Hrest, Hg1 by done. by rewrite (proj2 (String.eqb_neq k "properties")).
  - intros Ho. rewrite Hrest, Hg1, Ho by done. done.
Qed.

Hypothesis IH : forall kws placed w cw, carries (JObj kws) = true -> placeMiniNotice m kws = Some placed -> delivered n w cw ->
  ok (JObj kws) w = true -> ok (JObj placed) cw = true.
Context (w cw : json).
Hypothesis Hd : delivered n w cw.
Hypothesis Hv : ok (JObj kws) w = true.

Lemma branch_sound b b' : branch m b = Some b' -> carries b = true -> ok b w = true -> ok b' cw = true.
Proof.
  unfold branch. destruct b as [|b| | | |s]; try done; [by intros [= <-]|]. destruct (negb (isObjectish s) && negb (isArrayish s)) eqn:E.
  - intros [= <-] Hs Hw. rewrite (delivered_scalar n w cw Hd); [done|]. apply andb_true_iff in E as [E1%negb_true_iff E2%negb_true_iff].
    destruct (not_objectish _ _ Hw E1) as [_ Hno]. destruct w as [| | | |l|fs]; try done; [|by destruct (Hno fs)].
    exfalso. unfold isObjectish in E1. apply orb_false_iff in E1 as [E1%negb_false_iff _]. unfold isArrayish in E2. apply orb_false_iff in E2 as [E2 _].
    by apply (proj2 (type_excludes _ _ Hw E1) E2 l).
  - destruct (placeMiniNotice m s) as [s'|] eqn:Es; [|done]. intros [= <-] Hs Hw. by eapply IH.
Qed.
Lemma branches_sound k bs bs' : get k kws = Some (JArr bs) -> mem k ["anyOf"; "allOf"] = true -> mapM (branch m) bs = Some bs' ->
  (existsb (fun b => ok b w) bs = true -> existsb (fun b => ok b cw) bs' = true) /\
  (forallb (fun b => ok b w) bs = true -> forallb (fun b => ok b cw) bs' = true).
Proof.
  intros Hg Hk Hm. assert (forall b, b ∈ bs -> carries b = true) as Hb by (intros b; by eapply carries_branch). clear Hg. apply mapM_Some_1 in Hm.
  induction Hm as [|b b' bs bs' Hbb _ IHb]; [done|]. destruct IHb as [IH1 IH2]; [intros x Hx; apply Hb; by right|].
  assert (ok b w = true -> ok b' cw = true) as Hone by (apply branch_sound; [done|apply Hb; by left]). cbn [existsb forallb]. split.
  - rewrite !orb_true_iff. intros [H|H]; [left; by apply Hone|right; by apply IH1].
  - rewrite !andb_true_iff. intros [H1 H2]. split; [by apply Hone|by apply IH2].
Qed.

Lemma set_elem key v fs p s : has key fs = false -> (p, s) ∈ set key v fs -> (p, s) ∈ fs /\ p <> key \/ p = key /\ s = v.
Proof.
  unfold set. intros Hf. rewrite Hf. intros [Hin|Hin]%elem_of_app.
  - left. split; [done|]. intros ->. assert (has key fs = true) as E; [|by rewrite E in Hf]. apply has_keys, list_elem_of_fmap. by exists (key, s).
  - right. apply list_elem_of_singleton in Hin. by injection Hin.
Qed.
Lemma own_free : has "__mini" (schemaProperties kws) = false.
Proof.
  unfold schemaProperties. destruct (get "properties" kws) as [v|] eqn:E; [|done]. apply (carries_get _ _ _ Hc) in E. destruct v; try done. by apply negb_true_iff in E.
Qed.
Lemma own_property p s k y : (p, s) ∈ schemaProperties kws -> (k, y) ∈ members_of w -> k = p -> ok s y = true.
Proof.
  unfold schemaProperties. destruct (get "properties" kws) as [v|] eqn:E; [|intros Hin; by apply elem_of_nil in Hin]. destruct v as [| | | | |named]; cbn; try (intros Hin; by apply elem_of_nil in Hin).
  intros Hp Hin ->. pose proof (valid_get _ _ _ _ _ _ _ _ Hv E) as Hk.
  change (forallb (fun ps => forallb (fun m => if String.eqb (fst m) (fst ps) then ok (snd ps) (snd m) else true) (members_of w)) named = true) in Hk.
  rewrite forallb_forall in Hk. apply list_elem_of_In in Hp, Hin. specialize (Hk _ Hp). rewrite forallb_forall in Hk. specialize (Hk _ Hin).
  cbn in Hk. by rewrite String.eqb_refl in Hk.
Qed.

Lemma no_members : isObjectish kws = false -> members_of cw = [].
Proof. intros Ho. destruct (not_objectish _ _ Hv Ho) as [_ Hno]. destruct Hd as [? _|fs|l]; [|by destruct (Hno fs)|done]. destruct w as [| | | | |fs]; try done. by destruct (Hno fs). Qed.
Lemma no_items : isArrayish kws = false -> hasAnyKey kws arrayItemKeys = true -> items_of cw = [].
Proof.
  intros Ha Hk. assert (forall l, w <> JArr l) as Hno by (intros l ->; pose proof (not_arrayish _ _ _ Hv Ha eq_refl) as E; congruence).
  destruct Hd as [? _|fs|l]; [|done|by destruct (Hno l)]. destruct w as [| | | |l|]; try done. by destruct (Hno l).
Qed.

Lemma properties_placed : isObjectish kws = true ->
  kwd placed "properties" (JObj (set "__mini" miniOutputMetaSchema (schemaProperties kws))) cw = true.
Proof.
  intros Ho. change (forallb (fun ps => forallb (fun m => if String.eqb (fst m) (fst ps) then ok (snd ps) (snd m) else true) (members_of cw))
    (set "__mini" miniOutputMetaSchema (schemaProperties kws)) = true). apply forallb_forall. intros [p s] Hp. apply forallb_forall. intros [k y] Hin. cbn [fst snd].
  destruct (String.eqb_spec k p) as [->|]; [|done]. apply list_elem_of_In in Hp, Hin. apply (set_elem _ _ _ _ _ own_free) in Hp.
  destruct (delivered_members _ _ _ _ _ Hd Hin) as [[Hw Hne]|[-> ->]].
  - destruct Hp as [[Hp _]|[-> _]]; [|done]. by eapply own_property.
  - destruct Hp as [[_ Hne]|[_ ->]]; [done|exact Hn].
Qed.

Lemma items_placed kv : isArrayish kws = true ->
  (kv = JBool true \/ exists i, get "items" kws = Some (JObj i) /\ kv = JObj [("anyOf", JArr [JObj i; miniNoticeItemSchema])]) ->
  kwd placed "items" kv cw = true.
Proof.
  intros Ha. destruct placed_facts as (_ & _ & Hpre & Hsame & _).
  assert (rest_from placed = 0%nat /\ rest_from kws = 0%nat) as [H1 H2] by (unfold rest_from; rewrite Hsame, (Hpre Ha) by done; done).
  intros [->|(i & Hi & ->)].
  - change (forallb (ok (JBool true)) (drop (rest_from placed) (items_of cw)) = true). by apply forallb_forall.
  - set (either := JObj [("anyOf", JArr [JObj i; miniNoticeItemSchema])]). change (forallb (ok either) (drop (rest_from placed) (items_of cw)) = true).
    rewrite H1. apply forallb_forall. intros y Hin. apply list_elem_of_In in Hin.
    change (((ok (JObj i) y || (ok miniNoticeItemSchema y || false)) && true) = true). rewrite andb_true_r, !orb_true_iff.
    destruct (delivered_items _ _ _ _ Hd Hin) as [Hw| ->]; [left|right; left; exact notice_item_ok].
    pose proof (valid_get _ _ _ _ _ _ _ _ Hv Hi) as Hk. change (forallb (ok (JObj i)) (drop (rest_from kws) (items_of w)) = true) in Hk.
    rewrite H2, forallb_forall in Hk. by apply Hk, list_elem_of_In.
Qed.

Lemma declared_placed k : declared matches kws k = true -> declared matches placed k = true.
Proof.
  destruct placed_facts as (_ & Hkey & _ & Hsame & Hprops). unfold declared. rewrite (Hsame "patternProperties") by done. rewrite !orb_true_iff.
  intros [H|H]; [left|by right]. apply mem_true, has_keys in H.
  change (has k (schemaProperties kws) = true) in H. apply mem_true, has_keys. destruct (isObjectish kws) eqn:Ho.
  - rewrite Hprops by done. cbn [obj from_option id]. unfold has in *. rewrite get_set. by destruct (String.eqb k "__mini").
  - assert (get "properties" placed = get "properties" kws) as ->; [|exact H].
    destruct (place_steps _ _ _ Hplaced) as (s2 & s3 & H2 & H3 & H4). rewrite Ho in H2.
    assert (NoDup (keys kws)) as Hnd by (by apply carries_nodup). assert (NoDup (keys s2) /\ get "properties" s2 = get "properties" kws) as [Hn2 Hg2].
    { destruct (isArrayish kws); [|by subst]. destruct (placeMiniItem_get _ _ H2 Hnd) as (_ & Hn2 & _ & Hg). split; [done|]. rewrite Hg. by destruct (get "items" kws) as [[]|]. }
    destruct (place_branches_get _ _ _ _ H3 Hn2) as [Hn3 Hg3]. destruct (place_branches_get _ _ _ _ H4 Hn3) as [_ Hg4].
    rewrite (proj1 (Hg4 "properties")), (proj1 (Hg3 "properties")) by done. exact Hg2.
Qed.

Lemma additional_placed kv : get "additionalProperties" kws = Some kv -> kwd placed "additionalProperties" kv cw = true.
Proof.
  intros Hg. change (forallb (fun m => if declared matches placed (fst m) then true else ok kv (snd m)) (members_of cw) = true). apply forallb_forall. intros [k y] Hin. cbn [fst snd].
  apply list_elem_of_In in Hin. destruct (declared matches placed k) eqn:E; [done|]. destruct (delivered_members _ _ _ _ _ Hd Hin) as [[Hw Hne]|[-> ->]].
  - pose proof (valid_get _ _ _ _ _ _ _ _ Hv Hg) as Hk.
    change (forallb (fun m => if declared matches kws (fst m) then true else ok kv (snd m)) (members_of w) = true) in Hk. rewrite forallb_forall in Hk.
    apply list_elem_of_In in Hw. specialize (Hk _ Hw). cbn [fst snd] in Hk. destruct (declared matches kws k) eqn:E2; [|done]. by rewrite (declared_placed _ E2) in E.
  - destruct (isObjectish kws) eqn:Ho; [|rewrite (no_members Ho) in Hin; by apply elem_of_nil in Hin].
    destruct placed_facts as (_ & _ & _ & _ & Hprops). unfold declared in E. rewrite (Hprops Ho) in E. apply orb_false_iff in E as [E _].
    assert (mem "__mini" (keys (set "__mini" miniOutputMetaSchema (schemaProperties kws))) = true) as E2; [|by cbn [obj from_option id] in E; rewrite E2 in E].
    apply mem_true, has_keys. unfold has. by rewrite get_set.
Qed.

(** Every keyword of the placed schema. *)
Lemma placed_keyword k kv : get k placed = Some kv -> kwd placed k kv cw = true.
Proof.
  intros Hk. destruct placed_facts as (_ & Hkey & Hpre & _). specialize (Hkey k kv Hk). unfold place_key in Hkey.
  destruct (mem k ["anyOf"; "allOf"]) eqn:Em.
  { destruct Hkey as (bs & bs' & Hg & Hm & ->). destruct (branches_sound k bs bs' Hg Em Hm) as [Hany Hall]. pose proof (valid_get _ _ _ _ _ _ _ _ Hv Hg) as Hkw.
    apply mem_true in Em. apply elem_of_cons in Em as [->|Em]; [exact (Hany Hkw)|]. apply list_elem_of_singleton in Em as ->. exact (Hall Hkw). }
  destruct (String.eqb_spec k "properties") as [->|H1].
  { cbn [andb] in Hkey. destruct (isObjectish kws) eqn:Ho; [subst kv; by apply properties_placed|]. destruct kv as [| | | | |named]; try done.
    change (forallb (fun ps => forallb (fun m => if String.eqb (fst m) (fst ps) then ok (snd ps) (snd m) else true) (members_of cw)) named = true).
    rewrite (no_members Ho). by apply forallb_forall. }
  cbn [andb] in Hkey. destruct (String.eqb_spec k "items") as [->|H2]; cbn [andb] in Hkey.
  { destruct (isArrayish kws) eqn:Ha; [by apply items_placed|]. assert (items_of cw = []) as E by (apply no_items; [done|unfold hasAnyKey, has; cbn; by rewrite Hkey]).
    destruct kv as [| | | |subs|];
      [change (forallb (ok JNull) (drop (rest_from placed) (items_of cw)) = true)|change (forallb (ok (JBool b)) (drop (rest_from placed) (items_of cw)) = true)
      |change (forallb (ok (JNum lexeme)) (drop (rest_from placed) (items_of cw)) = true)|change (forallb (ok (JStr s)) (drop (rest_from placed) (items_of cw)) = true)
      |change (positional ok subs (items_of cw) = true)|change (forallb (ok (JObj fs)) (drop (rest_from placed) (items_of cw)) = true)];
      rewrite E; [by rewrite drop_nil ..|by destruct subs|by rewrite drop_nil]. }
  pose proof (carries_get _ _ _ Hc Hkey) as Hs. pose proof (valid_get _ _ _ _ _ _ _ _ Hv Hkey) as Hkw. unfold member_carries in Hs. rewrite Em in Hs.
  rewrite (proj2 (String.eqb_neq k "properties")) in Hs by done.
  destruct (String.eqb_spec k "prefixItems") as [->|H3].
  { destruct (isArrayish kws) eqn:Ha; [by rewrite (Hpre eq_refl) in Hkey|].
    assert (items_of cw = []) as E by (apply no_items; [done|unfold hasAnyKey, has; cbn; rewrite Hkey; by rewrite orb_true_r]).
    destruct kv as [| | | |subs|]; try done. change (positional ok subs (items_of cw) = true). rewrite E. by destruct subs. }
  destruct (String.eqb_spec k "additionalProperties") as [->|H4]; [by apply additional_placed|].
  by eapply unchanged_keyword.
Qed.
End level.

(** What a schema accepts, it accepts with the notice once the notice has been placed. *)
Lemma place_sound m : forall kws placed w cw, carries (JObj kws) = true -> placeMiniNotice m kws = Some placed -> delivered n w cw ->
  ok (JObj kws) w = true -> ok (JObj placed) cw = true.
Proof.
  induction m as [|m IH]; intros kws placed w cw Hc Hp Hd Hv; [done|]. destruct (placed_facts m kws placed Hc Hp) as [Hnd _].
  apply valid_from_get; [done|]. intros k kv Hk. by apply (placed_keyword m kws placed Hc Hp IH w cw Hd Hv).
Qed.
End place.

(** ** Loosened schemas can carry the notice *)

(** The root and the branches that apply to it have no [__mini] property of their own, and
    nothing that could look at the key. *)
Fixpoint root_scope (s : json) : bool :=
  match s with
  | JBool _ => true
  | JObj kws =>
      forallb (fun kw =>
        if mem (fst kw) ["anyOf"; "allOf"; "oneOf"] then match snd kw with JArr l => forallb root_scope l | _ => false end
        else if String.eqb (fst kw) "properties" then match snd kw with JObj named => negb (has "__mini" named) | _ => false end
        else negb (mem (fst kw) ["propertyNames"; "patternProperties"])) kws
  | _ => false
  end.
Definition member_root (k : string) (kv : json) : bool :=
  if mem k ["anyOf"; "allOf"; "oneOf"] then match kv with JArr l => forallb root_scope l | _ => false end
  else if String.eqb k "properties" then match kv with JObj named => negb (has "__mini" named) | _ => false end
  else negb (mem k ["propertyNames"; "patternProperties"]).
Lemma root_get kws k kv : root_scope (JObj kws) = true -> get k kws = Some kv -> member_root k kv = true.
Proof. cbn [root_scope]. rewrite forallb_forall. intros H Hg. apply (H (k, kv)). by apply list_elem_of_In, get_in. Qed.

Lemma get_map_named g k (named : list (string * json)) : get k (map (fun kv => (fst kv, g (snd kv))) named) = option_map g (get k named).
Proof. induction named as [|[k' x] named IH]; [done|]. cbn. by destruct (String.eqb k' k). Qed.

Section carries.
Context (n : nat) (kws : list (string * json)).
Hypothesis Hscope : in_scope (JObj kws) = true.
Hypothesis Hroot : root_scope (JObj kws) = true.
Hypothesis Hfuel : (3 * height (JObj kws) <= S n)%nat.
Hypothesis IH : forall m s, (m <= n)%nat -> (3 * height s <= m)%nat -> in_scope s = true -> root_scope s = true -> carries (loosenSchema m s) = true.
#[local] Abbreviation f := (loosenSchema n).

Lemma branches_carry k l : get k kws = Some (JArr l) -> mem k ["anyOf"; "allOf"; "oneOf"] = true ->
  forall m, (3 * height (JArr l) <= m + 3)%nat -> (m <= n)%nat -> forallb carries (map (loosenSchema m) l) = true.
Proof.
  intros Hg Hk m Hm Hle. pose proof (scope_get _ _ _ Hscope Hg) as Hs. pose proof (root_get _ _ _ Hroot Hg) as Hr.
  unfold member_root in Hr. rewrite Hk in Hr.
  assert (forallb in_scope l = true) as Hs'.
  { apply mem_true in Hk. repeat (apply elem_of_cons in Hk as [->|Hk]); try exact Hs. by apply elem_of_nil in Hk. }
  apply forallb_forall. intros s (s0 & <- & Hin)%in_map_iff. rewrite forallb_forall in Hs', Hr. apply IH; [done| |by apply Hs'|by apply Hr].
  apply list_elem_of_In, height_item in Hin. lia.
Qed.
Lemma branches_array k kv : get k kws = Some kv -> mem k ["anyOf"; "allOf"; "oneOf"] = true -> exists l, kv = JArr l.
Proof.
  intros Hg Hk. pose proof (root_get _ _ _ Hroot Hg) as Hr. unfold member_root in Hr. rewrite Hk in Hr. destruct kv; try done. eauto.
Qed.
Lemma branches_member k l kv : get k kws = Some (JArr l) -> mem k ["anyOf"; "allOf"; "oneOf"] = true -> f (JArr l) = kv ->
  match kv with JArr l => forallb carries l | _ => false end = true.
Proof.
  intros Hg Hk <-. pose proof (height_get _ _ _ Hg) as Hh. assert (exists m, n = S m) as [m Em] by (exists (pred n); lia).
  rewrite Em, loosen_arr. eapply branches_carry; [done|done|lia|lia].
Qed.

Lemma loose_carries k kv : loosened f kws k = Some kv -> member_carries k kv = true.
Proof.
  unfold loosened. destruct (mem k trimSensitiveKeywords) eqn:Hts; [done|]. destruct (String.eqb_spec k "oneOf") as [->|H1]; [done|].
  destruct (String.eqb_spec k "anyOf") as [->|H2].
  { intros Hl. change (match kv with JArr l => forallb carries l | _ => false end = true).
    assert (exists k l, get k kws = Some (JArr l) /\ mem k ["anyOf"; "allOf"; "oneOf"] = true /\ f (JArr l) = kv) as (k & l & Hg & Hk & <-); [|by eapply branches_member].
    destruct (get "anyOf" kws) as [b|] eqn:E; [|destruct (get "oneOf" kws) as [b|] eqn:E1; [|done]]; injection Hl as <-;
      [destruct (branches_array _ _ E eq_refl) as [l ->]; by exists "anyOf", l|destruct (branches_array _ _ E1 eq_refl) as [l ->]; by exists "oneOf", l]. }
  destruct (String.eqb_spec k "allOf") as [->|H3].
  { intros Hl. change (match kv with JArr l => forallb carries l | _ => false end = true).
    assert (forall l, get "allOf" kws = Some l -> f l = kv -> match kv with JArr l => forallb carries l | _ => false end = true) as Hplain.
    { intros b E <-. destruct (branches_array _ _ E eq_refl) as [l ->]. by eapply branches_member. }
    destruct (get "oneOf" kws) as [b|] eqn:E1; [destruct (get "anyOf" kws) eqn:E2|];
      [|destruct (get "allOf" kws) as [l|] eqn:E3; [injection Hl as Hl; by apply (Hplain l)|done] ..].
    injection Hl as <-. destruct (branches_array _ _ E1 eq_refl) as [l ->]. pose proof (height_get _ _ _ E1) as Hh.
    assert (1 <= height (JArr l))%nat by (cbn [height]; lia). assert (exists m, n = S (S (S m))) as [m Em] by (exists (n - 3)%nat; lia).
    rewrite Em, loosen_arr, map_app, forallb_app, andb_true_iff. split.
    - destruct (get "allOf" kws) as [b|] eqn:E3; [|done]. destruct (branches_array _ _ E3 eq_refl) as [l3 ->]. pose proof (height_get _ _ _ E3).
      change (forallb carries (map (loosenSchema (S (S m))) l3) = true). eapply branches_carry; [exact E3|done|lia|lia].
    - cbn [map forallb]. rewrite andb_true_r, loosen_obj.
      change (loosenSchemaObject (loosenSchema (S m)) [("anyOf", JArr l)]) with [("anyOf", loosenSchema (S m) (JArr l))]. rewrite loosen_arr.
      change (bool_decide (NoDup ["anyOf"]) && (forallb carries (map (loosenSchema m) l) && true) = true). rewrite andb_true_r, andb_true_iff. split.
      + apply bool_decide_eq_true, NoDup_singleton.
      + eapply branches_carry; [exact E1|done|lia|lia]. }
  intros Hl. assert (exists kv0, get k kws = Some kv0) as [kv0 Hg] by (destruct (get k kws) as [x|]; [by exists x|by destruct (mem k subschemaKeys), (mem k subschemaMapKeys)]).
  pose proof (scope_get _ _ _ Hscope Hg) as Hs. pose proof (root_get _ _ _ Hroot Hg) as Hr. rewrite Hg in Hl.
  destruct (String.eqb_spec k "properties") as [->|H4].
  { change (Some (map_named f kv0) = Some kv) in Hl. injection Hl as <-. destruct kv0 as [| | | | |named]; try done.
    change (negb (has "__mini" (map (fun kv => (fst kv, f (snd kv))) named)) = true). change (negb (has "__mini" named) = true) in Hr.
    unfold has in *. rewrite get_map_named. by destruct (get "__mini" named). }
  unfold member_carries. unfold member_scope, member_root in Hs, Hr. cbn [mem existsb] in Hs, Hr |- *.
  rewrite (proj2 (String.eqb_neq k "anyOf")), (proj2 (String.eqb_neq k "allOf")), (proj2 (String.eqb_neq k "oneOf")), (proj2 (String.eqb_neq k "properties")) in Hs, Hr by done.
  rewrite (proj2 (String.eqb_neq k "anyOf")), (proj2 (String.eqb_neq k "allOf")), (proj2 (String.eqb_neq k "properties")) by done.
  cbn [orb] in Hs, Hr |- *. rewrite orb_false_r in Hs, Hr. apply negb_true_iff, orb_false_iff in Hr as [Hr1 Hr2].
  rewrite ?Hr1, ?Hr2, ?orb_false_r in Hs.
  destruct (String.eqb_spec k "prefixItems") as [->|H5]; [done|]. destruct (String.eqb_spec k "items") as [->|H6]; [done|].
  destruct (String.eqb_spec k "additionalProperties") as [->|H7]; [done|].
  destruct (String.eqb_spec k "enum") as [->|H8]; [by injection Hl as <-|]. destruct (String.eqb_spec k "const") as [->|H9]; [by injection Hl as <-|].
  cbn [orb]. destruct (String.eqb k "type"); [done|]. cbn [orb] in *. assert (mem k cutKeywords = false) as Hcut by (destruct (mem k cutKeywords) eqn:E; [by rewrite (cut_removed _ E) in Hts|done]).
  unfold mem in *. rewrite existsb_app in Hs. by rewrite Hcut in Hs.
Qed.
End carries.

Lemma loosen_carries n : forall s, (3 * height s <= n)%nat -> in_scope s = true -> root_scope s = true -> carries (loosenSchema n s) = true.
Proof.
  induction n as [n IH] using (well_founded_induction lt_wf). intros s Hn Hs Hr. destruct n as [|n]; [destruct s; cbn [height] in Hn; lia|].
  destruct s as [|b| | | |kws]; try done. rewrite loosen_obj. cbn [carries]. rewrite andb_true_iff, bool_decide_eq_true.
  assert (NoDup (keys (loosenSchemaObject (loosenSchema n) kws))) as Hnd by (by apply loosen_members_nodup, scope_nodup). split; [done|].
  apply forallb_forall. intros [k kv] Hin. apply list_elem_of_In, get_nodup in Hin; [|done]. rewrite loosen_members_get in Hin by (by apply scope_nodup).
  refine (loose_carries n kws Hs Hr Hn _ k kv Hin). intros m s Hm. apply IH. lia.
Qed.

(** ** The fuel is enough *)
Lemma fold_modify_ext f g l : NoDup l -> forall fs, (forall k v, k ∈ l -> get k fs = Some v -> f v = g v) -> foldl (modify f) fs l = foldl (modify g) fs l.
Proof.
  induction l as [|a l IH]; intros Hnd fs H; [done|]. apply NoDup_cons in Hnd as [Hni Hnd]. cbn [foldl].
  assert (modify f fs a = modify g fs a) as ->.
  { unfold modify. destruct (get a fs) as [v|] eqn:E; [|done]. rewrite (H a v); [done|by left|done]. }
  apply IH; [done|]. intros k v Hk Hg. rewrite get_modify in Hg. destruct (String.eqb_spec k a) as [->|]; [done|]. apply (H k); [by right|done].
Qed.
Lemma map_named_ext f g v : (forall named, v = JObj named -> forall m, m ∈ named -> f (snd m) = g (snd m)) -> map_named f v = map_named g v.
Proof.
  intros H. destruct v as [| | | | |named]; try done. cbn. f_equal. apply map_ext_in. intros m Hm. f_equal. apply (H named); [done|by apply list_elem_of_In].
Qed.

Lemma modify_named_all f l : forall fs, NoDup (keys fs) -> foldl (modify_named f) fs l = foldl (modify (map_named f)) fs l.
Proof. induction l as [|a l IH]; intros fs Hk; [done|]. cbn [foldl]. rewrite modify_named_eq by done. apply IH. by rewrite modify_keys. Qed.

Lemma loosenSchemaObject_ext f g kws : NoDup (keys kws) ->
  (forall k v, mem k subschemaKeys = true -> get k (oneOfToAnyOf kws) = Some v -> f v = g v) ->
  (forall k named, get k kws = Some (JObj named) -> forall m, m ∈ named -> f (snd m) = g (snd m)) ->
  loosenSchemaObject f kws = loosenSchemaObject g kws.
Proof.
  intros Hnd H1 H2. unfold loosenSchemaObject. set (s1 := oneOfToAnyOf _).
  assert (NoDup subschemaKeys /\ NoDup subschemaMapKeys) as [Hn1 Hn2] by (split; apply (bool_decide_unpack _); vm_compute; exact I).
  assert (NoDup (keys s1)) as Hs1 by (apply oneOfToAnyOf_nodup, fold_keys; [intros; by apply remove_nodup|done]).
  assert (forall k, mem k trimSensitiveKeywords = false -> get k s1 = get k (oneOfToAnyOf kws)) as Hg.
  { intros k Hk. unfold s1. rewrite !get_oneOfToAnyOf, !get_remove_all. by rewrite Hk. }
  assert (forall k, mem k (subschemaKeys ++ subschemaMapKeys) = true -> mem k trimSensitiveKeywords = false) as Hts.
  { intros k Hk. apply mem_true in Hk. apply mem_false. revert k Hk. apply Forall_forall. apply (bool_decide_unpack _). vm_compute. exact I. }
  assert (foldl (modify f) s1 subschemaKeys = foldl (modify g) s1 subschemaKeys) as ->.
  { apply fold_modify_ext; [done|]. intros k v Hk Hv. apply mem_true in Hk. rewrite Hg in Hv by (apply Hts; unfold mem in *; by rewrite existsb_app, Hk). by apply (H1 k). }
  set (s2 := foldl (modify g) s1 subschemaKeys).
  assert (NoDup (keys s2)) as Hs2 by (apply fold_keys; [intros; by rewrite modify_keys|done]). rewrite !modify_named_all by done.
  apply fold_modify_ext; [done|]. intros k v Hk Hv. apply map_named_ext. intros named ->. apply (H2 k).
  apply mem_true in Hk. unfold s2 in Hv. rewrite get_modify_all in Hv by done.
  assert (mem k subschemaKeys = false /\ mem k ["oneOf"; "anyOf"; "allOf"] = false) as [Hsub Hof].
  { rewrite !mem_false. apply mem_true in Hk. revert k Hk Hv. 
    assert (Forall (fun k => k ∉ subschemaKeys /\ k ∉ ["oneOf"; "anyOf"; "allOf"]) subschemaMapKeys) as HF by (apply (bool_decide_unpack _); vm_compute; exact I).
    intros k Hk _. rewrite Forall_forall in HF. by apply HF. }
  rewrite Hsub, Hg, get_oneOfToAnyOf in Hv by (apply Hts; unfold mem in *; by rewrite existsb_app, Hk, orb_true_r).
  rewrite !mem_cons, !orb_false_iff in Hof. destruct Hof as (Ho1 & Ho2 & Ho3 & _). by rewrite Ho1, Ho2, Ho3 in Hv.
Qed.

(** No object has a key twice, as decoding guarantees. *)
Fixpoint unique_keys (v : json) : bool :=
  match v with
  | JArr l => forallb unique_keys l
  | JObj fs => bool_decide (NoDup (keys fs)) && forallb (fun kv => unique_keys (snd kv)) fs
  | _ => true
  end.
Lemma unique_get kws k v : unique_keys (JObj kws) = true -> get k kws = Some v -> unique_keys v = true.
Proof. cbn [unique_keys]. rewrite andb_true_iff, forallb_forall. intros [_ H] Hg. apply (H (k, v)). by apply list_elem_of_In, get_in. Qed.
Lemma unique_nodup kws : unique_keys (JObj kws) = true -> NoDup (keys kws).
Proof. cbn [unique_keys]. rewrite andb_true_iff, bool_decide_eq_true. by intros []. Qed.

(** A level of the schema takes an object and an array, and once more for the branches that
    [oneOfToAnyOf] moves down. *)
Lemma loosen_fuel_enough n : forall m s, (3 * height s <= n)%nat -> (3 * height s <= m)%nat -> unique_keys s = true -> loosenSchema n s = loosenSchema m s.
Proof.
  induction n as [n IH] using (well_founded_induction lt_wf). intros m s Hn Hm Hu.
  assert (exists n' m', n = S n' /\ m = S m') as (n' & m' & -> & ->) by (exists (pred n), (pred m); destruct s; cbn [height] in *; lia).
  destruct s as [| | | |l|kws]; try done.
  - rewrite !loosen_arr. f_equal. apply map_ext_in. intros x Hx. cbn [unique_keys] in Hu. rewrite forallb_forall in Hu. specialize (Hu x Hx).
    apply list_elem_of_In, height_item in Hx. apply IH; [lia..|done].
  - rewrite !loosen_obj. f_equal. pose proof (unique_nodup _ Hu) as Hnd.
    assert (forall k v, get k kws = Some v -> loosenSchema n' v = loosenSchema m' v) as Hown.
    { intros k v Hg. apply IH; [lia|apply height_get in Hg; lia..|by eapply unique_get]. }
    apply loosenSchemaObject_ext; [done| |].
    + intros k v Hk Hv. rewrite get_oneOfToAnyOf in Hv. destruct (String.eqb k "oneOf"); [done|]. destruct (String.eqb k "anyOf").
      { destruct (get "anyOf" kws) eqn:E; [injection Hv as <-; by eapply Hown|by eapply Hown]. }
      destruct (String.eqb k "allOf"); [|by eapply Hown].
      destruct (get "oneOf" kws) as [ones|] eqn:E1; [destruct (get "anyOf" kws) eqn:E2; [|by eapply Hown]|by eapply Hown]. injection Hv as <-.
      assert (exists n2 m2, n' = S (S n2) /\ m' = S (S m2) /\ (3 * height ones <= n2)%nat /\ (3 * height ones <= m2)%nat) as (n2 & m2 & -> & -> & H1 & H2).
      { pose proof (height_get _ _ _ E1). assert (1 <= height ones)%nat by (destruct ones; cbn [height]; lia). exists (n' - 2)%nat, (m' - 2)%nat. lia. }
      rewrite !loosen_arr, !map_app. f_equal. f_equal.
      * destruct (get "allOf" kws) as [[| | | |l|]|] eqn:E3; try done. apply map_ext_in. intros x Hx. change (In x l) in Hx. pose proof (unique_get _ _ _ Hu E3) as Hul. cbn [unique_keys] in Hul.
        rewrite forallb_forall in Hul. specialize (Hul x Hx). apply height_get in E3. apply list_elem_of_In, height_item in Hx. apply IH; [lia..|done].
      * change ([JObj [("anyOf", loosenSchema n2 ones)]] = [JObj [("anyOf", loosenSchema m2 ones)]]). do 4 f_equal. apply IH; [lia..|by eapply unique_get].
    + intros k named Hg [k' v] Hin. cbn [snd]. pose proof (unique_get _ _ _ Hu Hg) as Hun. cbn [unique_keys] in Hun. apply andb_true_iff in Hun as [_ Hun].
      rewrite forallb_forall in Hun. specialize (Hun (k', v)). apply height_get in Hg. pose proof (height_member _ _ _ Hin) as Hh. apply list_elem_of_In in Hin.
      apply IH; [lia..|by apply Hun].
Qed.

Lemma mapM_ext_in {A B} (f g : A -> option B) l : (forall x, x ∈ l -> f x = g x) -> mapM f l = mapM g l.
Proof. intros H. induction l as [|x l IH]; [done|]. cbn. rewrite (H x) by left. by rewrite IH by (intros y Hy; apply H; by right). Qed.
Lemma place_branches_ext f g kws key : (forall bs b, get key kws = Some (JArr bs) -> b ∈ bs -> f b = g b) -> place_branches f kws key = place_branches g kws key.
Proof.
  intros H. unfold place_branches. destruct (get key kws) as [[| | | |bs|]|] eqn:E; try done. cbn [arr]. by rewrite (mapM_ext_in f g) by eauto.
Qed.

Lemma place_fuel_enough n : forall m kws, (height (JObj kws) <= n)%nat -> (height (JObj kws) <= m)%nat -> placeMiniNotice n kws = placeMiniNotice m kws.
Proof.
  induction n as [|n IH]; intros m kws Hn Hm; [cbn [height] in Hn; lia|]. destruct m as [|m]; [cbn [height] in Hm; lia|].
  cbn [placeMiniNotice]. destruct (has "$ref" kws); [done|]. destruct (negb _ && negb _); [done|].
  set (s1 := if isObjectish kws then placeMiniProperty kws else kws).
  assert (forall k, k <> "properties" -> get k s1 = get k kws) as H1.
  { intros k Hk. unfold s1. destruct (isObjectish kws); [|done]. unfold placeMiniProperty. rewrite get_set. by rewrite (proj2 (String.eqb_neq k "properties")). }
  destruct (if isArrayish kws then placeMiniItem s1 else Some s1) as [s2|] eqn:E2; [|done].
  assert (forall k, k <> "properties" -> k <> "items" -> get k s2 = get k kws) as H2.
  { intros k Hk1 Hk2. rewrite <- H1 by done. destruct (isArrayish kws); [|by injection E2 as <-]. unfold placeMiniItem in E2.
    destruct (has "prefixItems" s1); [done|]. destruct (get "items" s1) as [[|[]| | | |]|]; try done; injection E2 as <-; [done| |done].
    rewrite get_set. by rewrite (proj2 (String.eqb_neq k "items")). }
  assert (forall k bs b, (k = "anyOf" \/ k = "allOf") -> get k kws = Some (JArr bs) -> b ∈ bs -> branch n b = branch m b) as Hb.
  { intros k bs b _ Hg Hin. unfold branch. destruct b as [| | | | |s]; try done. destruct (negb _ && negb _); [done|]. f_equal.
    apply height_get in Hg. apply height_item in Hin. apply IH; lia. }
  fold (branch n) (branch m). 
  rewrite (place_branches_ext (branch n) (branch m) s2 "anyOf") by (intros bs b Hg; rewrite H2 in Hg by done; eapply Hb; [by left|done]).
  destruct (place_branches (branch m) s2 "anyOf") as [s3|] eqn:E3; [|done]. apply place_branches_ext. intros bs b Hg.
  assert (get "allOf" s3 = get "allOf" s2) as E4.
  { unfold place_branches in E3. destruct (arr _); [|by injection E3 as <-]. destruct (mapM _ _); [|done]. injection E3 as <-. by rewrite get_update. }
  rewrite E4, H2 in Hg by done. eapply Hb; [by right|done].
Qed.

(** ** The announced schema *)
Section announced.
Context (is_integer : string -> bool) (matches : string -> string -> bool) (on_number : string -> json -> string -> bool)
        (asserts : string -> json -> json -> bool).
#[local] Abbreviation ok := (valid is_integer matches on_number asserts).
#[local] Abbreviation typed := (of_type is_integer).
Hypothesis is_integer_itoa : forall z, is_integer (itoa z) = true.

(** An object each of whose members fits the property of its name. *)
Lemma object_ok props fs : (forall k y, (k, y) ∈ fs -> forallb (fun ps => if String.eqb k (fst ps) then ok (snd ps) y else true) props = true) ->
  ok (JObj [ty "object"; ("properties", JObj props)]) (JObj fs) = true.
Proof.
  intros H. change ((true && (forallb (fun ps => forallb (fun m => if String.eqb (fst m) (fst ps) then ok (snd ps) (snd m) else true) fs) props && true)) = true).
  rewrite andb_true_r. apply forallb_forall. intros ps Hp. apply forallb_forall. intros [k y] Hin. cbn [fst snd].
  apply list_elem_of_In in Hin. specialize (H k y Hin). rewrite forallb_forall in H. by apply H.
Qed.
Lemma integer_ok z : ok (JObj [ty "integer"]) (JNum (itoa z)) = true.
Proof. change ((is_integer (itoa z) && true) = true). by rewrite is_integer_itoa. Qed.

Lemma truncation_ok t : ok (JObj [ty "object"; ("required", JArr [JStr "path"]);
    ("properties", JObj [("path", JObj [ty "string"]); ("chars", JObj [ty "integer"]); ("items", JObj [ty "integer"])])]) (truncation_json t) = true.
Proof.
  unfold truncation_json. set (fs := int_field "chars" (Chars t) ++ int_field "items" (Items t)).
  assert (ok (JObj [ty "object"; ("properties", JObj [("path", JObj [ty "string"]); ("chars", JObj [ty "integer"]); ("items", JObj [ty "integer"])])])
    (JObj (("path", JStr (JQPath t)) :: fs)) = true) as H.
  { apply object_ok. intros k y Hin. apply elem_of_cons in Hin as [[= -> ->]|Hin]; [done|].
    assert (exists z, (k = "chars" \/ k = "items") /\ y = JNum (itoa z)) as (z & Hk & ->).
    { unfold fs, int_field in Hin. apply elem_of_app in Hin as [Hin|Hin];
        [destruct (Chars t =? 0)|destruct (Items t =? 0)]; try (by apply elem_of_nil in Hin); apply list_elem_of_singleton in Hin as [= -> ->]; eauto. }
    destruct Hk as [->| ->]; [change ((ok (JObj [ty "integer"]) (JNum (itoa z)) && true) = true)|change ((ok (JObj [ty "integer"]) (JNum (itoa z)) && true) = true)];
      by rewrite integer_ok. }
  cbn [valid forallb] in *. rewrite !andb_true_iff in *. tauto.
Qed.

(** The notice fits its own schema. *)
Lemma meta_ok m : ok miniOutputMetaSchema (meta_json m) = true.
Proof.
  unfold meta_json, miniOutputMetaSchema. apply object_ok. intros k y Hin.
  assert ((k = "msg" \/ k = "file") /\ (exists t, y = JStr t) \/ k = "excluded" /\ y = JArr (map JStr (m_Excluded m)) \/ k = "truncated" /\ y = JArr (map truncation_json (m_Truncated m))) as Hk.
  { rewrite !elem_of_app in Hin. unfold str_opt, list_opt in Hin.
    destruct Hin as [Hin|[Hin|[Hin|Hin]]].
    1,2: destruct (String.eqb _ _) in Hin; [by apply elem_of_nil in Hin|apply list_elem_of_singleton in Hin as [= -> ->]; eauto].
    - destruct (m_Excluded m); [by apply elem_of_nil in Hin|apply list_elem_of_singleton in Hin as [= -> ->]; auto].
    - destruct (m_Truncated m); [by apply elem_of_nil in Hin|apply list_elem_of_singleton in Hin as [= -> ->]; auto]. }
  clear Hin. destruct Hk as [[[-> | ->] [t ->]]|[[-> ->]|[-> ->]]]; [done|done| |].
  - change (((forallb (ok (JObj [ty "string"])) (map JStr (m_Excluded m)) && true) && true) = true).
    rewrite !andb_true_r. apply forallb_forall. by intros x (t & <- & _)%in_map_iff.
  - change ((ok truncatedItemsSchema (JArr (map truncation_json (m_Truncated m))) && true) = true). rewrite andb_true_r. unfold truncatedItemsSchema.
    match goal with |- ok (JObj [ty "array"; ("items", ?i)]) _ = true => change ((forallb (ok i) (map truncation_json (m_Truncated m)) && true) = true) end.
    rewrite andb_true_r. apply forallb_forall. intros x (t & <- & _)%in_map_iff. apply truncation_ok.
Qed.

(** The fallback keeps only the type. *)
Lemma loose_output_ok kws v w : (forall t, typed w t = typed v t) -> ok (JObj kws) v = true -> ok (looseOutputSchema kws) w = true.
Proof.
  intros Ht Hv. unfold looseOutputSchema. destruct (get "type" kws) as [kv|] eqn:E; [|done]. pose proof (valid_get _ _ _ _ _ _ _ _ Hv E) as Hk.
  cbn [valid forallb]. rewrite andb_true_r. cbn [fst snd]. destruct kv as [| | |t|ts|]; try done; [change (typed w t = true); by rewrite Ht|].
  change (existsb (fun t => match t with JStr t => typed w t | _ => false end) ts = true). rewrite <- Hk. 
  change (keyword is_integer matches on_number asserts ok kws "type" (JArr ts) v) with (existsb (fun t => match t with JStr t => typed v t | _ => false end) ts).
  clear -Ht. induction ts as [|t ts IH]; [done|]. cbn [existsb]. rewrite IH. f_equal. by destruct t.
Qed.

Lemma announced_ok schema v w cw n : in_scope (JObj schema) = true -> root_scope (JObj schema) = true -> ok (JObj schema) v = true ->
  trim v w -> ok miniOutputMetaSchema n = true -> delivered n w cw ->
  exists s, setProxyOutputSchema (Some (JObj schema)) = Some s /\ ok s cw = true.
Proof.
  intros Hs Hr Hv Ht Hn Hd. assert (forall t, typed cw t = typed v t) as Hty.
  { intros t. rewrite (of_type_delivered is_integer n w cw t Hd). by apply of_type_trim. }
  cbn [setProxyOutputSchema]. destruct (negb (hasKnownDialect schema) || negationRefersOut (JObj schema)); [eexists; split; [done|by eapply loose_output_ok]|].
  pose proof (loosen_sound is_integer matches on_number asserts _ _ (le_n _) Hs v w Ht Hv) as Hw. pose proof (loosen_carries _ _ (le_n _) Hs Hr) as Hc.
  unfold loosen_fuel in *. destruct (3 * height (JObj schema))%nat as [|f] eqn:Ef; [cbn [height] in Ef; lia|]. rewrite loosen_obj in *.
  destruct (placeMiniNotice _ _) as [placed|] eqn:Ep; eexists; (split; [reflexivity|]).
  - by eapply (place_sound is_integer matches on_number asserts n Hn).
  - eapply loose_output_ok; [|exact Hw]. intros t. by apply of_type_delivered with n.
Qed.
(** What [carry] makes of a trimmed result. *)
Lemma trim_free v w : trim v w -> has "__mini" (members_of v) = false -> has "__mini" (members_of w) = false.
Proof.
  intros Ht Hv. destruct (has "__mini" (members_of w)) eqn:E; [|done]. apply has_keys, list_elem_of_fmap in E as ([k y] & Hk & Hin). cbn in Hk. subst k.
  destruct (members_of_trim _ _ _ _ Ht Hin) as (x & Hx & _). assert (has "__mini" (members_of v) = true) as E2; [|by rewrite E2 in Hv].
  apply has_keys, list_elem_of_fmap. by exists ("__mini", x).
Qed.
Lemma carry_delivered n w cw : has "__mini" (members_of w) = false -> cw = w \/ carry_value n w = Some cw -> delivered n w cw.
Proof.
  intros Hf [->|Hc]; [by constructor|]. destruct w as [| | | |l|fs]; try done; injection Hc as <-; [constructor|]. constructor; [done|].
  unfold sorted_members. rewrite merge_sort_Permutation. unfold set. cbn [members_of] in Hf. rewrite Hf. by rewrite Permutation_app_comm.
Qed.

End announced.

(** ** A concrete meaning, for examples *)
Definition plain_integer (lexeme : string) : bool := str_forall (fun c => is_digit c || Ascii.eqb c "-") lexeme.
Lemma plain_integer_itoa z : plain_integer (itoa z) = true.
Proof.
  unfold plain_integer. destruct z as [|p|p]; [done| |].
  - destruct (dec_string_digits (Z.pos p)) as [H _]. eapply str_forall_impl; [|exact H]. intros c Hc. by rewrite Hc.
  - change (itoa (Z.neg p)) with (String "-" (dec_string (Z.pos p))). destruct (dec_string_digits (Z.pos p)) as [H _]. cbn [str_forall].
    rewrite orb_true_r. eapply str_forall_impl; [|exact H]. intros c Hc. by rewrite Hc.
Qed.
(** [asserts] for two of the removed keywords. *)
Definition some_asserts (k : string) (kv v : json) : bool :=
  match kv, v with
  | JNum n, JArr l => if String.eqb k "minItems" then default 0 (dec_value n 0) <=? Z.of_nat (List.length l) else true
  | JNum n, JObj fs => if String.eqb k "minProperties" then default 0 (dec_value n 0) <=? Z.of_nat (List.length fs) else true
  | _, _ => true
  end.
Definition ok_ex : json -> json -> bool := valid plain_integer (fun re name => has_prefix name re) (fun _ _ _ => true) some_asserts.

Definition schema_ex : list (string * json) :=
  [ty "object"; ("required", JArr [JStr "secret"; JStr "xs"]); ("additionalProperties", JBool false);
   ("properties", JObj [("secret", JObj [ty "string"]);
      ("xs", JObj [ty "array"; ("minItems", JNum "3"); ("items", JObj [("oneOf", JArr [JObj [ty "object"; ("required", JArr [JStr "secret"])]; JObj [ty "integer"]])])])])].
Definition value_ex : json :=
  JObj [("secret", JStr "s"); ("xs", JArr [JNum "1"; JObj [("secret", JNum "2")]; JNum "3"])].
Definition cfg_ex : ProjectionConfig :=
  {| Alias := ""; IncludeOnly := []; Exclude := ["secret"; "xs[].secret"]; ArrayLimits := {["xs" := 2]}; StringLimits := ∅; StripMarkupOpt := false; Format := "" |}.
Definition defaults_ex : Defaults := {| StringLimit := 100; ContentFields := []; AutoStripThreshold := 1000 |}.
Definition meta_ex : ProjectionMeta := {| Msg := "cut"; m_File := "17"; m_Excluded := [".secret"]; m_Truncated := [{| JQPath := ".xs"; Chars := 0; Items := 1 |}] |}.


(** Two assertions that trimming can break and that stay in the announced schema: those of
    [additionalItems], and of a [not]. *)
Lemma additionalItems_kept :
  let schema := [ty "object"; ("properties", JObj [("xs", JObj [("items", JArr [JObj []]); ("additionalItems", JObj [("required", JArr [JStr "a"])])])])] in
  let v := JObj [("xs", JArr [JNum "0"; JObj [("a", JNum "1")]])] in
  let w := JObj [("xs", JArr [JNum "0"; JObj []])] in
  ok_ex (JObj schema) v = true /\ trim v w /\ option_map (fun s => ok_ex s w) (setProxyOutputSchema (Some (JObj schema))) = Some false.
Proof. vm_compute. tauto. Qed.
Lemma not_kept :
  let schema := [ty "object"; ("not", JObj [("properties", JObj [("xs", JObj [("const", JNull)])])])] in
  let v := JObj [("xs", JNum "1")] in
  let w := JObj [] in
  ok_ex (JObj schema) v = true /\ trim v w /\ option_map (fun s => ok_ex s w) (setProxyOutputSchema (Some (JObj schema))) = Some false.
Proof. vm_compute. tauto. Qed.
