(* ===== verification/FromJSON.v ===== *)
(** * JSON into TOON values (src/internal/toon/fromjson.go)

    The decoder of [FromJSON] over the token reader of JsonToken.v.  A value that is a
    container is read by one loop per bracket; [fuel] bounds the calls, and twice the
    length of the document is enough because every token takes at least one byte. *)
From S2P Require Import Prelude GoStr Utf8 GoStd.
From S2P Require Import ToonValue ToonQuote ToonNumbers ToonEncode ToonWriter ToonEncodeSpec ToonProps.
From S2P Require Import JsonText JsonToken JsonTokenProps.

Definition next_token (d : Decoder) : result (token * Decoder) :=
  match Token d with TokenOk t d => Ok (t, d) | TokenEOF | TokenBad => Err TokenError end.

Definition consumeClosingToken (d : Decoder) : result Decoder :=
  let* r := next_token d in Ok (snd r).

Definition valueFromNumber (n : string) : result value :=
  let* num := canonicalizeNumber n in Ok (VNumber num).

(** The state of [decodeObject]: the fields so far and the position of each key. *)
Record object_state : Type := { ofields : list (string * value); keyIndex : gmap string nat }.
Definition empty_object : object_state := {| ofields := []; keyIndex := ∅ |}.
Definition set_field (o : object_state) (key : string) (val : value) : object_state :=
  match keyIndex o !! key with
  | Some idx => {| ofields := alter (fun f => (fst f, val)) idx (ofields o); keyIndex := keyIndex o |}
  | None => {| ofields := ofields o ++ [(key, val)]; keyIndex := <[key := length (ofields o)]> (keyIndex o) |}
  end.

Fixpoint decodeValue (fuel : nat) (d : Decoder) : result (value * Decoder) :=
  match fuel with
  | O => Err OutOfFuel
  | S fuel =>
      let* '(tok, d) := next_token d in
      match tok with
      | JDelim c =>
          if Ascii.eqb c "{" then decodeObject fuel d empty_object
          else if Ascii.eqb c "[" then decodeArray fuel d []
          else Err UnexpectedDelim
      | JNull => Ok (VNull, d)
      | JBool b => Ok (VBool b, d)
      | JNumber n => let* v := valueFromNumber n in Ok (v, d)
      | JString s => Ok (VString s, d)
      end
  end
with decodeObject (fuel : nat) (d : Decoder) (o : object_state) : result (value * Decoder) :=
  match fuel with
  | O => Err OutOfFuel
  | S fuel =>
      if More d then
        let* '(keyTok, d) := next_token d in
        match keyTok with
        | JString key =>
            let* '(val, d) := decodeValue fuel d in
            decodeObject fuel d (set_field o key val)
        | _ => Err KeyNotString
        end
      else let* d := consumeClosingToken d in Ok (VObject (ofields o), d)
  end
with decodeArray (fuel : nat) (d : Decoder) (items : list value) : result (value * Decoder) :=
  match fuel with
  | O => Err OutOfFuel
  | S fuel =>
      if More d then
        let* '(item, d) := decodeValue fuel d in
        decodeArray fuel d (items ++ [item])
      else let* d := consumeClosingToken d in Ok (VArray items, d)
  end.

Definition decode_fuel (raw : string) : nat := 2 * String.length raw + 2.

Definition FromJSON (raw : string) : result value :=
  let* '(v, d) := decodeValue (decode_fuel raw) (NewDecoder raw) in
  match Token d with
  | TokenEOF => Ok v
  | TokenOk _ _ => Err TrailingData
  | TokenBad => Err TokenError
  end.

Example FromJSON_ex :
  FromJSON ("{" +:+ q "a" +:+ ": [1, 1e2 ,true , null] , " +:+ q "b" +:+ ":{}, " +:+ q "a" +:+ ":[] } ") =
    Ok (VObject [("a", VArray []); ("b", VObject [])]) /\
  FromJSON "[1,]" = Err TokenError /\ FromJSON "01" = Err TrailingData /\ FromJSON "[1 2]" = Err TokenError /\
  FromJSON (q (String backslash "u00e9" +:+ String backslash "ud83d" +:+ String backslash "ude00" +:+ String backslash "ud800x")) =
    Ok (VString (encode_rune 233 +:+ encode_rune 128512 +:+ encode_rune RuneError +:+ "x")).
Proof. vm_compute. tauto. Qed.

(** ** Duplicate keys *)
(** The value of the first binding of [k]. *)
Fixpoint assoc (k : string) (fs : list (string * value)) : value :=
  match fs with
  | [] => VInvalid
  | (k', v) :: fs => if String.eqb k' k then v else assoc k fs
  end.
(** Each key once, where it first occurs, with the value of its last occurrence. *)
Definition resolve_duplicates (fs : list (string * value)) : list (string * value) :=
  map (fun k => (k, assoc k (rev fs))) (rev (remove_dups (rev (map fst fs)))).

Lemma elem_of_rev {A} (x : A) l : x ∈ rev l <-> x ∈ l.
Proof. rewrite !list_elem_of_In. symmetry. apply in_rev. Qed.

Definition object_ok (o : object_state) : Prop :=
  NoDup (map fst (ofields o)) /\ forall k i, keyIndex o !! k = Some i <-> map fst (ofields o) !! i = Some k.

Lemma alter_fst (i : nat) (v : value) (fs : list (string * value)) : map fst (alter (fun f => (fst f, v)) i fs) = map fst fs.
Proof. revert i. induction fs as [|f fs IH]; intros [|i]; simpl; [done..|]. f_equal. apply IH. Qed.

Lemma empty_object_ok : object_ok empty_object.
Proof. split; [constructor|]. intros k i. cbn. by rewrite lookup_empty. Qed.

Lemma set_field_ok o k v : object_ok o -> object_ok (set_field o k v) /\
  map fst (ofields (set_field o k v)) = if decide (k ∈ map fst (ofields o)) then map fst (ofields o) else map fst (ofields o) ++ [k].
Proof.
  intros [Hn Hi]. unfold set_field. destruct (keyIndex o !! k) as [i|] eqn:E; cbn [ofields keyIndex].
  - pose proof (proj1 (Hi _ _) E) as Hk. unfold object_ok. cbn [ofields keyIndex]. rewrite alter_fst.
    split; [done|]. rewrite decide_True; [done|]. by eapply list_elem_of_lookup_2.
  - assert (k ∉ map fst (ofields o)) as Hk.
    { intros [i Hk]%list_elem_of_lookup. apply Hi in Hk. congruence. }
    rewrite decide_False by done. unfold object_ok. cbn [ofields keyIndex]. rewrite map_app. cbn [map fst]. split; [|done]. split.
    + apply NoDup_app. split_and!; [done| |apply NoDup_singleton]. by intros x Hx ->%list_elem_of_singleton.
    + intros k' i. rewrite lookup_insert_Some, lookup_app_Some, <- (length_map fst (ofields o)). rewrite Hi. split.
      * intros [[<- <-]|[Hne H]]; [right; split; [lia|by rewrite Nat.sub_diag]|by left].
      * intros [H|[Hl H]]; [right; split; [|done]; intros <-; by apply Hk; eapply list_elem_of_lookup_2|].
        destruct (i - length (map fst (ofields o)))%nat eqn:El; [|done]. injection H as <-. left. split; [done|lia].
Qed.

Lemma resolve_keys fs : map fst (resolve_duplicates fs) = rev (remove_dups (rev (map fst fs))).
Proof. unfold resolve_duplicates. rewrite map_map. apply map_id. Qed.

Definition set_fields (fs : list (string * value)) (o : object_state) : object_state :=
  foldl (fun o f => set_field o (fst f) (snd f)) o fs.

Lemma set_fields_resolve fs : object_ok (set_fields fs empty_object) /\ ofields (set_fields fs empty_object) = resolve_duplicates fs.
Proof.
  induction fs as [|[k v] fs [Hok IH]] using rev_ind; [split; [apply empty_object_ok|done]|].
  unfold set_fields in *. rewrite foldl_app. cbn [foldl fst snd]. set (o := foldl _ _ _) in *.
  destruct (set_field_ok o k v Hok) as [Hok' Hf]. split; [done|].
  assert (map fst (ofields o) = rev (remove_dups (rev (map fst fs)))) as Hm by (rewrite IH; apply resolve_keys).
  unfold resolve_duplicates. rewrite map_app, !rev_app_distr. cbn [map fst rev app remove_dups assoc].
  destruct Hok as [Hn Hi]. unfold set_field in *. destruct (keyIndex o !! k) as [i|] eqn:E; cbn [ofields].
  - pose proof (proj1 (Hi _ _) E) as Hk.
    assert (k ∈ rev (map fst fs)) as Hin.
    { apply list_elem_of_lookup_2 in Hk. rewrite Hm in Hk. rewrite elem_of_rev, elem_of_remove_dups in Hk. done. }
    destruct (decide_rel elem_of k (rev _)) as [Hy|Hx]; [|done]. rewrite <- Hm. apply list_eq. intros j.
    rewrite list_lookup_fmap. destruct (decide (i = j)) as [<-|Hne].
    + rewrite list_lookup_alter_eq, Hk. cbn [fmap option_fmap option_map].
      rewrite list_lookup_fmap in Hk. destruct (ofields o !! i) as [f|]; [|done]. cbn in Hk |- *. injection Hk as ->.
      by rewrite String.eqb_refl.
    + rewrite list_lookup_alter_ne by done. change (map fst (ofields o)) with (fst <$> ofields o). rewrite list_lookup_fmap.
      destruct (ofields o !! j) as [f|] eqn:Ej; [|done]. cbn.
      assert (fst f <> k) as Hfk.
      { intros Hfk. apply Hne. eapply (NoDup_lookup _ _ _ _ Hn Hk). rewrite list_lookup_fmap, Ej. cbn. by rewrite Hfk. }
      rewrite (proj2 (String.eqb_neq _ _)) by done. f_equal. rewrite IH in Ej. unfold resolve_duplicates in Ej.
      rewrite list_lookup_fmap in Ej. destruct (_ !! j); [|done]. cbn in Ej. by injection Ej as <-.
  - assert (k ∉ rev (map fst fs)) as Hin.
    { intros Hk. assert (k ∈ map fst (ofields o)) as [i Hx]%list_elem_of_lookup.
      { rewrite Hm. rewrite elem_of_rev, elem_of_remove_dups. done. }
      apply Hi in Hx. congruence. }
    destruct (decide_rel elem_of k (rev _)) as [Hx|Hy]; [done|]. cbn [rev]. rewrite map_app. cbn [map]. rewrite String.eqb_refl. f_equal.
    rewrite IH. unfold resolve_duplicates. apply map_ext_in. intros k' Hk'%list_elem_of_In.
    rewrite (proj2 (String.eqb_neq k k')); [done|]. intros <-. by rewrite elem_of_rev, elem_of_remove_dups in Hk'.
Qed.

(** ** Reading back printed JSON *)
Section readback.
Context (html : bool).

(** The compact JSON text of a value, its fields in order and duplicates kept. *)
Fixpoint json_text (v : value) : string :=
  match v with
  | VInvalid | VNull => "null"
  | VBool b => if b then "true" else "false"
  | VNumber n => n
  | VString s => json_string html s
  | VObject fs => "{" +:+ join "," (map (fun f => json_string html (fst f) +:+ ":" +:+ json_text (snd f)) fs) +:+ "}"
  | VArray l => "[" +:+ join "," (map json_text l) +:+ "]"
  end.

(** Strings are UTF-8 and numbers are JSON literals. *)
Inductive json_value : value -> Prop :=
| JvNull : json_value VNull
| JvBool b : json_value (VBool b)
| JvNumber n : json_number n -> json_value (VNumber n)
| JvString s : valid_utf8 s = true -> json_value (VString s)
| JvObject fs : Forall (fun f => valid_utf8 (fst f) = true /\ json_value (snd f)) fs -> json_value (VObject fs)
| JvArray l : Forall json_value l -> json_value (VArray l).

(** Numbers in canonical form, duplicate keys resolved. *)
Fixpoint decoded_form (v : value) : value :=
  match v with
  | VNumber n => VNumber (match canonicalizeNumber n with Ok t => t | Err _ => n end)
  | VObject fs => VObject (resolve_duplicates (map (fun f => (fst f, decoded_form (snd f))) fs))
  | VArray l => VArray (map decoded_form l)
  | v => v
  end.

Definition member_text (f : string * value) : string := json_string html (fst f) +:+ ":" +:+ json_text (snd f).
(** What follows the first element of a sequence. *)
Definition commas (l : list string) : string := concat_str (map (fun s => "," +:+ s) l).

Lemma join_commas s l : join "," (s :: l) = s +:+ commas l.
Proof.
  revert s. induction l as [|t l IH]; intros s; [by rewrite str_app_nil_r|].
  change (join "," (s :: t :: l)) with (s +:+ "," +:+ join "," (t :: l)). rewrite IH. unfold commas. cbn [map concat_str foldr].
  by rewrite <- !str_app_assoc.
Qed.

Lemma text_head v : json_value v -> exists c u, json_text v = String c u /\ value_head c = true.
Proof.
  destruct 1 as [|[]|n Hn|s Hs|fs Hf|l Hl]; cbn [json_text]; try (by eexists _, _).
  destruct (json_number_head n Hn) as (c & t & -> & [->|Hc]); eexists _, _; (split; [done|]); [done|].
  clear Hn. revert c Hc. by apply ascii_impl_dec.
Qed.

Definition reads (v : value) : Prop := forall fuel p st st' stk r,
  lead p st st' -> tokenValueAllowed st' = true -> stops r = true -> (2 * String.length (json_text v) + 1 <= fuel)%nat ->
  decodeValue fuel {| rest := p +:+ json_text v +:+ r; state := st; stack := stk |} =
  Ok (decoded_form v, {| rest := r; state := tokenValueEnd st'; stack := stk |}).

Lemma next_token_ok d t d' : Token d = TokenOk t d' -> next_token d = Ok (t, d').
Proof. unfold next_token. by intros ->. Qed.

(** A value read as one scalar token. *)
Lemma reads_scalar v t fuel p st st' stk r c u : json_text v +:+ r = String c u -> value_head c = true -> open_state c = None ->
  decode_scalar (json_text v +:+ r) = Some (t, r) ->
  lead p st st' -> tokenValueAllowed st' = true -> (0 < fuel)%nat ->
  (forall d : Decoder, (match t with
   | JNull => Ok (VNull, d) | JBool b => Ok (VBool b, d) | JString s => Ok (VString s, d)
   | JNumber n => let* v := valueFromNumber n in Ok (v, d) | JDelim _ => Err UnexpectedDelim end : result (value * Decoder)) = Ok (decoded_form v, d)) ->
  decodeValue fuel {| rest := p +:+ json_text v +:+ r; state := st; stack := stk |} =
  Ok (decoded_form v, {| rest := r; state := tokenValueEnd st'; stack := stk |}).
Proof.
  intros E Hc Ho Hd Hl Ha Hf Ht. destruct fuel as [|fuel]; [lia|]. cbn [decodeValue]. rewrite E in *.
  erewrite next_token_ok; [|rewrite (Token_lead _ _ _ _ _ _ Hl Hc); by apply token_at_scalar]. cbn [rbind].
  destruct t; try apply Ht. discriminate (Ht {| rest := ""; state := st; stack := [] |}).
Qed.

Lemma reads_array_step fuel x p st st' stk r acc : reads x -> json_value x ->
  lead p st st' -> tokenValueAllowed st' = true -> tokenValueEnd st' = tokenArrayComma -> st <> tokenObjectColon -> stops r = true ->
  (2 * String.length (json_text x) + 1 <= fuel)%nat ->
  decodeArray (S fuel) {| rest := p +:+ json_text x +:+ r; state := st; stack := stk |} acc =
  decodeArray fuel {| rest := r; state := tokenArrayComma; stack := stk |} (acc ++ [decoded_form x]).
Proof.
  intros Hx Hv Hl Ha He Hs Hr Hf. destruct (text_head x Hv) as (c & u & E & Hc). cbn [decodeArray].
  erewrite More_lead; [|exact Hl|done|exact Hc|cbn [rest]; rewrite E; reflexivity].
  erewrite Hx by done. cbn [rbind]. by rewrite He.
Qed.

Lemma reads_close c st st0 stk r : c = "]"%char \/ c = "}"%char -> closes c st = true ->
  let d := {| rest := String c r; state := st; stack := st0 :: stk |} in
  More d = false /\ consumeClosingToken d = Ok {| rest := r; state := tokenValueEnd st0; stack := stk |}.
Proof.
  intros [->| ->] Hc; unfold More, consumeClosingToken, next_token, Token; cbn [rest state stack skip_ws]; (split; [done|]);
    destruct st; (discriminate Hc || reflexivity).
Qed.

Lemma reads_array_tail l : Forall (fun x => reads x /\ json_value x) l -> forall fuel acc st0 stk r, stops r = true ->
  (2 * String.length (commas (map json_text l)) + 1 <= fuel)%nat ->
  decodeArray fuel {| rest := commas (map json_text l) +:+ "]" +:+ r; state := tokenArrayComma; stack := st0 :: stk |} acc =
  Ok (VArray (acc ++ map decoded_form l), {| rest := r; state := tokenValueEnd st0; stack := stk |}).
Proof.
  induction 1 as [|x l [Hx Hv] _ IH]; intros fuel acc st0 stk r Hr Hf; (destruct fuel as [|fuel]; [lia|]).
  - cbn [commas map concat_str foldr String.append decodeArray].
    destruct (reads_close "]" tokenArrayComma st0 stk r) as [-> ->]; [auto|done|]. cbn [rbind]. by rewrite app_nil_r.
  - unfold commas in Hf |- *. cbn [map concat_str foldr] in *. change (foldr append "") with concat_str in *.
    change (concat_str (map (fun s => "," +:+ s) (map json_text l))) with (commas (map json_text l)) in *.
    rewrite !str_length_app in Hf. cbn [String.length] in Hf. rewrite <- !str_app_assoc.
    rewrite (reads_array_step fuel x "," tokenArrayComma tokenArrayValue); [|first [done | lia | unfold lead; tauto | by destruct l]..].
    rewrite IH by (done || lia). by rewrite <- app_assoc.
Qed.

Lemma token_at_key u st stk t r : key_allowed st = true -> decode_scalar (String dquote u) = Some (t, r) ->
  token_at dquote (String dquote u) st stk = TokenOk t {| rest := r; state := tokenObjectColon; stack := stk |}.
Proof.
  intros Ha Hd. unfold token_at. change (open_state dquote) with (@None tokenState). cbv iota.
  change (Ascii.eqb dquote "]" || Ascii.eqb dquote "}") with false. rewrite Ascii.eqb_refl, Ha. cbn [andb]. by rewrite Hd.
Qed.

Lemma reads_member_step fuel f p st st' stk r o : reads (snd f) -> json_value (snd f) -> valid_utf8 (fst f) = true ->
  lead p st st' -> key_allowed st' = true -> st <> tokenObjectColon -> stops r = true ->
  (2 * String.length (json_text (snd f)) + 1 <= fuel)%nat ->
  decodeObject (S fuel) {| rest := p +:+ member_text f +:+ r; state := st; stack := stk |} o =
  decodeObject fuel {| rest := r; state := tokenObjectComma; stack := stk |} (set_field o (fst f) (decoded_form (snd f))).
Proof.
  intros Hx Hv Hk Hl Ha Hs Hr Hf. cbn [decodeObject]. unfold member_text. rewrite <- !str_app_assoc.
  pose proof (decode_scalar_string html (fst f) (":" +:+ json_text (snd f) +:+ r) Hk) as Hd.
  destruct (json_string html (fst f) +:+ ":" +:+ json_text (snd f) +:+ r) as [|c u] eqn:E; [done|].
  assert (c = dquote) as -> by (unfold json_string in E; by injection E).
  erewrite More_lead; [|exact Hl|done| |reflexivity]; [|done].
  erewrite next_token_ok; [|rewrite (Token_lead _ _ _ dquote u _ Hl eq_refl); by apply token_at_key].
  cbn [rbind]. rewrite (Hx fuel ":" tokenObjectColon tokenObjectValue); [done|unfold lead; tauto|done..].
Qed.

Lemma reads_object_tail fs : Forall (fun f => reads (snd f) /\ json_value (snd f) /\ valid_utf8 (fst f) = true) fs ->
  forall fuel o st0 stk r, stops r = true -> (2 * String.length (commas (map member_text fs)) + 1 <= fuel)%nat ->
  decodeObject fuel {| rest := commas (map member_text fs) +:+ "}" +:+ r; state := tokenObjectComma; stack := st0 :: stk |} o =
  Ok (VObject (ofields (set_fields (map (fun f => (fst f, decoded_form (snd f))) fs) o)), {| rest := r; state := tokenValueEnd st0; stack := stk |}).
Proof.
  induction 1 as [|f fs (Hx & Hv & Hk) _ IH]; intros fuel o st0 stk r Hr Hf; (destruct fuel as [|fuel]; [lia|]).
  - cbn [commas map concat_str foldr String.append decodeObject].
    by destruct (reads_close "}" tokenObjectComma st0 stk r) as [-> ->]; [auto|done|].
  - unfold commas in Hf |- *. cbn [map concat_str foldr] in *. change (foldr append "") with concat_str in *.
    change (concat_str (map (fun s => "," +:+ s) (map member_text fs))) with (commas (map member_text fs)) in *.
    rewrite !str_length_app in Hf. cbn [String.length] in Hf. rewrite <- !str_app_assoc.
    assert (String.length (json_text (snd f)) <= String.length (member_text f))%nat
      by (unfold member_text; rewrite !str_length_app; lia).
    rewrite (reads_member_step fuel f "," tokenObjectComma tokenObjectKey); [|first [done | lia | unfold lead; tauto | by destruct fs]..].
    rewrite IH by (done || lia). done.
Qed.
End readback.

Lemma bracket_step fuel c p st st' stk u : lead p st st' -> tokenValueAllowed st' = true -> c = "["%char \/ c = "{"%char ->
  decodeValue (S fuel) {| rest := p +:+ String c u; state := st; stack := stk |} =
  if Ascii.eqb c "{" then decodeObject fuel {| rest := u; state := tokenObjectStart; stack := st' :: stk |} empty_object
  else decodeArray fuel {| rest := u; state := tokenArrayStart; stack := st' :: stk |} [].
Proof.
  intros Hl Ha Hc. cbn [decodeValue].
  assert (value_head c = true) as Hh by (by destruct Hc as [->| ->]).
  destruct Hc as [->| ->]; (erewrite next_token_ok;
    [|rewrite (Token_lead _ _ _ _ _ _ Hl Hh); unfold token_at; cbn [open_state Ascii.eqb Bool.eqb andb]; rewrite Ha; reflexivity]); done.
Qed.

Lemma reads_array html l : Forall (fun x => reads html x /\ json_value x) l -> reads html (VArray l).
Proof.
  intros Hl fuel p st st' stk r Hlead Ha Hr Hf. cbn [json_text decoded_form] in *. rewrite !str_length_app in Hf. cbn [String.length] in Hf.
  rewrite <- !str_app_assoc. destruct fuel as [|fuel]; [lia|]. cbn [String.append]. rewrite bracket_step with (st' := st') by auto.
  cbn [Ascii.eqb Bool.eqb andb]. destruct Hl as [|x l [Hx Hv] Hl].
  - destruct fuel as [|fuel]; [lia|]. cbn [map join String.append decodeArray].
    by destruct (reads_close "]" tokenArrayStart st' stk r) as [-> ->]; [auto|done|].
  - cbn [map] in *. rewrite join_commas, str_length_app in *. destruct fuel as [|fuel]; [lia|]. rewrite <- str_app_assoc.
    match goal with |- context [Build_Decoder ?t _ _] => change t with ("" +:+ t) end.
    rewrite (reads_array_step html fuel x "" tokenArrayStart tokenArrayStart); [|first [done | lia | unfold lead; tauto | by destruct l]..].
    change (String "]" r) with ("]" +:+ r). rewrite (reads_array_tail html l) by (done || lia). done.
Qed.

Lemma reads_object html fs : Forall (fun f => reads html (snd f) /\ json_value (snd f) /\ valid_utf8 (fst f) = true) fs -> reads html (VObject fs).
Proof.
  intros Hl fuel p st st' stk r Hlead Ha Hr Hf. cbn [json_text decoded_form] in *. change (map (fun f => _ +:+ _) fs) with (map (member_text html) fs) in *.
  rewrite !str_length_app in Hf. cbn [String.length] in Hf.
  rewrite <- (proj2 (set_fields_resolve _)).
  rewrite <- !str_app_assoc. destruct fuel as [|fuel]; [lia|]. cbn [String.append]. rewrite bracket_step with (st' := st') by auto.
  cbn [Ascii.eqb Bool.eqb andb]. destruct Hl as [|f fs (Hx & Hv & Hk) Hl].
  - destruct fuel as [|fuel]; [lia|]. cbn [map join String.append decodeObject].
    by destruct (reads_close "}" tokenObjectStart st' stk r) as [-> ->]; [auto|done|].
  - cbn [map] in *. rewrite join_commas, str_length_app in *. destruct fuel as [|fuel]; [lia|]. rewrite <- str_app_assoc.
    assert (String.length (json_text html (snd f)) <= String.length (member_text html f))%nat
      by (unfold member_text; rewrite !str_length_app; lia).
    match goal with |- context [Build_Decoder ?t _ _] => change t with ("" +:+ t) end.
    rewrite (reads_member_step html fuel f "" tokenObjectStart tokenObjectStart); [|first [done | lia | unfold lead; tauto | by destruct fs]..].
    change (String "}" r) with ("}" +:+ r). rewrite (reads_object_tail html fs) by (done || lia). done.
Qed.

Lemma reads_value html v : json_value v -> reads html v.
Proof.
  induction v as [| |b|n|s|fs IH|l IH] using value_ind'; inversion 1 as [|b'|n' Hn|s' Hs|fs' Hf|l' Hl]; subst.
  1-4: intros fuel p st st' stk r Hlead Ha Hr Hfuel.
  - eapply (reads_scalar html VNull JNull); [reflexivity|done|done| |done..|lia|done]. by apply decode_scalar_literal; do 1 left.
  - destruct b;
      [eapply (reads_scalar html (VBool true) (JBool true))|eapply (reads_scalar html (VBool false) (JBool false))];
      first [reflexivity | done | lia | apply decode_scalar_literal; set_solver].
  - destruct (json_number_head n Hn) as (c & u & E & Hc).
    assert (value_head c = true /\ open_state c = None) as [H1 H2].
    { destruct Hc as [->|Hc]; [done|]. clear E. split; revert c Hc; [by apply ascii_impl_dec|].
      intros c Hc. enough (negb (Ascii.eqb c "[" || Ascii.eqb c "{") = true) as Hx.
      { unfold open_state. by destruct (Ascii.eqb c "["), (Ascii.eqb c "{"). }
      revert c Hc. by apply ascii_impl_dec. }
    eapply (reads_scalar html (VNumber n) (JNumber n)); [cbn [json_text]; by rewrite E|done|done| |done..|lia|].
    + by apply decode_scalar_number.
    + intros d. unfold valueFromNumber. destruct (encodeNum_json n Hn) as [t Ht]. unfold encodeNum in Ht. cbn [decoded_form].
      by rewrite Ht.
  - eapply (reads_scalar html (VString s) (JString s)); [cbn [json_text]; by unfold json_string|done|done| |done..|lia|done].
    by apply decode_scalar_string.
  - apply reads_object. apply Forall_forall. intros f Hin. rewrite Forall_forall in IH, Hf.
    destruct (Hf f Hin) as [Hk Hv]. split_and!; [by apply IH|done..].
  - apply reads_array. apply Forall_forall. intros x Hin. rewrite Forall_forall in IH, Hl. split; [apply IH|]; auto.
Qed.

(** C9: the printed JSON of any value, with or without the HTML escapes, is read back
    to that value with its numbers in canonical form and its duplicate keys resolved:
    each key stays where it first occurs and gets the value of its last occurrence. *)
Theorem fromJSON_reads_printed html v : json_value v -> FromJSON (json_text html v) = Ok (decoded_form v).
Proof.
  intros Hv. unfold FromJSON, decode_fuel, NewDecoder.
  pose proof (reads_value html v Hv (2 * String.length (json_text html v) + 2)%nat "" tokenTopValue tokenTopValue [] "") as H.
  rewrite str_app_nil_r in H. cbn [String.append] in H. rewrite H; [done|unfold lead; tauto|done|done|lia].
Qed.

Lemma fromJSON_reads_printed_witness :
  let v := VObject [("a", VNumber "1e2"); ("b", VArray [VString (q "<x>"); VBool false]); ("a", VNull)] in
  json_value v /\ FromJSON (json_text true v) = Ok (VObject [("a", VNull); ("b", VArray [VString (q "<x>"); VBool false])]).
Proof.
  intros v. assert (json_value v) as Hv.
  { constructor. repeat (apply Forall_cons_2; [split; [reflexivity|]|]); [..|apply Forall_nil_2].
    - apply JvNumber, isValidJSONNumberLexeme_spec. reflexivity.
    - constructor. repeat (apply Forall_cons_2; [|]); [by apply JvString|apply JvBool|apply Forall_nil_2].
    - apply JvNull. }
  split; [exact Hv|]. transitivity (@Ok toon_error value (decoded_form v)); [exact (fromJSON_reads_printed true v Hv)|].
  vm_compute. reflexivity.
Defined.

(** ** Well-formedness of what is decoded *)
Inductive decoded_ok : value -> Prop :=
| DecNull : decoded_ok VNull
| DecBool b : decoded_ok (VBool b)
| DecNumber lexeme n : canonicalizeNumber lexeme = Ok n -> decoded_ok (VNumber n)
| DecString s : valid_utf8 s = true -> decoded_ok (VString s)
| DecObject fs : NoDup (map fst fs) -> Forall (fun f => valid_utf8 (fst f) = true /\ decoded_ok (snd f)) fs -> decoded_ok (VObject fs)
| DecArray l : Forall decoded_ok l -> decoded_ok (VArray l).

Definition field_ok (f : string * value) : Prop := valid_utf8 (fst f) = true /\ decoded_ok (snd f).
Definition decode_spec (extra fuel : nat) (d : Decoder) (r : result (value * Decoder)) : Prop :=
  match r with
  | Ok (v, d') => decoded_ok v /\ (String.length (rest d') < String.length (rest d))%nat
  | Err e => e = OutOfFuel -> (fuel < 2 * String.length (rest d) + extra)%nat
  end.

Lemma next_token_spec d : match next_token d with
  | Ok (t, d') => (String.length (rest d') < String.length (rest d))%nat /\ (forall s, t = JString s -> valid_utf8 s = true)
  | Err e => e = TokenError end.
Proof.
  unfold next_token. destruct (Token d) as [t d'| |] eqn:E; [|done..]. split; [by eapply Token_shorter|].
  intros s ->. by eapply Token_valid.
Qed.

Lemma set_field_all o k v : Forall field_ok (ofields o) -> field_ok (k, v) -> Forall field_ok (ofields (set_field o k v)).
Proof.
  intros Ho [Hk Hv]. unfold set_field. destruct (keyIndex o !! k); cbn [ofields].
  - apply Forall_alter; [done|]. intros f _ [? _]. by split.
  - apply Forall_app_2; [done|]. by apply Forall_singleton.
Qed.

Lemma decode_spec_all fuel :
  (forall d, decode_spec 1 fuel d (decodeValue fuel d)) /\
  (forall d o, object_ok o -> Forall field_ok (ofields o) -> decode_spec 2 fuel d (decodeObject fuel d o)) /\
  (forall d l, Forall decoded_ok l -> decode_spec 2 fuel d (decodeArray fuel d l)).
Proof.
  induction fuel as [|fuel (IHv & IHo & IHa)]; [split_and!; intros; cbn; lia|]. split_and!.
  - intros d. cbn [decodeValue]. pose proof (next_token_spec d) as Ht. destruct (next_token d) as [[t d']|e]; [|by subst].
    cbn [rbind]. destruct Ht as [Hl Hs]. destruct t as [c| |b|n|s]; cbn [decode_spec].
    + destruct (Ascii.eqb c "{"); [|destruct (Ascii.eqb c "["); [|done]].
      * specialize (IHo d' empty_object empty_object_ok (Forall_nil_2 _)). unfold decode_spec in *.
        destruct (decodeObject _ _ _) as [[v d'']|]; [|intros E; specialize (IHo E); lia]. split; [tauto|lia].
      * specialize (IHa d' [] (Forall_nil_2 _)). unfold decode_spec in *.
        destruct (decodeArray _ _ _) as [[v d'']|]; [|intros E; specialize (IHa E); lia]. split; [tauto|lia].
    + split; [constructor|done].
    + split; [constructor|done].
    + unfold valueFromNumber. destruct (canonicalizeNumber n) eqn:E; cbn; [split; [by econstructor|done]|].
      intros ->. by apply canonicalizeNumber_err in E as [l [=]].
    + split; [|done]. constructor. by apply Hs.
  - intros d o Ho Hf. cbn [decodeObject]. destruct (More d).
    + pose proof (next_token_spec d) as Ht. destruct (next_token d) as [[t d']|e]; [|by subst]. cbn [rbind].
      destruct Ht as [Hl Hs]. destruct t as [c| |b|n|s]; try done. specialize (IHv d'). unfold decode_spec in IHv.
      destruct (decodeValue fuel d') as [[v d2]|e]; cbn [rbind]; [|cbn; intros E; specialize (IHv E); lia]. destruct IHv as [Hv Hl2].
      specialize (IHo d2 (set_field o s v) (proj1 (set_field_ok _ _ _ Ho)) (set_field_all _ _ _ Hf (conj (Hs _ eq_refl) Hv))).
      unfold decode_spec in *. destruct (decodeObject _ _ _) as [[w d3]|]; [split; [tauto|lia]|intros E; specialize (IHo E); lia].
    + unfold consumeClosingToken. pose proof (next_token_spec d) as Ht. destruct (next_token d) as [[t d']|e]; [|by subst].
      cbn. split; [|tauto]. constructor; [apply Ho|done].
  - intros d l Hl. cbn [decodeArray]. destruct (More d).
    + specialize (IHv d). unfold decode_spec in IHv. destruct (decodeValue fuel d) as [[v d2]|e]; cbn [rbind]; [|cbn; intros E; specialize (IHv E); lia].
      destruct IHv as [Hv Hl2]. specialize (IHa d2 (l ++ [v]) (Forall_app_2 _ _ _ Hl (Forall_cons_2 _ _ _ Hv (Forall_nil_2 _)))).
      unfold decode_spec in *. destruct (decodeArray _ _ _) as [[w d3]|]; [split; [tauto|lia]|intros E; specialize (IHa E); lia].
    + unfold consumeClosingToken. pose proof (next_token_spec d) as Ht. destruct (next_token d) as [[t d']|e]; [|by subst].
      cbn. split; [|tauto]. by constructor.
Qed.

(** on any bytes at all [FromJSON] ends with an error of the source or with a
    well-formed value: its strings and keys are UTF-8, its numbers are canonical, and
    no object has the same key twice. *)
Theorem fromJSON_wellformed raw :
  match FromJSON raw with Ok v => decoded_ok v | Err e => e <> OutOfFuel end.
Proof.
  unfold FromJSON. pose proof (proj1 (decode_spec_all (decode_fuel raw)) (NewDecoder raw)) as H. unfold decode_spec in H.
  destruct (decodeValue _ _) as [[v d]|e]; cbn [rbind].
  - destruct (Token d); [done|tauto|done].
  - intros ->. specialize (H eq_refl). unfold decode_fuel, NewDecoder in H. cbn [rest] in H. lia.
Qed.
