(* ===== verification/Url.v ===== *)
(** * URLs (Go's package net/url)

    The parser and the printer of [url.URL] that the source relies on: escapes, the parts of
    the authority, paths that keep the escapes they were written with.  The names are those
    of the package. *)
From S2P Require Import Prelude GoStr GoStd.

(** * IP addresses (Go's package net)

    An IP address is its list of bytes (4 or 16), as [net.IP]: ranges, parsing, and host and
    port of an address. *)

Definition IP : Type := list Z.

Definition v4InV6Prefix : list Z := [0; 0; 0; 0; 0; 0; 0; 0; 0; 0; 255; 255].

Definition To4 (ip : IP) : option IP :=
  if Nat.eqb (length ip) 4 then Some ip
  else if Nat.eqb (length ip) 16 && bool_decide (take 12 ip = v4InV6Prefix) then Some (drop 12 ip)
  else None.
Definition To16 (ip : IP) : option IP :=
  if Nat.eqb (length ip) 4 then Some (v4InV6Prefix ++ ip)
  else if Nat.eqb (length ip) 16 then Some ip
  else None.

Record IPNet : Type := { net_ip : list Z; net_mask : list Z }.

(** The first [n] bits set, over [len] bytes. *)
Fixpoint CIDRMask (n : Z) (len : nat) : list Z :=
  match len with
  | O => []
  | S len => (if 8 <=? n then 255 else if n <=? 0 then 0 else 256 - 2 ^ (8 - n)) :: CIDRMask (n - 8) len
  end.
Definition cidr (ip : list Z) (bits : Z) : IPNet := {| net_ip := ip; net_mask := CIDRMask bits (length ip) |}.

Fixpoint masked_eqb (a m b : list Z) : bool :=
  match a, m, b with
  | x :: a, k :: m, y :: b => (Z.land x k =? Z.land y k) && masked_eqb a m b
  | _, _, _ => true
  end.

Definition Contains (n : IPNet) (ip : IP) : bool :=
  let ip := default ip (To4 ip) in
  Nat.eqb (length ip) (length (net_ip n)) && masked_eqb (net_ip n) (net_mask n) ip.

Definition byte_at (ip : IP) (i : nat) : Z := nth i ip 0.

Definition IsPrivate (ip : IP) : bool :=
  match To4 ip with
  | Some ip4 =>
      (byte_at ip4 0 =? 10) || ((byte_at ip4 0 =? 172) && (Z.land (byte_at ip4 1) 240 =? 16)) ||
      ((byte_at ip4 0 =? 192) && (byte_at ip4 1 =? 168))
  | None => Nat.eqb (length ip) 16 && (Z.land (byte_at ip 0) 254 =? 252)
  end.

Definition IPv6loopback : IP := [0; 0; 0; 0; 0; 0; 0; 0; 0; 0; 0; 0; 0; 0; 0; 1].
Definition IsLoopback (ip : IP) : bool :=
  match To4 ip with Some ip4 => byte_at ip4 0 =? 127 | None => bool_decide (ip = IPv6loopback) end.

(** [net.ParseIP], after [netip.ParseAddr]. *)
Definition parse_octet (s : string) : option Z :=
  match parse_uint s with
  | Some n => if (n <=? 255) && (String.eqb s "0" || negb (has_prefix s "0")) then Some n else None
  | None => None
  end.

Definition parseIPv4 (s : string) : option (list Z) :=
  match split_byte s "." with
  | [a; b; c; d] =>
      match parse_octet a, parse_octet b, parse_octet c, parse_octet d with
      | Some a, Some b, Some c, Some d => Some [a; b; c; d]
      | _, _, _, _ => None
      end
  | _ => None
  end.

Definition hex_value (c : ascii) : option Z :=
  if is_digit c then Some (bz c - 48)
  else if in_range 97 102 c then Some (bz c - 87)
  else if in_range 65 70 c then Some (bz c - 55)
  else None.

(** A run of hex digits: its value, its length, the rest. *)
Fixpoint hex_run (s : string) (acc : Z) (n : nat) : Z * nat * string :=
  match s with
  | String c s' => match hex_value c with Some v => hex_run s' (acc * 16 + v) (S n) | None => (acc, n, s) end
  | "" => (acc, n, "")
  end.

(** The fields read so far, where the ellipsis is, and the rest of the text. *)
Fixpoint ipv6_fields (fuel : nat) (fields : list Z) (ellipsis : option nat) (s : string) : option (list Z * option nat) :=
  match fuel with
  | O => if String.eqb s "" then Some (fields, ellipsis) else None
  | S fuel =>
      let '(acc, off, rest) := hex_run s 0 0 in
      if Nat.eqb off 0 || Nat.ltb 4 off then None
      else
        match rest with
        | "" => Some (fields ++ [acc / 256; acc mod 256], ellipsis)
        | String c rest' =>
            if Ascii.eqb c "." then
              if (match ellipsis with None => negb (Nat.eqb (length fields) 12) | Some _ => false end) || Nat.ltb 12 (length fields)
              then None
              else match parseIPv4 s with Some ip4 => Some (fields ++ ip4, ellipsis) | None => None end
            else if Ascii.eqb c ":" then
              let fields := fields ++ [acc / 256; acc mod 256] in
              match rest' with
              | "" => None
              | String d rest'' =>
                  if Ascii.eqb d ":" then
                    match ellipsis with
                    | Some _ => None
                    | None => if String.eqb rest'' "" then Some (fields, Some (length fields)) else ipv6_fields fuel fields (Some (length fields)) rest''
                    end
                  else ipv6_fields fuel fields ellipsis rest'
              end
            else None
        end
  end.

(** At most eight fields of two bytes. *)
Definition parseIPv6 (s : string) : option (list Z) :=
  if byte_in "%" s then None
  else
    let '(ellipsis, s) := if has_prefix s "::" then (Some 0%nat, str_drop 2 s) else (None, s) in
    match (if String.eqb s "" then match ellipsis with Some _ => Some ([], ellipsis) | None => None end
           else ipv6_fields 8 [] ellipsis s) with
    | None => None
    | Some (fields, None) => if Nat.eqb (length fields) 16 then Some fields else None
    | Some (fields, Some e) =>
        if Nat.ltb (length fields) 16 then Some (take e fields ++ replicate (16 - length fields) 0 ++ drop e fields) else None
    end.

Fixpoint first_of (s : string) : option ascii :=
  match s with
  | "" => None
  | String c s' => if Ascii.eqb c "." || Ascii.eqb c ":" || Ascii.eqb c "%" then Some c else first_of s'
  end.

Definition ParseIP (s : string) : option IP :=
  match first_of s with
  | Some c => if Ascii.eqb c "." then option_map (app v4InV6Prefix) (parseIPv4 s)
              else if Ascii.eqb c ":" then parseIPv6 s else None
  | None => None
  end.

(** [net.SplitHostPort]. *)
Inductive addr_error : Type := MissingPort | TooManyColons | MissingBracket | UnexpectedOpen | UnexpectedClose.

Definition SplitHostPort (hostport : string) : res addr_error (string * string) :=
  match last_index_byte hostport ":" with
  | None => Err MissingPort
  | Some i =>
      let finish (host : string) (j k : nat) :=
        if byte_in "[" (str_drop j hostport) then Err UnexpectedOpen
        else if byte_in "]" (str_drop k hostport) then Err UnexpectedClose
        else Ok (host, str_drop (S i) hostport) in
      if has_prefix hostport "[" then
        match index_byte hostport "]" with
        | None => Err MissingBracket
        | Some end_ =>
            if Nat.eqb (S end_) (String.length hostport) then Err MissingPort
            else if Nat.eqb (S end_) i then finish (str_drop 1 (str_take end_ hostport)) 1%nat (S end_)
            else if has_prefix (str_drop (S end_) hostport) ":" then Err TooManyColons else Err MissingPort
        end
      else
        let host := str_take i hostport in
        if byte_in ":" host then Err TooManyColons else finish host 0%nat 0%nat
  end.

(** * URLs *)
(** ** Escapes *)
Inductive encoding : Type := encodePath | encodePathSegment | encodeHost | encodeZone | encodeUserPassword | encodeFragment.

Definition host_mode (m : encoding) : bool := match m with encodeHost | encodeZone => true | _ => false end.
Definition shouldEscape (c : ascii) (m : encoding) : bool :=
  if is_alnum c then false
  else if host_mode m && byte_in c ("!$&'()*+,;=:[]<>" +:+ String (az 34) "") then false
  else if byte_in c "-_.~" then false
  else if negb (host_mode m) && byte_in c "$&+,/:;=?@" then
    match m with
    | encodePath => byte_in c "?"
    | encodePathSegment => byte_in c "/;,?"
    | encodeUserPassword => byte_in c "@/?:"
    | _ => false
    end
  else match m with encodeFragment => negb (byte_in c "!()*") | _ => true end.

Definition upper_hex (n : Z) : ascii := if n <? 10 then az (48 + n) else az (55 + n).
Definition percent (c : ascii) : string := String "%" (String (upper_hex (bz c / 16)) (String (upper_hex (bz c mod 16)) "")).
Definition url_escape (s : string) (m : encoding) : string := str_flat_map (fun c => if shouldEscape c m then percent c else String c "") s.

Inductive url_error : Type :=
| ControlCharacter | MissingProtocolScheme | FirstSegmentColon | InvalidUserinfo | InvalidPort | MissingCloseBracket | InvalidLiteral
| EscapeError (text : string) | InvalidHostError (c : ascii).

(** A byte written as an escape, in the mode. *)
Definition unescaped (h l : ascii) (m : encoding) : option ascii :=
  match hex_value h, hex_value l with
  | Some x, Some y =>
      let v := az (x * 16 + y) in
      let percent_sign := Ascii.eqb v "%" in
      match m with
      | encodeHost => if (x <? 8) && negb percent_sign then None else Some v
      | encodeZone => if negb percent_sign && negb (Ascii.eqb v " ") && shouldEscape v encodeHost then None else Some v
      | _ => Some v
      end
  | _, _ => None
  end.
Fixpoint url_unescape (s : string) (m : encoding) : res url_error string :=
  match s with
  | "" => Ok ""
  | String c s' =>
      if Ascii.eqb c "%" then
        match s' with
        | String h (String l s'') =>
            match unescaped h l m with
            | None => Err (EscapeError (str_take 3 s))
            | Some v => let* t := url_unescape s'' m in Ok (String v t)
            end
        | _ => Err (EscapeError (str_take 3 s))
        end
      else if host_mode m && (bz c <? 128) && shouldEscape c m then Err (InvalidHostError c)
      else let* t := url_unescape s' m in Ok (String c t)
  end.
Definition PathUnescape (s : string) : res url_error string := url_unescape s encodePathSegment.

(** ** The authority *)
Record Userinfo : Type := { username : string; password : option string }.

Definition validOptionalPort (port : string) : bool :=
  match port with "" => true | String c p => Ascii.eqb c ":" && str_forall is_digit p end.
Definition validUserinfo (s : string) : bool := str_forall (fun c => is_alnum c || byte_in c "-._:~!$&'()*+,;=%@") s.

(** [netip.ParseAddr] finds an IPv6 address, perhaps with a zone. *)
Definition ipv6_literal (s : string) : bool :=
  let '(addr, zone, found) := cut_byte s "%" in
  match first_of s with
  | Some c => Ascii.eqb c ":" && (match parseIPv6 addr with Some _ => true | None => false end) && (negb found || negb (String.eqb zone ""))
  | None => false
  end.
Definition parseHost (host : string) : res url_error string :=
  match last_index_byte host "[" with
  | Some (S _) => Err InvalidLiteral
  | Some O =>
      match last_index_byte host "]" with
      | None => Err MissingCloseBracket
      | Some i =>
          let colonPort := str_drop (S i) host in
          if negb (validOptionalPort colonPort) then Err InvalidPort
          else
            let* port := url_unescape colonPort encodeHost in
            let hostname := str_drop 1 (str_take i host) in
            let* name := match index_str hostname "%25" with
                         | Some z => let* a := url_unescape (str_take z hostname) encodeHost in let* b := url_unescape (str_drop z hostname) encodeZone in Ok (a +:+ b)
                         | None => url_unescape hostname encodeHost
                         end in
            if ipv6_literal name then Ok ("[" +:+ name +:+ "]" +:+ port) else Err InvalidLiteral
      end
  | None =>
      let port_ok := match index_byte host ":" with Some i => validOptionalPort (str_drop i host) | None => true end in
      if port_ok then url_unescape host encodeHost else Err InvalidPort
  end.
Definition parseUser (userinfo : string) : res url_error Userinfo :=
  if negb (validUserinfo userinfo) then Err InvalidUserinfo
  else
    let '(name, pass, found) := cut_byte userinfo ":" in
    let* u := url_unescape name encodeUserPassword in
    if found : bool then let* p := url_unescape pass encodeUserPassword in Ok {| username := u; password := Some p |}
    else Ok {| username := u; password := None |}.
Definition parseAuthority (authority : string) : res url_error (option Userinfo * string) :=
  match last_index_byte authority "@" with
  | None => let* host := parseHost authority in Ok (None, host)
  | Some i => let* host := parseHost (str_drop (S i) authority) in let* user := parseUser (str_take i authority) in Ok (Some user, host)
  end.

(** ** Parsing *)
Record URL : Type := {
  Scheme : string; Opaque : string; User : option Userinfo; Host : string; Path : string; RawPath : string;
  OmitHost : bool; ForceQuery : bool; RawQuery : string; Fragment : string; RawFragment : string }.

(** Up to the first colon, when all before it may be in a scheme. *)
Fixpoint scheme_end (first : bool) (s : string) : option nat :=
  match s with
  | "" => None
  | String c s =>
      if is_lower c || is_upper c || (negb first && (is_digit c || byte_in c "+-.")) then S <$> scheme_end false s
      else if Ascii.eqb c ":" then Some O else None
  end.
Definition getScheme (rawURL : string) : res url_error (string * string) :=
  match scheme_end true rawURL with
  | None => Ok ("", rawURL)
  | Some O => Err MissingProtocolScheme
  | Some i => Ok (str_take i rawURL, str_drop (S i) rawURL)
  end.
Definition lower_byte (c : ascii) : ascii := if is_upper c then az (bz c + 32) else c.
Definition ascii_lower (s : string) : string := str_flat_map (fun c => String (lower_byte c) "") s.

Definition path_parts (p : string) : res url_error (string * string) :=
  let* path := url_unescape p encodePath in
  Ok (path, if String.eqb p (url_escape path encodePath) then "" else p).
Definition split_query (rest : string) : string * string * bool :=
  let '(path, query, found) := cut_byte rest "?" in
  if (found : bool) && String.eqb query "" then (path, "", true) else (path, query, false).
Definition split_authority (s : string) : string * string :=
  match index_byte s "/" with Some i => (str_take i s, str_drop i s) | None => (s, "") end.
Definition control_byte (c : ascii) : bool := (bz c <? 32) || (bz c =? 127).

Definition url_of (scheme : string) (user : option Userinfo) (host path rawPath : string) (omit : bool) (query : string) (force : bool) : URL :=
  {| Scheme := scheme; Opaque := ""; User := user; Host := host; Path := path; RawPath := rawPath; OmitHost := omit; ForceQuery := force; RawQuery := query;
     Fragment := ""; RawFragment := "" |}.
(** [parse] with [viaRequest] false. *)
Definition parse (rawURL : string) : res url_error URL :=
  if str_exists control_byte rawURL then Err ControlCharacter
  else if String.eqb rawURL "*" then Ok (url_of "" None "" "*" "" false "" false)
  else
    let* sr := getScheme rawURL in
    let scheme := ascii_lower (fst sr) in
    let '(rest, query, force) := split_query (snd sr) in
    if negb (has_prefix rest "/") && negb (String.eqb scheme "") then
      Ok {| Scheme := scheme; Opaque := rest; User := None; Host := ""; Path := ""; RawPath := ""; OmitHost := false; ForceQuery := force; RawQuery := query; Fragment := ""; RawFragment := "" |}
    else if negb (has_prefix rest "/") && byte_in ":" (fst (fst (cut_byte rest "/"))) then Err FirstSegmentColon
    else if (negb (String.eqb scheme "") || negb (has_prefix rest "///")) && has_prefix rest "//" then
      let '(authority, tail) := split_authority (str_drop 2 rest) in
      let* uh := parseAuthority authority in
      let* p := path_parts tail in
      Ok (url_of scheme (fst uh) (snd uh) (fst p) (snd p) false query force)
    else
      let* p := path_parts rest in
      Ok (url_of scheme None "" (fst p) (snd p) (negb (String.eqb scheme "") && has_prefix rest "/") query force).

Definition with_fragment (u : URL) (fragment raw : string) : URL :=
  {| Scheme := Scheme u; Opaque := Opaque u; User := User u; Host := Host u; Path := Path u; RawPath := RawPath u; OmitHost := OmitHost u; ForceQuery := ForceQuery u; RawQuery := RawQuery u;
     Fragment := fragment; RawFragment := raw |}.
Definition Parse (rawURL : string) : res url_error URL :=
  let '(u, frag, _) := cut_byte rawURL "#" in
  let* url := parse u in
  if String.eqb frag "" then Ok url
  else let* f := url_unescape frag encodeFragment in
       Ok (with_fragment url f (if String.eqb frag (url_escape f encodeFragment) then "" else frag)).

(** ** Parts and printing *)
Definition splitHostPort (hostPort : string) : string * string :=
  let '(host, port) := match last_index_byte hostPort ":" with
                       | Some i => if validOptionalPort (str_drop i hostPort) then (str_take i hostPort, str_drop (S i) hostPort) else (hostPort, "")
                       | None => (hostPort, "")
                       end in
  (if has_prefix host "[" && has_suffix host "]" then str_drop 1 (str_take (String.length host - 1) host) else host, port).
Definition Hostname (u : URL) : string := fst (splitHostPort (Host u)).
Definition Port (u : URL) : string := snd (splitHostPort (Host u)).

Definition validEncoded (s : string) (m : encoding) : bool := str_forall (fun c => byte_in c "!$&'()*+,;=:@[]%" || negb (shouldEscape c m)) s.
Definition escaped_part (raw text : string) (m : encoding) : string :=
  if negb (String.eqb raw "") && validEncoded raw m && (match url_unescape raw m with Ok p => String.eqb p text | Err _ => false end) then raw
  else url_escape text m.
Definition EscapedPath (u : URL) : string :=
  if negb (String.eqb (RawPath u) "") && validEncoded (RawPath u) encodePath && (match url_unescape (RawPath u) encodePath with Ok p => String.eqb p (Path u) | Err _ => false end) then RawPath u
  else if String.eqb (Path u) "*" then "*" else url_escape (Path u) encodePath.
Definition EscapedFragment (u : URL) : string := escaped_part (RawFragment u) (Fragment u) encodeFragment.
Definition user_text (u : Userinfo) : string :=
  url_escape (username u) encodeUserPassword +:+ match password u with Some p => ":" +:+ url_escape p encodeUserPassword | None => "" end.

Definition authority_text (u : URL) : string :=
  let some (s : string) := negb (String.eqb s "") in
  let has_user := match User u with Some _ => true | None => false end in
  if (some (Scheme u) || some (Host u) || has_user) && negb (OmitHost u && negb (some (Host u)) && negb has_user) then
    (if some (Host u) || some (Path u) || has_user then "//" else "") +:+
    match User u with Some i => user_text i +:+ "@" | None => "" end +:+ url_escape (Host u) encodeHost
  else "".
Definition url_string (u : URL) : string :=
  let some (s : string) := negb (String.eqb s "") in
  let scheme := if some (Scheme u) then Scheme u +:+ ":" else "" in
  let start := scheme +:+ authority_text u in
  let path := EscapedPath u in
  let body :=
    if some (Opaque u) then scheme +:+ Opaque u
    else
      start +:+ (if some path && negb (has_prefix path "/") && some (Host u) then "/"
                 else if String.eqb start "" && byte_in ":" (fst (fst (cut_byte path "/"))) then "./" else "") +:+ path in
  body +:+ (if ForceQuery u || some (RawQuery u) then "?" +:+ RawQuery u else "") +:+ (if some (Fragment u) then "#" +:+ EscapedFragment u else "").

Example Parse_ex :
  option_map url_string (match Parse "HTTP://us%20er:p@Ex.com:80/a%2Fb/%C3%A9?x=1#f%20" with Ok u => Some u | Err _ => None end) = Some "http://us%20er:p@Ex.com:80/a%2Fb/%C3%A9?x=1#f%20" /\
  option_map (fun u => (Hostname u, Port u)) (match Parse "https://[fe80::1%25en0]:8443/" with Ok u => Some u | Err _ => None end) = Some ("fe80::1%en0", "8443") /\
  Parse "http://a:80:80/" = Err InvalidPort /\ Parse "http://[::1" = Err MissingCloseBracket /\ Parse "http://a%20b/" = Err (EscapeError "%20") /\ Parse "1:2" = Err FirstSegmentColon /\
  Parse "http://[1.2.3.4]/" = Err InvalidLiteral /\ Parse "http://a b/" = Err (InvalidHostError " ") /\ option_map Opaque (match Parse "mailto:a@b" with Ok u => Some u | Err _ => None end) = Some "a@b".
Proof. vm_compute. tauto. Qed.
