(* ===== verification/Sse.v ===== *)
(** * Server-sent events (src/internal/transport/sse.go)

    The reader of an event stream: lines, data fields, bounded messages.  A body is
    the bytes it yields and how it ends (end of file or a read error). *)
From S2P Require Import Prelude GoStr GoStd Content JsonText.

Definition maxSSEMessageBytes : Z := 64 * 1024 * 1024.
Definition maxSSELineBytes : Z := maxSSEMessageBytes + slen "data: " + 2.

Record sseLimits : Type := { messageBytes : Z; lineBytes : Z }.
Definition defaultSSELimits : sseLimits := {| messageBytes := maxSSEMessageBytes; lineBytes := maxSSELineBytes |}.

Inductive sse_error : Type := errSSEMessageTooLarge | ReadError (msg : string) | HandlerError (msg : string).

Record body : Type := { bytes : string; ending : option sse_error (* None: io.EOF *) }.

(** ** Lines *)
Definition utf8BOM : string := String (az 239) (String (az 187) (String (az 191) "")).
Definition cr : ascii := az 13.
Definition lf : ascii := az 10.

Definition newSSELineReader (b : body) : body :=
  {| bytes := trim_prefix (bytes b) utf8BOM; ending := ending b |}.

Inductive line_result : Type :=
| RLine (line : string) (rest : string)
| REOF
| RErr (e : sse_error).

Definition consumeOptionalLF (s : string) : string :=
  match s with String c s' => if Ascii.eqb c lf then s' else s | "" => "" end.

Definition checkLineLength (limits : sseLimits) (line : string) : bool := slen line <=? lineBytes limits.

Fixpoint readLine_from (limits : sseLimits) (ending : option sse_error) (line s : string) : line_result :=
  match s with
  | "" =>
      match ending with
      | None => if String.eqb line "" then REOF else RLine line ""
      | Some e => RErr e
      end
  | String b s' =>
      if Ascii.eqb b lf then RLine line s'
      else if Ascii.eqb b cr then RLine line (consumeOptionalLF s')
      else
        let line := line +:+ String b "" in
        if checkLineLength limits line then readLine_from limits ending line s' else RErr errSSEMessageTooLarge
  end.
Definition readLine (limits : sseLimits) (b : body) : line_result := readLine_from limits (ending b) "" (bytes b).

(** ** Fields *)
Definition parseSSEDataLine (line : string) : option (string * string) :=
  if String.eqb line "" || has_prefix line ":" then None
  else
    let '(field, value, found) := cut_byte line ":" in
    if found then Some (field, trim_prefix value " ") else Some (field, "").

Definition shouldSkipSSELine (line : string) : bool := String.eqb line "" || has_prefix line ":".

Definition appendBounded (dst value : string) (maxBytes : Z) : res sse_error string :=
  if maxBytes - slen dst <? slen value then Err errSSEMessageTooLarge else Ok (dst +:+ value).

(** ** The scanner: [H] is the state of the handler *)
Section scanner.
Context {H : Type} (handle : H -> string -> res sse_error H).

Record sseScanner : Type := { event : string; seenData : bool; handled : H }.

Definition flush (s : sseScanner) : res sse_error sseScanner :=
  if negb (seenData s) then Ok s
  else
    let raw := event s in
    if negb (json_valid raw) then Ok {| event := ""; seenData := false; handled := handled s |}
    else let* h := handle (handled s) raw in Ok {| event := ""; seenData := false; handled := h |}.

Definition processLine (limits : sseLimits) (s : sseScanner) (line : string) : res sse_error sseScanner :=
  if String.eqb line "" then flush s
  else
    match parseSSEDataLine line with
    | Some (field, value) =>
        if negb (String.eqb field "data") then Ok s
        else
          let* ev := if seenData s then appendBounded (event s) (String lf "") (messageBytes limits) else Ok (event s) in
          let* ev := appendBounded ev value (messageBytes limits) in
          Ok {| event := ev; seenData := true; handled := handled s |}
    | None => Ok s
    end.

(** [None]: out of fuel. *)
Fixpoint scan_from (fuel : nat) (limits : sseLimits) (b : body) (s : sseScanner) : option (res sse_error sseScanner) :=
  match fuel with
  | O => None
  | S fuel =>
      match readLine limits b with
      | REOF => Some (Ok s)
      | RErr e => Some (Err e)
      | RLine line rest =>
          match processLine limits s line with
          | Err e => Some (Err e)
          | Ok s => scan_from fuel limits {| bytes := rest; ending := ending b |} s
          end
      end
  end.

(** A line takes one byte at least: the length of the body is fuel enough. *)
Definition scan_fuel (b : body) : nat := S (String.length (bytes b)).

Definition scanSSEMessagesWithLimits (b : body) (limits : sseLimits) (h : H) : option (res sse_error H) :=
  let b := newSSELineReader b in
  match scan_from (scan_fuel b) limits b {| event := ""; seenData := false; handled := h |} with
  | None => None
  | Some (Err e) => Some (Err e)
  | Some (Ok s) => Some (Ok (handled s))
  end.
Definition ScanSSEMessages (b : body) (h : H) : option (res sse_error H) := scanSSEMessagesWithLimits b defaultSSELimits h.
End scanner.

Fixpoint looks_from (fuel : nat) (limits : sseLimits) (b : body) : option (res sse_error bool) :=
  match fuel with
  | O => None
  | S fuel =>
      match readLine limits b with
      | REOF => Some (Ok false)
      | RErr e => Some (Err e)
      | RLine line rest =>
          let next := {| bytes := rest; ending := ending b |} in
          if shouldSkipSSELine line then looks_from fuel limits next
          else match parseSSEDataLine line with
               | Some (field, _) => if String.eqb field "data" then Some (Ok true) else looks_from fuel limits next
               | None => looks_from fuel limits next
               end
      end
  end.
Definition looksLikeSSE (s : string) (limits : sseLimits) : option (res sse_error bool) :=
  let b := newSSELineReader {| bytes := s; ending := None |} in looks_from (scan_fuel b) limits b.

(** The handler of [splitHTTPMessages] collects the messages. *)
Definition collect (messages : list string) (message : string) : res sse_error (list string) := Ok (messages ++ [message]).

Definition splitHTTPMessagesWithLimits (s : string) (limits : sseLimits) : option (res sse_error (list string)) :=
  let trimmed := TrimSpace s in
  if String.eqb trimmed "" then Some (Ok [])
  else
    match looksLikeSSE s limits with
    | None => None
    | Some (Err e) => Some (Err e)
    | Some (Ok false) => Some (Ok [trimmed])
    | Some (Ok true) => scanSSEMessagesWithLimits collect {| bytes := s; ending := None |} limits []
    end.
Definition splitHTTPMessages (s : string) : option (res sse_error (list string)) := splitHTTPMessagesWithLimits s defaultSSELimits.

(** What the daemon writes for a message (writeNotifications and writeSSEResponse in src/internal/server/http_serve.go). *)
Definition writeSSEResponse (b : string) : string :=
  "event: message" +:+ String lf ("data: " +:+ b +:+ String lf (String lf "")).

(** ** Lemmas *)
Lemma consumeOptionalLF_length s : (String.length (consumeOptionalLF s) <= String.length s)%nat.
Proof. destruct s as [|c s]; [done|]. cbn [consumeOptionalLF]. destruct (Ascii.eqb c lf); simpl; lia. Qed.

Lemma readLine_shorter limits e s : forall line l rest, readLine_from limits e line s = RLine l rest ->
  (String.length rest < String.length s)%nat \/ (s = "" /\ rest = "" /\ line <> "").
Proof.
  induction s as [|b s IH]; intros line l rest; cbn [readLine_from].
  - destruct e; [done|]. destruct (String.eqb_spec line ""); [done|]. intros [= <- <-]. right. done.
  - intros Hr. left. destruct (Ascii.eqb b lf); [injection Hr as <- <-; simpl; lia|].
    destruct (Ascii.eqb b cr); [injection Hr as <- <-; pose proof (consumeOptionalLF_length s); simpl; lia|].
    destruct (checkLineLength _ _); [|done]. apply IH in Hr as [Hr|(-> & -> & _)]; simpl; lia.
Qed.

Lemma readLine_step limits b l rest : readLine limits b = RLine l rest -> (String.length rest < String.length (bytes b))%nat.
Proof. intros H. apply readLine_shorter in H as [H|(_ & _ & H)]; done. Qed.

Lemma scan_total {H} (handle : H -> string -> res sse_error H) fuel limits b s :
  (String.length (bytes b) < fuel)%nat -> scan_from handle fuel limits b s <> None.
Proof.
  revert b s. induction fuel as [|fuel IH]; intros b s Hf; [lia|]. cbn [scan_from].
  destruct (readLine limits b) as [line rest| |e] eqn:E; [|done|done]. apply readLine_step in E.
  destruct (processLine handle limits s line); [|done]. apply IH. simpl. lia.
Qed.

Lemma looks_total fuel limits b : (String.length (bytes b) < fuel)%nat -> looks_from fuel limits b <> None.
Proof.
  revert b. induction fuel as [|fuel IH]; intros b Hf; [lia|]. cbn [looks_from].
  destruct (readLine limits b) as [line rest| |e] eqn:E; [|done|done]. apply readLine_step in E.
  destruct (shouldSkipSSELine line); [apply IH; simpl; lia|].
  destruct (parseSSEDataLine line) as [[field v]|]; [destruct (String.eqb field "data"); [done|]|]; apply IH; simpl; lia.
Qed.

(** A line without line breaks is read whole. *)
Lemma readLine_plain limits e l : forall acc rest, str_forall (fun c => negb (Ascii.eqb c lf) && negb (Ascii.eqb c cr)) l = true ->
  slen (acc +:+ l) <= lineBytes limits ->
  readLine_from limits e acc (l +:+ String lf rest) = RLine (acc +:+ l) rest.
Proof.
  induction l as [|c l IH]; intros acc rest Hl Hlen; cbn [String.append readLine_from].
  - by rewrite Ascii.eqb_refl, str_app_nil_r.
  - cbn [str_forall] in Hl. apply andb_true_iff in Hl as [Hc Hl]. apply andb_true_iff in Hc as [H1 H2].
    apply negb_true_iff in H1, H2. rewrite H1, H2.
    change (String c l) with (String c "" +:+ l) in Hlen |- *. rewrite str_app_assoc in Hlen |- *.
    unfold checkLineLength. rewrite (proj2 (Z.leb_le _ _)); [by apply IH|].
    rewrite slen_app in Hlen. pose proof (slen_nonneg l). lia.
Qed.

Definition line_free (m : string) : Prop := str_forall (fun c => negb (Ascii.eqb c lf) && negb (Ascii.eqb c cr)) m = true.

Section frames.
Context {H : Type} (handle : H -> string -> res sse_error H) (limits : sseLimits).
Hypothesis Hlimits : messageBytes limits + 6 <= lineBytes limits /\ 14 <= lineBytes limits.

Lemma scan_step fuel line rest e s : line_free line -> slen line <= lineBytes limits ->
  scan_from handle (S fuel) limits {| bytes := line +:+ String lf rest; ending := e |} s =
  match processLine handle limits s line with
  | Err err => Some (Err err)
  | Ok s => scan_from handle fuel limits {| bytes := rest; ending := e |} s
  end.
Proof. intros Hl Hlen. cbn [scan_from]. unfold readLine. cbn [bytes ending]. by rewrite readLine_plain. Qed.

Lemma scan_frame fuel m rest e h : line_free m -> json_valid m = true -> slen m <= messageBytes limits ->
  scan_from handle (S (S (S fuel))) limits {| bytes := writeSSEResponse m +:+ rest; ending := e |} {| event := ""; seenData := false; handled := h |} =
  match handle h m with
  | Err err => Some (Err err)
  | Ok h => scan_from handle fuel limits {| bytes := rest; ending := e |} {| event := ""; seenData := false; handled := h |}
  end.
Proof.
  intros Hm Hv Hlen. unfold writeSSEResponse.
  replace (("event: message" +:+ String lf ("data: " +:+ m +:+ String lf (String lf ""))) +:+ rest)
    with ("event: message" +:+ String lf (("data: " +:+ m) +:+ String lf ("" +:+ String lf rest)))
    by (rewrite <- !str_app_assoc; cbn [String.append]; by rewrite <- !str_app_assoc).
  rewrite scan_step; [|done|change (slen "event: message") with 14; lia].
  change (processLine handle limits _ "event: message") with (Ok {| event := ""; seenData := false; handled := h |} : res sse_error _).
  cbv iota beta. rewrite scan_step; [|done|rewrite slen_app; change (slen "data: ") with 6; lia].
  assert (processLine handle limits {| event := ""; seenData := false; handled := h |} ("data: " +:+ m) =
    Ok {| event := m; seenData := true; handled := h |}) as ->.
  { change (processLine handle limits {| event := ""; seenData := false; handled := h |} ("data: " +:+ m)) with
      (let* ev := appendBounded "" (trim_prefix (" " +:+ m) " ") (messageBytes limits) in
       Ok {| event := ev; seenData := true; handled := h |} : res sse_error (@sseScanner H)).
    rewrite trim_prefix_app. unfold appendBounded. rewrite (proj2 (Z.ltb_ge _ _)) by (change (slen "") with 0; lia). done. }
  cbv iota beta. rewrite scan_step; [|done|change (slen "") with 0; lia].
  unfold processLine. cbn [String.eqb]. unfold flush. cbn [seenData event handled negb]. rewrite Hv. cbn [negb].
  by destruct (handle h m).
Qed.

(** Three lines per message. *)
Lemma scan_frames ms : forall fuel h, Forall (fun m => line_free m /\ json_valid m = true /\ slen m <= messageBytes limits) ms ->
  (3 * length ms < fuel)%nat ->
  scan_from handle fuel limits {| bytes := concat_str (map writeSSEResponse ms); ending := None |} {| event := ""; seenData := false; handled := h |} =
  Some (match for_each handle ms h with Err e => Err e | Ok h => Ok {| event := ""; seenData := false; handled := h |} end).
Proof.
  induction ms as [|m ms IH]; intros fuel h Hms Hf.
  - destruct fuel; [lia|]. done.
  - inversion_clear Hms as [|? ? (H1 & H2 & H3) Hms']. simpl in Hf. destruct fuel as [|[|[|fuel]]]; [lia..|].
    cbn [map concat_str foldr]. rewrite scan_frame by done. cbn [for_each]. destruct (handle h m) as [h'|e]; [|done].
    cbn [rbind]. apply IH; [done|lia].
Qed.
End frames.

(** The event under construction and every message handed on fit the limit. *)
Lemma appendBounded_ok dst v max r : appendBounded dst v max = Ok r -> r = dst +:+ v /\ slen r <= max.
Proof. unfold appendBounded. destruct (Z.ltb_spec (max - slen dst) (slen v)); [done|]. intros [= <-]. rewrite slen_app. split; [done|lia]. Qed.

Lemma collect_scan_bounded fuel limits b s s' :
  0 <= messageBytes limits -> slen (event s) <= messageBytes limits ->
  Forall (fun m => slen m <= messageBytes limits /\ json_valid m = true) (handled s) ->
  scan_from collect fuel limits b s = Some (Ok s') ->
  Forall (fun m => slen m <= messageBytes limits /\ json_valid m = true) (handled s').
Proof.
  intros Hpos. revert b s. induction fuel as [|fuel IH]; intros b s Hev Hall; cbn [scan_from]; [done|].
  destruct (readLine limits b) as [line rest| |e]; [|by intros [= <-]|done].
  destruct (processLine collect limits s line) as [s1|e] eqn:E; [|done].
  assert (slen (event s1) <= messageBytes limits /\ Forall (fun m => slen m <= messageBytes limits /\ json_valid m = true) (handled s1)) as [H1 H2].
  { unfold processLine, flush in E. destruct (String.eqb line "").
    - destruct (negb (seenData s)); [injection E as <-; done|]. destruct (json_valid (event s)) eqn:Ev; cbn in E; injection E as <-; cbn; [|done].
      split; [done|]. apply Forall_app. split; [done|]. by apply Forall_cons.
    - destruct (parseSSEDataLine line) as [[field v]|]; [|injection E as <-; done].
      destruct (negb _); [injection E as <-; done|]. apply rbind_Ok in E as (e1 & E1 & E). apply rbind_Ok in E as (e2 & E2 & E).
      injection E as <-. cbn. apply appendBounded_ok in E2 as [_ E2]. done. }
  by apply IH.
Qed.

(** ** Properties *)

(** What the daemon writes as server-sent events, the client reads back: a stream of valid JSON messages without line breaks, within the limits, hands exactly these messages to the handler, in order, and stops at the handler's first error. *)
Theorem sse_roundtrip {H} (handle : H -> string -> res sse_error H) limits ms h :
  messageBytes limits + 6 <= lineBytes limits -> 14 <= lineBytes limits ->
  Forall (fun m => line_free m /\ json_valid m = true /\ slen m <= messageBytes limits) ms ->
  scanSSEMessagesWithLimits handle {| bytes := concat_str (map writeSSEResponse ms); ending := None |} limits h =
  Some (for_each handle ms h).
Proof.
  intros H1 H2 Hms. unfold scanSSEMessagesWithLimits, newSSELineReader. cbn [bytes ending].
  assert (trim_prefix (concat_str (map writeSSEResponse ms)) utf8BOM = concat_str (map writeSSEResponse ms)) as -> by by destruct ms.
  unfold scan_fuel. cbn [bytes]. rewrite scan_frames; [|done|done|].
  - by destruct (for_each handle ms h).
  - assert (forall l, (3 * length l <= String.length (concat_str (map writeSSEResponse l)))%nat) as Hl; [|specialize (Hl ms); lia].
    induction l as [|m l IH]; [done|]. cbn [map concat_str foldr]. rewrite str_length_app. unfold writeSSEResponse at 1.
    rewrite str_length_app. simpl. simpl in IH. unfold concat_str in IH. lia.
Qed.

Lemma sse_roundtrip_witness :
  scanSSEMessagesWithLimits collect {| bytes := concat_str (map writeSSEResponse ["{}"; "[1,2]"]); ending := None |} defaultSSELimits [] =
  Some (Ok ["{}"; "[1,2]"]).
Proof.
  apply (sse_roundtrip collect defaultSSELimits ["{}"; "[1,2]"] []); [by vm_compute|by vm_compute|].
  repeat (apply Forall_cons_2; [split_and!; [reflexivity|reflexivity|by vm_compute]|]). apply Forall_nil_2.
Defined.

(** Reading a response body ends on every input and yields bounded messages: each message of an event stream is valid JSON of at most the message limit, and a body without data line is a single message, trimmed. *)
Theorem splitHTTPMessages_bounded s limits :
  0 <= messageBytes limits ->
  splitHTTPMessagesWithLimits s limits <> None /\
  (forall ms, looksLikeSSE s limits = Some (Ok true) -> splitHTTPMessagesWithLimits s limits = Some (Ok ms) ->
     Forall (fun m => slen m <= messageBytes limits /\ json_valid m = true) ms) /\
  (looksLikeSSE s limits = Some (Ok false) -> TrimSpace s <> "" -> splitHTTPMessagesWithLimits s limits = Some (Ok [TrimSpace s])).
Proof.
  intros Hpos. unfold splitHTTPMessagesWithLimits. split_and!.
  - destruct (String.eqb _ ""); [done|]. destruct (looksLikeSSE s limits) as [[[]|e]|] eqn:E; [|done|done|].
    + unfold scanSSEMessagesWithLimits. pose proof (scan_total collect (scan_fuel (newSSELineReader {| bytes := s; ending := None |})) limits
        (newSSELineReader {| bytes := s; ending := None |}) {| event := ""; seenData := false; handled := [] |}) as Ht.
      destruct (scan_from _ _ _ _ _) as [[s'|e]|]; [done|done|]. exfalso. apply Ht; [unfold scan_fuel; lia|done].
    + exfalso. revert E. apply looks_total. unfold scan_fuel. lia.
  - intros ms Hl. rewrite Hl. destruct (String.eqb _ ""); [by intros [= <-]|]. unfold scanSSEMessagesWithLimits.
    destruct (scan_from _ _ _ _ _) as [[s'|e]|] eqn:E; [|done|done]. intros [= <-].
    by apply (collect_scan_bounded _ _ _ _ _ Hpos) in E.
  - intros Hl Ht. rewrite Hl. by rewrite (proj2 (String.eqb_neq _ _)).
Qed.

Lemma splitHTTPMessages_bounded_witness :
  splitHTTPMessagesWithLimits " {} " {| messageBytes := 10; lineBytes := 20 |} = Some (Ok ["{}"]).
Proof.
  apply (splitHTTPMessages_bounded " {} " {| messageBytes := 10; lineBytes := 20 |}); [by vm_compute|reflexivity|by vm_compute].
Defined.
