(* ===== verification/Ssrf.v ===== *)
(** * SSRF protection (src/internal/transport/ssrf.go)

    Which addresses a dial may reach.  DNS lookups are arguments. *)
From S2P Require Import Prelude GoStr GoStd Url.

(** ** The policy *)
Record SSRFPolicy : Type := { AllowPrivateNetworks : bool }.

Inductive ssrf_error : Type :=
| BadScheme (scheme : string)
| PrivateHost (host : string)
| BadURL (e : url_error)
| BadAddress (e : addr_error)
| ConnectionBlocked (e : ssrf_error)
| LookupFailed (msg : string)
| NoAddresses (host : string)
| ResolvedBlocked (host : string) (ip : IP).

Definition isPrivateHostname (host : string) : bool :=
  String.eqb host "localhost" || has_suffix host ".localhost" || has_suffix host ".local" || has_suffix host ".internal".

Definition cgnatRange : IPNet := cidr [100; 64; 0; 0] 10.
Definition IsPrivateNetworkIP (ip : IP) : bool := IsPrivate ip || IsLoopback ip || Contains cgnatRange ip.

Definition zeros (n : nat) : list Z := replicate n 0.
Definition ssrfPrivateRanges : list IPNet :=
  [cidr [0; 0; 0; 0] 8; cidr [169; 254; 0; 0] 16; cidr [224; 0; 0; 0] 4; cidr [198; 18; 0; 0] 15; cidr [240; 0; 0; 0] 4;
   cidr (zeros 16) 128; cidr (254 :: 128 :: zeros 14) 10; cidr (255 :: zeros 15) 8].
Definition nat64Prefix : IPNet := cidr ([0; 100; 255; 155] ++ zeros 12) 96.

Definition blocksIP (p : SSRFPolicy) (ip : IP) : bool :=
  (negb (AllowPrivateNetworks p) && IsPrivateNetworkIP ip) || existsb (fun n => Contains n ip) ssrfPrivateRanges.

Definition validateIP (p : SSRFPolicy) (host : string) (ip : IP) : res ssrf_error unit :=
  let ip := default ip (To4 ip) in
  let nat64_blocked := match To16 ip with
                       | Some ip16 => Contains nat64Prefix ip16 && blocksIP p (drop 12 ip16)
                       | None => false
                       end in
  if nat64_blocked then Err (PrivateHost host)
  else if blocksIP p ip then Err (PrivateHost host)
  else Ok tt.

Definition validateHost (p : SSRFPolicy) (host : string) : res ssrf_error unit :=
  if negb (AllowPrivateNetworks p) && isPrivateHostname host then Err (PrivateHost host)
  else match ParseIP host with None => Ok tt | Some ip => validateIP p host ip end.

Definition ValidateURL (p : SSRFPolicy) (rawURL : string) : res ssrf_error unit :=
  match Parse rawURL with
  | Err e => Err (BadURL e)
  | Ok u =>
      if negb (String.eqb (Scheme u) "http") && negb (String.eqb (Scheme u) "https") then Err (BadScheme (Scheme u))
      else validateHost p (Hostname u)
  end.

(** What is dialled: the address as given, its host being the address [ip], or a resolved address and a port. *)
Inductive target : Type := DialLiteral (address : string) (ip : IP) | DialResolved (ip : IP) (port : string).
Definition target_ip (t : target) : IP := match t with DialLiteral _ ip | DialResolved ip _ => ip end.

Definition resolve (p : SSRFPolicy) (lookup : string -> res string (list IP)) (host port : string) : res ssrf_error target :=
  match lookup host with
  | Err msg => Err (LookupFailed msg)
  | Ok [] => Err (NoAddresses host)
  | Ok (first :: ips) =>
      let* _ := for_each (fun _ a => match validateIP p "" a with Err _ => Err (ResolvedBlocked host a) | Ok _ => Ok tt end)
        (first :: ips) tt in
      Ok (DialResolved first port)
  end.

Definition dialSSRFSafe (p : SSRFPolicy) (lookup : string -> res string (list IP)) (address : string) : res ssrf_error target :=
  match SplitHostPort address with
  | Err e => Err (BadAddress e)
  | Ok (host, port) =>
      match ParseIP host with
      | Some ip =>
          match validateIP p host ip with
          | Err e => Err (ConnectionBlocked e)
          | Ok _ => Ok (DialLiteral address ip)
          end
      | None => resolve p lookup host port
      end
  end.

Example ParseIP_ex :
  ParseIP "127.0.0.1" = Some (v4InV6Prefix ++ [127; 0; 0; 1]) /\ ParseIP "::1" = Some IPv6loopback /\
  ParseIP "64:ff9b::7f00:1" = Some ([0; 100; 255; 155] ++ zeros 8 ++ [127; 0; 0; 1]) /\
  ParseIP "::ffff:10.0.0.1" = Some (v4InV6Prefix ++ [10; 0; 0; 1]) /\ ParseIP "fe80::1%eth0" = None /\
  ParseIP "1.2.3.04" = None /\ ParseIP "1::2::3" = None /\ ParseIP "example.com" = None /\
  SplitHostPort "[::1]:443" = Ok ("::1", "443") /\ SplitHostPort "h:80" = Ok ("h", "80") /\ SplitHostPort "::1" = Err TooManyColons.
Proof. vm_compute. tauto. Qed.

(** ** IPv4: the blocked intervals *)
Definition bytes_ok (ip : list Z) : Prop := Forall (fun b => 0 <= b <= 255) ip.
Definition ip4_value (a b c d : Z) : Z := ((a * 256 + b) * 256 + c) * 256 + d.

(** First and last address of each blocked range: this network, link-local, benchmark, multicast, reserved. *)
Definition always_blocked4 : list (Z * Z) :=
  [(ip4_value 0 0 0 0, ip4_value 0 255 255 255); (ip4_value 169 254 0 0, ip4_value 169 254 255 255);
   (ip4_value 198 18 0 0, ip4_value 198 19 255 255); (ip4_value 224 0 0 0, ip4_value 255 255 255 255)].
(** Private use, loopback, carrier-grade NAT. *)
Definition private4 : list (Z * Z) :=
  [(ip4_value 10 0 0 0, ip4_value 10 255 255 255); (ip4_value 127 0 0 0, ip4_value 127 255 255 255);
   (ip4_value 172 16 0 0, ip4_value 172 31 255 255); (ip4_value 192 168 0 0, ip4_value 192 168 255 255);
   (ip4_value 100 64 0 0, ip4_value 100 127 255 255)].
Definition in_ranges (n : Z) (l : list (Z * Z)) : bool := existsb (fun r => (fst r <=? n) && (n <=? snd r)) l.
Definition blocked4 (p : SSRFPolicy) (n : Z) : bool :=
  in_ranges n always_blocked4 || (negb (AllowPrivateNetworks p) && in_ranges n private4).

(** The tests read the first two bytes only. *)
Lemma blocksIP_two_bytes p a b c d : blocksIP p [a; b; c; d] = blocksIP p [a; b; 0; 0].
Proof. unfold blocksIP, IsPrivateNetworkIP, Contains. cbn -[Z.land]. by rewrite !Z.land_0_r. Qed.

Lemma interval_two_bytes lo1 lo2 hi1 hi2 a b c d : 0 <= c <= 255 -> 0 <= d <= 255 ->
  (ip4_value lo1 lo2 0 0 <=? ip4_value a b c d) && (ip4_value a b c d <=? ip4_value hi1 hi2 255 255) =
  (lo1 * 256 + lo2 <=? a * 256 + b) && (a * 256 + b <=? hi1 * 256 + hi2).
Proof. intros Hc Hd. unfold ip4_value. apply eq_true_iff_eq. rewrite !andb_true_iff, !Z.leb_le. lia. Qed.

Lemma blocked4_two_bytes p a b c d : 0 <= c <= 255 -> 0 <= d <= 255 ->
  blocked4 p (ip4_value a b c d) = blocked4 p (ip4_value a b 0 0).
Proof.
  intros Hc Hd. unfold blocked4, in_ranges, always_blocked4, private4. cbn [existsb fst snd].
  by rewrite !interval_two_bytes by lia.
Qed.

Definition byte_values : list Z := map Z.of_nat (seq 0 256).
Lemma byte_values_in a : 0 <= a <= 255 -> In a byte_values.
Proof. intros H. unfold byte_values. apply in_map_iff. exists (Z.to_nat a). split; [lia|]. apply in_seq. lia. Qed.

Lemma blocks_table : forallb (fun priv => forallb (fun a => forallb (fun b =>
    Bool.eqb (blocksIP {| AllowPrivateNetworks := priv |} [a; b; 0; 0]) (blocked4 {| AllowPrivateNetworks := priv |} (ip4_value a b 0 0)))
  byte_values) byte_values) [true; false] = true.
Proof. vm_compute. reflexivity. Qed.

Lemma blocksIP_intervals p a b c d : bytes_ok [a; b; c; d] -> blocksIP p [a; b; c; d] = blocked4 p (ip4_value a b c d).
Proof.
  intros H. unfold bytes_ok in H. rewrite !Forall_cons in H. destruct H as (Ha & Hb & Hc & Hd & _).
  rewrite blocksIP_two_bytes, blocked4_two_bytes by done. pose proof blocks_table as Ht.
  rewrite forallb_forall in Ht. specialize (Ht (AllowPrivateNetworks p)).
  rewrite forallb_forall in Ht. specialize (Ht ltac:(destruct (AllowPrivateNetworks p); simpl; auto) a (byte_values_in a Ha)).
  rewrite forallb_forall in Ht. specialize (Ht b (byte_values_in b Hb)). apply Bool.eqb_prop in Ht. by destruct p.
Qed.

(** The three ways to write an IPv4 address: bytes, IPv4-mapped, NAT64. *)
Definition nat64 (ip4 : list Z) : IP := [0; 100; 255; 155] ++ zeros 8 ++ ip4.

Lemma validateIP_v4 p host a b c d : validateIP p host [a; b; c; d] = if blocksIP p [a; b; c; d] then Err (PrivateHost host) else Ok tt.
Proof.
  unfold validateIP. change (To4 [a; b; c; d]) with (Some [a; b; c; d]). cbn [from_option].
  change (To16 [a; b; c; d]) with (Some (v4InV6Prefix ++ [a; b; c; d])).
  change (Contains nat64Prefix (v4InV6Prefix ++ [a; b; c; d])) with false. done.
Qed.

Lemma validateIP_mapped p host a b c d : validateIP p host (v4InV6Prefix ++ [a; b; c; d]) = validateIP p host [a; b; c; d].
Proof. done. Qed.

Lemma To4_nat64 a b c d : To4 (nat64 [a; b; c; d]) = None.
Proof. done. Qed.

Lemma nat64_contains a b c d : Contains nat64Prefix (nat64 [a; b; c; d]) = true.
Proof. unfold Contains. rewrite To4_nat64. cbn -[Z.land]. by rewrite !Z.land_0_r. Qed.

Lemma blocksIP_nat64 p a b c d : blocksIP p (nat64 [a; b; c; d]) = false.
Proof.
  unfold blocksIP, IsPrivateNetworkIP, IsPrivate, IsLoopback, Contains. rewrite !To4_nat64.
  assert (bool_decide (nat64 [a; b; c; d] = IPv6loopback) = false) as -> by (apply bool_decide_eq_false_2; discriminate).
  cbn. by rewrite !andb_false_r.
Qed.

Lemma validateIP_nat64 p host a b c d : validateIP p host (nat64 [a; b; c; d]) =
  if blocksIP p [a; b; c; d] then Err (PrivateHost host) else Ok tt.
Proof.
  unfold validateIP. rewrite To4_nat64. cbn [from_option]. change (To16 (nat64 [a; b; c; d])) with (Some (nat64 [a; b; c; d])).
  cbv beta iota zeta. rewrite nat64_contains, blocksIP_nat64. change (drop 12 (nat64 [a; b; c; d])) with [a; b; c; d]. done.
Qed.

Lemma validate_all p host l : for_each (fun (_ : unit) a => match validateIP p "" a with Err _ => Err (ResolvedBlocked host a) | Ok _ => Ok tt end) l tt = Ok tt ->
  Forall (fun a => validateIP p "" a = Ok tt) l.
Proof.
  induction l as [|a l IH]; cbn [for_each]; [constructor|]. intros H. apply rbind_Ok in H as ([] & H1 & H2).
  constructor; [|by apply IH]. destruct (validateIP p "" a) as [[]|]; [done|discriminate].
Qed.

Lemma validateIP_host p h1 h2 ip : validateIP p h1 ip = Ok tt -> validateIP p h2 ip = Ok tt.
Proof. unfold validateIP. by repeat case_match. Qed.

(** ** Properties *)

(** C27: An IPv4 destination is refused exactly when it lies in one of the listed ranges, in whichever form it is written: plain, IPv4-mapped IPv6, or behind the NAT64 prefix. *)
Theorem ssrf_ipv4_exact p host a b c d :
  bytes_ok [a; b; c; d] ->
  let verdict := if blocked4 p (ip4_value a b c d) then Err (PrivateHost host) else Ok tt in
  validateIP p host [a; b; c; d] = verdict /\
  validateIP p host (v4InV6Prefix ++ [a; b; c; d]) = verdict /\
  validateIP p host (nat64 [a; b; c; d]) = verdict.
Proof. intros H verdict. unfold verdict. by rewrite validateIP_mapped, validateIP_nat64, validateIP_v4, blocksIP_intervals. Qed.

Lemma ssrf_ipv4_exact_witness :
  validateIP {| AllowPrivateNetworks := false |} "h" (nat64 [172; 31; 0; 1]) = Err (PrivateHost "h") /\
  validateIP {| AllowPrivateNetworks := true |} "h" (v4InV6Prefix ++ [172; 32; 0; 1]) = Ok tt.
Proof.
  split; [apply (ssrf_ipv4_exact {| AllowPrivateNetworks := false |} "h" 172 31 0 1)|
          apply (ssrf_ipv4_exact {| AllowPrivateNetworks := true |} "h" 172 32 0 1)];
  unfold bytes_ok; repeat (apply Forall_cons_2; [lia|]); apply Forall_nil_2.
Defined.

(** A dial only ever reaches a validated address: the host of a literal address itself, or the first of the resolved addresses, all of which passed, so that resolving again cannot change the destination. *)
Theorem dial_only_validated p lookup address t :
  dialSSRFSafe p lookup address = Ok t ->
  validateIP p "" (target_ip t) = Ok tt /\
  exists host port, SplitHostPort address = Ok (host, port) /\
    match t with
    | DialLiteral a ip => a = address /\ ParseIP host = Some ip
    | DialResolved ip port' => port' = port /\ exists ips, lookup host = Ok (ip :: ips) /\ Forall (fun a => validateIP p "" a = Ok tt) (ip :: ips)
    end.
Proof.
  unfold dialSSRFSafe. destruct (SplitHostPort address) as [[host port]|e]; [|done].
  destruct (ParseIP host) as [ip|] eqn:Ep.
  - destruct (validateIP p host ip) as [[]|e] eqn:Ev; [|done]. intros [= <-]. cbn. split; [by eapply validateIP_host|]. eauto.
  - unfold resolve. destruct (lookup host) as [[|first ips]|msg] eqn:El; [done| |done]. intros H.
    apply rbind_Ok in H as ([] & H & [= <-]). apply validate_all in H. split; [by inversion H|]. exists host, port. eauto.
Qed.

Lemma dial_only_validated_witness :
  dialSSRFSafe {| AllowPrivateNetworks := false |} (fun _ => Ok [[93; 184; 216; 34]]) "example.com:443" = Ok (DialResolved [93; 184; 216; 34] "443") /\
  validateIP {| AllowPrivateNetworks := false |} "" [93; 184; 216; 34] = Ok tt.
Proof.
  assert (dialSSRFSafe {| AllowPrivateNetworks := false |} (fun _ => Ok [[93; 184; 216; 34]]) "example.com:443" =
    Ok (DialResolved [93; 184; 216; 34] "443")) as H by (vm_compute; reflexivity).
  split; [exact H|]. apply (dial_only_validated _ _ _ _ H).
Defined.
