(* ===== verification/OAuth.v ===== *)
(** * OAuth logins: data and decisions (src/internal/auth: login.go, resource.go, registration.go,
      register.go, challenge.go, the pure parts of oauth.go, resolve.go, token.go, browser_callback.go
      and discover_prm.go; AuthConfig of src/internal/config/types.go)

    A login is bound to the server, the issuer, the token endpoint and the client it was made
    for.  The functions here decide whether it may be used, which client a server gets, and
    which identifiers name the same resource.  [unicode_lower] is the table of lower-case
    letters outside ASCII. *)
From S2P Require Import Prelude GoStr Regex Utf8 Config Float64 GoStd Content JsonText JsonToken JsonObject ResultDoc AuthHeader Url Ssrf.

(** ** Configuration (config/types.go) *)
Definition AuthTypeOAuth2 : string := "oauth2".
Record AuthConfig : Type := {
  a_Type : string; a_Token : string; a_Header : string;
  a_Issuer : string; a_ClientID : string; a_ClientSecret : string; AuthURL : string; a_TokenURL : string; a_Scopes : list string;
  TokenEndpointAuthMethod : string; ResourceURL : string; CallbackPort : Z; ExtraAuthParams : gmap string string; BrowserCmd : string }.
Record ServerConfig : Type := { sc_Name : string; sc_URL : string; sc_Auth : option AuthConfig; AgentAdded : bool; UnsetEnv : option string }.

Definition HeaderName (a : AuthConfig) : string := if String.eqb (a_Header a) "" then "Authorization" else a_Header a.

Definition ValidateOAuthServer (sc : ServerConfig) : bool := match sc_Auth sc with Some a => String.eqb (a_Type a) AuthTypeOAuth2 | None => false end.

(** Updates of one field or of the fields that change together. *)
Definition with_client (a : AuthConfig) (id secret method : string) : AuthConfig :=
  {| a_Type := a_Type a; a_Token := a_Token a; a_Header := a_Header a; a_Issuer := a_Issuer a; a_ClientID := id; a_ClientSecret := secret; AuthURL := AuthURL a; a_TokenURL := a_TokenURL a;
     a_Scopes := a_Scopes a; TokenEndpointAuthMethod := method; ResourceURL := ResourceURL a; CallbackPort := CallbackPort a; ExtraAuthParams := ExtraAuthParams a; BrowserCmd := BrowserCmd a |}.
Definition with_endpoints (a : AuthConfig) (auth token : string) : AuthConfig :=
  {| a_Type := a_Type a; a_Token := a_Token a; a_Header := a_Header a; a_Issuer := a_Issuer a; a_ClientID := a_ClientID a; a_ClientSecret := a_ClientSecret a; AuthURL := auth; a_TokenURL := token;
     a_Scopes := a_Scopes a; TokenEndpointAuthMethod := TokenEndpointAuthMethod a; ResourceURL := ResourceURL a; CallbackPort := CallbackPort a; ExtraAuthParams := ExtraAuthParams a; BrowserCmd := BrowserCmd a |}.
Definition with_scopes (a : AuthConfig) (scopes : list string) : AuthConfig :=
  {| a_Type := a_Type a; a_Token := a_Token a; a_Header := a_Header a; a_Issuer := a_Issuer a; a_ClientID := a_ClientID a; a_ClientSecret := a_ClientSecret a; AuthURL := AuthURL a; a_TokenURL := a_TokenURL a;
     a_Scopes := scopes; TokenEndpointAuthMethod := TokenEndpointAuthMethod a; ResourceURL := ResourceURL a; CallbackPort := CallbackPort a; ExtraAuthParams := ExtraAuthParams a; BrowserCmd := BrowserCmd a |}.
Definition with_resource (a : AuthConfig) (issuer resource : string) : AuthConfig :=
  {| a_Type := a_Type a; a_Token := a_Token a; a_Header := a_Header a; a_Issuer := issuer; a_ClientID := a_ClientID a; a_ClientSecret := a_ClientSecret a; AuthURL := AuthURL a; a_TokenURL := a_TokenURL a;
     a_Scopes := a_Scopes a; TokenEndpointAuthMethod := TokenEndpointAuthMethod a; ResourceURL := resource; CallbackPort := CallbackPort a; ExtraAuthParams := ExtraAuthParams a; BrowserCmd := BrowserCmd a |}.

Inductive auth_error : Type :=
| BadURLText (e : url_error) | UnsupportedScheme (scheme : string) | NotAbsolute | NotHTTPResource
| NoValidIssuer | MissingLoginField | ConfiguredCredentials
| ServerURLChanged | IssuerChanged | ClientIDChanged | TokenURLChanged | LoginMismatch (cause : auth_error)
| InvalidServerName (name : string) | NotExist | ReadError (msg : string) | DecodeError
| NotOAuth | UnsetVariable (msg : string) | MissingIssuer | ConfiguredClientNeedsIssuer (discovered : string) | ConfiguredIssuerDiffers (configured discovered : string)
| SecretWithoutMethod (method : string) | MethodWithoutSecret (method : string) | UnknownMethod (method : string)
| NoRegistrationEndpoint | OnlyDefaultCallbackPort | EmptyClientID | BadStatus (status : Z) | RequestFailed (msg : string) | ContextEnded
| DisallowedHost (e : ssrf_error) | ResourceMissing | ResourceInvalid (e : auth_error) | ServerInvalid (e : auth_error) | ResourceOutside
| NoPKCE | IssuerMismatch | InvalidChallenge.

(** ** URLs (resource.go, discover_prm.go, login.go) *)
Definition parseHTTPURL (rawURL : string) : res auth_error URL :=
  match Parse rawURL with
  | Err e => Err (BadURLText e)
  | Ok u =>
      if negb (String.eqb (Scheme u) "http") && negb (String.eqb (Scheme u) "https") then Err (UnsupportedScheme (Scheme u))
      else if String.eqb (Host u) "" || (match User u with Some _ => true | None => false end) || negb (String.eqb (Fragment u) "") || negb (String.eqb (Opaque u) "") then Err NotAbsolute
      else Ok u
  end.
Definition requireHTTPURL (rawURL : string) : res auth_error unit := let* _ := parseHTTPURL rawURL in Ok tt.
Definition validLoginIssuer (issuer : string) : bool :=
  match Parse issuer with
  | Err _ => false
  | Ok u => (String.eqb (Scheme u) "https" || String.eqb (Scheme u) "http") && negb (String.eqb (Host u) "") && (match User u with Some _ => false | None => true end) &&
            String.eqb (RawQuery u) "" && String.eqb (Fragment u) ""
  end.

Section urls.
Variable unicode_lower : Z -> Z.

(** [strings.ToLower]. *)
Definition lower_rune (r : Z) : Z := if (0 <=? r) && (r <? 128) then bz (lower_byte (az r)) else unicode_lower r.
Definition ToLower (s : string) : string := concat_str (map (fun r => encode_rune (lower_rune r)) (runes s)).

(** [net.JoinHostPort]. *)
Definition JoinHostPort (host port : string) : string := if byte_in ":" host then "[" +:+ host +:+ "]:" +:+ port else host +:+ ":" +:+ port.
Definition canonical_host (u : URL) : string :=
  let host := ToLower (Hostname u) in
  let port := if (String.eqb (Scheme u) "https" && String.eqb (Port u) "443") || (String.eqb (Scheme u) "http" && String.eqb (Port u) "80") then "" else Port u in
  if negb (String.eqb port "") then JoinHostPort host port
  else if byte_in ":" host then "[" +:+ host +:+ "]" else host.
Definition with_authority (u : URL) (host path rawPath : string) : URL :=
  {| Scheme := Scheme u; Opaque := Opaque u; User := None; Host := host; Path := path; RawPath := rawPath; OmitHost := OmitHost u; ForceQuery := ForceQuery u; RawQuery := RawQuery u; Fragment := ""; RawFragment := "" |}.
Definition CanonicalResourceURI (raw : string) : res auth_error string :=
  match Parse raw with
  | Err e => Err (BadURLText e)
  | Ok u =>
      (* the parser has lowered the scheme *)
      if (negb (String.eqb (Scheme u) "http") && negb (String.eqb (Scheme u) "https")) || String.eqb (Hostname u) "" then Err NotHTTPResource
      else
        let root := String.eqb (Path u) "/" && (String.eqb (RawPath u) "" || String.eqb (RawPath u) "/") in
        Ok (url_string (with_authority u (canonical_host u) (if root then "" else Path u) (if root then "" else RawPath u)))
  end.

Example canonical_ex : CanonicalResourceURI "HTTPS://u@Ex.com:443/#f" = Ok "https://ex.com" /\ CanonicalResourceURI "http://Ex.com:8080/A%2fb?" = Ok "http://ex.com:8080/A%2fb?" /\
  CanonicalResourceURI "https://[FE80::1%25eN0]:443/x" = Ok "https://[fe80::1%25en0]/x" /\ CanonicalResourceURI "ftp://x" = Err NotHTTPResource /\ CanonicalResourceURI "http:x" = Err NotHTTPResource.
Proof. vm_compute. tauto. Qed.

(** ** The resource of a server (discover_prm.go) *)

(** [resolvePath] of a reference without path, for the base path [base]: the segments one by one, what is written, whether the next segment is the first. *)
Fixpoint resolve_segments (segs : list string) (written : string) (first : bool) : string * bool :=
  match segs with
  | [] => (written, first)
  | elem :: segs =>
      if String.eqb elem "." then resolve_segments segs written false
      else if String.eqb elem ".." then
        match last_index_byte written "/" with
        | None => resolve_segments segs "" true
        | Some i => resolve_segments segs (str_take i written) first
        end
      else resolve_segments segs (written +:+ (if first then "" else "/") +:+ elem) false
  end.
Definition resolvePath (base : string) : string :=
  if String.eqb base "" then ""
  else
    let segs := split_byte base "/" in
    let '(written, _) := resolve_segments segs "" true in
    let last_seg := default "" (last segs) in
    let r := "/" +:+ written +:+ (if String.eqb last_seg "." || String.eqb last_seg ".." then "/" else "") in
    if has_prefix r "//" then str_drop 1 r else r.
Definition dot_segment (segment : string) : string :=
  match PathUnescape segment with Ok d => if String.eqb d "." || String.eqb d ".." then d else segment | Err _ => segment end.
Definition resourcePath (u : URL) : string :=
  let joined := join "/" (map dot_segment (split_byte (EscapedPath u) "/")) in
  let normalized := default "" (match url_unescape (resolvePath (if String.eqb joined "*" then "*" else url_escape joined encodePath)) encodePath with Ok p => Some p | Err _ => None end) in
  if String.eqb normalized "" then "/" else normalized.
Definition resourceContainsPath (resource server : URL) : bool :=
  let parent := resourcePath resource in
  let child := resourcePath server in
  if (String.length child <? String.length parent)%nat then false
  else has_prefix (trim_suffix child "/" +:+ "/") (trim_suffix parent "/" +:+ "/").
Definition resourceIdentity (raw : string) : res auth_error URL :=
  let* _ := requireHTTPURL raw in
  let* canonical := CanonicalResourceURI raw in
  match Parse canonical with Err e => Err (BadURLText e) | Ok u => Ok u end.
Definition validatePRMResource (resource expected : string) : res auth_error unit :=
  if String.eqb resource "" then Err ResourceMissing
  else
    match resourceIdentity resource with
    | Err e => Err (ResourceInvalid e)
    | Ok actual =>
        match resourceIdentity expected with
        | Err e => Err (ServerInvalid e)
        | Ok server =>
            if negb (String.eqb (Scheme actual) (Scheme server)) || negb (String.eqb (Host actual) (Host server)) || negb (resourceContainsPath actual server) then Err ResourceOutside
            else Ok tt
        end
    end.

Example resource_ex : validatePRMResource "https://h/api" "https://H:443/api/v1" = Ok tt /\ validatePRMResource "https://h/api/v2" "https://h/api/v2/../v1" = Err ResourceOutside /\
  validatePRMResource "https://h/api" "https://h/api/%2e%2e/x" = Err ResourceOutside /\ validatePRMResource "https://h/ap" "https://h/api" = Err ResourceOutside.
Proof. vm_compute. tauto. Qed.
End urls.

(** ** Logins (login.go) *)
Record LoginClient : Type := { lc_ID : string; Configured : bool; lc_Secret : string; lc_AuthMethod : string }.
(** [oauth2.Token]; the zero time of a token that does not expire is [None]. *)
Record OAuthToken : Type := { AccessToken : string; TokenType : string; RefreshToken : string; Expiry : option Z; ExpiresIn : Z }.
Record Challenge : Type := { ch_ServerURL : string; WWWAuthenticate : string; StatusCode : Z }.
Record Login : Type := {
  consumedChallenge : option Challenge; Resource : string; l_ServerURL : string; l_Issuer : string; l_TokenURL : string; Client : LoginClient;
  l_Scopes : list string; l_Token : option OAuthToken }.
Definition with_token (l : Login) (t : OAuthToken) : Login :=
  {| consumedChallenge := consumedChallenge l; Resource := Resource l; l_ServerURL := l_ServerURL l; l_Issuer := l_Issuer l; l_TokenURL := l_TokenURL l; Client := Client l; l_Scopes := l_Scopes l; l_Token := Some t |}.

Definition validate_login (l : Login) : res auth_error unit :=
  if negb (validLoginIssuer (l_Issuer l)) then Err NoValidIssuer
  else if String.eqb (l_ServerURL l) "" || String.eqb (Resource l) "" || String.eqb (l_TokenURL l) "" || String.eqb (lc_ID (Client l)) "" || (match l_Token l with None => true | Some _ => false end)
  then Err MissingLoginField
  else
    let* _ := requireHTTPURL (l_TokenURL l) in
    if Configured (Client l) && (negb (String.eqb (lc_Secret (Client l)) "") || negb (String.eqb (lc_AuthMethod (Client l)) "")) then Err ConfiguredCredentials else Ok tt.

Definition MatchesConfig (unicode_lower : Z -> Z) (l : Login) (sc : ServerConfig) : res auth_error unit :=
  match CanonicalResourceURI unicode_lower (sc_URL sc) with
  | Err _ => Err ServerURLChanged
  | Ok configuredURL =>
      if negb (String.eqb configuredURL (l_ServerURL l)) then Err ServerURLChanged
      else
        let issuer := match sc_Auth sc with Some a => a_Issuer a | None => "" end in
        let id := match sc_Auth sc with Some a => a_ClientID a | None => "" end in
        let tokenURL := match sc_Auth sc with Some a => a_TokenURL a | None => "" end in
        if negb (String.eqb issuer "") && negb (String.eqb issuer (l_Issuer l)) then Err IssuerChanged
        else if negb (String.eqb id (lc_ID (Client l))) && (negb (String.eqb id "") || Configured (Client l)) then Err ClientIDChanged
        else if negb (String.eqb tokenURL "") && negb (String.eqb tokenURL (l_TokenURL l)) then Err TokenURLChanged
        else Ok tt
  end.
Definition RefreshConfig (l : Login) (ac : AuthConfig) : AuthConfig :=
  let ac := with_resource ac (l_Issuer l) (Resource l) in
  let ac := with_endpoints ac (AuthURL ac) (l_TokenURL l) in
  if Configured (Client l) then with_client ac (lc_ID (Client l)) (a_ClientSecret ac) (TokenEndpointAuthMethod ac)
  else with_client ac (lc_ID (Client l)) (lc_Secret (Client l)) (lc_AuthMethod (Client l)).

(** ** Files (token.go, registration.go): what is read is a decoded record or an error *)
Definition LoadLogin (file : res auth_error Login) (serverName : string) : res auth_error Login :=
  if negb (re_match ValidServerName serverName) then Err (InvalidServerName serverName)
  else let* l := file in let* _ := validate_login l in Ok l.
Definition LoadLoginFor (unicode_lower : Z -> Z) (file : res auth_error Login) (sc : ServerConfig) : res auth_error Login :=
  let* login := LoadLogin file (sc_Name sc) in
  match MatchesConfig unicode_lower login sc with Err e => Err (LoginMismatch e) | Ok _ => Ok login end.
(** The outcome of the write; a saved login has consumed its challenge. *)
Definition SaveLogin (written : res auth_error unit) (serverName : string) (l : Login) : res auth_error Login :=
  if negb (re_match ValidServerName serverName) then Err (InvalidServerName serverName)
  else
    let* _ := validate_login l in
    let* _ := written in
    Ok {| consumedChallenge := None; Resource := Resource l; l_ServerURL := l_ServerURL l; l_Issuer := l_Issuer l; l_TokenURL := l_TokenURL l; Client := Client l; l_Scopes := l_Scopes l; l_Token := l_Token l |}.
Definition IsNotFound (e : auth_error) : bool := match e with NotExist => true | _ => false end.

Inductive TokenState : Type := TokenMissing | TokenUnreadable (e : auth_error) | TokenExpired | TokenRefreshable | TokenValid.
Definition NeedsLogin (s : TokenState) : bool := match s with TokenValid | TokenRefreshable => false | _ => true end.
(** [Valid] is the method of [oauth2.Token], at the time of the call. *)
Definition ReadTokenState (unicode_lower : Z -> Z) (file : res auth_error Login) (sc : ServerConfig) (Valid : OAuthToken -> bool) : TokenState :=
  match LoadLoginFor unicode_lower file sc with
  | Err e => if IsNotFound e then TokenMissing else TokenUnreadable e
  | Ok login =>
      match l_Token login with
      | None => TokenExpired (* a loaded login has a token *)
      | Some t => if Valid t then TokenValid else if negb (String.eqb (RefreshToken t) "") then TokenRefreshable else TokenExpired
      end
  end.

(** ** Challenges (challenge.go) *)
Definition bearerChallenge (header : string) : bool := match bearerStart header with Some _ => true | None => false end.
Definition ValidAuthorizationChallenge (status : Z) (header : string) : bool :=
  ((status =? 401) || (status =? 403)) && bearerChallenge header && (negb (status =? 403) || EqualFold (parseWWWAuthParam header "error") "insufficient_scope").
Definition valid_challenge (c : Challenge) : bool := negb (String.eqb (ch_ServerURL c) "") && ValidAuthorizationChallenge (StatusCode c) (WWWAuthenticate c).
Definition loadChallenge (file : res auth_error Challenge) (name serverURL : string) : res auth_error Challenge :=
  if negb (re_match ValidServerName name) then Err (InvalidServerName name)
  else let* c := file in
       if negb (valid_challenge c) then Err InvalidChallenge else if negb (String.eqb (ch_ServerURL c) serverURL) then Err NotExist else Ok c.
(** What is written, when anything is. *)
Definition saveChallenge (name : string) (c : Challenge) : res auth_error Challenge :=
  if negb (re_match ValidServerName name) then Err (InvalidServerName name) else if negb (valid_challenge c) then Err InvalidChallenge else Ok c.
Definition RecordAuthorizationChallenge (sc : ServerConfig) (status : Z) (header : string) : option Challenge :=
  match sc_Auth sc with
  | None => None
  | Some a =>
      if negb (String.eqb (a_Type a) AuthTypeOAuth2) || negb (String.eqb (a_Token a) "") || negb (ValidAuthorizationChallenge status header) then None
      else match saveChallenge (sc_Name sc) {| ch_ServerURL := sc_URL sc; WWWAuthenticate := header; StatusCode := status |} with Ok c => Some c | Err _ => None end
  end.
(** The file is removed when it still holds the challenge that was consumed. *)
Definition clearConsumedChallenge (file : res auth_error Challenge) (name : string) (consumed : option Challenge) : bool :=
  match consumed with
  | None => false
  | Some c =>
      match loadChallenge file name (ch_ServerURL c) with
      | Err _ => false
      | Ok d => String.eqb (WWWAuthenticate d) (WWWAuthenticate c) && (StatusCode d =? StatusCode c) && String.eqb (ch_ServerURL d) (ch_ServerURL c)
      end
  end.

(** ** Clients (registration.go, register.go, resolve.go) *)
Record Registration : Type := { ClientID : string; r_Issuer : string; r_Secret : string; r_Method : string; ClientSecretExpiresAt : Z; r_TokenURL : string }.
Record ServerMeta : Type := {
  Issuer : string; IssParameterSupported : bool; m_AuthURL : string; m_TokenURL : string; RegistrationURL : string; CIMDSupported : bool;
  RequiredScopes : list string; m_Scopes : list string; m_Resource : string }.

Definition ClientMetadataURL : string := "https://mcpmini.github.io/mini/oauth/client-metadata.json".
Definition LoopbackCallbackPort : Z := 6464.
Definition LoopbackCallbackPath : string := "/callback".
Definition ResolvedCallbackPort (a : AuthConfig) : Z := if CallbackPort a =? 0 then LoopbackCallbackPort else CallbackPort a.
Definition ResolvedCallbackURI (a : AuthConfig) : string := "http://localhost:" +:+ itoa (ResolvedCallbackPort a) +:+ LoopbackCallbackPath.

Definition clearSecretWithoutClientID (a : AuthConfig) : AuthConfig := if String.eqb (a_ClientID a) "" then with_client a (a_ClientID a) "" "" else a.
(** Without repetitions and empty scopes, the first occurrence of each. *)
Definition add_scope (acc : list string) (scope : string) : list string := if String.eqb scope "" || existsb (String.eqb scope) acc then acc else acc ++ [scope].
Definition stableScopes (groups : list (list string)) : list string := foldl (foldl add_scope) [] groups.
Definition mergePreviousScopes (saved : res auth_error Login) (a : AuthConfig) (issuer : string) : AuthConfig :=
  match saved with
  | Ok l => if String.eqb (l_Issuer l) issuer && String.eqb (Resource l) (ResourceURL a) then with_scopes a (stableScopes [l_Scopes l; a_Scopes a]) else a
  | Err _ => a
  end.
Definition portableClientID (a : AuthConfig) : bool :=
  match Parse (a_ClientID a) with
  | Err _ => false
  | Ok u =>
      String.eqb (Scheme u) "https" && negb (String.eqb (Host u) "") && negb (String.eqb (Path u) "") && (match User u with Some _ => false | None => true end) && String.eqb (Fragment u) "" &&
      String.eqb (a_ClientSecret a) "" && (String.eqb (TokenEndpointAuthMethod a) "" || String.eqb (TokenEndpointAuthMethod a) "none")
  end.
Definition validateConfiguredIssuer (a : AuthConfig) (meta : ServerMeta) : res auth_error unit :=
  if String.eqb (a_Issuer a) (Issuer meta) then Ok tt
  else if String.eqb (a_Issuer a) "" && CIMDSupported meta && portableClientID a then Ok tt
  else if String.eqb (a_Issuer a) "" then Err (ConfiguredClientNeedsIssuer (Issuer meta))
  else Err (ConfiguredIssuerDiffers (a_Issuer a) (Issuer meta)).
Definition secretApplies (reg : Registration) (now : Z) : bool := (ClientSecretExpiresAt reg =? 0) || (now <? ClientSecretExpiresAt reg * 1000000000).
Definition registrationUsable (reg : Registration) (meta : ServerMeta) (a : AuthConfig) (now : Z) : bool :=
  if String.eqb (r_Issuer reg) "" || negb (String.eqb (r_Issuer reg) (Issuer meta)) || negb (String.eqb (r_TokenURL reg) (a_TokenURL a)) then false
  else String.eqb (r_Secret reg) "" || secretApplies reg now.
Definition CanUseClientMetadataDocument (a : AuthConfig) (meta : ServerMeta) : bool := CIMDSupported meta && (ResolvedCallbackPort a =? LoopbackCallbackPort).
Definition registrationURL (meta : ServerMeta) : res auth_error string :=
  if negb (String.eqb (RegistrationURL meta) "") then Ok (RegistrationURL meta)
  else if CIMDSupported meta then Err OnlyDefaultCallbackPort else Err NoRegistrationEndpoint.
Definition validateRegistrationConsistency (reg : Registration) : res auth_error unit :=
  let m := r_Method reg in
  if String.eqb m "" || String.eqb m "none" then if negb (String.eqb (r_Secret reg) "") then Err (SecretWithoutMethod m) else Ok tt
  else if String.eqb m "client_secret_basic" || String.eqb m "client_secret_post" then if String.eqb (r_Secret reg) "" then Err (MethodWithoutSecret m) else Ok tt
  else Err (UnknownMethod m).
(** The registration is completed with the default method: what a new registration is saved with. *)
Definition complete_registration (reg : Registration) : Registration :=
  if negb (String.eqb (r_Secret reg) "") && String.eqb (r_Method reg) "" then
    {| ClientID := ClientID reg; r_Issuer := r_Issuer reg; r_Secret := r_Secret reg; r_Method := "client_secret_basic"; ClientSecretExpiresAt := ClientSecretExpiresAt reg; r_TokenURL := r_TokenURL reg |}
  else reg.
Definition applyRegistration (a : AuthConfig) (reg : Registration) : res auth_error (AuthConfig * LoginClient) :=
  let reg := complete_registration reg in
  let* _ := validateRegistrationConsistency reg in
  Ok (with_client a (ClientID reg) (r_Secret reg) (r_Method reg), {| lc_ID := ClientID reg; Configured := false; lc_Secret := r_Secret reg; lc_AuthMethod := r_Method reg |}).
(** How the client authenticates at the token endpoint (oauth.go). *)
Inductive AuthStyle : Type := AuthStyleInHeader | AuthStyleInParams | AuthStyleAutoDetect.
Definition tokenAuthStyle (a : AuthConfig) : AuthStyle :=
  if String.eqb (TokenEndpointAuthMethod a) "client_secret_basic" then AuthStyleInHeader
  else if String.eqb (TokenEndpointAuthMethod a) "client_secret_post" || String.eqb (TokenEndpointAuthMethod a) "none" then AuthStyleInParams
  else if String.eqb (TokenEndpointAuthMethod a) "" && String.eqb (a_ClientSecret a) "" then AuthStyleInParams
  else AuthStyleAutoDetect.

(** ** The redirect to mini (browser_callback.go): [query] holds the first value of each parameter *)
Record providerError : Type := { pe_code : string; pe_description : string }.
Record authorizationResponse : Type := { ar_state : string; ar_code : string; iss : option string; providerErr : option providerError }.
Definition parseAuthorizationResponse (query : gmap string string) : authorizationResponse :=
  let Get (k : string) := default "" (query !! k) in
  {| ar_state := Get "state"; ar_code := Get "code"; iss := query !! "iss";
     providerErr := option_map (fun code => {| pe_code := code; pe_description := Get "error_description" |}) (query !! "error") |}.
Record ExpectedIssuer : Type := { ei_Issuer : string; AlwaysSent : bool }.
Inductive callback_error : Type := IssMissing | IssDiffers (got want : string) | ProviderError (e : providerError).
Definition check_issuer (e : ExpectedIssuer) (resp : authorizationResponse) : res callback_error unit :=
  match iss resp with
  | None => if AlwaysSent e then Err IssMissing else Ok tt
  | Some i => if negb (String.eqb (ei_Issuer e) "") && negb (String.eqb i (ei_Issuer e)) then Err (IssDiffers i (ei_Issuer e)) else Ok tt
  end.
(** The result of a callback, [None] when the code is missing. *)
Definition callbackResult (resp : authorizationResponse) (issuer : ExpectedIssuer) : option (res callback_error string) :=
  match check_issuer issuer resp with
  | Err e => Some (Err e)
  | Ok _ =>
      match providerErr resp with
      | Some e => Some (Err (ProviderError e))
      | None => if String.eqb (ar_code resp) "" then None else Some (Ok (ar_code resp))
      end
  end.
(** The channel holds one result; the page's status comes with it. *)
Definition callbackHandler (state : string) (issuer : ExpectedIssuer) (query : gmap string string) (results : option (res callback_error string)) : Z * option (res callback_error string) :=
  let resp := parseAuthorizationResponse query in
  if negb (String.eqb (ar_state resp) state) then (400, results)
  else match callbackResult resp issuer with
       | None => (400, results)
       | Some r => (200, match results with None => Some r | Some _ => results end)
       end.
