(* ===== verification/UrlProps.v ===== *)
(** * Properties of URLs and of canonical resource names

    Escaping and reading back, the parts of a host, the letters' case of an IPv6 address, and
    that the canonical name of a resource is its own canonical name. *)
From S2P Require Import Prelude GoStr Utf8 GoStd Url OAuth.

(** ** Bytes *)
Ltac all_bytes c := destruct c as [[] [] [] [] [] [] [] []]; try reflexivity; try discriminate.

(** What [url_escape] writes for a byte is read as that byte. *)
Definition printed_ok (m : encoding) (c : ascii) : bool :=
  if shouldEscape c m then match unescaped (upper_hex (bz c / 16)) (upper_hex (bz c mod 16)) m with Some v => Ascii.eqb v c | None => false end else negb (Ascii.eqb c "%").
Lemma path_printed c : printed_ok encodePath c = true.
Proof. all_bytes c. Qed.
Lemma escape_cons c s m : url_escape (String c s) m = (if shouldEscape c m then percent c else String c "") +:+ url_escape s m.
Proof. done. Qed.
Lemma unescape_escaped m s : str_forall (printed_ok m) s = true -> url_unescape (url_escape s m) m = Ok s.
Proof.
  induction s as [|c s IH]; [done|]. cbn [str_forall]. intros [Hc Hs]%andb_true_iff. rewrite escape_cons. unfold printed_ok in Hc. destruct (shouldEscape c m) eqn:Es.
  - unfold percent. cbn [String.append url_unescape]. rewrite Ascii.eqb_refl. destruct (unescaped _ _ m) as [v|]; [|done]. apply Ascii.eqb_eq in Hc as ->. by rewrite IH.
  - cbn [String.append url_unescape]. apply negb_true_iff in Hc. rewrite Hc, Es, andb_false_r, IH by done. done.
Qed.
Lemma path_round_trip p : url_unescape (url_escape p encodePath) encodePath = Ok p.
Proof. apply unescape_escaped. apply str_forall_impl with (fun _ => true); [intros c _; apply path_printed|]. induction p; [done|exact IHp]. Qed.

(** The bytes of what is read are those the mode lets through. *)
Lemma unescape_bytes m (P Q : ascii -> bool) : (forall h l v, unescaped h l m = Some v -> P v = true) ->
  (forall c, Q c = true -> Ascii.eqb c "%" = false -> host_mode m && (bz c <? 128) && shouldEscape c m = false -> P c = true) ->
  forall s t, str_forall Q s = true -> url_unescape s m = Ok t -> str_forall P t = true.
Proof.
  intros Hv Hc s. induction s as [s IH] using (induction_ltof1 _ String.length). unfold ltof in IH. intros t Hq H. destruct s as [|c s]; [by injection H as <-|]. cbn [url_unescape] in H. cbn [str_forall] in Hq.
  apply andb_true_iff in Hq as [Hqc Hq]. destruct (Ascii.eqb c "%") eqn:Ep.
  - destruct s as [|h [|l s]]; [done|done|]. destruct (unescaped h l m) as [v|] eqn:Ev; [|done]. inv_ok H. injection H as <-. cbn [str_forall]. rewrite (Hv _ _ _ Ev). cbn [str_forall] in Hq.
    apply andb_true_iff in Hq as [_ Hq]. apply andb_true_iff in Hq as [_ Hq]. eapply (IH s); [cbn [String.length]; lia|exact Hq|exact E].
  - destruct (host_mode m && (bz c <? 128) && shouldEscape c m) eqn:Eh; [done|]. inv_ok H. injection H as <-. cbn [str_forall]. rewrite (Hc c) by done. eapply (IH s); [cbn [String.length]; lia|exact Hq|exact E].
Qed.

(** A byte of a host name that is written as it is. *)
Definition name_byte (c : ascii) : bool := negb (shouldEscape c encodeHost) && negb (byte_in c "%[").
Definition plain_byte (c : ascii) : bool := ascii_byte c && negb (byte_in c "%[").
Lemma hex_value_range c x : hex_value c = Some x -> 0 <= x < 16.
Proof. unfold hex_value, is_digit, in_range. repeat case_match; intros [= <-]; rewrite ?andb_true_iff, ?Z.leb_le in *; lia. Qed.
Lemma unescaped_host h l v : unescaped h l encodeHost = Some v -> plain_byte v = false.
Proof.
  unfold unescaped. destruct (hex_value h) as [x|] eqn:Ex; [|done]. destruct (hex_value l) as [y|] eqn:Ey; [|done]. apply hex_value_range in Ex, Ey.
  destruct (Z.ltb_spec x 8) as [|Hge]; cbn [andb].
  - destruct (Ascii.eqb (az (x * 16 + y)) "%") eqn:Ep; [|done]. intros [= <-]. apply Ascii.eqb_eq in Ep as ->. reflexivity.
  - intros [= <-]. unfold plain_byte, ascii_byte. rewrite bz_az by lia. destruct (Z.ltb_spec (x * 16 + y) 128); [lia|done].
Qed.
Lemma host_names s t : url_unescape s encodeHost = Ok t -> str_forall plain_byte t = true -> str_forall name_byte t = true.
Proof.
  intros H Hp. assert (str_forall (fun c => negb (plain_byte c) || name_byte c) t = true) as Ht.
  { eapply (unescape_bytes encodeHost _ (fun _ => true)); [| | |exact H].
    - intros h l v Hv. cbn beta. by rewrite (unescaped_host _ _ _ Hv).
    - intros c _ _ Hc. unfold plain_byte, name_byte, ascii_byte. cbn [host_mode andb] in Hc. destruct (bz c <? 128); [|done]. cbn [andb] in *. rewrite Hc. by destruct (byte_in c "%[").
    - clear. induction s; [done|exact IHs]. }
  clear H. induction t as [|c t IH]; [done|]. cbn [str_forall] in *. apply andb_true_iff in Hp as [Hc Hp], Ht as [Hn Ht]. rewrite IH by done. rewrite Hc in Hn. by rewrite andb_true_r.
Qed.
Lemma names_written s : str_forall name_byte s = true -> url_escape s encodeHost = s.
Proof.
  induction s as [|c s IH]; [done|]. cbn [str_forall]. intros [Hc Hs]%andb_true_iff. rewrite escape_cons. unfold name_byte in Hc. destruct (shouldEscape c encodeHost); [done|].
  by rewrite IH.
Qed.
Lemma names_read s : str_forall name_byte s = true -> url_unescape s encodeHost = Ok s.
Proof.
  intros Hs. rewrite <- (names_written s Hs) at 1. apply unescape_escaped. revert Hs. apply str_forall_impl. apply ascii_impl_dec. vm_compute. reflexivity.
Qed.

(** ** The letters' case *)
Lemma lower_cons c s : ascii_lower (String c s) = String (lower_byte c) (ascii_lower s).
Proof. done. Qed.
Lemma lower_app a b : ascii_lower (a +:+ b) = ascii_lower a +:+ ascii_lower b.
Proof. apply str_flat_map_app. Qed.
Lemma lower_names s : str_forall name_byte s = true -> str_forall name_byte (ascii_lower s) = true.
Proof.
  induction s as [|c s IH]; [done|]. rewrite lower_cons. cbn [str_forall]. intros [Hc Hs]%andb_true_iff. rewrite IH by done. rewrite andb_true_r. revert c Hc. apply ascii_impl_dec. vm_compute. reflexivity.
Qed.
Lemma lower_idempotent s : ascii_lower (ascii_lower s) = ascii_lower s.
Proof. induction s as [|c s IH]; [done|]. rewrite !lower_cons, IH. f_equal. by all_bytes c. Qed.
Lemma lower_empty s : String.eqb (ascii_lower s) "" = String.eqb s "".
Proof. by destruct s. Qed.
(** A byte that is no letter stays where it is. *)
Definition caseless (b : ascii) : Prop := forall c, Ascii.eqb (lower_byte c) b = Ascii.eqb c b.
Lemma caseless_colon : caseless ":".
Proof. intros c. by all_bytes c. Qed.
Lemma caseless_dot : caseless ".".
Proof. intros c. by all_bytes c. Qed.
Lemma caseless_percent : caseless "%".
Proof. intros c. by all_bytes c. Qed.
Lemma caseless_open : caseless "[".
Proof. intros c. by all_bytes c. Qed.
Lemma byte_in_lower b s : caseless b -> byte_in b (ascii_lower s) = byte_in b s.
Proof. intros Hb. induction s as [|c s IH]; [done|]. rewrite lower_cons. cbn [byte_in]. by rewrite IH, !(Ascii.eqb_sym b), Hb. Qed.
Lemma lower_eq c b : caseless b -> lower_byte c = b <-> c = b.
Proof. intros Hb. rewrite <- !Ascii.eqb_eq. by rewrite Hb. Qed.
Lemma split_lower b s : caseless b -> split_byte (ascii_lower s) b = map ascii_lower (split_byte s b).
Proof.
  intros Hb. induction s as [|c s IH]; [done|]. rewrite lower_cons. cbn [split_byte]. rewrite Hb, IH. destruct (Ascii.eqb c b); [done|]. by destruct (split_byte s b).
Qed.
Lemma dec_value_lower s : forall acc, dec_value (ascii_lower s) acc = dec_value s acc.
Proof.
  induction s as [|c s IH]; intros acc; [done|]. rewrite lower_cons. cbn [dec_value]. assert (is_digit (lower_byte c) = is_digit c) as -> by by all_bytes c.
  destruct (is_digit c) eqn:E; [|done]. rewrite IH. f_equal. revert E. by all_bytes c.
Qed.
Lemma octet_lower s : parse_octet (ascii_lower s) = parse_octet s.
Proof.
  unfold parse_octet, parse_uint. rewrite lower_empty, dec_value_lower. destruct (if String.eqb s "" then _ else _); [|done].
  assert (String.eqb (ascii_lower s) "0" || negb (has_prefix (ascii_lower s) "0") = String.eqb s "0" || negb (has_prefix s "0")) as ->; [|done].
  destruct s as [|c s]; [done|]. rewrite lower_cons. cbn [String.eqb has_prefix]. rewrite lower_empty. assert (Ascii.eqb (lower_byte c) "0" = Ascii.eqb c "0") as -> by by all_bytes c. done.
Qed.
Lemma ipv4_lower s : parseIPv4 (ascii_lower s) = parseIPv4 s.
Proof. unfold parseIPv4. rewrite split_lower by apply caseless_dot. destruct (split_byte s ".") as [|a [|b [|c [|d [|e l]]]]]; cbn [map]; rewrite ?octet_lower; done. Qed.
Lemma hex_lower c : hex_value (lower_byte c) = hex_value c.
Proof. all_bytes c. Qed.
Lemma hex_run_lower s : forall acc n, hex_run (ascii_lower s) acc n = let '(v, k, r) := hex_run s acc n in (v, k, ascii_lower r).
Proof. induction s as [|c s IH]; intros acc n; [done|]. rewrite lower_cons. cbn [hex_run]. rewrite hex_lower. destruct (hex_value c); [apply IH|done]. Qed.
Lemma fields_lower n : forall fields e s, ipv6_fields n fields e (ascii_lower s) = ipv6_fields n fields e s.
Proof.
  induction n as [|n IH]; intros fields e s; cbn [ipv6_fields]; [by rewrite lower_empty|]. rewrite hex_run_lower. destruct (hex_run s 0 0) as [[acc off] rest]. destruct (_ || _); [done|].
  destruct rest as [|c rest]; [done|]. rewrite lower_cons, (caseless_dot c), (caseless_colon c), ipv4_lower. destruct (Ascii.eqb c "."); [done|]. destruct (Ascii.eqb c ":"); [|done].
  destruct rest as [|d rest]; [done|]. rewrite lower_cons, (caseless_colon d), lower_empty. destruct (Ascii.eqb d ":").
  - destruct e; [done|]. destruct (String.eqb rest ""); [done|]. apply IH.
  - rewrite <- lower_cons. apply IH.
Qed.
Lemma ipv6_lower s : parseIPv6 (ascii_lower s) = parseIPv6 s.
Proof.
  unfold parseIPv6. rewrite byte_in_lower by apply caseless_percent. destruct (byte_in "%" s); [done|].
  assert (has_prefix (ascii_lower s) "::" = has_prefix s "::") as ->.
  { destruct s as [|a [|b s]]; [done|rewrite lower_cons; cbn [has_prefix]; by rewrite (caseless_colon a)|]. rewrite !lower_cons. cbn [has_prefix]. by rewrite (caseless_colon a), (caseless_colon b). }
  destruct (has_prefix s "::").
  - assert (str_drop 2 (ascii_lower s) = ascii_lower (str_drop 2 s)) as -> by by destruct s as [|a [|b s]]. by rewrite lower_empty, fields_lower.
  - by rewrite lower_empty, fields_lower.
Qed.
Lemma first_of_lower s : first_of (ascii_lower s) = first_of s.
Proof.
  induction s as [|c s IH]; [done|]. rewrite lower_cons. cbn [first_of]. rewrite (caseless_dot c), (caseless_colon c), (caseless_percent c), IH.
  destruct (Ascii.eqb c "." || Ascii.eqb c ":" || Ascii.eqb c "%") eqn:E; [|done]. f_equal. rewrite !orb_true_iff, !Ascii.eqb_eq in E. destruct E as [[->| ->]| ->]; done.
Qed.

(** ** Hosts *)
Definition port_byte (c : ascii) : bool := is_digit c || Ascii.eqb c ":".
Lemma port_bytes p : validOptionalPort p = true -> str_forall port_byte p = true.
Proof.
  destruct p as [|c p]; [done|]. cbn [validOptionalPort str_forall]. intros [Hc Hp]%andb_true_iff. unfold port_byte at 1. rewrite Hc, orb_true_r. cbn [andb]. revert Hp. apply str_forall_impl. apply ascii_impl_dec. vm_compute. reflexivity.
Qed.
Lemma port_names p : validOptionalPort p = true -> str_forall name_byte p = true.
Proof. intros H%port_bytes. revert H. apply str_forall_impl. apply ascii_impl_dec. vm_compute. reflexivity. Qed.
Lemma names_no b s : name_byte b = false -> str_forall name_byte s = true -> byte_in b s = false.
Proof. apply str_forall_no_byte. Qed.
Lemma cut_byte_absent b s : byte_in b s = false -> cut_byte s b = (s, "", false).
Proof. intros H. pose proof (cut_byte_spec s b) as Hs. destruct (cut_byte s b) as [[x y] []]; [|destruct Hs as (-> & -> & _); done]. destruct Hs as [-> _]. rewrite byte_in_app in H. cbn in H. rewrite Ascii.eqb_refl, orb_true_r in H. done. Qed.
Lemma last_index_none s b : last_index_byte s b = None -> byte_in b s = false.
Proof.
  intros H. destruct (byte_in b s) eqn:E; [|done]. exfalso. induction s as [|c s IH]; [done|]. cbn [last_index_byte byte_in] in *. destruct (last_index_byte s b); [done|].
  destruct (Ascii.eqb_spec c b) as [->|Hne]; [done|]. apply IH; [done|]. by destruct (Ascii.eqb_spec b c); [congruence|].
Qed.

(** The two forms of a host, [name] being what [Hostname] gives. *)
Inductive host_form : string -> string -> string -> Prop :=
| registered name port : byte_in ":" name = false -> str_forall name_byte name = true -> validOptionalPort port = true -> host_form (name +:+ port) name port
| literal name port : ipv6_literal name = true -> str_forall name_byte name = true -> validOptionalPort port = true -> host_form ("[" +:+ name +:+ "]" +:+ port) name port.

Lemma ipv6_colon name : ipv6_literal name = true -> byte_in ":" name = true.
Proof.
  unfold ipv6_literal. destruct (cut_byte name "%") as [[x z] f]. destruct (first_of name) as [c|] eqn:E; [|done]. intros [[->%Ascii.eqb_eq _]%andb_true_iff _]%andb_true_iff.
  clear -E. induction name as [|c s IH]; [done|]. cbn [first_of byte_in] in *. destruct (_ || _ || _); [injection E as ->; by rewrite Ascii.eqb_refl|]. rewrite IH by done. apply orb_true_r.
Qed.
Lemma drop_past a c b : str_drop (S (String.length a)) (a +:+ String c b) = b.
Proof. induction a as [|d a IH]; [done|exact IH]. Qed.
Lemma last_index_app_ne s t b : byte_in b t = false -> last_index_byte (s +:+ t) b = last_index_byte s b.
Proof. intros Ht. induction s as [|c s IH]; [by apply last_index_byte_none|]. cbn [String.append last_index_byte]. by rewrite IH. Qed.
Lemma brackets_stripped name : (let host := "[" +:+ name +:+ "]" in if has_prefix host "[" && has_suffix host "]" then str_drop 1 (str_take (String.length host - 1) host) else host) = name.
Proof.
  cbv zeta. rewrite (proj2 (has_prefix_spec _ _)) by by eexists. rewrite (proj2 (has_suffix_spec _ _)) by (exists ("[" +:+ name); by rewrite <- str_app_assoc). cbn [andb].
  rewrite str_app_assoc. rewrite (str_length_app _ "]"). replace (String.length ("[" +:+ name) + String.length "]" - 1)%nat with (String.length ("[" +:+ name)) by (cbn [String.length]; lia). by rewrite str_take_app_length.
Qed.
Lemma port_after host port : validOptionalPort port = true -> port <> "" -> last_index_byte (host +:+ port) ":" = Some (String.length host) /\
  str_drop (String.length host) (host +:+ port) = port /\ str_take (String.length host) (host +:+ port) = host /\ str_drop (S (String.length host)) (host +:+ port) = match port with "" => "" | String _ p => p end.
Proof.
  destruct port as [|c port]; [done|]. cbn [validOptionalPort]. intros [->%Ascii.eqb_eq Hd]%andb_true_iff _. rewrite last_index_byte_app by (by apply byte_in_digits). by rewrite str_drop_app_length, str_take_app_length, drop_past.
Qed.
Lemma name_open name : byte_in "[" name = false -> has_prefix name "[" = false.
Proof. destruct name as [|d name]; [done|]. cbn [has_prefix byte_in]. intros [Hd _]%orb_false_iff. by rewrite Ascii.eqb_sym, Hd. Qed.
Definition port_number (port : string) : string := match port with "" => "" | String _ p => p end.
Lemma split_registered name port : byte_in ":" name = false -> byte_in "[" name = false -> validOptionalPort port = true -> splitHostPort (name +:+ port) = (name, port_number port).
Proof.
  intros Hc Hn Hp. unfold splitHostPort. destruct (decide (port = "")) as [->|Hne].
  - rewrite str_app_nil_r, last_index_byte_none by done. cbn beta iota. by rewrite name_open.
  - destruct (port_after name port Hp Hne) as (-> & -> & -> & ->). rewrite Hp. cbn beta iota. by rewrite name_open.
Qed.
Lemma split_literal name port : validOptionalPort port = true -> splitHostPort ("[" +:+ name +:+ "]" +:+ port) = (name, port_number port).
Proof.
  intros Hp. unfold splitHostPort. destruct (decide (port = "")) as [->|Hne].
  - rewrite str_app_nil_r. destruct (last_index_byte _ ":") as [i|] eqn:E; cbn beta iota.
    + assert (validOptionalPort (str_drop i ("[" +:+ name +:+ "]")) = false) as ->; [|f_equal; apply brackets_stripped].
      rewrite str_app_assoc, last_index_app_ne in E by done. apply last_index_split in E as (x & y & E & _ & ->). rewrite str_app_assoc, E, <- str_app_assoc, str_drop_app_length.
      cbn [String.append validOptionalPort]. rewrite Ascii.eqb_refl. cbn [andb]. rewrite str_forall_app. apply andb_false_r.
    + f_equal. apply brackets_stripped.
  - rewrite !str_app_assoc. rewrite <- (str_app_assoc "[" name "]"). destruct (port_after ("[" +:+ name +:+ "]") port Hp Hne) as (-> & -> & -> & ->). rewrite Hp. cbn beta iota. f_equal. apply brackets_stripped.
Qed.
Lemma form_split h name port : host_form h name port -> splitHostPort h = (name, port_number port).
Proof. intros [n p Hc Hn Hp|n p Hl Hn Hp]; [apply split_registered; try done; by apply names_no|by apply split_literal]. Qed.

(** Such a host is written as it is and read as it is. *)
Lemma form_written h name port : host_form h name port -> url_escape h encodeHost = h.
Proof.
  assert (forall a b, url_escape (a +:+ b) encodeHost = url_escape a encodeHost +:+ url_escape b encodeHost) as Happ by (intros a b; apply str_flat_map_app).
  intros [n p Hc Hn Hp|n p Hl Hn Hp]; rewrite !Happ, (names_written n), (names_written p) by (done || by apply port_names); done.
Qed.
Lemma form_read h name port : host_form h name port -> parseHost h = Ok h.
Proof.
  intros [n p Hc Hn Hp|n p Hl Hn Hp]; unfold parseHost; pose proof (port_names p Hp) as Hpn.
  - assert (byte_in "[" (n +:+ p) = false) as Hb by (rewrite byte_in_app, !(names_no "[") by done; done). rewrite last_index_byte_none by done.
    assert (match index_byte (n +:+ p) ":" with Some i => validOptionalPort (str_drop i (n +:+ p)) | None => true end = true) as ->.
    { destruct p as [|c p]; [by rewrite str_app_nil_r, index_byte_none|]. pose proof Hp as Hv. cbn [validOptionalPort] in Hp. apply andb_true_iff in Hp as [->%Ascii.eqb_eq _].
      by rewrite index_byte_app, str_drop_app_length. }
    apply names_read. by rewrite str_forall_app, Hn.
  - assert (byte_in "[" (n +:+ "]" +:+ p) = false) as Hb by (rewrite !byte_in_app, !(names_no "[") by done; done).
    assert (last_index_byte ("[" +:+ n +:+ "]" +:+ p) "[" = Some 0%nat) as -> by (cbn [String.append last_index_byte]; by rewrite last_index_byte_none).
    assert (byte_in "]" p = false) as Hc by (eapply str_forall_no_byte; [|by apply port_bytes]; done).
    assert (last_index_byte ("[" +:+ n +:+ "]" +:+ p) "]" = Some (String.length ("[" +:+ n))) as ->.
    { rewrite str_app_assoc. change ("]" +:+ p) with (String "]" p). by rewrite last_index_byte_app. }
    rewrite str_app_assoc. change ("]" +:+ p) with (String "]" p). rewrite drop_past, Hp, str_take_app_length. cbn [negb]. rewrite names_read by done. cbn [rbind].
    change (str_drop 1 ("[" +:+ n)) with n. assert (index_str n "%25" = None) as ->.
    { destruct (index_str n "%25") as [i|] eqn:E; [|done]. exfalso. assert (contains_str n "%25" = true) as Hs by (unfold contains_str; by rewrite E). apply contains_str_spec in Hs as (x & y & ->).
      pose proof (names_no "%" _ eq_refl Hn) as Hx. rewrite !byte_in_app in Hx. cbn in Hx. rewrite orb_true_r in Hx. done. }
    rewrite names_read by done. cbn [rbind]. rewrite Hl. by rewrite <- str_app_assoc.
Qed.

(** What the parser makes of a host has such a form, when its name is plain. *)
Lemma unescape_before_port n p t : (p = "" \/ exists d, p = String ":" d) -> str_forall name_byte p = true -> url_unescape (n +:+ p) encodeHost = Ok t -> exists n', url_unescape n encodeHost = Ok n' /\ t = n' +:+ p.
Proof.
  intros Hp Hn. revert t. induction n as [n IH] using (induction_ltof1 _ String.length). unfold ltof in IH. intros t H. destruct n as [|c n].
  - cbn [String.append] in H. rewrite names_read in H by done. injection H as <-. by exists "".
  - cbn [String.append url_unescape] in H |- *. destruct (Ascii.eqb c "%") eqn:Ec.
    + destruct n as [|h [|l n]]; cbn [String.append] in H.
      * destruct Hp as [->|[d ->]]; [done|]. destruct d as [|x d]; [done|]. unfold unescaped in H. cbn in H. done.
      * destruct Hp as [->|[d ->]]; [done|]. unfold unescaped in H. cbn in H. destruct (hex_value h); done.
      * destruct (unescaped h l encodeHost) as [v|]; [|done]. inv_ok H. injection H as <-. destruct (IH n ltac:(cbn [String.length]; lia) _ E) as (n' & -> & ->). cbn [rbind]. by exists (String v n').
    + destruct (_ && _ && _); [done|]. inv_ok H. injection H as <-. destruct (IH n ltac:(cbn [String.length]; lia) _ E) as (n' & -> & ->). cbn [rbind]. by exists (String c n').
Qed.
Lemma unescape_absent b s t : name_byte b = true \/ b = "["%char -> byte_in b s = false -> url_unescape s encodeHost = Ok t -> byte_in b t = false.
Proof.
  intros Hb Hs H. assert (str_forall (fun c => negb (Ascii.eqb b c)) t = true) as Ht.
  { eapply (unescape_bytes encodeHost _ (fun c => negb (Ascii.eqb b c))); [| | |exact H].
    - intros h l v Hv. cbn beta. apply negb_true_iff, Ascii.eqb_neq. intros <-. unfold unescaped in Hv. destruct (hex_value h) as [x|] eqn:Ex; [|done]. destruct (hex_value l) as [y|] eqn:Ey; [|done]. apply hex_value_range in Ex, Ey.
      destruct (Z.ltb_spec x 8); cbn [andb] in Hv.
      + destruct (Ascii.eqb (az (x * 16 + y)) "%") eqn:Ep; [|done]. injection Hv as <-. apply Ascii.eqb_eq in Ep. rewrite Ep in Hb. destruct Hb; done.
      + injection Hv as Hv. assert (128 <= bz b) as H128 by (rewrite <- Hv, bz_az by lia; lia). assert (ascii_byte b = true) as Ha by (destruct Hb as [Hb|[= ->]]; [|done]; revert b Hb Hs Hv H128; intros b Hb _ _ _; revert b Hb; apply ascii_impl_dec; vm_compute; reflexivity).
        unfold ascii_byte in Ha. lia.
    - done.
    - clear H. induction s as [|c s IH]; [done|]. cbn [byte_in str_forall] in *. apply orb_false_iff in Hs as [H1 H2]. by rewrite H1, IH. }
  clear -Ht. induction t as [|c t IH]; [done|]. cbn [byte_in str_forall] in *. apply andb_true_iff in Ht as [H1%negb_true_iff H2]. by rewrite H1, IH.
Qed.
Lemma zone_percent y : url_unescape ("%25" +:+ y) encodeZone = let* t := url_unescape y encodeZone in Ok (String "%" t).
Proof. reflexivity. Qed.
Lemma plain_no_percent s : str_forall plain_byte s = true -> byte_in "%" s = false.
Proof. apply str_forall_no_byte. done. Qed.
Lemma parsed_form a h : parseHost a = Ok h -> str_forall plain_byte (fst (splitHostPort h)) = true -> exists port, host_form h (fst (splitHostPort h)) port.
Proof.
  unfold parseHost. destruct (last_index_byte a "[") as [[|k]|] eqn:E; [|done|].
  - destruct (last_index_byte a "]") as [i|]; [|done]. set (port := str_drop (S i) a). destruct (validOptionalPort port) eqn:Hp; [|done]. cbn [negb]. rewrite names_read by (by apply port_names). cbn [rbind].
    set (hostname := str_drop 1 (str_take i a)). intros H Hplain. inv_ok H. destruct (ipv6_literal v) eqn:El; [|done]. injection H as <-.
    change (String "[" (v +:+ String "]" port)) with ("[" +:+ v +:+ "]" +:+ port) in *. rewrite split_literal in Hplain |- * by done. cbn [fst] in *. exists port. constructor; [done| |done].
    destruct (index_str hostname "%25") as [z|] eqn:Ez; [|by eapply host_names]. exfalso. inv_ok E0. inv_ok E0. injection E0 as <-.
    assert (exists y, str_drop z hostname = "%25" +:+ y) as [y Hy].
    { clear -Ez. generalize dependent hostname. intros s. revert z. induction s as [|c s IH]; intros z; rewrite index_str_unfold; destruct (has_prefix _ "%25") eqn:Ep; try done.
      - intros [= <-]. apply has_prefix_spec in Ep as [y ->]. by exists y.
      - destruct (index_str s "%25") as [j|]; [|done]. intros [= <-]. destruct (IH j eq_refl) as [y Hy]. by exists y. }
    rewrite Hy, zone_percent in E2.
    inv_ok E2. injection E2 as <-.
    apply plain_no_percent in Hplain. rewrite byte_in_app in Hplain. cbn [byte_in] in Hplain. by rewrite orb_true_r in Hplain.
  - apply last_index_none in E. destruct (match index_byte a ":" with Some i => _ | None => true end) eqn:Hp; [|done]. intros H.
    assert (exists n p, a = n +:+ p /\ byte_in ":" n = false /\ validOptionalPort p = true) as (n & p & -> & Hn & Hvp).
    { destruct (index_byte a ":") as [i|] eqn:Ei.
      - apply index_byte_split in Ei as (x & y & -> & Hx & ->). rewrite str_drop_app_length in Hp. by exists x, (String ":" y).
      - exists a, "". rewrite str_app_nil_r. split_and!; [done| |done]. clear -Ei. induction a as [|c a IH]; [done|]. cbn [index_byte byte_in] in *. destruct (Ascii.eqb_spec c ":"); [done|].
        rewrite IH by (by destruct (index_byte a ":")). rewrite orb_false_r. apply Ascii.eqb_neq. congruence. }
    apply (unescape_before_port n p) in H as (n' & Hn' & ->); [| |by apply port_names].
    + rewrite byte_in_app in E. apply orb_false_iff in E as [E _]. pose proof (unescape_absent ":" n n' (or_introl eq_refl) Hn Hn') as Hc. pose proof (unescape_absent "[" n n' (or_intror eq_refl) E Hn') as Ho.
      rewrite split_registered by done. cbn [fst]. intros Hplain. exists p. constructor; [done|by eapply host_names|done].
    + destruct p as [|c p]; [by left|]. cbn [validOptionalPort] in Hvp. apply andb_true_iff in Hvp as [->%Ascii.eqb_eq _]. right. by eexists.
Qed.

(** ** The canonical host *)
Section canonical.
Variable unicode_lower : Z -> Z.

Lemma ToLower_ascii s : str_forall ascii_byte s = true -> ToLower unicode_lower s = ascii_lower s.
Proof.
  intros Hs. unfold ToLower. rewrite runes_ascii by done. induction s as [|c s IH]; [done|]. cbn [str_forall] in Hs. apply andb_true_iff in Hs as [Hc Hs].
  cbn [list_ascii_of_string map]. unfold concat_str in *. cbn [foldr]. rewrite IH, lower_cons by done. change (String ?a ?b) with (String a "" +:+ b). f_equal. clear -Hc. revert Hc. by all_bytes c.
Qed.
Definition default_port (scheme port : string) : bool := (String.eqb scheme "https" && String.eqb port "443") || (String.eqb scheme "http" && String.eqb port "80").
Definition host_text (name port : string) : string := (if byte_in ":" name then "[" +:+ name +:+ "]" else name) +:+ (if String.eqb port "" then "" else ":" +:+ port).
Lemma plain_lower name : str_forall plain_byte name = true -> str_forall plain_byte (ascii_lower name) = true.
Proof.
  induction name as [|c s IH]; [done|]. rewrite lower_cons. cbn [str_forall]. intros [Hc Hs]%andb_true_iff. rewrite IH by done. rewrite andb_true_r. revert c Hc. apply ascii_impl_dec. vm_compute. reflexivity.
Qed.
Lemma plain_ascii name : str_forall plain_byte name = true -> str_forall ascii_byte name = true.
Proof. apply str_forall_impl. by intros c [H _]%andb_true_iff. Qed.
Lemma canonical_text u : str_forall plain_byte (Hostname u) = true ->
  canonical_host unicode_lower u = host_text (ascii_lower (Hostname u)) (if default_port (Scheme u) (Port u) then "" else Port u).
Proof.
  intros Hp. unfold canonical_host, host_text. rewrite ToLower_ascii by by apply plain_ascii. fold (default_port (Scheme u) (Port u)). set (port := if default_port _ _ then _ else _).
  destruct (String.eqb port "") eqn:E; cbn [negb]; [by rewrite str_app_nil_r|]. unfold JoinHostPort. destruct (byte_in ":" _); [|done]. by rewrite <- !str_app_assoc.
Qed.
Lemma literal_lower s : byte_in "%" s = false -> ipv6_literal (ascii_lower s) = ipv6_literal s.
Proof. intros H. unfold ipv6_literal. rewrite (cut_byte_absent "%" s H), (cut_byte_absent "%" (ascii_lower s)) by (rewrite byte_in_lower; [done|apply caseless_percent]). by rewrite first_of_lower, ipv6_lower. Qed.

(** Its parts are the lowered name and the port that is left. *)
Lemma canonical_form host name port d : host_form host name port -> d = "" \/ (d <> "" /\ d = port_number port) -> host_form (host_text (ascii_lower name) d) (ascii_lower name) (if String.eqb d "" then "" else ":" +:+ d).
Proof.
  intros Hf Hd. assert (forall p, validOptionalPort p = true -> d = "" \/ (d <> "" /\ d = port_number p) -> validOptionalPort (if String.eqb d "" then "" else ":" +:+ d) = true) as Hv.
  { clear. intros p Hp [->|[Hne ->]]; [done|]. destruct (String.eqb_spec (port_number p) "") as [|Hn]; [done|]. destruct p as [|c p]; [done|]. cbn [validOptionalPort port_number String.append] in *. apply andb_true_iff in Hp as [_ Hp]. done. }
  destruct Hf as [n p Hc Hn Hp|n p Hl Hn Hp]; unfold host_text; rewrite byte_in_lower by apply caseless_colon.
  - rewrite Hc. constructor; [by rewrite byte_in_lower by apply caseless_colon|by apply lower_names|by eapply Hv].
  - rewrite (ipv6_colon n Hl), <- !str_app_assoc. constructor; [rewrite literal_lower; [done|by apply names_no]|by apply lower_names|by eapply Hv].
Qed.
Lemma form_number d : port_number (if String.eqb d "" then "" else ":" +:+ d) = d.
Proof. by destruct d. Qed.
End canonical.

(** ** What the parser makes of an address with a host *)
Definition query_byte (c : ascii) : bool := negb (control_byte c) && negb (Ascii.eqb c "#").
Definition path_byte (c : ascii) : bool := query_byte c && negb (Ascii.eqb c "?").
Definition rooted (p : string) : Prop := p = "" \/ exists t, p = String "/" t.
Definition query_text (query : string) (force : bool) : string := if force || negb (String.eqb query "") then "?" +:+ query else "".

Lemma not_control_sub raw : str_exists control_byte raw = false -> str_forall (fun c => negb (control_byte c)) raw = true.
Proof. by rewrite str_exists_false. Qed.
Lemma cut_parts s b : let '(x, y, _) := cut_byte s b in byte_in b x = false /\ forall p, str_forall p s = true -> str_forall p x = true /\ str_forall p y = true.
Proof.
  pose proof (cut_byte_spec s b) as H. destruct (cut_byte s b) as [[x y] []]; [destruct H as [-> Hx]|destruct H as (-> & -> & Hx)]; (split; [done|]); intros p Hp; [|done].
  rewrite str_forall_app in Hp. apply andb_true_iff in Hp as [H1 H2]. cbn [str_forall] in H2. by apply andb_true_iff in H2 as [_ H2].
Qed.
Lemma no_byte_forall b s : byte_in b s = false -> str_forall (fun c => negb (Ascii.eqb c b)) s = true.
Proof. induction s as [|c s IH]; [done|]. cbn [byte_in str_forall]. rewrite Ascii.eqb_sym. by intros [-> H2]%orb_false_iff; apply IH. Qed.
Lemma forall_and p q s : str_forall p s = true -> str_forall q s = true -> str_forall (fun c => p c && q c) s = true.
Proof. induction s as [|c s IH]; [done|]. cbn [str_forall]. intros [H1 H2]%andb_true_iff [H3 H4]%andb_true_iff. by rewrite H1, H3, IH. Qed.
Lemma drop_forall p n s : str_forall p s = true -> str_forall p (str_drop n s) = true.
Proof. revert s. induction n as [|n IH]; intros s Hs; [done|]. destruct s as [|c s]; [done|]. cbn [str_forall str_drop] in *. apply andb_true_iff in Hs as [_ Hs]. by apply IH. Qed.

(** What was said of a parsed address with a host. *)
Definition with_host (u : URL) : Prop :=
  Opaque u = "" /\ OmitHost u = false /\ str_forall query_byte (RawQuery u) = true /\ (ForceQuery u = true -> RawQuery u = "") /\
  (exists a, parseHost a = Ok (Host u)) /\ exists tail, rooted tail /\ str_forall query_byte tail = true /\ path_parts tail = Ok (Path u, RawPath u).
Lemma authority_host a user h : parseAuthority a = Ok (user, h) -> exists b, parseHost b = Ok h.
Proof.
  unfold parseAuthority. destruct (last_index_byte a "@"); intros H; inv_ok H.
  - inv_ok H. injection H as _ <-. eauto.
  - injection H as _ <-. eauto.
Qed.
Lemma split_authority_tail s : rooted (snd (split_authority s)).
Proof.
  unfold split_authority. destruct (index_byte s "/") as [i|] eqn:E; cbn [snd]; [|by left]. apply index_byte_split in E as (x & y & -> & _ & ->). rewrite str_drop_app_length. right. eauto.
Qed.
Lemma split_authority_forall p s : str_forall p s = true -> str_forall p (snd (split_authority s)) = true.
Proof. unfold split_authority. destruct (index_byte s "/"); [|done]. apply drop_forall. Qed.
Lemma scheme_drop raw sr p : getScheme raw = Ok sr -> str_forall p raw = true -> str_forall p (snd sr) = true.
Proof. unfold getScheme. destruct (scheme_end true raw) as [[|n]|]; [done| |]; intros H Hp; injection H as <-; [by apply (drop_forall p (S (S n)))|done]. Qed.
Lemma split_query_inv rest : let '(path, query, force) := split_query rest in
  (force = true -> query = "") /\ forall p, str_forall p rest = true -> str_forall p path = true /\ str_forall p query = true.
Proof.
  unfold split_query. pose proof (cut_parts rest "?") as H. destruct (cut_byte rest "?") as [[path query] found]. destruct H as [_ H].
  destruct found; cbn [andb]; [destruct (String.eqb_spec query "") as [->|]|]; split; intros; try done; by apply H.
Qed.
Lemma parse_host raw u : str_forall (fun c => negb (Ascii.eqb c "#")) raw = true -> parse raw = Ok u -> Host u <> "" -> with_host u.
Proof.
  intros Hh. unfold parse. destruct (str_exists control_byte raw) eqn:Hc; [done|]. destruct (String.eqb raw "*"); [by intros [= <-]|]. intros H. inv_ok H.
  assert (str_forall query_byte (snd v) = true) as Hq by (eapply scheme_drop; [exact E|]; apply forall_and; [by apply not_control_sub|done]).
  destruct (split_query (snd v)) as [[rest query] force] eqn:Es. pose proof (split_query_inv (snd v)) as Hsq. rewrite Es in Hsq. destruct Hsq as [Hforce Hall]. destruct (Hall _ Hq) as [Hrest Hquery].
  destruct (_ && _); [by injection H as <-|]. destruct (_ && _); [done|]. destruct (_ && _).
  - destruct (split_authority (str_drop 2 rest)) as [auth tail] eqn:Ea. inv_ok H. inv_ok H. injection H as <-. intros _. destruct v0 as [user h]. destruct v1 as [path rp]. split_and!; cbn; try done.
    + by eapply authority_host.
    + exists tail. replace tail with (snd (split_authority (str_drop 2 rest))) by by rewrite Ea. split_and!; [apply split_authority_tail|by apply split_authority_forall, drop_forall|by rewrite Ea].
  - inv_ok H. by injection H as <-.
Qed.
Lemma Parse_host raw u : Parse raw = Ok u -> Host u <> "" -> with_host u.
Proof.
  unfold Parse. pose proof (cut_byte_spec raw "#") as Hs. pose proof (cut_parts raw "#") as Hp. destruct (cut_byte raw "#") as [[a frag] f]. destruct Hp as [Hb%no_byte_forall _]. intros H. inv_ok H. destruct (String.eqb frag "").
  - injection H as <-. exact (parse_host a _ Hb E).
  - inv_ok H. injection H as <-. exact (parse_host a _ Hb E).
Qed.

(** ** The path that is written *)
Lemma escape_query_bytes s : str_forall path_byte (url_escape s encodePath) = true.
Proof.
  assert (forall c, str_forall path_byte (if shouldEscape c encodePath then percent c else String c "") = true) as H by (intros c; by all_bytes c).
  induction s as [|c s IH]; [done|]. by rewrite escape_cons, str_forall_app, H, IH.
Qed.
Lemma valid_path_bytes s : validEncoded s encodePath = true -> str_forall path_byte s = true.
Proof. apply str_forall_impl. apply ascii_impl_dec. vm_compute. reflexivity. Qed.
Lemma unescape_empty s : url_unescape s encodePath = Ok "" -> s = "".
Proof.
  destruct s as [|c s]; [done|]. cbn [url_unescape]. intros H. destruct (Ascii.eqb c "%"); [|cbn [host_mode andb] in H; by inv_ok H].
  destruct s as [|h [|l s]]; [done|done|]. destruct (unescaped h l encodePath); [by inv_ok H|done].
Qed.
Lemma unescape_slash t : url_unescape (String "/" t) encodePath = let* x := url_unescape t encodePath in Ok (String "/" x).
Proof. reflexivity. Qed.
Lemma escape_slash t : url_escape (String "/" t) encodePath = String "/" (url_escape t encodePath).
Proof. reflexivity. Qed.
(** Of a path read from an address, what is written is read as the same path, and the root is always plain. *)
Lemma path_written tail path rp : rooted tail -> path_parts tail = Ok (path, rp) -> forall u, Path u = path -> RawPath u = rp ->
  rooted (EscapedPath u) /\ str_forall path_byte (EscapedPath u) = true /\ rooted path /\ (path = "/" -> rp = "") /\
  exists rp', path_parts (EscapedPath u) = Ok (path, rp') /\ forall u', Path u' = path -> RawPath u' = rp' -> EscapedPath u' = EscapedPath u.
Proof.
  intros Hr Hp u Hu Hru. unfold path_parts in Hp. inv_ok Hp. injection Hp as -> Hraw.
  assert (rooted path) as Hpath. { destruct Hr as [->|[t ->]]; [left; by injection E as <-|]. rewrite unescape_slash in E. inv_ok E. injection E as <-. right. eauto. }
  assert (rooted (url_escape path encodePath)) as Hesc by (destruct Hpath as [->|[t ->]]; [by left|right; rewrite escape_slash; eauto]).
  assert (String.eqb path "*" = false) as Hstar by by destruct Hpath as [->|[t ->]].
  assert (path_parts (url_escape path encodePath) = Ok (path, "")) as Hagain by (unfold path_parts; rewrite path_round_trip; cbn [rbind]; by rewrite String.eqb_refl).
  assert (path = "/" -> rp = "") as Hroot.
  { intros ->. rewrite <- Hraw. destruct Hr as [->|[t ->]]; [done|]. rewrite unescape_slash in E. inv_ok E. injection E as ->. apply unescape_empty in E0 as ->. reflexivity. }
  unfold EscapedPath. rewrite Hu, Hru, Hstar. destruct (negb (String.eqb rp "") && validEncoded rp encodePath && _) eqn:Ev.
  - apply andb_true_iff in Ev as [[Hne Hv]%andb_true_iff Hun]. destruct (String.eqb tail (url_escape path encodePath)) eqn:Et; [subst rp; done|]. subst tail.
    split_and!; [done|by apply valid_path_bytes|done|done|]. exists rp. split; [unfold path_parts; rewrite E; cbn [rbind]; by rewrite Et|]. intros u' -> ->. by rewrite Hne, Hv, Hun.
  - split_and!; [done|apply escape_query_bytes|done|done|]. exists "". split; [done|]. intros u' -> ->. cbn [String.eqb negb andb]. by rewrite Hstar.
Qed.

(** ** Reading an address back *)
Definition address (scheme host path query : string) (force : bool) : string := scheme +:+ "://" +:+ host +:+ path +:+ query_text query force.
Lemma form_bytes h name port : host_form h name port -> str_forall path_byte h = true /\ byte_in "/" h = false /\ byte_in "@" h = false.
Proof.
  assert (forall s, str_forall name_byte s = true -> str_forall path_byte s = true) as Hb by (intros s; apply str_forall_impl, ascii_impl_dec; vm_compute; reflexivity).
  intros [n p Hc Hn Hp%port_names|n p Hl Hn Hp%port_names]; rewrite !str_forall_app, !byte_in_app, !(Hb n), !(Hb p), !(names_no "/" n), !(names_no "/" p), !(names_no "@" n), !(names_no "@" p) by done; done.
Qed.
Lemma split_query_text body query force : str_forall (fun c => negb (Ascii.eqb c "?")) body = true -> (force = true -> query = "") -> split_query (body +:+ query_text query force) = (body, query, force).
Proof.
  intros Hb Hf. assert (byte_in "?" body = false) as Hq by (eapply str_forall_no_byte; [|exact Hb]; done). unfold split_query, query_text.
  destruct (force || negb (String.eqb query "")) eqn:E.
  - change ("?" +:+ query) with (String "?" query). rewrite cut_byte_app by done. destruct (String.eqb_spec query "") as [->|Hne]; cbn [andb]; [by destruct force|]. destruct force; [by destruct Hne; apply Hf|done].
  - apply orb_false_iff in E as [-> E%negb_false_iff%String.eqb_eq]. subst query. rewrite str_app_nil_r. by rewrite cut_byte_absent.
Qed.
Lemma scheme_read scheme r : scheme = "http" \/ scheme = "https" -> getScheme (scheme +:+ "://" +:+ r) = Ok (scheme, "//" +:+ r) /\ ascii_lower scheme = scheme /\ String.eqb scheme "" = false /\ str_forall path_byte scheme = true /\
  String.eqb (scheme +:+ "://" +:+ r) "*" = false.
Proof. by intros [->| ->]. Qed.
Lemma split_authority_form h ep : byte_in "/" h = false -> rooted ep -> split_authority (h +:+ ep) = (h, ep).
Proof.
  intros Hh [->|[t ->]]; unfold split_authority; [by rewrite str_app_nil_r, index_byte_none|]. by rewrite index_byte_app, str_take_app_length, str_drop_app_length.
Qed.
Lemma path_query s : str_forall path_byte s = true -> str_forall query_byte s = true.
Proof. apply str_forall_impl. by intros c [H _]%andb_true_iff. Qed.
Lemma Parse_address scheme h name port ep path rp query force : scheme = "http" \/ scheme = "https" -> host_form h name port -> rooted ep -> str_forall path_byte ep = true -> path_parts ep = Ok (path, rp) ->
  str_forall query_byte query = true -> (force = true -> query = "") -> Parse (address scheme h ep query force) = Ok (url_of scheme None h path rp false query force).
Proof.
  intros Hs Hf Hr He Hp Hq Hforce. destruct (form_bytes _ _ _ Hf) as (Hh & Hslash & Hat). destruct (scheme_read scheme (h +:+ ep +:+ query_text query force) Hs) as (Hget & Hlow & Hne & Hsb & Hstar). unfold address.
  assert (str_forall query_byte (query_text query force) = true) as Hqt by (unfold query_text; destruct (_ || _); [cbn [String.append str_forall]; by rewrite Hq|done]).
  assert (str_forall query_byte (scheme +:+ "://" +:+ h +:+ ep +:+ query_text query force) = true) as Hall by (rewrite !str_forall_app, (path_query scheme), (path_query h), (path_query ep), Hqt by done; done).
  unfold Parse. rewrite cut_byte_absent by (eapply str_forall_no_byte; [|exact Hall]; done). unfold parse.
  assert (str_exists control_byte (scheme +:+ "://" +:+ h +:+ ep +:+ query_text query force) = false) as ->.
  { apply str_exists_false. revert Hall. apply str_forall_impl. by intros c [H _]%andb_true_iff. }
  rewrite Hstar, Hget. cbn [rbind fst snd]. rewrite Hlow, Hne. rewrite (str_app_assoc h ep), (str_app_assoc "//").
  rewrite split_query_text; [|rewrite !str_forall_app; apply andb_true_iff; split; [done|]; apply andb_true_iff; split; [revert Hh|revert He]; apply str_forall_impl; by intros c [_ H]%andb_true_iff|done].
  change (has_prefix ("//" +:+ h +:+ ep) "/") with true. change (has_prefix ("//" +:+ h +:+ ep) "//") with (has_prefix (h +:+ ep) ""). change (str_drop 2 ("//" +:+ h +:+ ep)) with (h +:+ ep).
  assert (has_prefix (h +:+ ep) "" = true) as -> by by destruct (h +:+ ep). cbn [negb andb orb]. rewrite split_authority_form by done. unfold parseAuthority.
  assert (last_index_byte h "@" = None) as -> by by apply last_index_byte_none. rewrite (form_read _ _ _ Hf), Hp. reflexivity.
Qed.
Lemma form_nonempty h name port : host_form h name port -> name <> "" -> String.eqb h "" = false.
Proof. intros [n p|n p] Hne; [|done]. by destruct n. Qed.
(** What is printed for a host and a path. *)
Lemma printed_address u path rp h name port : host_form h name port -> name <> "" -> with_host u -> String.eqb (Scheme u) "" = false -> rooted (EscapedPath (with_authority u h path rp)) ->
  url_string (with_authority u h path rp) = address (Scheme u) h (EscapedPath (with_authority u h path rp)) (RawQuery u) (ForceQuery u).
Proof.
  intros Hf Hne (Ho & Homit & _) Hs Hr. set (v := with_authority u h path rp) in *. unfold url_string, authority_text, address, query_text.
  change (Scheme v) with (Scheme u). change (Opaque v) with (Opaque u). change (OmitHost v) with (OmitHost u). change (User v) with (@None Userinfo). change (Host v) with h. change (Fragment v) with "".
  change (ForceQuery v) with (ForceQuery u). change (RawQuery v) with (RawQuery u). rewrite Ho, Homit, Hs, (form_nonempty _ _ _ Hf Hne), (form_written _ _ _ Hf).
  cbn [negb andb orb String.eqb]. rewrite !str_app_nil_r.
  assert (forall b, negb (String.eqb (EscapedPath v) "") && negb (has_prefix (EscapedPath v) "/") && b = false) as -> by (intros b; by destruct Hr as [->|[t ->]]).
  assert (String.eqb ((Scheme u +:+ ":") +:+ "//" +:+ "" +:+ h) "" = false) as -> by by destruct (Scheme u).
  cbn [andb]. by rewrite <- !str_app_assoc.
Qed.

(** ** The canonical name *)
Definition canonical_root (u : URL) : bool := String.eqb (Path u) "/" && (String.eqb (RawPath u) "" || String.eqb (RawPath u) "/").
Lemma canonical_path u : with_host u -> let path := if canonical_root u then "" else Path u in let rp := if canonical_root u then "" else RawPath u in
  path <> "/" /\ (path = Path u \/ Path u = "/" /\ path = "") /\ exists tail, rooted tail /\ path_parts tail = Ok (path, rp).
Proof.
  intros (_ & _ & _ & _ & _ & tail & Hr & _ & Ht). unfold canonical_root. destruct (path_written _ _ _ Hr Ht u eq_refl eq_refl) as (_ & _ & _ & Hslash & _).
  destruct (String.eqb_spec (Path u) "/") as [Hp|Hp]; cbn [andb].
  - rewrite Hslash by done. cbn. split_and!; [done|by right|]. exists "". split; [by left|reflexivity].
  - cbn. split_and!; [done|by left|]. eauto.
Qed.
Lemma kept_port scheme port : let d := if default_port scheme port then "" else port in (if default_port scheme d then "" else d) = d.
Proof. cbv zeta. destruct (default_port scheme port) eqn:E; [by destruct (default_port scheme "")|by rewrite E]. Qed.
(** The URL read from a canonical name, when the host's name is plain. *)
Lemma canonical_read unicode_lower u : Scheme u = "http" \/ Scheme u = "https" -> Hostname u <> "" -> with_host u -> str_forall plain_byte (Hostname u) = true ->
  let path := if canonical_root u then "" else Path u in let rp := if canonical_root u then "" else RawPath u in let h := canonical_host unicode_lower u in let u1 := with_authority u h path rp in
  exists rp', let u2 := url_of (Scheme u) None h path rp' false (RawQuery u) (ForceQuery u) in
  Parse (url_string u1) = Ok u2 /\ Hostname u2 = ascii_lower (Hostname u) /\ canonical_host unicode_lower u2 = h /\ url_string (with_authority u2 h path rp') = url_string u1.
Proof.
  intros Hs Hn Hw Hplain path rp h u1. destruct (canonical_path u Hw) as (Hslash & _ & tail & Hr & Ht). destruct Hw as (Ho & Homit & Hq & Hforce & [a Ha] & Htail).
  destruct (parsed_form a (Host u) Ha Hplain) as [port Hf]. pose proof (form_split _ _ _ Hf) as Hsp. set (d := if default_port (Scheme u) (Port u) then "" else Port u).
  assert (Port u = port_number port) as Hport by (unfold Port; by rewrite Hsp). assert (h = host_text (ascii_lower (Hostname u)) d) as Hh by by apply canonical_text.
  assert (host_form h (ascii_lower (Hostname u)) (if String.eqb d "" then "" else ":" +:+ d)) as Hf1.
  { rewrite Hh. apply canonical_form with (host := Host u) (port := port); [exact Hf|]. destruct (String.eqb_spec d ""); [by left|right]. split; [done|]. rewrite <- Hport. unfold d in *. by destruct (default_port _ _). }
  assert (ascii_lower (Hostname u) <> "") as Hne by (intros H; apply Hn; apply String.eqb_eq; rewrite <- lower_empty; by apply String.eqb_eq).
  destruct (path_written tail path rp Hr Ht u1 eq_refl eq_refl) as (Hre & Hbe & _ & _ & rp' & Hparts & Hsame). exists rp'. intros u2.
  assert (with_host u) as Hw by (unfold with_host; eauto 10). assert (String.eqb (Scheme u) "" = false) as Hs0 by by destruct Hs as [->| ->].
  assert (url_string u1 = address (Scheme u) h (EscapedPath u1) (RawQuery u) (ForceQuery u)) as Hprint by exact (printed_address u path rp h _ _ Hf1 Hne Hw Hs0 Hre).
  assert (Parse (url_string u1) = Ok u2) as Hread by (rewrite Hprint; exact (Parse_address (Scheme u) h _ _ _ path rp' _ _ Hs Hf1 Hre Hbe Hparts Hq Hforce)).
  pose proof (form_split _ _ _ Hf1) as Hsp1. rewrite form_number in Hsp1. assert (Hostname u2 = ascii_lower (Hostname u)) as Hname by (unfold Hostname at 1; cbn [u2 url_of Host]; by rewrite Hsp1).
  split_and!; [done|done| |].
  - rewrite canonical_text by (rewrite Hname; by apply plain_lower). rewrite Hname, lower_idempotent. assert (Port u2 = d) as -> by (unfold Port; cbn [u2 url_of Host]; by rewrite Hsp1). cbn [u2 url_of Scheme]. rewrite Hh. f_equal. apply kept_port.
  - rewrite Hprint. assert (EscapedPath (with_authority u2 h path rp') = EscapedPath u1) as He by by apply Hsame. rewrite <- He. rewrite <- He in Hre.
    apply (printed_address u2 path rp' h _ _ Hf1 Hne); try done.
    unfold with_host. cbn. split_and!; try done; [exists h; by eapply form_read|]. exists (EscapedPath u1). rewrite He in Hre. split_and!; [done|by apply path_query|done].
Qed.
(** The canonical name of a resource is its own canonical name, and it names what the address named: the same scheme, path (the root written empty) and query, the host in lower case, without user or fragment. (The host is of ASCII bytes, with no percent sign and no bracket.) *)
Theorem canonical_idempotent unicode_lower raw c u : CanonicalResourceURI unicode_lower raw = Ok c -> Parse raw = Ok u -> str_forall plain_byte (Hostname u) = true ->
  CanonicalResourceURI unicode_lower c = Ok c /\
  exists u', Parse c = Ok u' /\ Scheme u' = Scheme u /\ Hostname u' = ascii_lower (Hostname u) /\ User u' = None /\ (Path u' = Path u \/ Path u = "/" /\ Path u' = "") /\ RawQuery u' = RawQuery u /\ Fragment u' = "".
Proof.
  unfold CanonicalResourceURI. intros Hc Hp Hplain. rewrite Hp in Hc. fold (canonical_root u) in Hc. destruct (negb (String.eqb (Scheme u) "http") && negb (String.eqb (Scheme u) "https") || String.eqb (Hostname u) "") eqn:Eg; [done|].
  injection Hc as <-. apply orb_false_iff in Eg as [Es En%String.eqb_neq]. assert (Scheme u = "http" \/ Scheme u = "https") as Hs by (apply andb_false_iff in Es as [?%negb_false_iff%String.eqb_eq|?%negb_false_iff%String.eqb_eq]; auto).
  assert (Host u <> "") as Hh by (intros H; apply En; unfold Hostname; by rewrite H). pose proof (Parse_host raw u Hp Hh) as Hw.
  destruct (canonical_path u Hw) as (Hslash & Hsame & _). destruct (canonical_read unicode_lower u Hs En Hw Hplain) as (rp' & Hread & Hname & Hhost & Hprint).
  rewrite Hread. set (u2 := url_of _ _ _ _ _ _ _ _) in *. fold (canonical_root u2). rewrite Hname, lower_empty, Hhost. change (Scheme u2) with (Scheme u). rewrite Es, (proj2 (String.eqb_neq _ _) En). cbn [orb].
  assert (canonical_root u2 = false) as -> by (unfold canonical_root; apply andb_false_iff; left; by apply String.eqb_neq). split; [f_equal; exact Hprint|]. exists u2. done.
Qed.
Lemma canonical_idempotent_witness : let raw := "HTTPS://user@[FE80::A]:8443/A%2fb/?x=1#f" in let lower (r : Z) := r in exists c u,
  (CanonicalResourceURI lower raw = Ok c /\ Parse raw = Ok u) /\ CanonicalResourceURI lower c = Ok c /\
  exists u', Parse c = Ok u' /\ Scheme u' = Scheme u /\ Hostname u' = ascii_lower (Hostname u) /\ User u' = None /\ (Path u' = Path u \/ Path u = "/" /\ Path u' = "") /\ RawQuery u' = RawQuery u /\ Fragment u' = "".
Proof.
  cbv zeta. destruct (Parse "HTTPS://user@[FE80::A]:8443/A%2fb/?x=1#f") as [u|] eqn:E; [|vm_compute in E; discriminate E].
  exists "https://[fe80::a]:8443/A%2fb/?x=1", u. split; [split; [vm_compute; reflexivity|reflexivity]|].
  apply (canonical_idempotent (fun r => r) "HTTPS://user@[FE80::A]:8443/A%2fb/?x=1#f"); [vm_compute; reflexivity|exact E|vm_compute in E; injection E as <-; vm_compute; reflexivity].
Defined.
