(* ===== verification/Threads.v ===== *)
(** * Goroutines as lists

    A program of several goroutines is a list of the points they have reached; a step
    replaces one of them.  What the components share: counting the goroutines at a point
    and moving one of them. *)
From S2P Require Import Prelude.

Definition b2z (b : bool) : Z := if b then 1 else 0.

Lemma b2z_inj a b : b2z a = b2z b -> a = b.
Proof. by destruct a, b. Qed.

Section Count.
Context {A : Type}.
Implicit Types (p q : A -> bool) (ts : list A).

(** How many goroutines are at a point described by [p]. *)
Definition count p ts : Z := foldr (fun t n => b2z (p t) + n) 0 ts.

Lemma count_cons p t ts : count p (t :: ts) = b2z (p t) + count p ts.
Proof. done. Qed.

#[local] Arguments count : simpl never.

Lemma count_app p a b : count p (a ++ b) = count p a + count p b.
Proof. induction a as [|t a IH]; [done|]. cbn [app]. rewrite !count_cons. lia. Qed.

Lemma count_middle p a t b : count p (a ++ t :: b) = count p (a ++ b) + b2z (p t).
Proof. rewrite !count_app, count_cons. lia. Qed.

Lemma count_nonneg p ts : 0 <= count p ts.
Proof. induction ts as [|t ts IH]; [done|]. rewrite count_cons. destruct (p t); simpl; lia. Qed.

Lemma count_le p q ts : (forall t, p t = true -> q t = true) -> count p ts <= count q ts.
Proof.
  intros H. induction ts as [|t ts IH]; [done|]. rewrite !count_cons. specialize (H t).
  destruct (p t), (q t); simpl; try lia; by discriminate H.
Qed.

Lemma count_elem p ts t : t ∈ ts -> p t = true -> 0 < count p ts.
Proof.
  intros Hin Hp. apply list_elem_of_split in Hin as (a & b & ->). rewrite count_middle, Hp.
  pose proof (count_nonneg p (a ++ b)). simpl. lia.
Qed.

Lemma count_zero p ts : (forall t, t ∈ ts -> p t = false) -> count p ts = 0.
Proof.
  intros H. induction ts as [|t ts IH]; [done|]. rewrite count_cons, (H t) by by left. simpl.
  rewrite IH; [done|]. intros t' Ht'. apply H. by right.
Qed.

Lemma count_zero_inv p ts t : count p ts = 0 -> t ∈ ts -> p t = false.
Proof. intros H Hin. destruct (p t) eqn:E; [|done]. pose proof (count_elem p ts t Hin E). lia. Qed.
End Count.
#[global] Arguments count : simpl never.

(** Membership after one goroutine has moved. *)
Lemma elem_of_moved {A} (a : list A) t t' b u : u ∈ a ++ t' :: b -> u = t' \/ u ∈ a ++ t :: b.
Proof. rewrite !elem_of_app, !elem_of_cons. tauto. Qed.
Lemma elem_of_middle {A} (a : list A) t b : t ∈ a ++ t :: b.
Proof. rewrite elem_of_app, elem_of_cons. tauto. Qed.
#[export] Hint Resolve elem_of_middle : core.

(** An invariant of the steps holds of every reachable state. *)
Lemma rtc_preserves {A} (R : A -> A -> Prop) (P : A -> Prop) x y :
  (forall a b, R a b -> P a -> P b) -> P x -> rtc R x y -> P y.
Proof. intros Hstep Hx Hr. induction Hr; eauto. Qed.
