(* ===== verification/TokenProvider.v ===== *)
(** * The OAuth token provider (src/internal/auth/provider)

    One provider per server holds the login in use, refreshes its token before and after it
    expires, and follows logins saved by others.  An operation runs under the provider's mutex,
    the network call included, so it is one function of the provider; [env] gives it what it
    reads from outside: the login file, the clock, the authorization server's answer, the
    outcome of the write.  Each operation lists what it did as [event]s. *)
From S2P Require Import Prelude GoStr Regex Config Threads Url OAuth.

(** ** Errors (classify.go) *)

(** What [errors.Is] and [errors.As] find in the error of a refresh: the mismatch sentinel, and the code and status of an [oauth2.RetrieveError]. *)
Record refresh_error : Type := { is_mismatch : bool; retrieve : option (string * option Z) }.
Definition isOAuthReauthCode (code : string) : bool := String.eqb code "invalid_grant" || String.eqb code "invalid_client" || String.eqb code "unauthorized_client".
Definition isOAuthTransientCode (code : string) : bool := String.eqb code "temporarily_unavailable" || String.eqb code "server_error".
Definition refreshNeedsReauth (e : refresh_error) : bool :=
  if is_mismatch e then true
  else match retrieve e with
       | None => false
       | Some (code, status) =>
           if isOAuthTransientCode code then false
           else if isOAuthReauthCode code then true
           else match status with None => false | Some s => (s =? 400) || (s =? 401) end
       end.

Inductive provider_error : Type :=
| Retired | NotLoggedIn | Unloadable (cause : auth_error) | NoRefreshToken | ReauthRequired (cause : refresh_error) | TransientFailure (cause : refresh_error) | NotPersisted (cause : auth_error).

(** ** The provider (provider.go, refresh.go) *)
Record tokenProvider : Type := {
  server : ServerConfig; login : option Login; persistedLogin : option Login; proactiveRetryAt : option Z (* [None]: the zero time *);
  deadRefreshToken : string; deadRefreshErr : option provider_error; retired : bool }.
Record env : Type := { first_load : res auth_error Login; sync_load : res auth_error Login; now : nat -> Z; reply : res refresh_error OAuthToken; written : res auth_error unit }.
Inductive event : Type := Adopted (l : Login) | Attempted (refreshToken : string) | Died (refreshToken : string) | Stored (l : Login) | Authorized (bearer : string) | ChallengeRecorded (c : Challenge).

Definition second : Z := 1000000000.
Definition refreshBeforeExpiry : Z := 300 * second.
Definition proactiveRefreshBackoff : Z := 30 * second.
Definition maxBoundedLifetime : Z := refreshBeforeExpiry / second * 10.

Definition no_token : OAuthToken := {| AccessToken := ""; TokenType := ""; RefreshToken := ""; Expiry := None; ExpiresIn := 0 |}.
(** The token of the login in use; there is one whenever the code reads it. *)
Definition current (p : tokenProvider) : OAuthToken := default no_token (login p ≫= l_Token).
Definition bearerValue (t : OAuthToken) : string := "Bearer " +:+ AccessToken t.

Definition refresh_skew (t : OAuthToken) : Z := if (0 <? ExpiresIn t) && (ExpiresIn t <=? maxBoundedLifetime) then ExpiresIn t * second / 10 else refreshBeforeExpiry.
Definition shouldRefresh (t : OAuthToken) (at_ : Z) : bool :=
  match Expiry t with
  | None => false
  | Some e => negb (String.eqb (RefreshToken t) "") && negb (at_ <? e - refresh_skew t)
  end.
Definition tokenExpired (t : OAuthToken) (at_ : Z) : bool := match Expiry t with None => false | Some e => negb (at_ <? e) end.
Definition inProactiveBackoff (p : tokenProvider) (t1 t2 : Z) : bool :=
  negb (tokenExpired (current p) t1) && match proactiveRetryAt p with None => false | Some r => t2 <? r end.

Definition sameToken (a b : OAuthToken) : bool :=
  String.eqb (AccessToken a) (AccessToken b) && String.eqb (TokenType a) (TokenType b) && String.eqb (RefreshToken a) (RefreshToken b) && bool_decide (Expiry a = Expiry b) && (ExpiresIn a =? ExpiresIn b).
Definition same_client (a b : LoginClient) : bool :=
  String.eqb (lc_ID a) (lc_ID b) && Bool.eqb (Configured a) (Configured b) && String.eqb (lc_Secret a) (lc_Secret b) && String.eqb (lc_AuthMethod a) (lc_AuthMethod b).
Definition sameLogin (a b : option Login) : bool :=
  match a, b with
  | Some a, Some b =>
      String.eqb (l_Issuer a) (l_Issuer b) && String.eqb (Resource a) (Resource b) && String.eqb (l_ServerURL a) (l_ServerURL b) && String.eqb (l_TokenURL a) (l_TokenURL b) &&
      same_client (Client a) (Client b) && bool_decide (l_Scopes a = l_Scopes b) && match l_Token a, l_Token b with Some s, Some t => sameToken s t | None, None => true | _, _ => false end
  | None, None => true
  | _, _ => false
  end.

Definition with_state (p : tokenProvider) (s : ServerConfig) (l persisted : option Login) (retry : option Z) (dead : string) (err : option provider_error) : tokenProvider :=
  {| server := s; login := l; persistedLogin := persisted; proactiveRetryAt := retry; deadRefreshToken := dead; deadRefreshErr := err; retired := retired p |}.
Definition adoptLogin (p : tokenProvider) (l : Login) : tokenProvider := with_state p (server p) (Some l) (Some l) None "" None.
Definition with_retry (p : tokenProvider) (t : Z) : tokenProvider := with_state p (server p) (login p) (persistedLogin p) (Some t) (deadRefreshToken p) (deadRefreshErr p).

Section provider.
Variable unicode_lower : Z -> Z.

Definition loadSavedLogin (p : tokenProvider) (file : res auth_error Login) : res provider_error Login :=
  match LoadLoginFor unicode_lower file (server p) with
  | Err e => if IsNotFound e then Err NotLoggedIn else Err (Unloadable e)
  | Ok l => Ok l
  end.
Definition ensureLogin (p : tokenProvider) (file : res auth_error Login) : tokenProvider * list event * res provider_error unit :=
  if retired p then (p, [], Err Retired)
  else match login p with
       | Some _ => (p, [], Ok tt)
       | None => match loadSavedLogin p file with Err e => (p, [], Err e) | Ok l => (adoptLogin p l, [Adopted l], Ok tt) end
       end.
Definition syncWithSavedLogin (p : tokenProvider) (file : res auth_error Login) : tokenProvider * list event * res provider_error unit :=
  match loadSavedLogin p file with
  | Err e => (p, [], Err e)
  | Ok saved => if sameLogin (Some saved) (persistedLogin p) then (p, [], Ok tt) else (adoptLogin p saved, [Adopted saved], Ok tt)
  end.
Definition refreshFailure (p : tokenProvider) (e : refresh_error) : tokenProvider * list event * res provider_error unit :=
  if refreshNeedsReauth e then
    let r := RefreshToken (current p) in
    (with_state p (server p) (login p) (persistedLogin p) (proactiveRetryAt p) r (Some (ReauthRequired e)), [Died r], Err (ReauthRequired e))
  else (p, [], Err (TransientFailure e)).
(** [auth.Refresh]: a login for other settings is refused before anything is sent. *)
Definition Refresh (s : ServerConfig) (l : Login) (answer : res refresh_error OAuthToken) : list event * res refresh_error OAuthToken :=
  match MatchesConfig unicode_lower l s with
  | Err _ => ([], Err {| is_mismatch := true; retrieve := None |})
  | Ok _ => ([Attempted (RefreshToken (default no_token (l_Token l)))], answer)
  end.
(** The refreshed token is in use; when the login could be written, it is what others will read. *)
Definition acceptToken (p : tokenProvider) (l : Login) (t : OAuthToken) (outcome : res auth_error unit) : tokenProvider * list event :=
  let l := with_token l t in
  let p := with_state p (server p) (Some l) (persistedLogin p) None "" None in
  match SaveLogin outcome (sc_Name (server p)) l with
  | Err _ => (p, [])
  | Ok l => (with_state p (server p) (Some l) (Some l) None "" None, [Stored l])
  end.
Definition sendRefresh (e : env) (p : tokenProvider) (l : Login) : tokenProvider * list event * res provider_error unit :=
  let '(sent, answer) := Refresh (server p) l (reply e) in
  match answer with
  | Err err => let '(p, ev, r) := refreshFailure p err in (p, sent ++ ev, r)
  | Ok t => let '(p, ev) := acceptToken p l t (written e) in (p, sent ++ ev, Ok tt)
  end.
Definition refreshLocked (e : env) (p : tokenProvider) (stillNeeded : tokenProvider -> bool) : tokenProvider * list event * res provider_error unit :=
  let '(p, ev, r) := syncWithSavedLogin p (sync_load e) in
  match r with
  | Err err => (p, ev, Err err)
  | Ok _ =>
      if negb (stillNeeded p) then (p, ev, Ok tt)
      else if String.eqb (RefreshToken (current p)) "" then (p, ev, Err NoRefreshToken)
      else if String.eqb (RefreshToken (current p)) (deadRefreshToken p) then (p, ev, match deadRefreshErr p with Some err => Err err | None => Ok tt end)
      else match login p with
           | None => (p, ev, Ok tt) (* there is a login *)
           | Some l => let '(p, ev', r) := sendRefresh e p l in (p, ev ++ ev', r)
           end
  end.
Definition proactiveRefresh (e : env) (p : tokenProvider) : tokenProvider * list event * res provider_error unit :=
  let '(p, ev, r) := refreshLocked e p (fun p => shouldRefresh (current p) (now e 1) && negb (inProactiveBackoff p (now e 2) (now e 3))) in
  match r with
  | Ok _ => (p, ev, Ok tt)
  | Err err => if tokenExpired (current p) (now e 4) then (p, ev, Err err) else (with_retry p (now e 5 + proactiveRefreshBackoff), ev, Ok tt)
  end.

Definition answer_with (p : tokenProvider) (ev : list event) : tokenProvider * list event * res provider_error string :=
  (p, ev ++ [Authorized (bearerValue (current p))], Ok (bearerValue (current p))).
Definition Authorization (e : env) (p : tokenProvider) : tokenProvider * list event * res provider_error string :=
  let '(p, ev, r) := ensureLogin p (first_load e) in
  match r with
  | Err err => (p, ev, Err err)
  | Ok _ =>
      if shouldRefresh (current p) (now e 0) then
        let '(p, ev', r) := proactiveRefresh e p in
        match r with Err err => (p, ev ++ ev', Err err) | Ok _ => answer_with p (ev ++ ev') end
      else answer_with p ev
  end.
Definition RefreshAuthorization (e : env) (stale : string) (p : tokenProvider) : tokenProvider * list event * res provider_error string :=
  let '(p, ev, r) := ensureLogin p (first_load e) in
  match r with
  | Err err => (p, ev, Err err)
  | Ok _ =>
      if negb (String.eqb (bearerValue (current p)) stale) then answer_with p ev
      else
        let '(p, ev', r) := refreshLocked e p (fun p => String.eqb (bearerValue (current p)) stale) in
        match r with Err err => (p, ev ++ ev', Err err) | Ok _ => answer_with p (ev ++ ev') end
  end.
Definition ObserveAuthorizationChallenge (p : tokenProvider) (status : Z) (header : string) : list event :=
  if retired p then [] else match RecordAuthorizationChallenge (server p) status header with Some c => [ChallengeRecorded c] | None => [] end.
Definition retire (p : tokenProvider) : tokenProvider :=
  {| server := server p; login := None; persistedLogin := persistedLogin p; proactiveRetryAt := proactiveRetryAt p; deadRefreshToken := deadRefreshToken p; deadRefreshErr := deadRefreshErr p; retired := true |}.
Definition commitBrowserLogin (outcome : res auth_error unit) (s : ServerConfig) (l : Login) (p : tokenProvider) : tokenProvider * list event * res provider_error unit :=
  if retired p then (p, [], Err Retired)
  else match SaveLogin outcome (sc_Name (server p)) l with
       | Err e => (p, [], Err (NotPersisted e))
       | Ok l => (adoptLogin (with_state p s (login p) (persistedLogin p) (proactiveRetryAt p) (deadRefreshToken p) (deadRefreshErr p)) l, [Stored l; Adopted l], Ok tt)
       end.
End provider.

(** ** The registry (registry.go, new.go) *)
Record Params : Type := { p_AgentAdded : bool; p_AuthConfig : option AuthConfig; ConfigDir : string; ServerName : string; ServerURL : string }.
Record providerIdentity : Type := { id_agentAdded : bool; serverName : string; configDir : string; serverURL : string }.
Definition identityFrom (p : Params) : providerIdentity :=
  {| id_agentAdded := p_AgentAdded p; serverName := ServerName p; configDir := ConfigDir p; serverURL := ServerURL p |}.
Definition identity_matches (a : providerIdentity) (p : Params) : bool :=
  String.eqb (serverName a) (ServerName p) && String.eqb (configDir a) (ConfigDir p) && String.eqb (serverURL a) (ServerURL p) && Bool.eqb (id_agentAdded a) (p_AgentAdded p).
Definition configuredServer (p : Params) : ServerConfig :=
  {| sc_Name := ServerName p; sc_URL := ServerURL p; sc_Auth := p_AuthConfig p; AgentAdded := p_AgentAdded p; UnsetEnv := None |}.
Definition buildTokenProvider (p : Params) : option tokenProvider :=
  match p_AuthConfig p with
  | None => None
  | Some _ => Some {| server := configuredServer p; login := None; persistedLogin := None; proactiveRetryAt := None; deadRefreshToken := ""; deadRefreshErr := None; retired := false |}
  end.

Inductive activity : Type := Retiring (id : nat) | Committing (id : nat) (s : ServerConfig) (l : Login).
Inductive entry : Type := Did (id : nat) (e : event) | Gone (id : nat) | SavedDirectly (name : string) (l : Login).
(** [heap] holds every provider made; [pending] the calls between the registry's mutex and a provider's. *)
Record Registry : Type := { m : gmap string (nat * providerIdentity); heap : list tokenProvider; pending : list activity; log : list entry }.
Definition NewRegistry : Registry := {| m := ∅; heap := []; pending := []; log := [] |}.
Inductive registry_error : Type := ConfigurationChanged | AuthConfigRequired | OtherSettings (e : auth_error) | IdentityChanged | NotSaved (e : auth_error).

Definition with_pending (r : Registry) (a : list activity) : Registry := {| m := m r; heap := heap r; pending := a; log := log r |}.
Definition on_provider (id : nat) (f : tokenProvider -> tokenProvider * list event) (r : Registry) : Registry :=
  match heap r !! id with
  | None => r
  | Some p => let '(p, ev) := f p in {| m := m r; heap := <[id := p]> (heap r); pending := pending r; log := log r ++ map (Did id) ev |}
  end.

Definition GetOrCreate (params : Params) (r : Registry) : Registry * res registry_error nat :=
  match m r !! ServerName params with
  | Some (id, identity) => if identity_matches identity params then (r, Ok id) else (r, Err ConfigurationChanged)
  | None =>
      match buildTokenProvider params with
      | None => (r, Err AuthConfigRequired)
      | Some p =>
          let id := length (heap r) in
          ({| m := <[ServerName params := (id, identityFrom params)]> (m r); heap := heap r ++ [p]; pending := pending r; log := log r |}, Ok id)
      end
  end.
(** [Forget], under the registry's mutex and then under the provider's. *)
Definition Forget (name : string) (r : Registry) : Registry :=
  match m r !! name with
  | None => r
  | Some (id, _) => {| m := delete name (m r); heap := heap r; pending := Retiring id :: pending r; log := log r |}
  end.
Definition forget_end (id : nat) (r : Registry) : Registry :=
  let r := on_provider id (fun p => (retire p, [])) r in
  {| m := m r; heap := heap r; pending := pending r; log := log r ++ [Gone id] |}.

Section registry.
Variable unicode_lower : Z -> Z.
Definition CommitAuthorizedToken (params : Params) (l : Login) (outcome : res auth_error unit) (r : Registry) : Registry * res registry_error unit :=
  match MatchesConfig unicode_lower l (configuredServer params) with
  | Err e => (r, Err (OtherSettings e))
  | Ok _ =>
      match m r !! ServerName params with
      | Some (id, identity) =>
          if identity_matches identity params then (with_pending r (Committing id (configuredServer params) l :: pending r), Ok tt)
          else (r, Err IdentityChanged)
      | None =>
          match SaveLogin outcome (ServerName params) l with
          | Err e => (r, Err (NotSaved e))
          | Ok l => ({| m := m r; heap := heap r; pending := pending r; log := log r ++ [SavedDirectly (ServerName params) l] |}, Ok tt)
          end
      end
  end.

Inductive registry_step : Registry -> Registry -> Prop :=
| step_get params r : registry_step r (fst (GetOrCreate params r))
| step_forget name r : registry_step r (Forget name r)
| step_retire r a id b : pending r = a ++ Retiring id :: b -> registry_step r (forget_end id (with_pending r (a ++ b)))
| step_commit params l outcome r : registry_step r (fst (CommitAuthorizedToken params l outcome r))
| step_install r a id s l b outcome : pending r = a ++ Committing id s l :: b ->
    registry_step r (on_provider id (fun p => fst (commitBrowserLogin outcome s l p)) (with_pending r (a ++ b)))
| step_authorize id e r : registry_step r (on_provider id (fun p => fst (Authorization unicode_lower e p)) r)
| step_refresh id e stale r : registry_step r (on_provider id (fun p => fst (RefreshAuthorization unicode_lower e stale p)) r)
| step_observe id status header r : registry_step r (on_provider id (fun p => (p, ObserveAuthorizationChallenge p status header)) r).

(** ** What an operation keeps *)
Definition good_login (s : ServerConfig) (l : Login) : Prop := validate_login l = Ok tt /\ MatchesConfig unicode_lower l s = Ok tt.
Definition sound (p : tokenProvider) : Prop := (forall l, login p = Some l -> good_login (server p) l) /\ (deadRefreshToken p <> "" -> is_Some (deadRefreshErr p)).

(** The server has refused the refresh token of the login in use. *)
Fixpoint dead_after (dead : bool) (ev : list event) : bool :=
  match ev with
  | [] => dead
  | Died _ :: ev => dead_after true ev
  | Adopted _ :: ev => dead_after false ev
  | _ :: ev => dead_after dead ev
  end.
(** Nothing is sent while it is dead. *)
Fixpoint quiet (dead : bool) (ev : list event) : Prop :=
  match ev with
  | [] => True
  | Attempted _ :: ev => dead = false /\ quiet dead ev
  | Died _ :: ev => quiet true ev
  | Adopted _ :: ev => quiet false ev
  | _ :: ev => quiet dead ev
  end.
Definition tracks (dead : bool) (p : tokenProvider) : Prop :=
  dead = true -> RefreshToken (current p) <> "" /\ deadRefreshToken p = RefreshToken (current p) /\ exists e, deadRefreshErr p = Some e.

(** What a piece of an operation keeps. *)
Record does (p : tokenProvider) (ev : list event) (p' : tokenProvider) : Prop := {
  does_retired : retired p' = retired p;
  does_name : sc_Name (server p') = sc_Name (server p);
  does_sound : sound p -> sound p';
  does_quiet dead : tracks dead p -> quiet dead ev /\ tracks (dead_after dead ev) p' }.

Lemma dead_after_app dead a b : dead_after dead (a ++ b) = dead_after (dead_after dead a) b.
Proof. revert dead. induction a as [|[] a IH]; intros dead; cbn; auto. Qed.
Lemma quiet_app dead a b : quiet dead (a ++ b) <-> quiet dead a /\ quiet (dead_after dead a) b.
Proof. revert dead. induction a as [|[] a IH]; intros dead; cbn [app quiet dead_after]; rewrite ?IH; tauto. Qed.
Lemma does_nothing p : does p [] p.
Proof. by split. Qed.
Lemma does_app p a q b r : does p a q -> does q b r -> does p (a ++ b) r.
Proof.
  intros [A1 A2 A3 A4] [B1 B2 B3 B4]. split; [congruence|congruence|auto|]. intros dead H. apply A4 in H as [Q1 T1]. apply B4 in T1 as [Q2 T2].
  by rewrite quiet_app, dead_after_app.
Qed.

Lemma good_login_token s l t : good_login s l -> good_login s (with_token l t).
Proof.
  intros [Hv Hm]. split; [|exact Hm]. revert Hv. unfold validate_login. cbn. destruct (validLoginIssuer _); [|done]. cbn. destruct (l_Token l); rewrite ?orb_true_r, ?orb_false_r; done.
Qed.
Lemma saved_good outcome n s l l' : SaveLogin outcome n l = Ok l' -> MatchesConfig unicode_lower l s = Ok tt -> good_login s l'.
Proof.
  unfold SaveLogin. intros H Hm. destruct (re_match ValidServerName n); [|done]. cbn [negb] in H. inv_ok H. destruct v. inv_ok H. injection H as <-. split; [exact E|exact Hm].
Qed.
Lemma loaded_good p file l : loadSavedLogin unicode_lower p file = Ok l -> good_login (server p) l.
Proof.
  unfold loadSavedLogin, LoadLoginFor. destruct (LoadLogin file _) as [l'|e] eqn:E; cbn [rbind]; [|by destruct (IsNotFound e)].
  destruct (MatchesConfig _ _ _) as [[]|e] eqn:Em; [|by destruct (IsNotFound _)]. intros [= ->]. split; [|done].
  unfold LoadLogin in E. destruct (re_match ValidServerName _); [|done]. cbn [negb] in E. inv_ok E. inv_ok E. destruct v0. by injection E as <-.
Qed.

Lemma adopt_does p l : good_login (server p) l -> does p [Adopted l] (adoptLogin p l).
Proof. intros Hl. split; [done|done|intros _; split; [intros l' [= <-]; exact Hl|done]|]. intros dead _. split; [done|]. intros H. discriminate H. Qed.
Lemma ensure_does p file p' ev r : ensureLogin unicode_lower p file = (p', ev, r) -> retired p = false -> does p ev p'.
Proof.
  unfold ensureLogin. intros H Hr. rewrite Hr in H. destruct (login p); [injection H as <- <- <-; apply does_nothing|].
  destruct (loadSavedLogin _ p file) eqn:E; injection H as <- <- <-; [|apply does_nothing]. by eapply adopt_does, loaded_good.
Qed.
Lemma sync_does p file p' ev r : syncWithSavedLogin unicode_lower p file = (p', ev, r) -> does p ev p'.
Proof.
  unfold syncWithSavedLogin. destruct (loadSavedLogin _ p file) eqn:E; [|intros [= <- <- <-]; apply does_nothing].
  destruct (sameLogin _ _); intros [= <- <- <-]; [apply does_nothing|]. by eapply adopt_does, loaded_good.
Qed.
(** A refresh that is sent: the token is alive, and what comes back replaces it or kills it. *)
Lemma send_does e p l p' ev r : sendRefresh unicode_lower e p l = (p', ev, r) -> login p = Some l -> RefreshToken (current p) <> "" -> RefreshToken (current p) <> deadRefreshToken p -> does p ev p'.
Proof.
  intros H Hl Hne Hdead. assert (forall dead, tracks dead p -> dead = false) as Halive.
  { intros [] Ht; [|done]. destruct (Ht eq_refl) as (_ & E & _). congruence. }
  unfold sendRefresh, Refresh in H.
  assert (forall sent err, quiet false sent -> dead_after false sent = false -> (let '(p, ev, r) := refreshFailure p err in (p, sent ++ ev, r)) = (p', ev, r) -> does p ev p') as Hfail.
  { intros sent err Hs Hd. unfold refreshFailure. destruct (refreshNeedsReauth err); intros [= <- <- <-].
    - split; [done|done| |].
      + intros [Hg _]. split; [exact Hg|]. intros _. by eexists.
      + intros dead Ht. rewrite quiet_app, dead_after_app, (Halive _ Ht), Hd. split; [done|]. intros _. cbn. split_and!; [exact Hne|done|by eexists].
    - split; [done..|]. intros dead Ht. by rewrite app_nil_r, (Halive _ Ht), Hd. }
  destruct (MatchesConfig _ l (server p)) as [u|me] eqn:Em; [|exact (Hfail [] {| is_mismatch := true; retrieve := None |} I eq_refl H)].
  destruct (reply e) as [t|err]; [|refine (Hfail [Attempted (RefreshToken (default no_token (l_Token l)))] err _ eq_refl H); by cbn].
  unfold acceptToken in H. cbn [server with_state] in H. destruct u.
  destruct (SaveLogin _ _ _) as [l'|e'] eqn:Es; injection H as <- <- <-; split; try done.
  - intros _. split; [|done]. intros l2 [= <-]. eapply saved_good; [exact Es|done].
  - intros dead Ht. rewrite (Halive _ Ht). cbn. split; [done|]. intros H. discriminate H.
  - intros [Hs _]. split; [|done]. intros l2 [= <-]. apply good_login_token. by apply Hs.
  - intros dead Ht. rewrite (Halive _ Ht). cbn. split; [done|]. intros H. discriminate H.
Qed.
Lemma refresh_does e p still p' ev r : refreshLocked unicode_lower e p still = (p', ev, r) -> does p ev p'.
Proof.
  unfold refreshLocked. destruct (syncWithSavedLogin _ p (sync_load e)) as [[p1 ev1] r1] eqn:E. apply sync_does in E. destruct r1; [|by intros [= <- <- <-]].
  destruct (still p1); [|by intros [= <- <- <-]]. cbn [negb]. destruct (String.eqb_spec (RefreshToken (current p1)) ""); [by intros [= <- <- <-]|].
  destruct (String.eqb_spec (RefreshToken (current p1)) (deadRefreshToken p1)); [by intros [= <- <- <-]|]. destruct (login p1) as [l|] eqn:El; [|by intros [= <- <- <-]].
  destruct (sendRefresh _ e p1 l) as [[p2 ev2] r2] eqn:Es. intros [= <- <- <-]. eapply does_app; [exact E|]. by eapply send_does.
Qed.
Lemma retry_does p t : does p [] (with_retry p t).
Proof. by split. Qed.
Lemma proactive_does e p p' ev r : proactiveRefresh unicode_lower e p = (p', ev, r) -> does p ev p'.
Proof.
  unfold proactiveRefresh. destruct (refreshLocked _ e p _) as [[p1 ev1] r1] eqn:E. apply refresh_does in E. destruct r1; [by intros [= <- <- <-]|].
  destruct (tokenExpired _ _); intros [= <- <- <-]; [done|]. rewrite <- (app_nil_r ev1). eapply does_app; [exact E|apply retry_does].
Qed.
Lemma authorized_does p b : does p [Authorized b] p.
Proof. by split. Qed.

Lemma Authorization_does e p : retired p = false -> does p (snd (fst (Authorization unicode_lower e p))) (fst (fst (Authorization unicode_lower e p))).
Proof.
  intros Hr. unfold Authorization, answer_with. destruct (ensureLogin _ p _) as [[p1 ev1] r1] eqn:E. eapply ensure_does in E; [|done]. destruct r1; [|exact E].
  destruct (shouldRefresh _ _); [|eapply does_app; [exact E|apply authorized_does]]. destruct (proactiveRefresh _ e p1) as [[p2 ev2] r2] eqn:E2. apply proactive_does in E2.
  destruct r2; cbn [fst snd]; [eapply does_app; [eapply does_app|]|eapply does_app]; try eassumption. apply authorized_does.
Qed.
Lemma RefreshAuthorization_does e stale p : retired p = false ->
  does p (snd (fst (RefreshAuthorization unicode_lower e stale p))) (fst (fst (RefreshAuthorization unicode_lower e stale p))).
Proof.
  intros Hr. unfold RefreshAuthorization, answer_with. destruct (ensureLogin _ p _) as [[p1 ev1] r1] eqn:E. eapply ensure_does in E; [|done]. destruct r1; [|exact E].
  destruct (negb _); [eapply does_app; [exact E|apply authorized_does]|]. destruct (refreshLocked _ e p1 _) as [[p2 ev2] r2] eqn:E2. apply refresh_does in E2.
  destruct r2; cbn [fst snd]; [eapply does_app; [eapply does_app|]|eapply does_app]; try eassumption. apply authorized_does.
Qed.
Lemma commit_does outcome s l p : retired p = false -> sc_Name s = sc_Name (server p) -> MatchesConfig unicode_lower l s = Ok tt ->
  does p (snd (fst (commitBrowserLogin outcome s l p))) (fst (fst (commitBrowserLogin outcome s l p))).
Proof.
  intros Hr Hn Hm. unfold commitBrowserLogin. rewrite Hr. destruct (SaveLogin _ _ _) as [l'|] eqn:Es; cbn [fst snd]; [|apply does_nothing].
  split; [done|done|intros _; split; [intros l2 [= <-]; by eapply saved_good|done]|]. intros dead _. split; [done|]. intros H. discriminate H.
Qed.
Lemma observe_does p status header : does p (ObserveAuthorizationChallenge p status header) p.
Proof. unfold ObserveAuthorizationChallenge. destruct (retired p); [apply does_nothing|]. destruct (RecordAuthorizationChallenge _ _ _); by split. Qed.
Lemma retired_silent p : retired p = true ->
  (forall e, Authorization unicode_lower e p = (p, [], Err Retired)) /\ (forall e stale, RefreshAuthorization unicode_lower e stale p = (p, [], Err Retired)) /\
  (forall outcome s l, commitBrowserLogin outcome s l p = (p, [], Err Retired)) /\ forall status header, ObserveAuthorizationChallenge p status header = [].
Proof. intros H. unfold Authorization, RefreshAuthorization, ensureLogin, commitBrowserLogin, ObserveAuthorizationChallenge. by rewrite H. Qed.

(** ** Every reachable registry *)
Definition did (id : nat) (l : list entry) : list event := omap (fun x => match x with Did i e => if decide (i = id) then Some e else None | _ => None end) l.
Lemma did_app id a b : did id (a ++ b) = did id a ++ did id b.
Proof. apply omap_app. Qed.
Lemma did_map i id ev : did i (map (Did id) ev) = if decide (id = i) then ev else [].
Proof.
  induction ev as [|e ev IH]; [by destruct (decide _)|]. cbn. destruct (decide (id = i)) as [->|]; [f_equal; exact IH|exact IH].
Qed.

Record registry_inv (r : Registry) : Prop := {
  inv_entry name id ident : m r !! name = Some (id, ident) -> exists p, heap r !! id = Some p /\ retired p = false /\ sc_Name (server p) = name /\ serverName ident = name;
  inv_live id p : heap r !! id = Some p -> retired p = false -> (exists ident, m r !! sc_Name (server p) = Some (id, ident)) \/ Retiring id ∈ pending r;
  inv_retiring id : Retiring id ∈ pending r -> is_Some (heap r !! id) /\ forall name ident, m r !! name <> Some (id, ident);
  inv_commit id s l : Committing id s l ∈ pending r -> MatchesConfig unicode_lower l s = Ok tt /\ exists p, heap r !! id = Some p /\ sc_Name s = sc_Name (server p);
  inv_sound id p : heap r !! id = Some p -> sound p;
  inv_tracks id p : heap r !! id = Some p -> retired p = false -> tracks (dead_after false (did id (log r))) p;
  inv_quiet id : quiet false (did id (log r));
  inv_fresh id : heap r !! id = None -> did id (log r) = [];
  inv_gone a id b : log r = a ++ Gone id :: b -> did id b = [] /\ exists p, heap r !! id = Some p /\ retired p = true }.

Lemma registry_inv_initial : registry_inv NewRegistry.
Proof.
  split; cbn; try done.
  - intros id Hr. by apply elem_of_nil in Hr.
  - intros id s l Hr. by apply elem_of_nil in Hr.
  - intros a id b H. by destruct a.
Qed.

Lemma app_before {A} (l1 l2 a b : list A) x : l1 ++ l2 = a ++ x :: b -> x ∉ l2 -> exists b', l1 = a ++ x :: b' /\ b = b' ++ l2.
Proof.
  revert a. induction l1 as [|y l1 IH]; intros a H Hx; cbn in H.
  - subst. destruct Hx. apply elem_of_app. right. by left.
  - destruct a as [|z a]; injection H as -> H; [by exists l1|]. apply IH in H as (b' & -> & ->); [|done]. by exists b'.
Qed.

Lemma drop_pending r a c b : registry_inv r -> pending r = a ++ c :: b -> (forall id, c <> Retiring id) -> registry_inv (with_pending r (a ++ b)).
Proof.
  intros [] Hp Hc. assert (forall x, x ∈ a ++ b -> x ∈ pending r) as Hin by (intros x; rewrite Hp, !elem_of_app, elem_of_cons; tauto).
  split; cbn; eauto. intros id p Hl Hr. destruct (inv_live0 id p Hl Hr) as [?|H]; [by left|]. right. rewrite Hp, elem_of_app, elem_of_cons in H. rewrite elem_of_app.
  destruct H as [?|[E|?]]; [by left| |by right]. by destruct (Hc id).
Qed.

Lemma gone_not_did id ev i : Gone i ∉ map (Did id) ev.
Proof. intros (e & H & _)%list_elem_of_fmap. done. Qed.
Lemma provider_step r id f : registry_inv r ->
  (forall p, heap r !! id = Some p -> retired p = false -> does p (snd (f p)) (fst (f p))) -> (forall p, retired p = true -> f p = (p, [])) ->
  registry_inv (on_provider id f r).
Proof.
  intros Hr Hlive Hret. unfold on_provider. destruct (heap r !! id) as [p|] eqn:E; [|done]. destruct (f p) as [p' ev] eqn:Ef.
  pose proof (lookup_lt_Some _ _ _ E) as Hlt. destruct Hr.
  assert (retired p' = retired p /\ sc_Name (server p') = sc_Name (server p) /\ sound p' /\ (retired p = true -> ev = []) /\
    quiet false (did id (log r) ++ ev) /\ (retired p = false -> tracks (dead_after false (did id (log r) ++ ev)) p')) as (H1 & H2 & H3 & H4 & H5 & H6).
  { destruct (retired p) eqn:Ep.
    - pose proof (Hret p Ep) as Hf. rewrite Ef in Hf. injection Hf as -> ->. rewrite app_nil_r. split_and!; eauto; done.
    - destruct (Hlive p eq_refl Ep) as [D1 D2 D3 D4]. rewrite Ef in *. cbn [fst snd] in *. rewrite quiet_app, dead_after_app. destruct (D4 _ (inv_tracks0 _ _ E Ep)) as [Q T].
      split_and!; eauto; congruence. }
  assert (forall i q, <[id:=p']> (heap r) !! i = Some q -> (i = id /\ q = p') \/ (i <> id /\ heap r !! i = Some q)) as Hlook.
  { intros i q Hq. destruct (decide (i = id)) as [->|]; [rewrite list_lookup_insert_eq in Hq by done; left; split; congruence|]. rewrite list_lookup_insert_ne in Hq by done. by right. }
  assert (forall i q, heap r !! i = Some q -> exists q', <[id:=p']> (heap r) !! i = Some q' /\ retired q' = retired q /\ sc_Name (server q') = sc_Name (server q)) as Hback.
  { intros i q Hq. destruct (decide (i = id)) as [->|]; [rewrite list_lookup_insert_eq by done; assert (q = p) as -> by congruence; by exists p'|].
    rewrite list_lookup_insert_ne by done. by exists q. }
  split; cbn [m heap pending log].
  - intros name i ident Hm. destruct (inv_entry0 name i ident Hm) as (q & Hq & Hq1 & Hq2 & Hq3). destruct (Hback i q Hq) as (q' & ? & ? & ?). exists q'. split_and!; congruence.
  - intros i q [[-> ->]|[Hi Hq]]%Hlook Hrq; [|by apply inv_live0]. rewrite H2. apply inv_live0; [done|congruence].
  - intros i Hi. destruct (inv_retiring0 i Hi) as [[q Hq] Hno]. split; [|done]. destruct (Hback i q Hq) as (q' & ? & _). by exists q'.
  - intros i s l Hi. destruct (inv_commit0 i s l Hi) as [Hm (q & Hq & Hn)]. split; [done|]. destruct (Hback i q Hq) as (q' & ? & _ & ?). exists q'. split; congruence.
  - intros i q [[-> ->]|[Hi Hq]]%Hlook; [done|by eapply inv_sound0].
  - intros i q Hq Hrq. rewrite did_app, did_map. apply Hlook in Hq as [[-> ->]|[Hi Hq]]; [rewrite decide_True by done; apply H6; congruence|].
    rewrite decide_False by congruence. rewrite app_nil_r. by apply inv_tracks0.
  - intros i. rewrite did_app, did_map. destruct (decide (id = i)) as [<-|]; [done|]. by rewrite app_nil_r.
  - intros i Hi. rewrite did_app, did_map. destruct (decide (id = i)) as [<-|]; [rewrite list_lookup_insert_eq in Hi by done; done|]. rewrite list_lookup_insert_ne in Hi by done. rewrite app_nil_r. by apply inv_fresh0.
  - intros a i b Hlog. apply app_before in Hlog as (b' & Hb & ->); [|apply gone_not_did]. destruct (inv_gone0 _ _ _ Hb) as [Hd (q & Hq & Hrq)].
    rewrite did_app, did_map, Hd. destruct (Hback i q Hq) as (q' & Hq' & Hrq' & _). split; [|exists q'; split; congruence].
    destruct (decide (id = i)) as [<-|]; [|done]. apply H4. congruence.
Qed.

Lemma get_inv params r : registry_inv r -> registry_inv (fst (GetOrCreate params r)).
Proof.
  intros Hr. unfold GetOrCreate. destruct (m r !! ServerName params) as [[id ident]|] eqn:Em; [by destruct (identity_matches _ _)|].
  destruct (buildTokenProvider params) as [p|] eqn:Eb; [|done]. unfold buildTokenProvider in Eb. destruct (p_AuthConfig params) as [ac|]; [|done]. injection Eb as <-. destruct Hr.
  set (p := {| server := configuredServer params |}).
  assert (forall i q, (heap r ++ [p]) !! i = Some q -> heap r !! i = Some q \/ i = length (heap r) /\ q = p) as Hlook.
  { intros i q [?|[Hi Hq]]%lookup_app_Some; [by left|]. right. destruct (i - length (heap r))%nat as [|k] eqn:Ek; [|by destruct k]. injection Hq as <-. split; [lia|done]. }
  assert (forall i q, heap r !! i = Some q -> (heap r ++ [p]) !! i = Some q) as Hold by (intros i q; apply lookup_app_l_Some).
  assert ((heap r ++ [p]) !! length (heap r) = Some p) as Hnew by (apply list_lookup_middle; done).
  split; cbn [fst m heap pending log].
  - intros name i ident [[<- [= <- <-]]|[Hn Hm]]%lookup_insert_Some; [by exists p|]. destruct (inv_entry0 _ _ _ Hm) as (q & ? & ? & ? & ?). exists q. auto.
  - intros i q [Hq|[-> ->]]%Hlook Hrq.
    + destruct (inv_live0 _ _ Hq Hrq) as [[ident Hi]|?]; [|by right]. left. exists ident. rewrite lookup_insert_ne; [done|]. intros E. rewrite <- E, Em in Hi. done.
    + left. exists (identityFrom params). apply lookup_insert_eq.
  - intros i Hi. destruct (inv_retiring0 i Hi) as [[q Hq] Hno]. split; [exists q; auto|]. intros name ident [[_ [= <- _]]|[_ Hm]]%lookup_insert_Some; [|by apply Hno in Hm].
    apply lookup_lt_Some in Hq. lia.
  - intros i s l Hi. destruct (inv_commit0 i s l Hi) as [? (q & ? & ?)]. split; [done|]. exists q. auto.
  - intros i q [Hq|[-> ->]]%Hlook; [by eapply inv_sound0|]. by split.
  - intros i q [Hq|[-> ->]]%Hlook Hrq; [by apply inv_tracks0|]. rewrite inv_fresh0 by (by apply lookup_ge_None). by intros ?.
  - done.
  - intros i Hi. apply inv_fresh0. apply lookup_ge_None in Hi. rewrite length_app in Hi. apply lookup_ge_None. lia.
  - intros a i b Hlog. destruct (inv_gone0 _ _ _ Hlog) as [? (q & ? & ?)]. split; [done|]. exists q. auto.
Qed.
Lemma forget_inv name r : registry_inv r -> registry_inv (Forget name r).
Proof.
  intros []. unfold Forget. destruct (m r !! name) as [[id ident]|] eqn:Em; [|by split]. destruct (inv_entry0 _ _ _ Em) as (p & Hp & Hrp & Hn & Hi).
  split; cbn [m heap pending log]; try done.
  - intros n i ident' [_ Hm]%lookup_delete_Some. by eapply inv_entry0.
  - intros i q Hq Hrq. destruct (inv_live0 _ _ Hq Hrq) as [[ident' Hi']|?]; [|right; by right]. destruct (decide (sc_Name (server q) = name)) as [E|]; [|left; exists ident'; by rewrite lookup_delete_ne].
    right. rewrite E, Em in Hi'. injection Hi' as -> _. by left.
  - intros i [[= ->]|Hin]%elem_of_cons.
    + split; [by exists p|]. intros n ident' [Hne Hm]%lookup_delete_Some. destruct (inv_entry0 _ _ _ Hm) as (q & ? & _ & ? & _). congruence.
    + destruct (inv_retiring0 i Hin) as [? Hno]. split; [done|]. intros n ident' [_ Hm]%lookup_delete_Some. by apply Hno in Hm.
  - intros i s l [[=]|Hin]%elem_of_cons. by apply inv_commit0.
Qed.
Lemma retire_inv r a id b : registry_inv r -> pending r = a ++ Retiring id :: b -> registry_inv (forget_end id (with_pending r (a ++ b))).
Proof.
  intros Hr Hp. destruct Hr. assert (Retiring id ∈ pending r) as Hid by (rewrite Hp; apply elem_of_app; right; by left). destruct (inv_retiring0 id Hid) as [[p E] Hno].
  pose proof (lookup_lt_Some _ _ _ E) as Hlt. unfold forget_end, on_provider. cbn [heap with_pending]. rewrite E. cbn [m heap pending log map with_pending]. rewrite app_nil_r.
  assert (forall x, x ∈ a ++ b -> x ∈ pending r) as Hin by (intros x; rewrite Hp, !elem_of_app, elem_of_cons; tauto).
  assert (forall i q, <[id:=retire p]> (heap r) !! i = Some q -> (i = id /\ q = retire p) \/ (i <> id /\ heap r !! i = Some q)) as Hlook.
  { intros i q Hq. destruct (decide (i = id)) as [->|]; [rewrite list_lookup_insert_eq in Hq by done; left; split; congruence|]. rewrite list_lookup_insert_ne in Hq by done. by right. }
  assert (forall i q, heap r !! i = Some q -> exists q', <[id:=retire p]> (heap r) !! i = Some q' /\ (i <> id -> q' = q) /\ sc_Name (server q') = sc_Name (server q)) as Hback.
  { intros i q Hq. destruct (decide (i = id)) as [->|]; [rewrite list_lookup_insert_eq by done; assert (q = p) as -> by congruence; by exists (retire p)|].
    rewrite list_lookup_insert_ne by done. by exists q. }
  assert (forall i, did i (log r ++ [Gone id]) = did i (log r)) as Hdid by (intros i; by rewrite did_app, app_nil_r).
  split; cbn [m heap pending log].
  - intros name i ident Hm. destruct (inv_entry0 name i ident Hm) as (q & Hq & Hq1 & Hq2 & Hq3). exists q. rewrite list_lookup_insert_ne; [done|]. intros <-. by apply Hno in Hm.
  - intros i q [[-> ->]|[Hi Hq]]%Hlook Hrq; [done|]. destruct (inv_live0 i q Hq Hrq) as [?|H]; [by left|]. right. rewrite Hp, elem_of_app, elem_of_cons in H. rewrite elem_of_app.
    destruct H as [?|[[= ->]|?]]; [by left|done|by right].
  - intros i Hi. destruct (inv_retiring0 i (Hin _ Hi)) as [[q Hq] Hn]. split; [|done]. destruct (Hback i q Hq) as (q' & ? & _). by exists q'.
  - intros i s l Hi. destruct (inv_commit0 i s l (Hin _ Hi)) as [Hm (q & Hq & Hn)]. split; [done|]. destruct (Hback i q Hq) as (q' & ? & _ & ?). exists q'. split; congruence.
  - intros i q [[-> ->]|[Hi Hq]]%Hlook; [|by eapply inv_sound0]. split; [done|]. by destruct (inv_sound0 _ _ E).
  - intros i q [[-> ->]|[Hi Hq]]%Hlook Hrq; [done|]. rewrite Hdid. by apply inv_tracks0.
  - intros i. by rewrite Hdid.
  - intros i Hi. rewrite Hdid. apply inv_fresh0. destruct (heap r !! i) as [q|] eqn:Eq; [|done]. destruct (Hback i q Eq) as (q' & ? & _). congruence.
  - intros a' i b' Hlog. destruct (decide (i = id)) as [->|Hne].
    + split; [|exists (retire p); by rewrite list_lookup_insert_eq]. destruct (decide (b' = [])) as [->|Hb]; [done|]. destruct (exists_last Hb) as (b'' & x & ->).
      rewrite app_comm_cons, app_assoc in Hlog. apply app_inj_tail in Hlog as [Hlog <-]. rewrite did_app, app_nil_r. by apply (inv_gone0 _ _ _ Hlog).
    + apply app_before in Hlog as (b'' & Hb & ->); [|by intros [= ->]%list_elem_of_singleton]. destruct (inv_gone0 _ _ _ Hb) as [Hd (q & Hq & Hrq)]. rewrite did_app, Hd. split; [done|].
      exists q. by rewrite list_lookup_insert_ne.
Qed.
Lemma commit_inv params l outcome r : registry_inv r -> registry_inv (fst (CommitAuthorizedToken params l outcome r)).
Proof.
  intros Hr. unfold CommitAuthorizedToken. destruct (MatchesConfig _ _ _) as [[]|] eqn:Em; [|done]. destruct (m r !! ServerName params) as [[id ident]|] eqn:E.
  - destruct (identity_matches ident params) eqn:Ei; [|done]. destruct Hr. destruct (inv_entry0 _ _ _ E) as (p & Hp & Hrp & Hn & Hs).
    split; cbn [fst with_pending m heap pending log]; try done.
    + intros i q Hq Hrq. destruct (inv_live0 i q Hq Hrq); [by left|right; by right].
    + intros i [[=]|Hi]%elem_of_cons. by apply inv_retiring0.
    + intros i s l' [[= -> -> ->]|Hi]%elem_of_cons; [split; [done|]; exists p; split; [done|by rewrite Hn]|by apply inv_commit0].
  - destruct (SaveLogin _ _ _) as [l'|]; [|done]. destruct Hr. assert (forall i, did i (log r ++ [SavedDirectly (ServerName params) l']) = did i (log r)) as Hdid by (intros i; by rewrite did_app, app_nil_r).
    split; cbn [fst m heap pending log]; try done; intros *; rewrite ?Hdid; try done.
    + by apply inv_tracks0.
    + by apply inv_fresh0.
    + intros Hlog. apply app_before in Hlog as (b' & Hb & ->); [|by intros [=]%list_elem_of_singleton]. destruct (inv_gone0 _ _ _ Hb) as [Hd ?]. by rewrite did_app, Hd.
Qed.
Lemma registry_step_inv r r' : registry_step r r' -> registry_inv r -> registry_inv r'.
Proof.
  intros Hs Hr. destruct Hs.
  - by apply get_inv.
  - by apply forget_inv.
  - by eapply retire_inv.
  - by apply commit_inv.
  - pose proof Hr as []. destruct (inv_commit0 id s l) as [Hm (p & Hp & Hn)]; [rewrite H; apply elem_of_app; right; by left|].
    apply provider_step; [by eapply drop_pending| |].
    + cbn. intros q Hq Hrq. apply commit_does; congruence.
    + intros q Hq. by destruct (retired_silent q Hq) as (_ & _ & -> & _).
  - apply provider_step; [done|intros p _ Hp; by apply Authorization_does|]. intros q Hq. by destruct (retired_silent q Hq) as (-> & _).
  - apply provider_step; [done|intros p _ Hp; by apply RefreshAuthorization_does|]. intros q Hq. by destruct (retired_silent q Hq) as (_ & -> & _).
  - apply provider_step; [done|intros p _ Hp; apply observe_does|]. intros q Hq. by destruct (retired_silent q Hq) as (_ & _ & _ & ->).
Qed.
Lemma registry_reachable_inv r : rtc registry_step NewRegistry r -> registry_inv r.
Proof. apply (rtc_ind_r registry_inv); [apply registry_inv_initial|]. intros r1 r2 _ Hs Hi. by eapply registry_step_inv. Qed.

(** ** What is served *)
Lemma refresh_skew_nonneg t : 0 <= refresh_skew t.
Proof.
  unfold refresh_skew, refreshBeforeExpiry, second. destruct (Z.ltb_spec 0 (ExpiresIn t)) as [Ht|]; cbn [andb]; [|lia]. destruct (_ <=? _); [|lia].
  apply Z.div_pos; lia.
Qed.
Lemma not_due t at_ : shouldRefresh t at_ = false -> RefreshToken t = "" \/ tokenExpired t at_ = false.
Proof.
  unfold shouldRefresh, tokenExpired. destruct (Expiry t) as [x|]; [|by right]. destruct (String.eqb_spec (RefreshToken t) ""); [by left|]. cbn [negb andb].
  intros H%negb_false_iff%Z.ltb_lt. right. apply negb_false_iff, Z.ltb_lt. pose proof (refresh_skew_nonneg t). lia.
Qed.
Lemma expired_later t a b : a <= b -> tokenExpired t b = false -> tokenExpired t a = false.
Proof. unfold tokenExpired. destruct (Expiry t); [|done]. rewrite !negb_false_iff, !Z.ltb_lt. lia. Qed.
Lemma sent_ok e p l p' ev : sendRefresh unicode_lower e p l = (p', ev, Ok tt) -> reply e = Ok (current p').
Proof.
  unfold sendRefresh, refreshFailure, Refresh. destruct (MatchesConfig _ _ _); [|by destruct (refreshNeedsReauth _)]. destruct (reply e) as [t|err]; [|by destruct (refreshNeedsReauth err)].
  destruct (acceptToken p l t (written e)) as [p1 ev1] eqn:Ea. intros [= <- _]. f_equal. unfold acceptToken in Ea. cbn [server with_state] in Ea.
  destruct (SaveLogin _ _ _) as [l'|] eqn:Es; injection Ea as <- _; [|done]. unfold SaveLogin in Es. destruct (re_match ValidServerName _); [|done]. cbn [negb] in Es.
  inv_ok Es. inv_ok Es. by injection Es as <-.
Qed.
Lemma refresh_ok e p still p' ev : sound p -> refreshLocked unicode_lower e p still = (p', ev, Ok tt) -> still p' = false \/ reply e = Ok (current p').
Proof.
  unfold refreshLocked. intros Hs. destruct (syncWithSavedLogin _ p (sync_load e)) as [[p1 ev1] r1] eqn:E. apply sync_does in E. destruct r1 as [[]|]; [|done].
  destruct (still p1) eqn:Est; [|intros [= <- _]; by left]. cbn [negb]. destruct (String.eqb_spec (RefreshToken (current p1)) "") as [|Hne]; [done|].
  destruct (String.eqb_spec (RefreshToken (current p1)) (deadRefreshToken p1)) as [Ed|].
  - destruct (does_sound _ _ _ E Hs) as [_ [err ->]]; [congruence|done].
  - destruct (login p1) as [l|] eqn:El; [|by unfold current in Hne; rewrite El in Hne]. destruct (sendRefresh _ e p1 l) as [[p2 ev2] r2] eqn:Er. intros [= <- _ ->]. right. by eapply sent_ok.
Qed.
End registry.

Definition clock_forward (e : env) : Prop := forall i j, (i <= j)%nat -> now e i <= now e j.

(** C24: an expired token is not served while it could be refreshed: when the header of a request
    is given, the token in it had not expired when it was asked for, or there is no refresh
    token, or the authorization server has just issued it. *)
Theorem expired_never_served unicode_lower e p p' ev b : sound unicode_lower p -> clock_forward e -> Authorization unicode_lower e p = (p', ev, Ok b) ->
  b = bearerValue (current p') /\ (RefreshToken (current p') = "" \/ tokenExpired (current p') (now e 0) = false \/ reply e = Ok (current p')).
Proof.
  intros Hs Hc. unfold Authorization, answer_with. destruct (ensureLogin _ p _) as [[p1 ev1] r1] eqn:E1. destruct r1 as [[]|]; [|done].
  destruct (retired p) eqn:Hr; [unfold ensureLogin in E1; by rewrite Hr in E1|]. apply (does_sound _ _ _ _ (ensure_does _ _ _ _ _ _ E1 Hr)) in Hs.
  destruct (shouldRefresh (current p1) (now e 0)) eqn:Ed; [|intros [= <- _ <-]; split; [done|]; apply not_due in Ed; tauto].
  destruct (proactiveRefresh _ e p1) as [[p2 ev2] r2] eqn:E2. destruct r2 as [[]|]; [|done]. intros [= <- _ <-]. split; [done|]. unfold proactiveRefresh in E2.
  destruct (refreshLocked _ e p1 _) as [[p3 ev3] r3] eqn:E3. destruct r3 as [[]|err].
  - injection E2 as <- _. apply refresh_ok in E3 as [Hst|?]; [|tauto|done]. apply andb_false_iff in Hst as [Hst|Hst].
    + apply not_due in Hst as [?|Hx]; [tauto|]. right. left. eapply expired_later; [|exact Hx]. apply Hc. lia.
    + apply negb_false_iff in Hst. unfold inProactiveBackoff in Hst. apply andb_true_iff in Hst as [Hx%negb_true_iff _]. right. left. eapply expired_later; [|exact Hx]. apply Hc. lia.
  - destruct (tokenExpired (current p3) (now e 4)) eqn:Ex; [done|]. injection E2 as <- _. right. left. eapply expired_later; [|exact Ex]. apply Hc. lia.
Qed.


(** C19: however its calls interleave, the registry keeps one provider per server: once [Forget]
    has returned, the old provider authorizes, sends, saves and records nothing; two providers
    of one server are never in use together; and the login a provider uses is complete and was
    made for the settings it was given. *)
Theorem providers_safe unicode_lower r : rtc (registry_step unicode_lower) NewRegistry r ->
  (forall a id b e, log r = a ++ Gone id :: b -> Did id e ∉ b) /\
  (forall i j p q, heap r !! i = Some p -> heap r !! j = Some q -> retired p = false -> retired q = false -> Retiring i ∉ pending r -> Retiring j ∉ pending r ->
    sc_Name (server p) = sc_Name (server q) -> i = j) /\
  forall i p l, heap r !! i = Some p -> login p = Some l ->
    is_Some (l_Token l) /\ validate_login l = Ok tt /\ MatchesConfig unicode_lower l (server p) = Ok tt.
Proof.
  intros Hr%registry_reachable_inv. split_and!.
  - intros a id b e Hlog Hin. destruct (inv_gone _ _ Hr _ _ _ Hlog) as [Hd _]. assert (e ∈ did id b) as He; [|rewrite Hd in He; by apply elem_of_nil in He].
    apply list_elem_of_omap. exists (Did id e). split; [done|]. by rewrite decide_True.
  - intros i j p q Hi Hj Hp Hq Ni Nj Hn. destruct (inv_live _ _ Hr i p Hi Hp) as [[ii Ei]|]; [|done]. destruct (inv_live _ _ Hr j q Hj Hq) as [[ij Ej]|]; [|done]. congruence.
  - intros i p l Hi Hl. destruct (inv_sound _ _ Hr i p Hi) as [Hg _]. destruct (Hg l Hl) as [Hv Hm]. split; [|done]. unfold validate_login in Hv. destruct (l_Token l); [by eexists|].
    destruct (validLoginIssuer _); [|done]. rewrite !orb_true_r in Hv. done.
Qed.

(** *** Witnesses: a server whose first refresh token is refused, and a login made anew *)
Definition sample_auth : AuthConfig :=
  {| a_Type := AuthTypeOAuth2; a_Token := ""; a_Header := ""; a_Issuer := ""; a_ClientID := ""; a_ClientSecret := ""; AuthURL := ""; a_TokenURL := ""; a_Scopes := [];
     TokenEndpointAuthMethod := ""; ResourceURL := ""; CallbackPort := 0; ExtraAuthParams := ∅; BrowserCmd := "" |}.
Definition sample_params : Params := {| p_AgentAdded := false; p_AuthConfig := Some sample_auth; ConfigDir := "/c"; ServerName := "s"; ServerURL := "https://H/mcp" |}.
Definition sample_token (access refresh : string) (expiry : Z) : OAuthToken := {| AccessToken := access; TokenType := "Bearer"; RefreshToken := refresh; Expiry := Some expiry; ExpiresIn := 0 |}.
Definition sample_login (t : OAuthToken) : Login :=
  {| consumedChallenge := None; Resource := "https://h/mcp"; l_ServerURL := "https://h/mcp"; l_Issuer := "https://as"; l_TokenURL := "https://as/token";
     Client := {| lc_ID := "c"; Configured := false; lc_Secret := ""; lc_AuthMethod := "" |}; l_Scopes := []; l_Token := Some t |}.
Definition sample_env (file : res auth_error Login) (t : Z) (answer : res refresh_error OAuthToken) : env :=
  {| first_load := file; sync_load := file; now := fun _ => t; reply := answer; written := Ok tt |}.
Definition same_rune (r : Z) : Z := r.
Definition sample_provider : tokenProvider :=
  adoptLogin {| server := configuredServer sample_params; login := None; persistedLogin := None; proactiveRetryAt := None; deadRefreshToken := ""; deadRefreshErr := None; retired := false |}
    (sample_login (sample_token "a" "r" (1000 * second))).
Definition refused : refresh_error := {| is_mismatch := false; retrieve := Some ("invalid_grant", Some 400) |}.
Definition sample_first : env := sample_env (Ok (sample_login (sample_token "a" "r" 0))) second (Err refused).
Definition sample_second : env := sample_env (Ok (sample_login (sample_token "b" "r2" 0))) second (Ok (sample_token "c" "r3" (5000 * second))).
Definition sample_registry : Registry := fst (GetOrCreate sample_params NewRegistry).
Definition sample_end : Registry :=
  on_provider 0 (fun p => fst (Authorization same_rune sample_second p)) (on_provider 0 (fun p => fst (Authorization same_rune sample_first p)) sample_registry).
Lemma sample_reachable : rtc (registry_step same_rune) NewRegistry sample_end.
Proof. eapply rtc_l; [apply (step_get same_rune sample_params)|]. eapply rtc_l; [apply (step_authorize same_rune 0 sample_first)|]. apply rtc_once. apply (step_authorize same_rune 0 sample_second). Qed.

Lemma expired_never_served_witness :
  let e := sample_env (Ok (sample_login (sample_token "a" "r" (1000 * second)))) (800 * second) (Err {| is_mismatch := false; retrieve := None |}) in
  snd (Authorization same_rune e sample_provider) = Ok "Bearer a" /\ "Bearer a" = bearerValue (current (fst (fst (Authorization same_rune e sample_provider)))).
Proof.
  intros e. assert (snd (Authorization same_rune e sample_provider) = Ok "Bearer a") as H by (vm_compute; reflexivity). split; [exact H|].
  apply (expired_never_served same_rune e sample_provider (fst (fst (Authorization same_rune e sample_provider))) (snd (fst (Authorization same_rune e sample_provider))) "Bearer a").
  - split; [intros l [= <-]; split; vm_compute; reflexivity|intros Hd; destruct (Hd eq_refl)].
  - intros i j _. apply Z.le_refl.
  - rewrite <- H. by destruct (Authorization same_rune e sample_provider) as [[? ?] ?].
Defined.
Lemma providers_safe_witness :
  exists p l, heap sample_end !! 0%nat = Some p /\ login p = Some l /\ MatchesConfig same_rune l (server p) = Ok tt.
Proof.
  destruct (providers_safe same_rune sample_end sample_reachable) as (_ & _ & H). exists (default sample_provider (heap sample_end !! 0%nat)).
  exists (with_token (sample_login (sample_token "b" "r2" 0)) (sample_token "c" "r3" (5000 * second))). split_and!; [vm_compute; reflexivity|vm_compute; reflexivity|].
  apply (H 0%nat); vm_compute; reflexivity.
Defined.
