(* ===== verification/Discovery.v ===== *)
(** * OAuth discovery and login resolution (src/internal/auth: discover.go, discover_prm.go,
      http_policy.go, register.go, resolve.go, browser_login.go)

    mini asks the MCP server, and the authorization server it names, where to log in.  The
    answers of the network, of the DNS and the files are arguments; [net] may answer by the
    whole history of requests.  A request goes out through one of three transports: one pinned
    to the addresses of the configured server, one that refuses private addresses, one that
    allows them.  What is kept between requests is whether the configured server has source_answered.
    A context that ends is one more error of the network. *)
From S2P Require Import Prelude GoStr Regex Utf8 Config GoStd Content JsonText JsonToken JsonObject ResultDoc AuthHeader Url Ssrf OAuth.

(** ** Requests (http_policy.go) *)
Inductive route : Type := Pinned | Strict | PrivateNetwork.
Record request : Type := { via : route; method : string; target : string; payload : string }.
(** [media] is the media type of the Content-Type header, when it is well formed. *)
Record response : Type := { status : Z; media : option string; body : string }.
Record flow_state : Type := { sourceContacted : bool; sent : list request }.
Definition initial_state : flow_state := {| sourceContacted := false; sent := [] |}.

(** Computations that send requests. *)
Definition act (A : Type) : Type := flow_state -> flow_state * res auth_error A.
Definition done {A} (x : A) : act A := fun st => (st, Ok x).
Definition fail {A} (e : auth_error) : act A := fun st => (st, Err e).
Definition lift {A} (r : res auth_error A) : act A := fun st => (st, r).
Definition and_then {A B} (a : act A) (f : A -> act B) : act B := fun st => let '(st, r) := a st in match r with Ok x => f x st | Err e => (st, Err e) end.
(** The outcome of [a], its error as a value. *)
Definition attempt {A B} (a : act A) (f : res auth_error A -> act B) : act B := fun st => let '(st, r) := a st in f r st.
Notation "'do*' x <- a ; k" := (and_then a (fun x => k)) (at level 100, x binder, right associativity).

Definition privateAuthAddresses (lookup : string -> res string (list IP)) (host : string) : list IP :=
  match ParseIP host with
  | Some ip => if IsPrivateNetworkIP ip then [ip] else []
  | None =>
      match lookup host with
      | Err _ => []
      | Ok addresses => if forallb IsPrivateNetworkIP addresses then addresses else []
      end
  end.
(** The origin of the flow: the configured URL, when its host is private. *)
Definition newOAuthHTTPFlow (lookup : string -> res string (list IP)) (sc : ServerConfig) : option URL :=
  if AgentAdded sc then None
  else match Parse (sc_URL sc) with
       | Err _ => None
       | Ok u =>
           if (negb (String.eqb (Scheme u) "http") && negb (String.eqb (Scheme u) "https")) || String.eqb (Hostname u) "" then None
           else match privateAuthAddresses lookup (Hostname u) with [] => None | _ => Some u end
       end.
Definition originPort (u : URL) : string := if negb (String.eqb (Port u) "") then Port u else if String.eqb (Scheme u) "https" then "443" else "80".
Definition sameOrigin (origin : option URL) (u : URL) : bool :=
  match origin with
  | None => false
  | Some o => EqualFold (Scheme o) (Scheme u) && EqualFold (Hostname o) (Hostname u) && String.eqb (originPort o) (originPort u)
  end.
Definition privateReady (origin : option URL) (st : flow_state) : bool := match origin with None => false | Some _ => sourceContacted st end.

Section flow.
Variable unicode_lower : Z -> Z.
Variable origin : option URL.
Variable net : list request -> request -> res string response.

(** Redirects are answers; they do not count as the configured server's. *)
Definition source_answered (resp : response) : bool := (status resp <? 300) || (400 <=? status resp).
Definition RoundTrip (meth url data : string) : act response := fun st =>
  match Parse url with
  | Err e => (st, Err (BadURLText e))
  | Ok u =>
      let r := if sameOrigin origin u then Pinned else if privateReady origin st then PrivateNetwork else Strict in
      let req := {| via := r; method := meth; target := url; payload := data |} in
      let answer := net (sent st) req in
      let contacted := match r, answer with Pinned, Ok resp => source_answered resp | _, _ => false end in
      ({| sourceContacted := sourceContacted st || contacted; sent := sent st ++ [req] |}, match answer with Ok resp => Ok resp | Err msg => Err (RequestFailed msg) end)
  end.
Definition doDiscoveryRequest (metaURL : string) : act response := do* _ <- lift (requireHTTPURL metaURL); RoundTrip "GET" metaURL "".

(** *** JSON documents *)
Definition maxAuthBodyBytes : nat := 65536.
(** The first value of a text: what a [json.Decoder] reads. *)
Definition first_value (s : string) : option string :=
  match scan_value (S (String.length s)) 0 s with Some rest => Some (str_take (String.length s - String.length rest) s) | None => None end.
Definition decode_members (body : string) : option (list (string * string)) := first_value (str_take maxAuthBodyBytes body) ≫= struct_members.
Definition unmarshal_strings (_ : list string) (raw : string) : option (list string) :=
  match shape_of raw with Some NullShape => Some [] | _ => unmarshal_list (unmarshal_string "") raw end.
Definition int_field_value (old : Z) (raw : string) : option Z :=
  match decode_scalar (skip_ws raw) with
  | Some (JNumber n, _) => ParseInt n
  | Some (JsonToken.JNull, _) => Some old
  | _ => None
  end.

(** ** The protected resource (discover_prm.go) *)
Record asRef : Type := { ar_URL : string; ar_Scopes : list string; ar_Required : list string; ar_Resource : string }.
Definition no_ref : asRef := {| ar_URL := ""; ar_Scopes := []; ar_Required := []; ar_Resource := "" |}.
Definition isJSONContentType (media : option string) : bool := match media with Some t => String.eqb t "application/json" || has_suffix t "+json" | None => false end.
Definition decodePRM (resp : response) (expected : string) : res auth_error asRef :=
  let fields := decode_members (body resp) ≫= fun ms =>
    match string_field "resource" ms, typed_field unmarshal_strings [] "authorization_servers" ms, typed_field unmarshal_strings [] "scopes_supported" ms with
    | Some r, Some servers, Some scopes => Some (r, servers, scopes)
    | _, _, _ => None
    end in
  match fields with
  | None => if isJSONContentType (media resp) then Err DecodeError else Ok no_ref
  | Some (_, [], _) => Ok no_ref
  | Some (resource, server :: _, scopes) =>
      let* _ := validatePRMResource unicode_lower resource expected in
      Ok {| ar_URL := server; ar_Scopes := scopes; ar_Required := []; ar_Resource := resource |}
  end.
Definition readPRM (resp : response) (expected : string) : res auth_error asRef :=
  if status resp =? 404 then Ok no_ref
  else if (status resp =? 429) || (500 <=? status resp) then Err (BadStatus (status resp))
  else if negb (status resp =? 200) then Ok no_ref
  else decodePRM resp expected.
Definition fetchASURLFromPRM (metadataURL expected : string) : act asRef := do* resp <- doDiscoveryRequest metadataURL; lift (readPRM resp expected).

Definition prm_origin (u : URL) : string := Scheme u +:+ "://" +:+ Host u.
Definition prm_candidates (u : URL) : list string :=
  let base := prm_origin u in
  let path := if String.eqb (EscapedPath u) "/" then "" else EscapedPath u in
  (base +:+ "/.well-known/oauth-protected-resource" +:+ path +:+ (if negb (String.eqb (RawQuery u) "") then "?" +:+ RawQuery u else "")) ::
  (if negb (String.eqb path "") || negb (String.eqb (RawQuery u) "") then [base +:+ "/.well-known/oauth-protected-resource"] else []).
Fixpoint probePRMCandidates (candidates : list string) (expected fallback : string) (transient : option auth_error) : act asRef :=
  match candidates with
  | [] => match transient with Some e => fail e | None => done {| ar_URL := fallback; ar_Scopes := []; ar_Required := []; ar_Resource := "" |} end
  | c :: candidates =>
      attempt (fetchASURLFromPRM c expected) (fun r =>
        match r with
        | Err e => probePRMCandidates candidates expected fallback (Some e)
        | Ok ref => if negb (String.eqb (ar_URL ref) "") then done ref else probePRMCandidates candidates expected fallback transient
        end)
  end.
Definition asURLFromPRMProbe (serverURL : string) : act asRef :=
  do* u <- lift (parseHTTPURL serverURL); probePRMCandidates (prm_candidates u) serverURL (prm_origin u) None.

(** ** Challenges (discover.go) *)
Definition preferScopes (primary fallback : list string) : list string := match primary with [] => fallback | _ => primary end.
(** [strings.Fields] of a text: split at white space. *)
Fixpoint fields_from (skip : nat) (cur : string) (s : string) : list string :=
  match s with
  | "" => if String.eqb cur "" then [] else [cur]
  | String c s' =>
      match skip with
      | S k => fields_from k (cur +:+ String c "") s'
      | O =>
          let '(r, n) := decode_rune s in
          if IsSpace r then (if String.eqb cur "" then [] else [cur]) ++ fields_gap (pred n) s'
          else fields_from (pred n) (cur +:+ String c "") s'
      end
  end
with fields_gap (skip : nat) (s : string) : list string :=
  match s with
  | "" => []
  | String c s' =>
      match skip with
      | S k => fields_gap k s'
      | O => let '(r, n) := decode_rune s in if IsSpace r then fields_gap (pred n) s' else fields_from (pred n) (String c "") s'
      end
  end.
Definition Fields (s : string) : list string := fields_gap 0 s.
Definition withRequiredScopes (ref : asRef) (header : string) : asRef :=
  match Fields (parseWWWAuthParam header "scope") with
  | [] => ref
  | scopes => {| ar_URL := ar_URL ref; ar_Scopes := scopes; ar_Required := scopes; ar_Resource := ar_Resource ref |}
  end.
Definition needsFreshChallenge (saved : option Challenge) : bool :=
  match origin, saved with
  | None, Some c => String.eqb (parseWWWAuthParam (WWWAuthenticate c) "resource_metadata") ""
  | _, _ => true
  end.

(** The probe lists the tools of the server: some requests to its URL, and the header of a
    401 among the answers, if it ends so. *)
Variable probe_requests : list request -> list string.
Variable probe_header : list request -> option string.
Fixpoint send_all (url : string) (payloads : list string) : act unit :=
  match payloads with [] => done tt | p :: payloads => attempt (RoundTrip "POST" url p) (fun _ => send_all url payloads) end.
Definition probeAuthorizationChallenge (serverURL : string) : act (option Challenge) := fun st =>
  let '(st, _) := send_all serverURL (probe_requests (sent st)) st in
  (st, Ok (match probe_header (sent st) with
           | Some h => if ValidAuthorizationChallenge 401 h then Some {| ch_ServerURL := serverURL; WWWAuthenticate := h; StatusCode := 401 |} else None
           | None => None
           end)).
Definition asRefFromChallenge (serverURL : string) (c : Challenge) : act asRef :=
  let header := WWWAuthenticate c in
  let rmURL := parseWWWAuthParam header "resource_metadata" in
  if String.eqb rmURL "" then done (withRequiredScopes no_ref header)
  else do* ref <- fetchASURLFromPRM rmURL serverURL; done (withRequiredScopes ref header).
Definition discoverFromChallenge (serverURL : string) (challenge : option Challenge) : act asRef :=
  match challenge with
  | None => asURLFromPRMProbe serverURL
  | Some c =>
      do* ref <- asRefFromChallenge serverURL c;
      if negb (String.eqb (ar_URL ref) "") then done ref
      else do* ref <- asURLFromPRMProbe serverURL; done (withRequiredScopes ref (WWWAuthenticate c))
  end.
Definition discoverASURL (serverURL : string) (saved : option Challenge) : act asRef :=
  do* challenge <- (if needsFreshChallenge saved then probeAuthorizationChallenge serverURL else done saved);
  do* ref <- discoverFromChallenge serverURL challenge;
  done (match saved with Some c => withRequiredScopes ref (WWWAuthenticate c) | None => ref end).

(** ** The authorization server (discover.go) *)
Definition asMetaCandidates (u : URL) : list string :=
  let base := prm_origin u in
  let trimmed := Trim (Path u) "/" in
  if String.eqb trimmed "" then [base +:+ "/.well-known/oauth-authorization-server"; base +:+ "/.well-known/openid-configuration"]
  else [base +:+ "/.well-known/oauth-authorization-server/" +:+ trimmed; base +:+ "/.well-known/openid-configuration/" +:+ trimmed; base +:+ "/" +:+ trimmed +:+ "/.well-known/openid-configuration"].
Definition pkceS256Supported (methods : list string) : bool := existsb (String.eqb "S256") methods.
Definition decodeASMeta (text : string) : res auth_error ServerMeta :=
  let fields := decode_members text ≫= fun ms =>
    match string_field "issuer" ms, bool_field "authorization_response_iss_parameter_supported" ms, string_field "authorization_endpoint" ms, string_field "token_endpoint" ms,
          string_field "registration_endpoint" ms, bool_field "client_id_metadata_document_supported" ms, typed_field unmarshal_strings [] "code_challenge_methods_supported" ms with
    | Some i, Some p, Some a, Some t, Some r, Some c, Some methods =>
        Some ({| Issuer := i; IssParameterSupported := p; m_AuthURL := a; m_TokenURL := t; RegistrationURL := r; CIMDSupported := c; RequiredScopes := []; m_Scopes := []; m_Resource := "" |}, methods)
    | _, _, _, _, _, _, _ => None
    end in
  match fields with
  | None => Err DecodeError
  | Some (meta, methods) => if pkceS256Supported methods then Ok meta else Err NoPKCE
  end.
Definition readASMeta (resp : response) : res auth_error (option ServerMeta) :=
  if status resp =? 404 then Ok None
  else if negb (status resp =? 200) then Err (BadStatus (status resp))
  else let* meta := decodeASMeta (body resp) in Ok (Some meta).
Definition fetchASMeta (metaURL : string) : act (option ServerMeta) := do* resp <- doDiscoveryRequest metaURL; lift (readASMeta resp).
Definition fallbackMeta (base : string) : ServerMeta :=
  {| Issuer := ""; IssParameterSupported := false; m_AuthURL := base +:+ "/authorize"; m_TokenURL := base +:+ "/token"; RegistrationURL := ""; CIMDSupported := false; RequiredScopes := []; m_Scopes := [];
     m_Resource := "" |}.
Definition requireIssuer (meta : ServerMeta) (issuer : string) : res auth_error unit := if String.eqb (Issuer meta) issuer then Ok tt else Err IssuerMismatch.
Fixpoint fetch_candidates (candidates : list string) (asURL fallback : string) : act ServerMeta :=
  match candidates with
  | [] => done (fallbackMeta fallback)
  | c :: candidates =>
      do* meta <- fetchASMeta c;
      match meta with
      | Some meta => do* _ <- lift (requireIssuer meta asURL); done meta
      | None => fetch_candidates candidates asURL fallback
      end
  end.
Definition discoverASMeta (asURL : string) : act ServerMeta :=
  match Parse asURL with
  | Err e => fail (BadURLText e)
  | Ok u => fetch_candidates (asMetaCandidates u) asURL (prm_origin u)
  end.
Definition with_ref (meta : ServerMeta) (scopes required : list string) (resource : string) : ServerMeta :=
  {| Issuer := Issuer meta; IssParameterSupported := IssParameterSupported meta; m_AuthURL := m_AuthURL meta; m_TokenURL := m_TokenURL meta; RegistrationURL := RegistrationURL meta;
     CIMDSupported := CIMDSupported meta; RequiredScopes := required; m_Scopes := scopes; m_Resource := resource |}.
Definition discoverMetadata (serverURL : string) (challenge : option Challenge) : act ServerMeta :=
  do* _ <- lift (requireHTTPURL serverURL);
  do* ref <- discoverASURL serverURL challenge;
  do* meta <- discoverASMeta (ar_URL ref);
  do* resource <- (if String.eqb (ar_Resource ref) "" then lift (CanonicalResourceURI unicode_lower serverURL) else done (ar_Resource ref));
  done (with_ref meta (preferScopes (ar_Scopes ref) (m_Scopes meta)) (ar_Required ref) resource).

(** ** Refreshing for a private server (oauth.go) *)
Definition private_refresh_binding (sc : ServerConfig) (l : Login) (meta : res auth_error ServerMeta) : res auth_error unit :=
  match meta with
  | Err IssuerMismatch => Err (LoginMismatch IssuerMismatch)
  | Err e => Err e
  | Ok meta =>
      if negb (String.eqb (Issuer meta) (l_Issuer l)) then Err (LoginMismatch IssuerChanged)
      else if negb (String.eqb (m_Resource meta) (Resource l)) then Err (LoginMismatch ResourceOutside)
      else if match sc_Auth sc with Some a => String.eqb (a_TokenURL a) (l_TokenURL l) | None => false end then Ok tt
      else if negb (String.eqb (m_TokenURL meta) (l_TokenURL l)) then Err (LoginMismatch TokenURLChanged)
      else Ok tt
  end.
(** What precedes the exchange of the refresh token. *)
Definition refresh_checks (sc : ServerConfig) (l : Login) : act unit :=
  match MatchesConfig unicode_lower l sc with
  | Err e => fail (LoginMismatch e)
  | Ok _ =>
      match origin with
      | None => done tt
      | Some _ => attempt (discoverMetadata (sc_URL sc) None) (fun meta => lift (private_refresh_binding sc l meta))
      end
  end.

(** ** Resolving a login (resolve.go) *)
Definition validateConfiguredEndpoint (endpoint : string) : res auth_error unit := if String.eqb endpoint "" then Ok tt else requireHTTPURL endpoint.
Definition validateDiscoveredEndpoint (endpoint : string) : act unit := fun st =>
  (st, let* _ := validateConfiguredEndpoint endpoint in
       if String.eqb endpoint "" then Ok tt
       else match ValidateURL {| AllowPrivateNetworks := privateReady origin st |} endpoint with Err e => Err (DisallowedHost e) | Ok _ => Ok tt end).
Definition endpoint_for (configured discovered : string) : act string :=
  if String.eqb configured "" then do* _ <- validateDiscoveredEndpoint discovered; done discovered
  else do* _ <- lift (validateConfiguredEndpoint configured); done configured.
Definition applyDiscoveredEndpoints (a : AuthConfig) (meta : ServerMeta) : act AuthConfig :=
  do* auth <- endpoint_for (AuthURL a) (m_AuthURL meta);
  do* token <- endpoint_for (a_TokenURL a) (m_TokenURL meta);
  done (with_endpoints a auth token).
Definition applyDiscoveredScopes (a : AuthConfig) (meta : ServerMeta) : AuthConfig :=
  match a_Scopes a with [] => with_scopes a (m_Scopes meta) | _ => with_scopes a (stableScopes [a_Scopes a; RequiredScopes meta]) end.
Definition discoverAndApply (serverURL : string) (a : AuthConfig) (challenge : option Challenge) : act (AuthConfig * ServerMeta) :=
  do* meta <- discoverMetadata serverURL challenge;
  do* a <- applyDiscoveredEndpoints (with_resource a (a_Issuer a) (m_Resource meta)) meta;
  done (applyDiscoveredScopes a meta, meta).
Definition discoverForLogin (serverURL : string) (a : AuthConfig) (challenge : option Challenge) : act (AuthConfig * ServerMeta) :=
  do* am <- discoverAndApply serverURL a challenge;
  if String.eqb (Issuer (snd am)) "" then fail MissingIssuer else done am.

(** Registration (register.go): what the server assigns. *)
Definition registration_text (a : AuthConfig) : string :=
  marshal_members true
    [("client_name", json_string true "mini"); ("redirect_uris", "[" +:+ json_string true (ResolvedCallbackURI a) +:+ "]");
     ("grant_types", "[" +:+ json_string true "authorization_code" +:+ "," +:+ json_string true "refresh_token" +:+ "]"); ("response_types", "[" +:+ json_string true "code" +:+ "]");
     ("token_endpoint_auth_method", json_string true "none"); ("application_type", json_string true "native")].
Definition parseRegistrationResponse (resp : response) (issuer tokenURL : string) : res auth_error Registration :=
  if negb (status resp =? 200) && negb (status resp =? 201) then Err (BadStatus (status resp))
  else
    match decode_members (body resp) with
    | None => Err DecodeError
    | Some ms =>
        match string_field "client_id" ms, string_field "client_secret" ms, string_field "token_endpoint_auth_method" ms, typed_field int_field_value 0 "client_secret_expires_at" ms with
        | Some id, Some secret, Some meth, Some expires =>
            if String.eqb id "" then Err EmptyClientID
            else Ok {| ClientID := id; r_Issuer := issuer; r_Secret := secret; r_Method := meth; ClientSecretExpiresAt := expires; r_TokenURL := tokenURL |}
        | _, _, _, _ => Err DecodeError
        end
    end.
Definition postRegistration (url data : string) : act response := do* _ <- lift (requireHTTPURL url); RoundTrip "POST" url data.
(** The client of a login, the configuration with it, and the registration to save, if it is new. *)
Definition resolved_client : Type := AuthConfig * LoginClient * option Registration.
Definition dynamicRegister (a : AuthConfig) (meta : ServerMeta) (saved : Registration -> res auth_error unit) : act resolved_client :=
  do* regURL <- lift (registrationURL meta);
  do* resp <- postRegistration regURL (registration_text a);
  do* reg <- lift (parseRegistrationResponse resp (Issuer meta) (a_TokenURL a));
  do* ac <- lift (applyRegistration a reg);
  do* _ <- lift (saved (complete_registration reg));
  done (fst ac, snd ac, Some (complete_registration reg)).
Definition resolveClient (a : AuthConfig) (meta : ServerMeta) (file : res auth_error Registration) (saved : Registration -> res auth_error unit) (now : Z) : act resolved_client :=
  if negb (String.eqb (a_ClientID a) "") then
    do* _ <- lift (validateConfiguredIssuer a meta);
    done (a, {| lc_ID := a_ClientID a; Configured := true; lc_Secret := ""; lc_AuthMethod := "" |}, None)
  else
    match file with
    | Err e => if negb (IsNotFound e) then fail e
               else if CanUseClientMetadataDocument a meta then
                 done (with_client a ClientMetadataURL (a_ClientSecret a) (TokenEndpointAuthMethod a), {| lc_ID := ClientMetadataURL; Configured := false; lc_Secret := ""; lc_AuthMethod := "" |}, None)
               else dynamicRegister a meta saved
    | Ok reg =>
        if registrationUsable reg meta a now then do* ac <- lift (applyRegistration a reg); done (fst ac, snd ac, None)
        else if CanUseClientMetadataDocument a meta then
          done (with_client a ClientMetadataURL (a_ClientSecret a) (TokenEndpointAuthMethod a), {| lc_ID := ClientMetadataURL; Configured := false; lc_Secret := ""; lc_AuthMethod := "" |}, None)
        else dynamicRegister a meta saved
    end.

Record resolvedLogin : Type := { rl_Client : LoginClient; rl_Issuer : ExpectedIssuer; rl_ServerURL : string; rl_challenge : option Challenge; rl_Auth : AuthConfig; rl_Registration : option Registration }.
(** The files of the server: the saved challenge, login and registration. *)
Record auth_files : Type := { f_challenge : res auth_error Challenge; f_login : res auth_error Login; f_registration : res auth_error Registration; f_saved : Registration -> res auth_error unit }.
(** A step-up challenge keeps the scopes of the login before. *)
Definition step_up (challenge : option Challenge) (saved : res auth_error Login) (a : AuthConfig) (issuer : string) : AuthConfig :=
  match challenge with Some c => if StatusCode c =? 403 then mergePreviousScopes saved a issuer else a | None => a end.
Definition resolveLogin (sc : ServerConfig) (a : AuthConfig) (files : auth_files) (now : Z) : act resolvedLogin :=
  do* serverURL <- lift (CanonicalResourceURI unicode_lower (sc_URL sc));
  let a := clearSecretWithoutClientID a in
  let challenge := match loadChallenge (f_challenge files) (sc_Name sc) (sc_URL sc) with Ok c => Some c | Err _ => None end in
  do* am <- discoverForLogin (sc_URL sc) a challenge;
  let a := step_up challenge (LoadLoginFor unicode_lower (f_login files) {| sc_Name := sc_Name sc; sc_URL := sc_URL sc; sc_Auth := Some (fst am); AgentAdded := AgentAdded sc; UnsetEnv := UnsetEnv sc |})
             (fst am) (Issuer (snd am)) in
  do* rc <- resolveClient a (snd am) (if re_match ValidServerName (sc_Name sc) then f_registration files else Err (InvalidServerName (sc_Name sc))) (f_saved files) now;
  done {| rl_Client := snd (fst rc); rl_Issuer := {| ei_Issuer := Issuer (snd am); AlwaysSent := IssParameterSupported (snd am) |}; rl_ServerURL := serverURL; rl_challenge := challenge;
          rl_Auth := fst (fst rc); rl_Registration := snd rc |}.
Definition resolveEndpoints (sc : ServerConfig) (files : auth_files) (now : Z) : act resolvedLogin :=
  match UnsetEnv sc, sc_Auth sc with
  | Some msg, _ => fail (UnsetVariable msg)
  | None, None => fail NotOAuth (* ValidateOAuthServer comes first *)
  | None, Some a => resolveLogin sc a files now
  end.
(** The login a browser flow will complete with its token (browser_login.go). *)
Definition loginSnapshot (r : resolvedLogin) : Login :=
  {| consumedChallenge := rl_challenge r; Resource := ResourceURL (rl_Auth r); l_ServerURL := rl_ServerURL r; l_Issuer := ei_Issuer (rl_Issuer r); l_TokenURL := a_TokenURL (rl_Auth r);
     Client := rl_Client r; l_Scopes := a_Scopes (rl_Auth r); l_Token := None |}.
End flow.
