(* ===== verification/DiscoveryProps.v ===== *)
(** * Properties of OAuth discovery and login resolution *)
From S2P Require Import Prelude GoStr Regex Utf8 Config GoStd Content JsonText JsonToken JsonObject ResultDoc AuthHeader Url Ssrf OAuth Discovery.

Notation "'do*' x <- a ; k" := (and_then a (fun x => k)) (at level 100, x binder, right associativity).

Section keeps.
Variable origin : option URL.
Variable net : list request -> request -> res string response.

(** The configured server has source_answered among [reqs]. *)
Definition contacted (reqs : list request) : Prop := exists a req b resp, reqs = a ++ req :: b /\ via req = Pinned /\ net a req = Ok resp /\ source_answered resp = true.
(** Every request took a transport it may take. *)
Definition routed (reqs : list request) : Prop := forall a req b, reqs = a ++ req :: b ->
  (via req = Pinned -> exists u, Parse (target req) = Ok u /\ sameOrigin origin u = true) /\ (via req = PrivateNetwork -> origin <> None /\ contacted a).
Definition guarded (st : flow_state) : Prop := (sourceContacted st = true -> contacted (sent st)) /\ routed (sent st).
Definition extends (st st' : flow_state) : Prop := exists more, sent st' = sent st ++ more.
(** A computation keeps the discipline, and requests are only added. *)
Definition keeps {A} (a : act A) : Prop := forall st, guarded st -> guarded (fst (a st)) /\ extends st (fst (a st)).

Lemma extends_refl st : extends st st.
Proof. exists []. by rewrite app_nil_r. Qed.
Lemma extends_trans a b c : extends a b -> extends b c -> extends a c.
Proof. intros [x Hx] [y Hy]. exists (x ++ y). by rewrite Hy, Hx, app_assoc. Qed.
Lemma contacted_app a b : contacted a -> contacted (a ++ b).
Proof. intros (x & req & y & resp & -> & H). exists x, req, (y ++ b), resp. by rewrite <- app_assoc. Qed.

Lemma keeps_done {A} (x : A) : keeps (done x).
Proof. intros st H. split; [done|apply extends_refl]. Qed.
Lemma keeps_fail {A} e : keeps (@fail A e).
Proof. intros st H. split; [done|apply extends_refl]. Qed.
Lemma keeps_lift {A} (r : res auth_error A) : keeps (lift r).
Proof. intros st H. split; [done|apply extends_refl]. Qed.
Lemma keeps_then {A B} (a : act A) (f : A -> act B) : keeps a -> (forall x, keeps (f x)) -> keeps (and_then a f).
Proof.
  intros Ha Hf st H. unfold and_then. destruct (Ha st H) as [H1 E1]. destruct (a st) as [st1 [x|e]]; cbn [fst] in *; [|done].
  destruct (Hf x st1 H1) as [H2 E2]. split; [done|]. by eapply extends_trans.
Qed.
Lemma keeps_attempt {A B} (a : act A) (f : res auth_error A -> act B) : keeps a -> (forall r, keeps (f r)) -> keeps (attempt a f).
Proof.
  intros Ha Hf st H. unfold attempt. destruct (Ha st H) as [H1 E1]. destruct (a st) as [st1 r]; cbn [fst] in *.
  destruct (Hf r st1 H1) as [H2 E2]. split; [done|]. by eapply extends_trans.
Qed.
Lemma keeps_round_trip meth url data : keeps (RoundTrip origin net meth url data).
Proof.
  intros st [Hc Hr]. unfold RoundTrip. destruct (Parse url) as [u|e] eqn:Ep; [|split; [done|apply extends_refl]].
  set (r := if sameOrigin origin u then Pinned else _). set (req := {| via := r |}). cbn [fst sent sourceContacted].
  split; [|by exists [req]]. split; cbn [sent sourceContacted].
  - intros [H|H]%orb_true_iff; [by apply contacted_app, Hc|]. exists (sent st), req, []. destruct (net (sent st) req) as [resp|] eqn:En; [|by destruct r]. exists resp.
    destruct r eqn:Er; [|done|done]. by split_and!.
  - intros a q b Hq. destruct (decide (b = [])) as [->|Hb].
    + apply app_inj_tail in Hq as [<- <-]. cbn [via target]. unfold r. split.
      * intros Hv. exists u. split; [done|]. destruct (sameOrigin origin u); [done|]. by destruct (privateReady origin st).
      * intros Hv. destruct (sameOrigin origin u); [done|]. assert (privateReady origin st = true) as Hp by (revert Hv; unfold req, r; cbn [via]; by destruct (privateReady origin st)).
        unfold privateReady in Hp. destruct origin as [o|]; [|done]. split; [done|]. by apply Hc.
    + destruct (exists_last Hb) as (b' & x & ->). rewrite app_comm_cons, app_assoc in Hq. apply app_inj_tail in Hq as [Hq _]. by eapply Hr.
Qed.
End keeps.

#[export] Hint Resolve keeps_done keeps_fail keeps_lift keeps_round_trip : keeps.
Ltac keep := repeat first
  [ solve [eauto with keeps nocore] | apply keeps_then; [|intros] | apply keeps_attempt; [|intros]
  | match goal with |- keeps _ _ (if ?b then _ else _) => destruct b | |- keeps _ _ (match ?x with _ => _ end) => destruct x end ].

Section flow.
Variable unicode_lower : Z -> Z.
Variable origin : option URL.
Variable net : list request -> request -> res string response.
Variable probe_requests : list request -> list string.
Variable probe_header : list request -> option string.

Lemma keeps_request url : keeps origin net (doDiscoveryRequest origin net url).
Proof. unfold doDiscoveryRequest. keep. Qed.
#[local] Hint Resolve keeps_request : keeps.
Lemma keeps_prm url expected : keeps origin net (fetchASURLFromPRM unicode_lower origin net url expected).
Proof. unfold fetchASURLFromPRM. keep. Qed.
#[local] Hint Resolve keeps_prm : keeps.
Lemma keeps_candidates cs expected fb : forall tr, keeps origin net (probePRMCandidates unicode_lower origin net cs expected fb tr).
Proof. induction cs as [|c cs IH]; intros tr; cbn [probePRMCandidates]; keep. Qed.
#[local] Hint Resolve keeps_candidates : keeps.
Lemma keeps_prm_probe url : keeps origin net (asURLFromPRMProbe unicode_lower origin net url).
Proof. unfold asURLFromPRMProbe. keep. Qed.
#[local] Hint Resolve keeps_prm_probe : keeps.
Lemma keeps_send_all url ps : keeps origin net (send_all origin net url ps).
Proof. induction ps as [|p ps IH]; cbn [send_all]; keep. Qed.
Lemma keeps_probe url : keeps origin net (probeAuthorizationChallenge origin net probe_requests probe_header url).
Proof.
  intros st H. unfold probeAuthorizationChallenge. destruct (keeps_send_all url (probe_requests (sent st)) st H) as [H1 H2]. by destruct (send_all _ _ _ _ _) as [st1 ?].
Qed.
#[local] Hint Resolve keeps_probe : keeps.
Lemma keeps_as_url url saved : keeps origin net (discoverASURL unicode_lower origin net probe_requests probe_header url saved).
Proof. unfold discoverASURL, discoverFromChallenge, asRefFromChallenge. keep. Qed.
#[local] Hint Resolve keeps_as_url : keeps.
Lemma keeps_as_candidates cs url fb : keeps origin net (fetch_candidates origin net cs url fb).
Proof. induction cs as [|c cs IH]; cbn [fetch_candidates]; unfold fetchASMeta; keep. Qed.
#[local] Hint Resolve keeps_as_candidates : keeps.
Lemma keeps_metadata url saved : keeps origin net (discoverMetadata unicode_lower origin net probe_requests probe_header url saved).
Proof. unfold discoverMetadata, discoverASMeta. keep. Qed.
#[local] Hint Resolve keeps_metadata : keeps.
Lemma keeps_endpoint c d : keeps origin net (endpoint_for origin c d).
Proof. unfold endpoint_for. destruct (String.eqb c ""); keep. intros st H. split; [done|apply extends_refl]. Qed.
#[local] Hint Resolve keeps_endpoint : keeps.
Lemma keeps_client a meta file saved now : keeps origin net (resolveClient origin net a meta file saved now).
Proof. unfold resolveClient, dynamicRegister, postRegistration. keep. Qed.
#[local] Hint Resolve keeps_client : keeps.
Lemma keeps_login sc files now : keeps origin net (resolveEndpoints unicode_lower origin net probe_requests probe_header sc files now).
Proof. unfold resolveEndpoints, resolveLogin, discoverForLogin, discoverAndApply, applyDiscoveredEndpoints. keep. Qed.
Lemma keeps_refresh sc l : keeps origin net (refresh_checks unicode_lower origin net probe_requests probe_header sc l).
Proof.
  pose proof (keeps_metadata (sc_URL sc) None) as Hm. unfold refresh_checks. destruct (MatchesConfig _ _ _); [|keep]. destruct origin; [|keep]. apply keeps_attempt; [exact Hm|keep].
Qed.
End flow.

Lemma initial_guarded origin net : guarded origin net initial_state.
Proof. split; [done|]. intros a req b H. by destruct a. Qed.

(** C21: OAuth discovery reaches the private network only for a private server the user
    configured, and only after that server itself has source_answered: in a login, every request that
    does not use the strict transport belongs to a server no agent added, whose host has only
    private addresses; a pinned request goes to its origin, and a request that may reach other
    private hosts comes after a pinned one that was source_answered without a redirect. *)
Theorem private_network_guarded unicode_lower lookup net probe_requests probe_header sc files now st r a req b :
  resolveEndpoints unicode_lower (newOAuthHTTPFlow lookup sc) net probe_requests probe_header sc files now initial_state = (st, r) ->
  sent st = a ++ req :: b -> via req <> Strict ->
  AgentAdded sc = false /\
  exists o, Parse (sc_URL sc) = Ok o /\ privateAuthAddresses lookup (Hostname o) <> [] /\ Forall (fun ip => IsPrivateNetworkIP ip = true) (privateAuthAddresses lookup (Hostname o)) /\
    (via req = Pinned -> exists u, Parse (target req) = Ok u /\ sameOrigin (Some o) u = true) /\
    (via req = PrivateNetwork -> contacted net a).
Proof.
  intros Hrun Hsent Hvia. destruct (keeps_login unicode_lower (newOAuthHTTPFlow lookup sc) net probe_requests probe_header sc files now initial_state (initial_guarded _ _)) as [[_ Hr] _].
  rewrite Hrun in Hr. cbn [fst] in Hr. destruct (Hr _ _ _ Hsent) as [Hp Hn].
  assert (exists o, newOAuthHTTPFlow lookup sc = Some o) as [o Ho].
  { destruct (via req); [|done|]; [destruct (Hp eq_refl) as (u & _ & Hu)|destruct (Hn eq_refl) as [Hu _]]; destruct (newOAuthHTTPFlow lookup sc) as [o|]; try done; by exists o. }
  rewrite Ho in Hp, Hn. unfold newOAuthHTTPFlow in Ho. destruct (AgentAdded sc); [done|]. destruct (Parse (sc_URL sc)) as [u|] eqn:Eu; [|done].
  destruct (_ || _) eqn:E1; [done|]. destruct (privateAuthAddresses lookup (Hostname u)) as [|ip ips] eqn:E2; [done|]. injection Ho as <-. split; [done|]. exists u. rewrite E2. split_and!; [done|done| |done|].
  - unfold privateAuthAddresses in E2. destruct (ParseIP (Hostname u)) as [ip'|].
    + destruct (IsPrivateNetworkIP ip') eqn:Ei; [|done]. injection E2 as <- <-. by repeat constructor.
    + destruct (lookup (Hostname u)) as [l|]; [|done]. destruct (forallb IsPrivateNetworkIP l) eqn:Ef; [|done]. subst l. apply Forall_forall. intros x Hx. rewrite forallb_forall in Ef. by apply Ef, list_elem_of_In.
  - intros Hv. by destruct (Hn Hv).
Qed.

(** ** What a computation has seen *)
Lemma then_ok {A B} (a : act A) (f : A -> act B) st st' x : and_then a f st = (st', Ok x) -> exists y st1, a st = (st1, Ok y) /\ f y st1 = (st', Ok x).
Proof. unfold and_then. destruct (a st) as [st1 [y|e]]; [|done]. intros H. by exists y, st1. Qed.
Lemma lift_ok {A} (r : res auth_error A) st st' x : lift r st = (st', Ok x) -> st' = st /\ r = Ok x.
Proof. unfold lift. by intros [= <- ->]. Qed.
Lemma done_ok {A} (y x : A) st st' : done y st = (st', Ok x) -> st' = st /\ y = x.
Proof. unfold done. by intros [= <- ->]. Qed.
Ltac inv_run H := apply then_ok in H as (?v & ?st & ?E & H).

Section seen.
Variable unicode_lower : Z -> Z.
Variable origin : option URL.
Variable net : list request -> request -> res string response.
Variable probe_requests : list request -> list string.
Variable probe_header : list request -> option string.

(** An answer to a request to [url] that was sent. *)
Definition fetched (reqs : list request) (url : string) (resp : response) : Prop := exists a req b, reqs = a ++ req :: b /\ target req = url /\ net a req = Ok resp.
Lemma fetched_extends st st' url resp : extends st st' -> fetched (sent st) url resp -> fetched (sent st') url resp.
Proof. intros [more Hm] (a & req & b & E & Ht & Hn). exists a, req, (b ++ more). by rewrite Hm, E, <- app_assoc. Qed.
Lemma round_trip_ok meth url data st st' resp : RoundTrip origin net meth url data st = (st', Ok resp) -> fetched (sent st') url resp.
Proof.
  unfold RoundTrip. destruct (Parse url); [|done]. set (req := {| via := _ |}). destruct (net (sent st) req) as [resp'|] eqn:En; [|done]. intros [= <- <-].
  exists (sent st), req, []. by split_and!.
Qed.
Lemma request_ok url st st' resp : doDiscoveryRequest origin net url st = (st', Ok resp) -> fetched (sent st') url resp.
Proof. intros H. inv_run H. by apply round_trip_ok in H. Qed.

(** The authorization server and the resource of [ref] come from the server's own origin, or from a document about the server. *)
Definition from_document (reqs : list request) (serverURL : string) (ref : asRef) : Prop :=
  exists url resp ref0, fetched reqs url resp /\ readPRM unicode_lower resp serverURL = Ok ref0 /\ ar_URL ref0 <> "" /\ ar_URL ref = ar_URL ref0 /\ ar_Resource ref = ar_Resource ref0.
Definition named_for (reqs : list request) (serverURL : string) (ref : asRef) : Prop :=
  (exists u, parseHTTPURL serverURL = Ok u /\ ar_URL ref = prm_origin u /\ ar_Resource ref = "") \/ from_document reqs serverURL ref.
Lemma prm_ok url serverURL st st' ref : fetchASURLFromPRM unicode_lower origin net url serverURL st = (st', Ok ref) -> ar_URL ref <> "" -> from_document (sent st') serverURL ref.
Proof.
  intros H Hne. inv_run H. apply lift_ok in H as [<- H]. apply request_ok in E. by exists url, v, ref.
Qed.
Lemma probe_ok serverURL fb cs : forall tr st st' ref, probePRMCandidates unicode_lower origin net cs serverURL fb tr st = (st', Ok ref) ->
  (ar_URL ref = fb /\ ar_Resource ref = "") \/ from_document (sent st') serverURL ref.
Proof.
  induction cs as [|c cs IH]; intros tr st st' ref; cbn [probePRMCandidates]; [destruct tr; [done|]; intros [_ <-]%done_ok; by left|].
  unfold attempt. destruct (fetchASURLFromPRM _ _ _ c serverURL st) as [st1 [r|e]] eqn:E; [|apply IH]. destruct (String.eqb_spec (ar_URL r) ""); [apply IH|]. cbn [negb].
  intros [-> <-]%done_ok. right. by eapply prm_ok.
Qed.
Lemma prm_probe_ok serverURL st st' ref : asURLFromPRMProbe unicode_lower origin net serverURL st = (st', Ok ref) -> named_for (sent st') serverURL ref.
Proof. intros H. inv_run H. apply lift_ok in E as [-> E]. apply probe_ok in H as [[H1 H2]|H]; [left; by exists v|by right]. Qed.
Lemma scopes_named reqs serverURL ref h : named_for reqs serverURL ref -> named_for reqs serverURL (withRequiredScopes ref h).
Proof. unfold withRequiredScopes. by destruct (Fields _). Qed.
Lemma scopes_document reqs serverURL ref h : from_document reqs serverURL ref -> from_document reqs serverURL (withRequiredScopes ref h).
Proof. unfold withRequiredScopes. by destruct (Fields _). Qed.
Lemma scopes_url ref h : ar_URL (withRequiredScopes ref h) = ar_URL ref.
Proof. unfold withRequiredScopes. by destruct (Fields _). Qed.
Lemma as_url_ok serverURL saved st st' ref : discoverASURL unicode_lower origin net probe_requests probe_header serverURL saved st = (st', Ok ref) -> named_for (sent st') serverURL ref.
Proof.
  intros H. inv_run H. inv_run H. apply done_ok in H as [-> <-]. assert (named_for (sent st1) serverURL v0) as Hn; [|destruct saved; [by apply scopes_named|done]].
  clear E saved. rename E0 into E. unfold discoverFromChallenge in E. destruct v as [c|]; [|by eapply prm_probe_ok]. inv_run E. unfold asRefFromChallenge in E0.
  destruct (String.eqb_spec (ar_URL v) "") as [Hu|Hu]; cbn [negb] in E.
  - inv_run E. apply done_ok in E as [-> <-]. apply scopes_named. by eapply prm_probe_ok.
  - apply done_ok in E as [-> <-]. right. destruct (String.eqb (parseWWWAuthParam _ _) "").
    + apply done_ok in E0 as [-> <-]. by rewrite scopes_url in Hu.
    + inv_run E0. apply done_ok in E0 as [-> <-]. rewrite scopes_url in Hu. apply scopes_document. by eapply prm_ok.
Qed.
Lemma candidates_ok cs asURL fb : forall st st' meta, fetch_candidates origin net cs asURL fb st = (st', Ok meta) ->
  meta = fallbackMeta fb \/ Issuer meta = asURL /\ exists c resp, c ∈ cs /\ fetched (sent st') c resp /\ decodeASMeta (body resp) = Ok meta.
Proof.
  induction cs as [|c cs IH]; intros st st' meta H; cbn [fetch_candidates] in H; [apply done_ok in H as [_ <-]; by left|]. inv_run H. destruct v as [m|].
  - right. inv_run H. apply lift_ok in E0 as [-> E0]. apply done_ok in H as [-> <-]. unfold requireIssuer in E0. destruct (String.eqb_spec (Issuer m) asURL); [|done]. split; [done|].
    inv_run E. apply lift_ok in E as [<- E]. apply request_ok in E1. exists c, v0. split; [by left|]. split; [done|]. unfold readASMeta in E. destruct (_ =? 404); [done|]. destruct (negb _); [done|].
    inv_ok E. by injection E as <-.
  - destruct (IH _ _ _ H) as [->|[Hi (c' & resp & Hc & Hr)]]; [by left|]. right. split; [done|]. exists c', resp. split; [by right|done].
Qed.
End seen.

Lemma extends_candidates origin net cs url fb st st' meta : fetch_candidates origin net cs url fb st = (st', Ok meta) -> extends st st'.
Proof.
  revert st. induction cs as [|c cs IH]; intros st H; cbn [fetch_candidates] in H; [apply done_ok in H as [-> _]; apply extends_refl|].
  inv_run H. eapply (extends_trans _ st0).
  - inv_run E. apply lift_ok in E as [-> _]. inv_run E0. apply lift_ok in E as [<- _]. unfold RoundTrip in E0. destruct (Parse c); [|done]. injection E0 as <- _. by eexists [_].
  - destruct v as [m|]; [|by apply IH]. inv_run H. apply lift_ok in E0 as [-> _]. apply done_ok in H as [-> _]. apply extends_refl.
Qed.
Lemma document_valid unicode_lower resp serverURL ref : readPRM unicode_lower resp serverURL = Ok ref -> ar_URL ref <> "" ->
  status resp = 200 /\ validatePRMResource unicode_lower (ar_Resource ref) serverURL = Ok tt.
Proof.
  unfold readPRM. destruct (_ =? 404); [by intros [= <-]|]. destruct (_ || _); [done|]. destruct (Z.eqb_spec (status resp) 200); [|by intros [= <-]]. cbn [negb]. unfold decodePRM.
  destruct (_ ≫= _) as [[[r [|s l]] scopes]|]; [by intros [= <-]| |by destruct (isJSONContentType _); [|intros [= <-]]].
  intros H Hne. inv_ok H. destruct v. by injection H as <-.
Qed.

(** ** The login *)
Lemma endpoint_ok origin c d st st' u : endpoint_for origin c d st = (st', Ok u) -> u = if String.eqb c "" then d else c.
Proof. unfold endpoint_for. destruct (String.eqb c ""); intros H; inv_run H; by apply done_ok in H as [_ <-]. Qed.
(** What discovery leaves of the configuration. *)
Record discovered (a a' : AuthConfig) (meta : ServerMeta) : Prop := {
  d_id : a_ClientID a' = a_ClientID a; d_issuer : a_Issuer a' = a_Issuer a; d_secret : a_ClientSecret a' = a_ClientSecret a; d_method : TokenEndpointAuthMethod a' = TokenEndpointAuthMethod a;
  d_token : a_TokenURL a' = if String.eqb (a_TokenURL a) "" then m_TokenURL meta else a_TokenURL a; d_resource : ResourceURL a' = m_Resource meta }.
Lemma discover_ok unicode_lower origin net probe_requests probe_header url a ch st st' a' meta :
  discoverForLogin unicode_lower origin net probe_requests probe_header url a ch st = (st', Ok (a', meta)) -> discovered a a' meta /\ Issuer meta <> "".
Proof.
  intros H. inv_run H. destruct (String.eqb_spec (Issuer (snd v)) "") as [|Hne]; [done|]. apply done_ok in H as [_ ->]. cbn [snd] in Hne. split; [|done].
  inv_run E. inv_run E. apply done_ok in E as [_ [= <- <-]]. inv_run E1. inv_run E1. apply done_ok in E1 as [_ <-]. repeat match goal with Hx : endpoint_for _ _ _ _ = _ |- _ => apply endpoint_ok in Hx; cbn in Hx; subst end.
  unfold applyDiscoveredScopes. cbn. by destruct (a_Scopes a); split.
Qed.
Lemma registration_ok a reg ac : applyRegistration a reg = Ok ac -> a_ClientID (fst ac) = ClientID reg /\ a_TokenURL (fst ac) = a_TokenURL a /\ ResourceURL (fst ac) = ResourceURL a /\
  Configured (snd ac) = false /\ lc_Secret (snd ac) = r_Secret reg.
Proof. unfold applyRegistration. intros H. inv_ok H. injection H as <-. cbn. unfold complete_registration. by destruct (_ && _). Qed.
(** Where the client of a login comes from. *)
Definition client_of (files : auth_files) (now : Z) (a : AuthConfig) (issuer tokenURL : string) (rc : resolved_client) : Prop :=
  let '(a', client, new) := rc in
  a_TokenURL a' = tokenURL /\ ResourceURL a' = ResourceURL a /\ new = None /\ Configured client = true /\ lc_ID client = a_ClientID a /\ a_ClientID a <> "" /\ lc_Secret client = "" /\ (a_Issuer a = issuer \/ a_Issuer a = "" /\ a_ClientSecret a = "") \/
  a_TokenURL a' = tokenURL /\ ResourceURL a' = ResourceURL a /\ Configured client = false /\ a_ClientID a = "" /\
    (lc_ID client = ClientMetadataURL /\ lc_Secret client = "" \/
     (exists reg, f_registration files = Ok reg /\ r_Issuer reg = issuer /\ r_TokenURL reg = tokenURL /\ (r_Secret reg = "" \/ secretApplies reg now = true) /\ lc_Secret client = r_Secret reg) \/
     (exists reg, new = Some reg /\ r_Issuer reg = issuer /\ r_TokenURL reg = tokenURL /\ lc_Secret client = r_Secret reg)).
Lemma dynamic_ok origin net files now a meta saved st st' rc : a_ClientID a = "" -> dynamicRegister origin net a meta saved st = (st', Ok rc) -> client_of files now a (Issuer meta) (a_TokenURL a) rc.
Proof.
  intros Hid H. do 5 inv_run H. apply done_ok in H as [_ <-]. apply lift_ok in E1 as [_ E1]. apply lift_ok in E2 as [_ E2]. apply registration_ok in E2 as (_ & H2 & H3 & H4 & H5).
  unfold client_of. right. split_and!; try done. right. right. exists (complete_registration v1). split; [done|].
  unfold parseRegistrationResponse in E1. destruct (_ && _); [done|]. destruct (decode_members _); [|done]. repeat (case_match; try done). injection E1 as <-.
  unfold complete_registration in *. rewrite H5. by destruct (_ && _).
Qed.
Lemma client_ok origin net files now a meta st st' rc name : 
  resolveClient origin net a meta (if re_match ValidServerName name then f_registration files else Err (InvalidServerName name)) (f_saved files) now st = (st', Ok rc) ->
  client_of files now a (Issuer meta) (a_TokenURL a) rc.
Proof.
  unfold resolveClient. destruct (String.eqb_spec (a_ClientID a) "") as [Hid|Hid]; cbn [negb].
  - assert (forall st st' rc, done (with_client a ClientMetadataURL (a_ClientSecret a) (TokenEndpointAuthMethod a), {| lc_ID := ClientMetadataURL; Configured := false; lc_Secret := ""; lc_AuthMethod := "" |}, None) st = (st', Ok rc) ->
      client_of files now a (Issuer meta) (a_TokenURL a) rc) as Hdoc by (intros st1 st2 rc' [_ <-]%done_ok; right; split_and!; try done; by left).
    destruct (if re_match ValidServerName name then _ else _) as [reg|e] eqn:Ef.
    + destruct (registrationUsable reg meta a now) eqn:Er; [|destruct (CanUseClientMetadataDocument a meta); [apply Hdoc|by apply dynamic_ok]].
      intros H. inv_run H. apply done_ok in H as [_ <-]. apply lift_ok in E as [_ E]. apply registration_ok in E as (_ & H2 & H3 & H4 & H5).
      destruct (re_match ValidServerName name); [|done]. right. split_and!; try done. right. left. exists reg. unfold registrationUsable in Er. destruct (_ || _ || _) eqn:E; [done|].
      rewrite !orb_false_iff, !negb_false_iff in E. destruct E as [[_ E1%String.eqb_eq] E2%String.eqb_eq]. split_and!; try done. apply orb_true_iff in Er as [?%String.eqb_eq|?]; auto.
    + destruct (IsNotFound e); [|done]. cbn [negb]. destruct (CanUseClientMetadataDocument a meta); [apply Hdoc|by apply dynamic_ok].
  - intros H. inv_run H. apply done_ok in H as [_ <-]. apply lift_ok in E as [_ E]. left. split_and!; try done. unfold validateConfiguredIssuer in E.
    destruct (String.eqb_spec (a_Issuer a) (Issuer meta)); [by left|]. destruct (String.eqb_spec (a_Issuer a) ""); [|done]. right. split; [done|].
    destruct (CIMDSupported meta); [|done]. cbn [andb] in E. destruct (portableClientID a) eqn:Ep; [|done]. unfold portableClientID in Ep. destruct (Parse _); [|done]. rewrite !andb_true_iff in Ep.
    by destruct Ep as [[_ ?%String.eqb_eq] _].
Qed.

Lemma step_up_keeps ch saved a issuer : let a' := step_up ch saved a issuer in
  a_ClientID a' = a_ClientID a /\ a_Issuer a' = a_Issuer a /\ a_ClientSecret a' = a_ClientSecret a /\ a_TokenURL a' = a_TokenURL a.
Proof. unfold step_up, mergePreviousScopes. destruct ch as [c|]; [|done]. destruct (_ =? _); [|done]. destruct saved as [l|]; [|done]. by destruct (_ && _). Qed.
Lemma clear_keeps a : let a' := clearSecretWithoutClientID a in
  a_ClientID a' = a_ClientID a /\ a_Issuer a' = a_Issuer a /\ a_TokenURL a' = a_TokenURL a /\ (a_ClientID a <> "" -> a_ClientSecret a' = a_ClientSecret a).
Proof. unfold clearSecretWithoutClientID. destruct (String.eqb_spec (a_ClientID a) ""); [|done]. cbn. by split_and!. Qed.


(** *** Witnesses: a private server, its authorization server on another private host *)
Definition sample_auth : AuthConfig :=
  {| a_Type := AuthTypeOAuth2; a_Token := ""; a_Header := ""; a_Issuer := ""; a_ClientID := ""; a_ClientSecret := ""; AuthURL := ""; a_TokenURL := ""; a_Scopes := [];
     TokenEndpointAuthMethod := ""; ResourceURL := ""; CallbackPort := 0; ExtraAuthParams := ∅; BrowserCmd := "" |}.
Definition sample_server : ServerConfig := {| sc_Name := "s"; sc_URL := "http://127.0.0.1:8080/mcp"; sc_Auth := Some sample_auth; AgentAdded := false; UnsetEnv := None |}.
Definition sample_files : auth_files := {| f_challenge := Err NotExist; f_login := Err NotExist; f_registration := Err NotExist; f_saved := fun _ => Ok tt |}.
Definition text_member (k v : string) : string := q k +:+ ":" +:+ q v.
Definition prm_document : string := "{" +:+ text_member "resource" "http://127.0.0.1:8080/mcp" +:+ "," +:+ q "authorization_servers" +:+ ":[" +:+ q "http://10.0.0.2" +:+ "]}".
Definition as_document : string :=
  "{" +:+ text_member "issuer" "http://10.0.0.2" +:+ "," +:+ text_member "authorization_endpoint" "http://10.0.0.2/a" +:+ "," +:+ text_member "token_endpoint" "http://10.0.0.2/t" +:+ "," +:+
  text_member "registration_endpoint" "http://10.0.0.2/r" +:+ "," +:+ q "code_challenge_methods_supported" +:+ ":[" +:+ q "S256" +:+ "]}".
Definition registration_document : string := "{" +:+ text_member "client_id" "c" +:+ "," +:+ text_member "client_secret" "x" +:+ "}".
Definition sample_net (_ : list request) (r : request) : res string response :=
  let json (text : string) := Ok {| status := 200; media := Some "application/json"; body := text |} in
  if String.eqb (target r) "http://127.0.0.1:8080/.well-known/oauth-protected-resource/mcp" then json prm_document
  else if String.eqb (target r) "http://10.0.0.2/.well-known/oauth-authorization-server" then json as_document
  else if String.eqb (target r) "http://10.0.0.2/r" then json registration_document
  else Err "unreachable".
Definition same_rune (r : Z) : Z := r.
Definition no_lookup (_ : string) : res string (list IP) := Err "no such host".
Definition sample_run : flow_state * res auth_error resolvedLogin :=
  resolveEndpoints same_rune (newOAuthHTTPFlow no_lookup sample_server) sample_net (fun _ => []) (fun _ => None) sample_server sample_files 0 initial_state.

Lemma private_network_guarded_witness :
  map via (sent (fst sample_run)) = [Pinned; PrivateNetwork; PrivateNetwork] /\ contacted sample_net (take 1 (sent (fst sample_run))).
Proof.
  split; [vm_compute; reflexivity|].
  assert (exists req, sent (fst sample_run) !! 1%nat = Some req /\ via req = PrivateNetwork) as (req & Hreq & Hv) by (eexists; split; vm_compute; reflexivity).
  assert (sent (fst sample_run) = take 1 (sent (fst sample_run)) ++ req :: drop 2 (sent (fst sample_run))) as Hsplit by (rewrite (take_drop_middle _ _ _ Hreq); reflexivity).
  assert (via req <> Strict) as Hs by congruence.
  destruct (private_network_guarded same_rune no_lookup sample_net (fun _ => []) (fun _ => None) sample_server sample_files 0 (fst sample_run) (snd sample_run) _ _ _ (surjective_pairing sample_run) Hsplit Hs) as (_ & o & _ & _ & _ & _ & H).
  exact (H Hv).
Defined.

(** A configured issuer is not looked at while the client is resolved when no client is
    configured: the login is made, and only then found not to fit. *)
Example issuer_checked_late :
  let a := with_resource sample_auth "https://other.example" "" in
  let sc := {| sc_Name := "s"; sc_URL := "http://127.0.0.1:8080/mcp"; sc_Auth := Some a; AgentAdded := false; UnsetEnv := None |} in
  match snd (resolveEndpoints same_rune (newOAuthHTTPFlow no_lookup sc) sample_net (fun _ => []) (fun _ => None) sc sample_files 0 initial_state) with
  | Ok r => MatchesConfig same_rune (loginSnapshot r) sc
  | Err e => Ok tt
  end = Err IssuerChanged.
Proof. vm_compute. reflexivity. Qed.
