(* ===== verification/ToolsList.v ===== *)
(** * Lists of upstream tools (src/internal/transport/tools_list.go)

    The lifetime an upstream gives its list, and the pagination that collects it.  Times
    are nanoseconds since Go's zero [time.Time]; a tool definition is opaque here. *)
From S2P Require Import Prelude GoStr GoStd JsonText JsonToken.

Definition maxToolsListPages : nat := 10.

(** ** Freshness *)
Record Freshness : Type := { managed : bool; until : Z }.
Definition unmanaged : Freshness := {| managed := false; until := 0 |}.

#[global] Instance Freshness_eq_dec : EqDecision Freshness.
Proof. solve_decision. Defined.

Definition Stale (f : Freshness) (now : Z) : bool := managed f && negb (now <? until f).
Definition Expire (f : Freshness) : Freshness := if managed f then {| managed := true; until := 0 |} else f.
Definition combine (f page : Freshness) : Freshness :=
  if negb (managed f) || negb (managed page) then unmanaged
  else if until page <? until f then page
  else f.

(** A list is good at [now] when the upstream gave it a lifetime and it has not run out. *)
Definition fresh_at (now : Z) (f : Freshness) : bool := managed f && (now <? until f).

Lemma fresh_not_stale now f : fresh_at now f = true -> Stale f now = false.
Proof. unfold fresh_at, Stale. destruct (managed f), (now <? until f); done. Qed.
Lemma managed_fresh now f : managed f = true -> fresh_at now f = negb (Stale f now).
Proof. unfold fresh_at, Stale. intros ->. by destruct (now <? until f). Qed.
Lemma fresh_combine now f p : fresh_at now (combine f p) = fresh_at now f && fresh_at now p.
Proof.
  unfold combine, fresh_at. destruct (managed f) eqn:Hf, (managed p) eqn:Hp; simpl; rewrite ?Hf, ?Hp, ?andb_false_r; try done.
  destruct (Z.ltb_spec (until p) (until f)); rewrite ?Hf, ?Hp; simpl;
    destruct (Z.ltb_spec now (until f)), (Z.ltb_spec now (until p)); simpl; done || lia.
Qed.
Lemma Expire_not_fresh now f : 0 <= now -> fresh_at now (Expire f) = false.
Proof. unfold Expire, fresh_at. destruct (managed f) eqn:Hf; simpl; rewrite ?Hf; [intros; simpl; by apply Z.ltb_ge|done]. Qed.
Lemma Expire_managed f : managed (Expire f) = managed f.
Proof. unfold Expire. destruct (managed f) eqn:E; done. Qed.
#[export] Hint Rewrite fresh_combine Expire_managed : fresh.

(** ** The lifetime of a page *)

(** [json.Unmarshal] into an [int64]: [null] leaves the zero, any other value than an
    integer that fits is an error. *)
Definition unmarshal_int64 (raw : string) : option Z :=
  if json_valid raw then
    match decode_scalar (skip_ws raw) with
    | Some (JNull, _) => Some 0
    | Some (JNumber n, _) => ParseInt n
    | _ => None
    end
  else None.

Definition millisecond : Z := 1000000.

Definition ttlDuration (raw : string) : Z :=
  match unmarshal_int64 raw with
  | None => 0
  | Some millis => if (millis <? 0) || (int64_max / millisecond <? millis) then 0 else wrap64 (millis * millisecond)
  end.

Example ttl_minute : ttlDuration "60000" = 60000000000. Proof. vm_compute. reflexivity. Qed.
Example ttl_missing : ttlDuration "" = 0. Proof. vm_compute. reflexivity. Qed.
Example ttl_malformed : ttlDuration "1.5" = 0. Proof. vm_compute. reflexivity. Qed.

Lemma ttlDuration_range raw : 0 <= ttlDuration raw <= int64_max.
Proof.
  unfold ttlDuration, int64_max, millisecond. destruct (unmarshal_int64 raw) as [m|]; [|lia].
  destruct (Z.ltb_spec m 0); [simpl; lia|]. destruct (Z.ltb_spec ((2 ^ 63 - 1) / 1000000) m); [simpl; lia|]. simpl.
  assert (m * 1000000 <= 2 ^ 63 - 1) by (pose proof (Z.mul_div_le (2 ^ 63 - 1) 1000000); lia).
  rewrite wrap64_id; unfold int64_max, int64_min; lia.
Qed.

Lemma ttlDuration_exact raw m : unmarshal_int64 raw = Some m -> 0 <= m -> m * millisecond <= int64_max ->
  ttlDuration raw = m * millisecond.
Proof.
  unfold ttlDuration, int64_max, millisecond. intros -> Hm Hb. rewrite (proj2 (Z.ltb_ge _ _)) by done.
  rewrite (proj2 (Z.ltb_ge _ _)) by (apply Z.div_le_lower_bound; lia). simpl. apply wrap64_id. unfold int64_max, int64_min. lia.
Qed.

Section Pages.
Context {Tool : Type}.

Record ToolList : Type := { Tools : list Tool; freshness : Freshness }.
Record toolsListPage : Type := { page_tools : list Tool; NextCursor : string; page_freshness : Freshness }.

Definition no_tools : ToolList := {| Tools := []; freshness := unmanaged |}.

(** What [decodeToolsListPage] makes of a decoded result. *)
Definition decoded_page (tools : list Tool) (next ttl_raw : string) (received : Z) (modernVersion : string) : toolsListPage :=
  {| page_tools := tools; NextCursor := next;
     page_freshness := if String.eqb modernVersion "" then unmanaged
                       else {| managed := true; until := received + ttlDuration ttl_raw |} |}.

Definition addPage (l : ToolList) (index : nat) (page : toolsListPage) : ToolList :=
  {| Tools := Tools l ++ page_tools page;
     freshness := if Nat.eqb index 0 then page_freshness page else combine (freshness l) (page_freshness page) |}.

Definition expireIncomplete (l : ToolList) : ToolList := {| Tools := Tools l; freshness := Expire (freshness l) |}.

Definition advanceCursor (seen : gset string) (next : string) : option (gset string * string) :=
  if String.eqb next "" then None
  else if decide (next ∈ seen) then None
  else Some ({[next]} ∪ seen, next).

(** What a failed call reports: its error, and whether the request's context has ended. *)
Record call_error : Type := { reason : string; ctx_done : bool }.

Definition partialOrError (l : ToolList) (e : call_error) : res string ToolList :=
  if negb (Nat.eqb (List.length (Tools l)) 0) && negb (ctx_done e) then Ok (expireIncomplete l) else Err (reason e).

(** The upstream: its answer to the call with a cursor, given the cursors asked before. *)
Variable callPage : list string -> string -> res call_error toolsListPage.

(** The loop: [n] iterations are left of the [maxToolsListPages]; [asked] is the trace of the
    cursors sent so far. *)
Fixpoint paginate_from (n index : nat) (l : ToolList) (cursor : string) (seen : gset string) (asked : list string)
  : res string ToolList * list string :=
  match n with
  | O => (Ok (expireIncomplete l), asked)
  | S n =>
      let asked' := asked ++ [cursor] in
      match callPage asked cursor with
      | Err e => (partialOrError l e, asked')
      | Ok page =>
          let l := addPage l index page in
          if String.eqb (NextCursor page) "" then (Ok l, asked')
          else
            match advanceCursor seen (NextCursor page) with
            | None => (Ok (expireIncomplete l), asked')
            | Some (seen, next) => paginate_from n (S index) l next seen asked'
            end
      end
  end.

Definition paginateToolsList : res string ToolList * list string :=
  paginate_from maxToolsListPages 0 no_tools "" ∅ [].

(** ** What was read *)

(** The pages answered to the cursors asked. *)
Inductive answered : list string -> list toolsListPage -> Prop :=
| answered_nil : answered [] []
| answered_snoc asked pages cursor page :
    answered asked pages -> callPage asked cursor = Ok page -> answered (asked ++ [cursor]) (pages ++ [page]).

Definition complete (pages : list toolsListPage) : Prop := exists pages' page, pages = pages' ++ [page] /\ NextCursor page = "".

(** The list holds what the pages hold, and is good only as long as each of them. *)
Record collects (l : ToolList) (pages : list toolsListPage) : Prop := {
  c_tools : Tools l = concat (map page_tools pages);
  c_fresh : forall now, fresh_at now (freshness l) = negb (bool_decide (pages = [])) && forallb (fun p => fresh_at now (page_freshness p)) pages
}.

Lemma collects_add l pages page : collects l pages -> collects (addPage l (List.length pages) page) (pages ++ [page]).
Proof.
  intros [Ht Hf]. split; cbn [addPage Tools freshness].
  - by rewrite Ht, map_app, concat_app; simpl; rewrite app_nil_r.
  - intros now. rewrite forallb_app. cbn. rewrite (bool_decide_eq_false_2 (pages ++ [page] = [])) by (by destruct pages).
    rewrite andb_true_r. destruct pages as [|p pages]; [done|]. cbn [List.length Nat.eqb].
    by rewrite fresh_combine, Hf.
Qed.

Lemma collects_expire l pages : collects l pages -> Tools (expireIncomplete l) = concat (map page_tools pages) /\
  forall now, 0 <= now -> fresh_at now (freshness (expireIncomplete l)) = false.
Proof. intros [Ht _]. split; [done|]. intros. by apply Expire_not_fresh. Qed.

(** What holds of the loop's variables, and of its result. *)
Record loop_inv (l : ToolList) (cursor : string) (seen : gset string) (asked : list string) (pages : list toolsListPage) : Prop := {
  v_answered : answered asked pages;
  v_collects : collects l pages;
  v_seen : forall c, c ∈ asked ++ [cursor] <-> c = "" \/ c ∈ seen;
  v_nodup : NoDup (asked ++ [cursor])
}.

Definition result_ok (r : res string ToolList) (asked : list string) : Prop :=
  match r with
  | Ok l => exists pages asked', answered asked' pages /\ (asked = asked' \/ exists c, asked = asked' ++ [c]) /\
      Tools l = concat (map page_tools pages) /\
      forall now, 0 <= now -> fresh_at now (freshness l) = true ->
        complete pages /\ forallb (fun p => fresh_at now (page_freshness p)) pages = true
  | Err e => exists pages asked' c d, answered asked' pages /\ asked = asked' ++ [c] /\
      callPage asked' c = Err {| reason := e; ctx_done := d |} /\ (d = true \/ concat (map page_tools pages) = [])
  end.

Lemma answered_length asked pages : answered asked pages -> List.length asked = List.length pages.
Proof. induction 1; [done|]. rewrite !length_app. simpl. lia. Qed.

Lemma paginate_from_ok n : forall l cursor seen asked pages,
  loop_inv l cursor seen asked pages ->
  let '(r, asked') := paginate_from n (List.length pages) l cursor seen asked in
  NoDup asked' /\ (List.length asked' <= List.length asked + n)%nat /\ result_ok r asked'.
Proof.
  induction n as [|n IH]; intros l cursor seen asked pages [Ha Hc Hs Hd]; cbn [paginate_from].
  { apply NoDup_app in Hd as Hd'. destruct Hd' as (Hd' & _ & _). split; [done|]. split; [lia|].
    destruct (collects_expire l pages Hc) as [Ht Hf]. exists pages, asked. split; [done|]. split; [by left|]. split; [done|].
    intros now Hn Hfr. by rewrite Hf in Hfr. }
  assert (List.length (asked ++ [cursor]) <= List.length asked + S n)%nat as Hlen by (rewrite length_app; simpl; lia).
  destruct (callPage asked cursor) as [page|e] eqn:Ecall.
  - assert (answered (asked ++ [cursor]) (pages ++ [page])) as Ha' by by constructor.
    pose proof (collects_add l pages page Hc) as Hc'. destruct (String.eqb_spec (NextCursor page) "") as [En|En].
    + split; [done|]. split; [done|]. exists (pages ++ [page]), (asked ++ [cursor]). split; [done|]. split; [by left|].
      split; [by apply c_tools|]. intros now Hn Hfr. rewrite (c_fresh _ _ Hc') in Hfr. apply andb_true_iff in Hfr as [_ Hfr].
      split; [by exists pages, page|done].
    + unfold advanceCursor. rewrite (proj2 (String.eqb_neq _ _)) by done. destruct (decide (NextCursor page ∈ seen)) as [Hin|Hin].
      * split; [done|]. split; [done|]. destruct (collects_expire _ _ Hc') as [Ht Hf]. exists (pages ++ [page]), (asked ++ [cursor]).
        split; [done|]. split; [by left|]. split; [done|]. intros now Hn Hfr. by rewrite Hf in Hfr.
      * specialize (IH (addPage l (List.length pages) page) (NextCursor page) ({[NextCursor page]} ∪ seen) (asked ++ [cursor]) (pages ++ [page])).
        rewrite length_app in IH. cbn [List.length] in IH. rewrite Nat.add_1_r in IH.
        destruct (paginate_from _ _ _ _ _ _) as [r asked'].
        destruct IH as (H1 & H2 & H3); [|split; [done|]; split; [rewrite length_app in H2; simpl in H2; lia|done]].
        split; [done|done| |].
        -- intros c. rewrite elem_of_app, Hs, list_elem_of_singleton, elem_of_union, elem_of_singleton. tauto.
        -- apply NoDup_app. split; [done|]. split; [|apply NoDup_singleton]. intros c Hcin Hc2. apply list_elem_of_singleton in Hc2 as ->.
           apply Hs in Hcin as [?|?]; done.
  - split; [done|]. split; [done|]. unfold partialOrError.
    destruct (List.length (Tools l)) eqn:El, (ctx_done e) eqn:Ed; cbn [Nat.eqb negb andb].
    all: try (exists pages, asked, cursor, (ctx_done e); rewrite Ecall; destruct e as [? ?]; cbn in *;
      repeat (split; [done|]); first [by left|right; rewrite <- (c_tools _ _ Hc); by apply nil_length_inv]).
    destruct (collects_expire l pages Hc) as [Ht Hf]. exists pages, asked. split; [done|]. split; [right; by exists cursor|]. split; [done|].
    intros now Hn Hfr. by rewrite Hf in Hfr.
Qed.

(** collecting the tool list of an upstream always ends: at most ten pages are asked for
    and never the same cursor twice.  The list returned holds the tools of the pages that
    were answered, in order; the list counts as fresh at some time only when it is complete
    (the last page named no further one) and every page it came from is still fresh then.
    A failure is reported only for a call that failed, with nothing collected or with the
    request cancelled. *)
Theorem paginate_spec :
  let '(r, asked) := paginateToolsList in
  (List.length asked <= maxToolsListPages)%nat /\ NoDup asked /\ result_ok r asked.
Proof.
  pose proof (paginate_from_ok maxToolsListPages no_tools "" ∅ [] []) as H. unfold paginateToolsList. cbn [List.length] in H.
  destruct (paginate_from _ _ _ _ _ _) as [r asked].
  destruct H as (H1 & H2 & H3); [|by split_and!]. split; [constructor|split; [done|]| |].
  - intros now. cbn. done.
  - intros c. cbn. rewrite list_elem_of_singleton. split; [by left|]. by intros [?|?%elem_of_empty].
  - apply NoDup_singleton.
Qed.
End Pages.
#[global] Arguments ToolList : clear implicits.
#[global] Arguments toolsListPage : clear implicits.

(** A server of three pages, the last of which names a page already seen. *)
Example paginate_loop :
  paginateToolsList (fun asked c =>
    Ok (if String.eqb c "" then decoded_page [1] "a" "1000" 5 "2026-07-28"
        else if String.eqb c "a" then decoded_page [2] "b" "500" 5 "2026-07-28"
        else decoded_page [3] "a" "1000" 5 "2026-07-28"))
  = (Ok {| Tools := [1; 2; 3]; freshness := {| managed := true; until := 0 |} |}, [""; "a"; "b"]).
Proof. vm_compute. reflexivity. Qed.
