(* ===== verification/Rpc.v ===== *)
(** * Messages of an upstream server (src/internal/transport/mcp.go, mcputil.go, subscriptions.go,
      discover.go)

    What [encoding/json] makes of a line a server writes, the numbers requests are known by,
    and what the answer to [server/discover] says about the protocol to use. *)
From S2P Require Import Prelude GoStr Utf8 Float64 Config GoStd Content JsonText JsonToken Projection JsonObject JsonTree RequestMeta ResultDoc ToolsList.

(** ** Values of any type *)

(** A number becomes a [float64]; one too large for it is an error of the whole. *)
Fixpoint floats_ok (v : json) : bool :=
  match v with
  | JNum n => match parse_float n with POk _ => true | _ => false end
  | JArr l => forallb floats_ok l
  | JObj fs => forallb (fun kv => floats_ok (snd kv)) fs
  | _ => true
  end.
Definition unmarshal_any (_ : json) (raw : string) : option json :=
  match decodeJSONValue raw with Some v => if floats_ok v then Some v else None | None => None end.
(** [map[string]any], [[]string], [int]: [null] is nil, or changes nothing. *)
Definition unmarshal_object (_ : json) (raw : string) : option json :=
  match unmarshal_any JNull raw with Some (JObj fs) => Some (JObj fs) | Some JNull => Some JNull | _ => None end.
Definition unmarshal_names (_ : option (list string)) (raw : string) : option (option (list string)) :=
  match shape_of raw with Some NullShape => Some None | _ => option_map Some (unmarshal_list (unmarshal_string "") raw) end.
Definition unmarshal_int (old : Z) (raw : string) : option Z :=
  match decode_scalar (skip_ws raw) with
  | Some (JNumber n, _) => ParseInt n
  | Some (JsonToken.JNull, _) => Some old
  | _ => None
  end.

(** ** Messages *)
Record RPCError : Type := { Code : Z; Message : string; Data : string (* raw *) }.
Record Response : Type := { ID : json (* [JNull]: nil *); Result : string (* raw *); Error : option RPCError }.
Record Notification : Type := { n_Method : string; n_Params : string (* raw *) }.

Definition into_error (old : RPCError) (raw : string) : option RPCError :=
  match struct_members raw with
  | None => None
  | Some ms =>
      match typed_field unmarshal_int (Code old) "code" ms, typed_field unmarshal_string (Message old) "message" ms, typed_field into_raw (Data old) "data" ms with
      | Some c, Some m, Some d => Some {| Code := c; Message := m; Data := d |}
      | _, _, _ => None
      end
  end.
(** A line read as a response and a method. *)
Definition decode_message (line : string) : option (Response * string) :=
  match struct_members line with
  | None => None
  | Some ms =>
      match string_field "jsonrpc" ms, typed_field unmarshal_any JNull "id" ms, typed_field (into_pointer into_error {| Code := 0; Message := ""; Data := "" |}) None "error" ms, string_field "method" ms with
      | Some _, Some id, Some err, Some m => Some ({| ID := id; Result := raw_field "result" ms; Error := err |}, m)
      | _, _, _, _ => None
      end
  end.
Definition decode_notification (line : string) : option Notification :=
  match struct_members line with
  | None => None
  | Some ms =>
      match string_field "jsonrpc" ms, string_field "method" ms with
      | Some _, Some m => Some {| n_Method := m; n_Params := raw_field "params" ms |}
      | _, _ => None
      end
  end.

(** *** Subscriptions (subscriptions.go) *)
Record SubscriptionAckParams : Type := { SubscriptionID : string (* raw *); ToolsListChanged : bool }.
Definition into_subscription (old raw : string) : option string :=
  match struct_members raw with None => None | Some ms => typed_field into_raw old "io.modelcontextprotocol/subscriptionId" ms end.
Definition into_list_changed (field : string) (old : bool) (raw : string) : option bool :=
  match struct_members raw with None => None | Some ms => typed_field unmarshal_bool old field ms end.
Definition decode_ack (raw : string) : option SubscriptionAckParams :=
  match struct_members raw with
  | None => None
  | Some ms =>
      match typed_field into_subscription "" "_meta" ms, typed_field (into_list_changed "toolsListChanged") false "notifications" ms with
      | Some id, Some changed => Some {| SubscriptionID := id; ToolsListChanged := changed |}
      | _, _ => None
      end
  end.
Definition decode_subscription (raw : string) : option string := match struct_members raw with None => None | Some ms => typed_field into_subscription "" "_meta" ms end.
Definition decode_cancelled (raw : string) : option string := match struct_members raw with None => None | Some ms => typed_field into_raw "" "requestId" ms end.

(** ** Numbers of requests (mcputil.go) *)
Section ids.
(** The conversion of a [float64] outside the range of [int64] is left to the processor. *)
Variable out_of_range : float -> Z.

Definition truncated (f : float) : Z :=
  let m := if 0 <=? f_exp f then f_mant f * 2 ^ f_exp f else f_mant f / 2 ^ (- f_exp f) in
  if f_neg f then - m else m.
Definition int64_of_float (f : float) : Z :=
  let z := truncated f in
  if (int64_min <=? z) && (z <=? int64_max) then z else out_of_range f.

(** As a key of the map of calls: a number, a value no call is known by, or one that cannot be a key. *)
Inductive map_key : Type := Number (n : Z) | NoCall | Unhashable.
Definition normalizeID (id : json) : map_key :=
  match id with
  | JNum n => match parse_float n with POk f => Number (int64_of_float f) | _ => NoCall end
  | JArr _ | JObj _ => Unhashable
  | _ => NoCall
  end.
End ids.
(** The text of a raw id is that of the number. *)
Definition sameJSONID (raw : string) (id : Z) : bool := String.eqb (TrimSpace raw) (itoa id).

(** ** The era of a server (discover.go) *)
Inductive Era : Type := EraLegacy | EraModern.
Record probeVerdict : Type := { era : Era; v_version : string; v_listen : bool }.
Inductive discover_error : Type :=
| ModernRejected (e : RPCError) | VersionsNotShared (supported : list string) (requested : string) | InvalidResult (e : meta_error) | AskedForInput
| NotInitializeResult | LegacyNotSupported (version : string) | NoVersionsListed (requested : string).

Definition CodeHeaderMismatch : Z := -32020.
Definition CodeMissingRequiredClientCapability : Z := -32021.
Definition CodeUnsupportedProtocolVersion : Z := -32022.
Definition CodeMethodNotFound : Z := -32601.

Definition legacyProbeVerdict : probeVerdict := {| era := EraLegacy; v_version := ""; v_listen := false |}.
Definition sharedVersionVerdict (supported : list string) : option probeVerdict :=
  match List.find (fun v => existsb (String.eqb v) supported) ModernVersions with
  | Some version => Some {| era := EraModern; v_version := version; v_listen := false |}
  | None => if existsb IsLegacyVersion supported then Some legacyProbeVerdict else None
  end.
(** The versions listed, and the version the server says was asked for. *)
Definition unsupportedVersionError (supported : list string) (echoed requested : string) : discover_error :=
  VersionsNotShared supported (if String.eqb echoed "" then requested else echoed).

Definition discoverSupportedVersions (raw : string) : option (list string) :=
  match struct_members raw with
  | None => None
  | Some ms => match typed_field unmarshal_names None "supportedVersions" ms with Some (Some versions) => Some versions | _ => None end
  end.
Definition requireCompleteResult (raw : string) : res discover_error unit :=
  match ResultTypeOf raw with
  | Err e => Err (InvalidResult e)
  | Ok ResultInputRequired => Err AskedForInput
  | Ok ResultComplete => Ok tt
  end.

Definition into_server_info (old : ClientInfo) (raw : string) : option ClientInfo := into_clientInfo old raw (* the same members *).
Definition into_discover_meta (old : ClientInfo) (raw : string) : option ClientInfo :=
  match struct_members raw with None => None | Some ms => typed_field into_server_info old "io.modelcontextprotocol/serverInfo" ms end.
Definition into_server_capabilities (old : option bool) (raw : string) : option (option bool) :=
  match struct_members raw with None => None | Some ms => typed_field (into_pointer (into_list_changed "listChanged") false) old "tools" ms end.
(** [DiscoverResult]: whether it announces changes of its tools; every member must have its type. *)
Definition decode_discover (raw : string) : option bool :=
  match struct_members raw with
  | None => None
  | Some ms =>
      match string_field "resultType" ms, typed_field unmarshal_names None "supportedVersions" ms, typed_field into_server_capabilities None "capabilities" ms, string_field "instructions" ms,
            typed_field (into_pointer into_discover_meta {| Name := ""; ci_Version := "" |}) None "_meta" ms, typed_field unmarshal_int 0 "ttlMs" ms, string_field "cacheScope" ms with
      | Some _, Some _, Some tools, Some _, Some _, Some _, Some _ => Some (default false tools)
      | _, _, _, _, _, _, _ => None
      end
  end.
Definition classifyDiscoverResult (result requested : string) : res discover_error probeVerdict :=
  match discoverSupportedVersions result with
  | None => Ok legacyProbeVerdict
  | Some versions =>
      match sharedVersionVerdict versions with
      | None => Err (unsupportedVersionError versions "" requested)
      | Some verdict =>
          match era verdict with
          | EraLegacy => Ok verdict
          | EraModern =>
              let* _ := requireCompleteResult result in
              match decode_discover result with
              | None => Ok legacyProbeVerdict
              | Some listen => Ok {| era := EraModern; v_version := v_version verdict; v_listen := listen |}
              end
          end
      end
  end.

(** What decodes of the data of an error is used: an element of another type is left empty, a
    member of another type as it was. *)
Definition usable_names (old : list string) (raw : string) : list string :=
  match shape_of raw with
  | Some NullShape => []
  | _ => default old (unmarshal_list (fun x => Some (default "" (unmarshal_string "" x))) raw)
  end.
Definition decodeUnsupportedVersionData (raw : string) : list string * string :=
  match struct_members raw with
  | None => ([], "")
  | Some ms => (default [] (typed_field (fun old raw => Some (usable_names old raw)) [] "supported" ms), default "" (typed_field (fun old raw => Some (default old (unmarshal_string old raw))) "" "requested" ms))
  end.
Definition isModernRejection (code : Z) : bool := (code =? CodeHeaderMismatch) || (code =? CodeMissingRequiredClientCapability).
Definition classifyDiscoverRejection (e : RPCError) (requested : string) : res discover_error probeVerdict :=
  if isModernRejection (Code e) then Err (ModernRejected e)
  else if negb (Code e =? CodeUnsupportedProtocolVersion) then Ok legacyProbeVerdict
  else
    let (supported, echoed) := decodeUnsupportedVersionData (Data e) in
    match sharedVersionVerdict supported with
    | Some verdict => Ok verdict
    | None => Err (unsupportedVersionError supported echoed requested)
    end.

(** The answer to [initialize]: every member of its type, and a version mini speaks. *)
Definition parseInitializeResult (raw : string) : res discover_error string :=
  match struct_members raw with
  | None => Err NotInitializeResult
  | Some ms =>
      match string_field "protocolVersion" ms, typed_field unmarshal_object JNull "capabilities" ms, typed_field into_server_info {| Name := ""; ci_Version := "" |} "serverInfo" ms, string_field "instructions" ms with
      | Some v, Some _, Some _, Some _ => if IsLegacyVersion v then Ok v else Err (LegacyNotSupported v)
      | _, _, _, _ => Err NotInitializeResult
      end
  end.

(** ** What a number a server echoes is read as *)
Lemma read_digits_value s acc n m : dec_value s acc = Some m -> read_digits s acc n = (m, n + slen s, "").
Proof.
  revert acc n. induction s as [|c s IH]; intros acc n; cbn [dec_value read_digits]; [intros [= ->]; by rewrite Z.add_0_r|].
  destruct (is_digit c); [|done]. intros H. rewrite (IH _ (n + 1) H). unfold slen. cbn [String.length]. do 2 f_equal. lia.
Qed.
Lemma round_float_small n : 0 < n < 2 ^ 53 -> exists e, e <= 0 /\ round_float n 1 = Some (n * 2 ^ (- e), e).
Proof.
  intros Hn. assert (0 <= Z.log2 n < 53) as Hlog by (split; [apply Z.log2_nonneg|apply Z.log2_lt_pow2; lia]). set (e := Z.log2 n - 52). exists e. split; [lia|].
  unfold round_float. change (Z.log2 1) with 0. rewrite Z.sub_0_r. fold e.
  assert (n * 2 ^ (- e) < 2 ^ 53 /\ 2 ^ 52 <= n * 2 ^ (- e)) as [Hub Hlb].
  { destruct (Z.log2_spec n ltac:(lia)) as [H1 H2]. assert (2 ^ 53 = 2 ^ Z.succ (Z.log2 n) * 2 ^ (- e)) as E1 by (rewrite <- Z.pow_add_r by lia; f_equal; lia).
    assert (2 ^ 52 = 2 ^ Z.log2 n * 2 ^ (- e)) as E2 by (rewrite <- Z.pow_add_r by lia; f_equal; lia). rewrite E1, E2. pose proof (Z.pow_pos_nonneg 2 (- e) ltac:(lia) ltac:(lia)). nia. }
  assert (scale2 n 1 e = (n * 2 ^ (- e), 1)) as Hs.
  { unfold scale2. destruct (Z.leb_spec 0 e); [|done]. assert (e = 0) as -> by lia. change (2 ^ (- 0)) with 1. change (1 * 2 ^ 0) with 1. by rewrite Z.mul_1_r. }
  rewrite Hs. destruct (Z.ltb_spec (n * 2 ^ (- e)) (2 ^ 52 * 1)); [lia|]. rewrite Z.max_l by lia. rewrite Hs, Z.div_1_r, Z.mod_1_r.
  change ((1 <? 2 * 0) || (2 * 0 =? 1) && Z.odd (n * 2 ^ (- e))) with false. cbv iota. destruct (Z.eqb_spec (n * 2 ^ (- e)) (2 ^ 53)); [lia|]. destruct (Z.ltb_spec 971 e); [lia|done].
Qed.
Lemma truncated_scaled n e : 0 < n -> e <= 0 -> truncated (MkFloat false (n * 2 ^ (- e)) e) = n.
Proof.
  intros Hn He. unfold truncated. cbn [f_exp f_mant f_neg]. destruct (Z.leb_spec 0 e).
  - assert (e = 0) as -> by lia. change (2 ^ (- 0)) with 1. change (2 ^ 0) with 1. by rewrite !Z.mul_1_r.
  - apply Z.div_mul. apply Z.pow_nonzero; lia.
Qed.
Lemma parse_float_small n : 0 < n < 2 ^ 53 -> exists f, parse_float (dec_string n) = POk f /\ truncated f = n.
Proof.
  intros Hn. destruct (round_float_small n Hn) as (e & He & Hr). exists (MkFloat false (n * 2 ^ (- e)) e). split; [|apply truncated_scaled; lia].
  destruct (dec_string_digits n) as [Hd Hne]. destruct (dec_string_pos n ltac:(lia)) as [_ _]. unfold parse_float.
  assert (has_prefix (dec_string n) "-" = false) as Hm by (destruct (dec_string_head n) as (c & s & -> & Hc); cbn [has_prefix]; destruct (Ascii.eqb_spec c "-") as [->|]; [discriminate Hc|]; done).
  unfold trim_prefix. rewrite Hm. rewrite (read_digits_value _ 0 0 n) by (apply dec_string_value; lia).
  assert (0 < slen (dec_string n)) as Hlen by (unfold slen; destruct (dec_string n); [done|cbn [String.length]; lia]). destruct (Z.eqb_spec (0 + slen (dec_string n)) 0); [lia|].
  unfold decimal_to_float. destruct (Z.eqb_spec n 0); [lia|]. change (- 0) with 0. destruct (Z.ltb_spec 310 0); [lia|]. destruct (Z.ltb_spec (0 + (0 + slen (dec_string n))) (-330)); [lia|].
  change (0 <=? 0) with true. cbv iota. rewrite Z.mul_1_r. by rewrite Hr.
Qed.
(** The number of a request, echoed, is its key. *)
Lemma echoed_id out_of_range n : 0 < n < 2 ^ 53 -> normalizeID out_of_range (JNum (dec_string n)) = Number n.
Proof.
  intros Hn. unfold normalizeID. destruct (parse_float_small n Hn) as (f & -> & Ht). unfold int64_of_float. rewrite Ht. unfold int64_min, int64_max.
  destruct (Z.leb_spec (- 2 ^ 63) n); [|lia]. destruct (Z.leb_spec n (2 ^ 63 - 1)); [done|lia].
Qed.
(** A larger number need not be: the nearest [float64] is another one. *)
Example large_ids_collide : normalizeID (fun _ => 0) (JNum (dec_string (2 ^ 53 + 1))) = Number (2 ^ 53).
Proof. vm_compute. reflexivity. Qed.

(** ** What a verdict says *)
Lemma shared_version supported v : sharedVersionVerdict supported = Some v ->
  match era v with EraModern => v_version v ∈ supported /\ v_version v ∈ ModernVersions | EraLegacy => (forall x, x ∈ ModernVersions -> x ∉ supported) /\ exists x, x ∈ supported /\ x ∈ LegacyVersions end.
Proof.
  assert (forall x l, existsb (String.eqb x) l = true <-> x ∈ l) as Hin.
  { intros x l. rewrite existsb_exists. split; [intros (y & Hy & ->%String.eqb_eq); by apply list_elem_of_In|intros Hx; exists x; split; [by apply list_elem_of_In|apply String.eqb_refl]]. }
  unfold sharedVersionVerdict. destruct (List.find _ _) as [m|] eqn:E.
  - intros [= <-]. apply List.find_some in E as [Hm Hs]. cbn. split; [by apply Hin|by apply list_elem_of_In].
  - destruct (existsb IsLegacyVersion supported) eqn:El; [|done]. intros [= <-]. cbn [era legacyProbeVerdict]. split.
    + intros x Hx Hs. apply list_elem_of_In in Hx. apply (List.find_none _ _ E) in Hx. apply Hin in Hs. congruence.
    + apply existsb_exists in El as (x & Hx & Hl). exists x. split; [by apply list_elem_of_In|by apply Hin].
Qed.
Lemma modern_verdict result requested v : classifyDiscoverResult result requested = Ok v -> era v = EraModern ->
  exists versions, discoverSupportedVersions result = Some versions /\ v_version v ∈ versions /\ v_version v ∈ ModernVersions /\ ResultTypeOf result = Ok ResultComplete.
Proof.
  unfold classifyDiscoverResult. destruct (discoverSupportedVersions result) as [versions|]; [|by intros [= <-]]. destruct (sharedVersionVerdict versions) as [w|] eqn:E; [|done]. apply shared_version in E.
  destruct (era w) eqn:Ew; [intros [= <-] H; congruence|]. intros H Hm. inv_ok H. destruct (decode_discover result); [|by injection H as <-]. injection H as <-. exists versions. unfold requireCompleteResult in E0. cbn [v_version].
  destruct E as [E1 E2]. destruct (ResultTypeOf result) as [[]|]; done.
Qed.
