(* ===== verification/Stdio.v ===== *)
(** * A connection to a subprocess (src/internal/transport/stdio.go, stdio_requests.go,
      stdio_inbound.go, stdio_write.go, stdio_subscriptions.go, pending.go,
      tools_changed_notifier.go)

    Calls, replies, cancellations and the subscription run in goroutines of their own; one
    more reads the lines of the server.  They share the map of pending calls, the pipe to the
    server and its gate, the subscription and the notifier.  A goroutine is the point it has
    reached; a step moves one of them across one access to shared state.  A write to the pipe
    is taken to end; how it ends is free. *)
From S2P Require Import Prelude GoStr Float64 Config GoStd JsonText Projection Threads RequestMeta Rpc.

(** ** Pending calls (pending.go) *)

(** A channel of capacity 1; [owner] is the number it was registered under. *)
Record channel : Type := { owner : Z; buffer : list Response }.
Record pendingMap : Type := { pending : gmap Z nat; chans : gmap nat channel; next_chan : nat; nextID : Z }.
Inductive panic : Type := UnhashableKey | CloseOfClosed.

Definition newPendingMap : pendingMap := {| pending := ∅; chans := ∅; next_chan := 0; nextID := 0 |}.
(** The next number, and its channel in the map. *)
Definition register (p : pendingMap) : pendingMap * Z * nat :=
  let id := wrap64 (nextID p + 1) in
  let ch := next_chan p in
  ({| pending := <[id := ch]> (pending p); chans := <[ch := {| owner := id; buffer := [] |}]> (chans p); next_chan := S ch; nextID := id |}, id, ch).
Definition remove (p : pendingMap) (id : Z) : pendingMap * bool :=
  ({| pending := delete id (pending p); chans := chans p; next_chan := next_chan p; nextID := nextID p |}, match pending p !! id with Some _ => true | None => false end).
(** [deliver] up to the send: the channel that waits, taken out of the map. *)
Definition deliver (out_of_range : float -> Z) (p : pendingMap) (rawID : json) : res panic (pendingMap * option nat) :=
  match normalizeID out_of_range rawID with
  | Unhashable => Err UnhashableKey
  | NoCall => Ok (p, None)
  | Number id => Ok (fst (remove p id), pending p !! id)
  end.
Definition get_chan (p : pendingMap) (ch : nat) : channel := default {| owner := 0; buffer := [] |} (chans p !! ch).
Definition set_buffer (p : pendingMap) (ch : nat) (b : list Response) : pendingMap :=
  {| pending := pending p; chans := <[ch := {| owner := owner (get_chan p ch); buffer := b |}]> (chans p); next_chan := next_chan p; nextID := nextID p |}.
(** A send waits while the buffer is full. *)
Definition send (p : pendingMap) (ch : nat) (r : Response) : option pendingMap :=
  match buffer (get_chan p ch) with [] => Some (set_buffer p ch [r]) | _ :: _ => None end.
Definition take_response (p : pendingMap) (ch : nat) : option (pendingMap * Response) :=
  match buffer (get_chan p ch) with [] => None | r :: b => Some (set_buffer p ch b, r) end.

(** ** Notices of changed tools (tools_changed_notifier.go) *)
Record toolsChangedNotifier : Type := { handler : bool; n_pending : bool; notices : nat (* calls of the handler so far *) }.
Definition SetHandler (n : toolsChangedNotifier) (h : bool) : toolsChangedNotifier :=
  {| handler := h; n_pending := false; notices := if n_pending n && h then S (notices n) else notices n |}.
Definition NotifyToolsChanged (n : toolsChangedNotifier) : toolsChangedNotifier :=
  if handler n then {| handler := true; n_pending := n_pending n; notices := S (notices n) |} else {| handler := false; n_pending := true; notices := notices n |}.

(** ** The subscription (stdio_subscriptions.go) *)
Inductive listenState : Type := listenAwaitingAck | listenActive | listenEnded.
(** The two channels are only ever closed. *)
Record stdioSubscription : Type := { requestID : Z; acknowledged : bool; ended : bool; state : listenState }.
(** A connection has one subscription at most; [listen] tells whether the field still holds it. *)
Record subscription_field : Type := { listen : bool; subscription : option stdioSubscription }.

Definition listening (s : subscription_field) : option stdioSubscription := if listen s then subscription s else None.
Definition namedBy (s : stdioSubscription) (id : string) : bool := sameJSONID id (requestID s).
Definition with_state (s : stdioSubscription) (st : listenState) : stdioSubscription := {| requestID := requestID s; acknowledged := acknowledged s; ended := ended s; state := st |}.
(** Ended, and whether it was active. *)
Definition endLocked (s : stdioSubscription) : stdioSubscription * bool := (with_state s listenEnded, match state s with listenActive => true | _ => false end).
Definition put_subscription (s : subscription_field) (x : stdioSubscription) : subscription_field := {| listen := listen s; subscription := Some x |}.
Definition clearSubscription (s : subscription_field) : subscription_field := {| listen := false; subscription := subscription s |}.

(** What is left to do after the lock is released: whether to notify, and the call to forget. *)
Definition acknowledgeSubscription (s : subscription_field) (raw : string) : res panic (subscription_field * bool) :=
  match decode_ack raw with
  | None => Ok (s, false)
  | Some ack =>
      if negb (ToolsListChanged ack) then Ok (s, false)
      else
        match listening s with
        | None => Ok (s, false)
        | Some x =>
            match state x with
            | listenAwaitingAck =>
                if negb (namedBy x (SubscriptionID ack)) then Ok (s, false)
                else if acknowledged x then Err CloseOfClosed
                else Ok (put_subscription s {| requestID := requestID x; acknowledged := true; ended := ended x; state := listenActive |}, true)
            | _ => Ok (s, false)
            end
        end
  end.
Definition forwardSubscriptionChange (s : subscription_field) (raw : string) : bool :=
  match decode_subscription raw, listening s with
  | Some id, Some x => match state x with listenActive => namedBy x id | _ => false end
  | _, _ => false
  end.
Definition cancelSubscription (s : subscription_field) (raw : string) : res panic (subscription_field * option (Z * bool)) :=
  match decode_cancelled raw, listening s with
  | Some id, Some x =>
      match state x with
      | listenEnded => Ok (s, None)
      | _ =>
          if negb (namedBy x id) then Ok (s, None)
          else
            let (x', wasActive) := endLocked x in
            if ended x then Err CloseOfClosed
            else Ok (put_subscription s {| requestID := requestID x'; acknowledged := acknowledged x'; ended := true; state := state x' |}, Some (requestID x, wasActive))
      end
  | _, _ => Ok (s, None)
  end.
(** A response to the subscription's request ends it; whether to notify. *)
Definition noteSubscriptionResponse (out_of_range : float -> Z) (s : subscription_field) (r : Response) : subscription_field * bool :=
  match listening s with
  | None => (s, false)
  | Some x =>
      match state x, normalizeID out_of_range (ID r) with
      | listenEnded, _ => (s, false)
      | _, Number id =>
          if id =? requestID x then
            let (x', wasActive) := endLocked x in (put_subscription s x', wasActive && match Error r with None => true | Some _ => false end)
          else (s, false)
      | _, _ => (s, false)
      end
  end.

(** ** The pipe to the server (stdio_write.go) *)
Inductive outbound : Type := Request (id : Z) (method params : string) | Cancelled (id : Z) | Reply (id : json) (error : option Z) | Initialized.
(** A whole line, or the part of one that went out before the write failed, perhaps nothing. *)
Inductive chunk : Type := Line (m : outbound) | Part (m : outbound).
Record pipe : Type := { gate : bool (* the token is there *); stdin_open : bool; written : list chunk }.
Inductive write_error : Type := ContextDone | BrokenPipe | InterruptFailed.

Definition with_gate (p : pipe) (g : bool) : pipe := {| gate := g; stdin_open := stdin_open p; written := written p |}.
Definition put_chunk (p : pipe) (x : chunk) : pipe := if stdin_open p then {| gate := gate p; stdin_open := true; written := written p ++ [x] |} else p.
Definition shutdownProcess (p : pipe) : pipe := {| gate := gate p; stdin_open := false; written := written p |}.

(** ** The connection *)
Record StdioConnection : Type := { calls : pendingMap; subs : subscription_field; notifier : toolsChangedNotifier; out : pipe; done_ : bool; modern : bool }.
Definition newConn : StdioConnection :=
  {| calls := newPendingMap; subs := {| listen := false; subscription := None |}; notifier := {| handler := false; n_pending := false; notices := 0 |};
     out := {| gate := true; stdin_open := true; written := [] |}; done_ := false; modern := false |}.
Definition with_calls (c : StdioConnection) (p : pendingMap) : StdioConnection := {| calls := p; subs := subs c; notifier := notifier c; out := out c; done_ := done_ c; modern := modern c |}.
Definition with_subs (c : StdioConnection) (s : subscription_field) : StdioConnection := {| calls := calls c; subs := s; notifier := notifier c; out := out c; done_ := done_ c; modern := modern c |}.
Definition with_notifier (c : StdioConnection) (n : toolsChangedNotifier) : StdioConnection := {| calls := calls c; subs := subs c; notifier := n; out := out c; done_ := done_ c; modern := modern c |}.
Definition with_out (c : StdioConnection) (o : pipe) : StdioConnection := {| calls := calls c; subs := subs c; notifier := notifier c; out := o; done_ := done_ c; modern := modern c |}.
Definition setModern (c : StdioConnection) : StdioConnection := {| calls := calls c; subs := subs c; notifier := notifier c; out := out c; done_ := done_ c; modern := true |}.
Definition closeDone (c : StdioConnection) : StdioConnection := {| calls := calls c; subs := subs c; notifier := notifier c; out := out c; done_ := true; modern := modern c |}.
Definition abandon (c : StdioConnection) : StdioConnection := let c := closeDone c in with_out c (shutdownProcess (out c)).

(** ** Goroutines *)

(** What follows a write: the call's wait, nothing, the end of a call that was given up, the
    subscription's wait, the end of [initialize]. *)
Inductive after : Type := RpcK (id : Z) (ch : nat) | ReplyK | CancelK (id : Z) | ListenK (id : Z) (ch : nat) | InitializedK.
Inductive outcome : Type := Answer (r : Response) | ConnectionClosed | ContextEnded | WriteError (e : write_error) | Finished.
Inductive point : Type :=
(* rpc, stdio_requests.go *)
| RpcStart (method params : string) | Await (id : Z) (ch : nat) | Returned (id : option Z) (o : outcome)
(* writeJSONContext *)
| Lock (m : outbound) (k : after) | Checking (m : outbound) (k : after) | Writing (m : outbound) (k : after) | Unlocking (e : option write_error) (k : after)
(* what the caller of writeJSONContext does *)
| Written (e : option write_error) (k : after) | Abandon (e : write_error) (k : after) | Shutdown (next : point)
(* the subscription's goroutine *)
| ListenStart | ListenSet (id : Z) (ch : nat) | AwaitSubscription (id : Z) (ch : nat) (acked : bool) | Clearing (next : point)
(* Close *)
| CloseStart | CloseCancel | CloseShutdown | CloseWait.
(** A goroutine with its context, and whether it is the one of the subscription. *)
Record goroutine : Type := { cancelled : bool; listener : bool; at_ : point }.

(** Where a goroutine ends that failed to write. *)
Definition failed (e : write_error) (k : after) : point :=
  match k with
  | RpcK id _ => Returned (Some id) (WriteError e)
  | CancelK id => Returned (Some id) ContextEnded
  | ReplyK | ListenK _ _ => Returned None (WriteError e)
  | InitializedK => CloseStart (* negotiate closes the connection *)
  end.
(** [abandonAfterFailedWrite]: nothing when the write never started. *)
Definition never_started (cancelled : bool) (e : write_error) : bool := match e with ContextDone => cancelled | _ => false end.
(** After [writeJSONContext]: what a failure withdraws first. *)
Definition succeeded (k : after) : point :=
  match k with
  | RpcK id ch => Await id ch
  | CancelK id => Returned (Some id) ContextEnded
  | ListenK id ch => AwaitSubscription id ch false
  | ReplyK | InitializedK => Returned None Finished
  end.
Definition withdraw (c : StdioConnection) (e : write_error) (k : after) : StdioConnection * point :=
  match k with
  | RpcK id _ => (with_calls c (fst (remove (calls c) id)), Abandon e k)
  | ListenK id _ => (with_calls c (fst (remove (calls c) id)), Clearing (Abandon e k))
  | ReplyK | CancelK _ => (c, Abandon e k)
  | InitializedK => (c, CloseStart)
  end.
(** [awaitResponse] when the context has ended: the call is withdrawn; a modern server is told, under a context of its own. *)
Definition call_given_up (c : StdioConnection) (id : Z) : StdioConnection * point :=
  let (p, removed) := remove (calls c) id in
  (with_calls c p, if removed && modern c then Lock (Cancelled id) (CancelK id) else Returned (Some id) ContextEnded).
Definition finished (p : point) : bool := match p with Returned _ _ => true | _ => false end.

(** One step of a goroutine: [w] is the context it runs under. *)
Inductive move : StdioConnection -> bool -> point -> StdioConnection -> bool -> point -> Prop :=
| move_rpc c w method params p id ch : register (calls c) = (p, id, ch) ->
    move c w (RpcStart method params) (with_calls c p) w (Lock (Request id method params) (RpcK id ch))
| move_lock_cancelled c m k : move c true (Lock m k) c true (Written (Some ContextDone) k)
| move_lock c w m k : gate (out c) = true -> move c w (Lock m k) (with_out c (with_gate (out c) false)) w (Checking m k)
| move_check c w m k : move c w (Checking m k) c w (if w then Unlocking (Some ContextDone) k else Writing m k)
| move_write c w m k : stdin_open (out c) = true -> move c w (Writing m k) (with_out c (put_chunk (out c) (Line m))) w (Unlocking None k)
| move_write_failed c w m k : move c w (Writing m k) (with_out c (put_chunk (out c) (Part m))) w (Unlocking (Some BrokenPipe) k)
| move_write_interrupted c m k (whole : bool) : (* the deadline could not be reset *)
    move c true (Writing m k) (with_out c (put_chunk (out c) (if whole then Line m else Part m))) true (Unlocking (Some InterruptFailed) k)
| move_write_abandoned c m k (whole : bool) : (* nor set: the interrupting function ends the connection *)
    move c true (Writing m k) (abandon (with_out c (put_chunk (out c) (if whole then Line m else Part m)))) true (Unlocking (Some InterruptFailed) k)
| move_unlock c w e k : move c w (Unlocking e k) (with_out c (with_gate (out c) true)) w (Written e k)
| move_written c w k : move c w (Written None k) c w (succeeded k)
| move_write_error c w e k c' p : withdraw c e k = (c', p) -> move c w (Written (Some e) k) c' w p
| move_clear c w next : move c w (Clearing next) (with_subs c (clearSubscription (subs c))) w next
| move_spared c w e k : never_started w e = true -> move c w (Abandon e k) c w (failed e k)
| move_abandon c w e k : never_started w e = false -> move c w (Abandon e k) (closeDone c) w (Shutdown (failed e k))
| move_shutdown c w next : move c w (Shutdown next) (with_out c (shutdownProcess (out c))) w next
(* awaitResponse *)
| move_answer c w id ch p r : take_response (calls c) ch = Some (p, r) -> move c w (Await id ch) (with_calls c p) w (Returned (Some id) (Answer r))
| move_closed c w id ch : done_ c = true -> move c w (Await id ch) c w (Returned (Some id) ConnectionClosed)
| move_given_up c id ch c' p : call_given_up c id = (c', p) -> move c true (Await id ch) c' false p
(* listenForToolChanges *)
| move_listen c w p id ch : register (calls c) = (p, id, ch) -> move c w ListenStart (with_calls c p) w (ListenSet id ch)
| move_listen_set c w id ch params :
    move c w (ListenSet id ch) (with_subs c {| listen := true; subscription := Some {| requestID := id; acknowledged := false; ended := false; state := listenAwaitingAck |} |}) w
      (Lock (Request id "subscriptions/listen" params) (ListenK id ch))
| move_acknowledged c w id ch : (exists x, subscription (subs c) = Some x /\ acknowledged x = true) -> move c w (AwaitSubscription id ch false) c w (AwaitSubscription id ch true)
| move_subscription_answer c w id ch acked p r : take_response (calls c) ch = Some (p, r) -> move c w (AwaitSubscription id ch acked) (with_calls c p) w (Clearing (Returned None Finished))
| move_subscription_ended c w id ch acked : (exists x, subscription (subs c) = Some x /\ ended x = true) -> move c w (AwaitSubscription id ch acked) c w (Clearing (Returned None Finished))
| move_unacknowledged c w id ch : (* the timer *)
    move c w (AwaitSubscription id ch false) (with_calls c (fst (remove (calls c) id))) w (Clearing (Lock (Cancelled id) (CancelK id)))
| move_retire c w id ch acked : w || done_ c = true -> move c w (AwaitSubscription id ch acked) (with_calls c (fst (remove (calls c) id))) w (Clearing (Returned None Finished))
(* Close; the other two of its steps concern the subscription's goroutine *)
| move_close c w : move c w CloseStart (closeDone c) w CloseCancel
| move_close_shutdown c w : move c w CloseShutdown (with_out c (shutdownProcess (out c))) w CloseWait.

(** ** The reader (stdio_inbound.go) *)

(** What is left to do for the line in hand. *)
Inductive reader_action : Type := Note (r : Response) | Notify | Deliver (r : Response) | Send (ch : nat) (r : Response) | Forget (id : Z) | Handle (n : Notification).
Inductive reader : Type := Reading (todo : list reader_action) | Ended | Crashed (p : panic).

Definition NotificationToolsChanged : string := "notifications/tools/list_changed".
Definition notify_if (b : bool) : list reader_action := if b then [Notify] else [].
Definition dispatchModernSubscriptionNotification (s : subscription_field) (n : Notification) : res panic (option (subscription_field * list reader_action)) :=
  if String.eqb (n_Method n) "notifications/subscriptions/acknowledged" then
    let* '(s', b) := acknowledgeSubscription s (n_Params n) in Ok (Some (s', notify_if b))
  else if String.eqb (n_Method n) NotificationToolsChanged then Ok (Some (s, notify_if (forwardSubscriptionChange s (n_Params n))))
  else if String.eqb (n_Method n) "notifications/cancelled" then
    let* '(s', e) := cancelSubscription s (n_Params n) in
    Ok (Some (s', match e with Some (id, wasActive) => Forget id :: notify_if wasActive | None => [] end))
  else Ok None.
Definition handleNotification (c : StdioConnection) (line : string) : res panic (StdioConnection * list reader_action) :=
  match decode_notification line with
  | None => Ok (c, [])
  | Some n =>
      if String.eqb (n_Method n) "" then Ok (c, [])
      else
        let* handled := if modern c then dispatchModernSubscriptionNotification (subs c) n else Ok None in
        match handled with
        | Some (s, todo) => Ok (with_subs c s, todo)
        | None => Ok (c, if String.eqb (n_Method n) NotificationToolsChanged then [Notify] else [Handle n])
        end
  end.
(** The reply runs in a goroutine of its own. *)
Definition answerServerRequest (c : StdioConnection) (id : json) (method : string) : goroutine :=
  {| cancelled := false; listener := false; at_ := Lock (Reply id (if negb (String.eqb method "ping") || modern c then Some CodeMethodNotFound else None)) ReplyK |}.
Definition handleMessage (c : StdioConnection) (line : string) : res panic (StdioConnection * list reader_action * list goroutine) :=
  match decode_message line with
  | None => Ok (c, [], [])
  | Some (r, method) =>
      match ID r with
      | JNull => let* '(c, todo) := handleNotification c line in Ok (c, todo, [])
      | id => if negb (String.eqb method "") then Ok (c, [], [answerServerRequest c id method]) else Ok (c, [Note r; Deliver r], [])
      end
  end.
(** One reader_action; [None] is a send that waits. *)
Definition run_action (out_of_range : float -> Z) (c : StdioConnection) (a : reader_action) (rest : list reader_action) : option (res panic (StdioConnection * list reader_action)) :=
  match a with
  | Note r => let (s, b) := noteSubscriptionResponse out_of_range (subs c) r in Some (Ok (with_subs c s, notify_if b ++ rest))
  | Notify => Some (Ok (with_notifier c (NotifyToolsChanged (notifier c)), rest))
  | Deliver r =>
      Some (match deliver out_of_range (calls c) (ID r) with
            | Err p => Err p
            | Ok (p, ch) => Ok (with_calls c p, match ch with Some ch => Send ch r :: rest | None => rest end)
            end)
  | Send ch r => match send (calls c) ch r with Some p => Some (Ok (with_calls c p, rest)) | None => None end
  | Forget id => Some (Ok (with_calls c (fst (remove (calls c) id)), rest))
  | Handle _ => Some (Ok (c, rest))
  end.
Definition reader_of (r : res panic (list reader_action)) : reader := match r with Ok todo => Reading todo | Err p => Crashed p end.

(** ** The program *)
Record program : Type := { conn : StdioConnection; rd : reader; goroutines : list goroutine }.
Definition go (w l : bool) (p : point) : goroutine := {| cancelled := w; listener := l; at_ := p |}.
Definition start : program := {| conn := newConn; rd := Reading []; goroutines := [] |}.
Definition cancel_listener (g : goroutine) : goroutine := if listener g then go true true (at_ g) else g.

(** A step of a goroutine. *)
Inductive own_step : program -> program -> Prop :=
| own_move c w p c' w' p' l r a b : move c w p c' w' p' ->
    own_step {| conn := c; rd := r; goroutines := a ++ go w l p :: b |} {| conn := c'; rd := r; goroutines := a ++ go w' l p' :: b |}
| own_close_cancel c r w l a b :
    own_step {| conn := c; rd := r; goroutines := a ++ go w l CloseCancel :: b |} {| conn := c; rd := r; goroutines := map cancel_listener (a ++ go w l CloseShutdown :: b) |}
| own_close_wait c r w l a b : (forall g, g ∈ a ++ b -> listener g = true -> finished (at_ g) = true) ->
    own_step {| conn := c; rd := r; goroutines := a ++ go w l CloseWait :: b |} {| conn := c; rd := r; goroutines := a ++ go w l (Returned None Finished) :: b |}.

Section steps.
Variable out_of_range : float -> Z.

(** What happens otherwise: the reader, the server's lines, contexts that end, calls that are made. *)
Inductive other_step : program -> program -> Prop :=
| step_context c r w l p a b : other_step {| conn := c; rd := r; goroutines := a ++ go w l p :: b |} {| conn := c; rd := r; goroutines := a ++ go true l p :: b |}
| step_line c ts line c' todo new : handleMessage c line = Ok (c', todo, new) -> other_step {| conn := c; rd := Reading []; goroutines := ts |} {| conn := c'; rd := Reading todo; goroutines := new ++ ts |}
| step_line_panic c ts line p : handleMessage c line = Err p -> other_step {| conn := c; rd := Reading []; goroutines := ts |} {| conn := c; rd := Crashed p; goroutines := ts |}
| step_action c ts a rest c' todo : run_action out_of_range c a rest = Some (Ok (c', todo)) -> other_step {| conn := c; rd := Reading (a :: rest); goroutines := ts |} {| conn := c'; rd := Reading todo; goroutines := ts |}
| step_action_panic c ts a rest p : run_action out_of_range c a rest = Some (Err p) -> other_step {| conn := c; rd := Reading (a :: rest); goroutines := ts |} {| conn := c; rd := Crashed p; goroutines := ts |}
| step_end c ts : other_step {| conn := c; rd := Reading []; goroutines := ts |} {| conn := closeDone c; rd := Ended; goroutines := ts |}
| step_call c r ts method params : other_step {| conn := c; rd := r; goroutines := ts |} {| conn := c; rd := r; goroutines := go false false (RpcStart method params) :: ts |}
| step_initialized c r ts w : other_step {| conn := c; rd := r; goroutines := ts |} {| conn := c; rd := r; goroutines := go w false (Lock Initialized InitializedK) :: ts |}
| step_listen c r ts : subscription (subs c) = None -> (forall g, g ∈ ts -> listener g = false) ->
    other_step {| conn := c; rd := r; goroutines := ts |} {| conn := c; rd := r; goroutines := go false true ListenStart :: ts |}
| step_close c r ts : other_step {| conn := c; rd := r; goroutines := ts |} {| conn := c; rd := r; goroutines := go false false CloseStart :: ts |}
| step_handler c r ts h : other_step {| conn := c; rd := r; goroutines := ts |} {| conn := with_notifier c (SetHandler (notifier c) h); rd := r; goroutines := ts |}
| step_modern c r ts : other_step {| conn := c; rd := r; goroutines := ts |} {| conn := setModern c; rd := r; goroutines := ts |}.
Definition step (s t : program) : Prop := own_step s t \/ other_step s t.

(** ** Whose response it is *)
Notation key r := (normalizeID out_of_range (ID r)).

Record calls_inv (p : pendingMap) : Prop := {
  i_pending : forall id ch, pending p !! id = Some ch -> exists x, chans p !! ch = Some x /\ owner x = id /\ buffer x = [];
  i_buffer : forall ch x, chans p !! ch = Some x -> buffer x = [] \/ exists r, buffer x = [r] /\ key r = Number (owner x);
  i_next : forall ch, (next_chan p <= ch)%nat -> chans p !! ch = None }.
(** A response on its way to a channel: its call's, empty, and no longer in the map. *)
Definition sending (p : pendingMap) (ch : nat) (r : Response) : Prop :=
  exists x, chans p !! ch = Some x /\ key r = Number (owner x) /\ buffer x = [] /\ forall id, pending p !! id <> Some ch.
Definition owns (p : pendingMap) (id : Z) (ch : nat) : Prop := exists x, chans p !! ch = Some x /\ owner x = id.
Definition after_inv (p : pendingMap) (k : after) : Prop := match k with RpcK id ch | ListenK id ch => owns p id ch | _ => True end.
Fixpoint point_inv (p : pendingMap) (t : point) : Prop :=
  match t with
  | Await id ch | AwaitSubscription id ch _ | ListenSet id ch => owns p id ch
  | Returned (Some id) (Answer r) => key r = Number id
  | Lock _ k | Checking _ k | Writing _ k | Unlocking _ k | Written _ k | Abandon _ k => after_inv p k
  | Shutdown next | Clearing next => point_inv p next
  | _ => True
  end.
(** Channels stay, with their owners, and responses on their way stay deliverable. *)
#[local] Notation keeps p p' := (forall ch x, chans p !! ch = Some x -> exists x', chans p' !! ch = Some x' /\ owner x' = owner x).
Record calls_le (p p' : pendingMap) : Prop := {
  le_owner : keeps p p';
  le_sending : forall ch r, sending p ch r -> sending p' ch r }.

Lemma calls_le_refl p : calls_le p p.
Proof. split; [|done]. intros ch x Hx. eauto. Qed.
Lemma owns_le p p' id ch : keeps p p' -> owns p id ch -> owns p' id ch.
Proof. intros Ho (x & Hx & <-). destruct (Ho _ _ Hx) as (x' & Hx' & Hown). by exists x'. Qed.
Lemma after_le p p' k : keeps p p' -> after_inv p k -> after_inv p' k.
Proof. destruct k; cbn; eauto using owns_le. Qed.
Lemma point_le p p' t : keeps p p' -> point_inv p t -> point_inv p' t.
Proof.
  intros Hle. induction t; cbn; eauto using owns_le, after_le.
Qed.

Lemma register_inv p p' id ch : calls_inv p -> register p = (p', id, ch) -> calls_inv p' /\ calls_le p p' /\ owns p' id ch.
Proof.
  intros [Hp Hb Hn] [= <- <- <-]. assert (forall c x, chans p !! c = Some x -> c <> next_chan p) as Hold by (intros c x Hc ->; by rewrite Hn in Hc by lia).
  split_and!; [split; cbn|split; cbn|].
  - intros i c. rewrite lookup_insert_Some. intros [[<- <-]|[Hne Hi]]; [rewrite lookup_insert_eq; eauto|]. destruct (Hp _ _ Hi) as (x & Hx & Hox). exists x. rewrite lookup_insert_ne; [done|]. by apply not_eq_sym, (Hold _ x).
  - intros c x. rewrite lookup_insert_Some. intros [[<- <-]|[_ Hx]]; [by left|eauto].
  - intros c Hc. rewrite lookup_insert_ne by lia. apply Hn. lia.
  - intros c x Hc. exists x. rewrite lookup_insert_ne; [done|]. by apply not_eq_sym, (Hold _ x).
  - intros c r (x & Hx & Hk & He & Hnot). exists x. cbn. rewrite lookup_insert_ne by (by apply not_eq_sym, (Hold _ x)). split_and!; try done. intros i. rewrite lookup_insert_Some. intros [[_ <-]|[_ Hi]]; [by apply (Hold _ _ Hx)|by apply (Hnot i)].
  - exists {| owner := wrap64 (nextID p + 1); buffer := [] |}. cbn. by rewrite lookup_insert_eq.
Qed.
Lemma removed_inv p id : calls_inv p -> calls_inv (fst (remove p id)) /\ calls_le p (fst (remove p id)).
Proof.
  intros [Hp Hb Hn]. split; split; cbn; try done.
  - intros i c. rewrite lookup_delete_Some. intros [_ Hi]. eauto.
  - eauto.
  - intros c r (x & Hx & Hk & He & Hnot). exists x. split_and!; try done. intros i. cbn. rewrite lookup_delete_Some. intros [_ Hi]. by apply (Hnot i).
Qed.
Lemma get_chan_eq p ch x : chans p !! ch = Some x -> get_chan p ch = x.
Proof. unfold get_chan. by intros ->. Qed.
Lemma set_buffer_inv p ch b x : calls_inv p -> chans p !! ch = Some x -> (b = [] \/ exists r, b = [r] /\ key r = Number (owner x)) -> (forall id, pending p !! id = Some ch -> b = []) -> (forall r, sending p ch r -> b = []) ->
  calls_inv (set_buffer p ch b) /\ calls_le p (set_buffer p ch b).
Proof.
  intros [Hp Hb Hn] Hx Hok Hpend Hsend. unfold set_buffer. rewrite (get_chan_eq _ _ _ Hx). split; split; cbn; intros.
  - destruct (Hp _ _ H) as (y & Hy & Ho & He). destruct (decide (ch = ch0)) as [<-|Hne].
    + rewrite lookup_insert_eq. eexists. split; [done|]. cbn. rewrite Hx in Hy. injection Hy as <-. split; [done|eauto].
    + rewrite lookup_insert_ne by done. eauto.
  - revert H. rewrite lookup_insert_Some. intros [[<- <-]|[_ Hy]]; [exact Hok|eauto].
  - rewrite lookup_insert_ne; [by apply Hn|]. intros <-. by rewrite Hn in Hx.
  - destruct (decide (ch = ch0)) as [<-|Hne]; [rewrite lookup_insert_eq; rewrite Hx in H; injection H as <-; eauto|rewrite lookup_insert_ne by done; eauto].
  - destruct (decide (ch = ch0)) as [<-|Hne].
    + pose proof (Hsend _ H) as ->. destruct H as (y & Hy & Hk & He & Hnot). rewrite Hx in Hy. injection Hy as <-. eexists. cbn. rewrite lookup_insert_eq. done.
    + destruct H as (y & Hy & Hk & He & Hnot). exists y. cbn. by rewrite lookup_insert_ne.
Qed.
Lemma take_inv p ch p' r id : calls_inv p -> owns p id ch -> take_response p ch = Some (p', r) -> calls_inv p' /\ calls_le p p' /\ key r = Number id.
Proof.
  intros Hi (x & Hx & <-). unfold take_response. rewrite (get_chan_eq _ _ _ Hx). destruct (i_buffer p Hi ch x Hx) as [He|(r' & He & Hk)]; rewrite He; [done|]. intros [= <- ->].
  destruct (set_buffer_inv p ch [] x Hi Hx) as [H1 H2]; [by left|done|done|]. done.
Qed.
Lemma send_inv p ch r : calls_inv p -> sending p ch r -> exists p', send p ch r = Some p' /\ calls_inv p' /\ keeps p p'.
Proof.
  intros Hi (x & Hx & Hk & He & Hnot). exists (set_buffer p ch [r]). unfold send, set_buffer. rewrite (get_chan_eq _ _ _ Hx), He. split; [done|]. destruct Hi as [Hp Hb Hn].
  split; [split; cbn|cbn].
  - intros i c Hic. destruct (Hp _ _ Hic) as (y & Hy & Ho & Hey). exists y. rewrite lookup_insert_ne; [done|]. intros <-. by apply (Hnot i).
  - intros c y. rewrite lookup_insert_Some. intros [[<- <-]|[_ Hy]]; [right; by exists r|eauto].
  - intros c Hc. rewrite lookup_insert_ne; [by apply Hn|]. intros <-. by rewrite Hn in Hx.
  - intros c y Hy. destruct (decide (ch = c)) as [<-|Hne]; [rewrite lookup_insert_eq; rewrite Hx in Hy; injection Hy as <-; eauto|rewrite lookup_insert_ne by done; eauto].
Qed.
Lemma deliver_inv p rawID p' ch r : calls_inv p -> normalizeID out_of_range rawID = key r -> deliver out_of_range p rawID = Ok (p', ch) ->
  calls_inv p' /\ calls_le p p' /\ match ch with Some ch => sending p' ch r | None => True end.
Proof.
  intros Hi Hk. unfold deliver. destruct (normalizeID out_of_range rawID) as [id| |]; [|intros [= <- <-]; auto using calls_le_refl|done]. intros [= <- <-].
  destruct (removed_inv p id Hi) as [H1 H2]. split_and!; [done..|]. destruct (pending p !! id) as [ch|] eqn:E; [|done]. destruct (i_pending p Hi id ch E) as (x & Hx & Ho & He). exists x. rewrite Ho. split_and!; try done.
  intros i. cbn. rewrite lookup_delete_Some. intros [Hne Hj]. destruct (i_pending p Hi i ch Hj) as (y & Hy & Hoy & _). rewrite Hx in Hy. injection Hy as <-. congruence.
Qed.

Lemma succeeded_inv p k : after_inv p k -> point_inv p (succeeded k).
Proof. by destruct k. Qed.
Lemma failed_inv p e k : point_inv p (failed e k).
Proof. by destruct k. Qed.
Lemma withdraw_inv c e k c' p : calls_inv (calls c) -> after_inv (calls c) k -> withdraw c e k = (c', p) -> calls_inv (calls c') /\ calls_le (calls c) (calls c') /\ point_inv (calls c') p.
Proof.
  intros Hi Hk. destruct k; intros [= <- <-]; cbn [calls with_calls];
    try (destruct (removed_inv (calls c) id Hi) as [H1 H2]; split_and!; [done|done|cbn; eapply owns_le; [apply le_owner, H2|done]]);
    split_and!; auto using calls_le_refl; done.
Qed.
Lemma given_up_inv c id c' p : calls_inv (calls c) -> call_given_up c id = (c', p) -> calls_inv (calls c') /\ calls_le (calls c) (calls c') /\ point_inv (calls c') p.
Proof.
  intros Hi. unfold call_given_up. pose proof (removed_inv (calls c) id Hi) as [H1 H2]. destruct (remove (calls c) id) as [p' b]. intros [= <- <-]. split_and!; [done..|]. by destruct (_ && _).
Qed.
Lemma move_calls c w p c' w' p' : move c w p c' w' p' -> calls_inv (calls c) -> point_inv (calls c) p -> calls_inv (calls c') /\ calls_le (calls c) (calls c') /\ point_inv (calls c') p'.
Proof.
  intros Hm Hi Hp. inv Hm; cbn [calls with_calls with_out with_subs closeDone abandon] in *; eauto using withdraw_inv, given_up_inv;
    try (destruct (removed_inv (calls c) id Hi) as [? ?]; split_and!; done);
    try (split_and!; [done|apply calls_le_refl|cbn; eauto using succeeded_inv, failed_inv; done]).
  - destruct (register_inv _ _ _ _ Hi ltac:(eassumption)) as (? & ? & ?). done.
  - split_and!; [done|apply calls_le_refl|]. by destruct w'.
  - destruct (take_inv _ _ _ _ _ Hi Hp ltac:(eassumption)) as (? & ? & ?). done.
  - destruct (register_inv _ _ _ _ Hi ltac:(eassumption)) as (? & ? & ?). done.
  - destruct (take_inv _ _ _ _ _ Hi Hp ltac:(eassumption)) as (? & ? & ?). done.
Qed.

(** The subscription's channels are closed once. *)
Definition subs_inv (s : subscription_field) : Prop :=
  match subscription s with Some x => (acknowledged x = true -> state x <> listenAwaitingAck) /\ (ended x = true -> state x = listenEnded) | None => True end.
Lemma listening_subscription s x : listening s = Some x -> subscription s = Some x.
Proof. unfold listening. by destruct (listen s). Qed.
Lemma acknowledge_inv s raw : subs_inv s -> exists s' b, acknowledgeSubscription s raw = Ok (s', b) /\ subs_inv s'.
Proof.
  intros Hi. unfold acknowledgeSubscription. destruct (decode_ack raw) as [ack|]; [|eauto]. destruct (negb _); [eauto|]. destruct (listening s) as [x|] eqn:E; [|eauto]. apply listening_subscription in E.
  destruct (state x) eqn:Es; [|eauto..]. destruct (negb _); [eauto|]. unfold subs_inv in Hi. rewrite E in Hi. destruct Hi as [Ha He]. destruct (acknowledged x) eqn:Ea; [by destruct (Ha eq_refl)|].
  eexists _, _. split; [done|]. cbn. split; [done|]. intros Hx. rewrite He in Es by done. done.
Qed.
Lemma cancel_inv s raw : subs_inv s -> exists s' e, cancelSubscription s raw = Ok (s', e) /\ subs_inv s'.
Proof.
  intros Hi. unfold cancelSubscription. destruct (decode_cancelled raw) as [id|]; [|eauto]. destruct (listening s) as [x|] eqn:E; [|eauto]. apply listening_subscription in E. unfold subs_inv in Hi. rewrite E in Hi. destruct Hi as [Ha He].
  assert (subs_inv s) as Hs by (unfold subs_inv; by rewrite E).
  destruct (state x) eqn:Es; [| |eauto]; (destruct (negb _); [eauto|]); cbn [endLocked]; (destruct (ended x) eqn:Ee; [by specialize (He eq_refl)|]); eexists _, _; (split; [done|]); cbn; done.
Qed.
Lemma note_inv s r : subs_inv s -> subs_inv (fst (noteSubscriptionResponse out_of_range s r)).
Proof.
  intros Hi. unfold noteSubscriptionResponse. destruct (listening s) as [x|] eqn:E; [|done]. apply listening_subscription in E.
  destruct (state x) eqn:Es; [| |done]; (destruct (key r) as [id| |]; [|done..]); (destruct (id =? requestID x); [|done]); cbn; done.
Qed.

Definition no_send (todo : list reader_action) : Prop := forall ch r, Send ch r ∉ todo.
Lemma no_send_nil : no_send [].
Proof. intros ch r. apply not_elem_of_nil. Qed.
Lemma no_send_cons a todo : (forall ch r, a <> Send ch r) -> no_send todo -> no_send (a :: todo).
Proof. intros Ha Ht ch r. rewrite elem_of_cons. intros [H|H]; [by apply (Ha ch r)|by apply (Ht ch r)]. Qed.
Lemma no_send_notify b todo : no_send todo -> no_send (notify_if b ++ todo).
Proof. intros H. destruct b; [|done]. by apply no_send_cons. Qed.
Lemma no_send_notified b : no_send (notify_if b).
Proof. rewrite <- (app_nil_r (notify_if b)). apply no_send_notify, no_send_nil. Qed.
Lemma no_send_tail a todo : no_send (a :: todo) -> no_send todo.
Proof. intros H ch r Hin. apply (H ch r). by right. Qed.
#[local] Hint Resolve no_send_nil no_send_cons no_send_notify no_send_notified no_send_tail : core.

Lemma dispatch_inv s n : subs_inv s -> exists o, dispatchModernSubscriptionNotification s n = Ok o /\ match o with Some (s', todo) => subs_inv s' /\ no_send todo | None => True end.
Proof.
  intros Hi. unfold dispatchModernSubscriptionNotification. destruct (String.eqb _ _).
  - destruct (acknowledge_inv s (n_Params n) Hi) as (s' & b & -> & Hs). cbn [rbind]. eexists. split; [done|]. by split.
  - destruct (String.eqb _ _); [eexists; split; [done|]; by split|]. destruct (String.eqb _ _); [|by exists None].
    destruct (cancel_inv s (n_Params n) Hi) as (s' & e & -> & Hs). cbn [rbind]. eexists. split; [done|]. split; [done|]. destruct e as [[id b]|]; [|done]. by apply no_send_cons.
Qed.
Lemma handle_inv c line : subs_inv (subs c) -> exists c' todo new, handleMessage c line = Ok (c', todo, new) /\ subs_inv (subs c') /\ no_send todo /\ calls c' = calls c /\ out c' = out c /\
  (forall g, g ∈ new -> exists m, g = go false false (Lock m ReplyK)).
Proof.
  intros Hi. unfold handleMessage. destruct (decode_message line) as [[r method]|]; [|eexists _, _, _; split_and!; try done; by intros ? ?%elem_of_nil].
  assert (forall id, exists c' todo new, (if negb (String.eqb method "") then Ok (c, [], [answerServerRequest c id method]) else Ok (c, [Note r; Deliver r], [])) = @Ok panic _ (c', todo, new) /\ subs_inv (subs c') /\ no_send todo /\ calls c' = calls c /\ out c' = out c /\
    (forall g, g ∈ new -> exists m, g = go false false (Lock m ReplyK))) as Hother.
  { intros id. destruct (negb _); eexists _, _, _; split_and!; try done; [|auto|by intros ? ?%elem_of_nil]. intros g ->%list_elem_of_singleton. by eexists. }
  destruct (ID r); try apply Hother. clear Hother. unfold handleNotification. destruct (decode_notification line) as [n|]; [|eexists _, _, _; split_and!; try done; by intros ? ?%elem_of_nil].
  destruct (String.eqb _ _); [eexists _, _, _; split_and!; try done; by intros ? ?%elem_of_nil|].
  assert (exists o, (if modern c then dispatchModernSubscriptionNotification (subs c) n else Ok None) = Ok o /\ match o with Some (s', todo) => subs_inv s' /\ no_send todo | None => True end) as (o & -> & Ho) by (destruct (modern c); [by apply dispatch_inv|by exists None]).
  cbn [rbind]. destruct o as [[s' todo]|]; (eexists _, _, _; split_and!; [done|..]; try done; try (by intros ? ?%elem_of_nil)); [apply Ho..|]. destruct (String.eqb _ _); auto.
Qed.

(** ** What every reachable state satisfies *)
Definition reader_inv (p : pendingMap) (r : reader) : Prop :=
  match r with
  | Reading todo => no_send todo \/ exists ch r rest, todo = Send ch r :: rest /\ no_send rest /\ sending p ch r
  | Ended => True
  | Crashed q => q = UnhashableKey
  end.
Record routed (s : program) : Prop := {
  r_calls : calls_inv (calls (conn s)); r_subs : subs_inv (subs (conn s)); r_reader : reader_inv (calls (conn s)) (rd s);
  r_points : forall g, g ∈ goroutines s -> point_inv (calls (conn s)) (at_ g) }.

Lemma reader_le p p' r : calls_le p p' -> reader_inv p r -> reader_inv p' r.
Proof. intros [_ Hs]. destruct r as [todo| |]; [|done..]. intros [H|(ch & r & rest & -> & Hr & H)]; [by left|right]. eauto 10. Qed.
Lemma move_subs c w p c' w' p' : move c w p c' w' p' -> subs_inv (subs c) -> subs_inv (subs c').
Proof.
  intros Hm. inv Hm; try done.
  - destruct k; injection H as <- <-; done.
  - unfold call_given_up in H. destruct (remove _ _). injection H as <- <-. done.
Qed.
Lemma act_inv c a rest c' todo : calls_inv (calls c) -> subs_inv (subs c) -> reader_inv (calls c) (Reading (a :: rest)) -> run_action out_of_range c a rest = Some (Ok (c', todo)) ->
  calls_inv (calls c') /\ subs_inv (subs c') /\ reader_inv (calls c') (Reading todo) /\ keeps (calls c) (calls c').
Proof.
  intros Hc Hs Hr. assert (keeps (calls c) (calls c)) as Hk by apply calls_le_refl. assert ((forall ch r, a <> Send ch r) -> no_send rest) as Htail.
  { intros Ha. destruct Hr as [Hr|(ch & r & rest' & [= -> ->] & _)]; [by eapply no_send_tail|by destruct (Ha ch r)]. }
  destruct a as [r| |r|ch r|id|n]; cbn [run_action].
  - pose proof (note_inv (subs c) r Hs) as Hn. destruct (noteSubscriptionResponse _ _ _) as [s b]. intros [= <- <-]. split_and!; [done..| |done]. left. apply no_send_notify. by apply Htail.
  - intros [= <- <-]. split_and!; [done..| |done]. left. by apply Htail.
  - destruct (deliver out_of_range (calls c) (ID r)) as [[p ch]|] eqn:E; [|done]. intros [= <- <-]. destruct (deliver_inv _ _ _ _ r Hc eq_refl E) as (H1 & H2 & H3). split_and!; [done..| |apply H2].
    destruct ch as [ch|]; [right; exists ch, r, rest|left]; [split_and!; [done| |done]|]; by apply Htail.
  - destruct Hr as [Hr|(ch' & r' & rest' & [= <- <- <-] & Hrest & Hsend)]; [destruct (Hr ch r); left|]. destruct (send_inv _ _ _ Hc Hsend) as (p & -> & H1 & H2). intros [= <- <-]. split_and!; [done..|by left|done].
  - intros [= <- <-]. destruct (removed_inv (calls c) id Hc) as [H1 H2]. split_and!; [done..| |apply H2]. left. by apply Htail.
  - intros [= <- <-]. split_and!; [done..| |done]. left. by apply Htail.
Qed.
Lemma act_panics c a rest p : run_action out_of_range c a rest = Some (Err p) -> p = UnhashableKey.
Proof.
  destruct a as [r| |r|ch r|id|n]; cbn [run_action]; try done.
  - by destruct (noteSubscriptionResponse _ _ _).
  - unfold deliver. destruct (normalizeID _ _); intros [= <-]; done.
  - by destruct (send _ _ _).
Qed.
Lemma own_step_routed s t : own_step s t -> routed s -> routed t.
Proof.
  intros Hstep [Hc Hs Hr Hp]. inv Hstep; cbn [conn rd goroutines] in *.
  - pose proof (Hp _ (elem_of_middle a (go w l p) b)) as Hg. cbn [at_ go] in Hg. destruct (move_calls _ _ _ _ _ _ H Hc Hg) as (H1 & H2 & H3).
    split; cbn; [done|by eapply move_subs|by eapply reader_le|]. intros g [->|Hin]%(elem_of_moved a (go w l p)); [done|]. eapply point_le; [apply H2|]. by apply Hp.
  - split; cbn; [done..|]. intros g. rewrite list_elem_of_fmap. intros (h & -> & [->|Hin]%(elem_of_moved a (go w l CloseCancel))).
    + by destruct l.
    + apply Hp in Hin. unfold cancel_listener. by destruct (listener h).
  - split; cbn; [done..|]. intros g [->|Hin]%(elem_of_moved a (go w l CloseWait)); [done|]. by apply Hp.
Qed.
Lemma other_step_routed s t : other_step s t -> routed s -> routed t.
Proof.
  intros Hstep [Hc Hs Hr Hp]. inv Hstep; cbn [conn rd goroutines] in *; try (split; cbn; try done; intros g [->|Hin]%elem_of_cons; [done|by apply Hp]); try (split; cbn; done).
  - split; cbn; [done..|]. intros g [->|Hin]%(elem_of_moved a (go w l p)); [|by apply Hp]. apply (Hp (go w l p)). apply elem_of_middle.
  - destruct (handle_inv c line Hs) as (c1 & todo1 & new1 & Heq & Hs1 & Hn & Hcalls & _ & Hnew). rewrite Heq in H. injection H as <- <- <-.
    split; cbn; rewrite ?Hcalls; [done..|by left|]. intros g [Hin|Hin]%elem_of_app; [|by apply Hp]. destruct (Hnew g Hin) as [m ->]. done.
  - destruct (handle_inv c line Hs) as (c1 & todo1 & new1 & Heq & _). by rewrite Heq in H.
  - destruct (act_inv _ _ _ _ _ Hc Hs Hr H) as (H1 & H2 & H3 & H4). split; cbn; [done..|]. intros g Hin. eapply point_le; [exact H4|]. by apply Hp.
  - split; cbn; [done..| |done]. by eapply act_panics.
Qed.
Lemma reachable_routed s : rtc step start s -> routed s.
Proof.
  apply (rtc_preserves step routed).
  - intros a b [H|H]; [by apply own_step_routed|by apply other_step_routed].
  - split; cbn; [split; cbn|done|left; apply no_send_nil|by intros g ?%elem_of_nil]; intros *; by rewrite ?lookup_empty.
Qed.

(** ** One writer at a time, and no line after a broken one *)
Definition holding (p : point) : bool := match p with Checking _ _ | Writing _ _ | Unlocking _ _ => true | _ => false end.
Definition holds (g : goroutine) : bool := holding (at_ g).
(** On its way to close the pipe. *)
Definition broke (e : write_error) : bool := match e with ContextDone => false | _ => true end.
Definition ending (p : point) : bool :=
  match p with
  | Unlocking (Some e) _ | Written (Some e) _ | Abandon e _ | Clearing (Abandon e _) => broke e
  | Shutdown _ | CloseStart | CloseCancel | CloseShutdown => true
  | _ => false
  end.
Definition torn (o : pipe) : Prop := exists m, Part m ∈ written o.
Lemma put_gate o x : gate (put_chunk o x) = gate o.
Proof. unfold put_chunk. by destruct (stdin_open o). Qed.
Lemma put_open o x : stdin_open (put_chunk o x) = stdin_open o.
Proof. unfold put_chunk. destruct (stdin_open o) eqn:E; cbn; congruence. Qed.
Lemma put_torn o x : torn (put_chunk o x) -> torn o \/ (exists m, x = Part m).
Proof.
  unfold put_chunk, torn. destruct (stdin_open o); [|by left]. cbn. intros (m & [Hm|<-%list_elem_of_singleton]%elem_of_app); eauto.
Qed.
Lemma withdraw_out c e k c' p : withdraw c e k = (c', p) -> out c' = out c /\ holding p = false /\ (broke e = true -> ending p = true).
Proof. destruct k; intros [= <- <-]; done. Qed.
Lemma given_up_out c id c' p : call_given_up c id = (c', p) -> out c' = out c /\ holding p = false.
Proof. unfold call_given_up. destruct (remove _ _). intros [= <- <-]. by destruct (_ && _). Qed.
Lemma never_started_spared w e : never_started w e = true -> broke e = false.
Proof. by destruct e. Qed.
Lemma holding_failed e k : holding (failed e k) = false.
Proof. by destruct k. Qed.
Lemma holding_succeeded k : holding (succeeded k) = false.
Proof. by destruct k. Qed.

(** The points inside others are not those of a writer. *)
Fixpoint settled (p : point) : Prop :=
  match p with Shutdown next | Clearing next => holding next = false /\ settled next | _ => True end.
Record framed (s : program) : Prop := {
  f_settled : forall g, g ∈ goroutines s -> settled (at_ g);
  f_gate : count holds (goroutines s) + b2z (gate (out (conn s))) = 1;
  f_torn : torn (out (conn s)) -> stdin_open (out (conn s)) = false \/ exists g, g ∈ goroutines s /\ ending (at_ g) = true }.

Lemma move_settled c w p c' w' p' : move c w p c' w' p' -> settled p -> settled p'.
Proof.
  intros Hm Hs. inv Hm; try done.
  - by destruct w'.
  - by destruct k.
  - destruct k; injection H as <- <-; done.
  - apply Hs.
  - by destruct k.
  - split; [apply holding_failed|by destruct k].
  - apply Hs.
  - unfold call_given_up in H. destruct (remove _ _). injection H as <- <-. by destruct (_ && _).
Qed.
Lemma move_gate c w p c' w' p' : move c w p c' w' p' -> settled p -> (holding p = true -> gate (out c) = false) ->
  b2z (holding p) + b2z (gate (out c)) = b2z (holding p') + b2z (gate (out c')).
Proof.
  intros Hm Hs Hg. inv Hm; cbn [out with_out with_calls with_subs closeDone abandon gate with_gate shutdownProcess holding]; rewrite ?put_gate, ?holding_failed, ?holding_succeeded; try done.
  - by rewrite H.
  - by destruct w'.
  - by rewrite Hg.
  - destruct (withdraw_out _ _ _ _ _ H) as (-> & -> & _). done.
  - by rewrite (proj1 Hs).
  - by rewrite (proj1 Hs).
  - destruct (given_up_out _ _ _ _ H) as (-> & ->). done.
Qed.
(** A tear comes from a goroutine that then ends the connection; one that is ending it goes on until the pipe is closed. *)
Lemma move_open c w p c' w' p' : move c w p c' w' p' -> stdin_open (out c) = false -> stdin_open (out c') = false /\ written (out c') = written (out c).
Proof.
  intros Hm Ho. inv Hm; cbn [out with_out with_calls with_subs closeDone abandon stdin_open with_gate shutdownProcess written] in *; rewrite ?put_open; try done; try (unfold put_chunk; rewrite Ho; done).
  - destruct (withdraw_out _ _ _ _ _ H) as (-> & _). done.
  - destruct (given_up_out _ _ _ _ H) as (-> & _). done.
Qed.
Lemma move_torn c w p c' w' p' : move c w p c' w' p' -> torn (out c') -> torn (out c) \/ ending p' = true.
Proof.
  intros Hm Ht. inv Hm; cbn [out with_out with_calls with_subs closeDone abandon with_gate shutdownProcess] in *; try (by left).
  - apply put_torn in Ht as [Ht|[? Ht]]; [by left|done].
  - by right.
  - by right.
  - by right.
  - destruct (withdraw_out _ _ _ _ _ H) as (E & _). rewrite E in Ht. by left.
  - destruct (given_up_out _ _ _ _ H) as (E & _). rewrite E in Ht. by left.
Qed.
Lemma move_ending c w p c' w' p' : move c w p c' w' p' -> ending p = true -> ending p' = true \/ stdin_open (out c') = false.
Proof.
  intros Hm He. inv Hm; try done; try (by left); try (by right).
  - destruct (withdraw_out _ _ _ _ _ H) as (_ & _ & Hp). left. by apply Hp.
  - left. destruct p'; done.
  - apply never_started_spared in H. cbn [ending] in He. congruence.
Qed.

Lemma framed_gate a g b c r : framed {| conn := c; rd := r; goroutines := a ++ g :: b |} -> holds g = true -> gate (out c) = false.
Proof. intros [_ Hg _]. cbn in Hg. rewrite count_middle in Hg. intros H. rewrite H in Hg. pose proof (count_nonneg holds (a ++ b)). destruct (gate (out c)); cbn in Hg; [lia|done]. Qed.
(** Replacing a goroutine by one that holds nothing either. *)
Lemma torn_moved (o o' : pipe) a g g' b : (stdin_open o = false -> stdin_open o' = false) -> (ending (at_ g) = true -> ending (at_ g') = true \/ stdin_open o' = false) ->
  stdin_open o = false \/ (exists h, h ∈ a ++ g :: b /\ ending (at_ h) = true) -> stdin_open o' = false \/ exists h, h ∈ a ++ g' :: b /\ ending (at_ h) = true.
Proof.
  intros Ho Hg [H|(h & Hin & He)]; [left; by apply Ho|]. apply elem_of_app in Hin as [Hin|[->|Hin]%elem_of_cons].
  - right. exists h. split; [|done]. apply elem_of_app. by left.
  - destruct (Hg He) as [He'|?]; [|by left]. right. exists g'. split; [apply elem_of_middle|done].
  - right. exists h. split; [|done]. apply elem_of_app. right. by right.
Qed.
Lemma own_step_framed s t : own_step s t -> framed s -> framed t.
Proof.
  intros Hstep Hf. inv Hstep.
  - pose proof (framed_gate _ _ _ _ _ Hf) as Hg. destruct Hf as [Hs Hc Ht]. cbn [conn rd goroutines] in *. assert (settled p) as Hsp by apply (Hs (go w l p)), elem_of_middle.
    split; cbn [conn rd goroutines].
    + intros g [->|Hin]%(elem_of_moved a (go w l p)); [by eapply move_settled|by apply Hs].
    + rewrite count_middle in Hc |- *. unfold holds in *. cbn [at_ go] in *. pose proof (move_gate _ _ _ _ _ _ H Hsp Hg). lia.
    + intros Htorn. destruct (move_torn _ _ _ _ _ _ H Htorn) as [Htorn'|He].
      * eapply torn_moved; [| |apply Ht; exact Htorn']; [intros Ho; by eapply move_open|intros He; by eapply move_ending].
      * right. eexists. split; [apply elem_of_middle|done].
  - destruct Hf as [Hs Hc Ht]. cbn [conn rd goroutines] in *.
    assert (forall g, holds (cancel_listener g) = holds g /\ at_ (cancel_listener g) = at_ g) as Hcl by (intros [? [] ?]; done).
    assert (forall ts, count holds (map cancel_listener ts) = count holds ts) as Hcount by (induction ts as [|x ts IH]; [done|]; cbn [map]; rewrite !count_cons, IH; by rewrite (proj1 (Hcl x))).
    split; cbn [conn rd goroutines].
    + intros g (h & -> & Hin)%list_elem_of_fmap. rewrite (proj2 (Hcl h)). apply (elem_of_moved a (go w l CloseCancel)) in Hin as [->|Hin]; [done|by apply Hs].
    + rewrite Hcount. rewrite count_middle in Hc |- *. exact Hc.
    + intros Htorn. destruct (torn_moved (out c) (out c) a (go w l CloseCancel) (go w l CloseShutdown) b ltac:(done) ltac:(by left) (Ht Htorn)) as [?|(h & Hin & He)]; [by left|].
      right. exists (cancel_listener h). rewrite (proj2 (Hcl h)). split; [|done]. apply list_elem_of_fmap. eauto.
  - destruct Hf as [Hs Hc Ht]. cbn [conn rd goroutines] in *. split; cbn [conn rd goroutines].
    + intros g [->|Hin]%(elem_of_moved a (go w l CloseWait)); [done|by apply Hs].
    + rewrite count_middle in Hc |- *. exact Hc.
    + intros Htorn. eapply torn_moved; [| |by apply Ht]; done.
Qed.
(** The other steps leave the pipe alone. *)
Lemma act_out c a rest c' todo : run_action out_of_range c a rest = Some (Ok (c', todo)) -> out c' = out c.
Proof.
  destruct a; cbn [run_action].
  - destruct (noteSubscriptionResponse _ _ _). by intros [= <- _].
  - by intros [= <- _].
  - destruct (deliver _ _ _) as [[p ch]|]; [|done]. by intros [= <- _].
  - destruct (send _ _ _); [|done]. by intros [= <- _].
  - by intros [= <- _].
  - by intros [= <- _].
Qed.
Lemma handle_out c line c' todo new : handleMessage c line = Ok (c', todo, new) -> out c' = out c /\ forall g, g ∈ new -> exists m, g = go false false (Lock m ReplyK).
Proof.
  unfold handleMessage. destruct (decode_message line) as [[r method]|]; [|intros [= <- <- <-]; split; [done|by intros g ?%elem_of_nil]].
  assert (forall id, (if negb (String.eqb method "") then Ok (c, [], [answerServerRequest c id method]) else Ok (c, [Note r; Deliver r], [])) = @Ok panic _ (c', todo, new) -> out c' = out c /\ forall g, g ∈ new -> exists m, g = go false false (Lock m ReplyK)) as Hother.
  { intros id. destruct (negb _); intros [= <- <- <-]; (split; [done|]); [intros g ->%list_elem_of_singleton; by eexists|by intros g ?%elem_of_nil]. }
  destruct (ID r); try apply Hother. intros H. inv_ok H. destruct v as [c1 todo1]. injection H as <- <- <-. split; [|by intros g ?%elem_of_nil].
  unfold handleNotification in E. destruct (decode_notification line) as [n|]; [|by injection E as <- _].
  destruct (String.eqb (n_Method n) ""); [by injection E as <- _|]. inv_ok E. destruct v as [[s todo]|]; injection E as <- _; done.
Qed.
Lemma framed_same c c' ts new r r' : out c' = out c -> (forall g, g ∈ new -> holds g = false /\ settled (at_ g)) -> framed {| conn := c; rd := r; goroutines := ts |} -> framed {| conn := c'; rd := r'; goroutines := new ++ ts |}.
Proof.
  intros Ho Hn [Hs Hc Ht]. split; cbn [conn rd goroutines] in *; rewrite ?Ho.
  - intros g [Hin|Hin]%elem_of_app; [by apply Hn|by apply Hs].
  - rewrite count_app, (count_zero holds new); [lia|]. intros g Hin. by apply Hn.
  - intros H. destruct (Ht H) as [?|(g & Hin & He)]; [by left|]. right. exists g. split; [|done]. apply elem_of_app. by right.
Qed.
Lemma other_step_framed s t : other_step s t -> framed s -> framed t.
Proof.
  intros Hstep Hf. inv Hstep; try (apply (framed_same _ _ _ []) with (2 := Hf)); try (by eapply (framed_same _ _ _ []); [..|exact Hf]; [done|by intros g ?%elem_of_nil]);
    try (by eapply (framed_same _ _ _ [_]); [..|exact Hf]; [done|intros g ->%list_elem_of_singleton]).
  - destruct Hf as [Hs Hc Ht]. cbn [conn rd goroutines] in *. split; cbn [conn rd goroutines].
    + intros g [->|Hin]%(elem_of_moved a (go w l p)); [apply (Hs (go w l p)), elem_of_middle|by apply Hs].
    + rewrite count_middle in Hc |- *. exact Hc.
    + intros Htorn. eapply torn_moved; [done| |by apply Ht]. by left.
  - apply handle_out in H as [Ho Hn]. eapply framed_same; [exact Ho| |exact Hf]. intros g Hin. by destruct (Hn g Hin) as [m ->].
  - apply act_out in H. eapply (framed_same _ _ _ []); [exact H|by intros g ?%elem_of_nil|exact Hf].
Qed.
Lemma reachable_framed s : rtc step start s -> framed s.
Proof.
  apply (rtc_preserves step framed).
  - intros a b [H|H]; [by apply own_step_framed|by apply other_step_framed].
  - split; cbn; [by intros g ?%elem_of_nil|done|]. intros (m & Hm). by apply elem_of_nil in Hm.
Qed.

(** ** After the connection has ended every call returns *)

(** More steps than a goroutine at the point can still take. *)
Definition written_weight (k : after) : nat := match k with RpcK _ _ => 9 | ReplyK | CancelK _ => 3 | ListenK _ _ => 10 | InitializedK => 5 end.
Fixpoint weight (p : point) : nat :=
  match p with
  | Returned _ _ => 0
  | Shutdown next | Clearing next => S (weight next)
  | Abandon _ k => 2 + match k with InitializedK => 4 | _ => 0 end
  | Written _ k => written_weight k
  | Unlocking _ k => 1 + written_weight k
  | Writing _ k => 2 + written_weight k
  | Checking _ k => 3 + written_weight k
  | Lock _ k => 4 + written_weight k
  | Await _ _ => 8
  | RpcStart _ _ => 14
  | AwaitSubscription _ _ acked => if acked then 2 else 9
  | ListenSet _ _ => 15
  | ListenStart => 16
  | CloseStart => 4
  | CloseCancel => 3
  | CloseShutdown => 2
  | CloseWait => 1
  end.
Definition total (s : program) : nat := sum_list (map (fun g => weight (at_ g)) (goroutines s)).

Lemma move_weight c w p c' w' p' : move c w p c' w' p' -> (weight p' < weight p)%nat.
Proof.
  intros Hm. inv Hm; cbn [weight];
    try match goal with
        | H : withdraw _ _ ?k = _ |- _ => destruct k; injection H as <- <-
        | H : call_given_up _ _ = _ |- _ => unfold call_given_up in H; destruct (remove _ _); injection H as <- <-; destruct (_ && _)
        | |- context [if ?w then Unlocking _ _ else _] => destruct w
        | |- context [if ?acked then 2%nat else _] => destruct acked
        | k : after |- _ => destruct k
        end; cbn; try lia.
Qed.
Lemma total_middle c r a g b : total {| conn := c; rd := r; goroutines := a ++ g :: b |} = (weight (at_ g) + total {| conn := c; rd := r; goroutines := a ++ b |})%nat.
Proof.
  unfold total. cbn [goroutines]. rewrite !map_app. cbn [map]. induction (map (fun g => weight (at_ g)) a) as [|n l IH]; cbn in *; lia.
Qed.
Lemma own_step_weight s t : own_step s t -> (total t < total s)%nat.
Proof.
  intros H. inv H.
  - apply move_weight in H0. rewrite !total_middle. cbn [at_ go]. unfold total in *. cbn [goroutines]. lia.
  - assert (total {| conn := c; rd := r; goroutines := map cancel_listener (a ++ go w l CloseShutdown :: b) |} = total {| conn := c; rd := r; goroutines := a ++ go w l CloseShutdown :: b |}) as ->.
    { unfold total. cbn [goroutines]. rewrite map_map. f_equal. apply map_ext. by intros [? [] ?]. }
    rewrite !total_middle. cbn. lia.
  - rewrite !total_middle. cbn. lia.
Qed.

(** The subscription's goroutine never waits in [Close]. *)
Fixpoint no_close (p : point) : bool :=
  match p with
  | CloseStart | CloseCancel | CloseShutdown | CloseWait => false
  | Lock _ k | Checking _ k | Writing _ k | Unlocking _ k | Written _ k | Abandon _ k => match k with InitializedK => false | _ => true end
  | Shutdown next | Clearing next => no_close next
  | _ => true
  end.
Definition quiet (s : program) : Prop := forall g, g ∈ goroutines s -> listener g = true -> no_close (at_ g) = true.
Lemma move_no_close c w p c' w' p' : move c w p c' w' p' -> no_close p = true -> no_close p' = true.
Proof.
  intros Hm. inv Hm; cbn [no_close]; try done; try (by destruct k).
  - by destruct w'.
  - by destruct k; injection H as <- <-.
  - unfold call_given_up in H. destruct (remove _ _). injection H as <- <-. by destruct (_ && _).
Qed.
Lemma quiet_moved c c' r r' w w' l p p' a b : (no_close p = true -> no_close p' = true) -> quiet {| conn := c; rd := r; goroutines := a ++ go w l p :: b |} -> quiet {| conn := c'; rd := r'; goroutines := a ++ go w' l p' :: b |}.
Proof.
  intros Hp Hq g [->|Hin]%(elem_of_moved a (go w l p)) Hl; [|by apply Hq]. apply Hp. apply (Hq (go w l p)); [apply elem_of_middle|done].
Qed.
Lemma step_quiet s t : step s t -> quiet s -> quiet t.
Proof.
  intros [H|H] Hq; inv H; try exact Hq; try (intros g [->|Hin]%elem_of_cons Hl; [done|by apply Hq]).
  - eapply quiet_moved; [|exact Hq]. by eapply move_no_close.
  - intros g (h & -> & Hin)%list_elem_of_fmap Hl. assert (quiet {| conn := c; rd := r; goroutines := a ++ go w l CloseShutdown :: b |}) as Hq' by by eapply quiet_moved; [|exact Hq].
    assert (listener h = true) as Hh by by destruct h as [? [] ?]. specialize (Hq' h Hin Hh). by destruct h as [? [] ?].
  - eapply quiet_moved; [|exact Hq]. done.
  - eapply quiet_moved; [|exact Hq]. done.
  - apply handle_out in H0 as [_ Hn]. intros g [Hin|Hin]%elem_of_app Hl; [|by apply Hq]. by destruct (Hn g Hin) as [m ->].
Qed.

Definition can_move (c : StdioConnection) (g : goroutine) : Prop := exists c' w' p', move c (cancelled g) (at_ g) c' w' p'.
Lemma moves c g : done_ c = true -> match at_ g with Returned _ _ | CloseCancel | CloseWait => False | Lock _ _ => gate (out c) = true | _ => True end -> can_move c g.
Proof.
  intros Hd. destruct g as [w l p]. unfold can_move. cbn [at_ cancelled]. destruct p; try done.
  - intros _. destruct (register (calls c)) as [[p id] ch] eqn:E. eexists _, _, _. by econstructor.
  - intros _. eexists _, _, _. by apply move_closed.
  - intros Hg. eexists _, _, _. by apply move_lock.
  - intros _. eexists _, _, _. by apply move_check.
  - intros _. eexists _, _, _. by apply move_write_failed.
  - intros _. eexists _, _, _. by apply move_unlock.
  - intros _. destruct e as [e|]; [|eexists _, _, _; by apply move_written]. destruct (withdraw c e k) as [c' p] eqn:E. eexists _, _, _. by eapply move_write_error.
  - intros _. destruct (never_started w e) eqn:E; eexists _, _, _; [by apply move_spared|by apply move_abandon].
  - intros _. eexists _, _, _. by apply move_shutdown.
  - intros _. destruct (register (calls c)) as [[p id] ch] eqn:E. eexists _, _, _. by eapply move_listen.
  - intros _. eexists _, _, _. by apply move_listen_set with (params := "").
  - intros _. eexists _, _, _. apply move_retire. by rewrite Hd, orb_true_r.
  - intros _. eexists _, _, _. by apply move_clear.
  - intros _. eexists _, _, _. by apply move_close.
  - intros _. eexists _, _, _. by apply move_close_shutdown.
Qed.
Lemma goroutine_steps c r ts g : g ∈ ts -> can_move c g -> exists t, own_step {| conn := c; rd := r; goroutines := ts |} t.
Proof.
  intros (a & b & ->)%list_elem_of_split (c' & w' & p' & Hm). destruct g as [w l p]. eexists. by apply own_move with (l := l) (r := r) (a := a) (b := b) in Hm.
Qed.
(** A goroutine that waits for the gate waits for one that moves. *)
Lemma unfinished_steps s g : framed s -> done_ (conn s) = true -> g ∈ goroutines s -> finished (at_ g) = false -> at_ g <> CloseWait -> exists t, own_step s t.
Proof.
  intros Hf Hd Hin Hfin Hcw. destruct s as [c r ts]. cbn [conn goroutines] in *.
  destruct (at_ g) eqn:E; try done; try (apply (goroutine_steps c r ts g Hin), moves; [done|by rewrite E]).
  - destruct (gate (out c)) eqn:Eg; [apply (goroutine_steps c r ts g Hin), moves; [done|by rewrite E]|].
    destruct (existsb holds ts) eqn:Ex.
    + apply existsb_exists in Ex as (h & Hh & Hold). apply list_elem_of_In in Hh. apply (goroutine_steps c r ts h Hh), moves; [done|]. unfold holds in Hold. by destruct (at_ h).
    + exfalso. pose proof (f_gate _ Hf) as Hc. cbn in Hc. rewrite Eg, count_zero in Hc; [done|]. intros h Hh. destruct (holds h) eqn:Eh; [|done]. apply not_true_iff_false in Ex. destruct Ex. apply existsb_exists. exists h. by rewrite <- list_elem_of_In.
  - apply list_elem_of_split in Hin as (a & b & ->). destruct g as [w l p]. cbn in E. subst p. eexists. by apply own_close_cancel.
Qed.

(** ** Properties *)

(** C13: A call that returns with a response returns with the response to its own request; the reader never waits to hand a response over; no channel is closed twice, and nothing stops the program but a response whose id cannot be a map key. *)
Theorem stdio_responses_routed s : rtc step start s ->
  (forall g id r, g ∈ goroutines s -> at_ g = Returned (Some id) (Answer r) -> key r = Number id) /\
  (forall a rest, rd s = Reading (a :: rest) -> run_action out_of_range (conn s) a rest <> None) /\
  (forall p, rd s = Crashed p -> p = UnhashableKey).
Proof.
  intros [Hc Hs Hr Hp]%reachable_routed. split_and!.
  - intros g id r Hin He. specialize (Hp g Hin). by rewrite He in Hp.
  - intros a rest He. rewrite He in Hr. destruct a; try done; cbn [run_action]; [by destruct (noteSubscriptionResponse _ _ _)|].
    destruct Hr as [Hr|(ch' & r' & rest' & [= <- <- <-] & _ & Hsend)]; [by destruct (Hr ch r); left|]. by destruct (send_inv _ _ _ Hc Hsend) as (p & -> & _).
  - intros p He. by rewrite He in Hr.
Qed.

Lemma closed_pipe_kept s t : rtc step s t -> stdin_open (out (conn s)) = false -> written (out (conn t)) = written (out (conn s)).
Proof.
  intros Hr Ho. assert (stdin_open (out (conn t)) = false /\ written (out (conn t)) = written (out (conn s))) as [_ H]; [|done]. revert Ho. induction Hr as [|x y z Hxy _ IH]; [done|]. intros Ho.
  assert (stdin_open (out (conn y)) = false /\ written (out (conn y)) = written (out (conn x))) as [Hoy Hwy].
  { destruct Hxy as [H|H]; inv H; try done; cbn [conn] in *; [by eapply move_open|apply handle_out in H0 as [-> _]; done|apply act_out in H0 as ->; done]. }
  destruct (IH Hoy) as [H1 H2]. split; [done|congruence].
Qed.
(** C14: One goroutine at a time writes to the server, and a line cut short is the end of it: the goroutine that broke it is about to close the pipe, or the pipe is closed and nothing is written any more. *)
Theorem stdin_framing s : rtc step start s ->
  count holds (goroutines s) <= 1 /\
  (forall m, Part m ∈ written (out (conn s)) -> (exists g, g ∈ goroutines s /\ ending (at_ g) = true) \/ forall t, rtc step s t -> written (out (conn t)) = written (out (conn s))).
Proof.
  intros [_ Hg Ht]%reachable_framed. split; [destruct (gate _); cbn in Hg; lia|]. intros m Hm. destruct Ht as [Ho|He]; [by exists m| |by left]. right. intros t Hr. by apply closed_pipe_kept.
Qed.

End steps.

(** ** Runs *)
Ltac alone tac := eapply rtc_l; [left; eapply (own_move _ _ _ _ _ _ _ _ [] []); tac|cbn [app succeeded failed]].
Ltac meanwhile tac := eapply rtc_l; [right; tac|cbn [app]].
Definition an_answer : string := "{" +:+ q "id" +:+ ":1," +:+ q "result" +:+ ":{}}".
Lemma answered_run : exists s r, rtc (step (fun _ => 0)) start s /\ (exists g, g ∈ goroutines s /\ at_ g = Returned (Some 1) (Answer r)) /\ done_ (conn s) = true.
Proof.
  eexists _, _. split; [|split].
  - unfold start. meanwhile ltac:(apply step_call with (method := "tools/list") (params := "")). alone ltac:(eapply move_rpc; reflexivity). alone ltac:(eapply move_lock; reflexivity). alone ltac:(eapply move_check).
    alone ltac:(eapply move_write; reflexivity). alone ltac:(eapply move_unlock). alone ltac:(eapply move_written). meanwhile ltac:(eapply step_line with (line := an_answer); vm_compute; reflexivity).
    meanwhile ltac:(eapply step_action; vm_compute; reflexivity). meanwhile ltac:(eapply step_action; vm_compute; reflexivity). meanwhile ltac:(eapply step_action; vm_compute; reflexivity).
    alone ltac:(eapply move_answer; reflexivity). meanwhile ltac:(eapply step_end). apply rtc_refl.
  - eexists. split; [apply list_elem_of_here|reflexivity].
  - reflexivity.
Qed.
Lemma stdio_responses_routed_witness : exists s g r, (rtc (step (fun _ => 0)) start s /\ g ∈ goroutines s /\ at_ g = Returned (Some 1) (Answer r)) /\ normalizeID (fun _ => 0) (ID r) = Number 1.
Proof.
  destruct answered_run as (s & r & Hr & (g & Hg & He) & _). exists s, g, r. split; [done|]. destruct (stdio_responses_routed (fun _ => 0) s Hr) as (H & _). exact (H g 1 r Hg He).
Defined.

(** A call whose write fails, while another waits for the gate: the other may write its line
    between the unlocking and the end of the connection. *)
Definition second_after_part (s : program) : Prop := exists m m', written (out (conn s)) = [Part m; Line m'].
Ltac first_of tac := eapply rtc_l; [left; eapply (own_move _ _ _ _ _ _ _ _ [] [_]); tac|cbn [app succeeded failed]].
Ltac second_of tac := eapply rtc_l; [left; eapply (own_move _ _ _ _ _ _ _ _ [_] []); tac|cbn [app succeeded failed]].
Lemma line_after_part : exists s, rtc (step (fun _ => 0)) start s /\ second_after_part s /\ (exists g, g ∈ goroutines s /\ ending (at_ g) = true) /\ exists m, Part m ∈ written (out (conn s)).
Proof.
  eexists. split; [|split; [|split]].
  - unfold start. meanwhile ltac:(apply step_call with (method := "tools/call") (params := "")). meanwhile ltac:(apply step_call with (method := "tools/list") (params := "")).
    first_of ltac:(eapply move_rpc; reflexivity). second_of ltac:(eapply move_rpc; reflexivity). first_of ltac:(eapply move_lock; reflexivity). first_of ltac:(eapply move_check). first_of ltac:(eapply move_write_failed).
    first_of ltac:(eapply move_unlock). second_of ltac:(eapply move_lock; reflexivity). second_of ltac:(eapply move_check). second_of ltac:(eapply move_write; reflexivity). apply rtc_refl.
  - eexists _, _. reflexivity.
  - eexists. split; [apply list_elem_of_here|reflexivity].
  - eexists. apply list_elem_of_here.
Qed.
Lemma stdin_framing_witness : exists s m, (rtc (step (fun _ => 0)) start s /\ Part m ∈ written (out (conn s))) /\ count holds (goroutines s) <= 1 /\
  ((exists g, g ∈ goroutines s /\ ending (at_ g) = true) \/ forall t, rtc (step (fun _ => 0)) s t -> written (out (conn t)) = written (out (conn s))).
Proof.
  destruct line_after_part as (s & Hr & _ & _ & m & Hm). exists s, m. split; [done|]. destruct (stdin_framing (fun _ => 0) s Hr) as [H1 H2]. exact (conj H1 (H2 m Hm)).
Defined.

(** A response whose id is an array stops the program: the map of calls cannot look it up. *)
Definition array_id : string := "{" +:+ q "id" +:+ ":[1]," +:+ q "result" +:+ ":{}}".
Example unhashable_id_panics : exists s, rtc (step (fun _ => 0)) start s /\ rd s = Crashed UnhashableKey.
Proof.
  eexists. split.
  - unfold start. meanwhile ltac:(eapply step_line with (line := array_id); vm_compute; reflexivity). meanwhile ltac:(eapply step_action; vm_compute; reflexivity).
    meanwhile ltac:(eapply step_action_panic; vm_compute; reflexivity). apply rtc_refl.
  - reflexivity.
Qed.
