(* ===== verification/StdioSetup.v ===== *)
(** * How a subprocess is spoken to (src/internal/transport/stdio_negotiate.go)

    A new subprocess is asked for the protocol it speaks before anything else; one that does
    not answer, or exits, is started again and greeted the old way.  [env] holds what the
    code observes: the answers to its requests and the state of the context at each check. *)
From S2P Require Import Prelude GoStr Config JsonText RequestMeta Rpc.

Inductive rpc_reply : Type := Replied (raw : string) | Rejected (e : RPCError) | Failed.
(** What is done to the outside, in order. *)
Inductive request : Type := AskDiscover (version : string) | AskInitialize | SendInitialized | CloseProcess | StartProcess.
Inductive setup_error : Type := ContextError | ProbeUnanswered | ExplicitModern (e : discover_error) | RetryFailed (version : string) | CallFailed | CannotStart | AfterRestart (unanswered : bool) (cause : setup_error) | BadInitialize (e : discover_error).
Record env : Type := {
  ctx_err : nat -> bool; (* the context, each time it is asked *)
  remaining : option Z; (* the time until its deadline *)
  probe_done : nat -> bool; (* the probe's own context: after the first, after the second request *)
  probe_reply : rpc_reply; retry_reply : rpc_reply;
  init_reply : bool -> rpc_reply; (* before and after the restart *)
  init_written : bool -> bool; exited : bool; started : bool }.
Record established : Type := { e_version : string (* empty: legacy *); e_listen : bool; e_restarted : bool }.

(** Requests and an outcome. *)
Definition run (A : Type) : Type := list request * res setup_error A.
Definition ret {A} (a : A) : run A := ([], Ok a).
Definition fail {A} (e : setup_error) : run A := ([], Err e).
Definition ask (q : request) : run unit := ([q], Ok tt).
Definition bind {A B} (x : run A) (f : A -> run B) : run B :=
  match snd x with Ok a => (fst x ++ fst (f a), snd (f a)) | Err e => (fst x, Err e) end.
Notation "'do!' x <- a ; b" := (bind a (fun x => b)) (at level 200, x pattern, a at level 100, b at level 200).

Definition second : Z := 1000000000.
Definition stdioDiscoveryTimeout : Z := 5 * second.
Definition discoveryBudget (e : env) : Z :=
  match remaining e with
  | Some rest => if rest ÷ 2 <? stdioDiscoveryTimeout then rest ÷ 2 else stdioDiscoveryTimeout
  | None => stdioDiscoveryTimeout
  end.

Definition explicit {A} (r : res discover_error A) : run A := match r with Ok a => ret a | Err e => fail (ExplicitModern e) end.
Definition retryWithoutModernVersion (result version : string) : discover_error :=
  match discoverSupportedVersions result with Some versions => unsupportedVersionError versions "" version | None => NoVersionsListed version end.
Definition discoverCorrected (e : env) (version : string) : run probeVerdict :=
  do! _ <- ask (AskDiscover version);
  match retry_reply e with
  | Replied result =>
      if probe_done e 1 then fail ContextError
      else
        do! verdict <- explicit (classifyDiscoverResult result version);
        match era verdict with EraModern => ret verdict | EraLegacy => fail (ExplicitModern (retryWithoutModernVersion result version)) end
  | _ => fail (RetryFailed version)
  end.
Definition classifyDiscoveryRPCError (e : env) (err : RPCError) (version : string) : run probeVerdict :=
  do! verdict <- explicit (classifyDiscoverRejection err version);
  match era verdict with EraModern => discoverCorrected e (v_version verdict) | EraLegacy => ret verdict end.
Definition classifyDiscoveryError (e : env) (err : option RPCError) (version : string) : run probeVerdict :=
  if ctx_err e 1 then fail ContextError
  else
    match err with
    | Some err => classifyDiscoveryRPCError e err version
    | None => fail (if probe_done e 0 then ProbeUnanswered else CallFailed)
    end.
Definition discover (e : env) : run probeVerdict :=
  if discoveryBudget e <=? 0 then (if ctx_err e 0 then fail ContextError else ret legacyProbeVerdict)
  else
    let version := hd "" ModernVersions in
    do! _ <- ask (AskDiscover version);
    match probe_reply e with
    | Replied result => if ctx_err e 1 then fail ContextError else explicit (classifyDiscoverResult result version)
    | Rejected err => classifyDiscoveryError e (Some err) version
    | Failed => classifyDiscoveryError e None version
    end.
Definition initialize (e : env) (restarted : bool) : run unit :=
  do! _ <- ask AskInitialize;
  match init_reply e restarted with
  | Replied raw =>
      match parseInitializeResult raw with
      | Err err => fail (BadInitialize err)
      | Ok _ => do! _ <- ask SendInitialized; if init_written e restarted then ret tt else fail CallFailed
      end
  | _ => fail CallFailed
  end.
(** An error of the discovery is the context's when that has ended. *)
Definition setUpEra (e : env) : run established :=
  let d := discover e in
  match snd d with
  | Err err => (fst d, Err (if ctx_err e 2 then ContextError else err))
  | Ok verdict =>
      do! _ <- (fst d, Ok tt);
      match era verdict with
      | EraLegacy => do! _ <- initialize e false; ret {| e_version := ""; e_listen := false; e_restarted := false |}
      | EraModern => ret {| e_version := v_version verdict; e_listen := v_listen verdict; e_restarted := false |}
      end
  end.
(** [errors.As] finds the explicit answers of a modern server, a failed second probe among them. *)
Definition is_explicit (err : setup_error) : bool := match err with ExplicitModern _ | RetryFailed _ => true | _ => false end.
Definition exitedBeforeSetup (e : env) (err : setup_error) : bool := negb (ctx_err e 3) && negb (is_explicit err) && exited e.
Definition restartWithInitialize (e : env) (unanswered : bool) : run established :=
  if ctx_err e 5 then fail ContextError
  else
    do! _ <- ask StartProcess;
    if negb (started e) then fail (AfterRestart unanswered CannotStart)
    else
      match snd (initialize e true) with
      | Ok _ => (fst (initialize e true), Ok {| e_version := ""; e_listen := false; e_restarted := true |})
      | Err err => (fst (initialize e true) ++ [CloseProcess], Err (AfterRestart unanswered err))
      end.
Definition negotiate (e : env) : run established :=
  let s := setUpEra e in
  match snd s with
  | Ok x => s
  | Err ProbeUnanswered => do! _ <- (fst s ++ [CloseProcess], Ok tt); if ctx_err e 4 then fail ContextError else restartWithInitialize e true
  | Err err =>
      if exitedBeforeSetup e err then do! _ <- (fst s ++ [CloseProcess], Ok tt); if ctx_err e 4 then fail ContextError else restartWithInitialize e false
      else (fst s ++ [CloseProcess], Err err)
  end.

(** ** What was asked *)
Lemma bind_ok {A B} (x : run A) (f : A -> run B) b : snd (bind x f) = Ok b -> exists a, snd x = Ok a /\ snd (f a) = Ok b /\ fst (bind x f) = fst x ++ fst (f a).
Proof. unfold bind. destruct (snd x) as [a|]; [|done]. eauto. Qed.
Lemma initialize_asked e r : exists n, fst (initialize e r) = AskInitialize :: n /\ (n = [] \/ n = [SendInitialized]).
Proof.
  unfold initialize, bind. cbn. destruct (init_reply e r); cbn; [|eauto..]. destruct (parseInitializeResult raw); cbn; [|eauto]. destruct (init_written e r); cbn; eauto.
Qed.
Lemma explicit_ok {A} (r : res discover_error A) a : snd (explicit r) = Ok a -> r = Ok a.
Proof. destruct r; cbn; congruence. Qed.
Lemma explicit_quiet {A} (r : res discover_error A) : fst (explicit r) = [].
Proof. by destruct r. Qed.

(** The discovery asks for nothing but discovery, and a modern verdict rests on an answer that lists its version. *)
Definition discovering (q : request) : Prop := match q with AskDiscover _ => True | _ => False end.
Definition listed (e : env) (v : string) (announced : bool) : Prop := exists raw versions requested, (probe_reply e = Replied raw \/ retry_reply e = Replied raw) /\
  discoverSupportedVersions raw = Some versions /\ v ∈ versions /\ v ∈ ModernVersions /\ ResultTypeOf raw = Ok ResultComplete /\ classifyDiscoverResult raw requested = Ok {| era := EraModern; v_version := v; v_listen := announced |}.
Definition sound (e : env) (r : run probeVerdict) : Prop :=
  Forall discovering (fst r) /\ forall v, snd r = Ok v -> era v = EraModern -> listed e (v_version v) (v_listen v).
Lemma sound_fail e err : sound e (fail err).
Proof. done. Qed.
Lemma sound_legacy e w : era w = EraLegacy -> sound e (ret w).
Proof. intros Hw. split; [done|]. intros ? [= <-]. congruence. Qed.
Lemma sound_ask e v r : sound e r -> sound e (do! _ <- ask (AskDiscover v); r).
Proof. intros [H1 H2]. split; [by constructor|done]. Qed.
Lemma sound_result e raw requested : probe_reply e = Replied raw \/ retry_reply e = Replied raw -> sound e (explicit (classifyDiscoverResult raw requested)).
Proof.
  intros Hraw. split; [by rewrite explicit_quiet|]. intros v Hv%explicit_ok Hm. pose proof (modern_verdict _ _ _ Hv Hm) as (versions & ?). exists raw, versions, requested. destruct v as [era v l]. cbn in *. subst era. tauto.
Qed.
Lemma discoverCorrected_sound e v : sound e (discoverCorrected e v).
Proof.
  unfold discoverCorrected. apply sound_ask. destruct (retry_reply e) as [raw| |] eqn:E; [|done..]. destruct (probe_done e 1); [done|].
  destruct (sound_result e raw v (or_intror E)) as [H1 H2]. unfold bind. destruct (snd (explicit _)) as [w|] eqn:Ew; [|by split]. rewrite explicit_quiet. destruct (era w) eqn:Ee; [done|]. split; [done|]. intros ? [= <-]. by apply H2.
Qed.
Lemma discover_sound e : sound e (discover e).
Proof.
  unfold discover. destruct (_ <=? 0); [destruct (ctx_err e 0); [done|by apply sound_legacy]|]. apply sound_ask. destruct (probe_reply e) as [raw|err|] eqn:E.
  - destruct (ctx_err e 1); [done|]. apply sound_result. by left.
  - unfold classifyDiscoveryError. destruct (ctx_err e 1); [done|]. unfold classifyDiscoveryRPCError, bind. destruct (snd (explicit _)) as [w|] eqn:Ew; [|by rewrite explicit_quiet]. rewrite explicit_quiet.
    destruct (era w) eqn:Ee; [by apply sound_legacy|]. rewrite app_nil_l. destruct (discoverCorrected_sound e (v_version w)) as [H1 H2]. by split.
  - unfold classifyDiscoveryError. by destruct (ctx_err e 1).
Qed.

(** The requests and the outcome, with the discovery's apart. *)
Definition asks_initialize (l : list request) : Prop := AskInitialize ∈ l.
Lemma discovering_only l : Forall discovering l -> ~ asks_initialize l.
Proof. intros Hl Hin. rewrite Forall_forall in Hl. by apply Hl in Hin. Qed.
Lemma initialize_ok e r u : snd (initialize e r) = Ok u -> exists raw v, init_reply e r = Replied raw /\ parseInitializeResult raw = Ok v.
Proof.
  unfold initialize, bind. cbn. destruct (init_reply e r) as [raw| |]; [|done..]. destruct (parseInitializeResult raw) as [v|] eqn:Ep; [|done]. by exists raw, v.
Qed.
Lemma setUp_ok e x : snd (setUpEra e) = Ok x -> e_restarted x = false /\
  ((e_version x = "" /\ exists raw v, init_reply e false = Replied raw /\ parseInitializeResult raw = Ok v) \/ (listed e (e_version x) (e_listen x) /\ ~ asks_initialize (fst (setUpEra e)))).
Proof.
  destruct (discover_sound e) as [Hd Hs]. unfold setUpEra. destruct (snd (discover e)) as [v|err]; [|done]. unfold bind. cbn [fst snd]. destruct (era v) eqn:Ee.
  - destruct (snd (initialize e false)) as [u|] eqn:Ei; [|done]. intros [= <-]. split; [done|]. left. split; [done|]. by eapply initialize_ok.
  - intros [= <-]. split; [done|]. right. split; [by apply Hs|]. cbn. rewrite app_nil_r. by apply discovering_only.
Qed.
Lemma restart_ok e b x : snd (restartWithInitialize e b) = Ok x -> e_restarted x = true /\ e_version x = "" /\ exists raw v, init_reply e true = Replied raw /\ parseInitializeResult raw = Ok v.
Proof.
  unfold restartWithInitialize. destruct (ctx_err e 5); [done|]. unfold bind. cbn [snd ask]. destruct (negb (started e)); [done|]. destruct (snd (initialize e true)) as [u|] eqn:Ei; [|done]. intros [= <-]. split_and!; [done..|]. by eapply initialize_ok.
Qed.
(** A failed discovery that names its server modern is the outcome. *)
Lemma explicit_stops e err : snd (setUpEra e) = Err err -> is_explicit err = true -> snd (negotiate e) = Err err /\ ~ asks_initialize (fst (negotiate e)).
Proof.
  intros He Hx. destruct (discover_sound e) as [Hd _]. assert (~ asks_initialize (fst (setUpEra e))) as Hno.
  { unfold setUpEra in *. destruct (snd (discover e)) as [v|err']; cbn [fst snd] in *; [|by apply discovering_only]. unfold bind in *. cbn [fst snd] in *. destruct (era v); [|done].
    destruct (snd (initialize e false)) as [u|ei] eqn:Ei; [done|]. injection He as ->. exfalso. clear -Ei Hx. unfold initialize, bind in Ei. cbn in Ei. destruct (init_reply e false) as [raw| |]; cbn in Ei; [|by injection Ei as <-..].
    destruct (parseInitializeResult raw); cbn in Ei; [|by injection Ei as <-]. destruct (init_written e false); [done|by injection Ei as <-]. }
  unfold negotiate. rewrite He. assert (exitedBeforeSetup e err = false) as Hex by (unfold exitedBeforeSetup; rewrite Hx; by rewrite andb_false_r).
  assert (~ asks_initialize (fst (setUpEra e) ++ [CloseProcess])) as Hlast by (unfold asks_initialize in *; rewrite elem_of_app, list_elem_of_singleton; by intros [?|?]).
  rewrite Hex. destruct err; done.
Qed.
(** The processes that run after the requests: one runs before them. *)
Definition process (e : env) (q : request) : Z := match q with CloseProcess => -1 | StartProcess => if started e then 1 else 0 | _ => 0 end.
Definition alive (e : env) (l : list request) : Z := foldr (fun q n => process e q + n) 1 l.
Definition balance (e : env) (l : list request) : Z := foldr (fun q n => process e q + n) 0 l.
Lemma alive_app e a b : alive e (a ++ b) = balance e a + alive e b.
Proof. unfold alive, balance. induction a as [|q a IH]; cbn in *; lia. Qed.
Lemma alive_balance e l : alive e l = 1 + balance e l.
Proof. rewrite <- (app_nil_r l) at 1. rewrite alive_app. cbn. lia. Qed.
Lemma discovering_balance e l : Forall discovering l -> balance e l = 0.
Proof. induction 1 as [|q l Hq _ IH]; [done|]. cbn. unfold balance in IH. rewrite IH. by destruct q. Qed.
Lemma initialize_balance e r : balance e (fst (initialize e r)) = 0.
Proof. destruct (initialize_asked e r) as (n & -> & [->| ->]); done. Qed.
Lemma balance_app e a b : balance e (a ++ b) = balance e a + balance e b.
Proof. pose proof (alive_app e a b). rewrite !alive_balance in H. lia. Qed.
Lemma setUp_balance e : balance e (fst (setUpEra e)) = 0.
Proof.
  destruct (discover_sound e) as [Hd _]. pose proof (discovering_balance e _ Hd) as H0. unfold setUpEra. destruct (snd (discover e)) as [v|]; [|done]. unfold bind. cbn [fst snd]. destruct (era v).
  - pose proof (initialize_balance e false) as Hi. destruct (snd (initialize e false)); cbn [fst snd ret]; rewrite !balance_app, ?Hi, H0; done.
  - cbn [fst snd ret]. by rewrite balance_app, H0.
Qed.
Definition is_ok {A} (r : res setup_error A) : bool := match r with Ok _ => true | Err _ => false end.
Lemma restart_balance e b : balance e (fst (restartWithInitialize e b)) = if is_ok (snd (restartWithInitialize e b)) then 1 else 0.
Proof.
  unfold restartWithInitialize. destruct (ctx_err e 5); [done|]. unfold bind. cbn [fst snd ask]. destruct (started e) eqn:Es; cbn [negb].
  - pose proof (initialize_balance e true) as Hi. destruct (snd (initialize e true)); cbn [fst snd]; rewrite !balance_app, Hi; cbn; by rewrite Es.
  - cbn. by rewrite Es.
Qed.
Lemma closed_restart e l b : balance e l = 0 -> let r := do! _ <- (l ++ [CloseProcess], Ok tt); if ctx_err e 4 then fail ContextError else restartWithInitialize e b in
  alive e (fst r) = if is_ok (snd r) then 1 else 0.
Proof.
  intros Hl. cbv zeta. rewrite alive_balance. unfold bind. cbn [fst snd]. rewrite !balance_app, Hl. destruct (ctx_err e 4); [done|]. rewrite restart_balance. destruct (is_ok _); done.
Qed.
Lemma negotiate_alive e : alive e (fst (negotiate e)) = if is_ok (snd (negotiate e)) then 1 else 0.
Proof.
  unfold negotiate. pose proof (setUp_balance e) as Hb. destruct (snd (setUpEra e)) as [x|err] eqn:E; [rewrite alive_balance, Hb, E; done|].
  assert (alive e (fst (setUpEra e) ++ [CloseProcess]) = 0) as Hclosed by (rewrite alive_app, Hb; done).
  pose proof (closed_restart e (fst (setUpEra e)) true Hb) as H1. pose proof (closed_restart e (fst (setUpEra e)) false Hb) as H2. cbv zeta in H1, H2.
  destruct err; try exact H1; destruct (exitedBeforeSetup e _); try exact H2; exact Hclosed.
Qed.


(** A modern server; one that exits when asked and is started again; one that refuses as a modern server. *)
Definition modern_answer : string := "{" +:+ q "supportedVersions" +:+ ":[" +:+ q "2026-07-28" +:+ "]," +:+ q "capabilities" +:+ ":{" +:+ q "tools" +:+ ":{" +:+ q "listChanged" +:+ ":true}}}".
Definition legacy_answer : string := "{" +:+ q "protocolVersion" +:+ ":" +:+ q "2025-06-18" +:+ "}".
Definition env_of (probe : rpc_reply) (exits : bool) : env :=
  {| ctx_err := fun _ => false; remaining := None; probe_done := fun _ => false; probe_reply := probe; retry_reply := Failed; init_reply := fun _ => Replied legacy_answer; init_written := fun _ => true;
     exited := exits; started := true |}.
Example negotiate_ex :
  negotiate (env_of (Replied modern_answer) false) = ([AskDiscover "2026-07-28"], Ok {| e_version := "2026-07-28"; e_listen := true; e_restarted := false |}) /\
  negotiate (env_of Failed true) = ([AskDiscover "2026-07-28"; CloseProcess; StartProcess; AskInitialize; SendInitialized], Ok {| e_version := ""; e_listen := false; e_restarted := true |}) /\
  negotiate (env_of (Rejected {| Code := -32601; Message := ""; Data := "" |}) false) = ([AskDiscover "2026-07-28"; AskInitialize; SendInitialized], Ok {| e_version := ""; e_listen := false; e_restarted := false |}) /\
  fst (negotiate (env_of (Rejected {| Code := -32021; Message := ""; Data := "" |}) true)) = [AskDiscover "2026-07-28"; CloseProcess].
Proof. vm_compute. tauto. Qed.
