(* ===== verification/JsonIndent.v ===== *)
(** * Indented JSON

    The encoder of [encoding/json] with [SetIndent] and without HTML escapes, for values that
    were decoded or built from such, and that its output reads back as the same value. *)
From S2P Require Import Prelude GoStr Utf8 Config JsonText JsonToken JsonTokenProps JsonObject JsonTree JsonCompact JsonParts Projection JsonMeaning.

(** A line break and two spaces for each level. *)
Fixpoint blanks (n : nat) : string := match n with O => "" | S n => String " " (String " " (blanks n)) end.
Definition newline (depth : nat) : string := String (az 10) (blanks depth).
Fixpoint indented (depth : nat) (v : json) : string :=
  match v with
  | JNull => "null"
  | JBool b => if b then "true" else "false"
  | JNum n => n
  | JStr s => json_string false s
  | JArr [] => "[]"
  | JArr l => "[" +:+ newline (S depth) +:+ join ("," +:+ newline (S depth)) (map (indented (S depth)) l) +:+ newline depth +:+ "]"
  | JObj [] => "{}"
  | JObj fs =>
      "{" +:+ newline (S depth) +:+ join ("," +:+ newline (S depth)) (map (fun kv => json_string false (fst kv) +:+ ": " +:+ indented (S depth) (snd kv)) fs) +:+
      newline depth +:+ "}"
  end.
(** An object of each key once, in the order of the keys. *)
Definition object (m : gmap string json) : json := JObj (sorted_members (map_to_list m)).
Definition members_map (fs : list (string * json)) : gmap string json := foldl (fun m kv => <[fst kv := snd kv]> m) ∅ fs.

(** ** What decoding gives *)
Definition number_text (n : string) : Prop := exists c p, n = String c p /\ json_space c = false /\ c <> "["%char /\ c <> "{"%char /\ decode_scalar n = Some (JNumber n, "").
Fixpoint good (d : nat) (v : json) : Prop :=
  match v with
  | JNull | JBool _ => True
  | JNum n => number_text n
  | JStr s => valid_utf8 s = true
  | JArr l => (d < max_nesting)%nat /\ (fix all l := match l with [] => True | x :: l => good (S d) x /\ all l end) l
  | JObj fs => (d < max_nesting)%nat /\ object (members_map fs) = JObj fs /\ (fix all fs := match fs with [] => True | (k, x) :: fs => (valid_utf8 k = true /\ good (S d) x) /\ all fs end) fs
  end.
Definition good_member (d : nat) (kv : string * json) : Prop := valid_utf8 (fst kv) = true /\ good d (snd kv).
Lemma good_array d l : good d (JArr l) <-> (d < max_nesting)%nat /\ Forall (good (S d)) l.
Proof.
  cbn [good]. apply and_iff_compat_l. induction l as [|x l IH]; [by split|]. rewrite IH. split; [intros [? ?]; by constructor|by intros [? ?]%Forall_cons].
Qed.
Lemma good_object d fs : good d (JObj fs) <-> (d < max_nesting)%nat /\ object (members_map fs) = JObj fs /\ Forall (good_member (S d)) fs.
Proof.
  cbn [good]. apply and_iff_compat_l, and_iff_compat_l. induction fs as [|[k x] fs IH]; [by split|]. rewrite IH. split; [intros [? ?]; by constructor|by intros [? ?]%Forall_cons].
Qed.

Lemma members_map_app a b : members_map (a ++ b) = foldl (fun m kv => <[fst kv := snd kv]> m) (members_map a) b.
Proof. unfold members_map. by rewrite foldl_app. Qed.
Lemma members_map_lookup fs k v : NoDup fs.*1 -> members_map fs !! k = Some v <-> (k, v) ∈ fs.
Proof.
  unfold members_map. assert (forall m : gmap string json, NoDup fs.*1 -> foldl (fun m kv => <[fst kv := snd kv]> m) m fs !! k = Some v <-> (k, v) ∈ fs \/ (k ∉ fs.*1 /\ m !! k = Some v)) as H.
  { induction fs as [|[k' v'] fs IH]; intros m Hn; cbn [foldl fst snd]; [set_solver|]. rewrite fmap_cons, NoDup_cons in Hn. cbn [fst] in Hn. destruct Hn as [Hk' Hn]. rewrite IH by done. rewrite fmap_cons, !elem_of_cons, lookup_insert_Some. cbn [fst].
    split.
    - intros [?|(Hno & [[-> ->]|[Hne Hm]])]; [tauto| |]; [by left; left|]. right. split; [|done]. intros [?|?]; congruence.
    - intros [[[= -> ->]|?]|(Hno & Hm)]; [right; split; [done|by left]|by left|]. right. split; [tauto|]. right. split; [|done]. intros ->. apply Hno. by left. }
  intros Hn. rewrite H by done. rewrite lookup_empty. split; [intros [?|[_ ?]]; done|by left].
Qed.
Lemma object_members_keys m : NoDup (sorted_members (map_to_list m)).*1.
Proof. unfold sorted_members. rewrite merge_sort_Permutation. apply NoDup_fst_map_to_list. Qed.
Lemma elem_of_sorted m k v : (k, v) ∈ sorted_members (map_to_list m) <-> m !! k = Some v.
Proof. unfold sorted_members. rewrite merge_sort_Permutation. apply elem_of_map_to_list. Qed.
(** The members of an object give its map back. *)
Lemma members_map_object m : members_map (sorted_members (map_to_list m)) = m.
Proof. apply map_eq. intros k. apply option_eq. intros v. rewrite members_map_lookup by apply object_members_keys. apply elem_of_sorted. Qed.
Lemma object_of_map ms : object_of ms = object (members_map ms).
Proof. done. Qed.
Lemma good_object_map d m : good d (object m) <-> (d < max_nesting)%nat /\ map_Forall (fun k v => valid_utf8 k = true /\ good (S d) v) m.
Proof.
  unfold object. rewrite good_object, members_map_object, Forall_forall. apply and_iff_compat_l. split.
  - intros [_ H] k v Hk. apply (H (k, v)). by apply elem_of_sorted.
  - intros H. split; [done|]. intros [k v] Hin. apply elem_of_sorted in Hin. by apply (H k v).
Qed.
Lemma members_map_forall (P : string * json -> Prop) ms : Forall P ms -> map_Forall (fun k v => P (k, v)) (members_map ms).
Proof.
  unfold members_map. assert (forall m : gmap string json, map_Forall (fun k v => P (k, v)) m -> Forall P ms -> map_Forall (fun k v => P (k, v)) (foldl (fun m kv => <[fst kv := snd kv]> m) m ms)) as H.
  { induction ms as [|[k v] ms IH]; intros m Hm Hms; [done|]. apply Forall_cons in Hms as [H1 H2]. cbn [foldl fst snd]. apply IH; [|done]. by apply map_Forall_insert_2. }
  apply H. apply map_Forall_empty.
Qed.

Lemma grammar_good : (forall d p v, jvalue d p v -> good d v) /\ (forall d e l, jelements d e l -> Forall (good d) l) /\
  (forall d e ms, jmembers d e ms -> Forall (good_member d) (map (fun m => (fst (fst m), snd m)) ms)).
Proof.
  apply json_mutind.
  - intros d w c p t v _ Hc H1 H2 Ht Hv. destruct t; cbn [scalar] in Hv; simplify_eq; cbn [good]; try done.
    + exists c, p. assert (n = String c p) as ->; [|by split_and!]. clear -Ht. unfold decode_scalar in Ht. destruct (scan_scalar (String c p)) as [r|]; [|done]. assert (r = "") as -> by (repeat case_match; by simplify_eq).
      cbn [String.length] in Ht. rewrite Nat.sub_0_r in Ht. change (S (String.length p)) with (String.length (String c p)) in Ht. rewrite str_take_all in Ht. repeat case_match; by simplify_eq.
    + by eapply decode_scalar_valid.
  - intros d w w' _ _ Hd. by apply good_array.
  - intros d w e l _ Hd _ IH. apply good_array. done.
  - intros d w w' _ _ Hd. change (JObj []) with (object ∅). apply good_object_map. split; [done|]. apply map_Forall_empty.
  - intros d w e ms _ Hd _ IH. rewrite object_of_map. apply good_object_map. split; [done|]. by apply (members_map_forall (good_member (S d))).
  - intros. by constructor.
  - intros. by constructor.
  - intros. constructor; [|constructor]. split; [|done]. cbn. by eapply unquote_valid.
  - intros. cbn [map]. constructor; [|done]. split; [|done]. cbn. by eapply unquote_valid.
Qed.
Lemma decoded_good s v : decodeJSONValue s = Some v -> good 0 v.
Proof.
  intros H. destruct (json_valid s) eqn:Hs; [|unfold decodeJSONValue in H; by rewrite Hs in H]. destruct (valid_grammar s Hs) as (p & w & v' & -> & Hw & Hv). destruct (grammar_decoded 0 p w v' Hv Hw) as [_ E].
  rewrite H in E. injection E as ->. by apply (proj1 grammar_good) in Hv.
Qed.

(** ** What is written is such a text *)
Lemma spaces_app a b : spaces (a +:+ b) = spaces a && spaces b.
Proof. apply str_forall_app. Qed.
Lemma blanks_spaces n : spaces (blanks n) = true.
Proof. induction n as [|n IH]; [done|]. exact IH. Qed.
Lemma newline_spaces n : spaces (newline n) = true.
Proof. exact (blanks_spaces n). Qed.
Lemma jvalue_spaced d w p v : spaces w = true -> jvalue d p v -> jvalue d (w +:+ p) v.
Proof.
  intros Hw Hv. destruct Hv as [d w1 c q t x Hw1 Hc H1 H2|d w1 w2 Hw1|d w1 e l Hw1|d w1 w2 Hw1 Hw2|d w1 e ms Hw1 Hd Hms]; rewrite str_app_assoc;
    [eapply jv_scalar|apply jv_array_nil|apply jv_array|apply jv_object_nil|apply jv_object]; try done; by rewrite spaces_app, Hw.
Qed.
Lemma scalar_text d c p t v : json_space c = false -> c <> "["%char -> c <> "{"%char -> decode_scalar (String c p) = Some (t, "") -> scalar t = Some v -> jvalue d (String c p) v.
Proof. intros. by apply (jv_scalar d "" c p t v). Qed.
Lemma string_text d s : valid_utf8 s = true -> jvalue d (json_string false s) (JStr s).
Proof.
  intros Hs. pose proof (decode_scalar_string false s "" Hs) as H. rewrite str_app_nil_r in H. unfold json_string in *. eapply scalar_text; [..|exact H|]; done.
Qed.
Section level.
(** What comes before and after the elements, and after a colon. *)
Variables (w w' gap : string).
Hypotheses (Hw : spaces w = true) (Hw' : spaces w' = true) (Hgap : spaces gap = true).
Lemma elements_text d l (texts : json -> string) : Forall (fun v => jvalue d (texts v) v) l -> l <> [] -> jelements d (w +:+ join ("," +:+ w) (map texts l) +:+ w' +:+ "]") l.
Proof.
  induction 1 as [|v l Hv Hl IH]; intros Hne; [done|]. destruct l as [|v' l].
  - cbn [map join]. rewrite str_app_assoc. apply je_last; [by apply jvalue_spaced|done].
  - change (join ("," +:+ w) (map texts (v :: v' :: l))) with (texts v +:+ ("," +:+ w) +:+ join ("," +:+ w) (map texts (v' :: l))). rewrite <- !str_app_assoc.
    change ("," +:+ w +:+ ?x) with (String "," (w +:+ x)). rewrite (str_app_assoc w (texts v)). apply (je_more d (w +:+ texts v) v ""); [by apply jvalue_spaced|done|]. by apply IH.
Qed.
Lemma member_of d k p v e : valid_utf8 k = true -> jvalue d p v -> exists b, json_string false k +:+ ":" +:+ gap +:+ p +:+ e = String dquote (b +:+ String dquote (String ":" ((gap +:+ p) +:+ e))) /\
  scan_string (b +:+ String dquote "") = Some "" /\ unquote_literal b = Some k /\ jvalue d (gap +:+ p) v.
Proof.
  intros Hk Hp. exists (json_body false k). split_and!.
  - unfold json_string. cbn [String.append]. by rewrite <- !str_app_assoc.
  - by rewrite scan_string_body.
  - pose proof (unquote_body false k "" Hk) as H. rewrite str_app_nil_r in H. rewrite H. cbn. by rewrite str_app_nil_r.
  - by apply (jvalue_spaced d gap).
Qed.
Lemma members_text d (fs : list (string * json)) (texts : json -> string) : Forall (fun kv => valid_utf8 (fst kv) = true /\ jvalue d (texts (snd kv)) (snd kv)) fs -> fs <> [] ->
  exists ms, jmembers d (w +:+ join ("," +:+ w) (map (fun kv => json_string false (fst kv) +:+ ":" +:+ gap +:+ texts (snd kv)) fs) +:+ w' +:+ "}") ms /\ map (fun m => (fst (fst m), snd m)) ms = fs.
Proof.
  set (text := fun kv : string * json => json_string false (fst kv) +:+ ":" +:+ gap +:+ texts (snd kv)).
  induction 1 as [|[k v] fs [Hk Hv] Hfs IH]; intros Hne; [done|]. cbn [fst snd] in Hk, Hv. destruct fs as [|kv fs].
  - destruct (member_of d k (texts v) v (w' +:+ "}") Hk Hv) as (b & E & Hb & Hu & Hp). eexists [_]. split.
    + cbn [map join]. unfold text. cbn [fst snd]. rewrite <- !str_app_assoc. rewrite E. eapply (jm_last d w b k ""); done.
    + done.
  - destruct IH as (ms & Hms & Em); [done|]. set (rest := w +:+ join ("," +:+ w) (map text (kv :: fs)) +:+ w' +:+ "}") in *.
    destruct (member_of d k (texts v) v (String "," rest) Hk Hv) as (b & E & Hb & Hu & Hp). eexists (_ :: ms). split.
    + change (join ("," +:+ w) (map text ((k, v) :: kv :: fs))) with (text (k, v) +:+ ("," +:+ w) +:+ join ("," +:+ w) (map text (kv :: fs))).
      assert (w +:+ (text (k, v) +:+ ("," +:+ w) +:+ join ("," +:+ w) (map text (kv :: fs))) +:+ w' +:+ "}" = w +:+ json_string false k +:+ ":" +:+ gap +:+ texts v +:+ String "," rest) as ->.
      { unfold rest, text at 1. cbn [fst snd]. rewrite <- !str_app_assoc. cbn [String.append]. by rewrite <- ?str_app_assoc. }
      rewrite E. eapply (jm_more d w b k "" _ _ ""); done.
    + cbn [map fst snd]. by rewrite Em.
Qed.
End level.
Lemma indented_text v : forall d i, good d v -> jvalue d (indented i v) v.
Proof.
  induction v as [|b|n|s|l IH|fs IH] using json_ind'; intros d i Hv.
  - by eapply scalar_text.
  - destruct b; by eapply scalar_text.
  - destruct Hv as (c & p & -> & Hc & H1 & H2 & Hd). by eapply scalar_text.
  - by apply string_text.
  - apply good_array in Hv as [Hd Hl]. destruct l as [|v l]; [by apply (jv_array_nil d "" "")|]. apply (jv_array d ""); [done..|].
    apply (elements_text (newline (S i)) (newline i) (newline_spaces _) (newline_spaces _) (S d) (v :: l) (indented (S i))); [|done].
    rewrite Forall_forall in IH, Hl |- *. intros x Hx. by apply IH; [|apply Hl].
  - apply good_object in Hv as (Hd & Hobj & Hf). destruct fs as [|kv fs]; [by apply (jv_object_nil d "" "")|].
    destruct (members_text (newline (S i)) (newline i) " " (newline_spaces _) (newline_spaces _) eq_refl (S d) (kv :: fs) (indented (S i))) as (ms & Hms & Em); [|done|].
    { rewrite Forall_forall in IH, Hf |- *. intros x Hx. destruct (Hf x Hx) as [Hk Hg]. split; [done|]. by apply IH. }
    pose proof (jv_object d "" _ ms eq_refl Hd Hms) as H. rewrite Em in H. change (object_of (kv :: fs)) with (object (members_map (kv :: fs))) in H. rewrite Hobj in H. exact H.
Qed.
(** Without any space, as [marshalCompact] writes it. *)
Lemma compact_text v : forall d, good d v -> jvalue d (marshalCompact v) v.
Proof.
  induction v as [|b|n|s|l IH|fs IH] using json_ind'; intros d Hv.
  - by eapply scalar_text.
  - destruct b; by eapply scalar_text.
  - destruct Hv as (c & p & -> & Hc & H1 & H2 & Hd). by eapply scalar_text.
  - by apply string_text.
  - apply good_array in Hv as [Hd Hl]. destruct l as [|v l]; [by apply (jv_array_nil d "" "")|]. apply (jv_array d ""); [done..|].
    apply (elements_text "" "" eq_refl eq_refl (S d) (v :: l) marshalCompact); [|done]. rewrite Forall_forall in IH, Hl |- *. intros x Hx. by apply IH; [|apply Hl].
  - apply good_object in Hv as (Hd & Hobj & Hf). destruct fs as [|kv fs]; [by apply (jv_object_nil d "" "")|].
    destruct (members_text "" "" "" eq_refl eq_refl eq_refl (S d) (kv :: fs) marshalCompact) as (ms & Hms & Em); [|done|].
    { rewrite Forall_forall in IH, Hf |- *. intros x Hx. destruct (Hf x Hx) as [Hk Hg]. split; [done|]. by apply IH. }
    pose proof (jv_object d "" _ ms eq_refl Hd Hms) as H. rewrite Em in H. change (object_of (kv :: fs)) with (object (members_map (kv :: fs))) in H. rewrite Hobj in H. exact H.
Qed.
(** A written value is read back, whatever space follows. *)
Lemma indented_decoded v w : good 0 v -> spaces w = true -> decodeJSONValue (indented 0 v +:+ w) = Some v.
Proof. intros Hv Hw. by apply (grammar_decoded 0), Hw; [apply indented_text|..]. Qed.
