(* ===== verification/AgentJSON.v ===== *)
(** * Connecting an agent whose configuration is JSON (src/internal/agents/connect.go, edit_json.go)

    The servers mini took over are removed from the agent's file and an entry that runs mini is
    added; everything else in the file stays. *)
From S2P Require Import Prelude GoStr Utf8 Config Content JsonText JsonToken JsonTokenProps JsonObject JsonTree JsonCompact JsonParts Projection JsonMeaning JsonIndent.

(** No arguments may be a nil slice. *)
Record MiniEntry : Type := { Command : string; Args : option (list string) }.
Definition MiniKey : string := "mini".
Inductive edit_error : Type := UnparsedConfig | NotAnObject | ServersNotObject.

(** The two errors of text that is not one JSON value, and a value that is no object, are one here. *)
Definition decodeJSONObject (data : string) : res edit_error (gmap string json) :=
  match decodeJSONValue data with
  | Some (JObj fs) => Ok (members_map fs)
  | Some JNull => Err NotAnObject
  | _ => Err UnparsedConfig
  end.
Definition mcpServersOf (doc : gmap string json) : res edit_error (gmap string json) :=
  match doc !! "mcpServers" with
  | None | Some JNull => Ok ∅
  | Some (JObj fs) => Ok (members_map fs)
  | Some _ => Err ServersNotObject
  end.
Definition remove_entry (servers : gmap string json) (name : string) : gmap string json := if String.eqb name MiniKey then servers else delete name servers.
Definition add_entry (servers : gmap string json) (e : string * json) : gmap string json :=
  match servers !! fst e with
  | Some _ => if String.eqb (fst e) MiniKey then servers else <[fst e := snd e]> servers
  | None => <[fst e := snd e]> servers
  end.
Definition editJSONEntries (servers : gmap string json) (remove : list string) (add : list (string * json)) : gmap string json := foldl add_entry (foldl remove_entry servers remove) add.
Definition encodeJSON (doc : gmap string json) : string := indented 0 (object doc) +:+ String (az 10) "".
Definition editJSONServers (data : string) (remove : list string) (add : list (string * json)) : res edit_error string :=
  let* doc := decodeJSONObject data in
  let* servers := mcpServersOf doc in
  Ok (encodeJSON (<["mcpServers" := object (editJSONEntries servers remove add)]> doc)).

Definition entry_json (m : MiniEntry) : json :=
  object (<["command" := JStr (Command m)]> {["args" := match Args m with Some l => JArr (map JStr l) | None => JNull end]}).
Definition connectJSON (config : string) (remove : list string) (mini : option MiniEntry) : res edit_error string :=
  let config := if String.eqb (TrimSpace config) "" then "{}" else config in
  editJSONServers config remove (match mini with Some m => [(MiniKey, entry_json m)] | None => [] end).

Example connect_ex :
  connectJSON ("{" +:+ q "mcpServers" +:+ ":{" +:+ q "a" +:+ ":{}," +:+ q "b" +:+ ":1.0}, " +:+ q "<x>" +:+ ":[]}") ["a"; "mini"] (Some {| Command := "mini"; Args := Some ["connect"] |}) =
  Ok (concat_str (map (fun l => l +:+ String (az 10) "")
       ["{"; "  " +:+ q "<x>" +:+ ": [],"; "  " +:+ q "mcpServers" +:+ ": {"; "    " +:+ q "b" +:+ ": 1.0,"; "    " +:+ q "mini" +:+ ": {"; "      " +:+ q "args" +:+ ": [";
        "        " +:+ q "connect"; "      ],"; "      " +:+ q "command" +:+ ": " +:+ q "mini"; "    }"; "  }"; "}"])).
Proof. vm_compute. reflexivity. Qed.

(** ** The entries *)
Lemma removed_entries remove : forall servers name, foldl remove_entry servers remove !! name = if String.eqb name MiniKey then servers !! name else if decide (name ∈ remove) then None else servers !! name.
Proof.
  induction remove as [|r remove IH]; intros servers name; cbn [foldl]; [by destruct (String.eqb name MiniKey)|]. rewrite IH. unfold remove_entry. destruct (String.eqb_spec name MiniKey) as [->|Hn].
  - destruct (String.eqb_spec r MiniKey); [done|]. by rewrite lookup_delete_ne.
  - destruct (decide (name ∈ remove)) as [Hin|Hin]; [by rewrite decide_True by (by right)|]. destruct (decide (r = name)) as [->|Hr].
    + rewrite decide_True by (by left). rewrite (proj2 (String.eqb_neq _ _) Hn). by rewrite lookup_delete_eq.
    + rewrite decide_False by (rewrite elem_of_cons; intros [?|?]; congruence). destruct (String.eqb r MiniKey); [done|]. by rewrite lookup_delete_ne.
Qed.
Definition wanted (mini : option MiniEntry) : list (string * json) := match mini with Some m => [(MiniKey, entry_json m)] | None => [] end.
(** What becomes of the entry of a name. *)
Definition expected_entry (servers : gmap string json) (remove : list string) (mini : option MiniEntry) (name : string) : option json :=
  if String.eqb name MiniKey then match servers !! MiniKey with Some e => Some e | None => option_map entry_json mini end
  else if decide (name ∈ remove) then None else servers !! name.
Lemma edited_entries servers remove mini name : editJSONEntries servers remove (wanted mini) !! name = expected_entry servers remove mini name.
Proof.
  unfold editJSONEntries, expected_entry. pose proof (removed_entries remove servers) as Hr. set (s := foldl remove_entry servers remove) in *. destruct mini as [m|]; cbn [wanted foldl option_map].
  - unfold add_entry. cbn [fst snd]. rewrite String.eqb_refl. pose proof (Hr MiniKey) as Hm. rewrite String.eqb_refl in Hm. rewrite Hm. destruct (servers !! MiniKey) eqn:Es.
    + rewrite Hr. destruct (String.eqb_spec name MiniKey) as [->|]; [by rewrite Es|done].
    + destruct (String.eqb_spec name MiniKey) as [->|Hn]; [by rewrite lookup_insert_eq|]. rewrite lookup_insert_ne by congruence. rewrite Hr. by rewrite (proj2 (String.eqb_neq _ _) Hn).
  - rewrite Hr. destruct (String.eqb_spec name MiniKey) as [->|]; [by destruct (servers !! MiniKey)|done].
Qed.
Lemma expected_again servers remove mini name : expected_entry (editJSONEntries servers remove (wanted mini)) remove mini name = editJSONEntries servers remove (wanted mini) !! name.
Proof.
  unfold expected_entry at 1. rewrite !edited_entries. unfold expected_entry. rewrite String.eqb_refl. destruct (String.eqb name MiniKey); [by destruct (servers !! MiniKey), mini|]. by destruct (decide _).
Qed.

(** ** The text *)
Definition plain_entry (m : MiniEntry) : Prop := valid_utf8 (Command m) = true /\ match Args m with Some l => Forall (fun s => valid_utf8 s = true) l | None => True end.
Lemma nesting_four d : (d < 4)%nat -> (d < max_nesting)%nat.
Proof. assert (4 < max_nesting)%nat by (apply Nat.ltb_lt; reflexivity). lia. Qed.
Lemma entry_good m : plain_entry m -> good 2 (entry_json m).
Proof.
  intros [Hc Ha]. unfold entry_json. apply good_object_map. split; [apply nesting_four; lia|]. apply map_Forall_insert_2; [by split|]. apply map_Forall_singleton. split; [done|]. destruct (Args m) as [l|]; [|done].
  apply good_array. split; [apply nesting_four; lia|]. apply Forall_map. eapply Forall_impl; [exact Ha|done].
Qed.
Lemma decoded_doc data doc : decodeJSONObject data = Ok doc -> map_Forall (fun k v => valid_utf8 k = true /\ good 1 v) doc.
Proof.
  unfold decodeJSONObject. destruct (decodeJSONValue data) as [[| | | | |fs]|] eqn:E; try done. intros [= <-]. apply decoded_good, good_object in E as (_ & _ & Hf). by apply (members_map_forall (good_member 1)).
Qed.
Lemma servers_good doc servers : map_Forall (fun k v => valid_utf8 k = true /\ good 1 v) doc -> mcpServersOf doc = Ok servers -> map_Forall (fun k v => valid_utf8 k = true /\ good 2 v) servers.
Proof.
  intros Hd. unfold mcpServersOf. destruct (doc !! "mcpServers") as [[| | | | |fs]|] eqn:E; try done; intros [= <-]; try apply map_Forall_empty.
  apply Hd in E as [_ Hf]. apply good_object in Hf as (_ & _ & Hf). by apply (members_map_forall (good_member 2)).
Qed.
Lemma edited_good servers remove mini : map_Forall (fun k v => valid_utf8 k = true /\ good 2 v) servers -> (forall m, mini = Some m -> plain_entry m) -> good 1 (object (editJSONEntries servers remove (wanted mini))).
Proof.
  intros Hs Hm. apply good_object_map. split; [apply nesting_four; lia|]. intros k v. rewrite edited_entries. unfold expected_entry. destruct (String.eqb_spec k MiniKey) as [->|].
  - destruct (servers !! MiniKey) eqn:E; [intros [= <-]; by apply (Hs MiniKey)|]. destruct mini as [m|]; [|done]. intros [= <-]. split; [done|]. by apply entry_good, Hm.
  - destruct (decide _); [done|]. apply Hs.
Qed.
Lemma encoded_read doc : map_Forall (fun k v => valid_utf8 k = true /\ good 1 v) doc -> decodeJSONObject (encodeJSON doc) = Ok doc.
Proof.
  intros Hd. unfold decodeJSONObject, encodeJSON. rewrite indented_decoded; [|apply good_object_map; split; [apply nesting_four; lia|done]|done]. unfold object. by rewrite members_map_object.
Qed.

(** The text is not blank. *)
Lemma object_braces m : exists t, indented 0 (object m) = String "{" (t +:+ "}").
Proof.
  unfold object. destruct (sorted_members (map_to_list m)) as [|kv fs]; [by exists ""|]. eexists. cbn [indented String.append]. rewrite !str_app_assoc. reflexivity.
Qed.
Lemma trim_line_end fuel s : trim_right_space (S fuel) (s +:+ String (az 10) "") = trim_right_space fuel s.
Proof.
  cbn [trim_right_space]. replace (String.eqb (s +:+ String (az 10) "") "") with false by (by destruct s). unfold decode_last_rune. rewrite last_byte_snoc. change (ascii_byte (az 10)) with true.
  replace (bz (az 10) <? 128) with true by done. cbv iota beta. change (IsSpace (bz (az 10))) with true. cbv iota. rewrite str_length_app. change (String.length (encode_rune (bz (az 10)))) with 1%nat. cbn [String.length].
  rewrite Nat.add_sub. by rewrite str_take_app_length.
Qed.
Lemma encoded_visible m : String.eqb (TrimSpace (encodeJSON m)) "" = false.
Proof.
  unfold encodeJSON. destruct (object_braces m) as [t ->]. unfold TrimSpace. cbn [String.append]. rewrite trim_left_plain by done. change (String "{" ((t +:+ "}") +:+ String (az 10) "")) with (String "{" (t +:+ "}") +:+ String (az 10) "").
  rewrite str_length_app. cbn [String.length]. rewrite Nat.add_1_r, trim_line_end. change (String "{" (t +:+ "}")) with (String "{" t +:+ String "}" ""). by rewrite trim_right_plain.
Qed.

(** C33: Connecting a JSON agent keeps the rest of its file: what is written reads back as the same document but for the servers, of which the removed ones are gone, mini's own entry is the user's when there was one and the new one otherwise, and all others are the same; and doing it again changes nothing. *)
Theorem connect_json_keeps config remove mini out : connectJSON config remove mini = Ok out -> (forall m, mini = Some m -> plain_entry m) ->
  connectJSON out remove mini = Ok out /\
  exists doc servers doc' servers',
    decodeJSONObject (if String.eqb (TrimSpace config) "" then "{}" else config) = Ok doc /\ mcpServersOf doc = Ok servers /\ decodeJSONObject out = Ok doc' /\ mcpServersOf doc' = Ok servers' /\
    delete "mcpServers" doc' = delete "mcpServers" doc /\ forall name, servers' !! name = expected_entry servers remove mini name.
Proof.
  unfold connectJSON. set (config' := if String.eqb (TrimSpace config) "" then "{}" else config). fold (wanted mini). unfold editJSONServers at 1. intros H Hm. inv_ok H. inv_ok H. injection H as Hout. rename v into doc, v0 into servers.
  pose proof (decoded_doc _ _ E) as Hd. pose proof (servers_good _ _ Hd E0) as Hs. pose proof (edited_good servers remove mini Hs Hm) as Hg. set (servers' := editJSONEntries servers remove (wanted mini)) in *. set (doc' := <["mcpServers" := object servers']> doc) in *.
  assert (map_Forall (fun k v => valid_utf8 k = true /\ good 1 v) doc') as Hd' by by apply map_Forall_insert_2. assert (decodeJSONObject out = Ok doc') as Hread by (rewrite <- Hout; by apply encoded_read).
  assert (mcpServersOf doc' = Ok servers') as Hservers by (unfold mcpServersOf, doc'; rewrite lookup_insert_eq; unfold object; by rewrite members_map_object).
  split; [|exists doc, servers, doc', servers'; split_and!; try done; [unfold doc'; by rewrite delete_insert_eq|apply edited_entries]].
  rewrite <- Hout, encoded_visible. cbv zeta. unfold editJSONServers. rewrite Hout, Hread. cbn [rbind]. rewrite Hservers. cbn [rbind].
  assert (editJSONEntries servers' remove (wanted mini) = servers') as ->; [|unfold doc'; rewrite insert_insert_eq; by rewrite <- Hout].
  apply map_eq. intros name. rewrite edited_entries. apply expected_again.
Qed.
Lemma connect_json_keeps_witness : let config := "{" +:+ q "mcpServers" +:+ ":{" +:+ q "a" +:+ ":{}," +:+ q "b" +:+ ":1.0}, " +:+ q "x" +:+ ":[]}" in let mini := Some {| Command := "mini"; Args := Some ["connect"] |} in exists out,
  (connectJSON config ["a"] mini = Ok out /\ forall m, mini = Some m -> plain_entry m) /\ connectJSON out ["a"] mini = Ok out /\
  exists doc servers doc' servers',
    decodeJSONObject (if String.eqb (TrimSpace config) "" then "{}" else config) = Ok doc /\ mcpServersOf doc = Ok servers /\ decodeJSONObject out = Ok doc' /\ mcpServersOf doc' = Ok servers' /\
    delete "mcpServers" doc' = delete "mcpServers" doc /\ forall name, servers' !! name = expected_entry servers ["a"] mini name.
Proof.
  cbv zeta. set (config := "{" +:+ _). set (mini := Some _). assert (forall m, mini = Some m -> plain_entry m) as Hm by (intros m [= <-]; split; [reflexivity|repeat constructor]).
  destruct (connectJSON config ["a"] mini) as [out|] eqn:E; [|vm_compute in E; discriminate E]. exists out. split; [exact (conj eq_refl Hm)|]. exact (connect_json_keeps config ["a"] mini out E Hm).
Defined.
