(* ===== verification/AgentTOML.v ===== *)
(** * Connecting Codex, whose configuration is TOML (src/internal/agents/toml_lines.go,
      edit_codex.go)

    The file is edited line by line, so that what a person wrote stays as it was; the edited
    text is decoded again and written only when nothing but the intended servers changed.  The
    TOML decoder and encoder (github.com/BurntSushi/toml) are parameters. *)
From S2P Require Import Prelude GoStr Config GoStd Content JsonText AgentJSON.

(** ** Lines (toml_lines.go) *)
Record tomlLine : Type := { text : string; ending : string; header : option (list string); arrayTable : bool; key : option (list string); value_text : string; table : list string }.
Record tomlScanner : Type := { openString : string; depth : Z; scan_table : list string }.
Definition isHeader (l : tomlLine) : bool := match header l with Some _ => true | None => false end.

Definition lf : string := String (az 10) "".
Definition crlf : string := String (az 13) lf.
Definition splitTOMLLineEnding (t : string) : string * string :=
  if has_suffix t crlf then (trim_suffix t crlf, crlf) else if has_suffix t lf then (trim_suffix t lf, lf) else (t, "").

Fixpoint same_bytes (c : ascii) (s : string) : nat := match s with String d s => if Ascii.eqb d c then S (same_bytes c s) else O | "" => O end.
(** The index after the closing quote. *)
Fixpoint closingQuoteEndIndex (t quote : string) : option nat :=
  match t, quote with
  | "", _ | _, "" => None
  | String c t', String q _ =>
      if Ascii.eqb q dquote && Ascii.eqb c "\" then match t' with String _ t'' => (fun n => S (S n)) <$> closingQuoteEndIndex t'' quote | "" => None end
      else if has_prefix t quote then
        let n := String.length quote in
        Some (n + if Nat.eqb n 3 then same_bytes q (str_drop n t) else 0)%nat
      else S <$> closingQuoteEndIndex t' quote
  end.
Definition is_quote (c : ascii) : bool := Ascii.eqb c dquote || Ascii.eqb c "'".
(** From a quote on: the string that stays open, and what follows. *)
Definition skipString (open t : string) : string * string :=
  match t with
  | "" => (open, "")
  | String c _ =>
      let one := String c "" in
      let quote := if has_prefix t (str_repeat one 3) then str_repeat one 3 else one in
      match closingQuoteEndIndex (str_drop (String.length quote) t) quote with
      | Some n => (open, str_drop (String.length quote + n) t)
      | None => (if Nat.eqb (String.length quote) 3 then quote else open, "")
      end
  end.
(** Each round takes a byte at least. *)
Fixpoint track_from (fuel : nat) (s : tomlScanner) (t : string) : tomlScanner :=
  match fuel, t with
  | S fuel, String c t' =>
      let deeper (d : Z) := {| openString := openString s; depth := depth s + d; scan_table := scan_table s |} in
      if Ascii.eqb c "#" then s
      else if is_quote c then let '(open, rest) := skipString (openString s) t in track_from fuel {| openString := open; depth := depth s; scan_table := scan_table s |} rest
      else if byte_in c "[{" then track_from fuel (deeper 1) t'
      else if byte_in c "]}" then track_from fuel (deeper (-1)) t'
      else track_from fuel s t'
  | _, _ => s
  end.
Definition track (s : tomlScanner) (t : string) : tomlScanner := track_from (String.length t) s t.
Definition skipOpenString (s : tomlScanner) (t : string) : tomlScanner * string :=
  if String.eqb (openString s) "" then (s, t)
  else match closingQuoteEndIndex t (openString s) with
       | Some n => ({| openString := ""; depth := depth s; scan_table := scan_table s |}, str_drop n t)
       | None => (s, "")
       end.

Section toml.
(** What the decoder makes of [V = quoted]. *)
Variable decodeTOMLString : string -> option string.

Definition isBareKeyByte (c : ascii) : bool := is_alnum c || Ascii.eqb c "_" || Ascii.eqb c "-".
Fixpoint bare_length (t : string) : nat := match t with String c t => if isBareKeyByte c then S (bare_length t) else O | "" => O end.
Definition parseTOMLKeyPart (t : string) : option (string * string) :=
  match t with
  | "" => None
  | String c t' =>
      if is_quote c then
        match closingQuoteEndIndex t' (String c "") with
        | None => None
        | Some n => match decodeTOMLString (str_take (S n) t) with Some v => Some (v, str_drop (S n) t) | None => None end
        end
      else match bare_length t with O => None | n => Some (str_take n t, str_drop n t) end
  end.
Definition trim_blank (t : string) : string := trim_left t (String " " (String (az 9) "")).
Fixpoint parseTOMLDottedKey (fuel : nat) (t : string) : option (list string * string) :=
  match fuel with
  | O => None
  | S fuel =>
      match parseTOMLKeyPart (trim_blank t) with
      | None => None
      | Some (part, rest) =>
          match trim_blank rest with
          | String "."%char rest => match parseTOMLDottedKey fuel rest with Some (parts, rest) => Some (part :: parts, rest) | None => None end
          | rest => Some ([part], rest)
          end
      end
  end.
Definition dotted_key (t : string) : option (list string * string) := parseTOMLDottedKey (S (String.length t)) t.
Definition parseTOMLHeader (trimmed : string) : option (list string) * bool :=
  let arrayTable := has_prefix trimmed "[[" in
  let closing := if arrayTable then "]]" else "]" in
  match dotted_key (str_drop (if arrayTable then 2 else 1) trimmed) with
  | None => (None, false)
  | Some (k, rest) =>
      let rest := TrimSpace rest in
      if negb (has_prefix rest closing) then (None, false)
      else
        let after := TrimSpace (str_drop (String.length closing) rest) in
        if negb (String.eqb after "") && negb (has_prefix after "#") then (None, false) else (Some k, arrayTable)
  end.
Definition parseTOMLKey (trimmed : string) : option (list string * string) :=
  if String.eqb trimmed "" || has_prefix trimmed "#" then None
  else match dotted_key trimmed with
       | None => None
       | Some (k, rest) => match TrimSpace rest with String "="%char v => Some (k, v) | _ => None end
       end.

Definition scan (s : tomlScanner) (raw : string) : tomlScanner * tomlLine :=
  let '(t, ending) := splitTOMLLineEnding raw in
  let plain := {| text := t; ending := ending; header := None; arrayTable := false; key := None; value_text := ""; table := scan_table s |} in
  let atTopLevel := String.eqb (openString s) "" && (depth s =? 0) in
  let '(s, rest) := skipOpenString s t in
  if negb atTopLevel then (track s rest, plain)
  else
    let trimmed := TrimSpace t in
    if has_prefix trimmed "[" then
      let '(h, arr) := parseTOMLHeader trimmed in
      match h with
      | Some path => ({| openString := openString s; depth := depth s; scan_table := path |}, {| text := t; ending := ending; header := h; arrayTable := arr; key := None; value_text := ""; table := path |})
      | None => (s, {| text := t; ending := ending; header := None; arrayTable := arr; key := None; value_text := ""; table := scan_table s |})
      end
    else
      match parseTOMLKey trimmed with
      | Some (k, v) => (track s v, {| text := t; ending := ending; header := None; arrayTable := false; key := Some k; value_text := TrimSpace v; table := scan_table s |})
      | None => (s, plain)
      end.
Fixpoint scan_lines (s : tomlScanner) (lines : list string) : list tomlLine :=
  match lines with [] => [] | l :: lines => let '(s, x) := scan s l in x :: scan_lines s lines end.
Definition scanTOMLLines (lines : list string) : list tomlLine := scan_lines {| openString := ""; depth := 0; scan_table := [] |} lines.

(** ** Decoded documents *)

(** A table lists its members in the order of their keys, each once; arrays, times and the
    other values are leaves. *)
Variable leaf : Type.
Variable leaf_eqb : leaf -> leaf -> bool.
Inductive toml_value : Type := Table (fs : list (string * toml_value)) | Flag (b : bool) | Leaf (x : leaf).
Definition toml_fields : Type := list (string * toml_value).
Variable toml_Decode : string -> option toml_fields.

Fixpoint get (fs : toml_fields) (k : string) : option toml_value :=
  match fs with [] => None | (k', v) :: fs => if String.eqb k' k then Some v else get fs k end.
Fixpoint set (fs : toml_fields) (k : string) (v : toml_value) : toml_fields :=
  match fs with
  | [] => [(k, v)]
  | (k', v') :: fs' => if String.eqb k' k then (k, v) :: fs' else if String.ltb k k' then (k, v) :: fs else (k', v') :: set fs' k v
  end.
(** [reflect.DeepEqual]. *)
Fixpoint deep_eq (a b : toml_value) : bool :=
  match a, b with
  | Table fs, Table fs' =>
      (fix all fs fs' : bool :=
         match fs, fs' with
         | [], [] => true
         | (k, x) :: fs, (k', y) :: fs' => String.eqb k k' && deep_eq x y && all fs fs'
         | _, _ => false
         end) fs fs'
  | Flag x, Flag y => Bool.eqb x y
  | Leaf x, Leaf y => leaf_eqb x y
  | _, _ => false
  end.

(** ** The edit (edit_codex.go) *)
Inductive codex_error : Type := UnparsedTOML | NoServer (name : string) | NotTableForm (name : string) (form : string) | CannotEncodeMini | WouldNotParse | ChangesMore | ServerNotTable (name : string).

Definition decodeCodexConfig (data : string) : res codex_error toml_fields := match toml_Decode data with Some doc => Ok doc | None => Err UnparsedTOML end.
Definition utf8BOM : string := String (az 239) (String (az 187) (String (az 191) "")).
Fixpoint split_after (s : string) : list string :=
  match s with
  | "" => [""]
  | String c s' =>
      if Ascii.eqb c (az 10) then String c "" :: split_after s'
      else match split_after s' with l :: ls => String c l :: ls | [] => [String c ""] end
  end.
Fixpoint drop_last_empty (l : list string) : list string :=
  match l with [] => [] | [x] => if String.eqb x "" then [] else [x] | x :: l => x :: drop_last_empty l end.
Record codexLines : Type := { lines : list string; eol : string; bom : string }.
Definition splitCodexLines (data : string) : codexLines :=
  let '(b, t) := if has_prefix data utf8BOM then (utf8BOM, trim_prefix data utf8BOM) else ("", data) in
  {| lines := drop_last_empty (split_after t); eol := if contains_str t crlf then crlf else lf; bom := b |}.
Definition join_lines (d : codexLines) : string := bom d +:+ concat_str (lines d).

Definition get_table (fs : toml_fields) (k : string) : option toml_fields := match get fs k with Some (Table t) => Some t | _ => None end.
Definition server_of (doc : toml_fields) (name : string) : option toml_value := get (default [] (get_table doc "mcp_servers")) name.
Definition serverDefined (doc : toml_fields) (name : string) : bool := match server_of doc name with Some _ => true | None => false end.

Definition path_eqb (a b : list string) : bool := bool_decide (a = b).
Definition isServerHeader (l : tomlLine) (name : string) : bool := negb (arrayTable l) && match header l with Some h => path_eqb h ["mcp_servers"; name] | None => false end.
Definition hasPrefix (path prefix : list string) : bool := Nat.leb (List.length prefix) (List.length path) && path_eqb (take (List.length prefix) path) prefix.
(** An array of tables or an inline table is told at once, dotted keys only when no line is one of them. *)
Fixpoint form_from (form : string) (ls : list tomlLine) (target : list string) : string :=
  match ls with
  | [] => form
  | l :: ls =>
      let path := table l ++ default [] (key l) in
      let keyed := match key l with Some _ => true | None => false end in
      if arrayTable l && path_eqb (default [] (header l)) target then "an array of tables"
      else if keyed && hasPrefix target path && has_prefix (value_text l) "{" then "an inline table"
      else if keyed && Nat.ltb (List.length (table l)) (List.length target) && Nat.ltb (List.length target) (List.length path) && hasPrefix path target then form_from "dotted keys" ls target
      else form_from form ls target
  end.
Definition codexServerForm (ls : list tomlLine) (name : string) : string := form_from "sub-tables only" ls ["mcp_servers"; name].
Definition requireTableForm (ls : list tomlLine) (name : string) : res codex_error unit :=
  if existsb (fun l => isServerHeader l name) ls then Ok tt else Err (NotTableForm name (codexServerForm ls name)).

Record codexEditPlan : Type := { replaceEnabled : gset nat; insertEnabled : gset nat }.
Definition no_plan : codexEditPlan := {| replaceEnabled := ∅; insertEnabled := ∅ |}.
Fixpoint index_of (p : tomlLine -> bool) (ls : list tomlLine) : option nat :=
  match ls with [] => None | l :: ls => if p l then Some O else S <$> index_of p ls end.
Definition is_enabled (l : tomlLine) : bool := match key l with Some k => path_eqb k ["enabled"] | None => false end.
(** The first [enabled] before the next header. *)
Fixpoint enabled_below (ls : list tomlLine) : option nat :=
  match ls with [] => None | l :: ls => if isHeader l then None else if is_enabled l then Some O else S <$> enabled_below ls end.
Definition disableServer (p : codexEditPlan) (ls : list tomlLine) (before : toml_fields) (name : string) : res codex_error codexEditPlan :=
  if negb (serverDefined before name) then Err (NoServer name)
  else
    let* _ := requireTableForm ls name in
    match index_of (fun l => isServerHeader l name) ls with
    | None => Err (NoServer name) (* not reached: requireTableForm found one *)
    | Some h =>
        Ok match enabled_below (drop (S h) ls) with
           | Some n => {| replaceEnabled := {[S h + n]}%nat ∪ replaceEnabled p; insertEnabled := insertEnabled p |}
           | None => {| replaceEnabled := replaceEnabled p; insertEnabled := {[h]} ∪ insertEnabled p |}
           end
    end.
Fixpoint plan_from (p : codexEditPlan) (ls : list tomlLine) (before : toml_fields) (disable : list string) : res codex_error codexEditPlan :=
  match disable with
  | [] => Ok p
  | name :: disable => if String.eqb name MiniKey then plan_from p ls before disable else let* p := disableServer p ls before name in plan_from p ls before disable
  end.
Definition planCodexEdit (ls : list tomlLine) (before : toml_fields) (disable : list string) : res codex_error codexEditPlan := plan_from no_plan ls before disable.

Definition leadingSpace (t : string) : string := str_take (String.length t - String.length (trim_blank t)) t.
Definition trailingEnabledComment (v : string) : string := match index_byte v "#" with Some i => " " +:+ str_drop i v | None => "" end.
Definition off : string := "enabled = false".
(** What a line becomes. *)
Definition edit_line (p : codexEditPlan) (eol : string) (i : nat) (l : tomlLine) : list string :=
  let t := if bool_decide (i ∈ replaceEnabled p) then leadingSpace (text l) +:+ off +:+ trailingEnabledComment (value_text l) else text l in
  if bool_decide (i ∈ insertEnabled p) then
    let ending := if String.eqb (ending l) "" then eol else ending l in [t +:+ ending; off +:+ ending]
  else [t +:+ ending l].
Fixpoint end_last (l : list string) (eol : string) : list string :=
  match l with [] => [] | [x] => [if has_suffix x lf then x else x +:+ eol] | x :: l => x :: end_last l eol end.
Definition appendTable (ls tbl : list string) (eol : string) : list string :=
  match tbl with
  | [] => ls
  | _ =>
      let ls := end_last ls eol in
      let ls := match last ls with Some x => if String.eqb (TrimSpace x) "" then ls else ls ++ [eol] | None => ls end in
      ls ++ map (fun l => l +:+ eol) tbl
  end.
Definition apply (p : codexEditPlan) (ls : list tomlLine) (miniLines : list string) (eol : string) : list string :=
  appendTable (concat (imap (edit_line p eol) ls)) miniLines eol.

(** The body the encoder writes for mini's entry. *)
Variable toml_Encode : MiniEntry -> option string.
Definition codexMiniTable (before : toml_fields) (mini : option MiniEntry) : res codex_error (list string) :=
  match mini with
  | None => Ok []
  | Some m =>
      if serverDefined before MiniKey then Ok []
      else match toml_Encode m with
           | None => Err CannotEncodeMini
           | Some body => Ok (("[mcp_servers." +:+ MiniKey +:+ "]") :: split_byte (trim_right_bytes body lf) (az 10))
           end
  end.

(** [tableAt] puts an empty table in the document when there is none. *)
Definition with_table (doc : toml_fields) (k : string) (edit : toml_fields -> res codex_error toml_fields) : res codex_error toml_fields :=
  let* t := edit (default [] (get_table doc k)) in Ok (set doc k (Table t)).
Fixpoint disable_all (servers : toml_fields) (disable : list string) : res codex_error toml_fields :=
  match disable with
  | [] => Ok servers
  | name :: disable =>
      if String.eqb name MiniKey then disable_all servers disable
      else match get servers name with
           | Some (Table server) => disable_all (set servers name (Table (set server "enabled" (Flag false)))) disable
           | _ => Err (ServerNotTable name)
           end
  end.
Definition addExpectedMini (servers : toml_fields) (miniLines : list string) : res codex_error toml_fields :=
  match get servers MiniKey, miniLines with
  | Some _, _ | _, [] => Ok servers
  | None, _ =>
      let* fresh := decodeCodexConfig (join lf miniLines) in
      (* a nil entry when the decoded table has none: it equals no decoded document *)
      match server_of fresh MiniKey with Some v => Ok (set servers MiniKey v) | None => Err ChangesMore end
  end.
Definition expectedCodexConfig (original : string) (disable miniLines : list string) : res codex_error toml_fields :=
  let* want := decodeCodexConfig original in
  with_table want "mcp_servers" (fun servers => let* servers := disable_all servers disable in addExpectedMini servers miniLines).
Definition verifyCodexEdit (original edited : string) (disable miniLines : list string) : res codex_error unit :=
  let* want := expectedCodexConfig original disable miniLines in
  match decodeCodexConfig edited with
  | Err _ => Err WouldNotParse
  | Ok got => if deep_eq (Table got) (Table want) then Ok tt else Err ChangesMore
  end.
Definition editCodexServers (data : string) (disable : list string) (mini : option MiniEntry) : res codex_error string :=
  let* before := decodeCodexConfig data in
  let doc := splitCodexLines data in
  let scanned := scanTOMLLines (lines doc) in
  let* plan := planCodexEdit scanned before disable in
  let* miniLines := codexMiniTable before mini in
  let edited := join_lines {| lines := apply plan scanned miniLines (eol doc); eol := eol doc; bom := bom doc |} in
  let* _ := verifyCodexEdit data edited disable miniLines in
  Ok edited.

(** ** Lines *)
Lemma split_after_concat s : concat_str (split_after s) = s.
Proof.
  induction s as [|c s IH]; [done|]. cbn [split_after]. destruct (Ascii.eqb c (az 10)); [unfold concat_str in *; cbn [foldr]; by rewrite IH|].
  destruct (split_after s) as [|l ls]; unfold concat_str in *; cbn [foldr] in *; [by rewrite <- IH|]. cbn [String.append]. by rewrite IH.
Qed.
Lemma drop_last_concat l : concat_str (drop_last_empty l) = concat_str l.
Proof.
  unfold concat_str. induction l as [|x l IH]; [done|]. destruct l as [|y l].
  - cbn [drop_last_empty]. destruct (String.eqb_spec x "") as [->|]; done.
  - change (drop_last_empty (x :: y :: l)) with (x :: drop_last_empty (y :: l)). cbn [foldr] in *. by rewrite IH.
Qed.
Lemma split_lines_join data : join_lines (splitCodexLines data) = data.
Proof.
  unfold join_lines, splitCodexLines. destruct (has_prefix data utf8BOM) eqn:E; cbn [bom lines]; rewrite drop_last_concat, split_after_concat; [|done].
  apply has_prefix_spec in E as [t ->]. by rewrite trim_prefix_app.
Qed.
Lemma has_suffix_trim t x : has_suffix t x = true -> trim_suffix t x +:+ x = t.
Proof. intros H. apply has_suffix_spec in H as [u ->]. by rewrite trim_suffix_app. Qed.
Lemma scan_line s raw : text (snd (scan s raw)) +:+ ending (snd (scan s raw)) = raw /\ (isHeader (snd (scan s raw)) = true -> key (snd (scan s raw)) = None).
Proof.
  assert (fst (splitTOMLLineEnding raw) +:+ snd (splitTOMLLineEnding raw) = raw) as H.
  { unfold splitTOMLLineEnding. destruct (has_suffix raw crlf) eqn:E1; [by apply has_suffix_trim|]. destruct (has_suffix raw lf) eqn:E2; [by apply has_suffix_trim|]. apply str_app_nil_r. }
  unfold scan. destruct (splitTOMLLineEnding raw) as [t e]. cbn [fst snd] in H. destruct (skipOpenString s t) as [s' rest]. destruct (negb _); [done|]. destruct (has_prefix _ "[").
  - destruct (parseTOMLHeader _) as [[h|] arr]; done.
  - destruct (parseTOMLKey _) as [[k v]|]; done.
Qed.
Definition line_text (l : tomlLine) : string := text l +:+ ending l.
Lemma scan_lines_spec ls : forall s, map line_text (scan_lines s ls) = ls /\ Forall (fun l => isHeader l = true -> key l = None) (scan_lines s ls).
Proof.
  induction ls as [|raw ls IH]; intros s; [done|]. cbn [scan_lines]. destruct (scan_line s raw) as [H1 H2]. destruct (scan s raw) as [s' l]. cbn [snd] in *. destruct (IH s') as [H3 H4]. cbn [map]. split; [|by constructor]. rewrite H3. f_equal. exact H1.
Qed.

(** ** The plan *)
Section plan.
Variables (ls : list tomlLine) (before : toml_fields).
Record plan_inv (disable : list string) (p : codexEditPlan) : Prop := {
  p_replace : forall i, i ∈ replaceEnabled p -> exists l, ls !! i = Some l /\ is_enabled l = true;
  p_insert : forall i, i ∈ insertEnabled p -> exists l name, ls !! i = Some l /\ isServerHeader l name = true /\ name ∈ disable /\ name <> MiniKey }.
Lemma index_of_some q l i : index_of q l = Some i -> exists x, l !! i = Some x /\ q x = true.
Proof.
  revert i. induction l as [|y l IH]; intros i; [done|]. cbn [index_of]. destruct (q y) eqn:E; [intros [= <-]; by exists y|]. destruct (index_of q l) as [j|]; [|done]. intros [= <-]. by apply IH.
Qed.
Lemma enabled_below_some l i : enabled_below l = Some i -> exists x, l !! i = Some x /\ is_enabled x = true.
Proof.
  revert i. induction l as [|y l IH]; intros i; [done|]. cbn [enabled_below]. destruct (isHeader y); [done|]. destruct (is_enabled y) eqn:E; [intros [= <-]; by exists y|]. destruct (enabled_below l) as [j|]; [|done]. intros [= <-]. by apply IH.
Qed.
Lemma disableServer_inv all p name p' : plan_inv all p -> name ∈ all -> name <> MiniKey -> disableServer p ls before name = Ok p' -> plan_inv all p'.
Proof.
  intros [Hr Hi] Hin Hne. unfold disableServer. destruct (negb _); [done|]. intros H. inv_ok H. destruct (index_of _ ls) as [h|] eqn:Eh; [|done]. apply index_of_some in Eh as (l & Hl & Hh). injection H as <-.
  destruct (enabled_below _) as [n|] eqn:En; split; cbn; try done.
  - intros i [->%elem_of_singleton|Hx]%elem_of_union; [|by apply Hr]. apply enabled_below_some in En as (x & Hx & He). exists x. split; [|done]. by rewrite lookup_drop in Hx.
  - intros i [->%elem_of_singleton|Hx]%elem_of_union; [|by apply Hi]. by exists l, name.
Qed.
Lemma plan_from_inv all disable : forall p p', (forall x, x ∈ disable -> x ∈ all) -> plan_inv all p -> plan_from p ls before disable = Ok p' -> plan_inv all p'.
Proof.
  induction disable as [|name disable IH]; intros p p' Hall Hp; cbn [plan_from]; [by intros [= <-]|]. destruct (String.eqb_spec name MiniKey) as [|Hne]; [apply IH; [set_solver|done]|].
  intros H. inv_ok H. apply (disableServer_inv all) in E; [|done|set_solver|done]. revert H. by apply IH; [set_solver|].
Qed.
End plan.

(** What may become of a line: it stays, or it was a switch and now switches off, or it is the
    header of a disabled server and a switch follows. *)
Inductive line_edit (disable : list string) (eol : string) (l : tomlLine) : list string -> Prop :=
| line_kept : line_edit disable eol l [line_text l]
| line_switched : is_enabled l = true -> line_edit disable eol l [leadingSpace (text l) +:+ off +:+ trailingEnabledComment (value_text l) +:+ ending l]
| line_header name e : isServerHeader l name = true -> name ∈ disable -> name <> MiniKey -> (e = ending l \/ ending l = "" /\ e = eol) -> line_edit disable eol l [text l +:+ e; off +:+ e].
Lemma edit_line_ok ls disable p eol i l : plan_inv ls disable p -> ls !! i = Some l -> (isHeader l = true -> key l = None) -> line_edit disable eol l (edit_line p eol i l).
Proof.
  intros [Hr Hi] Hl Hk. unfold edit_line. destruct (bool_decide_reflect (i ∈ replaceEnabled p)) as [H1|H1], (bool_decide_reflect (i ∈ insertEnabled p)) as [H2|H2].
  - exfalso. destruct (Hr i H1) as (x & Hx & He). destruct (Hi i H2) as (y & name & Hy & Hh & _). rewrite Hl in Hx, Hy. injection Hx as <-. injection Hy as <-. unfold isServerHeader, isHeader, is_enabled in *. destruct (header l); [|by rewrite andb_false_r in Hh]. by rewrite Hk in He.
  - destruct (Hr i H1) as (x & Hx & He). rewrite Hl in Hx. injection Hx as <-. rewrite <- !str_app_assoc. by apply line_switched.
  - destruct (Hi i H2) as (y & name & Hy & Hh & Hin & Hne). rewrite Hl in Hy. injection Hy as <-. eapply line_header; [exact Hh|done..|]. destruct (String.eqb_spec (ending l) ""); [by right|by left].
  - apply line_kept.
Qed.

(** ** Tables *)
Lemma table_get_set fs k v k' : get (set fs k v) k' = if String.eqb k k' then Some v else get fs k'.
Proof.
  induction fs as [|[k0 v0] fs IH]; cbn [set get]; [by destruct (String.eqb k k')|].
  destruct (String.eqb_spec k0 k) as [->|Hne]; cbn [get]; [by destruct (String.eqb k k')|].
  destruct (String.ltb k k0); cbn [get]; [done|]. rewrite IH. destruct (String.eqb_spec k0 k') as [->|]; [|done].
  destruct (String.eqb_spec k k') as [->|]; done.
Qed.
Lemma set_set fs k v : set (set fs k v) k v = set fs k v.
Proof.
  induction fs as [|[k0 v0] fs IH]; cbn [set]; [by rewrite String.eqb_refl|].
  destruct (String.eqb k0 k) eqn:E; cbn [set]; [by rewrite String.eqb_refl|].
  destruct (String.ltb k k0) eqn:L; cbn [set]; [by rewrite String.eqb_refl|]. by rewrite E, L, IH.
Qed.
Definition switched_off (v : option toml_value) : option toml_value := match v with Some (Table t) => Some (Table (set t "enabled" (Flag false))) | v => v end.
Lemma switched_off_twice v : switched_off (switched_off v) = switched_off v.
Proof. destruct v as [[t| |]|]; cbn; by rewrite ?set_set. Qed.
Definition is_table (v : option toml_value) : bool := match v with Some (Table _) => true | _ => false end.
Definition disabled (disable : list string) (name : string) : bool := existsb (String.eqb name) disable && negb (String.eqb name MiniKey).
(** The servers named are tables, and switched off; the others and mini's entry stay. *)
Lemma disable_all_get disable : forall servers servers', disable_all servers disable = Ok servers' -> forall name,
  (disabled disable name = true -> is_table (get servers name) = true) /\ get servers' name = if disabled disable name then switched_off (get servers name) else get servers name.
Proof.
  unfold disabled. induction disable as [|n disable IH]; intros servers servers' H name; cbn [disable_all existsb] in *; [by injection H as <-|].
  destruct (String.eqb_spec n MiniKey) as [Hn|Hn].
  - specialize (IH _ _ H name). destruct (String.eqb_spec name n) as [Hnn|]; [|exact IH]. rewrite Hnn, Hn in *. cbn [orb]. by rewrite andb_false_r in IH |- *.
  - destruct (get servers n) as [[t| |]|] eqn:En; try done. specialize (IH _ _ H name) as [H1 H2]. rewrite table_get_set in H1, H2. destruct (String.eqb_spec name n) as [->|Hne]; cbn [orb].
    + rewrite String.eqb_refl in H1, H2. destruct (String.eqb_spec n MiniKey) as [|_]; [done|]. cbn [andb negb]. rewrite En. split; [done|]. rewrite H2. cbn. by destruct (existsb _ _); cbn; rewrite ?set_set.
    + destruct (String.eqb_spec n name) as [|_]; [congruence|]. by split.
Qed.
Lemma addExpectedMini_get servers tbl servers' name : addExpectedMini servers tbl = Ok servers' ->
  if String.eqb name MiniKey then match get servers MiniKey, tbl with
    | Some v, _ => get servers' name = Some v
    | None, [] => get servers' name = None
    | None, _ => exists fresh v, toml_Decode (join lf tbl) = Some fresh /\ server_of fresh MiniKey = Some v /\ get servers' name = Some v
    end
  else get servers' name = get servers name.
Proof.
  unfold addExpectedMini. destruct (String.eqb_spec name MiniKey) as [->|Hne].
  - destruct (get servers MiniKey) as [v|] eqn:E; [by intros [= <-]|]. destruct tbl as [|l tbl]; [by intros [= <-]|]. unfold decodeCodexConfig. destruct (toml_Decode _) as [fresh|]; [|done]. cbn [rbind].
    destruct (server_of fresh MiniKey) as [v|] eqn:Ev; [|done]. intros [= <-]. exists fresh, v. by rewrite table_get_set, String.eqb_refl.
  - destruct (get servers MiniKey) as [v|]; [by intros [= <-]|]. destruct tbl as [|l tbl]; [by intros [= <-]|]. unfold decodeCodexConfig. destruct (toml_Decode _) as [fresh|]; [|done]. cbn [rbind].
    destruct (server_of fresh MiniKey) as [v|]; [|done]. intros [= <-]. rewrite table_get_set. destruct (String.eqb_spec MiniKey name); [congruence|done].
Qed.
Lemma server_of_set doc servers name : server_of (set doc "mcp_servers" (Table servers)) name = get servers name.
Proof. unfold server_of, get_table. by rewrite table_get_set. Qed.

Hypothesis leaf_eqb_eq : forall x y, leaf_eqb x y = true -> x = y.
Lemma deep_eq_eq : forall a b, deep_eq a b = true -> a = b.
Proof.
  fix IH 1. intros [fs|x|x] [fs'|y|y]; try done; cbn [deep_eq]; intros H.
  - f_equal. revert fs' H. induction fs as [|[k v] fs IHfs]; intros [|[k' v'] fs']; try done. intros H. apply andb_true_iff in H as [[Hk Hv]%andb_true_iff Hf]. apply String.eqb_eq in Hk as ->. by rewrite (IH v v' Hv), (IHfs fs' Hf).
  - f_equal. by apply Bool.eqb_prop.
  - f_equal. by apply leaf_eqb_eq.
Qed.

Lemma edited_lines ls disable p eol : plan_inv ls disable p -> Forall (fun l => isHeader l = true -> key l = None) ls -> Forall2 (line_edit disable eol) ls (imap (edit_line p eol) ls).
Proof.
  intros Hp Hk. apply Forall2_same_length_lookup_2; [by rewrite length_imap|]. intros i l out Hl Ho. rewrite list_lookup_imap, Hl in Ho. injection Ho as <-.
  apply (edit_line_ok ls); [done..|]. by eapply Forall_lookup_1 in Hk.
Qed.
Lemma verified data edited disable tbl before : verifyCodexEdit data edited disable tbl = Ok tt -> toml_Decode data = Some before ->
  exists servers servers', toml_Decode edited = Some (set before "mcp_servers" (Table servers')) /\ disable_all (default [] (get_table before "mcp_servers")) disable = Ok servers /\ addExpectedMini servers tbl = Ok servers'.
Proof.
  intros H Hb. unfold verifyCodexEdit, expectedCodexConfig, with_table in H. unfold decodeCodexConfig at 1 in H. rewrite Hb in H. cbn [rbind] in H. inv_ok H. inv_ok E. inv_ok E0. injection E as <-. eexists _, _. split_and!; [|exact E1|exact E0].
  unfold decodeCodexConfig in H. destruct (toml_Decode edited) as [got|]; [|done]. destruct (deep_eq (Table got) _) eqn:D; [|done]. apply deep_eq_eq in D. by injection D as ->.
Qed.

End toml.

(** A decoder and an encoder that know the texts of one edit. *)
Definition sample_lines : list string := ["# x"; "model = 'm'"; "[mcp_servers.a]"; "  enabled = true # on"].
Definition sample_edited : list string := ["# x"; "model = 'm'"; "[mcp_servers.a]"; "  enabled = false # on"; ""; "[mcp_servers.mini]"; "command = 'mini'"; ""].
Definition sample_decode (s : string) : option (toml_fields string) :=
  let mini := Table string [("command", Leaf string "mini")] in
  let doc b more := [("mcp_servers", Table string (("a", Table string [("enabled", Flag string b)]) :: more)); ("model", Leaf string "m")] in
  if String.eqb s (join lf sample_lines) then Some (doc true [])
  else if String.eqb s (join lf sample_edited) then Some (doc false [("mini", mini)])
  else if String.eqb s (join lf ["[mcp_servers.mini]"; "command = 'mini'"]) then Some [("mcp_servers", Table string [("mini", mini)])]
  else None.
Definition sample_encode (m : MiniEntry) : option string := Some ("command = '" +:+ Command m +:+ "'" +:+ lf).
Definition sample_edit : res codex_error string := editCodexServers Some string String.eqb sample_decode sample_encode (join lf sample_lines) ["a"; "mini"] (Some {| Command := "mini"; Args := None |}).
Example codex_edit_ex : sample_edit = Ok (join lf sample_edited).
Proof. vm_compute. reflexivity. Qed.
