(* ===== verification/HttpReply.v ===== *)
(** * Replies of an HTTP server (src/internal/transport/http_response.go, http_post.go,
      http_setup.go)

    What is made of the status and the body of a reply: the response to the request among the
    messages of the body, the errors, how long to wait before a retry, and what the reply to
    the first request says about the protocol. *)
From S2P Require Import Prelude GoStr Utf8 Config GoStd Content JsonText JsonToken Projection JsonObject JsonTree RequestMeta ResultDoc Sse ToolsList Rpc.

Record HTTPStatusError : Type := { StatusCode : Z; RPC : option RPCError; WWWAuthenticate : string }.
(** [ConnectionError] and [authRemedyError] wrap an error; the messages added on the way are left out. *)
Inductive http_error : Type :=
| Unusable (* unusableResponseError *)
| Rejection (e : RPCError) | StatusError (e : HTTPStatusError) | UnauthorizedError (www : string) | SessionExpiredError (id : string)
| Throttled (status : Z) | ReadFailed | StreamError (e : sse_error) | RequestFailed | BadRequest | MaxRetries | ContextEnded
| Discovery (e : discover_error) | BadMeta (e : meta_error) | NotInitialized (status : Z) | BadToolsList
| ErrUnsupportedListenFilter | ErrListenComplete | ErrListenRejected (e : RPCError)
| ProviderError (msg : string)
| ConnectionError (cause : http_error) | ReauthorizationError (cause : option http_error).
(** What [errors.As] looks through. *)
Fixpoint root (e : http_error) : http_error :=
  match e with ConnectionError c | ReauthorizationError (Some c) => root c | e => e end.
Fixpoint is_reauthorization (e : http_error) : bool :=
  match e with ReauthorizationError _ => true | ConnectionError c => is_reauthorization c | _ => false end.
Definition isUnauthorized (e : http_error) : bool := match root e with UnauthorizedError _ => true | _ => false end.

(** ** The messages of a body *)
Record parsedHTTPMessage : Type := { p_result : string; p_error : option RPCError; response : bool; matched : bool }.
(** A notification, or what may be a response. *)
Definition parseHTTPMessage (message : string) (requestID : Z) : res http_error (Notification + parsedHTTPMessage) :=
  match struct_members message with
  | None => Err Unusable
  | Some ms =>
      match string_field "method" ms, typed_field (into_pointer into_error {| Code := 0; Message := ""; Data := "" |}) None "error" ms with
      | Some m, Some err =>
          if String.eqb (raw_field "id" ms) "" && negb (String.eqb m "") then Ok (inl {| n_Method := m; n_Params := raw_field "params" ms |})
          else Ok (inr {| p_result := raw_field "result" ms; p_error := err; response := true; matched := sameJSONID (raw_field "id" ms) requestID |})
      | _, _ => Err Unusable
      end
  end.
Record unmatchedPostResponses : Type := { count : nat; soleError : option RPCError }.
Definition add (r : unmatchedPostResponses) (m : parsedHTTPMessage) : unmatchedPostResponses := {| count := S (count r); soleError := p_error m |}.
Definition notFoundError (r : unmatchedPostResponses) : http_error :=
  match count r, soleError r with 1%nat, Some e => Rejection e | _, _ => Unusable end.
(** The notifications before the response, in order, and the response. *)
Fixpoint find_from (r : unmatchedPostResponses) (messages : list string) (requestID : Z) : list Notification * res http_error string :=
  match messages with
  | [] => ([], Err (notFoundError r))
  | message :: messages =>
      match parseHTTPMessage message requestID with
      | Err e => ([], Err e)
      | Ok (inl n) => let '(ns, x) := find_from r messages requestID in (n :: ns, x)
      | Ok (inr p) =>
          match matched p, p_error p with
          | true, Some e => ([], Err (Rejection e))
          | true, None => ([], Ok (p_result p))
          | false, _ => find_from (add r p) messages requestID
          end
      end
  end.
Definition findPostResponse (messages : list string) (requestID : Z) : list Notification * res http_error string := find_from {| count := 0; soleError := None |} messages requestID.
Definition parsePostBody (body : string) (requestID : Z) : list Notification * res http_error string :=
  match splitHTTPMessages body with
  | Some (Ok messages) => findPostResponse messages requestID
  | Some (Err e) => ([], Err (StreamError e))
  | None => ([], Err Unusable) (* not reached: the reader has enough fuel *)
  end.

(** ** Errors *)
Definition httpStatusRPCResponse (body : string) : option RPCError :=
  match struct_members body with
  | None => None
  | Some ms =>
      match string_field "jsonrpc" ms, typed_field (into_pointer into_error {| Code := 0; Message := ""; Data := "" |}) None "error" ms with
      | Some v, Some err => if String.eqb v "2.0" && negb (String.eqb (raw_field "id" ms) "") then err else None
      | _, _ => None
      end
  end.
Definition nonRetryableHTTPError (status : Z) (www errBody : string) : http_error :=
  if status =? 401 then UnauthorizedError www
  else StatusError {| StatusCode := status; RPC := httpStatusRPCResponse errBody; WWWAuthenticate := www |}.
Definition isRetryableStatus (status : Z) : bool := (status =? 429) || (status =? 503).
(** What stands in the body of an error is read up to 4 KiB, that of an answer up to 64 MiB. *)
Definition error_body_bytes : nat := 4096.
Definition answer_body_bytes : N := 67108864.

(** ** Retries (http_post.go) *)
Definition maxRetries : nat := 3.
Definition second : Z := 1000000000.
Definition maxDelay : Z := 60 * second.
Section retry_after.
(** [http.ParseTime]. *)
Variable ParseTime : string -> option Z.
(** The product of a [Duration] and a second wraps around. *)
Definition parseRetryAfter (h : string) (now : Z) : Z :=
  let h := TrimSpace h in
  if String.eqb h "" then -1
  else
    let date := match ParseTime h with Some t => if 0 <? t - now then Z.min (t - now) maxDelay else -1 | None => -1 end in
    match ParseInt h with
    | Some secs => if 0 <=? secs then Z.min (wrap64 (secs * second)) maxDelay else date
    | None => date
    end.
End retry_after.
(** The delay, and the next one. *)
Definition nextRetryDelay (delay backoff : Z) : Z * Z := if 0 <=? delay then (delay, backoff) else (backoff, backoff * 2).
Definition shouldStopRetrying (retryable : bool) (attempt : nat) (retriesDisabled : bool) : bool := negb retryable || Nat.eqb attempt (maxRetries - 1) || retriesDisabled.

(** ** The first request (http_setup.go) *)
Definition isLegacyProbeStatus (status : Z) : bool := (400 <=? status) && (status <? 500) && negb (status =? 403) && negb (status =? 408) && negb (status =? 429).
Definition of_discover {A} (r : res discover_error A) : res http_error A := match r with Ok a => Ok a | Err e => Err (Discovery e) end.
Definition discover_version : string := hd "" ModernVersions.
Definition classifyDiscoverError (err : http_error) : res http_error probeVerdict :=
  match root err with
  | Unusable => Ok legacyProbeVerdict
  | Rejection e => of_discover (classifyDiscoverRejection e discover_version)
  | StatusError e =>
      match RPC e with
      | Some rpc => of_discover (classifyDiscoverRejection rpc discover_version)
      | None => if isLegacyProbeStatus (StatusCode e) then Ok legacyProbeVerdict else Err err
      end
  | _ => Err err
  end.
Definition classifyDiscover (r : res http_error string) : res http_error probeVerdict :=
  match r with Ok result => of_discover (classifyDiscoverResult result discover_version) | Err e => classifyDiscoverError e end.
Definition is_code (code : Z) (err : http_error) : bool :=
  match root err with
  | Rejection e => Code e =? code
  | StatusError e => match RPC e with Some rpc => Code rpc =? code | None => false end
  | _ => false
  end.
Definition isHeaderMismatch : http_error -> bool := is_code CodeHeaderMismatch.

(** What an initialize result says of changes of the tools. *)
Definition toolsListChanged (raw : string) : bool :=
  match struct_members raw ≫= fun ms => typed_field unmarshal_object JNull "capabilities" ms with
  | Some (JObj caps) =>
      match list_find (fun kv => fst kv = "tools") caps with
      | Some (_, (_, JObj tools)) => match list_find (fun kv => fst kv = "listChanged") tools with Some (_, (_, JBool b)) => b | _ => false end
      | _ => false
      end
  | _ => false
  end.
