(* ===== verification/HttpClient.v ===== *)
(** * The connection to a server over HTTP (src/internal/transport/http.go, http_post.go,
      http_auth.go, http_setup.go, http_requests.go, http_param_headers.go)

    A call probes the protocol of the server, opens a session where there are sessions, sends
    its request with retries, and opens a new session when the old one has expired.  The code
    runs against an environment that decides, at each moment, what the network answers, what
    the other goroutines have made of the connection, and whether the context has ended. *)
From S2P Require Import Prelude GoStr Utf8 Config GoStd Content JsonText JsonToken Projection JsonObject JsonTree RequestMeta ResultDoc HttpHeaders ToolsList Rpc HttpReply.

(** ** Requests and answers *)
Record Request : Type := { r_ID : option Z; Method : string; Params : string (* raw *) }.
(** Headers by their canonical names. *)
Record http_request : Type := { get : bool; header : gmap string string; message : Request }.
Record http_response : Type := { status : Z; resp_header : gmap string (list string); body : string; cut : bool (* reading it fails *) }.

Definition header_name_byte (c : ascii) : bool := isHeaderTokenByte c.
Fixpoint canonical_from (upper : bool) (s : string) : string :=
  match s with
  | "" => ""
  | String c s => String (if upper then (if is_lower c then az (bz c - 32) else c) else (if is_upper c then az (bz c + 32) else c)) (canonical_from (Ascii.eqb c "-") s)
  end.
(** [textproto.CanonicalMIMEHeaderKey]. *)
Definition canonical (name : string) : string := if str_forall header_name_byte name then canonical_from true name else name.
Definition set_header (h : gmap string string) (name v : string) : gmap string string := <[canonical name := v]> h.
Definition get_header (h : gmap string string) (name : string) : string := default "" (h !! canonical name).
Definition first_value (resp : http_response) (name : string) : string := hd "" (default [] (resp_header resp !! canonical name)).
Definition wwwAuthenticate (resp : http_response) : string := join ", " (default [] (resp_header resp !! canonical "WWW-Authenticate")).
Fixpoint take_bytes (n : N) (s : string) : string :=
  match s with "" => "" | String c s => if (n =? 0)%N then "" else String c (take_bytes (N.pred n) s) end.

(** ** The connection and its environment *)
Record conn : Type := {
  sessionID : string; protocolVersion : string; eraKnown : bool; initialized : bool; initializedBefore : bool;
  modernVersion : string (* empty: none *); modernHeaders : option (gmap string (list headerParameter)); listener : option bool (* of a modern server *); nextID : Z }.
Definition newConnection : conn :=
  {| sessionID := ""; protocolVersion := ""; eraKnown := false; initialized := false; initializedBefore := false; modernVersion := ""; modernHeaders := None; listener := None; nextID := 0 |}.

Inductive event : Type :=
| Posted (req : http_request) (answer : res string http_response)
| Slept (d : Z) | Refreshed (stale : string) | Challenged (status : Z) (www : string)
| NotifyToolsChanged | Notified (n : Notification) | StartListener (modern : bool) | StopListener.
(** [held]: the goroutine has locked setupMu. *)
Record world : Type := { cn : conn; held : bool; clock : nat; log : list event }.

(** The provider of the authorization header. *)
Record provider : Type := { Authorization : nat -> res http_error string; RefreshAuthorization : nat -> string -> res http_error unit; observes : bool }.
Record env : Type := {
  others : nat -> conn -> conn; (* what the other goroutines do to the connection *)
  skipped : nat -> Z; (* the requests they number *)
  net : nat -> http_request -> res string http_response;
  timer : nat -> bool; (* it fires before the context ends *)
  done : nat -> bool; (* the context has ended *)
  now : nat -> Z;
  listener_stopped : nat -> bool; closed : nat -> bool }.
Record config : Type := {
  urlValid : bool; headers : list (string * string) (* in the order of the iteration *); authProvider : option provider; authHeaderName : string;
  disableRetryOnRateLimit : bool; Version : string }.

Definition act (A : Type) : Type := world -> world * A.
Definition ret {A} (a : A) : act A := fun w => (w, a).
Definition bind {A B} (x : act A) (f : A -> act B) : act B := fun w => let '(w, a) := x w in f a w.
Notation "'do!' x <- a ; b" := (bind a (fun x => b)) (at level 200, x pattern, a at level 100, b at level 200).
(** With an error. *)
Definition ok {A} (a : A) : act (res http_error A) := ret (Ok a).
Definition fail {A} (e : http_error) : act (res http_error A) := ret (Err e).
Definition andthen {A B} (x : act (res http_error A)) (f : A -> act (res http_error B)) : act (res http_error B) :=
  bind x (fun r => match r with Ok a => f a | Err e => fail e end).
Notation "'let!' x <- a ; b" := (andthen a (fun x => b)) (at level 200, x pattern, a at level 100, b at level 200).

Definition tick : act nat := fun w => ({| cn := cn w; held := held w; clock := S (clock w); log := log w |}, clock w).
Definition emit (e : event) : act unit := fun w => ({| cn := cn w; held := held w; clock := clock w; log := log w ++ [e] |}, tt).
Definition read : act conn := fun w => (w, cn w).
Definition put (c : conn) : act unit := fun w => ({| cn := c; held := held w; clock := clock w; log := log w |}, tt).
Definition hold (b : bool) : act unit := fun w => ({| cn := cn w; held := b; clock := clock w; log := log w |}, tt).

Section client.
Variable cfg : config.
Variable e : env.
Variable ParseTime : string -> option Z.
Variable order : list string -> gmap string string -> list (string * string).

(** The others work on the connection, except on what setupMu guards while it is held. *)
Definition sync : act unit := do! t <- tick; fun w => if held w then (w, tt) else put (others e t (cn w)) w.
Definition with_setup {A} (x : act A) : act A := do! _ <- sync; do! _ <- hold true; do! a <- x; do! _ <- hold false; ret a.
Definition next_id : act Z :=
  do! t <- tick; do! c <- read;
  let id := nextID c + skipped e t + 1 in
  do! _ <- put {| sessionID := sessionID c; protocolVersion := protocolVersion c; eraKnown := eraKnown c; initialized := initialized c; initializedBefore := initializedBefore c; modernVersion := modernVersion c; modernHeaders := modernHeaders c; listener := listener c; nextID := id |};
  ret id.
Definition sleepCtx (d : Z) : act bool := do! _ <- emit (Slept d); do! t <- tick; ret (timer e t).

(** ** Building requests *)
Definition applyAuthProvider (h : gmap string string) : act (res http_error (gmap string string * string)) :=
  match authProvider cfg with
  | None => ok (h, "")
  | Some p => do! t <- tick; match Authorization p t with Ok v => ok (set_header h (authHeaderName cfg) v, v) | Err err => fail err end
  end.
Definition base_headers (negotiated : string) : gmap string string :=
  let h := set_header (set_header ∅ "Content-Type" "application/json") "Accept" "application/json, text/event-stream" in
  let h := set_header h "X-Mini-Version" (Version cfg) in
  let h := foldl (fun h kv => set_header h (fst kv) (snd kv)) h (headers cfg) in
  set_header h "MCP-Protocol-Version" (if String.eqb negotiated "" then LatestLegacyVersion else negotiated).
Definition setRequestHeaders : act (res http_error (gmap string string * string)) :=
  do! _ <- sync; do! c <- read; applyAuthProvider (base_headers (protocolVersion c)).
Definition attachSessionID (h : gmap string string) : act (gmap string string) :=
  do! _ <- sync; do! c <- read; ret (if String.eqb (sessionID c) "" then h else set_header h "Mcp-Session-Id" (sessionID c)).
Record httpCall : Type := { request : Request; call_version : string }.
(** [json.Marshal] of a request and [NewRequest]. *)
Definition encodable (r : Request) : bool := (String.eqb (Params r) "" || json_valid (Params r)) && urlValid cfg.
Definition is_setup (m : string) : bool := String.eqb m "initialize" || String.eqb m "server/discover".
Definition buildModernHTTPRequest (call : httpCall) : act (res http_error (http_request * string)) :=
  let r := request call in
  if negb (encodable r) then fail BadRequest
  else
    let! (h, sentAuth) <- setRequestHeaders;
    let h := set_header (set_header h "MCP-Protocol-Version" (call_version call)) "Mcp-Method" (Method r) in
    do! _ <- sync; do! c <- read;
    let h := if String.eqb (Method r) "tools/call" then foldl (fun h kv => set_header h (fst kv) (snd kv)) h (addToolCallHeaders (default ∅ (modernHeaders c)) (Params r)) else h in
    ok ({| get := false; header := h; message := r |}, sentAuth).
Definition buildHTTPRequest (call : httpCall) : act (res http_error (http_request * string)) :=
  if negb (String.eqb (call_version call) "") then buildModernHTTPRequest call
  else
    let r := request call in
    if negb (encodable r) then fail BadRequest
    else
      let! (h, sentAuth) <- setRequestHeaders;
      let h := if String.eqb (Method r) "initialize" then delete (canonical "MCP-Protocol-Version") h else h in
      let h := if String.eqb (Method r) "server/discover" then set_header (set_header h "MCP-Protocol-Version" discover_version) "Mcp-Method" "server/discover" else h in
      do! h <- (if is_setup (Method r) then ret h else attachSessionID h);
      ok ({| get := false; header := h; message := r |}, sentAuth).

(** ** One post (http_post.go) *)
Definition storeSessionID (id : string) : act unit :=
  if Nat.ltb 256 (String.length id) then ret tt
  else do! c <- read; put {| sessionID := id; protocolVersion := protocolVersion c; eraKnown := eraKnown c; initialized := initialized c; initializedBefore := initializedBefore c; modernVersion := modernVersion c; modernHeaders := modernHeaders c; listener := listener c; nextID := nextID c |}.
Definition handleNotification (n : Notification) : act unit := if String.eqb (n_Method n) "notifications/tools/list_changed" then emit NotifyToolsChanged else emit (Notified n).
Fixpoint handle_all (ns : list Notification) : act unit := match ns with [] => ret tt | n :: ns => do! _ <- handleNotification n; handle_all ns end.
(** The error of a post, and the delay asked for when it may be tried again: negative when none is. *)
Definition posted : Type := res (http_error * option Z) string.
Definition httpErrorResult (resp : http_response) (sentSessionID : string) : act posted :=
  if isRetryableStatus (status resp) then do! t <- tick; ret (Err (Throttled (status resp), Some (parseRetryAfter ParseTime (first_value resp "Retry-After") (now e t))))
  else if (status resp =? 404) && negb (String.eqb sentSessionID "") then ret (Err (SessionExpiredError sentSessionID, None))
  else ret (Err (nonRetryableHTTPError (status resp) (wwwAuthenticate resp) (str_take error_body_bytes (body resp)), None)).
Definition processResponse (resp : http_response) (r : Request) (sentSessionID : string) : act posted :=
  if 400 <=? status resp then httpErrorResult resp sentSessionID
  else if cut resp then ret (Err (ReadFailed, None))
  else
    let '(ns, result) := parsePostBody (take_bytes answer_body_bytes (body resp)) (default 0 (r_ID r)) in
    do! _ <- handle_all ns;
    match result with
    | Ok raw => do! _ <- (if String.eqb (Method r) "initialize" then storeSessionID (first_value resp "Mcp-Session-Id") else ret tt); ret (Ok raw)
    | Err err => ret (Err (err, None))
    end.
Definition observeAuthorizationChallenge (resp : http_response) : act unit :=
  if negb (status resp =? 401) && negb (status resp =? 403) then ret tt
  else match authProvider cfg with
       | Some p => if observes p then emit (Challenged (status resp) (wwwAuthenticate resp)) else ret tt
       | None => ret tt
       end.
Definition send_http (req : http_request) : act (res string http_response) :=
  do! t <- tick; let answer := net e t req in do! _ <- emit (Posted req answer); ret answer.
(** The credential that was sent, and the outcome. *)
Definition doPost (call : httpCall) : act (string * posted) :=
  do! built <- buildHTTPRequest call;
  match built with
  | Err err => ret ("", Err (err, None))
  | Ok (req, sentAuth) =>
      do! answer <- send_http req;
      match answer with
      | Err _ => ret (sentAuth, Err (ConnectionError RequestFailed, None))
      | Ok resp =>
          do! _ <- observeAuthorizationChallenge resp;
          do! r <- processResponse resp (request call) (get_header (header req) "Mcp-Session-Id");
          ret (sentAuth, r)
      end
  end.
Fixpoint post_from (rounds attempt : nat) (backoff : Z) (call : httpCall) : act (string * res http_error string) :=
  match rounds with
  | O => ret ("", Err MaxRetries)
  | S rounds =>
      do! (sentAuth, r) <- doPost call;
      match r with
      | Ok raw => ret (sentAuth, Ok raw)
      | Err (err, delay) =>
          match delay with
          | Some delay =>
              if shouldStopRetrying true attempt (disableRetryOnRateLimit cfg) then ret (sentAuth, Err err)
              else
                let '(delay, backoff) := nextRetryDelay delay backoff in
                do! fired <- sleepCtx delay;
                if fired : bool then post_from rounds (S attempt) backoff call else ret ("", Err ContextEnded)
          | None => ret (sentAuth, Err err)
          end
      end
  end.
Definition post (call : httpCall) : act (string * res http_error string) := post_from maxRetries 0 second call.

(** ** Authorization (http_auth.go) *)
Definition withAuthRetry {A} (attempt : act (string * res http_error A)) : act (res http_error A) :=
  do! (sentAuth, r) <- attempt;
  match r, authProvider cfg with
  | Err err, Some p =>
      if negb (isUnauthorized err) then fail err
      else
        do! _ <- emit (Refreshed sentAuth);
        do! t <- tick;
        match RefreshAuthorization p t sentAuth with
        | Err err => fail err
        | Ok _ =>
            do! (_, r) <- attempt;
            match r with
            | Err err => fail (if isUnauthorized err then ReauthorizationError (Some err) else err)
            | Ok a => ok a
            end
        end
  | _, _ => ret r
  end.
Definition postWithAuthRetry (call : httpCall) : act (res http_error string) := withAuthRetry (post call).
(** The build of the request, and one send; a 401 is an error, any other status an answer. *)
Definition sendOneWithAuthRetry (build : act (res http_error (http_request * string))) : act (res http_error http_response) :=
  withAuthRetry
    (do! built <- build;
     match built with
     | Err err => ret ("", Err err)
     | Ok (req, sentAuth) =>
         do! answer <- send_http req;
         match answer with
         | Err _ => ret (sentAuth, Err RequestFailed)
         | Ok resp =>
             do! _ <- observeAuthorizationChallenge resp;
             if status resp =? 401 then ret (sentAuth, Err (UnauthorizedError (wwwAuthenticate resp))) else ret (sentAuth, Ok resp)
         end
     end).
Definition send (call : httpCall) : act (res http_error string) :=
  do! id <- next_id;
  postWithAuthRetry {| request := {| r_ID := Some id; Method := Method (request call); Params := Params (request call) |}; call_version := call_version call |}.
Definition rpc (method params : string) : act (res http_error string) := send {| request := {| r_ID := None; Method := method; Params := params |}; call_version := "" |}.

(** ** Sessions (http_setup.go) *)
Definition update (f : conn -> conn) : act unit := do! c <- read; put (f c).
Definition set_session (version : string) (c : conn) : conn :=
  {| sessionID := sessionID c; protocolVersion := version; eraKnown := eraKnown c; initialized := initialized c; initializedBefore := initializedBefore c; modernVersion := modernVersion c; modernHeaders := modernHeaders c; listener := listener c; nextID := nextID c |}.
Definition set_initialized (now before : bool) (c : conn) : conn :=
  {| sessionID := sessionID c; protocolVersion := protocolVersion c; eraKnown := eraKnown c; initialized := now; initializedBefore := before; modernVersion := modernVersion c; modernHeaders := modernHeaders c; listener := listener c; nextID := nextID c |}.
Definition set_era (known : bool) (version : string) (c : conn) : conn :=
  {| sessionID := sessionID c; protocolVersion := protocolVersion c; eraKnown := known; initialized := initialized c; initializedBefore := initializedBefore c; modernVersion := version; modernHeaders := modernHeaders c; listener := listener c; nextID := nextID c |}.
Definition set_listener (l : option bool) (c : conn) : conn :=
  {| sessionID := sessionID c; protocolVersion := protocolVersion c; eraKnown := eraKnown c; initialized := initialized c; initializedBefore := initializedBefore c; modernVersion := modernVersion c; modernHeaders := modernHeaders c; listener := l; nextID := nextID c |}.
Definition set_headers (h : option (gmap string (list headerParameter))) (c : conn) : conn :=
  {| sessionID := sessionID c; protocolVersion := protocolVersion c; eraKnown := eraKnown c; initialized := initialized c; initializedBefore := initializedBefore c; modernVersion := modernVersion c; modernHeaders := h; listener := listener c; nextID := nextID c |}.
Definition isModern (c : conn) : bool := negb (String.eqb (modernVersion c) "").
(** A listener that has ended is replaced, and none is started after Close. *)
Definition startListener : act unit :=
  do! t <- tick; do! c <- read;
  if match listener c with Some _ => negb (listener_stopped e t) | None => false end then ret tt
  else if closed e t then ret tt
  else do! _ <- emit (StartListener (isModern c)); update (set_listener (Some (isModern c))).
Definition restartListener (listen : bool) : act unit :=
  do! c <- read;
  do! _ <- (match listener c with Some _ => do! _ <- emit StopListener; update (set_listener None) | None => ret tt end);
  if listen then startListener else ret tt.

Definition initialize_params : string :=
  marshal_members true [("protocolVersion", json_string true LatestLegacyVersion); ("capabilities", "{}"); ("clientInfo", clientInfo_text {| Name := "mini"; ci_Version := Version cfg |})].
(** The version, and whether the server announces changes of its tools. *)
Definition sendInitialize : act (res http_error (string * bool)) :=
  let! raw <- rpc "initialize" initialize_params;
  match parseInitializeResult raw with Ok v => ok (v, toolsListChanged raw) | Err err => fail (Discovery err) end.
Definition initialized_notification : Request := {| r_ID := None; Method := "notifications/initialized"; Params := "" |}.
Definition buildInitializedNotifRequest : act (res http_error (http_request * string)) :=
  if negb (urlValid cfg) then fail BadRequest
  else
    let! (h, sentAuth) <- setRequestHeaders;
    do! h <- attachSessionID h;
    ok ({| get := false; header := h; message := initialized_notification |}, sentAuth).
Definition sendInitializedNotification : act (res http_error unit) :=
  let! resp <- sendOneWithAuthRetry buildInitializedNotifRequest;
  if (status resp <? 200) || (300 <=? status resp) then fail (NotInitialized (status resp)) else ok tt.
Definition initHandshake : act (res http_error unit) :=
  let! (v, listen) <- sendInitialize;
  do! _ <- update (set_session v);
  let! _ <- sendInitializedNotification;
  do! _ <- restartListener listen;
  ok tt.
(** Whether a session was opened again. *)
Definition initializeOnce : act (res http_error bool) :=
  with_setup
    (do! c <- read;
     if initialized c then ok false
     else
       let! _ <- initHandshake;
       do! c <- read;
       do! _ <- update (set_initialized true true);
       ok (initializedBefore c)).
Definition probe : act (res http_error string) :=
  match prepareModernParams (Version cfg) "" discover_version with
  | Err err => fail (BadMeta err)
  | Ok params => rpc "server/discover" params
  end.
Definition probeOnce : act (res http_error string) :=
  with_setup
    (do! c <- read;
     if eraKnown c then ok (modernVersion c)
     else
       do! r <- probe;
       match classifyDiscover r with
       | Err err => fail err
       | Ok verdict =>
           do! _ <- update (fun c => set_era true (match era verdict with EraModern => v_version verdict | EraLegacy => modernVersion c end) c);
           do! _ <- (if v_listen verdict then startListener else ret tt);
           ok (v_version verdict)
       end).
Definition ensureReady : act (res http_error string) :=
  let! modern <- probeOnce;
  if negb (String.eqb modern "") then ok modern
  else
    do! r <- initializeOnce;
    match r with
    | Err err => fail err
    | Ok renewed => do! _ <- (if renewed : bool then emit NotifyToolsChanged else ret tt); ok ""
    end.
Definition compareAndResetSession (expired : string) : act unit :=
  with_setup (do! c <- read; if String.eqb (sessionID c) expired then update (set_initialized false (initializedBefore c)) else ret tt).
Definition withSessionRecovery (attempt : act (res http_error string)) : act (res http_error string) :=
  do! r <- attempt;
  match r with
  | Err err =>
      match root err with
      | SessionExpiredError id =>
          do! _ <- compareAndResetSession id;
          let! _ <- ensureReady;
          attempt
      | _ => ret r
      end
  | Ok _ => ret r
  end.
Definition resetModernEra : act unit := with_setup (update (set_era false "")).

(** ** Calls (http_requests.go) *)
Definition callLegacy (method params : string) : act (res http_error string) :=
  withSessionRecovery (rpc method (if String.eqb method "tools/call" then stripModernToolCallFields params else params)).
Definition modernRPCError (err : RPCError) (whole : http_error) : act http_error :=
  if Code err =? CodeUnsupportedProtocolVersion then do! _ <- resetModernEra; ret whole else ret whole.
Definition modernError (err : http_error) : act http_error :=
  match root err with
  | StatusError s =>
      match RPC s with
      | Some rpc => modernRPCError rpc (Rejection rpc)
      | None => if (400 <=? StatusCode s) && (StatusCode s <? 500) then do! _ <- resetModernEra; ret (ConnectionError err) else ret err
      end
  | Rejection rpc => modernRPCError rpc (Rejection rpc)
  | _ => ret err
  end.
Section modern.
(** [ListTools], which a call of a tool makes when the headers of the tools are not known. *)
Variable list_tools : act (res http_error unit).
Definition ensureToolHeaders : act (res http_error unit) :=
  do! _ <- sync; do! c <- read; match modernHeaders c with Some _ => ok tt | None => list_tools end.
Definition callModern (call : httpCall) : act (res http_error string) :=
  match prepareModernParams (Version cfg) (Params (request call)) (call_version call) with
  | Err err => fail (BadMeta err)
  | Ok prepared =>
      let call := {| request := {| r_ID := None; Method := Method (request call); Params := prepared |}; call_version := call_version call |} in
      let tool := String.eqb (Method (request call)) "tools/call" in
      let! _ <- (if tool then ensureToolHeaders else ok tt);
      do! r <- send call;
      let! r <- (match r with
                 | Err err => if tool && isHeaderMismatch err then let! _ <- list_tools; do! r <- send call; ok r else ok r
                 | Ok _ => ok r
                 end);
      match r with
      | Err err => do! err <- modernError err; fail err
      | Ok result => match ResultTypeOf result with Err err => fail (BadMeta err) | Ok _ => ok result end
      end
  end.
(** The result, and the version the call was sent in. *)
Definition callAndReportVersion (method params : string) : act (res http_error (string * string)) :=
  let! modern <- ensureReady;
  if String.eqb modern "" then let! raw <- callLegacy method params; ok (raw, "")
  else let! raw <- callModern {| request := {| r_ID := None; Method := method; Params := params |}; call_version := modern |}; ok (raw, modern).
End modern.

Definition into_tool (old : ToolDefinition) (raw : string) : option ToolDefinition :=
  match struct_members raw with
  | None => None
  | Some ms =>
      match typed_field unmarshal_string (t_Name old) "name" ms, string_field "description" ms with
      | Some n, Some _ => Some {| t_Name := n; InputSchema := raw_field "inputSchema" ms |}
      | _, _ => None
      end
  end.
Definition no_tool : ToolDefinition := {| t_Name := ""; InputSchema := "" |}.
Definition unmarshal_tools (_ : list ToolDefinition) (raw : string) : option (list ToolDefinition) :=
  match shape_of raw with Some NullShape => Some [] | _ => unmarshal_list (into_tool no_tool) raw end.
Definition decodeToolsListPage (raw : string) (received : Z) (modern : string) : res http_error (toolsListPage ToolDefinition) :=
  match requireCompleteResult raw with
  | Err err => Err (Discovery err)
  | Ok _ =>
      match struct_members raw with
      | None => Err BadToolsList
      | Some ms =>
          match typed_field unmarshal_tools [] "tools" ms, string_field "nextCursor" ms with
          | Some tools, Some next => Ok (decoded_page tools next (raw_field "ttlMs" ms) received modern)
          | _, _ => Err BadToolsList
          end
      end
  end.
Definition cursor_params (cursor : string) : string := if String.eqb cursor "" then "" else marshal_members true [("cursor", json_string true cursor)].
(** The pages do not call tools. *)
Definition callToolsPage (cursor : string) : act (res http_error (toolsListPage ToolDefinition * string)) :=
  let! (raw, modern) <- callAndReportVersion (ok tt) "tools/list" (cursor_params cursor);
  do! t <- tick;
  match decodeToolsListPage raw (now e t) modern with Ok page => ok (page, modern) | Err err => fail err end.
(** The list, and whether a page of it was sent the old way. *)
Fixpoint list_pages (rounds index : nat) (l : ToolList ToolDefinition) (cursor : string) (seen : gset string) (legacy : bool) : act (res http_error (ToolList ToolDefinition * bool)) :=
  match rounds with
  | O => ok (expireIncomplete l, legacy)
  | S rounds =>
      do! r <- callToolsPage cursor;
      match r with
      | Err err => do! t <- tick; if negb (Nat.eqb (List.length (Tools l)) 0) && negb (done e t) then ok (expireIncomplete l, legacy) else fail err
      | Ok (page, modern) =>
          let legacy := legacy || String.eqb modern "" in
          let l := addPage l index page in
          if String.eqb (NextCursor page) "" then ok (l, legacy)
          else match advanceCursor seen (NextCursor page) with
               | None => ok (expireIncomplete l, legacy)
               | Some (seen, next) => list_pages rounds (S index) l next seen legacy
               end
      end
  end.
Definition ListTools : act (res http_error (ToolList ToolDefinition)) :=
  let! (l, legacy) <- list_pages maxToolsListPages 0 no_tools "" ∅ false;
  if legacy : bool then ok l
  else
    let '(table, tools) := rebuildToolHeaders order (Tools l) in
    do! _ <- sync; do! _ <- update (set_headers (Some table));
    ok {| Tools := tools; freshness := freshness l |}.
Definition callReporting (method params : string) : act (res http_error (string * string)) := callAndReportVersion (let! _ <- ListTools; ok tt) method params.
Definition Call (method params : string) : act (res http_error string) := let! (raw, _) <- callReporting method params; ok raw.
End client.
