(* ===== verification/HttpClientProps.v ===== *)
(** * What a connection over HTTP sends

    Whatever the network answers and the other goroutines do: a call is sent again only when
    the server cannot have run it, the waits are bounded, and the protocol version a request
    names is the one its parameters were prepared for. *)
From S2P Require Import Prelude GoStr Utf8 Float64 Config GoStd Content JsonText JsonToken Projection JsonObject JsonTree RequestMeta ResultDoc HttpHeaders ToolsList Rpc HttpReply HttpClient.

(** ** Events *)
Section spec.
Variable I : conn -> Prop.
(** From a connection that satisfies [I] to one that does, with events and a result that satisfy [P]. *)
Definition spec {A} (P : list event -> A -> Prop) (x : act A) : Prop :=
  forall w, I (cn w) -> I (cn (fst (x w))) /\ exists l, log (fst (x w)) = log w ++ l /\ P l (snd (x w)).
Lemma spec_ret {A} (P : list event -> A -> Prop) a : P [] a -> spec P (ret a).
Proof. intros H w Hw. split; [done|]. exists []. by rewrite app_nil_r. Qed.
Lemma spec_bind {A B} (P : list event -> A -> Prop) (R : list event -> B -> Prop) x f :
  spec P x -> (forall l a, P l a -> spec (fun l' b => R (l ++ l') b) (f a)) -> spec R (bind x f).
Proof.
  intros Hx Hf w Hw. unfold bind. destruct (Hx w Hw) as (H1 & l & H2 & H3). destruct (x w) as [w' a]. cbn [fst snd] in *. destruct (Hf l a H3 w' H1) as (H4 & l' & H5 & H6).
  split; [done|]. exists (l ++ l'). by rewrite H5, H2, app_assoc.
Qed.
Lemma spec_andthen {A B} (P : list event -> res http_error A -> Prop) (R : list event -> res http_error B -> Prop) x f :
  spec P x -> (forall l a, P l (Ok a) -> spec (fun l' b => R (l ++ l') b) (f a)) -> (forall l e, P l (Err e) -> R l (Err e)) -> spec R (andthen x f).
Proof.
  intros Hx Hf He. unfold andthen. eapply spec_bind; [exact Hx|]. intros l [a|e] Hl; [by apply Hf|]. apply spec_ret. rewrite app_nil_r. by apply He.
Qed.
Lemma spec_weaken {A} (P R : list event -> A -> Prop) x : spec P x -> (forall l a, P l a -> R l a) -> spec R x.
Proof. intros Hx H w Hw. destruct (Hx w Hw) as (H1 & l & H2 & H3). split; [done|]. exists l. auto. Qed.
Lemma spec_emit (P : list event -> unit -> Prop) ev : P [ev] tt -> spec P (emit ev).
Proof. intros H w Hw. split; [done|]. by exists [ev]. Qed.
Lemma spec_tick (P : list event -> nat -> Prop) : (forall t, P [] t) -> spec P tick.
Proof. intros H w Hw. split; [done|]. exists []. by rewrite app_nil_r. Qed.
Lemma spec_hold (P : list event -> unit -> Prop) b : P [] tt -> spec P (hold b).
Proof. intros H w Hw. split; [done|]. exists []. by rewrite app_nil_r. Qed.
Lemma spec_read (P : list event -> conn -> Prop) : (forall c, I c -> P [] c) -> spec P read.
Proof. intros H w Hw. split; [done|]. exists []. rewrite app_nil_r. auto. Qed.
Lemma spec_put (P : list event -> unit -> Prop) c : I c -> P [] tt -> spec P (put c).
Proof. intros Hc H w Hw. split; [done|]. exists []. by rewrite app_nil_r. Qed.
Lemma spec_update (P : list event -> unit -> Prop) f : (forall c, I c -> I (f c)) -> P [] tt -> spec P (update f).
Proof. intros Hf H w Hw. split; [by apply Hf|]. exists []. by rewrite app_nil_r. Qed.

Variables (cfg : config) (e : env) (ParseTime : string -> option Z) (order : list string -> gmap string string -> list (string * string)).
Hypothesis others_keep : forall t c, I c -> I (others e t c).
Lemma spec_sync (P : list event -> unit -> Prop) : P [] tt -> spec P (sync e).
Proof.
  intros H. unfold sync. eapply spec_bind; [by apply (spec_tick (fun l _ => l = []))|]. intros l t ->. intros w Hw. destruct (held w); cbn; (split; [auto|]); exists []; by rewrite app_nil_r.
Qed.
Lemma spec_with_setup {A} (P : list event -> A -> Prop) x : spec P x -> spec P (with_setup e x).
Proof.
  intros Hx. unfold with_setup. eapply spec_bind; [by apply (spec_sync (fun l _ => l = []))|]. intros l _ ->. eapply spec_bind; [by apply (spec_hold (fun l _ => l = []))|]. intros l _ ->.
  eapply spec_bind; [exact Hx|]. intros l a Ha. eapply spec_bind; [by apply (spec_hold (fun l _ => l = []))|]. intros l' _ ->. apply spec_ret. cbn. by rewrite !app_nil_r.
Qed.

(** ** What holds of every event *)
Variable Q : event -> Prop.
Definition all {A} (l : list event) (_ : A) : Prop := Forall Q l.
Lemma all_bind {A B} (P : list event -> A -> Prop) (x : act A) (f : A -> act B) : spec P x -> (forall l a, P l a -> Forall Q l) -> (forall l a, P l a -> spec all (f a)) -> spec all (bind x f).
Proof.
  intros Hx HP Hf. eapply spec_bind; [exact Hx|]. intros l a Hl. eapply spec_weaken; [by eapply Hf|]. intros l' b Hl'. apply Forall_app. split; [by eapply HP|done].
Qed.
Lemma all_simple {A B} (x : act A) (f : A -> act B) : spec all x -> (forall a, spec all (f a)) -> spec all (bind x f).
Proof. intros Hx Hf. eapply all_bind; [exact Hx|done|]. intros. apply Hf. Qed.
Lemma all_andthen {A B} (x : act (res http_error A)) (f : A -> act (res http_error B)) : spec all x -> (forall a, spec all (f a)) -> spec all (andthen x f).
Proof. intros Hx Hf. apply all_simple; [exact Hx|]. intros [a|err]; [apply Hf|]. apply spec_ret. constructor. Qed.
Lemma all_ret {A} (a : A) : spec all (ret a).
Proof. apply spec_ret. constructor. Qed.
Lemma all_emit ev : Q ev -> spec all (emit ev).
Proof. intros H. apply spec_emit. by repeat constructor. Qed.

(** Reading keeps what is known of the connection. *)
Lemma all_read {B} (f : conn -> act B) : (forall c, I c -> spec all (f c)) -> spec all (bind read f).
Proof. intros H. eapply (all_bind (fun l c => l = [] /\ I c)); [by apply spec_read|intros l c [-> _]; constructor|]. intros l c [-> Hc]. by apply H. Qed.
Lemma all_update (f : conn -> conn) : (forall c, I c -> I (f c)) -> spec all (update f).
Proof. intros H. apply spec_update; [done|constructor]. Qed.
Lemma all_tick : spec all tick.
Proof. apply spec_tick. constructor. Qed.
Lemma all_sync : spec all (sync e).
Proof. apply spec_sync. constructor. Qed.

(** *** Requests *)
(** What the headers of a request say of the call it was built from. *)
Definition header_is (req : http_request) (name v : string) : Prop := header req !! canonical name = Some v.
Definition legacy_header (req : http_request) : Prop := exists c, I c /\ header_is req "MCP-Protocol-Version" (if String.eqb (protocolVersion c) "" then LatestLegacyVersion else protocolVersion c).
Definition version_header (call : httpCall) (req : http_request) : Prop :=
  canonical (authHeaderName cfg) <> canonical "MCP-Protocol-Version" ->
  if String.eqb (call_version call) "" then is_setup (Method (request call)) = false -> legacy_header req else header_is req "MCP-Protocol-Version" (call_version call).
Record built (call : httpCall) (req : http_request) : Prop := { b_message : message req = request call; b_version : version_header call req }.

Definition headers_ok (r : res http_error (gmap string string * string)) : Prop :=
  match r with
  | Ok (h, _) => canonical (authHeaderName cfg) <> canonical "MCP-Protocol-Version" -> exists c, I c /\ h !! canonical "MCP-Protocol-Version" = Some (if String.eqb (protocolVersion c) "" then LatestLegacyVersion else protocolVersion c)
  | Err _ => True
  end.
Lemma setRequestHeaders_spec : spec (fun l r => l = [] /\ headers_ok r) (setRequestHeaders cfg e).
Proof.
  unfold setRequestHeaders. eapply spec_bind; [by apply (spec_sync (fun l _ => l = []))|]. intros l _ ->. eapply spec_bind; [apply (spec_read (fun l c => l = [] /\ I c)); done|]. intros l c [-> Hc].
  unfold applyAuthProvider. assert (base_headers cfg (protocolVersion c) !! canonical "MCP-Protocol-Version" = Some (if String.eqb (protocolVersion c) "" then LatestLegacyVersion else protocolVersion c)) as Hb by apply lookup_insert_eq.
  destruct (authProvider cfg) as [p|]; [|apply spec_ret; split; [done|]; intros _; by exists c].
  eapply spec_bind; [by apply (spec_tick (fun l _ => l = []))|]. intros l t ->. destruct (Authorization p t) as [v|err]; apply spec_ret; (split; [done|]); [|done].
  intros Hne. exists c. split; [done|]. unfold set_header. by rewrite lookup_insert_ne.
Qed.
Lemma attachSessionID_spec h : spec (fun l h' => l = [] /\ forall name, canonical name <> canonical "Mcp-Session-Id" -> h' !! canonical name = h !! canonical name) (attachSessionID e h).
Proof.
  unfold attachSessionID. eapply spec_bind; [by apply (spec_sync (fun l _ => l = []))|]. intros l _ ->. eapply spec_bind; [apply (spec_read (fun l _ => l = [])); done|]. intros l c ->. apply spec_ret. split; [done|].
  intros name Hn. destruct (String.eqb (sessionID c) ""); [done|]. unfold set_header. by rewrite lookup_insert_ne.
Qed.
Lemma setters_keep l h name : Forall (fun kv : string * string => canonical (fst kv) <> canonical name) l -> foldl (fun h kv => set_header h (fst kv) (snd kv)) h l !! canonical name = h !! canonical name.
Proof. intros H. revert h. induction H as [|kv l Hkv _ IH]; intros h; [done|]. cbn [foldl]. rewrite IH. unfold set_header. by rewrite lookup_insert_ne. Qed.
Lemma tool_headers_names table params : Forall (fun kv : string * string => canonical (fst kv) <> canonical "MCP-Protocol-Version") (addToolCallHeaders table params).
Proof.
  unfold addToolCallHeaders. destruct (decodeObjectParams params) as [fields|]; [|done]. destruct (modernParamString fields "name") as [name|]; [|done]. constructor; [by vm_compute|].
  destruct (unmarshal_map _) as [args|]; [|done]. apply Forall_forall. intros kv Hin. apply list_elem_of_omap in Hin as (h & _ & Hv). destruct (argumentAtPath _ _); [|done]. injection Hv as <-. cbn [fst].
  unfold canonical. destruct (str_forall header_name_byte _); vm_compute; discriminate.
Qed.
Definition built_ok (call : httpCall) (r : res http_error (http_request * string)) : Prop := match r with Ok (req, _) => built call req | Err _ => True end.
Lemma buildModern_spec call : String.eqb (call_version call) "" = false -> spec (fun l r => l = [] /\ built_ok call r) (buildModernHTTPRequest cfg e call).
Proof.
  intros Hv. unfold buildModernHTTPRequest. destruct (negb _); [by apply spec_ret|]. eapply spec_andthen; [apply setRequestHeaders_spec| |by intros l err [-> _]].
  intros l [h sentAuth] [-> _]. eapply spec_bind; [by apply (spec_sync (fun l _ => l = []))|]. intros l _ ->. eapply spec_bind; [by apply (spec_read (fun l _ => l = []))|]. intros l c ->. apply spec_ret. split; [done|].
  split; [done|]. intros _. rewrite Hv. unfold header_is. cbn [header]. destruct (String.eqb _ "tools/call"); [rewrite setters_keep by apply tool_headers_names|]; (unfold set_header; rewrite lookup_insert_ne by (by vm_compute); apply lookup_insert_eq).
Qed.
Lemma buildHTTPRequest_spec call : spec (fun l r => l = [] /\ built_ok call r) (buildHTTPRequest cfg e call).
Proof.
  unfold buildHTTPRequest. destruct (String.eqb (call_version call) "") eqn:Ev; cbn [negb]; [|by apply buildModern_spec]. destruct (negb _); [by apply spec_ret|].
  eapply spec_andthen; [apply setRequestHeaders_spec| |by intros l err [-> _]]. intros l [h sentAuth] [-> Hh]. set (h1 := if String.eqb _ "initialize" then _ else _). set (h2 := if String.eqb _ "server/discover" then _ else _).
  assert (is_setup (Method (request call)) = false -> h2 = h) as Hsame by (unfold is_setup, h2, h1; intros [-> ->]%orb_false_iff; done).
  eapply (spec_bind (fun l h' => l = [] /\ (is_setup (Method (request call)) = false -> h' !! canonical "MCP-Protocol-Version" = h !! canonical "MCP-Protocol-Version"))).
  - destruct (is_setup _) eqn:Es; [by apply spec_ret|]. eapply spec_weaken; [apply attachSessionID_spec|]. intros l h' [-> H]. split; [done|]. intros _. rewrite H by (by vm_compute). by rewrite Hsame.
  - intros l h' [-> H]. apply spec_ret. split; [done|]. split; [done|]. intros Hne. rewrite Ev. intros Hs. destruct (Hh Hne) as (c & Hc & Hx). exists c. split; [done|]. unfold header_is. cbn [header]. by rewrite H.
Qed.

Hypothesis Q_other : forall ev, match ev with Posted _ _ | Slept _ => True | _ => Q ev end.
Hypothesis I_id : forall c id, I c -> I {| sessionID := sessionID c; protocolVersion := protocolVersion c; eraKnown := eraKnown c; initialized := initialized c; initializedBefore := initializedBefore c; modernVersion := modernVersion c; modernHeaders := modernHeaders c; listener := listener c; nextID := id |}.
Hypothesis I_session_id : forall c id, I c -> I {| sessionID := id; protocolVersion := protocolVersion c; eraKnown := eraKnown c; initialized := initialized c; initializedBefore := initializedBefore c; modernVersion := modernVersion c; modernHeaders := modernHeaders c; listener := listener c; nextID := nextID c |}.
Lemma next_id_spec (P : list event -> Z -> Prop) : (forall id, P [] id) -> spec P (next_id e).
Proof.
  intros H. unfold next_id. eapply spec_bind; [by apply (spec_tick (fun l _ => l = []))|]. intros l t ->. eapply spec_bind; [apply (spec_read (fun l c => l = [] /\ I c)); done|]. intros l c [-> Hc].
  eapply spec_bind; [apply (spec_put (fun l _ => l = [])); [by apply I_id|done]|]. intros l _ ->. by apply spec_ret.
Qed.
Lemma handle_all_ok ns : spec all (handle_all ns).
Proof.
  induction ns as [|n ns IH]; [apply all_ret|]. cbn [handle_all]. apply all_simple; [|done]. unfold handleNotification. destruct (String.eqb _ _); apply all_emit; [apply (Q_other NotifyToolsChanged)|apply (Q_other (Notified n))].
Qed.
Lemma observe_ok resp : spec all (observeAuthorizationChallenge cfg resp).
Proof.
  unfold observeAuthorizationChallenge. destruct (negb _ && _); [apply all_ret|]. destruct (authProvider cfg) as [p|]; [|apply all_ret]. destruct (observes p); [|apply all_ret]. apply all_emit, (Q_other (Challenged _ _)).
Qed.
Lemma storeSessionID_ok id : spec all (storeSessionID id).
Proof. unfold storeSessionID. destruct (Nat.ltb _ _); [apply all_ret|]. apply all_read. intros c Hc. apply spec_put; [by apply I_session_id|constructor]. Qed.
End spec.

(** ** One post *)
Definition plain_event (ev : event) : Prop := match ev with Posted _ _ | Slept _ => False | _ => True end.
Lemma plain_other ev : match ev with Posted _ _ | Slept _ => True | _ => plain_event ev end.
Proof. by destruct ev. Qed.
Definition header_mismatch (req : http_request) (resp : http_response) : bool :=
  match (if 400 <=? status resp then httpStatusRPCResponse (str_take error_body_bytes (body resp))
         else match snd (parsePostBody (take_bytes answer_body_bytes (body resp)) (default 0 (r_ID (message req)))) with Err (Rejection rpc) => Some rpc | _ => None end) with
  | Some rpc => Code rpc =? CodeHeaderMismatch
  | None => false
  end.
(** An answer that says that the request was not run. *)
Definition refused (req : http_request) (answer : res string http_response) : bool :=
  match answer with
  | Err _ => false
  | Ok resp => isRetryableStatus (status resp) || (status resp =? 401) || (status resp =? 404) && negb (String.eqb (get_header (header req) "Mcp-Session-Id") "") || header_mismatch req resp
  end.
Definition resendable (err : http_error) : bool := isUnauthorized err || match root err with SessionExpiredError _ => true | _ => false end || isHeaderMismatch err.
Lemma find_response_errors messages id : forall r, match snd (find_from r messages id) with Err (Unusable | Rejection _) | Ok _ => True | Err _ => False end.
Proof.
  induction messages as [|m messages IH]; intros r; cbn [find_from].
  - cbn [snd]. unfold notFoundError. destruct (count r) as [|[|]], (soleError r); done.
  - unfold parseHTTPMessage. destruct (struct_members m) as [ms|]; [|done]. destruct (string_field _ _) as [meth|]; [|done]. destruct (typed_field _ _ _ _) as [err|]; [|done].
    destruct (_ && _); [specialize (IH r); by destruct (find_from r messages id)|]. cbn [matched p_error p_result]. destruct (sameJSONID _ _); [by destruct err|]. apply IH.
Qed.
Section post.
Variable I : conn -> Prop.
Variables (cfg : config) (e : env) (ParseTime : string -> option Z).
Hypothesis others_keep : forall t c, I c -> I (others e t c).
Hypothesis I_session_id : forall c id, I c -> I {| sessionID := id; protocolVersion := protocolVersion c; eraKnown := eraKnown c; initialized := initialized c; initializedBefore := initializedBefore c; modernVersion := modernVersion c; modernHeaders := modernHeaders c; listener := listener c; nextID := nextID c |}.
Lemma retry_after_bound h t : parseRetryAfter ParseTime h t <= maxDelay.
Proof. unfold parseRetryAfter, maxDelay, second. repeat case_match; lia. Qed.
(** What an outcome says of the answer. *)
Definition outcome_ok (req : http_request) (answer : res string http_response) (r : posted) : Prop :=
  match r with
  | Ok _ => True
  | Err (err, d) => (d <> None \/ resendable err = true -> refused req answer = true) /\ match d with Some d => d <= maxDelay | None => True end
  end.
Lemma processResponse_spec req resp : spec I (fun l r => Forall plain_event l /\ outcome_ok req (Ok resp) r) (processResponse e ParseTime resp (message req) (get_header (header req) "Mcp-Session-Id")).
Proof.
  unfold processResponse, outcome_ok, refused. set (sid := get_header _ _). destruct (400 <=? status resp) eqn:E4.
  - unfold httpErrorResult. destruct (isRetryableStatus _) eqn:Er.
    + eapply spec_bind; [by apply (spec_tick _ (fun l _ => l = []))|]. intros l t ->. apply spec_ret. split; [constructor|]. split; [done|]. apply retry_after_bound.
    + destruct (_ && _) eqn:E404; apply spec_ret; (split; [done|]); [split; [|done]; intros _; by rewrite !orb_true_r|]. split; [|done]. intros [?|H]; [done|]. cbn [orb]. unfold nonRetryableHTTPError in H. destruct (status resp =? 401); [done|]. cbn [orb]. unfold header_mismatch. rewrite E4.
      unfold resendable, isHeaderMismatch, is_code, isUnauthorized in H. cbn [root RPC orb] in H. exact H.
  - destruct (cut resp); [apply spec_ret; split; [constructor|]; split; [by intros [?|?]|done]|]. destruct (parsePostBody _ _) as [ns result] eqn:Ep.
    eapply spec_bind; [apply (handle_all_ok I plain_event plain_other)|]. intros l ? Hl. destruct result as [raw|err].
    + eapply (spec_bind I (fun l _ => Forall plain_event l)); [destruct (String.eqb _ _); [by apply storeSessionID_ok|apply all_ret]|]. intros l' ? Hl'. apply spec_ret. split; [|done]. rewrite app_nil_r. by apply Forall_app.
    + apply spec_ret. rewrite app_nil_r. split; [exact Hl|]. split; [|done]. intros [?|H]; [done|]. rewrite !orb_true_iff. right. unfold header_mismatch. rewrite E4, Ep. cbn [snd].
      assert (match err with Unusable | Rejection _ | StreamError _ => True | _ => False end) as He.
      { unfold parsePostBody in Ep. destruct (Sse.splitHTTPMessages _) as [[messages|se]|]; [|by injection Ep as _ <-..]. pose proof (find_response_errors messages (default 0 (r_ID (message req))) {| count := 0; soleError := None |}) as Hf. unfold findPostResponse in Ep. rewrite Ep in Hf. by destruct err. }
      by destruct err.
Qed.
(** No request, or one and its answer. *)
Definition posted_once (call : httpCall) (l : list event) (r : posted) : Prop :=
  l = [] /\ match r with Err (_, None) => True | _ => False end \/
  exists req answer l', l = Posted req answer :: l' /\ built I cfg call req /\ Forall plain_event l' /\ outcome_ok req answer r.
Lemma doPost_spec call : spec I (fun l x => posted_once call l (snd x)) (doPost cfg e ParseTime call).
Proof.
  unfold doPost. eapply spec_bind; [by apply buildHTTPRequest_spec|]. intros l [[req sentAuth]|err] [-> Hb]; [|apply spec_ret; by left]. cbn [built_ok] in Hb.
  eapply (spec_bind I (fun l answer => l = [Posted req answer])).
  { unfold send_http. eapply spec_bind; [by apply (spec_tick _ (fun l _ => l = []))|]. intros l t ->. eapply spec_bind; [by apply (spec_emit _ (fun l _ => l = [Posted req (net e t req)]))|]. intros l _ ->. by apply spec_ret. }
  intros l answer ->. destruct answer as [resp|msg].
  - eapply spec_bind; [apply (observe_ok I cfg plain_event plain_other)|]. intros l ? Hl. rewrite <- (b_message _ _ _ _ Hb). eapply spec_bind; [apply processResponse_spec|]. intros l' r [Hl' Hr]. apply spec_ret. right. exists req, (Ok resp), (l ++ l' ++ []). split; [done|]. split; [done|]. split; [|done].
    rewrite app_nil_r. by apply Forall_app.
  - apply spec_ret. right. eexists req, (Err msg), _. split; [done|]. split; [done|]. split; [constructor|]. split; [by intros [?|?]|done].
Qed.
End post.

(** ** Everything a call sends *)
Lemma initialize_legacy raw v : parseInitializeResult raw = Ok v -> IsLegacyVersion v = true.
Proof. unfold parseInitializeResult. repeat case_match; congruence. Qed.
Lemma shared_version_ok supported w : sharedVersionVerdict supported = Some w -> match era w with EraModern => IsModernVersion (v_version w) = true | EraLegacy => v_version w = "" end.
Proof.
  unfold sharedVersionVerdict. destruct (List.find _ _) as [v|] eqn:E; [|destruct (existsb _ _); [by intros [= <-]|done]]. intros [= <-]. cbn. apply List.find_some in E as [[<-|[]] _]. done.
Qed.
Definition verdict_ok (w : probeVerdict) : Prop := match era w with EraModern => IsModernVersion (v_version w) = true | EraLegacy => v_version w = "" end.
Lemma discover_result_version result requested w : classifyDiscoverResult result requested = Ok w -> verdict_ok w.
Proof.
  unfold classifyDiscoverResult. destruct (discoverSupportedVersions result) as [versions|]; [|by intros [= <-]]. destruct (sharedVersionVerdict versions) as [v|] eqn:E; [|done]. apply shared_version_ok in E. destruct (era v) eqn:Ee; [intros [= <-]; unfold verdict_ok; by rewrite Ee|].
  intros H. inv_ok H. destruct (decode_discover result); injection H as <-; done.
Qed.
Lemma rejection_version err requested w : classifyDiscoverRejection err requested = Ok w -> verdict_ok w.
Proof.
  unfold classifyDiscoverRejection. destruct (isModernRejection _); [done|]. destruct (negb _); [by intros [= <-]|]. destruct (decodeUnsupportedVersionData _) as [supported echoed]. destruct (sharedVersionVerdict supported) as [v|] eqn:E; [|done]. intros [= <-]. by apply shared_version_ok in E.
Qed.
Lemma of_discover_ok {A} (r : res discover_error A) a : of_discover r = Ok a -> r = Ok a.
Proof. destruct r; cbn; congruence. Qed.
Lemma classifyDiscover_version r w : classifyDiscover r = Ok w -> verdict_ok w.
Proof.
  destruct r as [result|err]; cbn [classifyDiscover]; [intros H%of_discover_ok; by eapply discover_result_version|]. unfold classifyDiscoverError.
  destruct (root err) as [|rpc|s|www|id|st| |se| | | | |de|me|st| | | |rpc|msg|err'|err']; try done; [by intros [= <-]|intros H%of_discover_ok; by eapply rejection_version|].
  destruct (RPC s); [intros H%of_discover_ok; by eapply rejection_version|]. destruct (isLegacyProbeStatus _); [by intros [= <-]|done].
Qed.

Section calls.
Variable I : conn -> Prop.
Variables (cfg : config) (e : env) (ParseTime : string -> option Z) (order : list string -> gmap string string -> list (string * string)).
Hypothesis others_keep : forall t c, I c -> I (others e t c).
Hypothesis I_id : forall c id, I c -> I {| sessionID := sessionID c; protocolVersion := protocolVersion c; eraKnown := eraKnown c; initialized := initialized c; initializedBefore := initializedBefore c; modernVersion := modernVersion c; modernHeaders := modernHeaders c; listener := listener c; nextID := id |}.
Hypothesis I_session_id : forall c id, I c -> I {| sessionID := id; protocolVersion := protocolVersion c; eraKnown := eraKnown c; initialized := initialized c; initializedBefore := initializedBefore c; modernVersion := modernVersion c; modernHeaders := modernHeaders c; listener := listener c; nextID := nextID c |}.
Hypothesis I_session : forall c v, I c -> IsLegacyVersion v = true -> I (set_session v c).
Hypothesis I_initialized : forall c x y, I c -> I (set_initialized x y c).
Hypothesis I_era : forall c b v, I c -> v = modernVersion c \/ v = "" \/ IsModernVersion v = true -> I (set_era b v c).
Hypothesis I_listener : forall c l, I c -> I (set_listener l c).
Hypothesis I_headers : forall c h, I c -> I (set_headers h c).
(** A version the era may have. *)
Variable V : string -> Prop.
Hypothesis V_known : forall c, I c -> V (modernVersion c).
Hypothesis V_verdict : forall v, v = "" \/ IsModernVersion v = true -> V v.
Variable Q : event -> Prop.
Variable G : string -> string -> string -> Prop. (* of the method, the parameters and the version of a call *)
Hypothesis Q_other : forall ev, match ev with Posted _ _ | Slept _ => True | _ => Q ev end.
Hypothesis Q_slept : forall d, 0 <= d <= maxDelay -> Q (Slept d).
Hypothesis Q_posted : forall call req answer, G (Method (request call)) (Params (request call)) (call_version call) -> built I cfg call req -> Q (Posted req answer).
Hypothesis Q_initialized : forall req answer, message req = initialized_notification -> Q (Posted req answer).
Hypothesis G_initialize : forall params, G "initialize" params "".
Hypothesis G_discover : forall params, G "server/discover" params "".
Hypothesis G_list : forall params v, G "tools/list" params v.
Notation every := (spec I (all Q)).

Lemma plain_Q l : Forall plain_event l -> Forall Q l.
Proof. intros Hl. eapply Forall_impl; [exact Hl|]. intros ev H. specialize (Q_other ev). by destruct ev. Qed.
Lemma all_err {A} (err : http_error) : every (fail (A := A) err).
Proof. apply all_ret. Qed.
Lemma post_all call : G (Method (request call)) (Params (request call)) (call_version call) -> every (post cfg e ParseTime call).
Proof.
  intros HG. unfold post. assert (forall rounds attempt backoff, (rounds + attempt = maxRetries)%nat -> 0 <= backoff <= second * 2 ^ Z.of_nat attempt -> every (post_from cfg e ParseTime rounds attempt backoff call)) as H; [|apply H; [done|]; change (2 ^ Z.of_nat 0) with 1; unfold second; lia].
  induction rounds as [|rounds IH]; intros attempt backoff Hn Hb; cbn [post_from]; [apply all_ret|].
  eapply all_bind; [by apply doPost_spec| |].
  - intros l [s r] [[-> _]|(req & answer & l' & -> & Hreq & Hl & _)]; [constructor|]. constructor; [by eapply Q_posted|by apply plain_Q].
  - intros l [s r] Hr. destruct r as [raw|[err [d|]]]; [apply all_ret| |apply all_ret]. destruct (shouldStopRetrying _ _ _); [apply all_ret|].
    assert (d <= maxDelay) as Hd by (destruct Hr as [[_ []]|(req & answer & l' & _ & _ & _ & _ & Hd)]; exact Hd).
    assert (Z.of_nat attempt <= 2) as Ha by (unfold maxRetries in Hn; lia). assert (second * 2 ^ Z.of_nat attempt <= 4 * second) as Hp by (change 4 with (2 ^ 2); rewrite (Z.mul_comm (2 ^ 2)); apply Z.mul_le_mono_nonneg_l; [by unfold second|]; apply Z.pow_le_mono_r; lia).
    unfold nextRetryDelay. destruct (Z.leb_spec 0 d).
    + apply all_simple; [unfold sleepCtx; apply all_simple; [by apply all_emit, Q_slept|]; intros _; apply all_simple; [apply all_tick|intros; apply all_ret]|]. intros [|]; [|apply all_ret]. apply IH; [lia|]. split; [lia|]. etrans; [apply Hb|]. rewrite Nat2Z.inj_succ, Z.pow_succ_r by lia. unfold second. lia.
    + apply all_simple; [unfold sleepCtx; apply all_simple; [apply all_emit, Q_slept; unfold maxDelay, second in *; lia|]; intros _; apply all_simple; [apply all_tick|intros; apply all_ret]|]. intros [|]; [|apply all_ret]. apply IH; [lia|]. rewrite Nat2Z.inj_succ, Z.pow_succ_r by lia. lia.
Qed.
Lemma withAuthRetry_all {A} (attempt : act (string * res http_error A)) : every attempt -> every (withAuthRetry cfg attempt).
Proof.
  intros H. unfold withAuthRetry. apply all_simple; [exact H|]. intros [s [?|err]]; [apply all_ret|]. destruct (authProvider cfg) as [p|]; [|apply all_ret]. destruct (negb _); [apply all_err|]. apply all_simple; [apply all_emit, (Q_other (Refreshed s))|]. intros _.
  apply all_simple; [apply all_tick|]. intros t. destruct (RefreshAuthorization p t s); [|apply all_err]. apply all_simple; [exact H|]. intros [? [?|?]]; apply all_ret.
Qed.
Lemma send_all call : G (Method (request call)) (Params (request call)) (call_version call) -> every (send cfg e ParseTime call).
Proof. intros HG. unfold send. apply all_simple; [apply next_id_spec; [done|constructor]|]. intros id. by apply withAuthRetry_all, post_all. Qed.
Lemma sendOne_all build : spec I (fun l r => l = [] /\ match r with Ok (req, _) => message req = initialized_notification | Err _ => True end) build -> every (sendOneWithAuthRetry cfg e build).
Proof.
  intros H. apply withAuthRetry_all. eapply all_bind; [exact H|by intros l r [-> _]; constructor|]. intros l [[req s]|err] [-> Hm]; [|apply all_ret].
  apply all_simple; [unfold send_http; apply all_simple; [apply all_tick|]; intros t; apply all_simple; [by apply all_emit, Q_initialized|intros; apply all_ret]|]. intros [resp|msg]; [|apply all_ret].
  apply all_simple; [by apply observe_ok|]. intros _. destruct (status resp =? 401); apply all_ret.
Qed.
Lemma startListener_all : every (startListener e).
Proof.
  unfold startListener. apply all_simple; [apply all_tick|]. intros t. apply all_read. intros c Hc. destruct (match listener c with Some _ => _ | None => _ end); [apply all_ret|]. destruct (closed e t); [apply all_ret|].
  apply all_simple; [apply all_emit, (Q_other (StartListener _))|]. intros _. apply all_update. intros c' Hc'. by apply I_listener.
Qed.
Lemma restartListener_all listen : every (restartListener e listen).
Proof.
  unfold restartListener. apply all_read. intros c Hc. apply all_simple; [|intros _; destruct listen; [apply startListener_all|apply all_ret]]. destruct (listener c); [|apply all_ret]. apply all_simple; [apply all_emit, (Q_other StopListener)|]. intros _. apply all_update. intros c' Hc'. by apply I_listener.
Qed.
Lemma initHandshake_all : every (initHandshake cfg e ParseTime).
Proof.
  unfold initHandshake, sendInitialize. eapply all_bind.
  - eapply (spec_andthen I (fun l _ => Forall Q l) (fun l (r : res http_error (string * bool)) => Forall Q l /\ match r with Ok (v, _) => IsLegacyVersion v = true | Err _ => True end)); [apply (send_all {| request := _; call_version := "" |}), G_initialize| |done].
    intros l raw Hl. destruct (parseInitializeResult raw) as [v|err] eqn:Ep; apply spec_ret; (split; [by rewrite app_nil_r|]); [|done]. by eapply initialize_legacy.
  - by intros l r [? _].
  - intros l [[v listen]|err] [_ Hv]; [|apply all_err]. apply all_simple; [apply all_update; intros c Hc; by apply I_session|]. intros _. apply all_andthen.
    + unfold sendInitializedNotification. apply all_andthen; [|intros resp; destruct (_ || _); apply all_ret]. apply sendOne_all. unfold buildInitializedNotifRequest. destruct (negb _); [by apply spec_ret|].
      eapply spec_andthen; [by apply setRequestHeaders_spec| |by intros l' err [-> _]]. intros l' [h s] [-> _]. eapply spec_bind; [by apply attachSessionID_spec|]. intros l' h' [-> _]. by apply spec_ret.
    + intros _. apply all_simple; [apply restartListener_all|]. intros _. apply all_ret.
Qed.
Lemma with_setup_all {A} (x : act A) : every x -> every (with_setup e x).
Proof. by apply spec_with_setup. Qed.
(** The versions it settles on. *)
Lemma ensureReady_spec : spec I (fun l r => Forall Q l /\ match r with Ok v => V v | Err _ => True end) (ensureReady cfg e ParseTime).
Proof.
  unfold ensureReady, probeOnce. eapply spec_andthen; [apply (spec_with_setup I e others_keep (fun l (r : res http_error string) => Forall Q l /\ match r with Ok v => V v | Err _ => True end))| |by intros l err].
  - eapply (spec_bind I (fun l c => l = [] /\ I c)); [by apply spec_read|]. intros l c [-> Hc]. destruct (eraKnown c); [apply spec_ret; split; [constructor|by apply V_known]|].
    eapply (spec_bind I (fun l _ => Forall Q l)).
    { unfold probe. destruct (prepareModernParams _ _ _); [apply (send_all {| request := _; call_version := "" |}), G_discover|apply all_err]. }
    intros l r Hl. destruct (classifyDiscover r) as [w|err] eqn:Ew; [|apply spec_ret; rewrite !app_nil_r; by split]. apply classifyDiscover_version in Ew.
    eapply (spec_bind I (fun l _ => Forall Q l)); [apply all_update; intros c' Hc'; apply I_era; [done|]; unfold verdict_ok in Ew; destruct (era w); [by left|by right; right]|].
    intros l' u Hl'. eapply (spec_bind I (fun l _ => Forall Q l)); [destruct (v_listen w); [apply startListener_all|apply all_ret]|]. intros l'' u' Hl''. apply spec_ret. rewrite app_nil_r. split; [by rewrite !Forall_app|].
    apply V_verdict. unfold verdict_ok in Ew. destruct (era w); [by left|by right].
  - intros l v [Hl Hv]. destruct (negb _); [apply spec_ret; by rewrite app_nil_r|].
    eapply (spec_bind I (fun l _ => Forall Q l)).
    { unfold initializeOnce. apply with_setup_all. apply all_read. intros c Hc. destruct (initialized c); [apply all_ret|]. apply all_andthen; [apply initHandshake_all|]. intros _. apply all_read. intros c' Hc'. apply all_simple; [apply all_update; intros; by apply I_initialized|]. intros _. apply all_ret. }
    intros l' [renewed|err] Hl'; [|apply spec_ret; rewrite app_nil_r; split; [by apply Forall_app|done]].
    eapply (spec_bind I (fun l _ => Forall Q l)); [destruct renewed; [apply all_emit, (Q_other NotifyToolsChanged)|apply all_ret]|]. intros l'' u Hl''. apply spec_ret. rewrite app_nil_r, !Forall_app. split; [done|]. apply V_verdict. by left.
Qed.
Lemma ensureReady_all : every (ensureReady cfg e ParseTime).
Proof. eapply spec_weaken; [apply ensureReady_spec|]. by intros l r [? _]. Qed.
Lemma resetModernEra_all : every (resetModernEra e).
Proof. apply with_setup_all, all_update. intros c Hc. apply I_era; [done|]. by right; left. Qed.
Lemma modernError_all err : every (modernError e err).
Proof.
  assert (forall rpc whole, every (modernRPCError e rpc whole)) as H by (intros; unfold modernRPCError; destruct (_ =? _); [apply all_simple; [apply resetModernEra_all|]; intros _; apply all_ret|apply all_ret]).
  unfold modernError. destruct (root err); try apply all_ret; [apply H|]. destruct (RPC _); [apply H|]. destruct (_ && _); [|apply all_ret]. apply all_simple; [apply resetModernEra_all|]. intros _. apply all_ret.
Qed.
Lemma compareAndReset_all id : every (compareAndResetSession e id).
Proof. apply with_setup_all, all_read. intros c Hc. destruct (String.eqb _ _); [|apply all_ret]. apply all_update. intros c' Hc'. by apply I_initialized. Qed.
Lemma callLegacy_all m params : G m (if String.eqb m "tools/call" then stripModernToolCallFields params else params) "" -> every (callLegacy cfg e ParseTime m params).
Proof.
  intros HG. unfold callLegacy, withSessionRecovery. set (attempt := rpc _ _ _ _ _). assert (every attempt) as H by by apply (send_all {| request := _; call_version := "" |}).
  apply all_simple; [exact H|]. intros [raw|err]; [apply all_ret|]. destruct (root err); try apply all_ret. apply all_simple; [apply compareAndReset_all|]. intros _. apply all_andthen; [apply ensureReady_all|]. done.
Qed.
Lemma ensureToolHeaders_all (list_tools : act (res http_error unit)) : every list_tools -> every (ensureToolHeaders e list_tools).
Proof. intros H. unfold ensureToolHeaders. apply all_simple; [by apply all_sync|]. intros _. apply all_read. intros c _. destruct (modernHeaders c); [apply all_ret|exact H]. Qed.
Lemma callModern_all list_tools call : every list_tools -> (forall p, prepareModernParams (Version cfg) (Params (request call)) (call_version call) = Ok p -> G (Method (request call)) p (call_version call)) ->
  every (callModern cfg e ParseTime list_tools call).
Proof.
  intros Hl HG. unfold callModern. destruct (prepareModernParams _ _ _) as [p|err] eqn:Ep; [|apply all_err]. set (call' := {| request := _; call_version := _ |}). assert (every (send cfg e ParseTime call')) as Hs by by apply send_all, HG. clearbody call'.
  apply all_andthen; [destruct (String.eqb _ _); [by apply ensureToolHeaders_all|apply all_ret]|]. intros _. apply all_simple; [exact Hs|]. intros r. apply all_andthen.
  - destruct r as [raw|err]; [apply all_ret|]. destruct (_ && _); [|apply all_ret]. apply all_andthen; [exact Hl|]. intros _. apply all_simple; [exact Hs|]. intros r. apply all_ret.
  - intros [raw|err]; [destruct (ResultTypeOf raw); apply all_ret|]. apply all_simple; [apply modernError_all|]. intros. apply all_err.
Qed.
Lemma callAndReportVersion_all list_tools m params : every list_tools -> G m (if String.eqb m "tools/call" then stripModernToolCallFields params else params) "" ->
  (forall v p, V v -> v <> "" -> prepareModernParams (Version cfg) params v = Ok p -> G m p v) -> every (callAndReportVersion cfg e ParseTime list_tools m params).
Proof.
  intros Hl H1 H2. unfold callAndReportVersion. eapply spec_andthen; [apply ensureReady_spec| |by intros l err [? _]]. intros l v [Hq Hv].
  assert (forall x : act (res http_error (string * string)), every x -> spec I (fun l' (b : res http_error (string * string)) => all Q (l ++ l') b) x) as Hx by (intros x H; eapply spec_weaken; [exact H|]; intros l' b Hl'; by apply Forall_app).
  apply Hx. destruct (String.eqb_spec v "") as [->|Hne]; (apply all_andthen; [|intros; apply all_ret]); [by apply callLegacy_all|]. apply callModern_all; [done|]. intros p. by apply H2.
Qed.
Lemma ListTools_all : every (ListTools cfg e ParseTime order).
Proof.
  unfold ListTools. apply all_andthen.
  - generalize maxToolsListPages 0%nat (no_tools (Tool := ToolDefinition)) "" (∅ : gset string) false. induction n as [|n IH]; intros index l cursor seen legacy; cbn [list_pages]; [apply all_ret|].
    apply all_simple.
    + unfold callToolsPage. apply all_andthen; [apply callAndReportVersion_all; [apply all_ret|apply G_list|intros; apply G_list]|]. intros [raw v]. apply all_simple; [apply all_tick|]. intros t. destruct (decodeToolsListPage raw _ v); apply all_ret.
    + intros [[page v]|err]; [|apply all_simple; [apply all_tick|]; intros t; destruct (_ && _); apply all_ret]. destruct (String.eqb (NextCursor page) ""); [apply all_ret|]. destruct (advanceCursor _ _) as [[seen' next]|]; [apply IH|apply all_ret].
  - intros [l legacy]. destruct legacy; [apply all_ret|]. destruct (rebuildToolHeaders order (Tools l)) as [table tools]. apply all_simple; [by apply all_sync|]. intros _. apply all_simple; [apply all_update; intros c Hc; by apply I_headers|]. intros _. apply all_ret.
Qed.
Lemma list_unit_all : every (let! _ <- ListTools cfg e ParseTime order; ok tt).
Proof. apply all_andthen; [apply ListTools_all|]. intros. apply all_ret. Qed.
End calls.

(** ** What is sent again *)
Section resends.
Variable m : string.
Definition post_of (ev : event) : option (http_request * res string http_response) :=
  match ev with Posted req answer => if String.eqb (Method (message req)) m then Some (req, answer) else None | _ => None end.
Definition posts (l : list event) : list (http_request * res string http_response) := omap post_of l.
Definition refusals (ps : list (http_request * res string http_response)) : Prop := Forall (fun p => refused (fst p) (snd p) = true) ps.
Definition resent (ps : list (http_request * res string http_response)) : Prop := refusals (removelast ps).
(** At most [n] posts, all but the last refused, and the last one too when the error asks for another. *)
Definition tries {A} (n : nat) (l : list event) (r : res http_error A) : Prop :=
  (length (posts l) <= n)%nat /\ resent (posts l) /\ match r with Err err => resendable err = true -> refusals (posts l) | Ok _ => True end.
Definition silent (ev : event) : Prop := post_of ev = None.

Lemma posts_app l l' : posts (l ++ l') = posts l ++ posts l'.
Proof. apply omap_app. Qed.
Lemma posts_silent l : Forall silent l -> posts l = [].
Proof. induction 1 as [|ev l H _ IH]; [done|]. unfold posts. cbn. unfold silent in H. by rewrite H. Qed.
Lemma refusals_resent a : refusals a -> resent a.
Proof. unfold resent. induction 1 as [|x a Hx Ha IH]; [constructor|]. destruct a; [constructor|]. constructor; [exact Hx|exact IH]. Qed.
Lemma resent_app a b : refusals a -> resent b -> resent (a ++ b).
Proof.
  intros Ha Hb. destruct b as [|x b]; [rewrite app_nil_r; by apply refusals_resent|]. unfold resent. rewrite removelast_app by done. by apply Forall_app.
Qed.
Lemma tries_app {A} k n l l' (r : res http_error A) : (length (posts l) <= k)%nat -> refusals (posts l) -> tries n l' r -> tries (k + n) (l ++ l') r.
Proof.
  intros Hk Hl (Hn & Hr & He). unfold tries. rewrite posts_app, length_app. split_and!; [lia|by apply resent_app|]. destruct r; [done|]. intros H. apply Forall_app. split; [done|by apply He].
Qed.
Lemma tries_silent {A} k n l l' (r : res http_error A) : (length (posts l) <= k)%nat -> refusals (posts l) -> Forall silent l' -> tries (k + n) (l ++ l') r.
Proof. intros Hk Hl Hs%posts_silent. unfold tries. rewrite posts_app, Hs, app_nil_r. unfold tries; split_and!; [lia|by apply refusals_resent|]. by destruct r. Qed.

Variable I : conn -> Prop.
Variables (cfg : config) (e : env) (ParseTime : string -> option Z) (order : list string -> gmap string string -> list (string * string)).
Hypothesis others_keep : forall t c, I c -> I (others e t c).
Hypothesis I_id : forall c id, I c -> I {| sessionID := sessionID c; protocolVersion := protocolVersion c; eraKnown := eraKnown c; initialized := initialized c; initializedBefore := initializedBefore c; modernVersion := modernVersion c; modernHeaders := modernHeaders c; listener := listener c; nextID := id |}.
Hypothesis I_session_id : forall c id, I c -> I {| sessionID := id; protocolVersion := protocolVersion c; eraKnown := eraKnown c; initialized := initialized c; initializedBefore := initializedBefore c; modernVersion := modernVersion c; modernHeaders := modernHeaders c; listener := listener c; nextID := nextID c |}.
Lemma plain_silent l : Forall plain_event l -> Forall silent l.
Proof. intros H. eapply Forall_impl; [exact H|]. by intros []. Qed.
Lemma once_tries call l r : posted_once I cfg call l r ->
  (length (posts l) <= 1)%nat /\ match r with Err (err, d) => (d <> None \/ resendable err = true) -> refusals (posts l) | Ok _ => True end.
Proof.
  intros [[-> Hr]|(req & answer & l' & -> & _ & Hl & Hr)].
  - split; [cbn; lia|]. destruct r as [|[err [d|]]]; try done. intros _. constructor.
  - change (Posted req answer :: l') with ([Posted req answer] ++ l'). rewrite posts_app, (posts_silent l') by by apply plain_silent. rewrite app_nil_r. unfold posts. cbn [omap list_omap post_of]. destruct (String.eqb _ m).
    + split; [cbn; lia|]. destruct r as [|[err d]]; [done|]. intros H. repeat constructor. by apply Hr.
    + split; [cbn; lia|]. destruct r as [|[err d]]; [done|]. intros _. constructor.
Qed.
Lemma post_tries call : spec I (fun l x => tries maxRetries l (snd x)) (post cfg e ParseTime call).
Proof.
  unfold post. assert (forall rounds attempt backoff, spec I (fun l x => tries rounds l (snd x)) (post_from cfg e ParseTime rounds attempt backoff call)) as H; [|apply H].
  induction rounds as [|rounds IH]; intros attempt backoff; cbn [post_from].
  { apply spec_ret. unfold tries; split_and!; [done|constructor|done]. }
  eapply spec_bind; [by apply doPost_spec|]. intros l [s r] Hr. cbn [snd] in Hr. apply once_tries in Hr as [Hn Hr].
  assert (forall x : string * res http_error string, (match snd x with Err err => resendable err = true -> refusals (posts l) | Ok _ => True end) -> spec I (fun l' b => tries (S rounds) (l ++ l') (snd b)) (ret x)) as Hret.
  { intros x Hx. apply spec_ret. rewrite app_nil_r. unfold tries; split_and!; [lia| |exact Hx]. unfold resent. destruct (posts l) as [|p [|p' ps]]; [constructor..|cbn in Hn; lia]. }
  destruct r as [raw|[err [d|]]]; [by apply Hret| |apply Hret; cbn [snd]; intros; apply Hr; by right].
  assert (refusals (posts l)) as Hl by (apply Hr; by left). destruct (shouldStopRetrying _ _ _); [apply Hret; cbn [snd]; by intros _|]. destruct (nextRetryDelay d backoff) as [d' backoff'].
  eapply (spec_bind I (fun l' _ => Forall silent l')).
  { unfold sleepCtx. eapply spec_bind; [by apply (spec_emit _ (fun l _ => l = [Slept d']))|]. intros l1 _ ->. eapply spec_bind; [by apply (spec_tick _ (fun l _ => l = []))|]. intros l2 t ->. apply spec_ret. by repeat constructor. }
  intros l1 fired Hl1. destruct fired.
  - eapply spec_weaken; [apply IH|]. intros l2 x Hx. apply (tries_app 1); [done|done|]. apply (tries_app 0 rounds); [by rewrite (posts_silent l1)|by rewrite (posts_silent l1); [constructor|]|done].
  - apply spec_ret. rewrite app_nil_r. by apply (tries_silent 1).
Qed.
Lemma withAuthRetry_tries {A} n (attempt : act (string * res http_error A)) : spec I (fun l x => tries n l (snd x)) attempt -> spec I (tries (n + n)) (withAuthRetry cfg attempt).
Proof.
  intros H. unfold withAuthRetry. eapply spec_bind; [exact H|]. intros l [s r] Hr. cbn [snd] in Hr. assert (spec I (fun l' b => tries (n + n) (l ++ l') b) (ret r)) as Hret.
  { apply spec_ret. rewrite app_nil_r. destruct Hr as (? & ? & ?). unfold tries; split_and!; [lia|done|done]. }
  destruct r as [a|err]; [exact Hret|]. destruct (authProvider cfg) as [p|]; [|exact Hret]. destruct (isUnauthorized err) eqn:Eu; cbn [negb]; [|exact Hret].
  destruct Hr as (Hn & _ & Hl). assert (refusals (posts l)) as Hrl by (apply Hl; unfold resendable; by rewrite Eu).
  eapply spec_bind; [by apply (spec_emit _ (fun l _ => l = [Refreshed s]))|]. intros l1 _ ->. eapply spec_bind; [by apply (spec_tick _ (fun l _ => l = []))|]. intros l2 t ->. destruct (RefreshAuthorization p t s).
  - eapply spec_bind; [exact H|]. intros l1 [s' r] Hr. cbn [snd] in Hr. assert (forall r' : res http_error A, (match r' with Err x => resendable x = true -> match r with Err err => resendable err = true | Ok _ => False end | Ok _ => True end) -> spec I (fun l' b => tries (n + n) (l ++ [Refreshed s] ++ [] ++ l1 ++ l') b) (ret r')) as Hret'.
    { intros r' Hr'. apply spec_ret. rewrite app_nil_r. apply tries_app; [done|done|]. apply (tries_app 0); [done|constructor|]. destruct Hr as (H1 & H2 & H3). unfold tries; split_and!; [done|done|]. destruct r'; [done|]. intros Hx. apply Hr' in Hx. destruct r; [done|]. auto. }
    destruct r as [a'|err']; [by apply Hret'|]. apply Hret'. destruct (isUnauthorized err') eqn:E'; [|done]. intros _. unfold resendable. by rewrite E'.
  - apply spec_ret. apply tries_silent; [done|done|]. by repeat constructor.
Qed.
Lemma send_tries call : spec I (tries 6) (send cfg e ParseTime call).
Proof.
  unfold send. eapply spec_bind; [by apply next_id_spec with (P := fun l _ => l = [])|]. intros l id ->. apply (withAuthRetry_tries 3), post_tries.
Qed.
End resends.

Section calls_resent.
Variables (cfg : config) (e : env) (ParseTime : string -> option Z) (order : list string -> gmap string string -> list (string * string)) (m : string).
Hypothesis not_setup : ~ m ∈ ["initialize"; "server/discover"; "notifications/initialized"; "tools/list"].
Notation anywhere := (fun _ : conn => True).
Lemma silent_other m' req answer : Method (message req) = m' -> m' <> m -> silent m (Posted req answer).
Proof. intros <- Hne. unfold silent. cbn. by rewrite (proj2 (String.eqb_neq _ _) Hne). Qed.
(** Requests of other methods only. *)
Definition other_method (m' _ _ : string) : Prop := m' <> m.
Ltac quietly := first [done | by intros [] | intros call req answer Hg Hb; eapply silent_other; [by rewrite (b_message _ _ _ _ Hb)|exact Hg] | intros req answer Hb; eapply silent_other; [by rewrite Hb|intros <-; apply not_setup; set_solver] | intros; intros <-; apply not_setup; set_solver].
Lemma ensureReady_quiet : spec anywhere (all (silent m)) (ensureReady cfg e ParseTime).
Proof. apply (ensureReady_all anywhere cfg e ParseTime) with (V := fun _ => True) (G := other_method); quietly. Qed.
Lemma ListTools_quiet : spec anywhere (all (silent m)) (let! _ <- ListTools cfg e ParseTime order; ok tt).
Proof. apply (list_unit_all anywhere cfg e ParseTime) with (V := fun _ => True) (G := other_method); quietly. Qed.
Lemma compareAndReset_quiet id : spec anywhere (all (silent m)) (compareAndResetSession e id).
Proof. apply compareAndReset_all; quietly. Qed.
Lemma modernError_quiet err : spec anywhere (all (silent m)) (modernError e err).
Proof. apply modernError_all; quietly. Qed.

(** Twelve posts at most: three for each of two credentials, for each of two sessions or lists of headers. *)
Definition ends (l : list event) : Prop := (length (posts m l) <= 12)%nat /\ resent (posts m l).
Lemma silent_before l l' : Forall (silent m) l -> ends l' -> ends (l ++ l').
Proof. intros Hl H. unfold ends. by rewrite posts_app, (posts_silent m l). Qed.
Lemma silent_after l l' : Forall (silent m) l' -> ends l -> ends (l ++ l').
Proof. intros Hl H. unfold ends. by rewrite posts_app, (posts_silent m l'), app_nil_r. Qed.
Lemma tries_ends {A} n l (r : res http_error A) : (n <= 12)%nat -> tries m n l r -> ends l.
Proof. intros Hn (? & ? & _). split; [lia|done]. Qed.
Lemma send_call_tries call : spec anywhere (tries m 6) (send cfg e ParseTime call).
Proof. by apply send_tries. Qed.
Lemma quiet_ends {A} (x : act A) : spec anywhere (all (silent m)) x -> spec anywhere (fun l _ => ends l) x.
Proof. intros H. eapply spec_weaken; [exact H|]. intros l a Hl. rewrite <- (app_nil_r l). apply silent_before; [exact Hl|]. split; [cbn; lia|constructor]. Qed.
Lemma callLegacy_resent params : spec anywhere (fun l _ => ends l) (callLegacy cfg e ParseTime m params).
Proof.
  unfold callLegacy, withSessionRecovery. set (attempt := rpc _ _ _ _ _). assert (spec anywhere (tries m 6) attempt) as H by apply send_call_tries. clearbody attempt.
  eapply spec_bind; [exact H|]. intros l r Hr. assert (spec anywhere (fun l' (_ : res http_error string) => ends (l ++ l')) (ret r)) as Hret by (apply spec_ret; rewrite app_nil_r; by eapply tries_ends, Hr; lia).
  destruct r as [raw|err]; [exact Hret|]. destruct (root err) eqn:Er; try exact Hret. destruct Hr as (Hn & _ & Hl). assert (refusals (posts m l)) as Hrl by (apply Hl; unfold resendable, isUnauthorized; rewrite Er; by rewrite orb_true_r).
  eapply spec_bind; [apply compareAndReset_quiet|]. intros l1 u Hl1. eapply spec_andthen; [apply ensureReady_quiet| |].
  - intros l2 v Hl2. eapply spec_weaken; [exact H|]. intros l3 r Hr. apply (tries_ends 12 _ r); [lia|]. apply (tries_app m 6 6); [done|done|]. rewrite app_assoc. apply (tries_app m 0 6); [|rewrite posts_silent by (by apply Forall_app); constructor|done]. by rewrite posts_silent by (by apply Forall_app).
  - intros l2 err' Hl2. apply (tries_ends 12 _ (Ok tt)); [lia|]. apply (tries_silent m 6 6); [done|done|]. by apply Forall_app.
Qed.
Lemma callModern_resent call : Method (request call) = m -> spec anywhere (fun l _ => ends l) (callModern cfg e ParseTime (let! _ <- ListTools cfg e ParseTime order; ok tt) call).
Proof.
  intros Hm. unfold callModern. destruct (prepareModernParams _ _ _) as [p|err]; [|by apply quiet_ends, all_ret]. set (call' := {| request := _; call_version := _ |}). pose proof (send_call_tries call') as H. clearbody call'.
  eapply (spec_andthen anywhere (all (silent m))); [destruct (String.eqb _ _); [|apply all_ret]; apply ensureToolHeaders_all; [done|apply ListTools_quiet]| |].
  2: { intros l err Hl. eapply silent_before with (l' := []) in Hl; [by rewrite app_nil_r in Hl|]. split; [cbn; lia|constructor]. }
  intros l0 u Hl0. eapply (spec_weaken anywhere (fun l (_ : res http_error string) => ends l)); [|intros l a Ha; by apply silent_before].
  eapply spec_bind; [exact H|]. intros l r Hr. eapply (spec_andthen anywhere (fun l' _ => ends (l ++ l'))).
  - assert (spec anywhere (fun l' (_ : res http_error (res http_error string)) => ends (l ++ l')) (ok r)) as Hret by (apply spec_ret; rewrite app_nil_r; by eapply tries_ends, Hr; lia).
    destruct r as [raw|err]; [exact Hret|]. destruct (_ && _) eqn:E; [|exact Hret]. apply andb_true_iff in E as [_ E]. destruct Hr as (Hn & _ & Hl). assert (refusals (posts m l)) as Hrl by (apply Hl; unfold resendable; rewrite E; by rewrite !orb_true_r).
    eapply spec_andthen; [apply ListTools_quiet| |].
    + intros l1 u1 Hl1. eapply spec_bind; [exact H|]. intros l2 r Hr. apply spec_ret. rewrite app_nil_r. apply (tries_ends 12 _ r); [lia|]. apply (tries_app m 6 6); [done|done|]. apply (tries_app m 0 6); [|rewrite posts_silent by done; constructor|done]. by rewrite posts_silent.
    + intros l1 err' Hl1. apply (tries_ends 12 _ (Ok tt)); [lia|]. by apply (tries_silent m 6 6).
  - intros l1 [raw|err] He; cbn beta iota.
    + destruct (ResultTypeOf raw); apply spec_ret; by rewrite app_nil_r.
    + eapply spec_bind; [apply modernError_quiet|]. intros l2 err' Hl2. apply spec_ret. rewrite app_nil_r, app_assoc. by apply silent_after.
  - done.
Qed.
End calls_resent.

(** C16: A call that may change something at the server is sent again only after an answer that says it was not run: whatever the server answers, the context does and other goroutines make of the connection meanwhile, every post of a call but the last was answered by 429, 503, 401, by 404 to a request of a session, or by the error that the headers do not match; a failed transport or a lost answer is never followed by a second post; and there are at most twelve posts. *)
Theorem http_resends_refused cfg e ParseTime order m params w : ~ m ∈ ["initialize"; "server/discover"; "notifications/initialized"; "tools/list"] ->
  exists l, log (fst (Call cfg e ParseTime order m params w)) = log w ++ l /\ (length (posts m l) <= 12)%nat /\ resent (posts m l).
Proof.
  intros Hm. assert (spec (fun _ => True) (fun l _ => ends m l) (Call cfg e ParseTime order m params)) as H.
  - unfold Call, callReporting, callAndReportVersion. assert (forall l, Forall (silent m) l -> ends m l) as Hs by (intros l Hl; rewrite <- (app_nil_r l); apply silent_before; [done|]; split; [cbn; lia|constructor]).
    assert (forall l l' : list event, ends m l -> l' = [] -> ends m (l ++ l')) as Hn by (intros l l' Hl ->; by rewrite app_nil_r).
    eapply (spec_andthen _ (fun l _ => ends m l)); [|intros l [raw v] Hl; apply spec_ret; by apply Hn|done]. eapply spec_andthen; [by apply ensureReady_quiet| |intros l err; apply Hs].
    intros l v Hl. eapply (spec_weaken _ (fun l' _ => ends m l')); [|intros l' r Hl'; by apply silent_before]. destruct (String.eqb v ""); (eapply (spec_andthen _ (fun l _ => ends m l)); [|intros l' raw Hl'; apply spec_ret; by apply Hn|done]).
    + by apply callLegacy_resent.
    + by apply callModern_resent.
  - by destruct (H w Logic.I) as (_ & l & Hl & Hn & Hr); exists l.
Qed.

(** C34: A connection over HTTP never waits longer than a minute before it tries again, nor a negative time, whatever Retry-After says: every wait of a call, of its probe, handshake and listings included, lies between zero and sixty seconds. *)
Theorem http_waits_bounded cfg e ParseTime order m params w :
  exists l, log (fst (Call cfg e ParseTime order m params w)) = log w ++ l /\ Forall (fun ev => match ev with Slept d => 0 <= d <= 60 * second | _ => True end) l.
Proof.
  assert (spec (fun _ => True) (all (fun ev => match ev with Slept d => 0 <= d <= 60 * second | _ => True end)) (Call cfg e ParseTime order m params)) as H; [|by destruct (H w Logic.I) as (_ & l & Hl & Hs); exists l].
  apply all_andthen; [|intros [raw v]; apply all_ret].
  apply callAndReportVersion_all with (V := fun _ => True) (G := fun _ _ _ => True); try done; try (by intros []); apply list_unit_all with (V := fun _ => True) (G := fun _ _ _ => True); first [done|by intros []].
Qed.

(** ** Versions *)
Definition versions_ok (c : conn) : Prop := (modernVersion c = "" \/ IsModernVersion (modernVersion c) = true) /\ (protocolVersion c = "" \/ IsLegacyVersion (protocolVersion c) = true).
(** The header and the parameters of a request go together. *)
Definition version_agrees (cfg : config) (params : string) (req : http_request) : Prop :=
  let v := get_header (header req) "MCP-Protocol-Version" in
  IsModernVersion v = true /\ prepareModernParams (Version cfg) params v = Ok (Params (message req)) \/
  IsLegacyVersion v = true /\ Params (message req) = stripModernToolCallFields params.
Definition call_agrees (cfg : config) (params m p v : string) : Prop :=
  m = "tools/call" -> if String.eqb v "" then p = stripModernToolCallFields params else IsModernVersion v = true /\ prepareModernParams (Version cfg) params v = Ok p.
Lemma posted_agrees cfg params call req : canonical (authHeaderName cfg) <> canonical "MCP-Protocol-Version" ->
  call_agrees cfg params (Method (request call)) (Params (request call)) (call_version call) -> built versions_ok cfg call req -> Method (message req) = "tools/call" -> version_agrees cfg params req.
Proof.
  intros Ha Hc [Hm Hv] Ht. rewrite Hm in Ht. specialize (Hc Ht). specialize (Hv Ha). unfold version_agrees. rewrite Hm. destruct (String.eqb (call_version call) "").
  - right. destruct Hv as (c & [_ Hc'] & Hh); [by rewrite Ht|]. unfold get_header. rewrite Hh. cbn [default id]. split; [|exact Hc]. destruct Hc' as [->|H]; [done|]. by destruct (String.eqb (protocolVersion c) "").
  - left. unfold get_header. rewrite Hv. exact Hc.
Qed.
(** C17: The protocol version in the header of a tool call is the one its parameters were prepared for: a modern version with the metadata of that version filled in, or a legacy version with the modern fields taken out, even when other goroutines settle on another era, reset it or open another session between the steps of the call. *)
Theorem http_versions_agree cfg e ParseTime order params w : (forall t c, versions_ok c -> versions_ok (others e t c)) -> versions_ok (cn w) -> canonical (authHeaderName cfg) <> canonical "MCP-Protocol-Version" ->
  let out := fst (Call cfg e ParseTime order "tools/call" params w) in
  versions_ok (cn out) /\ exists l, log out = log w ++ l /\ Forall (fun ev => match ev with Posted req _ => Method (message req) = "tools/call" -> version_agrees cfg params req | _ => True end) l.
Proof.
  intros Ho Hw Ha. cbv zeta. set (Q := fun ev => match ev with Posted req _ => _ | _ => True end). pose (V := fun v => v = "" \/ IsModernVersion v = true).
  assert (forall c (f : bool) v, versions_ok c -> v = modernVersion c \/ v = "" \/ IsModernVersion v = true -> versions_ok (set_era f v c)) as He.
  { intros c f v [H1 H2] Hv. split; [|exact H2]. cbn. destruct Hv as [->|Hv]; [exact H1|exact Hv]. }
  assert (spec versions_ok (all Q) (Call cfg e ParseTime order "tools/call" params)) as H; [|destruct (H w Hw) as (Hc & l & Hl & Hq); split; [done|]; by exists l].
  apply all_andthen; [|intros [raw v]; apply all_ret].
  assert (forall call req answer, call_agrees cfg params (Method (request call)) (Params (request call)) (call_version call) -> built versions_ok cfg call req -> Q (Posted req answer)) as Hp by (intros call req answer Hc Hb Ht; by eapply posted_agrees).
  assert (forall req answer, message req = initialized_notification -> Q (Posted req answer)) as Hi by (intros req answer Hm Ht; by rewrite Hm in Ht).
  assert (forall c v, versions_ok c -> IsLegacyVersion v = true -> versions_ok (set_session v c)) as Hs by (intros c v [H1 H2] Hv; split; [exact H1|by right]).
  apply callAndReportVersion_all with (V := V) (G := call_agrees cfg params); try done; try (by intros []); try (by intros c []).
  - apply list_unit_all with (V := V) (G := call_agrees cfg params); first [done|by intros []|by intros c []].
  - intros v p [->|Hv] Hne Hpr _; [done|]. by rewrite (proj2 (String.eqb_neq _ _) Hne).
Qed.

(** ** A server with sessions *)
Definition answering (code : Z) (h : gmap string (list string)) (b : string) : res string http_response := Ok {| status := code; resp_header := h; body := b; cut := false |}.
Definition result_text (r : Request) (raw : string) : string :=
  "{" +:+ q "jsonrpc" +:+ ":" +:+ q "2.0" +:+ "," +:+ q "id" +:+ ":" +:+ itoa (default 0 (r_ID r)) +:+ "," +:+ q "result" +:+ ":" +:+ raw +:+ "}".
(** It knows no discovery, opens the session [id t] at time [t], and the session s1 has expired. *)
Definition sessions_server (id : nat -> string) (t : nat) (req : http_request) : res string http_response :=
  let meth := Method (message req) in
  if String.eqb meth "server/discover" then answering 404 ∅ ""
  else if String.eqb meth "initialize" then answering 200 {["Mcp-Session-Id" := [id t]]} (result_text (message req) ("{" +:+ q "protocolVersion" +:+ ":" +:+ q "2025-06-18" +:+ "}"))
  else if String.eqb meth "notifications/initialized" then answering 202 ∅ ""
  else if String.eqb (get_header (header req) "Mcp-Session-Id") "s1" then answering 404 ∅ "" else answering 200 ∅ (result_text (message req) "{}").
Definition calm (id : nat -> string) : env :=
  {| others := fun _ c => c; skipped := fun _ => 0; net := sessions_server id; timer := fun _ => true; HttpClient.done := fun _ => false; now := fun _ => 0; listener_stopped := fun _ => false; closed := fun _ => false |}.
Definition plain_config : config := {| urlValid := true; headers := []; authProvider := None; authHeaderName := ""; disableRetryOnRateLimit := false; Version := "dev" |}.
Definition start : world := {| cn := newConnection; held := false; clock := 0; log := [] |}.
Definition sample_params : string := "{" +:+ q "name" +:+ ":" +:+ q "x" +:+ "}".
Definition sample_call (id : nat -> string) : world * res http_error string := Call plain_config (calm id) (fun _ => None) (fun _ m => map_to_list m) "tools/call" sample_params start.
Definition trace (l : list event) : list (string * string) :=
  omap (fun ev => match ev with Posted req _ => Some (Method (message req), get_header (header req) "Mcp-Session-Id") | NotifyToolsChanged => Some ("tools changed", "") | _ => None end) l.
(** An expired session is replaced, the tools are read again, and the call is made in the new session. *)
Example session_recovered : let out := sample_call (fun t => if Nat.ltb t 14 then "s1" else "s2") in
  trace (log (fst out)) =
    [("server/discover", ""); ("initialize", ""); ("notifications/initialized", "s1"); ("tools/call", "s1"); ("initialize", ""); ("notifications/initialized", "s2"); ("tools changed", ""); ("tools/call", "s2")] /\ snd out = Ok "{}".
Proof. split; vm_compute; reflexivity. Qed.
(** The name of the new session is not kept when it is long, and the expired one stays in use. *)
Example long_session_id : let out := sample_call (fun t => if Nat.ltb t 14 then "s1" else str_repeat "s" 300) in
  last (trace (log (fst out))) = Some ("tools/call", "s1") /\ snd out = Err (SessionExpiredError "s1").
Proof. split; vm_compute; reflexivity. Qed.
(** A number of seconds is a delay up to a minute; one past the range of a Duration wraps around. *)
Example retry_after_ex : map (fun h => parseRetryAfter (fun _ => None) h 0) ["7"; " 90 "; ""; "-1"; "soon"] = [7 * second; 60 * second; -1; -1; -1].
Proof. vm_compute. reflexivity. Qed.
Example retry_after_wraps : parseRetryAfter (fun _ => None) "9223372037" 0 < 0 /\ parseRetryAfter (fun _ => None) "18446744074" 0 < second.
Proof. vm_compute. split; reflexivity. Qed.

Lemma http_resends_refused_witness : let out := fst (sample_call (fun t => if Nat.ltb t 14 then "s1" else "s2")) in
  exists l, log out = l /\ (length (posts "tools/call" l) <= 12)%nat /\ resent (posts "tools/call" l).
Proof.
  assert (~ "tools/call" ∈ ["initialize"; "server/discover"; "notifications/initialized"; "tools/list"]) as Hm by (rewrite !elem_of_cons, elem_of_nil; intros [H|[H|[H|[H|[]]]]]; discriminate H).
  exact (http_resends_refused plain_config (calm (fun t => if Nat.ltb t 14 then "s1" else "s2")) (fun _ => None) (fun _ m => map_to_list m) "tools/call" sample_params start Hm).
Defined.
Lemma http_versions_agree_witness : let out := fst (sample_call (fun t => if Nat.ltb t 14 then "s1" else "s2")) in
  versions_ok (cn out) /\ exists l, log out = l /\ Forall (fun ev => match ev with Posted req _ => Method (message req) = "tools/call" -> version_agrees plain_config sample_params req | _ => True end) l.
Proof.
  assert (versions_ok newConnection) as H1 by (split; by left). assert (canonical (authHeaderName plain_config) <> canonical "MCP-Protocol-Version") as H2 by (vm_compute; discriminate).
  exact (http_versions_agree plain_config (calm (fun t => if Nat.ltb t 14 then "s1" else "s2")) (fun _ => None) (fun _ m => map_to_list m) sample_params start (fun _ _ H => H) H1 H2).
Defined.
