(* ===== verification/HttpListener.v ===== *)
(** * Listening to a server over HTTP (src/internal/transport/http_listener.go, subscriptions.go)

    A goroutine keeps a stream of notifications open: a GET of an older server, a
    subscriptions/listen request of a modern one, opened again after a wait when it ends.  The
    messages of a stream, which the reader of Sse.v delivers, come from the environment. *)
From S2P Require Import Prelude GoStr Float64 Config GoStd Content JsonText JsonToken Projection JsonObject JsonTree RequestMeta ResultDoc HttpHeaders ToolsList Rpc HttpReply HttpClient HttpClientProps.

Definition maxListenerBackoff : Z := 60 * second.
Record listenerState : Type := { modern : bool; backoff : Z; rejectedAuth : string }.
(** The messages of the body of a stream, and how reading it ends. *)
Record stream : Type := { messages : list string; cut_off : bool }.

Definition listenerDelay (code : Z) (err : option http_error) (backoff : Z) : Z * Z :=
  if (code =? 200) && negb (match err with Some x => match root x with ErrListenRejected _ => true | _ => false end | None => false end) then (second, second)
  else if match err with Some x => is_reauthorization x | None => false end then (maxListenerBackoff, maxListenerBackoff)
  else (backoff, Z.min (backoff * 2) maxListenerBackoff).

Section listener.
Variable cfg : config.
Variable e : env.
(** What a response's stream holds: its messages, or one JSON body. *)
Variable stream_of : http_response -> stream.

Definition ListenParams (old raw : string) : option bool := match struct_members raw with None => None | Some ms => typed_field (into_list_changed "toolsListChanged") false "notifications" ms end.
(** An error ends the stream. *)
Definition handleSubscriptionNotification (n : Notification) : act (option http_error) :=
  if negb (String.eqb (n_Method n) "notifications/subscriptions/acknowledged") then do! _ <- handleNotification n; ret None
  else match ListenParams "" (n_Params n) with
       | Some true => do! _ <- emit NotifyToolsChanged; ret None
       | _ => ret (Some ErrUnsupportedListenFilter)
       end.
Definition listenResponseOutcome (r : Response) : option http_error :=
  match Error r with
  | Some rpc => Some (ErrListenRejected rpc)
  | None => if String.eqb (Result r) "" then None else Some ErrListenComplete
  end.
(** An id that is not nil. *)
Definition decode_response (message : string) : option Response :=
  match struct_members message with
  | None => None
  | Some ms =>
      match string_field "jsonrpc" ms, typed_field unmarshal_any JNull "id" ms, typed_field (into_pointer into_error {| Code := 0; Message := ""; Data := "" |}) None "error" ms with
      | Some _, Some JNull, Some _ => None
      | Some _, Some id, Some err => Some {| ID := id; Result := raw_field "result" ms; Error := err |}
      | _, _, _ => None
      end
  end.
Definition response_outcome (message : string) : option http_error := match decode_response message with Some r => listenResponseOutcome r | None => None end.
Definition handleSubscriptionMessage (message : string) : act (option http_error) :=
  match decode_notification message with
  | Some n =>
      if negb (String.eqb (n_Method n) "") then handleSubscriptionNotification n
      else ret (response_outcome message)
  | None => ret (response_outcome message)
  end.
(** A stream of an older server holds notifications only. *)
Definition handleStreamMessage (message : string) : act (option http_error) :=
  match decode_notification message with
  | Some n => if negb (String.eqb (n_Method n) "") then do! _ <- handleNotification n; ret None else ret None
  | None => ret None
  end.
Fixpoint handle_messages (handle : string -> act (option http_error)) (l : list string) (cut : bool) : act (option http_error) :=
  match l with
  | [] => ret (if cut then Some ReadFailed else None)
  | m :: l => do! r <- handle m; match r with Some err => ret (Some err) | None => handle_messages handle l cut end
  end.
Definition listen_params (version : string) : res meta_error string :=
  prepareModernParams (Version cfg) (marshal_members true [("notifications", marshal_members true [("toolsListChanged", "true")])]) version.
Definition no_message : Request := {| r_ID := None; Method := ""; Params := "" |}.
Definition buildStreamRequest : act (res http_error (http_request * string)) :=
  if negb (urlValid cfg) then fail BadRequest
  else
    let! (h, sentAuth) <- setRequestHeaders cfg e;
    do! h <- attachSessionID e h;
    ok ({| get := true; header := set_header (delete (canonical "Content-Type") h) "Accept" "text/event-stream"; message := no_message |}, sentAuth).
(** The status, zero without an answer, and the error. *)
Definition consumeNotificationStream (s : listenerState) : act (Z * option http_error) :=
  do! build <- (if modern s then
                  do! _ <- sync e; do! c <- read;
                  let version := if isModern c then modernVersion c else discover_version in
                  match listen_params version with
                  | Err err => ret (Err (BadMeta err))
                  | Ok params => do! id <- next_id e; ret (Ok (buildModernHTTPRequest cfg e {| request := {| r_ID := Some id; Method := "subscriptions/listen"; Params := params |}; call_version := version |}))
                  end
                else ret (Ok buildStreamRequest));
  match build with
  | Err err => ret (0, Some err)
  | Ok build =>
      do! r <- sendOneWithAuthRetry cfg e build;
      match r with
      | Err err => ret (0, Some err)
      | Ok resp =>
          if negb (status resp =? 200) then ret (status resp, Some RequestFailed)
          else
            do! err <- handle_messages (fun m => if modern s then handleSubscriptionMessage m else handleStreamMessage m) (messages (stream_of resp)) (cut_off (stream_of resp));
            ret (status resp, err)
      end
  end.
Definition currentAuth : act string :=
  match authProvider cfg with None => ret "" | Some p => do! t <- tick; ret (match Authorization p t with Ok v => v | Err _ => "" end) end.
Definition rejectedAuthAfter (err : option http_error) : act string :=
  match err with Some x => if is_reauthorization x && isUnauthorized x then currentAuth else ret "" | None => ret "" end.
(** Whether to stop, and the state of the next cycle. *)
Definition runListenerCycle (s : listenerState) : act (bool * listenerState) :=
  do! _ <- sync e; do! c <- read;
  if modern s && negb (isModern c) then do! fired <- sleepCtx e second; ret (negb fired, s)
  else
    do! (code, err) <- consumeNotificationStream s;
    match err with
    | Some ErrUnsupportedListenFilter => ret (true, s)
    | _ =>
        let err := match err with Some ErrListenComplete => None | _ => err end in
        do! t <- tick;
        if (code =? 405) || HttpClient.done e t then ret (true, s)
        else
          do! rejected <- rejectedAuthAfter err;
          let '(delay, next) := listenerDelay code err (backoff s) in
          do! fired <- sleepCtx e delay;
          ret (negb fired, {| modern := modern s; backoff := next; rejectedAuth := rejected |})
    end.
(** [n] rounds of the loop: while the credential the server rejected is the current one, no request is made. *)
Fixpoint listen_rounds (n : nat) (s : listenerState) : act unit :=
  match n with
  | O => ret tt
  | S n =>
      do! t <- tick;
      if HttpClient.done e t then ret tt
      else
        do! auth <- (if String.eqb (rejectedAuth s) "" then ret None else do! v <- currentAuth; ret (Some v));
        if match auth with Some v => String.eqb v (rejectedAuth s) | None => false end then
          do! fired <- sleepCtx e maxListenerBackoff;
          if fired : bool then listen_rounds n s else ret tt
        else
          do! (stop, s) <- runListenerCycle s;
          if stop : bool then ret tt else listen_rounds n s
  end.
Definition listenForNotifications (n : nat) (modern : bool) : act unit := listen_rounds n {| modern := modern; backoff := second; rejectedAuth := "" |}.
End listener.

(** ** How often it asks *)
Definition is_post (ev : event) : bool := match ev with Posted _ _ => true | _ => false end.
Definition is_sleep (ev : event) : bool := match ev with Slept _ => true | _ => false end.
Definition tally (p : event -> bool) (l : list event) : nat := length (List.filter p l).
Lemma tally_app p l l' : tally p (l ++ l') = (tally p l + tally p l')%nat.
Proof. unfold tally. by rewrite List.filter_app, length_app. Qed.
Lemma tally_none p l : Forall (fun ev => p ev = false) l -> tally p l = 0%nat.
Proof. induction 1 as [|ev l H _ IH]; [done|]. unfold tally in *. cbn. by rewrite H. Qed.
Definition pace (ev : event) : Prop := match ev with Slept d => second <= d <= maxListenerBackoff | _ => True end.
Section paced.
Variable cfg : config.
Variable e : env.
Variable stream_of : http_response -> stream.
Notation anywhere := (fun _ : conn => True).
(** At most [posts] requests and exactly [sleeps] waits, each in the bounds. *)
Definition paced (posts sleeps : nat) (l : list event) : Prop := (tally is_post l <= posts)%nat /\ tally is_sleep l = sleeps /\ Forall pace l.
Lemma paced_app a b c d l l' : paced a b l -> paced c d l' -> paced (a + c) (b + d) (l ++ l').
Proof. intros (H1 & H2 & H3) (H4 & H5 & H6). unfold paced. rewrite !tally_app. split_and!; [lia|lia|by apply Forall_app]. Qed.
Lemma paced_nil a : paced a 0 [].
Proof. split_and!; [cbn; lia|done|constructor]. Qed.
Lemma paced_plain a l : Forall plain_event l -> paced a 0 l.
Proof.
  intros Hl. split_and!; [rewrite (tally_none is_post); [lia|]|rewrite (tally_none is_sleep); [done|]|]; (eapply Forall_impl; [exact Hl|]); by intros [].
Qed.
Lemma paced_sleep d : second <= d <= maxListenerBackoff -> paced 0 1 [Slept d].
Proof. intros Hd. split_and!; [done|done|]. apply Forall_singleton; exact Hd. Qed.
Definition quiet {A} (x : act A) : Prop := spec anywhere (fun l _ => Forall plain_event l) x.
Lemma quiet_bind {A B} (x : act A) (f : A -> act B) : quiet x -> (forall a, quiet (f a)) -> quiet (bind x f).
Proof. intros Hx Hf. by apply (all_simple anywhere plain_event). Qed.
Lemma quiet_ret {A} (a : A) : quiet (ret a).
Proof. apply (all_ret anywhere plain_event). Qed.
Lemma quiet_tick : quiet tick.
Proof. apply (all_tick anywhere plain_event). Qed.
Lemma quiet_notified n : quiet (handleNotification n).
Proof. unfold handleNotification. destruct (String.eqb _ _); by apply (all_emit anywhere plain_event). Qed.
Lemma quiet_message (newer : bool) m : quiet (if newer then handleSubscriptionMessage m else handleStreamMessage m).
Proof.
  assert (forall n, quiet (handleSubscriptionNotification n)) as H.
  { intros n. unfold handleSubscriptionNotification. destruct (negb _); [apply quiet_bind; [apply quiet_notified|]; intros; apply quiet_ret|]. destruct (ListenParams _ _) as [[]|]; try apply quiet_ret. apply quiet_bind; [by apply (all_emit anywhere plain_event)|]. intros. apply quiet_ret. }
  destruct newer.
  - unfold handleSubscriptionMessage. destruct (decode_notification m) as [n|]; [|apply quiet_ret]. destruct (negb _); [apply H|apply quiet_ret].
  - unfold handleStreamMessage. destruct (decode_notification m) as [n|]; [|apply quiet_ret]. destruct (negb _); [|apply quiet_ret]. apply quiet_bind; [apply quiet_notified|]. intros. apply quiet_ret.
Qed.
Lemma quiet_messages (newer : bool) l cut : quiet (handle_messages (fun m => if newer then handleSubscriptionMessage m else handleStreamMessage m) l cut).
Proof. induction l as [|m l IH]; [apply quiet_ret|]. cbn [handle_messages]. apply quiet_bind; [apply quiet_message|]. intros [err|]; [apply quiet_ret|exact IH]. Qed.

(** One send, or two when the credential was refreshed. *)
Lemma send_paced req : spec anywhere (fun l _ => paced 1 0 l) (send_http e req).
Proof.
  unfold send_http. eapply spec_bind; [by apply (spec_tick _ (fun l _ => l = []))|]. intros l t ->. eapply spec_bind; [by apply (spec_emit _ (fun l _ => l = [Posted req (net e t req)]))|]. intros l _ ->. apply spec_ret. split_and!; [done|done|by repeat constructor].
Qed.
Lemma sendOne_paced build : quiet build -> spec anywhere (fun l _ => paced 2 0 l) (sendOneWithAuthRetry cfg e build).
Proof.
  intros Hb. unfold sendOneWithAuthRetry, withAuthRetry. set (attempt := bind build _).
  assert (spec anywhere (fun l _ => paced 1 0 l) attempt) as Ha.
  { eapply spec_bind; [exact Hb|]. intros l r Hl. destruct r as [[req s]|err]; [|apply spec_ret; rewrite app_nil_r; by apply paced_plain].
    eapply spec_bind; [apply send_paced|]. intros l1 answer Hl1. destruct answer as [resp|msg]; [|apply spec_ret; rewrite app_nil_r; apply (paced_app 0 0 1 0); [by apply paced_plain|done]].
    eapply spec_bind; [by apply (observe_ok anywhere cfg plain_event plain_other)|]. intros l2 u Hl2. destruct (status resp =? 401); apply spec_ret; rewrite app_nil_r; (apply (paced_app 0 0 1 0); [by apply paced_plain|]; apply (paced_app 1 0 0 0); [done|by apply paced_plain]). }
  clearbody attempt. eapply spec_bind; [exact Ha|]. intros l [s r] Hl. assert (spec anywhere (fun l' (_ : res http_error http_response) => paced 2 0 (l ++ l')) (ret r)) as Hret by (apply spec_ret; apply (paced_app 1 0 1 0); [done|apply paced_nil]).
  destruct r as [resp|err]; [exact Hret|]. destruct (authProvider cfg) as [p|]; [|exact Hret]. destruct (negb _); [exact Hret|].
  eapply spec_bind; [by apply (spec_emit _ (fun l _ => l = [Refreshed s]))|]. intros l1 _ ->. eapply spec_bind; [by apply (spec_tick _ (fun l _ => l = []))|]. intros l2 t ->.
  assert (paced 0 0 [Refreshed s]) as Hs by by apply paced_plain; repeat constructor.
  destruct (RefreshAuthorization p t s); [|apply spec_ret; apply (paced_app 1 0 1 0); [done|]; by apply paced_plain; repeat constructor].
  eapply spec_bind; [exact Ha|]. intros l3 [s' r'] Hl3. assert (paced 2 0 (l ++ [Refreshed s] ++ [] ++ l3 ++ [])) as Hall by (rewrite app_nil_r; apply (paced_app 1 0 1 0); [done|]; by apply (paced_app 0 0 1 0)).
  destruct r'; by apply spec_ret.
Qed.
Lemma consume_paced s : spec anywhere (fun l _ => paced 2 0 l) (consumeNotificationStream cfg e stream_of s).
Proof.
  unfold consumeNotificationStream. eapply (spec_bind anywhere (fun l r => l = [] /\ match r with Ok build => quiet build | Err _ => True end)).
  - destruct (modern s).
    + eapply spec_bind; [by apply (spec_sync anywhere e (fun _ _ _ => Logic.I) (fun l _ => l = []))|]. intros l _ ->. eapply spec_bind; [by apply (spec_read _ (fun l _ => l = []))|]. intros l c ->. destruct (listen_params _ _); [|by apply spec_ret].
      eapply spec_bind; [by apply (next_id_spec _ e) with (P := fun l _ => l = [])|]. intros l id ->. apply spec_ret. split; [done|]. destruct (String.eqb (if isModern c then modernVersion c else discover_version) "") eqn:Ev.
      * exfalso. destruct (isModern c) eqn:Em; [|done]. unfold isModern in Em. by rewrite Ev in Em.
      * eapply spec_weaken; [by apply buildModern_spec|]. by intros l r [-> _].
    + apply spec_ret. split; [done|]. unfold buildStreamRequest. destruct (negb _); [apply quiet_ret|]. eapply spec_andthen; [by apply setRequestHeaders_spec| |by intros l err [-> _]]. intros l [h sentAuth] [-> _].
      eapply spec_bind; [by apply attachSessionID_spec|]. intros l h' [-> _]. by apply spec_ret.
  - intros l r [-> Hr]. destruct r as [build|err]; [|apply spec_ret, paced_nil]. eapply spec_bind; [by apply sendOne_paced|]. intros l r' Hl. destruct r' as [resp|err]; [|apply spec_ret; by rewrite app_nil_r]. destruct (negb _); [apply spec_ret; by rewrite app_nil_r|].
    eapply spec_bind; [apply (quiet_messages (modern s))|]. intros l' err Hl'. apply spec_ret. rewrite app_nil_r. cbn [app]. apply (paced_app 2 0 0 0); [done|by apply paced_plain].
Qed.
Lemma currentAuth_quiet : quiet (currentAuth cfg).
Proof. unfold currentAuth. destruct (authProvider cfg) as [p|]; [|apply quiet_ret]. apply quiet_bind; [apply quiet_tick|]. intros t. apply quiet_ret. Qed.
Lemma listenerDelay_bounds code err b : second <= b <= maxListenerBackoff -> second <= fst (listenerDelay code err b) <= maxListenerBackoff /\ second <= snd (listenerDelay code err b) <= maxListenerBackoff.
Proof. unfold listenerDelay, maxListenerBackoff, second. intros Hb. repeat case_match; cbn [fst snd]; lia. Qed.
Lemma sleep_paced d : second <= d <= maxListenerBackoff -> spec anywhere (fun l _ => paced 0 1 l) (sleepCtx e d).
Proof.
  intros Hd. unfold sleepCtx. eapply spec_bind; [by apply (spec_emit _ (fun l _ => l = [Slept d]))|]. intros l _ ->. eapply spec_bind; [by apply (spec_tick _ (fun l _ => l = []))|]. intros l t ->. apply spec_ret. by apply paced_sleep.
Qed.
(** A cycle that is followed by another one ends with a wait. *)
Definition cycle_ok (l : list event) (x : bool * listenerState) : Prop := second <= backoff (snd x) <= maxListenerBackoff /\ exists n, paced 2 n l /\ (n <= 1)%nat /\ (fst x = false -> n = 1%nat).
Lemma cycle_paced s : second <= backoff s <= maxListenerBackoff -> spec anywhere cycle_ok (runListenerCycle cfg e stream_of s).
Proof.
  intros Hb. unfold runListenerCycle. eapply spec_bind; [by apply (spec_sync anywhere e (fun _ _ _ => Logic.I) (fun l _ => l = []))|]. intros l _ ->. eapply spec_bind; [by apply (spec_read _ (fun l _ => l = []))|]. intros l c ->. destruct (_ && _).
  - eapply spec_bind; [apply (sleep_paced second); unfold maxListenerBackoff, second; lia|]. intros l fired Hl. apply spec_ret. split; [exact Hb|]. exists 1%nat. split_and!; [|done|done]. rewrite app_nil_r. apply (paced_app 2 0 0 1); [apply paced_nil|done].
  - eapply spec_bind; [apply consume_paced|]. intros l [code err] Hl. assert (spec anywhere (fun l' x => cycle_ok (l ++ l') x) (ret (true, s))) as Hstop by (apply spec_ret; rewrite app_nil_r; split; [exact Hb|]; exists 0%nat; split_and!; [exact Hl|lia|done]).
    assert (forall err', spec anywhere (fun l' x => cycle_ok (l ++ l') x)
      (do! t <- tick; if (code =? 405) || HttpClient.done e t then ret (true, s) else do! rejected <- rejectedAuthAfter cfg err'; let '(delay, next) := listenerDelay code err' (backoff s) in do! fired <- sleepCtx e delay; ret (negb fired, {| modern := modern s; backoff := next; rejectedAuth := rejected |}))) as Hgo.
    { intros err'. eapply spec_bind; [by apply (spec_tick _ (fun l _ => l = []))|]. intros l1 t ->. cbn [app]. destruct (_ || _); [exact Hstop|]. destruct (listenerDelay_bounds code err' (backoff s) Hb) as [Hd Hn]. destruct (listenerDelay code err' (backoff s)) as [d next]. cbn [fst snd] in *.
      eapply (spec_bind anywhere (fun l _ => Forall plain_event l)); [unfold rejectedAuthAfter; destruct err' as [x|]; [destruct (_ && _); [apply currentAuth_quiet|]|]; apply quiet_ret|]. intros l1 rejected Hl1.
      eapply spec_bind; [by apply sleep_paced|]. intros l2 fired Hl2. apply spec_ret. split; [exact Hn|]. exists 1%nat. split_and!; [|done|done]. rewrite app_nil_r. apply (paced_app 2 0 0 1); [done|]. apply (paced_app 0 0 0 1); [by apply paced_plain|done]. }
    destruct err as [[]|]; try exact Hstop; apply Hgo.
Qed.
End paced.

(** The goroutine that listens for notifications cannot flood a server: in any number of rounds it waits between one second and a minute at a time, and it makes at most two requests more than twice the number of its waits, whatever the server answers and however its streams end. *)
Theorem listener_paced cfg e stream_of n modern w :
  exists l, log (fst (listenForNotifications cfg e stream_of n modern w)) = log w ++ l /\ Forall pace l /\ (tally is_post l <= 2 * tally is_sleep l + 2)%nat.
Proof.
  assert (forall s, second <= backoff s <= maxListenerBackoff -> spec (fun _ => True) (fun l _ => exists k, paced (2 * k + 2) k l) (listen_rounds cfg e stream_of n s)) as H.
  - induction n as [|n IH]; intros s Hb; cbn [listen_rounds]; [apply spec_ret; exists 0%nat; apply paced_nil|].
    eapply spec_bind; [by apply (spec_tick _ (fun l _ => l = []))|]. intros l t ->. destruct (HttpClient.done e t); [apply spec_ret; exists 0%nat; apply paced_nil|].
    eapply (spec_bind _ (fun l _ => Forall plain_event l)); [destruct (String.eqb _ _); [apply quiet_ret|]; apply quiet_bind; [apply currentAuth_quiet|]; intros; apply quiet_ret|]. intros l auth Hl. destruct (match auth with Some v => _ | None => _ end).
    + eapply spec_bind; [apply (sleep_paced e maxListenerBackoff); unfold maxListenerBackoff, second; lia|]. intros l1 fired Hl1. assert (paced 0 1 (l ++ l1)) as H1 by (apply (paced_app 0 0 0 1); [by apply paced_plain|done]).
      destruct fired; [|apply spec_ret; rewrite app_nil_r; cbn [app]; exists 1%nat; destruct H1 as (? & ? & ?); split_and!; [lia|done|done]].
      eapply spec_weaken; [by apply IH|]. intros l2 u (k & Hk). exists (S k). cbn [app]. rewrite app_assoc. destruct (paced_app _ _ _ _ _ _ H1 Hk) as (? & ? & ?). split_and!; [lia|lia|done].
    + eapply spec_bind; [by apply cycle_paced|]. intros l1 [stop s'] (Hb' & k1 & H1 & Hk1 & Hstop). cbn [fst snd] in *. assert (paced 2 k1 (l ++ l1)) as H2 by (apply (paced_app 0 0 2 k1); [by apply paced_plain|done]).
      destruct stop; [apply spec_ret; rewrite app_nil_r; cbn [app]; exists k1; destruct H2 as (? & ? & ?); split_and!; [lia|done|done]|]. rewrite Hstop in H2 by done.
      eapply spec_weaken; [by apply IH|]. intros l2 u (k & Hk). exists (S k). cbn [app]. rewrite app_assoc. destruct (paced_app _ _ _ _ _ _ H2 Hk) as (? & ? & ?). split_and!; [lia|lia|done].
  - destruct (H {| modern := modern; backoff := second; rejectedAuth := "" |} ltac:(unfold maxListenerBackoff, second; cbn; lia) w Logic.I) as (_ & l & Hl & k & Hp & Hs & Hf). exists l. split_and!; [exact Hl|exact Hf|]. rewrite Hs. exact Hp.
Qed.
