(* ===== verification/Invoke.v ===== *)
(** * Results of tool calls (src/internal/invoke/invoke.go)

    What of an upstream's answer is the result of the call, and which answers are failures. *)
From S2P Require Import Prelude GoStr Utf8 Config GoStd Content JsonText JsonToken JsonTokenProps JsonObject JsonCompact JsonParts RequestMeta ResultDoc.

Record ContentItem : Type := { i_Type : string; i_Text : string }.
Record ToolCallResult : Type := { r_Content : list ContentItem; IsError : bool; r_Structured : string (* raw; no bytes: absent *) }.
Inductive invoke_error : Type := BadResultType (e : meta_error) | ErrInputRequired | NonStandard | ErrToolReturnedError (text : string).

(** An item is decoded into what its place held: a second list under the same name writes over the array of the first. *)
Definition into_item (old : ContentItem) (raw : string) : option ContentItem :=
  match struct_members raw with
  | None => None
  | Some ms =>
      match typed_field unmarshal_string (i_Type old) "type" ms, typed_field unmarshal_string (i_Text old) "text" ms with
      | Some t, Some x => Some {| i_Type := t; i_Text := x |}
      | _, _ => None
      end
  end.
Fixpoint decode_over {A} (dec : A -> string -> option A) (zero : A) (array : list A) (raws : list string) : option (list A) :=
  match raws with
  | [] => Some []
  | raw :: rest =>
      match dec (default zero (head array)) raw, decode_over dec zero (tail array) rest with Some x, Some l => Some (x :: l) | _, _ => None end
  end.
(** A slice with the elements its array still holds behind its length. *)
Definition into_slice {A} (dec : A -> string -> option A) (zero : A) (old : list A * list A) (raw : string) : option (list A * list A) :=
  match shape_of raw with
  | Some NullShape => Some ([], [])
  | _ =>
      match unmarshal_list Some raw with
      | None => None
      | Some [] => Some ([], [])
      | Some raws => let array := fst old ++ snd old in option_map (fun l => (l, drop (length l) array)) (decode_over dec zero array raws)
      end
  end.
Definition into_items : list ContentItem * list ContentItem -> string -> option (list ContentItem * list ContentItem) := into_slice into_item {| i_Type := ""; i_Text := "" |}.
Definition checkResultType (raw : string) : res invoke_error unit :=
  match ResultTypeOf raw with
  | Err e => Err (BadResultType e)
  | Ok ResultInputRequired => Err ErrInputRequired
  | Ok ResultComplete => Ok tt
  end.
Definition parseToolResult (raw : string) : res invoke_error ToolCallResult :=
  match struct_members raw with
  | None => Err NonStandard
  | Some ms =>
      match typed_field into_items ([], []) "content" ms, bool_field "isError" ms with
      | Some (items, _), Some failed => Ok {| r_Content := items; IsError := failed; r_Structured := raw_field "structuredContent" ms |}
      | _, _ => Err NonStandard
      end
  end.
Definition textBlocks (items : list ContentItem) : list string := map i_Text (List.filter (fun i => String.eqb (i_Type i) "text" && negb (String.eqb (i_Text i) "")) items).
Definition joinText (items : list ContentItem) : string := join (String (az 10) "") (textBlocks items).
Definition checkToolResult (r : ToolCallResult) : res invoke_error unit := if IsError r then Err (ErrToolReturnedError (joinText (r_Content r))) else Ok tt.
Definition CheckResult (raw : string) : res invoke_error unit :=
  let* _ := checkResultType raw in
  let* r := parseToolResult raw in
  checkToolResult r.
Definition extractSingleText (text : string) : string :=
  let text := TrimSpace text in if json_valid text then text else json_string true text.
Definition rawContentArray (raw : string) : res invoke_error string :=
  match struct_members raw with Some ms => Ok (raw_field "content" ms) | None => Err NonStandard end.
Definition ExtractContent (raw : string) : res invoke_error string :=
  let* _ := checkResultType raw in
  let* r := parseToolResult raw in
  let* _ := checkToolResult r in
  if negb (String.eqb (r_Structured r) "") then Ok (r_Structured r)
  else
    match r_Content r, textBlocks (r_Content r) with
    | [_], [text] => Ok (extractSingleText text)
    | [], _ => Ok "[]"
    | _, _ => rawContentArray raw
    end.

Example extract_ex :
  let text t := "{" +:+ q "content" +:+ ":[{" +:+ q "type" +:+ ":" +:+ q "text" +:+ "," +:+ q "text" +:+ ":" +:+ q t +:+ "}]}" in
  ExtractContent (text " [1] ") = Ok "[1]" /\ ExtractContent (text "hi <b>") = Ok (json_string true "hi <b>") /\ ExtractContent "{}" = Ok "[]" /\
  ExtractContent ("{" +:+ q "isError" +:+ ":true," +:+ q "content" +:+ ":[{" +:+ q "type" +:+ ":" +:+ q "text" +:+ "," +:+ q "text" +:+ ":" +:+ q "no" +:+ "}]}") = Err (ErrToolReturnedError "no").
Proof. vm_compute. tauto. Qed.
(** A second "content" keeps the type of the first one's item. *)
Example extract_twice :
  ExtractContent ("{" +:+ q "content" +:+ ":[{" +:+ q "type" +:+ ":" +:+ q "text" +:+ "}]," +:+ q "content" +:+ ":[{" +:+ q "text" +:+ ":" +:+ q "7" +:+ "}]}") = Ok "7".
Proof. vm_compute. reflexivity. Qed.

(** ** What is extracted is JSON *)
Lemma raw_field_valid field raw ms : struct_members raw = Some ms -> raw_field field ms <> "" -> json_valid (raw_field field ms) = true.
Proof.
  intros H%struct_members_parts Hne. destruct (raw_field_part 1 field ms H) as [?|Hp]; [done|]. apply part_valid. apply (part_shallower 1 0); [lia|exact Hp].
Qed.
Lemma written_part html d s : json_part d (json_string html s).
Proof.
  exists 1%nat. cbn [scan_value json_string skip_ws]. change (json_space dquote) with false. cbn [scan_scalar]. rewrite Ascii.eqb_refl.
  change (Ascii.eqb dquote "[") with false. change (Ascii.eqb dquote "{") with false. cbv iota. by rewrite scan_string_body.
Qed.
Lemma written_valid html s : json_valid (json_string html s) = true.
Proof. apply part_valid, written_part. Qed.
(** Without a member there is nothing to decode. *)
Lemma items_absent old : into_items old "" = None.
Proof. unfold into_items, into_slice. change (shape_of "") with (@None shape). reflexivity. Qed.
Lemma content_named ms items rest : typed_field into_items ([], []) "content" ms = Some (items, rest) -> items <> [] -> raw_field "content" ms <> "".
Proof.
  unfold typed_field, raw_field. assert (forall ms acc raw, match acc with Some l => fst l <> [] -> raw <> "" | None => True end ->
    foldl (fun acc m => match acc with Some a => if named "content" m then into_items a (snd m) else Some a | None => None end) acc ms = Some (items, rest) -> items <> [] -> foldl (fun acc m => if named "content" m then snd m else acc) raw ms <> "") as H; [|by apply H].
  clear ms. induction ms as [|m ms IH]; intros acc raw Hacc; cbn [foldl].
  - intros -> Hne. by apply Hacc.
  - apply IH. destruct acc as [a|]; [|done]. destruct (named "content" m); [|exact Hacc]. destruct (into_items a (snd m)) as [l|] eqn:E; [|done]. intros Hl He. by rewrite He, items_absent in E.
Qed.

(** Where what is passed on comes from. *)
Definition content_of (raw : string) (r : ToolCallResult) (out : string) : Prop :=
  out = r_Structured r \/
  r_Structured r = "" /\
    ((exists text, textBlocks (r_Content r) = [text] /\ (out = TrimSpace text \/ out = json_string true (TrimSpace text))) \/
     (r_Content r = [] /\ out = "[]") \/ exists ms, struct_members raw = Some ms /\ out = raw_field "content" ms).

