(* ===== verification/EnvExpand.v ===== *)
(** * References to the environment in a server's configuration (src/internal/config/env_expand.go)

    [${VAR}] is expanded once, in the headers, the environment and the secrets of a server, or
    nothing is and the field whose variables are not set is reported. *)
From S2P Require Import Prelude GoStr Float64 GoStd GoError.

(** ** References: the pattern [\$\{([^}]+)\}] *)

(** The name of the reference that begins here. *)
Definition ref_at (s : string) : option string :=
  if has_prefix s "${" then
    let t := str_drop 2 s in
    match index_byte t "}" with Some (S n) => Some (str_take (S n) t) | _ => None end
  else None.
Inductive piece : Type := Plain (c : ascii) | Ref (name : string).
(** The leftmost references, none overlapping another; [skip] bytes belong to the one before. *)
Fixpoint pieces_from (skip : nat) (s : string) : list piece :=
  match s with
  | "" => []
  | String c s' =>
      match skip with
      | S k => pieces_from k s'
      | O => match ref_at s with
             | Some name => Ref name :: pieces_from (2 + String.length name) s'
             | None => Plain c :: pieces_from 0 s'
             end
      end
  end.
Definition pieces (s : string) : list piece := pieces_from 0 s.
Definition names_of (l : list piece) : list string := omap (fun p => match p with Ref name => Some name | Plain _ => None end) l.
Definition ref_text (name : string) : string := "${" +:+ name +:+ "}".
(** [FindString]. *)
Definition first_ref (s : string) : string := match names_of (pieces s) with name :: _ => ref_text name | [] => "" end.

Section expand.
(** [os.LookupEnv]. *)
Variable LookupEnv : string -> option string.

Definition piece_value (p : piece) : string := match p with Plain c => String c "" | Ref name => default (ref_text name) (LookupEnv name) end.
(** The names that are not set, each once, in the order they are met. *)
Definition add_missing (missing : list string) (name : string) : list string :=
  match LookupEnv name with Some _ => missing | None => if existsb (String.eqb name) missing then missing else missing ++ [name] end.
Definition expandEnvValue (field value : string) : res unset_env string :=
  match foldl add_missing [] (names_of (pieces value)) with
  | [] => Ok (concat_str (map piece_value (pieces value)))
  | missing => Err {| Field := field; Names := missing |}
  end.

(** The fields of [ServerConfig] read or written here; no other is touched. *)
Record env_config : Type := { e_Name : string; e_URL : string; e_Command : string; e_Args : list string; e_Headers : gmap string string; e_Env : list string; e_Auth : option (string * string) (* the token and the client secret *); e_UnsetEnv : option (string * unset_env) (* the text before it *) }.

(** [order] is the order in which the map of the headers is walked. *)
Fixpoint expand_headers (order : list (string * string)) (headers : gmap string string) : res unset_env (gmap string string) :=
  match order with
  | [] => Ok headers
  | (name, value) :: order => let* value := expandEnvValue ("headers." +:+ name) value in expand_headers order (<[name := value]> headers)
  end.
Fixpoint expand_env (i : Z) (l : list string) : res unset_env (list string) :=
  match l with
  | [] => Ok []
  | value :: l => let* value := expandEnvValue ("env[" +:+ itoa i +:+ "]") value in let* l := expand_env (i + 1) l in Ok (value :: l)
  end.
Definition expand_auth (auth : option (string * string)) : res unset_env (option (string * string)) :=
  match auth with
  | None => Ok None
  | Some (token, secret) =>
      let* token := expandEnvValue "auth.token" token in
      let* secret := expandEnvValue "auth.client_secret" secret in
      Ok (Some (token, secret))
  end.
Definition expandEnvFields (order : list (string * string)) (sc : env_config) : res unset_env env_config :=
  let* headers := expand_headers order (e_Headers sc) in
  let* env := expand_env 0 (e_Env sc) in
  let* auth := expand_auth (e_Auth sc) in
  Ok {| e_Name := e_Name sc; e_URL := e_URL sc; e_Command := e_Command sc; e_Args := e_Args sc; e_Headers := headers; e_Env := env; e_Auth := auth; e_UnsetEnv := e_UnsetEnv sc |}.
(** The maps, the slices and the [AuthConfig] are copies: an error leaves them as they were. *)
Definition expandServerEnv (order : list (string * string)) (sc : env_config) : env_config :=
  match expandEnvFields order sc with
  | Ok expanded => expanded
  | Err e => {| e_Name := e_Name sc; e_URL := e_URL sc; e_Command := e_Command sc; e_Args := e_Args sc; e_Headers := e_Headers sc; e_Env := e_Env sc; e_Auth := e_Auth sc; e_UnsetEnv := Some ("server " +:+ e_Name sc +:+ ": ", e) |}
  end.
Definition UnsetEnvRefs (order : list (string * string)) (sc : env_config) : option unset_env := match expandEnvFields order sc with Ok _ => None | Err e => Some e end.
End expand.

(** The fields in which nothing is expanded, by their names. *)
Definition unexpanded_fields (sc : env_config) : list (string * string) :=
  [("url", e_URL sc); ("command", e_Command sc)] ++ imap (fun i arg => ("args[" +:+ itoa (Z.of_nat i) +:+ "]", arg)) (e_Args sc).
Definition checkUnexpandedFields (sc : env_config) : res string unit :=
  match List.find (fun f => negb (String.eqb (first_ref (snd f)) "")) (unexpanded_fields sc) with
  | Some (name, value) => Err ("server " +:+ e_Name sc +:+ ": " +:+ name +:+ ": " +:+ first_ref value +:+ " isn't expanded; ${VAR} is only expanded in headers, env, auth.token and auth.client_secret")
  | None => Ok tt
  end.

Definition sample_env (name : string) : option string := if String.eqb name "TOKEN" then Some "t${X}" else if String.eqb name "EMPTY" then Some "" else None.
Example expand_ex :
  expandEnvValue sample_env "f" "Bearer ${TOKEN}-${EMPTY}$ {TOKEN} ${} $TOKEN ${" = Ok "Bearer t${X}-$ {TOKEN} ${} $TOKEN ${" /\
  expandEnvValue sample_env "f" "${A}${TOKEN}${B}${A}" = Err {| Field := "f"; Names := ["A"; "B"] |} /\
  expandEnvValue sample_env "f" "${${TOKEN}" = Err {| Field := "f"; Names := ["${TOKEN"] |} /\
  first_ref "x$${A}}" = "${A}".
Proof. vm_compute. tauto. Qed.

(** ** What an expansion is *)
Definition ref_name (n : string) : Prop := n <> "" /\ byte_in "}" n = false.
Definition refers (s : string) : Prop := exists n t, s = "${" +:+ n +:+ "}" +:+ t /\ ref_name n.
Section meaning.
Variable value : string -> string.
(** From left to right, each reference is replaced where it begins; what is put in is not looked at again. *)
Inductive expands : string -> list string -> string -> Prop :=
| ex_end : expands "" [] ""
| ex_plain c s ns out : ~ refers (String c s) -> expands s ns out -> expands (String c s) ns (String c out)
| ex_ref n s ns out : ref_name n -> expands s ns out -> expands ("${" +:+ n +:+ "}" +:+ s) (n :: ns) (value n +:+ out).
End meaning.

Lemma ref_at_some s n : ref_at s = Some n -> exists t, s = "${" +:+ n +:+ "}" +:+ t /\ ref_name n.
Proof.
  unfold ref_at. destruct (has_prefix s "${") eqn:E; [|done]. apply has_prefix_spec in E as [t ->]. change (str_drop 2 ("${" +:+ t)) with t. cbv zeta. destruct (index_byte t "}") as [[|i]|] eqn:Ei; try done. intros H. apply (inj Some) in H. subst n.
  apply index_byte_split in Ei as (n & u & -> & Hb & Hl). rewrite Hl, str_take_app_length. exists u. split; [done|]. split; [|done]. by intros ->.
Qed.
Lemma ref_at_name n t : ref_name n -> ref_at ("${" +:+ n +:+ "}" +:+ t) = Some n.
Proof.
  intros [Hn Hb]. unfold ref_at. change (has_prefix ("${" +:+ n +:+ "}" +:+ t) "${") with true. cbv iota. change (str_drop 2 ("${" +:+ n +:+ "}" +:+ t)) with (n +:+ String "}" t).
  cbv zeta. rewrite index_byte_app by done. destruct n as [|c n]; [done|]. cbn [String.length]. change (S (String.length n)) with (String.length (String c n)). by rewrite str_take_app_length.
Qed.
Lemma ref_at_none s : ref_at s = None <-> ~ refers s.
Proof.
  split; [intros H (n & t & -> & Hn); by rewrite ref_at_name in H|]. intros H. destruct (ref_at s) as [n|] eqn:E; [|done]. exfalso. apply H. apply ref_at_some in E as (t & -> & Hn). by exists n, t.
Qed.
Lemma pieces_from_drop k s : pieces_from k s = pieces_from 0 (str_drop k s).
Proof. revert k. induction s as [|c s IH]; intros [|k]; try done. cbn [str_drop]. rewrite <- IH. done. Qed.
Lemma drop_braced n t : str_drop (S (String.length n)) (n +:+ String "}" t) = t.
Proof. induction n as [|c n IH]; [done|exact IH]. Qed.
Lemma pieces_ref n t : ref_name n -> pieces ("${" +:+ n +:+ "}" +:+ t) = Ref n :: pieces t.
Proof.
  intros Hn. pose proof (ref_at_name n t Hn) as Hr. unfold pieces. change ("${" +:+ n +:+ "}" +:+ t) with (String "$" (String "{" (n +:+ String "}" t))) in *. cbn [pieces_from]. rewrite Hr. f_equal.
  change (pieces_from (S (String.length n)) (n +:+ String "}" t) = pieces t). by rewrite pieces_from_drop, drop_braced.
Qed.
Section exact.
Variable LookupEnv : string -> option string.
Definition value_of (n : string) : string := default (ref_text n) (LookupEnv n).
Lemma pieces_expand s : expands value_of s (names_of (pieces s)) (concat_str (map (piece_value LookupEnv) (pieces s))).
Proof.
  remember (String.length s) as k eqn:Hk. revert s Hk. induction (lt_wf k) as [k _ IH]. intros s ->. destruct s as [|c s]; [constructor|]. destruct (ref_at (String c s)) as [n|] eqn:E.
  - apply ref_at_some in E as (t & E & Hn). rewrite E, pieces_ref by done. cbn [names_of omap list_omap map concat_str foldr piece_value]. apply ex_ref; [done|]. eapply IH; [|reflexivity]. rewrite E, !str_length_app. cbn. lia.
  - assert (pieces (String c s) = Plain c :: pieces s) as -> by (unfold pieces; cbn [pieces_from]; by rewrite E). cbn [names_of omap list_omap map concat_str foldr piece_value String.append]. apply ex_plain; [by apply ref_at_none|]. eapply IH; [|reflexivity]. cbn. lia.
Qed.

Lemma missing_spec names : forall acc, NoDup acc -> let l := foldl (add_missing LookupEnv) acc names in
  NoDup l /\ forall n, n ∈ l <-> n ∈ acc \/ (n ∈ names /\ LookupEnv n = None).
Proof.
  induction names as [|x names IH]; intros acc Ha; cbn [foldl].
  - split; [done|]. intros n. split; [by left|]. intros [?|[Hx _]]; [done|]. by apply elem_of_nil in Hx.
  - assert (NoDup (add_missing LookupEnv acc x) /\ forall n, n ∈ add_missing LookupEnv acc x <-> n ∈ acc \/ (n = x /\ LookupEnv n = None)) as [Hx Hin].
    { unfold add_missing. destruct (LookupEnv x) as [v|] eqn:E; [split; [done|]; intros n; split; [by left|]; intros [?|[-> ?]]; [done|congruence]|].
      destruct (existsb (String.eqb x) acc) eqn:Ex.
      - apply existsb_exists in Ex as (y & Hy%list_elem_of_In & ->%String.eqb_eq). split; [done|]. intros n. split; [by left|]. by intros [?|[-> _]].
      - assert (x ∉ acc) as Hx. { intros Hx. assert (existsb (String.eqb x) acc = true); [|congruence]. apply existsb_exists. exists x. split; [by apply list_elem_of_In|apply String.eqb_refl]. }
        split; [apply NoDup_app; split_and!; [done| |apply NoDup_singleton]; by intros y Hy ->%list_elem_of_singleton|]. intros n. rewrite elem_of_app, list_elem_of_singleton. split; [intros [?| ->]; tauto|tauto]. }
    destruct (IH _ Hx) as [H1 H2]. split; [done|]. intros n. rewrite H2, Hin, elem_of_cons. tauto.
Qed.

(** What becomes of a value, and what is reported of one that has variables not set. *)
Definition expanded (s out : string) : Prop := exists ns, expands value_of s ns out /\ Forall (fun n => is_Some (LookupEnv n)) ns.
Definition reported (s : string) (missing : list string) : Prop := exists ns out, expands value_of s ns out /\ missing <> [] /\ NoDup missing /\ forall n, n ∈ missing <-> n ∈ ns /\ LookupEnv n = None.
Lemma value_expanded field s : match expandEnvValue LookupEnv field s with Ok out => expanded s out | Err e => Field e = field /\ reported s (Names e) end.
Proof.
  unfold expandEnvValue. destruct (missing_spec (names_of (pieces s)) [] (NoDup_nil_2)) as [Hn Hm]. destruct (foldl _ _ _) as [|m l].
  - exists (names_of (pieces s)). split; [apply pieces_expand|]. apply Forall_forall. intros n Hin. destruct (LookupEnv n) eqn:E; [by eexists|]. exfalso. eapply elem_of_nil, Hm. right. done.
  - split; [done|]. exists (names_of (pieces s)), (concat_str (map (piece_value LookupEnv) (pieces s))). split; [apply pieces_expand|]. split; [done|]. split; [done|]. intros n. cbn [Names]. rewrite Hm. split; [intros [?%elem_of_nil|?]; done|by right].
Qed.
End exact.

Section server.
Variable LookupEnv : string -> option string.
Notation expanded := (expanded LookupEnv).
(** The fields that are expanded. *)
Definition field_of (sc : env_config) (field value : string) : Prop :=
  (exists name, e_Headers sc !! name = Some value /\ field = "headers." +:+ name) \/
  (exists i : nat, e_Env sc !! i = Some value /\ field = "env[" +:+ itoa (Z.of_nat i) +:+ "]") \/
  (exists token secret, e_Auth sc = Some (token, secret) /\ ((field = "auth.token" /\ value = token) \/ (field = "auth.client_secret" /\ value = secret))).

Lemma headers_expanded order : forall headers, NoDup order.*1 -> match expand_headers LookupEnv order headers with
  | Ok headers' => (forall name v, (name, v) ∈ order -> exists v', headers' !! name = Some v' /\ expanded v v') /\ (forall name, name ∉ order.*1 -> headers' !! name = headers !! name)
  | Err e => exists name v, (name, v) ∈ order /\ Field e = "headers." +:+ name /\ reported LookupEnv v (Names e)
  end.
Proof.
  induction order as [|[name v] order IH]; intros headers Hn; cbn [expand_headers]; [by split; [intros ? ? ?%elem_of_nil|]|]. rewrite fmap_cons, NoDup_cons in Hn. destruct Hn as [Hname Hn].
  pose proof (value_expanded LookupEnv ("headers." +:+ name) v) as Hv. destruct (expandEnvValue _ _ v) as [out|e]; cbn [rbind]; [|exists name, v; split; [by left|done]].
  specialize (IH (<[name := out]> headers) Hn). destruct (expand_headers _ _ _) as [h|e].
  - destruct IH as [H1 H2]. split.
    + intros n x [[= -> ->]|Hin]%elem_of_cons; [|by apply H1]. exists out. split; [|done]. rewrite H2 by done. apply lookup_insert_eq.
    + intros n Hno. rewrite fmap_cons, not_elem_of_cons in Hno. cbn [fst] in Hno. rewrite H2 by tauto. apply lookup_insert_ne. intros ->. tauto.
  - destruct IH as (n & x & Hin & H). exists n, x. split; [by right|done].
Qed.
Lemma env_list_expanded l : forall k : nat, match expand_env LookupEnv (Z.of_nat k) l with
  | Ok l' => Forall2 expanded l l'
  | Err e => exists (i : nat) v, l !! i = Some v /\ Field e = "env[" +:+ itoa (Z.of_nat (k + i)) +:+ "]" /\ reported LookupEnv v (Names e)
  end.
Proof.
  induction l as [|v l IH]; intros k; cbn [expand_env]; [constructor|]. pose proof (value_expanded LookupEnv ("env[" +:+ itoa (Z.of_nat k) +:+ "]") v) as Hv. destruct (expandEnvValue _ _ v) as [out|e]; cbn [rbind].
  - specialize (IH (S k)). replace (Z.of_nat k + 1) with (Z.of_nat (S k)) by lia. destruct (expand_env LookupEnv _ l) as [l'|e]; cbn [rbind]; [by constructor|]. destruct IH as (i & x & Hi & Hf & Hr). exists (S i), x. split; [done|]. by replace (k + S i)%nat with (S k + i)%nat by lia.
  - exists 0%nat, v. split; [done|]. by rewrite Nat.add_0_r.
Qed.
Lemma auth_expanded auth : match expand_auth LookupEnv auth with
  | Ok auth' => match auth, auth' with Some (t, s), Some (t', s') => expanded t t' /\ expanded s s' | None, None => True | _, _ => False end
  | Err e => exists t s, auth = Some (t, s) /\ ((Field e = "auth.token" /\ reported LookupEnv t (Names e)) \/ (Field e = "auth.client_secret" /\ reported LookupEnv s (Names e)))
  end.
Proof.
  destruct auth as [[t s]|]; [|done]. cbn [expand_auth]. pose proof (value_expanded LookupEnv "auth.token" t) as Ht. destruct (expandEnvValue _ _ t) as [t'|e]; cbn [rbind]; [|by exists t, s; split; [|left]].
  pose proof (value_expanded LookupEnv "auth.client_secret" s) as Hs. destruct (expandEnvValue _ _ s) as [s'|e]; cbn [rbind]; [done|]. by exists t, s; split; [|right].
Qed.

(** C36: the references of a server's headers, environment and secrets are all expanded, or none is. In the first case every variable they name is set, each value is its own text with every reference replaced, from left to right, by the variable's value, which is not looked at for further references, and no other field changes; in the second nothing changes but that one field is reported, with the variables it names that are not set, all of them and each once. *)
Theorem env_expanded order sc : Permutation order (map_to_list (e_Headers sc)) -> let sc' := expandServerEnv LookupEnv order sc in
  (e_Name sc' = e_Name sc /\ e_URL sc' = e_URL sc /\ e_Command sc' = e_Command sc /\ e_Args sc' = e_Args sc) /\
  ((e_UnsetEnv sc' = e_UnsetEnv sc /\ dom (e_Headers sc') = dom (e_Headers sc) /\
    (forall name v, e_Headers sc !! name = Some v -> exists v', e_Headers sc' !! name = Some v' /\ expanded v v') /\ Forall2 expanded (e_Env sc) (e_Env sc') /\
    match e_Auth sc, e_Auth sc' with Some (t, s), Some (t', s') => expanded t t' /\ expanded s s' | None, None => True | _, _ => False end) \/
   (e_Headers sc' = e_Headers sc /\ e_Env sc' = e_Env sc /\ e_Auth sc' = e_Auth sc /\
    exists field value missing, field_of sc field value /\ reported LookupEnv value missing /\ e_UnsetEnv sc' = Some ("server " +:+ e_Name sc +:+ ": ", {| Field := field; Names := missing |}))).
Proof.
  intros Hp sc'. assert (NoDup order.*1) as Hn by (rewrite Hp; apply NoDup_fst_map_to_list). assert (forall name v, (name, v) ∈ order <-> e_Headers sc !! name = Some v) as Hin by (intros; rewrite Hp; apply elem_of_map_to_list).
  unfold sc', expandServerEnv, expandEnvFields. clear sc'. pose proof (headers_expanded order (e_Headers sc) Hn) as Hh. pose proof (env_list_expanded (e_Env sc) 0) as He. pose proof (auth_expanded (e_Auth sc)) as Ha.
  destruct (expand_headers LookupEnv order (e_Headers sc)) as [h|e]; cbn [rbind].
  2: { split; [done|]. right. split_and!; [done..|]. destruct Hh as (name & v & Hv & Hf & Hr). exists (Field e), v, (Names e). split_and!; [left; exists name; split; [by apply Hin|done]|done|]. by destruct e. }
  change (Z.of_nat 0) with 0 in He. destruct (expand_env LookupEnv 0 (e_Env sc)) as [l|e]; cbn [rbind].
  2: { split; [done|]. right. split_and!; [done..|]. destruct He as (i & v & Hi & Hf & Hr). exists (Field e), v, (Names e). split_and!; [right; left; by exists i|done|]. by destruct e. }
  destruct (expand_auth LookupEnv (e_Auth sc)) as [a|e]; cbn [rbind].
  2: { split; [done|]. right. split_and!; [done..|]. destruct Ha as (t & s & Hs & [[Hf Hr]|[Hf Hr]]); [exists (Field e), t, (Names e)|exists (Field e), s, (Names e)]; (split_and!; [right; right; exists t, s; split; [done|]; auto|done|]; by destruct e). }
  split; [done|]. left. cbn [e_UnsetEnv e_Headers e_Env e_Auth]. destruct Hh as [H1 H2]. split_and!; [done| |intros name v Hv; apply H1; by apply Hin|done|done].
  apply set_eq. intros name. rewrite !elem_of_dom. destruct (decide (name ∈ order.*1)) as [Hi|Hi]; [|by rewrite H2].
  apply list_elem_of_fmap in Hi as ([n v] & -> & Hi). destruct (H1 n v Hi) as (v' & Hv' & _). apply Hin in Hi. cbn [fst]. rewrite Hv', Hi. by split; eexists.
Qed.
End server.

Lemma env_expanded_witness :
  let sc := {| e_Name := "gh"; e_URL := ""; e_Command := "x"; e_Args := []; e_Headers := {["H" := "Bearer ${TOKEN}"]}; e_Env := ["A=${A}${B}${A}"]; e_Auth := None; e_UnsetEnv := None |} in
  e_Headers (expandServerEnv sample_env [("H", "Bearer ${TOKEN}")] sc) = e_Headers sc /\ e_UnsetEnv (expandServerEnv sample_env [("H", "Bearer ${TOKEN}")] sc) = Some ("server gh: ", {| Field := "env[0]"; Names := ["A"; "B"] |}).
Proof.
  intros sc. destruct (env_expanded sample_env [("H", "Bearer ${TOKEN}")] sc) as [_ [(Hu & _)|(Hh & _)]]; [by (unfold sc; cbn [e_Headers]; rewrite map_to_list_singleton)|by vm_compute in Hu|]. split; [exact Hh|]. vm_compute. reflexivity.
Defined.
