(* ===== verification/Refresher.v ===== *)
(** * Refreshing the tool list of an upstream
      (src/internal/server/tool_list_refresher.go, and runToolRefreshes of upstream_refresh.go)

    Change notifications ask for a refresh, one worker goroutine at a time serves them,
    and callers wait on the channel the worker closes.  Every method runs under the
    refresher's mutex; the worker lists the tools between two of them. *)
From S2P Require Import Prelude Threads ToolsList.

(** Channels are addresses; [closed] holds those closed so far, [made] how many there are. *)
Record toolListRefresher : Type := {
  stopped : bool; running : bool; pending : bool; freshness : Freshness; done : option nat;
  closed : gset nat; made : nat
}.

Inductive panic : Type := CloseOfNilChannel | CloseOfClosedChannel.

Definition close_chan (r : toolListRefresher) (c : option nat) : res panic (gset nat) :=
  match c with
  | None => Err CloseOfNilChannel
  | Some c => if decide (c ∈ closed r) then Err CloseOfClosedChannel else Ok ({[c]} ∪ closed r)
  end.

Definition new_refresher : toolListRefresher :=
  {| stopped := false; running := false; pending := false; freshness := unmanaged; done := None; closed := ∅; made := 0 |}.

(** The boolean says whether a worker is started. *)
Definition startLocked (r : toolListRefresher) : toolListRefresher * bool :=
  if running r then (r, false)
  else ({| stopped := stopped r; running := true; pending := pending r; freshness := freshness r;
           done := Some (made r); closed := closed r; made := S (made r) |}, true).

Definition with_pending (r : toolListRefresher) (p : bool) (f : Freshness) : toolListRefresher :=
  {| stopped := stopped r; running := running r; pending := p; freshness := f; done := done r; closed := closed r; made := made r |}.

Definition request (r : toolListRefresher) : toolListRefresher * bool :=
  if stopped r then (r, false) else startLocked (with_pending r true (Expire (freshness r))).

(** [None] is the channel [noRefreshToAwait], closed from the start. *)
Definition refreshIfStale (r : toolListRefresher) (now : Z) : toolListRefresher * bool * option nat :=
  if stopped r then (r, false, None)
  else if running r then (r, false, done r)
  else if negb (Stale (freshness r) now) then (r, false, None)
  else let '(r, start) := startLocked (with_pending r true (freshness r)) in (r, start, done r).

Definition published (r : toolListRefresher) (f : Freshness) : toolListRefresher :=
  if pending r then r else with_pending r (pending r) f.

Definition next (r : toolListRefresher) : res panic (toolListRefresher * bool) :=
  if negb (pending r) || stopped r then
    let* cl := close_chan r (done r) in
    Ok ({| stopped := stopped r; running := false; pending := pending r; freshness := freshness r; done := done r; closed := cl; made := made r |}, false)
  else Ok (with_pending r false (freshness r), true).

Definition stop (r : toolListRefresher) : toolListRefresher :=
  {| stopped := true; running := running r; pending := pending r; freshness := freshness r; done := done r; closed := closed r; made := made r |}.

(** ** The worker and its surroundings *)

(** A worker of [runToolRefreshes]: about to call [next], or listing the tools in a pass.
    [k] is how many requests had been accepted when the pass began. *)
Inductive worker : Type := AtNext | InPass (k : nat).

(** [requests] counts the requests accepted, [covered] those accepted before the latest pass
    began; [listed] is the count of the pass that fetched the list in force, [None] when it
    came with a reconnect. *)
Record world : Type := { r : toolListRefresher; workers : list worker; requests : nat; covered : nat; listed : option nat }.

Definition initial : world := {| r := new_refresher; workers := []; requests := 0; covered := 0; listed := None |}.

Definition spawn (start : bool) (ws : list worker) : list worker := if start then AtNext :: ws else ws.

Inductive event : Type :=
| Request | RefreshIfStale (now : Z) | Next | PassPublished (f : Freshness) | PassFailed | OtherPublished (f : Freshness) | Stop.

Definition of_worker (e : event) : bool := match e with Next | PassPublished _ | PassFailed => true | _ => false end.
Definition stops (e : event) : bool := match e with Stop => true | _ => false end.

Inductive step : event -> world -> world -> Prop :=
| SRequest w r' start : request (r w) = (r', start) ->
    step Request w {| r := r'; workers := spawn start (workers w);
                      requests := if stopped (r w) then requests w else S (requests w); covered := covered w; listed := listed w |}
| SRefresh w now r' start c : refreshIfStale (r w) now = (r', start, c) ->
    step (RefreshIfStale now) w
      {| r := r'; workers := spawn start (workers w); requests := requests w; covered := covered w; listed := listed w |}
| SPass w a b r' : workers w = a ++ AtNext :: b -> next (r w) = Ok (r', true) ->
    step Next w {| r := r'; workers := a ++ InPass (requests w) :: b; requests := requests w; covered := requests w; listed := listed w |}
| SEnd w a b r' : workers w = a ++ AtNext :: b -> next (r w) = Ok (r', false) ->
    step Next w {| r := r'; workers := a ++ b; requests := requests w; covered := covered w; listed := listed w |}
| SPublish w a b k f : workers w = a ++ InPass k :: b ->
    step (PassPublished f) w
      {| r := published (r w) f; workers := a ++ AtNext :: b; requests := requests w; covered := covered w; listed := Some k |}
| SFail w a b k : workers w = a ++ InPass k :: b ->
    step PassFailed w {| r := r w; workers := a ++ AtNext :: b; requests := requests w; covered := covered w; listed := listed w |}
| SOther w f :
    step (OtherPublished f) w
      {| r := published (r w) f; workers := workers w; requests := requests w; covered := covered w;
         listed := if pending (r w) then listed w else None |}
| SStop w :
    step Stop w {| r := stop (r w); workers := workers w; requests := requests w; covered := covered w; listed := listed w |}.

Inductive runs : list event -> world -> world -> Prop :=
| runs_nil w : runs [] w w
| runs_cons e es w w' w'' : step e w w' -> runs es w' w'' -> runs (e :: es) w w''.

(** ** Invariant *)
Definition never_fresh (f : Freshness) : Prop := forall now, 0 <= now -> fresh_at now f = false.

Record inv (w : world) : Prop := {
  i_worker : if running (r w)
             then exists k d, workers w = [k] /\ done (r w) = Some d /\ (d < made (r w))%nat /\ d ∉ closed (r w)
             else workers w = [];
  i_closed : forall c, c ∈ closed (r w) -> (c < made (r w))%nat;
  i_pending : pending (r w) = true -> running (r w) = true \/ stopped (r w) = true;
  i_covered : (covered w <= requests w)%nat /\ (pending (r w) = false -> covered w = requests w);
  i_pass : forall k, InPass k ∈ workers w -> k = covered w /\ (pending (r w) = true -> never_fresh (freshness (r w)));
  i_fresh : forall k now, listed w = Some k -> 0 <= now -> fresh_at now (freshness (r w)) = true -> k = requests w
}.

Lemma refresher_initial_inv : inv initial.
Proof. split; cbn; try done; set_solver. Qed.

Lemma Expire_never f : never_fresh (Expire f).
Proof. intros now. apply Expire_not_fresh. Qed.

(** The worker of a reachable state is the only one. *)
Lemma the_worker w a k b : inv w -> workers w = a ++ k :: b -> a = [] /\ b = [] /\ running (r w) = true /\
  exists d, done (r w) = Some d /\ (d < made (r w))%nat /\ d ∉ closed (r w).
Proof.
  intros [Hw _ _ _ _ _] E. rewrite E in Hw. destruct (running (r w)); [|by destruct a].
  destruct Hw as (k' & d & H & Hd). destruct a as [|x a]; [|by destruct a]. injection H as <- ->. eauto 10.
Qed.

(** A worker starts exactly when none runs. *)
Lemma start_inv w f p : inv w -> (p = true \/ p = pending (r w)) -> stopped (r w) = false ->
  let '(r', start) := startLocked (with_pending (r w) p f) in
  (if running r' then exists k d, spawn start (workers w) = [k] /\ done r' = Some d /\ (d < made r')%nat /\ d ∉ closed r' else False) /\
  (forall c, c ∈ closed r' -> (c < made r')%nat) /\
  pending r' = p /\ freshness r' = f /\ stopped r' = false /\
  (forall k, InPass k ∈ spawn start (workers w) -> InPass k ∈ workers w) /\ closed r' = closed (r w).
Proof.
  intros [Hw Hc _ _ _ _] Hp Hs. unfold startLocked. cbn [with_pending running].
  destruct (running (r w)) eqn:Er; cbn.
  - rewrite Er. split; [done|]. by split_and!.
  - rewrite Hw. split_and!; try done.
    + exists AtNext, (made (r w)). split_and!; [done|done|lia|]. intros Hin%Hc. lia.
    + intros c Hin%Hc. lia.
    + intros k Hin. apply list_elem_of_singleton in Hin. done.
Qed.

Lemma running_dec b (P Q : Prop) : (if b : bool then P else False) -> (if b then P else Q) /\ b = true.
Proof. by destruct b. Qed.

Lemma request_inv w r' start : inv w -> request (r w) = (r', start) ->
  inv {| r := r'; workers := spawn start (workers w); requests := if stopped (r w) then requests w else S (requests w);
         covered := covered w; listed := listed w |}.
Proof.
  intros Hi E. unfold request in E. destruct (stopped (r w)) eqn:Es.
  { injection E as <- <-. by destruct w. }
  pose proof (start_inv w (Expire (freshness (r w))) true Hi (or_introl eq_refl) Es) as H. rewrite E in H.
  destruct H as (H1 & H2 & H3 & H4 & H5 & H6 & H7). apply (running_dec _ _ (spawn start (workers w) = [])) in H1 as [H1 Hr].
  destruct Hi as [_ _ _ [Hcov _] Hp _]. split; cbn.
  - done.
  - done.
  - by left.
  - split; [lia|congruence].
  - intros k Hk. apply H6, Hp in Hk as [-> _]. split; [done|]. rewrite H4. intros _. apply Expire_never.
  - intros k now _ Hn Hf. by rewrite H4, Expire_not_fresh in Hf.
Qed.

Lemma refresh_inv w now r' start c : inv w -> refreshIfStale (r w) now = (r', start, c) ->
  inv {| r := r'; workers := spawn start (workers w); requests := requests w; covered := covered w; listed := listed w |}.
Proof.
  intros Hi E. unfold refreshIfStale in E. destruct (stopped (r w)) eqn:Es; [injection E as <- <- <-; by destruct w|].
  destruct (running (r w)) eqn:Er; [injection E as <- <- <-; by destruct w|].
  destruct (Stale (freshness (r w)) now) eqn:Est; cbn [negb] in E; [|injection E as <- <- <-; by destruct w].
  pose proof (start_inv w (freshness (r w)) true Hi (or_introl eq_refl) Es) as H.
  destruct (startLocked _) as [r'' start'] eqn:E'. injection E as <- <- <-.
  destruct H as (H1 & H2 & H3 & H4 & H5 & H6 & H7). apply (running_dec _ _ (spawn start' (workers w) = [])) in H1 as [H1 Hr].
  destruct Hi as [Hw _ _ [Hcov _] Hp Hf]. rewrite Er in Hw. split; cbn.
  - done.
  - done.
  - by left.
  - split; [done|congruence].
  - intros k Hk. apply H6 in Hk. rewrite Hw in Hk. by apply elem_of_nil in Hk.
  - rewrite H4. done.
Qed.

Lemma refresher_publish_inv w f ws l :
  inv w -> List.length ws = List.length (workers w) -> (forall k, InPass k ∈ ws -> InPass k ∈ workers w) ->
  (forall k, l = Some k -> k = requests w \/ pending (r w) = true /\ (listed w = Some k \/ never_fresh (freshness (r w)))) ->
  inv {| r := published (r w) f; workers := ws; requests := requests w; covered := covered w; listed := l |}.
Proof.
  intros [Hw Hc Hp Hcov Hpass Hf] Hlen Hin Hl. unfold published. destruct (pending (r w)) eqn:Ep; split; cbn; rewrite ?Ep; try done.
  - destruct (running (r w)); [|rewrite Hw in Hlen; by apply nil_length_inv].
    destruct Hw as (k & d & Hk & Hd). rewrite Hk in Hlen. destruct ws as [|k' [|]]; try done. by exists k', d.
  - intros k Hk. by apply Hin, Hpass in Hk.
  - intros k now E Hn Hfr. destruct (Hl k E) as [?|[_ [?|Hnf]]]; [done|by eapply Hf|by rewrite Hnf in Hfr].
  - destruct (running (r w)); [|rewrite Hw in Hlen; by apply nil_length_inv].
    destruct Hw as (k & d & Hk & Hd). rewrite Hk in Hlen. destruct ws as [|k' [|]]; try done. by exists k', d.
  - intros k Hk. apply Hin, Hpass in Hk as [-> _]. done.
  - intros k now E Hn Hfr. destruct (Hl k E) as [?|[? _]]; [done|]. done.
Qed.

Lemma next_inv_pass w a b r' : inv w -> workers w = a ++ AtNext :: b -> next (r w) = Ok (r', true) ->
  inv {| r := r'; workers := a ++ InPass (requests w) :: b; requests := requests w; covered := requests w; listed := listed w |}.
Proof.
  intros Hi Ew E. destruct (the_worker w _ _ _ Hi Ew) as (-> & -> & Er & d & Hd). destruct Hi as [_ Hc _ _ _ Hf].
  unfold next in E. destruct (negb (pending (r w)) || stopped (r w)) eqn:En.
  { apply rbind_Ok in E as (? & _ & [=]). }
  injection E as <-. split; cbn; rewrite ?Er; try done.
  - eauto.
  - intros k Hk. apply list_elem_of_singleton in Hk. injection Hk as ->. done.
Qed.

Lemma next_inv_end w a b r' : inv w -> workers w = a ++ AtNext :: b -> next (r w) = Ok (r', false) ->
  inv {| r := r'; workers := a ++ b; requests := requests w; covered := covered w; listed := listed w |} /\
  (forall c, c ∈ closed r' -> c ∈ closed (r w) \/ covered w = requests w \/ stopped r' = true).
Proof.
  intros Hi Ew E. destruct (the_worker w _ _ _ Hi Ew) as (-> & -> & Er & d & Hd & Hlt & Hncl). destruct Hi as [_ Hc Hp Hcov _ Hf].
  unfold next in E. destruct (negb (pending (r w)) || stopped (r w)) eqn:En; [|done].
  apply rbind_Ok in E as (cl & Ecl & [= <-]). unfold close_chan in Ecl. rewrite Hd in Ecl.
  destruct (decide (d ∈ closed (r w))); [done|]. injection Ecl as <-. apply orb_true_iff in En. rewrite negb_true_iff in En.
  split; [split; cbn|]; try done.
  - intros c Hin. apply elem_of_union in Hin as [->%elem_of_singleton|Hin]; auto.
  - intros Hpen. right. destruct En as [?|?]; [congruence|done].
  - intros k Hk. by apply elem_of_nil in Hk.
  - cbn. intros c _. destruct En as [En|En]; [right; left; by apply Hcov|right; by right].
Qed.

Lemma refresher_step_inv e w w' : step e w w' -> inv w -> inv w'.
Proof.
  intros Hs Hi. destruct Hs as [w r' start E|w now r' start c E|w a b r' Ew E|w a b r' Ew E|w a b k f Ew|w a b k Ew|w f|w].
  - by apply request_inv.
  - by eapply refresh_inv.
  - by apply next_inv_pass.
  - by eapply next_inv_end.
  - destruct (the_worker w _ _ _ Hi Ew) as (-> & -> & _). apply refresher_publish_inv; [done|by rewrite Ew|intros k' Hk; by apply list_elem_of_singleton in Hk|].
    intros k' [= <-]. destruct Hi as [_ _ _ [_ Hcov] Hpass _]. destruct (Hpass k) as [-> Hn]; [rewrite Ew; by left|].
    destruct (pending (r w)); [right; auto|left; auto].
  - destruct (the_worker w _ _ _ Hi Ew) as (-> & -> & Er & d & Hd). destruct Hi as [_ Hc Hp Hcov Hpass Hf]. split; cbn; rewrite ?Er; try done.
    + eauto.
    + auto.
    + intros k' Hk. by apply list_elem_of_singleton in Hk.
  - apply refresher_publish_inv; [done|done|done|]. intros k E. destruct (pending (r w)); [right; auto|done].
  - destruct Hi as [Hw Hc Hp Hcov Hpass Hf]. split; cbn; try done. by right.
Qed.

Lemma runs_inv es w w' : runs es w w' -> inv w -> inv w'.
Proof. induction 1; [done|]. eauto using refresher_step_inv. Qed.

(** ** What holds of every interleaving *)

Definition reachable (w : world) : Prop := exists es, runs es initial w.

Lemma refresher_reachable_inv w : reachable w -> inv w.
Proof. intros [es H]. eapply runs_inv; [done|]. apply refresher_initial_inv. Qed.

Lemma runs_app es1 es2 w1 w2 w3 : runs es1 w1 w2 -> runs es2 w2 w3 -> runs (es1 ++ es2) w1 w3.
Proof. induction 1; [done|]. intros H'. econstructor; eauto. Qed.

(** C11: however notifications, discovery reads, workers, reconnects and the shutdown
    interleave: at most one worker runs, and one does whenever a refresh is pending and the
    refresher is not stopped; the worker's call of [next] never closes a channel twice or a
    nil one (Go would panic); and a list fetched by the worker that counts as fresh was asked
    for after the last change notification, so that a list overtaken by a notification is
    never served as fresh. *)
Theorem refresher_safe w : reachable w ->
  (List.length (workers w) <= 1)%nat /\
  (pending (r w) = true -> stopped (r w) = false -> List.length (workers w) = 1%nat) /\
  (AtNext ∈ workers w -> exists a, next (r w) = Ok a) /\
  (forall k now, listed w = Some k -> 0 <= now -> fresh_at now (freshness (r w)) = true -> k = requests w).
Proof.
  intros Hr%refresher_reachable_inv. pose proof Hr as [Hw _ Hp _ _ Hf]. split_and!.
  - destruct (running (r w)); [destruct Hw as (k & d & -> & _)|rewrite Hw]; simpl; lia.
  - intros Hpe Hst. destruct (Hp Hpe) as [Hrun|?]; [|congruence]. rewrite Hrun in Hw. by destruct Hw as (k & d & -> & _).
  - intros (a & b & Ew)%list_elem_of_split. destruct (the_worker w _ _ _ Hr Ew) as (_ & _ & _ & d & Hd & _ & Hn).
    unfold next, close_chan. rewrite Hd, decide_False by done. by destruct (_ || _); simpl; eauto.
  - done.
Qed.

Lemma refresher_safe_witness :
  let w := {| r := with_pending (fst (request new_refresher)) false unmanaged; workers := [InPass 1]; requests := 1; covered := 1; listed := None |} in
  reachable w /\ (List.length (workers w) <= 1)%nat.
Proof.
  intros w. assert (reachable w) as Hr; [|split; [done|apply (refresher_safe w Hr)]].
  exists [Request; Next]. eapply runs_cons; [apply (SRequest _ (fst (request new_refresher)) true); reflexivity|].
  eapply runs_cons; [apply (SPass _ [] []); reflexivity|]. apply runs_nil.
Defined.

(** What a step does to the counts. *)
Lemma step_counts e w w' : step e w w' -> inv w ->
  (requests w <= requests w')%nat /\ (covered w <= covered w')%nat /\ (stops e = false -> stopped (r w') = stopped (r w)).
Proof.
  intros Hs Hi. destruct Hs as [w r' start E|w now r' start c E|w a b r' Ew E|w a b r' Ew E|w a b k f Ew|w a b k Ew|w f|w]; cbn.
  - unfold request, startLocked, with_pending in E. destruct (stopped (r w)) eqn:Es; [by injection E as <- <-|].
    cbn in E. destruct (running (r w)); injection E as <- <-; cbn; rewrite ?Es; split_and!; try done; lia.
  - unfold refreshIfStale, startLocked, with_pending in E. destruct (stopped (r w)) eqn:Es; [by injection E as <- <- <-|].
    cbn in E. destruct (running (r w)); [by injection E as <- <- <-|]. destruct (Stale _ _); [|by injection E as <- <- <-].
    cbn in E. injection E as <- <- <-. cbn. by rewrite ?Es.
  - destruct Hi as [_ _ _ [Hc _] _ _]. unfold next in E. destruct (negb _ || _); [by apply rbind_Ok in E as (? & _ & [=])|]. by injection E as <-.
  - unfold next in E. destruct (negb _ || _); [|done]. by apply rbind_Ok in E as (? & _ & [= <-]).
  - unfold published. by destruct (pending (r w)).
  - done.
  - unfold published. by destruct (pending (r w)).
  - done.
Qed.

Lemma step_stopped e w w' : step e w w' -> inv w -> stopped (r w) = true -> stopped (r w') = true.
Proof.
  intros Hs Hi Hst. destruct (stops e) eqn:Ee; [|by rewrite (proj2 (proj2 (step_counts _ _ _ Hs Hi)) Ee)].
  by destruct Hs.
Qed.

Lemma runs_counts es w w' : runs es w w' -> inv w ->
  (requests w <= requests w')%nat /\ (covered w <= covered w')%nat /\ (stopped (r w') = false -> stopped (r w) = false).
Proof.
  induction 1 as [|e es w w1 w2 Hs Hr IH]; [done|]. intros Hi. destruct (step_counts _ _ _ Hs Hi) as (H1 & H2 & _).
  destruct IH as (H3 & H4 & H5); [by eapply refresher_step_inv|]. split_and!; [lia|lia|]. intros Hst%H5.
  destruct (stopped (r w)) eqn:E; [|done]. by rewrite (step_stopped _ _ _ Hs Hi E) in Hst.
Qed.

(** How many steps the worker needs before a pass that covers [n] requests has begun. *)
Definition owed (n : nat) (w : world) : nat :=
  if Nat.leb n (covered w) then 0
  else match workers w with [InPass _] => 2 | _ => 1 end.

Lemma owed_zero n w : owed n w = 0%nat -> (n <= covered w)%nat.
Proof. unfold owed. destruct (Nat.leb_spec n (covered w)); [done|]. by destruct (workers w) as [|[|] []]. Qed.
Lemma owed_covered n w : (n <= covered w)%nat -> owed n w = 0%nat.
Proof. intros H. unfold owed. by rewrite (proj2 (Nat.leb_le _ _)). Qed.

(** A step of another goroutine leaves a running worker where it is. *)
Lemma others_keep_worker e w w' k : step e w w' -> inv w -> of_worker e = false -> workers w = [k] -> workers w' = [k].
Proof.
  intros Hs Hi He Hk. destruct Hs as [w r' start E|w now r' start c E|w a b r' Ew E|w a b r' Ew E|w a b k' f Ew|w a b k' Ew|w f|w]; try done.
  - destruct (the_worker w [] k [] Hi Hk) as (_ & _ & Er & _). unfold request, startLocked in E. cbn in E. rewrite Er in E.
    destruct (stopped (r w)); injection E as <- <-; done.
  - destruct (the_worker w [] k [] Hi Hk) as (_ & _ & Er & _). unfold refreshIfStale in E. rewrite Er in E.
    destruct (stopped (r w)); injection E as <- <- <-; done.
Qed.

Lemma owed_step n e w w' : step e w w' -> inv w -> stopped (r w') = false -> (n <= requests w)%nat ->
  (owed n w' <= owed n w - if of_worker e then 1 else 0)%nat.
Proof.
  intros Hs Hi Hst Hn. assert (stopped (r w) = false) as Hst0.
  { destruct (stopped (r w)) eqn:E; [|done]. by rewrite (step_stopped _ _ _ Hs Hi E) in Hst. }
  destruct (decide (n <= covered w)%nat) as [Hle|Hlt].
  { destruct (step_counts _ _ _ Hs Hi) as (_ & Hc & _). rewrite (owed_covered n w') by lia. lia. }
  assert (pending (r w) = true) as Hp.
  { destruct (pending (r w)) eqn:E; [done|]. pose proof (i_covered w Hi) as [_ H]. specialize (H E). lia. }
  assert (exists k, workers w = [k]) as [k Hk].
  { pose proof (i_worker w Hi) as Hw. destruct (i_pending w Hi Hp) as [Hr|?]; [|congruence]. rewrite Hr in Hw. destruct Hw as (k & d & -> & _). by exists k. }
  destruct (of_worker e) eqn:Ee.
  - destruct Hs as [w r' start E|w now r' start c E|w a b r' Ew E|w a b r' Ew E|w a b k' f Ew|w a b k' Ew|w f|w]; try done.
    + rewrite owed_covered by done. lia.
    + exfalso. unfold next in E. rewrite Hp, Hst0 in E. discriminate E.
    + destruct (the_worker w _ _ _ Hi Ew) as (-> & -> & _). unfold owed. cbn. rewrite Ew, (proj2 (Nat.leb_gt n (covered w))) by lia. done.
    + destruct (the_worker w _ _ _ Hi Ew) as (-> & -> & _). unfold owed. cbn. rewrite Ew, (proj2 (Nat.leb_gt n (covered w))) by lia. done.
  - pose proof (others_keep_worker _ _ _ _ Hs Hi Ee Hk) as Hk'. unfold owed. rewrite Hk, Hk'.
    rewrite (proj2 (Nat.leb_gt n (covered w))) by lia. destruct (Nat.leb_spec n (covered w')); [|lia]. destruct k; lia.
Qed.

Lemma owed_runs n es w w' : runs es w w' -> inv w -> stopped (r w') = false -> (n <= requests w)%nat ->
  (owed n w' <= owed n w - List.length (filter (fun e => of_worker e = true) es))%nat.
Proof.
  induction 1 as [|e es w w1 w2 Hs Hr IH]; intros Hi Hst Hn; [cbn; lia|].
  pose proof (refresher_step_inv _ _ _ Hs Hi) as Hi1. destruct (runs_counts _ _ _ Hr Hi1) as (_ & _ & Hst1).
  destruct (step_counts _ _ _ Hs Hi) as (Hq & _). pose proof (owed_step n _ _ _ Hs Hi (Hst1 Hst) Hn) as H1.
  assert (n <= requests w1)%nat as Hn1 by lia. specialize (IH Hi1 Hst Hn1). rewrite filter_cons.
  destruct (of_worker e); simpl; lia.
Qed.

(** C12: a change notification is always followed by a listing of the tools: from any
    reachable state, however other events interleave, once the worker has taken two steps
    and unless the refresher was stopped, a pass has begun after every request accepted
    before. *)
Theorem request_served es w w' : reachable w -> runs es w w' -> stopped (r w') = false ->
  (2 <= List.length (filter (fun e => of_worker e = true) es))%nat ->
  (requests w <= covered w')%nat.
Proof.
  intros Hi%refresher_reachable_inv Hr Hst Hlen. apply owed_zero. pose proof (owed_runs (requests w) _ _ _ Hr Hi Hst (le_n _)) as H.
  assert (owed (requests w) w <= 2)%nat; [|lia]. unfold owed. destruct (Nat.leb _ _); [lia|]. destruct (workers w) as [|[|] []]; lia.
Qed.

(** A discovery read that waits for a refresh is released only when the list is current:
    when the channel [refreshIfStale] returned is closed and the refresher is not stopped, a
    pass has begun after every change notification accepted before the read. *)
Theorem waiter_released_current now c es w r' start w' : reachable w ->
  refreshIfStale (r w) now = (r', start, Some c) ->
  runs es {| r := r'; workers := spawn start (workers w); requests := requests w; covered := covered w; listed := listed w |} w' ->
  c ∈ closed (r w') -> stopped (r w') = false ->
  (requests w <= covered w')%nat.
Proof.
  intros Hi%refresher_reachable_inv E Hr. pose proof (refresh_inv _ _ _ _ _ Hi E) as Hi'.
  assert (c ∉ closed r' /\ requests w = requests {| r := r'; workers := spawn start (workers w); requests := requests w; covered := covered w; listed := listed w |}) as [Hc Hq].
  { split; [|done]. pose proof (i_worker w Hi) as Hw. pose proof (i_closed w Hi) as Hcl. unfold refreshIfStale in E.
    destruct (stopped (r w)); [done|]. destruct (running (r w)) eqn:Er.
    - injection E as <- <- E. destruct Hw as (? & d & _ & Hd & _ & Hn). congruence.
    - destruct (negb _); [done|]. unfold startLocked in E. cbn in E. rewrite Er in E. injection E as <- <- <-. cbn. intros Hin%Hcl. lia. }
  clear E. remember {| r := r' |} as w0 eqn:E0. assert (c ∉ closed (r w0)) as Hc0 by by rewrite E0. rewrite Hq. clear Hc E0 Hq r' start Hi w.
  induction Hr as [w|e es w w1 w2 Hs Hr IH]; [done|]. intros Hin Hst. pose proof (refresher_step_inv _ _ _ Hs Hi') as Hi1.
  destruct (step_counts _ _ _ Hs Hi') as (Hq & _ & _). destruct (decide (c ∈ closed (r w1))) as [Hc1|Hc1]; [|specialize (IH Hi1 Hc1 Hin Hst); lia].
  destruct (runs_counts _ _ _ Hr Hi1) as (_ & Hcov & Hst1). assert (covered w1 = requests w1) as Heq; [|lia].
  apply Hst1 in Hst. clear IH Hr Hin.
  destruct Hs as [w r' start E|w now' r' start c' E|w a b r' Ew E|w a b r' Ew E|w a b k' f Ew|w a b k' Ew|w f|w]; cbn in *; try done.
  - exfalso. apply Hc0. unfold request, startLocked in E. destruct (stopped (r w)); [by injection E as <- <-|].
    cbn in E. by destruct (running (r w)); injection E as <- <-.
  - exfalso. apply Hc0. unfold refreshIfStale, startLocked in E. destruct (stopped (r w)); [by injection E as <- <- <-|].
    cbn in E. destruct (running (r w)); [by injection E as <- <- <-|]. destruct (Stale _ _); by injection E as <- <- <-.
  - destruct (next_inv_end w a b r' Hi' Ew E) as [_ H]. destruct (H c Hc1) as [?|[?|?]]; [done|done|congruence].
  - exfalso. apply Hc0. unfold published in Hc1. by destruct (pending (r w)).
  - exfalso. apply Hc0. unfold published in Hc1. by destruct (pending (r w)).
Qed.

(** A request arrives while a pass runs. *)
Definition overtaken : world :=
  {| r := with_pending (fst (request new_refresher)) true unmanaged; workers := [InPass 1]; requests := 2; covered := 1; listed := None |}.

Lemma overtaken_reachable : reachable overtaken.
Proof.
  exists [Request; Next; Request].
  eapply runs_cons; [apply (SRequest _ (fst (request new_refresher)) true); reflexivity|].
  eapply runs_cons; [apply (SPass _ [] []); reflexivity|].
  eapply runs_cons; [eapply (SRequest _ _ false); reflexivity|]. apply runs_nil.
Qed.

Lemma request_served_witness :
  exists w', runs [PassPublished unmanaged; Next] overtaken w' /\ (requests overtaken <= covered w')%nat.
Proof.
  eexists. assert (runs [PassPublished unmanaged; Next] overtaken
    {| r := with_pending (r overtaken) false unmanaged; workers := [InPass 2]; requests := 2; covered := 2; listed := Some 1%nat |}) as Hr.
  { eapply runs_cons; [apply (SPublish _ [] []); reflexivity|]. eapply runs_cons; [apply (SPass _ [] []); reflexivity|]. apply runs_nil. }
  split; [exact Hr|]. apply (request_served _ _ _ overtaken_reachable Hr); [reflexivity|]. vm_compute. apply le_n.
Defined.

Lemma waiter_released_current_witness :
  exists w', runs [PassFailed; Next; PassFailed; Next] overtaken w' /\ (requests overtaken <= covered w')%nat.
Proof.
  assert (runs [PassFailed; Next; PassFailed; Next] overtaken
    {| r := {| stopped := false; running := false; pending := false; freshness := unmanaged; done := Some 0%nat; closed := {[0%nat]} ∪ ∅; made := 1 |};
       workers := []; requests := 2; covered := 2; listed := None |}) as Hr.
  { eapply runs_cons; [apply (SFail _ [] [] 1); reflexivity|]. eapply runs_cons; [apply (SPass _ [] []); reflexivity|].
    eapply runs_cons; [apply (SFail _ [] [] 2); reflexivity|]. eapply runs_cons; [apply (SEnd _ [] []); reflexivity|]. apply runs_nil. }
  eexists. split; [exact Hr|].
  refine (waiter_released_current 0 0 _ overtaken (r overtaken) false _ overtaken_reachable _ Hr _ _); [reflexivity|set_solver|reflexivity].
Defined.
