(* ===== verification/Reconnect.v ===== *)
(** * Reconnecting an upstream server (src/internal/server/upstream_reconnect.go)

    A failed call starts one loop that dials until a new connection is installed, the
    upstream asks for authorization again, or it is shut down.  Connections are numbers;
    [live] holds those that are open.  Every step runs under one mutex or is one atomic
    operation; the loop, the failing calls and the shutdown interleave between them. *)
From S2P Require Import Prelude Threads GoError Startup.

(** [nextBackoff], durations in nanoseconds. *)
Definition nextBackoff (d : Z) : Z := if d <? 64 * second then d * 2 else d.

Fixpoint backoff_after (n : nat) : Z := match n with O => second | S n => nextBackoff (backoff_after n) end.

Lemma backoff_bound n : second <= backoff_after n <= 64 * second /\ (exists k, 0 <= k <= 6 /\ backoff_after n = 2 ^ k * second).
Proof.
  induction n as [|n [IH (k & Hk & E)]]; cbn [backoff_after].
  - unfold second. split; [lia|]. exists 0. split; [lia|reflexivity].
  - unfold nextBackoff, second in *. destruct (Z.ltb_spec (backoff_after n) (64 * 1000000000)) as [Hlt|]; [|split; [lia|by exists k]].
    assert (2 ^ k < 2 ^ 6) as Hp by (change (2 ^ 6) with 64; lia). apply Z.pow_lt_mono_r_iff in Hp; [|lia|lia].
    assert (2 ^ (k + 1) = 2 * 2 ^ k) as E2 by (rewrite Z.pow_add_r; lia).
    assert (2 ^ (k + 1) <= 2 ^ 6) as Hle by (apply Z.pow_le_mono_r; lia). change (2 ^ 6) with 64 in Hle.
    split; [lia|]. exists (k + 1). split; lia.
Qed.

(** The loop of one goroutine; [n] attempts have failed so far and the delay is [d]. *)
Inductive loop : Type :=
| Sleeping (n : nat) (d : Z)
| Dialing (n : nat) (d : Z)
| Listing (n : nat) (d : Z) (c : nat)
| Swapping (n : nat) (d : Z) (c : nat)
| ClosingOld (n : nat) (d : Z) (old : nat)
| Returning.

(** A call that failed with a connection error, between the check of the context and the
    compare-and-swap of [reconnecting]; a shutdown between the cancellation and [Close]. *)
Inductive other : Type := FailedCall | ShuttingDown.

Record upstream : Type := {
  conn : nat; live : gset nat; made : nat;
  ctx_done : bool; reconnecting : bool; loops : list loop; others : list other; closed : bool
}.

Definition initial_upstream : upstream :=
  {| conn := 0; live := {[0%nat]}; made := 1; ctx_done := false; reconnecting := false; loops := []; others := []; closed := false |}.

Definition with_loops (u : upstream) (ls : list loop) : upstream :=
  {| conn := conn u; live := live u; made := made u; ctx_done := ctx_done u; reconnecting := reconnecting u; loops := ls; others := others u; closed := closed u |}.
Definition with_others (u : upstream) (os : list other) : upstream :=
  {| conn := conn u; live := live u; made := made u; ctx_done := ctx_done u; reconnecting := reconnecting u; loops := loops u; others := os; closed := closed u |}.
Definition close_conn (u : upstream) (c : nat) : upstream :=
  {| conn := conn u; live := live u ∖ {[c]}; made := made u; ctx_done := ctx_done u; reconnecting := reconnecting u; loops := loops u; others := others u; closed := closed u |}.

(** [maybeReconnect]: the error is looked at, then the context, then the flag. *)
Definition wants_reconnect (err : option go_error) : bool :=
  match err with None => false | Some e => isConnError e && negb (is_reauth e) end.

Definition reconnect_check (u : upstream) (err : option go_error) : upstream :=
  if wants_reconnect err && negb (ctx_done u) then with_others u (FailedCall :: others u) else u.

(** The compare-and-swap and [spawnReconnect]. *)
Definition reconnect_start (u : upstream) : upstream :=
  if reconnecting u then u
  else {| conn := conn u; live := live u; made := made u; ctx_done := ctx_done u; reconnecting := true;
          loops := Sleeping 0 second :: loops u; others := others u; closed := closed u |}.

(** [sleepBackoff] returns: the timer fired, or the context is done. *)
Definition wake (n : nat) (d : Z) (fired : bool) : loop := if fired then Dialing n d else Returning.

(** What follows an error of [tryReconnect]. *)
Definition after_error (n : nat) (d : Z) (err : go_error) : loop :=
  if is_reauth err then Returning else Sleeping (S n) (nextBackoff d).

(** [swapReconnectConn], under the upstream's mutex. *)
Definition swapReconnectConn (u : upstream) (n : nat) (d : Z) (c : nat) : upstream * loop :=
  if ctx_done u then (close_conn u c, Returning)
  else ({| conn := c; live := live u; made := made u; ctx_done := ctx_done u; reconnecting := reconnecting u; loops := loops u; others := others u; closed := closed u |},
        ClosingOld n d (conn u)).

Definition loop_returns (u : upstream) : upstream :=
  {| conn := conn u; live := live u; made := made u; ctx_done := ctx_done u; reconnecting := false; loops := loops u; others := others u; closed := closed u |}.

(** [shutdown], then [Close] of the connection read after it. *)
Definition shutdown (u : upstream) : upstream :=
  {| conn := conn u; live := live u; made := made u; ctx_done := true; reconnecting := reconnecting u; loops := loops u; others := ShuttingDown :: others u; closed := closed u |}.
Definition close_current (u : upstream) : upstream :=
  {| conn := conn u; live := live u ∖ {[conn u]}; made := made u; ctx_done := ctx_done u; reconnecting := reconnecting u; loops := loops u; others := others u; closed := true |}.

Inductive upstream_step : upstream -> upstream -> Prop :=
| UFailed u err : upstream_step u (reconnect_check u err)
| UStart u a b : others u = a ++ FailedCall :: b -> upstream_step u (reconnect_start (with_others u (a ++ b)))
| UWake u a b n d fired : loops u = a ++ Sleeping n d :: b -> (fired = false -> ctx_done u = true) ->
    upstream_step u (with_loops u (a ++ wake n d fired :: b))
| UDialFails u a b n d err : loops u = a ++ Dialing n d :: b -> upstream_step u (with_loops u (a ++ after_error n d err :: b))
| UDials u a b n d : loops u = a ++ Dialing n d :: b ->
    upstream_step u {| conn := conn u; live := {[made u]} ∪ live u; made := S (made u); ctx_done := ctx_done u; reconnecting := reconnecting u;
                       loops := a ++ Listing n d (made u) :: b; others := others u; closed := closed u |}
| UListFails u a b n d c err : loops u = a ++ Listing n d c :: b ->
    upstream_step u (close_conn (with_loops u (a ++ after_error n d err :: b)) c)
| ULists u a b n d c : loops u = a ++ Listing n d c :: b -> upstream_step u (with_loops u (a ++ Swapping n d c :: b))
| USwap u a b n d c u' l : loops u = a ++ Swapping n d c :: b -> swapReconnectConn u n d c = (u', l) ->
    upstream_step u (with_loops u' (a ++ l :: b))
| UCloseOld u a b n d old : loops u = a ++ ClosingOld n d old :: b ->
    upstream_step u (close_conn (with_loops u (a ++ Returning :: b)) old)
| UReturn u a b : loops u = a ++ Returning :: b -> upstream_step u (loop_returns (with_loops u (a ++ b)))
| UShutdown u : upstream_step u (shutdown u)
| UClose u a b : others u = a ++ ShuttingDown :: b -> upstream_step u (close_current (with_others u (a ++ b))).

(** ** Invariant *)
Definition owned (l : loop) : option nat :=
  match l with Listing _ _ c | Swapping _ _ c => Some c | ClosingOld _ _ old => Some old | _ => None end.
Definition delayed (l : loop) : Prop :=
  match l with
  | Sleeping n d | Dialing n d | Listing n d _ | Swapping n d _ | ClosingOld n d _ => d = backoff_after n
  | Returning => True
  end.

Record upstream_inv (u : upstream) : Prop := {
  u_one : if reconnecting u then exists l, loops u = [l] else loops u = [];
  u_made : (conn u < made u)%nat /\ (forall c, c ∈ live u -> (c < made u)%nat);
  u_live : forall c, c ∈ live u -> c = conn u /\ closed u = false \/ exists l, l ∈ loops u /\ owned l = Some c;
  u_fresh : forall l c, l ∈ loops u -> owned l = Some c -> c <> conn u /\ (c < made u)%nat;
  u_delay : forall l, l ∈ loops u -> delayed l;
  u_closed : closed u = true \/ ShuttingDown ∈ others u -> ctx_done u = true
}.

Lemma initial_upstream_inv : upstream_inv initial_upstream.
Proof. split; cbn; try done; set_solver by lia. Qed.

(** The loop of a reachable state is the only one. *)
Lemma the_loop u a l b : upstream_inv u -> loops u = a ++ l :: b -> a = [] /\ b = [] /\ reconnecting u = true.
Proof.
  intros [Hl _ _ _ _ _] E. destruct (reconnecting u).
  - destruct Hl as [l' E']. rewrite E' in E. destruct a as [|x a]; [|by destruct a]. by injection E as <- <-.
  - rewrite Hl in E. by destruct a.
Qed.

(** The loop moves from [l] to [l'], possibly closing connections it owned. *)
Lemma loop_moves u l l' live' :
  upstream_inv u -> loops u = [l] -> (delayed l -> delayed l') ->
  (forall c, c ∈ live' -> c ∈ live u) ->
  (forall c, owned l' = Some c -> owned l = Some c) ->
  (forall c, owned l = Some c -> owned l' = Some c \/ c ∉ live') ->
  upstream_inv {| conn := conn u; live := live'; made := made u; ctx_done := ctx_done u; reconnecting := reconnecting u; loops := [l']; others := others u; closed := closed u |}.
Proof.
  intros [Hl [Hm1 Hm2] Hlive Hf Hd Hc] E Hdel Hsub Hown Hgone. rewrite E in *. split; cbn.
  - destruct (reconnecting u); [by exists l'|done].
  - auto.
  - intros c Hin. destruct (Hlive c (Hsub c Hin)) as [?|(l0 & Hin0 & Ho)]; [by left|]. apply list_elem_of_singleton in Hin0 as ->.
    right. exists l'. split; [by left|]. destruct (Hgone c Ho); [done|done].
  - intros l0 c ->%list_elem_of_singleton Ho. apply (Hf l); [by left|by apply Hown].
  - intros l0 ->%list_elem_of_singleton. apply Hdel, Hd. by left.
  - done.
Qed.

(** Only the goroutines outside the loop, or flags, change. *)
Lemma others_move u os : (ShuttingDown ∈ os -> ShuttingDown ∈ others u) -> upstream_inv u -> upstream_inv (with_others u os).
Proof. intros Hos [? ? ? ? ? Hc]. split; cbn; try done. intros [?|?]; apply Hc; auto. Qed.

Lemma elem_of_removed {A} (x : A) a y b : x ∈ a ++ b -> x ∈ a ++ y :: b.
Proof. rewrite !elem_of_app, elem_of_cons. tauto. Qed.

Lemma start_upstream_inv u : upstream_inv u -> upstream_inv (reconnect_start u).
Proof.
  unfold reconnect_start. destruct (reconnecting u) eqn:Er; [done|]. intros [Hl Hm Hlive Hf Hd Hc]. rewrite Er in Hl.
  rewrite Hl in *. split; cbn; try done.
  - eauto.
  - intros c Hin. destruct (Hlive c Hin) as [?|(l & Hl' & _)]; [by left|]. by apply elem_of_nil in Hl'.
  - intros l c ->%list_elem_of_singleton. done.
  - intros l ->%list_elem_of_singleton. done.
Qed.

Lemma upstream_step_inv u u' : upstream_step u u' -> upstream_inv u -> upstream_inv u'.
Proof.
  intros Hs Hi. destruct Hs as [u err|u a b E|u a b n d fired E Hf|u a b n d err E|u a b n d E|u a b n d c err E|u a b n d c E|u a b n d c u' l E Es|u a b n d old E|u a b E|u|u a b E];
    try (destruct (the_loop u _ _ _ Hi E) as (-> & -> & Er)).
  - unfold reconnect_check. destruct (_ && _); [|done]. apply others_move; [|done]. by intros [?|?]%elem_of_cons.
  - apply start_upstream_inv, others_move; [|done]. rewrite E. apply elem_of_removed.
  - apply (loop_moves u (Sleeping n d)); try done; by destruct fired.
  - unfold after_error. apply (loop_moves u (Dialing n d)); try done; destruct (is_reauth err); [done|by intros ->|done|done].
  - destruct Hi as [Hl [Hm1 Hm2] Hlive Hf Hd Hc]. cbn in E. rewrite E in *. split; cbn.
    + rewrite Er. eauto.
    + split; [lia|]. intros c. rewrite elem_of_union, elem_of_singleton. intros [->|Hin%Hm2]; lia.
    + intros c. rewrite elem_of_union, elem_of_singleton. intros [->|Hin]; [right; eexists; split; [by left|done]|].
      destruct (Hlive c Hin) as [?|(l & ->%list_elem_of_singleton & [=])]. by left.
    + intros l c ->%list_elem_of_singleton [= <-]. lia.
    + intros l ->%list_elem_of_singleton. apply (Hd (Dialing n d)). by left.
    + done.
  - unfold after_error. apply (loop_moves u (Listing n d c)); try done.
    + destruct (is_reauth err); [done|by intros ->].
    + cbn. set_solver.
    + by destruct (is_reauth err).
    + cbn. intros c' [= ->]. right. set_solver.
  - apply (loop_moves u (Listing n d c)); try done. auto.
  - unfold swapReconnectConn in Es. destruct (ctx_done u) eqn:Ed; injection Es as <- <-.
    + apply (loop_moves u (Swapping n d c)); try done; cbn; [set_solver|]. intros c' [= ->]. right. set_solver.
    + destruct Hi as [Hl [Hm1 Hm2] Hlive Hf Hd Hc]. cbn in E. rewrite E in *.
      destruct (Hf (Swapping n d c) c) as [Hne Hlt]; [by left|done|]. split; cbn.
      * rewrite Er. eauto.
      * auto.
      * intros c' Hin. destruct (Hlive c' Hin) as [[-> _]|(l & ->%list_elem_of_singleton & [= ->])].
        -- right. eexists. split; [by left|done].
        -- left. split; [done|]. destruct (closed u); [|done]. rewrite Hc in Ed by auto. done.
      * intros l c' ->%list_elem_of_singleton [= <-]. done.
      * intros l ->%list_elem_of_singleton. apply (Hd (Swapping n d c)). by left.
      * intros Hcl. rewrite (Hc Hcl) in Ed. done.
  - apply (loop_moves u (ClosingOld n d old)); try done; cbn; [set_solver|]. intros c' [= ->]. right. set_solver.
  - destruct Hi as [Hl Hm Hlive Hf Hd Hc]. cbn in E. rewrite E in *. split; cbn; try done.
    + intros c Hin. destruct (Hlive c Hin) as [?|(l & ->%list_elem_of_singleton & [=])]. by left.
    + intros l c Hin. by apply elem_of_nil in Hin.
    + intros l Hin. by apply elem_of_nil in Hin.
  - destruct Hi as [Hl Hm Hlive Hf Hd Hc]. by split.
  - assert (ctx_done u = true) as Hdone by (apply (u_closed u Hi); right; rewrite E; auto).
    apply (others_move _ (a ++ b)) in Hi; [|rewrite E; apply elem_of_removed].
    destruct Hi as [Hl [Hm1 Hm2] Hlive Hf Hd Hc]. split; cbn in *; try done.
    + split; [done|]. set_solver.
    + intros c Hin. apply elem_of_difference in Hin as [Hin Hne]. destruct (Hlive c Hin) as [[-> _]|?]; [set_solver|by right].
Qed.

(** C25: however failing calls, the loop and a shutdown interleave: at most one reconnect loop
    runs for an upstream; its delays are 1, 2, 4, ..., 64 seconds and then 64 for ever; every
    open connection is the upstream's current one or is held by the loop, which closes it or
    installs it; and once a shutdown has closed the connection and the loop has returned, no
    connection of the upstream is open, and none is ever opened into it again. *)
Theorem reconnect_safe u : rtc upstream_step initial_upstream u ->
  (List.length (loops u) <= 1)%nat /\
  (forall n d, Sleeping n d ∈ loops u -> d = backoff_after n /\ second <= d <= 64 * second) /\
  (forall c, c ∈ live u -> c = conn u \/ exists l, l ∈ loops u /\ owned l = Some c) /\
  (closed u = true -> loops u = [] -> live u = ∅).
Proof.
  intros Hr. assert (upstream_inv u) as [Hl Hm Hlive Hf Hd Hc].
  { by apply (rtc_preserves upstream_step upstream_inv initial_upstream); [apply upstream_step_inv|apply initial_upstream_inv|]. }
  split_and!.
  - destruct (reconnecting u); [destruct Hl as [l ->]|rewrite Hl]; simpl; lia.
  - intros n d Hin. specialize (Hd _ Hin). cbn in Hd. subst d. split; [done|]. apply backoff_bound.
  - intros c Hin. destruct (Hlive c Hin) as [[-> _]|?]; auto.
  - intros Hcl Hloops. apply set_eq. intros c. split; [|by intros ?%elem_of_empty]. intros Hin.
    destruct (Hlive c Hin) as [[_ ?]|(l & Hl' & _)]; [congruence|]. rewrite Hloops in Hl'. by apply elem_of_nil in Hl'.
Qed.

(** A call fails, the loop dials twice, and the upstream is shut down before the swap. *)
Lemma reconnect_safe_witness :
  exists u, rtc upstream_step initial_upstream u /\ closed u = true /\ loops u = [] /\ live u = ∅.
Proof.
  eexists. assert (rtc upstream_step initial_upstream
    {| conn := 0; live := ({[1%nat]} ∪ {[0%nat]}) ∖ {[0%nat]} ∖ {[1%nat]}; made := 2; ctx_done := true; reconnecting := false;
       loops := []; others := []; closed := true |}) as Hr.
  { eapply rtc_l; [apply (UFailed _ (Some (Wrapped "call" [ConnError (OtherError "EOF")])))|].
    eapply rtc_l; [apply (UStart _ [] []); reflexivity|].
    eapply rtc_l; [eapply (UWake _ [] [] 0 _ true); [reflexivity|done]|].
    eapply rtc_l; [eapply (UDialFails _ [] [] 0 _ (OtherError "refused")); reflexivity|].
    eapply rtc_l; [eapply (UWake _ [] [] 1 _ true); [reflexivity|done]|].
    eapply rtc_l; [eapply (UDials _ [] []); reflexivity|].
    eapply rtc_l; [eapply (ULists _ [] []); reflexivity|].
    eapply rtc_l; [apply UShutdown|].
    eapply rtc_l; [eapply (UClose _ [] []); reflexivity|].
    eapply rtc_l; [eapply (USwap _ [] []); reflexivity|].
    eapply rtc_l; [eapply (UReturn _ [] []); reflexivity|]. apply rtc_refl. }
  split; [exact Hr|]. split; [reflexivity|]. split; [reflexivity|]. by apply (reconnect_safe _ Hr).
Defined.
