(* ===== verification/NameLocks.v ===== *)
(** * Named locks (src/internal/server/name_locks.go)

    A lock per name, created on demand and dropped with its last user.  The lock
    objects live in a heap, the map holds their addresses, and goroutines interleave
    between the parts that run under the map's mutex and the lock operations. *)
From S2P Require Import Prelude Threads.

Record nameLock : Type := { held : bool; refs : Z }.

Record nameLocks : Type := { locks : gmap string nat; heap : gmap nat nameLock; next : nat }.

Definition set_lock (l : nameLocks) (nl : nat) (x : nameLock) : nameLocks :=
  {| locks := locks l; heap := <[nl := x]> (heap l); next := next l |}.

Definition get_lock (l : nameLocks) (nl : nat) : nameLock := default {| held := false; refs := 0 |} (heap l !! nl).

Definition entryLocked (l : nameLocks) (name : string) : nameLocks * nat :=
  match locks l !! name with
  | Some nl => (l, nl)
  | None =>
      ({| locks := <[name := next l]> (locks l); heap := <[next l := {| held := false; refs := 0 |}]> (heap l); next := S (next l) |},
       next l)
  end.

(** The part of [lock] under the map's mutex: the goroutine then waits for the lock. *)
Definition lock_enter (l : nameLocks) (name : string) : nameLocks * nat :=
  let '(l, nl) := entryLocked l name in
  (set_lock l nl {| held := held (get_lock l nl); refs := refs (get_lock l nl) + 1 |}, nl).

(** [nl.Lock()] returns: only when the lock is free. *)
Definition lock_acquire (l : nameLocks) (nl : nat) : option nameLocks :=
  if held (get_lock l nl) then None else Some (set_lock l nl {| held := true; refs := refs (get_lock l nl) |}).

Definition tryLock (l : nameLocks) (name : string) : nameLocks * option nat :=
  let '(l, nl) := entryLocked l name in
  if held (get_lock l nl) then (l, None)
  else (set_lock l nl {| held := true; refs := refs (get_lock l nl) + 1 |}, Some nl).

(** [release]: the unlock, then the part under the map's mutex. *)
Definition release_unlock (l : nameLocks) (nl : nat) : nameLocks :=
  set_lock l nl {| held := false; refs := refs (get_lock l nl) |}.
Definition release_drop (l : nameLocks) (name : string) (nl : nat) : nameLocks :=
  let r := refs (get_lock l nl) - 1 in
  let l := set_lock l nl {| held := held (get_lock l nl); refs := r |} in
  if r =? 0 then {| locks := delete name (locks l); heap := heap l; next := next l |} else l.

(** ** Goroutines *)
Inductive thread : Type :=
| Idle
| Waiting (name : string) (nl : nat)
| Holding (name : string) (nl : nat)
| Releasing (name : string) (nl : nat).

Definition uses (name : string) (nl : nat) (t : thread) : bool :=
  match t with
  | Idle => false
  | Waiting n i | Holding n i | Releasing n i => String.eqb n name && Nat.eqb i nl
  end.
Definition holds (name : string) (nl : nat) (t : thread) : bool :=
  match t with Holding n i => String.eqb n name && Nat.eqb i nl | _ => false end.
Definition holds_name (name : string) (t : thread) : bool := match t with Holding n _ => String.eqb n name | _ => false end.

Record state : Type := { table : nameLocks; threads : list thread }.

Inductive step : state -> state -> Prop :=
| SEnter l a b name l' nl : lock_enter l name = (l', nl) ->
    step {| table := l; threads := a ++ Idle :: b |} {| table := l'; threads := a ++ Waiting name nl :: b |}
| SAcquire l a b name nl l' : lock_acquire l nl = Some l' ->
    step {| table := l; threads := a ++ Waiting name nl :: b |} {| table := l'; threads := a ++ Holding name nl :: b |}
| STry l a b name l' nl : tryLock l name = (l', Some nl) ->
    step {| table := l; threads := a ++ Idle :: b |} {| table := l'; threads := a ++ Holding name nl :: b |}
| STryFail l a b name l' : tryLock l name = (l', None) ->
    step {| table := l; threads := a ++ Idle :: b |} {| table := l'; threads := a ++ Idle :: b |}
| SUnlock l a b name nl :
    step {| table := l; threads := a ++ Holding name nl :: b |}
         {| table := release_unlock l nl; threads := a ++ Releasing name nl :: b |}
| SDrop l a b name nl :
    step {| table := l; threads := a ++ Releasing name nl :: b |}
         {| table := release_drop l name nl; threads := a ++ Idle :: b |}.

Definition initial (n : nat) : state :=
  {| table := {| locks := ∅; heap := ∅; next := 0 |}; threads := replicate n Idle |}.

#[local] Arguments get_lock : simpl never.

Lemma holds_uses name nl t : holds name nl t = true -> uses name nl t = true.
Proof. by destruct t. Qed.

(** ** Invariant *)
Record inv (s : state) : Prop := {
  i_entry : forall name nl, locks (table s) !! name = Some nl ->
    (nl < next (table s))%nat /\ refs (get_lock (table s) nl) = count (uses name nl) (threads s) /\
    0 < count (uses name nl) (threads s) /\
    count (holds name nl) (threads s) = b2z (held (get_lock (table s) nl));
  i_user : forall t name nl, t ∈ threads s -> uses name nl t = true -> locks (table s) !! name = Some nl;
  i_inj : forall n1 n2 nl, locks (table s) !! n1 = Some nl -> locks (table s) !! n2 = Some nl -> n1 = n2
}.

Lemma get_set_eq l nl x : get_lock (set_lock l nl x) nl = x.
Proof. unfold get_lock, set_lock. simpl. by rewrite lookup_insert_eq. Qed.
Lemma get_set_ne l nl nl' x : nl <> nl' -> get_lock (set_lock l nl x) nl' = get_lock l nl'.
Proof. intros H. unfold get_lock, set_lock. simpl. by rewrite lookup_insert_ne. Qed.

Lemma uses_self name nl : String.eqb name name && Nat.eqb nl nl = true.
Proof. by rewrite String.eqb_refl, Nat.eqb_refl. Qed.
Lemma uses_other n1 i1 n2 i2 : n1 <> n2 \/ i1 <> i2 -> String.eqb n1 n2 && Nat.eqb i1 i2 = false.
Proof. intros [H|H]; [by rewrite (proj2 (String.eqb_neq _ _))|]. rewrite (proj2 (Nat.eqb_neq _ _)) by done. by rewrite andb_false_r. Qed.

(** One goroutine of [name]/[nl] moves from [t] to [t'], and the lock object changes with it. *)
Lemma inv_move l a b t t' name nl x :
  inv {| table := l; threads := a ++ t :: b |} ->
  locks l !! name = Some nl ->
  (t = Idle \/ exists k, t = k name nl /\ uses name nl t = true) ->
  (forall n i, uses n i t = true -> n = name /\ i = nl) ->
  (forall n i, uses n i t' = true -> n = name /\ i = nl) ->
  uses name nl t' = true ->
  refs x = refs (get_lock l nl) + b2z (uses name nl t') - b2z (uses name nl t) ->
  b2z (held x) = b2z (held (get_lock l nl)) + b2z (holds name nl t') - b2z (holds name nl t) ->
  inv {| table := set_lock l nl x; threads := a ++ t' :: b |}.
Proof.
  intros [He Hu Hi] Hl _ Ht Ht' Huse Hrefs Hheld. cbn in *. split; cbn.
  - intros n i Hn. destruct (He n i Hn) as (H1 & H2 & H3 & H4). split; [done|].
    rewrite count_middle in H2, H3, H4. rewrite !count_middle.
    destruct (decide (i = nl)) as [->|Hne].
    + assert (n = name) as -> by by eapply Hi. rewrite get_set_eq.
      pose proof (count_nonneg (uses name nl) (a ++ b)). rewrite Huse in *. simpl in *. split_and!; lia.
    + rewrite get_set_ne by done.
      assert (forall u, (forall n i, uses n i u = true -> n = name /\ i = nl) -> uses n i u = false) as Hf.
      { intros u Hfu. destruct (uses n i u) eqn:E; [|done]. apply Hfu in E as [_ ?]. done. }
      assert (forall u, uses n i u = false -> holds n i u = false) as Hh by (intros u; destruct u; done).
      pose proof (Hf t Ht) as E1. pose proof (Hf t' Ht') as E2. pose proof (Hh t E1) as E3. pose proof (Hh t' E2) as E4.
      rewrite E1 in *. rewrite E2. rewrite E3 in *. rewrite E4. simpl in *. split_and!; lia.
  - intros u n i Hin Huu. apply elem_of_app in Hin as [Hin|Hin]; [apply (Hu u); [apply elem_of_app; by left|done]|].
    apply elem_of_cons in Hin as [->|Hin]; [destruct (Ht' _ _ Huu) as [-> ->]; done|].
    apply (Hu u); [apply elem_of_app; right; by right|done].
  - done.
Qed.

(** [entryLocked] only adds a free lock that nobody uses yet: what stays of the invariant. *)
Record inv_but (name : string) (s : state) : Prop := {
  b_entry : forall n nl, locks (table s) !! n = Some nl ->
    (nl < next (table s))%nat /\ refs (get_lock (table s) nl) = count (uses n nl) (threads s) /\
    (n <> name -> 0 < count (uses n nl) (threads s)) /\
    count (holds n nl) (threads s) = b2z (held (get_lock (table s) nl));
  b_user : forall t n nl, t ∈ threads s -> uses n nl t = true -> locks (table s) !! n = Some nl;
  b_inj : forall n1 n2 nl, locks (table s) !! n1 = Some nl -> locks (table s) !! n2 = Some nl -> n1 = n2
}.

Lemma entry_inv l ts name l' nl : inv {| table := l; threads := ts |} -> entryLocked l name = (l', nl) ->
  inv_but name {| table := l'; threads := ts |} /\ locks l' !! name = Some nl /\ (held (get_lock l' nl) = true -> l' = l).
Proof.
  intros [He Hu Hi] E. unfold entryLocked in E. destruct (locks l !! name) as [i|] eqn:El; injection E as <- <-.
  - split; [|done]. split; cbn in *; [|done|done]. intros n nl Hn. destruct (He n nl Hn) as (?&?&?&?). done.
  - cbn in *. assert (forall n, locks l !! n <> Some (next l)) as Hfresh.
    { intros n Hn. destruct (He n _ Hn) as (? & _). lia. }
    assert (forall t, t ∈ ts -> forall n, uses n (next l) t = false) as Hnouse.
    { intros t Hin n. destruct (uses n (next l) t) eqn:Et; [|done]. apply (Hu t) in Et; [|done]. by apply Hfresh in Et. }
    split; [split; cbn|split].
    + intros n i. rewrite lookup_insert_Some. intros [[<- <-]|[Hne Hn]].
      * unfold get_lock. cbn. rewrite lookup_insert_eq. cbn.
        rewrite (count_zero (uses name (next l))), (count_zero (holds name (next l))); [split_and!; [lia|done|done|done]| |].
        -- intros t Hin. destruct (holds name (next l) t) eqn:Et; [|done]. apply holds_uses in Et. by rewrite Hnouse in Et.
        -- intros t Hin. by apply Hnouse.
      * destruct (He n i Hn) as (H1 & H2 & H3 & H4).
        assert (get_lock {| locks := <[name := next l]> (locks l); heap := <[next l := {| held := false; refs := 0 |}]> (heap l); next := S (next l) |} i
          = get_lock l i) as ->; [|split_and!; [lia|done|done|done]].
        unfold get_lock. cbn. rewrite lookup_insert_ne; [done|lia].
    + intros t n i Hin Ht. apply (Hu t) in Ht as Hl; [|done]. rewrite lookup_insert_ne; [done|]. intros <-. by rewrite El in Hl.
    + intros n1 n2 i. rewrite !lookup_insert_Some. intros [[<- <-]|[H1 Hn1]] [[<- H]|[H2 Hn2]]; [done|by apply Hfresh in Hn2| |by eapply Hi].
      subst i. by apply Hfresh in Hn1.
    + by rewrite lookup_insert_eq.
    + unfold get_lock. cbn. by rewrite lookup_insert_eq.
Qed.

(** The goroutine that looked the entry up becomes its user. *)
Lemma inv_join l a b t' name nl x :
  inv_but name {| table := l; threads := a ++ Idle :: b |} -> locks l !! name = Some nl ->
  (forall n i, uses n i t' = true <-> n = name /\ i = nl) ->
  refs x = refs (get_lock l nl) + 1 ->
  b2z (held x) = b2z (held (get_lock l nl)) + b2z (holds name nl t') ->
  inv {| table := set_lock l nl x; threads := a ++ t' :: b |}.
Proof.
  intros [He Hu Hi] Hl Ht' Hrefs Hheld. cbn in *. split; cbn.
  - intros n i Hn. destruct (He n i Hn) as (H1 & H2 & H3 & H4). split; [done|].
    rewrite count_middle in H2, H3, H4. rewrite !count_middle. simpl in H2, H3, H4. rewrite Z.add_0_r in H2, H3, H4.
    destruct (decide (i = nl)) as [->|Hne].
    + assert (n = name) as -> by by eapply Hi. rewrite get_set_eq, (proj2 (Ht' name nl)) by done.
      pose proof (count_nonneg (uses name nl) (a ++ b)). simpl. split_and!; lia.
    + rewrite get_set_ne by done. destruct (uses n i t') eqn:E1; [apply Ht' in E1 as [_ ?]; done|].
      assert (holds n i t' = false) as -> by by destruct t'. simpl. rewrite !Z.add_0_r. split_and!; [done| |done].
      destruct (decide (n = name)) as [->|]; [congruence|auto].
  - intros u n i Hin Huu. apply elem_of_app in Hin as [Hin|Hin]; [apply (Hu u); [apply elem_of_app; by left|done]|].
    apply elem_of_cons in Hin as [->|Hin]; [apply Ht' in Huu as [-> ->]; done|].
    apply (Hu u); [apply elem_of_app; right; by right|done].
  - done.
Qed.

Lemma uses_iff name nl n i : String.eqb name n && Nat.eqb nl i = true <-> n = name /\ i = nl.
Proof. rewrite andb_true_iff, String.eqb_eq, Nat.eqb_eq. intuition. Qed.

(** The last user drops the entry. *)
Lemma inv_drop l a b name nl : inv {| table := l; threads := a ++ Releasing name nl :: b |} ->
  inv {| table := release_drop l name nl; threads := a ++ Idle :: b |}.
Proof.
  intros [He Hu Hi]. cbn in *.
  assert (locks l !! name = Some nl) as Hl by (apply (Hu (Releasing name nl)); [apply elem_of_app; right; by left|apply uses_self]).
  destruct (He name nl Hl) as (Hn1 & Hn2 & Hn3 & Hn4). rewrite count_middle in Hn2, Hn3, Hn4. cbn in Hn2, Hn3, Hn4. rewrite uses_self in Hn2, Hn3. simpl in Hn2, Hn3.
  assert (forall n i, locks l !! n = Some i -> i <> nl -> n <> name) as Hname by (intros n i H1 H2 ->; congruence).
  assert (forall n i, locks l !! n = Some i -> i <> nl ->
    (i < next l)%nat /\ refs (get_lock l i) = count (uses n i) (a ++ Idle :: b) /\ 0 < count (uses n i) (a ++ Idle :: b) /\
    count (holds n i) (a ++ Idle :: b) = b2z (held (get_lock l i))) as Hother.
  { intros n i Hn Hne. destruct (He n i Hn) as (H1 & H2 & H3 & H4). rewrite count_middle in H2, H3, H4. cbn in H2, H3, H4.
    rewrite uses_other in H2, H3 by auto. rewrite !count_middle. cbn. done. }
  assert (forall u n i, u ∈ a ++ Idle :: b -> uses n i u = true -> u ∈ a ++ b) as Hin'.
  { intros u n i Hin Huu. apply elem_of_app in Hin as [Hin|Hin]; [apply elem_of_app; by left|].
    apply elem_of_cons in Hin as [->|Hin]; [done|apply elem_of_app; by right]. }
  assert (forall u n i, u ∈ a ++ Idle :: b -> uses n i u = true -> locks l !! n = Some i) as Hu'.
  { intros u n i Hin Huu. apply (Hu u); [|done]. apply (Hin' u n i) in Hin; [|done]. apply elem_of_app in Hin as [Hin|Hin]; apply elem_of_app; [by left|right; by right]. }
  unfold release_drop. destruct (Z.eqb_spec (refs (get_lock l nl) - 1) 0) as [Hz|Hz]; split; cbn.
  - intros n i. rewrite lookup_delete_Some. intros [Hne Hn].
    assert (i <> nl) as Hi' by (intros ->; apply Hne; by eapply Hi).
    change (get_lock {| locks := delete name (locks l); heap := <[nl := _]> (heap l); next := next l |} i) with
      (get_lock (set_lock l nl {| held := held (get_lock l nl); refs := refs (get_lock l nl) - 1 |}) i).
    rewrite get_set_ne by done. by apply Hother.
  - intros u n i Hin Huu. pose proof (Hu' u n i Hin Huu) as Hln. rewrite lookup_delete_ne; [done|]. intros <-.
    assert (i = nl) as -> by congruence. pose proof (count_elem (uses name nl) (a ++ b) u (Hin' _ _ _ Hin Huu) Huu). lia.
  - intros n1 n2 i. rewrite !lookup_delete_Some. intros [_ H1] [_ H2]. by eapply Hi.
  - intros n i Hn. destruct (decide (i = nl)) as [->|Hne].
    + assert (n = name) as -> by by eapply Hi. rewrite get_set_eq. rewrite !count_middle. cbn.
      pose proof (count_nonneg (uses name nl) (a ++ b)). split_and!; [done|lia|lia|lia].
    + rewrite get_set_ne by done. by apply Hother.
  - done.
  - done.
Qed.

Lemma step_inv s s' : inv s -> step s s' -> inv s'.
Proof.
  intros Hinv Hstep. destruct Hstep as [l a b name l' nl E|l a b name nl l' E|l a b name l' nl E|l a b name l' E|l a b name nl|l a b name nl].
  - unfold lock_enter in E. destruct (entryLocked l name) as [l1 i] eqn:Ee. injection E as <- <-.
    destruct (entry_inv _ _ _ _ _ Hinv Ee) as (Hb & Hl & _).
    apply (inv_join l1 a b (Waiting name i) name i); [done|done|apply uses_iff|done|cbn; lia].
  - pose proof (i_user _ Hinv (Waiting name nl) name nl ltac:(cbn; apply elem_of_app; right; by left) (uses_self name nl)) as Hl. cbn in Hl.
    unfold lock_acquire in E. destruct (held (get_lock l nl)) eqn:Eh; [done|]. injection E as <-.
    apply (inv_move l a b (Waiting name nl) (Holding name nl) name nl); [done|done|right; by exists Waiting; split; [|apply uses_self]|apply uses_iff|apply uses_iff|apply uses_self|cbn; rewrite uses_self; simpl; lia|].
    rewrite Eh. cbn. rewrite uses_self. done.
  - unfold tryLock in E. destruct (entryLocked l name) as [l1 i] eqn:Ee. destruct (held (get_lock l1 i)) eqn:Eh; [done|]. injection E as <- <-.
    destruct (entry_inv _ _ _ _ _ Hinv Ee) as (Hb & Hl & _).
    apply (inv_join l1 a b (Holding name i) name i); [done|done|apply uses_iff|done|]. rewrite Eh. cbn. by rewrite uses_self.
  - unfold tryLock in E. destruct (entryLocked l name) as [l1 i] eqn:Ee. destruct (held (get_lock l1 i)) eqn:Eh; [|done]. injection E as <-.
    destruct (entry_inv _ _ _ _ _ Hinv Ee) as (_ & _ & Heq). by rewrite Heq.
  - pose proof (i_user _ Hinv (Holding name nl) name nl ltac:(cbn; apply elem_of_app; right; by left) (uses_self name nl)) as Hl. cbn in Hl.
    assert (held (get_lock l nl) = true) as Hh.
    { destruct (i_entry _ Hinv name nl Hl) as (_ & _ & _ & Hc). cbn in Hc. rewrite count_middle in Hc. cbn in Hc. rewrite uses_self in Hc.
      pose proof (count_nonneg (holds name nl) (a ++ b)). destruct (held (get_lock l nl)); [done|]. simpl in Hc. lia. }
    apply (inv_move l a b (Holding name nl) (Releasing name nl) name nl); [done|done|right; by exists Holding; split; [|apply uses_self]|apply uses_iff|apply uses_iff|apply uses_self|cbn; rewrite uses_self; simpl; lia|].
    rewrite Hh. cbn. by rewrite uses_self.
  - by apply inv_drop.
Qed.

Lemma initial_inv n : inv (initial n).
Proof.
  split; cbn.
  - intros name nl. by rewrite lookup_empty.
  - intros t name nl Hin Ht. apply elem_of_replicate in Hin as [-> _]. done.
  - intros n1 n2 nl. by rewrite lookup_empty.
Qed.

Lemma reachable_inv n s : rtc step (initial n) s -> inv s.
Proof. intros H. pose proof (initial_inv n) as Hi. induction H as [|x y z Hs _ IH]; [done|]. by apply IH, (step_inv x). Qed.

(** ** Property *)

(** At any moment at most one goroutine holds the lock of a name, the table holds exactly the names that some goroutine holds, waits for or is releasing, a lock nobody holds can be taken by its waiter, and once all goroutines are done the table is empty. *)
Theorem name_locks_safe n s :
  rtc step (initial n) s ->
  (forall name, count (holds_name name) (threads s) <= 1) /\
  (forall name, is_Some (locks (table s) !! name) <-> exists t nl, t ∈ threads s /\ uses name nl t = true) /\
  (forall name nl, Waiting name nl ∈ threads s -> count (holds_name name) (threads s) = 0 -> is_Some (lock_acquire (table s) nl)) /\
  ((forall t, t ∈ threads s -> t = Idle) -> locks (table s) = ∅).
Proof.
  intros Hr. destruct (reachable_inv n s Hr) as [He Hu Hi].
  assert (forall name nl, locks (table s) !! name = Some nl -> count (holds_name name) (threads s) = count (holds name nl) (threads s)) as Hsame.
  { intros name nl Hl. assert (forall ts, (forall t, t ∈ ts -> t ∈ threads s) -> count (holds_name name) ts = count (holds name nl) ts) as H; [|by apply H].
    induction ts as [|t ts IH]; intros Hts; [done|]. rewrite !count_cons.
    rewrite IH by (intros t' Ht'; apply Hts; by right). f_equal. destruct t as [|m i|m i|m i]; try done. cbn.
    destruct (String.eqb_spec m name) as [->|]; [|done]. pose proof (Hu (Holding name i) name i (Hts _ ltac:(by left)) (uses_self name i)) as Hl'.
    assert (i = nl) as -> by congruence. by rewrite Nat.eqb_refl. }
  assert (forall name, locks (table s) !! name = None -> count (holds_name name) (threads s) = 0) as Hnone.
  { intros name Hl. apply count_zero. intros t Hin. destruct t as [|m i|m i|m i]; try done. cbn.
    destruct (String.eqb_spec m name) as [->|]; [|done]. rewrite (Hu _ name i Hin) in Hl by apply uses_self. done. }
  split_and!.
  - intros name. destruct (locks (table s) !! name) as [nl|] eqn:El; [|rewrite Hnone by done; lia].
    rewrite (Hsame name nl El). destruct (He name nl El) as (_ & _ & _ & ->). destruct (held _); simpl; lia.
  - intros name. split; [intros [nl Hl]|intros (t & nl & Hin & Ht); rewrite (Hu t name nl Hin Ht); eauto].
    destruct (He name nl Hl) as (_ & _ & Hpos & _).
    destruct (decide (Exists (fun t => uses name nl t = true) (threads s))) as [H|H].
    + apply Exists_exists in H as (t & Hin & Ht). eauto.
    + exfalso. rewrite count_zero in Hpos; [lia|]. intros t Hin. destruct (uses name nl t) eqn:E; [|done].
      exfalso. apply H, Exists_exists. eauto.
  - intros name nl Hin Hc. pose proof (Hu _ name nl Hin (uses_self name nl)) as Hl. unfold lock_acquire.
    destruct (He name nl Hl) as (_ & _ & _ & Hh). rewrite <- (Hsame name nl Hl), Hc in Hh. by destruct (held _).
  - intros Hidle. apply map_empty. intros name. destruct (locks (table s) !! name) as [nl|] eqn:El; [|done]. exfalso.
    destruct (He name nl El) as (_ & _ & Hpos & _). rewrite count_zero in Hpos; [lia|]. intros t Hin. by rewrite (Hidle t Hin).
Qed.

Lemma name_locks_safe_witness :
  let s := {| table := fst (tryLock {| locks := ∅; heap := ∅; next := 0 |} "gh"); threads := [Holding "gh" 0; Idle] |} in
  count (holds_name "gh") (threads s) = 1 /\ (forall name, count (holds_name name) (threads s) <= 1).
Proof.
  intros s. split; [reflexivity|]. apply (name_locks_safe 2 s).
  eapply rtc_l; [|apply rtc_refl]. apply (STry _ [] [Idle] "gh" _ 0%nat). reflexivity.
Defined.
