(* ===== verification/ToolsChanged.v ===== *)
(** * The outbox of tool-change notices (src/internal/server/tools_changed.go)

    A session's notification streams are buffered Go channels, held in a map by number.  A
    notice goes to one open stream, or is remembered until a stream is opened.  A channel
    is an address into a store that keeps its buffer also after it was closed: a receiver
    still drains it. *)
From S2P Require Import Prelude.

Definition stream_cap : nat := 16.

(** The notices carry no data: a buffer is how many it holds. *)
Record channel : Type := { buffered : nat; open : bool }.

Record toolsChangedOutbox : Type := {
  streams : gmap Z nat; pending : bool; nextID : Z; closed : bool;
  chans : gmap nat channel; next_chan : nat
}.

Definition newToolsChangedOutbox : toolsChangedOutbox :=
  {| streams := ∅; pending := false; nextID := 0; closed := false; chans := ∅; next_chan := 0 |}.

(** What Go does besides returning: it panics, or it blocks with the mutex held. *)
Inductive fault : Type := SendOnClosed | CloseOfClosed | BlocksForever.

Definition get_chan (o : toolsChangedOutbox) (c : nat) : channel := default {| buffered := 0; open := false |} (chans o !! c).

Definition set_chan (o : toolsChangedOutbox) (c : nat) (x : channel) : toolsChangedOutbox :=
  {| streams := streams o; pending := pending o; nextID := nextID o; closed := closed o; chans := <[c := x]> (chans o); next_chan := next_chan o |}.
Definition set_pending (o : toolsChangedOutbox) (p : bool) : toolsChangedOutbox :=
  {| streams := streams o; pending := p; nextID := nextID o; closed := closed o; chans := chans o; next_chan := next_chan o |}.
Definition set_streams (o : toolsChangedOutbox) (s : gmap Z nat) : toolsChangedOutbox :=
  {| streams := s; pending := pending o; nextID := nextID o; closed := closed o; chans := chans o; next_chan := next_chan o |}.

(** A send that would block, a send that is tried, and [close]. *)
Definition try_send (o : toolsChangedOutbox) (c : nat) : res fault (toolsChangedOutbox * bool) :=
  let x := get_chan o c in
  if negb (open x) then Err SendOnClosed
  else if Nat.ltb (buffered x) stream_cap then Ok (set_chan o c {| buffered := S (buffered x); open := true |}, true)
  else Ok (o, false).
Definition send (o : toolsChangedOutbox) (c : nat) : res fault toolsChangedOutbox :=
  let* '(o, sent) := try_send o c in if sent : bool then Ok o else Err BlocksForever.
Definition close_chan (o : toolsChangedOutbox) (c : nat) : res fault toolsChangedOutbox :=
  let x := get_chan o c in
  if open x then Ok (set_chan o c {| buffered := buffered x; open := false |}) else Err CloseOfClosed.

(** A receive: a buffered notice, or the end of a closed channel; an open empty one waits. *)
Definition receive (o : toolsChangedOutbox) (c : nat) : option (toolsChangedOutbox * bool) :=
  let x := get_chan o c in
  match buffered x with
  | S n => Some (set_chan o c {| buffered := n; open := open x |}, true)
  | O => if open x then None else Some (o, false)
  end.

Definition uint64 (z : Z) : Z := z mod 2 ^ 64.

(** The new channel, under the next number. *)
Definition add_stream (o : toolsChangedOutbox) : toolsChangedOutbox :=
  let c := next_chan o in
  let id := uint64 (nextID o + 1) in
  {| streams := <[id := c]> (streams o); pending := pending o; nextID := id; closed := closed o;
     chans := <[c := {| buffered := 0; open := true |}]> (chans o); next_chan := S c |}.

Definition openStream (o : toolsChangedOutbox) : res fault (toolsChangedOutbox * option nat) :=
  if closed o then Ok (o, None)
  else
    let c := next_chan o in
    let o := add_stream o in
    if pending o then let* o := send o c in Ok (set_pending o false, Some c)
    else Ok (o, Some c).

(** The iteration over the map follows [order], a listing of it. *)
Fixpoint close_first (o : toolsChangedOutbox) (stream : nat) (order : list (Z * nat)) : res fault toolsChangedOutbox :=
  match order with
  | [] => Ok o
  | (id, current) :: order =>
      if Nat.eqb current stream then close_chan (set_streams o (delete id (streams o))) stream
      else close_first o stream order
  end.
Definition closeStream (o : toolsChangedOutbox) (stream : nat) (order : list (Z * nat)) : res fault toolsChangedOutbox :=
  close_first o stream order.

Definition close_each (o : toolsChangedOutbox) (e : Z * nat) : res fault toolsChangedOutbox :=
  close_chan (set_streams o (delete (fst e) (streams o))) (snd e).
Definition closeOutbox (o : toolsChangedOutbox) (order : list (Z * nat)) : res fault toolsChangedOutbox :=
  for_each close_each order
    {| streams := streams o; pending := false; nextID := nextID o; closed := true; chans := chans o; next_chan := next_chan o |}.

Definition hasOpenStream (o : toolsChangedOutbox) : bool := negb (bool_decide (streams o = ∅)).

Fixpoint publish_first (o : toolsChangedOutbox) (order : list (Z * nat)) : res fault (toolsChangedOutbox * bool) :=
  match order with
  | [] => Ok (set_pending o true, true)
  | (_, c) :: order =>
      let* '(o', sent) := try_send o c in
      if sent : bool then Ok (o', true) else publish_first o order
  end.
Definition publishToolsChanged (o : toolsChangedOutbox) (order : list (Z * nat)) : res fault (toolsChangedOutbox * bool) :=
  if closed o then Ok (o, false)
  else if bool_decide (streams o = ∅) then Ok (set_pending o true, true)
  else publish_first o order.

(** ** Invariant *)
Definition listing (o : toolsChangedOutbox) (order : list (Z * nat)) : Prop := Permutation order (map_to_list (streams o)).

Record streams_inv (o : toolsChangedOutbox) : Prop := {
  o_open : forall id c, streams o !! id = Some c -> (c < next_chan o)%nat /\ open (get_chan o c) = true;
  o_inj : forall i j c, streams o !! i = Some c -> streams o !! j = Some c -> i = j;
  o_chans : forall c, (next_chan o <= c)%nat -> chans o !! c = None
}.
Definition outbox_inv (o : toolsChangedOutbox) : Prop :=
  streams_inv o /\ (closed o = true -> streams o = ∅ /\ pending o = false).

(** A notice that no agent has read yet: remembered, or in a buffer. *)
Definition unread (o : toolsChangedOutbox) : Prop := pending o = true \/ exists c, (0 < buffered (get_chan o c))%nat.

Lemma get_set_chan_eq o c x : get_chan (set_chan o c x) c = x.
Proof. unfold get_chan, set_chan. cbn. by rewrite lookup_insert_eq. Qed.
Lemma get_set_chan_ne o c d x : c <> d -> get_chan (set_chan o c x) d = get_chan o d.
Proof. intros H. unfold get_chan, set_chan. cbn. by rewrite lookup_insert_ne. Qed.

(** The buffers of the channels as a whole. *)
Lemma set_chan_unread o c n b : (buffered (get_chan o c) <= n)%nat -> unread o -> unread (set_chan o c {| buffered := n; open := b |}).
Proof.
  intros Hle [Hp|[d Hd]]; [by left|right]. exists d. destruct (decide (c = d)) as [->|Hne].
  - rewrite get_set_chan_eq. simpl. lia.
  - by rewrite get_set_chan_ne.
Qed.

Lemma new_outbox_inv : outbox_inv newToolsChangedOutbox.
Proof. by split. Qed.

Lemma set_chan_inv o c x : streams_inv o -> (c < next_chan o)%nat ->
  (open x = true \/ forall id, streams o !! id <> Some c) -> streams_inv (set_chan o c x).
Proof.
  intros [Ho Hi Hch] Hlt Hx. split; [|done|].
  - intros id d Hd. destruct (Ho id d Hd) as [H1 H2]. split; [done|]. destruct (decide (c = d)) as [->|Hne].
    + rewrite get_set_chan_eq. destruct Hx as [?|Hx]; [done|]. by apply Hx in Hd.
    + by rewrite get_set_chan_ne.
  - intros d Hd. cbn in *. rewrite lookup_insert_ne by lia. by apply Hch.
Qed.

(** What a send tried on an open stream does. *)
Lemma try_send_ok o id c : streams_inv o -> streams o !! id = Some c ->
  if Nat.ltb (buffered (get_chan o c)) stream_cap
  then try_send o c = Ok (set_chan o c {| buffered := S (buffered (get_chan o c)); open := true |}, true) /\
       streams_inv (set_chan o c {| buffered := S (buffered (get_chan o c)); open := true |})
  else try_send o c = Ok (o, false).
Proof.
  intros Hi Hc. destruct (o_open o Hi id c Hc) as [Hlt Hop]. unfold try_send. rewrite Hop. cbn [negb].
  destruct (Nat.ltb_spec (buffered (get_chan o c)) stream_cap) as [Hb|Hb]; [|done]. split; [done|]. apply set_chan_inv; auto.
Qed.

Lemma get_add_stream_eq o : get_chan (add_stream o) (next_chan o) = {| buffered := 0; open := true |}.
Proof. unfold get_chan, add_stream. cbn. by rewrite lookup_insert_eq. Qed.
Lemma get_add_stream_ne o d : d <> next_chan o -> get_chan (add_stream o) d = get_chan o d.
Proof. intros Hd. unfold get_chan, add_stream. cbn. by rewrite lookup_insert_ne. Qed.

Lemma add_stream_ok o : streams_inv o ->
  streams_inv (add_stream o) /\ (unread o -> unread (add_stream o)) /\ exists id, streams (add_stream o) !! id = Some (next_chan o).
Proof.
  intros [Ho Hi Hch]. split; [|split].
  - split; cbn [add_stream streams closed pending next_chan chans].
    + intros i d. rewrite lookup_insert_Some. intros [[<- <-]|[Hne Hd]]; [by rewrite get_add_stream_eq; split; [lia|]|].
      destruct (Ho i d Hd) as [H1 H2]. split; [lia|]. rewrite get_add_stream_ne; [done|lia].
    + intros i j d. rewrite !lookup_insert_Some. intros [[<- <-]|[Hne Hd]] [[<- E]|[Hne' Hd']]; [done| | |by eapply Hi].
      * destruct (Ho j _ Hd') as [Hlt _]. lia.
      * subst d. destruct (Ho i _ Hd) as [Hlt _]. lia.
    + intros d Hd. rewrite lookup_insert_ne by lia. apply Hch. lia.
  - intros [?|[d Hd]]; [by left|right]. exists d. rewrite get_add_stream_ne; [done|]. intros ->. unfold get_chan in Hd. rewrite Hch in Hd by done. simpl in Hd. lia.
  - eexists. cbn. by rewrite lookup_insert_eq.
Qed.

(** [openStream] of an open outbox: the stream, with the remembered notice in it. *)
Lemma openStream_ok o : outbox_inv o -> closed o = false ->
  exists o', openStream o = Ok (o', Some (next_chan o)) /\ outbox_inv o' /\ (unread o -> unread o') /\ closed o' = false /\
    pending o' = false /\ get_chan o' (next_chan o) = {| buffered := if pending o then 1 else 0; open := true |} /\
    exists id, streams o' !! id = Some (next_chan o).
Proof.
  intros [Hi _] Ecl. unfold openStream. rewrite Ecl. destruct (add_stream_ok o Hi) as (Hi' & Hun & Hid). pose proof (get_add_stream_eq o) as Hget.
  set (c := next_chan o) in *. assert (closed (add_stream o) = false) as Ecl' by exact Ecl. change (pending o) with (pending (add_stream o)).
  destruct (pending (add_stream o)) eqn:Ep.
  - set (o2 := set_chan (add_stream o) c {| buffered := 1; open := true |}).
    assert (send (add_stream o) c = Ok o2) as -> by (unfold send, try_send; by rewrite Hget). cbn [rbind].
    assert (streams_inv o2) as [H1 H2 H3] by (apply set_chan_inv; auto; cbn; lia). assert (get_chan o2 c = {| buffered := 1; open := true |}) as Hget2 by apply get_set_chan_eq.
    exists (set_pending o2 false). split; [done|]. split; [split; [by split|cbn; by rewrite Ecl]|].
    split; [intros _; right; exists c; change (get_chan (set_pending o2 false) c) with (get_chan o2 c); rewrite Hget2; simpl; lia|].
    split; [exact Ecl|]. split; [done|]. by split.
  - exists (add_stream o). split; [done|]. split; [split; [done|by rewrite Ecl']|]. by split_and!.
Qed.

(** Closing a stream that is in the map, or one that has left it. *)
Lemma close_entry_ok o id c : streams_inv o -> streams o !! id = Some c ->
  exists o', close_chan (set_streams o (delete id (streams o))) c = Ok o' /\ streams_inv o' /\ streams o' = delete id (streams o) /\
    closed o' = closed o /\ pending o' = pending o /\ (unread o -> unread o') /\ open (get_chan o' c) = false.
Proof.
  intros [Ho Hi Hch] Hid. destruct (Ho id c Hid) as [Hlt Hop]. unfold close_chan.
  change (get_chan (set_streams o (delete id (streams o))) c) with (get_chan o c). rewrite Hop.
  eexists. split; [done|]. split; [|split; [done|split; [done|split; [done|split]]]].
  - apply set_chan_inv; [|done|].
    + split; cbn.
      * intros i d. rewrite lookup_delete_Some. intros [_ Hd]. by apply (Ho i).
      * intros i j d. rewrite !lookup_delete_Some. intros [_ ?] [_ ?]. by eapply Hi.
      * done.
    + right. intros i. cbn. rewrite lookup_delete_Some. intros [Hne Hd]. by apply Hne, (Hi _ _ c).
  - intros Hu. apply (set_chan_unread (set_streams o (delete id (streams o)))); [done|]. destruct Hu as [?|Hu]; [by left|by right].
  - by rewrite get_set_chan_eq.
Qed.

Lemma closeStream_ok o c order : outbox_inv o -> (forall id d, (id, d) ∈ order -> streams o !! id = Some d) ->
  exists o', closeStream o c order = Ok o' /\ outbox_inv o' /\ closed o' = closed o /\ (unread o -> unread o').
Proof.
  intros [Hi Hcl]. unfold closeStream. induction order as [|[id d] order IH]; intros Hl; cbn [close_first].
  - exists o. by split_and!.
  - destruct (Nat.eqb_spec d c) as [->|Hne].
    + destruct (close_entry_ok o id c Hi) as (o' & -> & H1 & H2 & H3 & H4 & H5 & _); [apply Hl; by left|].
      exists o'. split_and!; auto. split; [done|]. rewrite H2, H3, H4. intros [-> ?]%Hcl. by rewrite delete_empty.
    + apply IH. intros. apply Hl. by right.
Qed.

(** Every entry of the map is closed once. *)
Lemma close_each_ok order : forall o, streams_inv o -> Permutation order (map_to_list (streams o)) ->
  exists o', for_each close_each order o = Ok o' /\ streams_inv o' /\ streams o' = ∅ /\ closed o' = closed o /\ pending o' = pending o.
Proof.
  induction order as [|[id c] order IH]; intros o Hi Hp; cbn [for_each].
  - exists o. apply Permutation_nil in Hp. apply map_to_list_empty_iff in Hp. by split_and!.
  - assert (streams o !! id = Some c) as Hid by (apply elem_of_map_to_list; rewrite <- Hp; by left).
    destruct (close_entry_ok o id c Hi Hid) as (o1 & E & H1 & H2 & H3 & H4 & _). unfold close_each at 1. cbn [fst snd]. rewrite E. cbn [rbind].
    destruct (IH o1 H1) as (o' & E' & G1 & G2 & G3 & G4).
    + rewrite H2. apply (Permutation_cons_inv (a := (id, c))). by rewrite Hp, map_to_list_delete.
    + exists o'. split_and!; [done|done|done|by rewrite G3|by rewrite G4].
Qed.

Lemma closeOutbox_ok o order : outbox_inv o -> listing o order ->
  exists o', closeOutbox o order = Ok o' /\ outbox_inv o' /\ closed o' = true /\ streams o' = ∅.
Proof.
  intros [[Ho Hi Hch] _] Hl. unfold closeOutbox.
  destruct (close_each_ok order {| streams := streams o; pending := false; nextID := nextID o; closed := true; chans := chans o; next_chan := next_chan o |})
    as (o' & E & H1 & H2 & H3 & H4); [by split|done|].
  exists o'. split; [done|]. split; [split; [done|by rewrite H2, H4]|done].
Qed.

(** [publishToolsChanged] of an open outbox leaves the change unread. *)
Lemma publish_ok o order : outbox_inv o -> (forall id d, (id, d) ∈ order -> streams o !! id = Some d) ->
  exists o', publishToolsChanged o order = Ok (o', negb (closed o)) /\ outbox_inv o' /\ closed o' = closed o /\
    (closed o = false -> unread o').
Proof.
  intros [Hi Hcl] Hl. unfold publishToolsChanged. destruct (closed o) eqn:Ecl; cbn [negb].
  { exists o. split_and!; try done. split; [done|]. rewrite Ecl. auto. }
  assert (outbox_inv (set_pending o true)) as Hp by (destruct Hi as [H1 H2 H3]; split; [by split|cbn; by rewrite Ecl]).
  destruct (bool_decide (streams o = ∅)).
  { exists (set_pending o true). split_and!; [done|done|exact Ecl|by left]. }
  induction order as [|[id c] order IH]; cbn [publish_first].
  - exists (set_pending o true). split_and!; [done|done|exact Ecl|by left].
  - pose proof (try_send_ok o id c Hi (Hl id c ltac:(by left))) as Hs. destruct (Nat.ltb _ _).
    + destruct Hs as [-> Hi']. cbn [rbind]. eexists. split; [done|]. split; [split; [done|by cbn; rewrite Ecl]|].
      split; [exact Ecl|]. intros _. right. exists c. rewrite get_set_chan_eq. simpl. lia.
    + rewrite Hs. cbn [rbind]. apply IH. intros. apply Hl. by right.
Qed.

(** ** The outbox in use *)
Inductive outbox_event : Type :=
| OpenStream | CloseStream (c : nat) (order : list (Z * nat)) | CloseAll (order : list (Z * nat)) | Publish (order : list (Z * nat)) | Receive (c : nat).

(** One event; [None] when a receiver has to wait. *)
Definition run_event (o : toolsChangedOutbox) (e : outbox_event) : option (res fault toolsChangedOutbox) :=
  match e with
  | OpenStream => Some (let* '(o, _) := openStream o in Ok o)
  | CloseStream c order => Some (closeStream o c order)
  | CloseAll order => Some (closeOutbox o order)
  | Publish order => Some (let* '(o, _) := publishToolsChanged o order in Ok o)
  | Receive c => match receive o c with Some (o, _) => Some (Ok o) | None => None end
  end.

(** The orders given are listings of the map. *)
Definition fair (o : toolsChangedOutbox) (e : outbox_event) : Prop :=
  match e with
  | CloseStream _ order | CloseAll order | Publish order => listing o order
  | _ => True
  end.

Inductive uses : list outbox_event -> toolsChangedOutbox -> toolsChangedOutbox -> Prop :=
| uses_nil o : uses [] o o
| uses_cons e es o o1 o2 : fair o e -> run_event o e = Some (Ok o1) -> uses es o1 o2 -> uses (e :: es) o o2.

Definition keeps_notices (e : outbox_event) : bool := match e with CloseAll _ | Receive _ => false | _ => true end.

Lemma listing_in o order id d : listing o order -> (id, d) ∈ order -> streams o !! id = Some d.
Proof. intros Hp Hin. apply elem_of_map_to_list. by rewrite <- Hp. Qed.

Lemma receive_inv o c o' b : outbox_inv o -> receive o c = Some (o', b) -> outbox_inv o'.
Proof.
  intros [Hi Hcl] E. unfold receive in E. destruct (buffered (get_chan o c)) eqn:Eb.
  - destruct (open (get_chan o c)); [done|]. by injection E as <- _.
  - injection E as <- _. split; [|done]. destruct Hi as [Ho Hj Hch]. assert (c < next_chan o)%nat as Hlt.
    { destruct (Nat.lt_ge_cases c (next_chan o)) as [|Hge]; [done|]. unfold get_chan in Eb. by rewrite (Hch c Hge) in Eb. }
    destruct (open (get_chan o c)) eqn:Eo; [by apply set_chan_inv; [split| |left]|]. apply set_chan_inv; [by split|done|].
    right. intros id Hid. destruct (Ho id c Hid) as [_ H]. by rewrite Eo in H.
Qed.

(** No event faults, and only a read or the closing of the outbox takes a notice away. *)
Lemma run_event_ok o e r : outbox_inv o -> fair o e -> run_event o e = Some r ->
  exists o', r = Ok o' /\ outbox_inv o' /\ (keeps_notices e = true -> closed o' = closed o /\ (unread o -> unread o')).
Proof.
  intros Hi Hf E. destruct e as [|c order|order|order|c]; cbn in E, Hf.
  - destruct (closed o) eqn:Ecl.
    + unfold openStream in E. rewrite Ecl in E. injection E as <-. cbn. exists o. auto.
    + destruct (openStream_ok o Hi Ecl) as (o' & Eo & H1 & H2 & H3 & _). rewrite Eo in E. injection E as <-. exists o'. cbn. rewrite H3. auto.
  - destruct (closeStream_ok o c order Hi) as (o' & Eo & H1 & H2 & H3); [by intros; eapply listing_in|]. rewrite Eo in E. injection E as <-. exists o'. auto.
  - destruct (closeOutbox_ok o order Hi Hf) as (o' & Eo & H1 & _). rewrite Eo in E. injection E as <-. by exists o'.
  - destruct (publish_ok o order Hi) as (o' & Eo & H1 & H2 & H3); [by intros; eapply listing_in|]. rewrite Eo in E. injection E as <-. exists o'. cbn.
    split; [done|]. split; [done|]. intros _. split; [done|]. intros Hu. destruct (closed o) eqn:Ecl; [|auto].
    unfold publishToolsChanged in Eo. rewrite Ecl in Eo. by injection Eo as <-.
  - destruct (receive o c) as [[o' b]|] eqn:Er; [|done]. injection E as <-. exists o'. split; [done|]. split; [by eapply receive_inv|done].
Qed.

Lemma uses_inv es o o' : uses es o o' -> outbox_inv o -> outbox_inv o' /\
  (forallb keeps_notices es = true -> closed o' = closed o /\ (unread o -> unread o')).
Proof.
  induction 1 as [|e es o o1 o2 Hf E Hr IH]; [done|]. intros Hi. destruct (run_event_ok o e _ Hi Hf E) as (o1' & [= <-] & H1 & H2).
  destruct (IH H1) as [H3 H4]. split; [done|]. cbn. rewrite andb_true_iff. intros [Hk Hks]. destruct (H2 Hk), (H4 Hks). split; [congruence|auto].
Qed.


