(* ===== verification/Sessions.v ===== *)
(** * Sessions of agents (src/internal/server/session.go, session_store.go, session_inflight.go,
      and the listens of listen.go)

    A session is an object in a heap; the store maps ids to addresses.  Connections and
    cancel functions are numbers: what the code calls is in the result.  Times are
    nanoseconds. *)
From S2P Require Import Prelude GoStr GoStd Threads Config ToolsChanged.

Record Session : Type := {
  projections : gmap string (option ProjectionConfig);
  conns : gmap string nat;
  lastUsed : Z;
  activeCalls : Z;
  toolsChanged : toolsChangedOutbox;
  inFlight : gmap string nat;
  initDone : bool; initAbort : bool;
  clientReady : bool; httpSession : bool; modern : bool;
  listens : gmap string nat; listenTools : gmap string bool;
  totalCalls : Z; totalErrors : Z; totalLatencyMs : Z; estTokensSaved : Z
}.

Definition newSession (now : Z) : Session :=
  {| projections := ∅; conns := ∅; lastUsed := now; activeCalls := 0; toolsChanged := newToolsChangedOutbox; inFlight := ∅;
     initDone := false; initAbort := false; clientReady := false; httpSession := false; modern := false;
     listens := ∅; listenTools := ∅; totalCalls := 0; totalErrors := 0; totalLatencyMs := 0; estTokensSaved := 0 |}.

(** ** What changes *)
Definition with_use (s : Session) (calls now : Z) : Session :=
  {| projections := projections s; conns := conns s; lastUsed := now; activeCalls := calls; toolsChanged := toolsChanged s; inFlight := inFlight s;
     initDone := initDone s; initAbort := initAbort s; clientReady := clientReady s; httpSession := httpSession s; modern := modern s;
     listens := listens s; listenTools := listenTools s;
     totalCalls := totalCalls s; totalErrors := totalErrors s; totalLatencyMs := totalLatencyMs s; estTokensSaved := estTokensSaved s |}.
Definition with_init (s : Session) (done abort ready : bool) : Session :=
  {| projections := projections s; conns := conns s; lastUsed := lastUsed s; activeCalls := activeCalls s; toolsChanged := toolsChanged s; inFlight := inFlight s;
     initDone := done; initAbort := abort; clientReady := ready; httpSession := httpSession s; modern := modern s;
     listens := listens s; listenTools := listenTools s;
     totalCalls := totalCalls s; totalErrors := totalErrors s; totalLatencyMs := totalLatencyMs s; estTokensSaved := estTokensSaved s |}.
Definition with_conns (s : Session) (c : gmap string nat) : Session :=
  {| projections := projections s; conns := c; lastUsed := lastUsed s; activeCalls := activeCalls s; toolsChanged := toolsChanged s; inFlight := inFlight s;
     initDone := initDone s; initAbort := initAbort s; clientReady := clientReady s; httpSession := httpSession s; modern := modern s;
     listens := listens s; listenTools := listenTools s;
     totalCalls := totalCalls s; totalErrors := totalErrors s; totalLatencyMs := totalLatencyMs s; estTokensSaved := estTokensSaved s |}.
Definition with_outbox (s : Session) (o : toolsChangedOutbox) : Session :=
  {| projections := projections s; conns := conns s; lastUsed := lastUsed s; activeCalls := activeCalls s; toolsChanged := o; inFlight := inFlight s;
     initDone := initDone s; initAbort := initAbort s; clientReady := clientReady s; httpSession := httpSession s; modern := modern s;
     listens := listens s; listenTools := listenTools s;
     totalCalls := totalCalls s; totalErrors := totalErrors s; totalLatencyMs := totalLatencyMs s; estTokensSaved := estTokensSaved s |}.
Definition with_inFlight (s : Session) (m : gmap string nat) : Session :=
  {| projections := projections s; conns := conns s; lastUsed := lastUsed s; activeCalls := activeCalls s; toolsChanged := toolsChanged s; inFlight := m;
     initDone := initDone s; initAbort := initAbort s; clientReady := clientReady s; httpSession := httpSession s; modern := modern s;
     listens := listens s; listenTools := listenTools s;
     totalCalls := totalCalls s; totalErrors := totalErrors s; totalLatencyMs := totalLatencyMs s; estTokensSaved := estTokensSaved s |}.
Definition with_listens (s : Session) (l : gmap string nat) (t : gmap string bool) : Session :=
  {| projections := projections s; conns := conns s; lastUsed := lastUsed s; activeCalls := activeCalls s; toolsChanged := toolsChanged s; inFlight := inFlight s;
     initDone := initDone s; initAbort := initAbort s; clientReady := clientReady s; httpSession := httpSession s; modern := modern s;
     listens := l; listenTools := t;
     totalCalls := totalCalls s; totalErrors := totalErrors s; totalLatencyMs := totalLatencyMs s; estTokensSaved := estTokensSaved s |}.
Definition with_totals (s : Session) (calls errors latency saved : Z) : Session :=
  {| projections := projections s; conns := conns s; lastUsed := lastUsed s; activeCalls := activeCalls s; toolsChanged := toolsChanged s; inFlight := inFlight s;
     initDone := initDone s; initAbort := initAbort s; clientReady := clientReady s; httpSession := httpSession s; modern := modern s;
     listens := listens s; listenTools := listenTools s;
     totalCalls := calls; totalErrors := errors; totalLatencyMs := latency; estTokensSaved := saved |}.
Definition with_projections (s : Session) (p : gmap string (option ProjectionConfig)) (now : Z) : Session :=
  {| projections := p; conns := conns s; lastUsed := now; activeCalls := activeCalls s; toolsChanged := toolsChanged s; inFlight := inFlight s;
     initDone := initDone s; initAbort := initAbort s; clientReady := clientReady s; httpSession := httpSession s; modern := modern s;
     listens := listens s; listenTools := listenTools s;
     totalCalls := totalCalls s; totalErrors := totalErrors s; totalLatencyMs := totalLatencyMs s; estTokensSaved := estTokensSaved s |}.
Definition with_era (s : Session) (http m : bool) : Session :=
  {| projections := projections s; conns := conns s; lastUsed := lastUsed s; activeCalls := activeCalls s; toolsChanged := toolsChanged s; inFlight := inFlight s;
     initDone := initDone s; initAbort := initAbort s; clientReady := clientReady s; httpSession := http; modern := m;
     listens := listens s; listenTools := listenTools s;
     totalCalls := totalCalls s; totalErrors := totalErrors s; totalLatencyMs := totalLatencyMs s; estTokensSaved := estTokensSaved s |}.

(** ** The initialization gate *)
Definition markInitialized (s : Session) : Session := with_init s true (initAbort s) (clientReady s).
Definition markClientReady (s : Session) : Session := with_init s (initDone s) (initAbort s) (initDone s || clientReady s).

(** [cancelListens]: the cancel functions called, in the order of the map. *)
Definition cancelListens (s : Session) : Session * list nat :=
  (with_listens s ∅ ∅, map snd (map_to_list (listens s))).

Definition markAborted (s : Session) : Session * list nat :=
  cancelListens (with_init s (initDone s) true (clientReady s)).

(** [waitInitialized]: the answers it may give, [ctx_done] telling whether the request was
    cancelled; none while it waits.  With the gate open both selects answer [true]. *)
Definition waitInitialized (s : Session) (ctx_done : bool) : list bool :=
  if initDone s then [true] else if initAbort s || ctx_done then [false] else [].

(** ** Projections, use, totals *)
Definition SetProjection (s : Session) (tool : string) (p : option ProjectionConfig) (now : Z) : Session :=
  with_projections s (<[tool := p]> (projections s)) now.
Definition Projection (s : Session) (tool : string) : option ProjectionConfig := default None (projections s !! tool).

Definition touch (s : Session) (now : Z) : Session := with_use s (activeCalls s) now.
Definition beginCall (s : Session) (now : Z) : Session := with_use s (activeCalls s + 1) now.
Definition endCall (s : Session) (now : Z) : Session := with_use s (activeCalls s - 1) now.

Definition recordCall (s : Session) (latencyMs tokensSaved : Z) (isErr : bool) : Session :=
  with_totals s (wrap64 (totalCalls s + 1)) (if isErr then wrap64 (totalErrors s + 1) else totalErrors s)
    (wrap64 (totalLatencyMs s + latencyMs)) (wrap64 (estTokensSaved s + tokensSaved)).

(** The part of [idleDuration] under the session's mutex, after [hasOpenStream] said no. *)
Definition idle_locked (s : Session) (deadline now : Z) : option Z :=
  if negb (activeCalls s =? 0) then None
  else if negb (lastUsed s <? deadline) then None
  else Some (now - lastUsed s).
Definition idleDuration (s : Session) (deadline now : Z) : option Z :=
  if hasOpenStream (toolsChanged s) then None else idle_locked s deadline now.

(** ** Requests in flight and listens *)
Definition registerInFlight (s : Session) (id : string) (cancel : nat) : Session := with_inFlight s (<[id := cancel]> (inFlight s)).
Definition removeInFlight (s : Session) (id : string) : Session := with_inFlight s (delete id (inFlight s)).
Definition cancelInFlight (s : Session) (id : string) : option nat := inFlight s !! id.

Definition acknowledgeListen (s : Session) (id : string) (toolsListChanged : bool) (cancel : nat) : Session :=
  with_listens s (<[id := cancel]> (listens s)) (<[id := toolsListChanged]> (listenTools s)).
Definition removeListen (s : Session) (id : string) : Session := with_listens s (delete id (listens s)) (delete id (listenTools s)).

(** The listens a change is written to, in the order of the map. *)
Definition writeTaggedToolsChanged (s : Session) : list string :=
  map fst (List.filter snd (map_to_list (listenTools s))).

Definition notifyToolsChanged (s : Session) (order : list (Z * nat)) : res fault Session :=
  if clientReady s then let* '(o, _) := publishToolsChanged (toolsChanged s) order in Ok (with_outbox s o) else Ok s.

(** [Close]: the listens cancelled and the connections closed, then the streams. *)
Definition close_conns (s : Session) : Session * list nat := (with_conns s ∅, map snd (map_to_list (conns s))).
Definition Close (s : Session) (order : list (Z * nat)) : res fault (Session * (list nat * list nat)) :=
  let '(s, cancelled) := cancelListens s in
  let '(s, closed) := close_conns s in
  let* o := closeOutbox (toolsChanged s) order in
  Ok (with_outbox s o, (cancelled, closed)).

(** ** The store *)
Record sessionStore : Type := { sessions : gmap string nat; heap : gmap nat Session; next_session : nat }.

Definition newSessionStore : sessionStore := {| sessions := ∅; heap := ∅; next_session := 0 |}.
Definition at_addr (st : sessionStore) (a : nat) : Session := default (newSession 0) (heap st !! a).
#[local] Arguments at_addr : simpl never.
Definition put (st : sessionStore) (a : nat) (s : Session) : sessionStore :=
  {| sessions := sessions st; heap := <[a := s]> (heap st); next_session := next_session st |}.
Definition with_sessions (st : sessionStore) (m : gmap string nat) : sessionStore :=
  {| sessions := m; heap := heap st; next_session := next_session st |}.

Definition getOrCreateLocked (st : sessionStore) (id : string) (now : Z) : sessionStore * nat * bool :=
  match sessions st !! id with
  | Some a => (st, a, true)
  | None =>
      ({| sessions := <[id := next_session st]> (sessions st); heap := <[next_session st := newSession now]> (heap st);
          next_session := S (next_session st) |}, next_session st, false)
  end.
Definition getOrCreate (st : sessionStore) (id : string) (now : Z) : sessionStore * nat :=
  let '(st, a, _) := getOrCreateLocked st id now in (put st a (touch (at_addr st a) now), a).
Definition acquire (st : sessionStore) (id : string) (now : Z) : sessionStore * nat :=
  let '(st, a, _) := getOrCreateLocked st id now in (put st a (beginCall (at_addr st a) now), a).
Definition release (st : sessionStore) (a : nat) (now : Z) : sessionStore := put st a (endCall (at_addr st a) now).
Definition get (st : sessionStore) (id : string) : option nat := sessions st !! id.
Definition delete_locked (st : sessionStore) (id : string) : sessionStore * option nat :=
  (with_sessions st (delete id (sessions st)), sessions st !! id).
Definition closeAll_locked (st : sessionStore) : sessionStore * list nat :=
  (with_sessions st ∅, map snd (map_to_list (sessions st))).
Definition count_sessions (st : sessionStore) : Z := Z.of_nat (size (sessions st)).
Definition snapshotSessions (st : sessionStore) : list nat := map snd (map_to_list (sessions st)).

(** [collectIdleSessions] at one entry of the map, both parts of [idleDuration] apart. *)
Definition stream_blocks (st : sessionStore) (a : nat) : bool := hasOpenStream (toolsChanged (at_addr st a)).
Definition collect_one (st : sessionStore) (id : string) (a : nat) (deadline now : Z) : sessionStore * option Z :=
  match idle_locked (at_addr st a) deadline now with
  | Some d => (with_sessions st (delete id (sessions st)), Some d)
  | None => (st, None)
  end.

(** ** Metrics *)
Record sessionMetrics : Type := { calls : Z; errors : Z; latencyMs : Z; tokensSaved : Z }.
Definition sumSessionMetrics (l : list Session) : sessionMetrics :=
  foldl (fun m s => {| calls := wrap64 (calls m + totalCalls s); errors := wrap64 (errors m + totalErrors s);
                       latencyMs := wrap64 (latencyMs m + totalLatencyMs s); tokensSaved := wrap64 (tokensSaved m + estTokensSaved s) |})
        {| calls := 0; errors := 0; latencyMs := 0; tokensSaved := 0 |} l.
(** Active sessions, calls, errors, tokens saved and the average latency, if there were calls. *)
Definition aggregateMetrics (st : sessionStore) : Z * Z * Z * Z * option Z :=
  let l := map (at_addr st) (snapshotSessions st) in
  let m := sumSessionMetrics l in
  (Z.of_nat (List.length l), calls m, errors m, tokensSaved m,
   if 0 <? calls m then Some (Z.quot (latencyMs m) (calls m)) else None).

(** ** Operations of one session, as they interleave *)
Inductive session_op : Session -> Session -> Prop :=
| OpInitialized s : session_op s (markInitialized s)
| OpClientReady s : session_op s (markClientReady s)
| OpAborted s : session_op s (fst (markAborted s))
| OpProjection s tool p now : session_op s (SetProjection s tool p now)
| OpTouch s now : session_op s (touch s now)
| OpRecord s l t e : session_op s (recordCall s l t e)
| OpConns s c : session_op s (with_conns s c)
| OpRegister s id c : session_op s (registerInFlight s id c)
| OpRemove s id : session_op s (removeInFlight s id)
| OpListen s id b c : session_op s (acknowledgeListen s id b c)
| OpUnlisten s id : session_op s (removeListen s id)
| OpNotify s order s' : listing (toolsChanged s) order -> notifyToolsChanged s order = Ok s' -> session_op s s'
| OpOpen s o c : openStream (toolsChanged s) = Ok (o, c) -> session_op s (with_outbox s o)
| OpCloseStream s o c order : listing (toolsChanged s) order -> closeStream (toolsChanged s) c order = Ok o -> session_op s (with_outbox s o)
| OpReceive s o c b : receive (toolsChanged s) c = Some (o, b) -> session_op s (with_outbox s o).

(** An eviction in progress, with the store's mutex: the entries left to look at, whether the
    head has passed the check of its streams, and the sessions taken out. *)
Record collector : Type := { deadline : Z; todo : list (string * nat); checked : bool; found : list nat }.

Record eviction : Type := { e_addr : nat; e_deadline : Z; e_lastUsed : Z }.

(** [in_calls]: the calls between [acquire] and [endCall], by session.  [evictions] and
    [dropped] are history: who took a session out of the table. *)
Record world : Type := {
  store : sessionStore; in_calls : list nat; collecting : option collector; closing : list nat;
  evictions : list eviction; dropped : list nat
}.

Definition initial : world :=
  {| store := newSessionStore; in_calls := []; collecting := None; closing := []; evictions := []; dropped := [] |}.

Definition with_store (w : world) (st : sessionStore) : world :=
  {| store := st; in_calls := in_calls w; collecting := collecting w; closing := closing w; evictions := evictions w; dropped := dropped w |}.
Definition with_calls (w : world) (c : list nat) : world :=
  {| store := store w; in_calls := c; collecting := collecting w; closing := closing w; evictions := evictions w; dropped := dropped w |}.
Definition with_collector (w : world) (c : option collector) : world :=
  {| store := store w; in_calls := in_calls w; collecting := c; closing := closing w; evictions := evictions w; dropped := dropped w |}.
Definition with_closing (w : world) (c : list nat) : world :=
  {| store := store w; in_calls := in_calls w; collecting := collecting w; closing := c; evictions := evictions w; dropped := dropped w |}.
Definition drop_sessions (w : world) (l : list nat) : world :=
  {| store := store w; in_calls := in_calls w; collecting := collecting w; closing := l ++ closing w; evictions := evictions w; dropped := l ++ dropped w |}.
Definition evict (w : world) (e : eviction) : world :=
  {| store := store w; in_calls := in_calls w; collecting := collecting w; closing := closing w; evictions := e :: evictions w; dropped := dropped w |}.

Inductive step : world -> world -> Prop :=
| SAcquire w id now st a : collecting w = None -> acquire (store w) id now = (st, a) ->
    step w (with_calls (with_store w st) (a :: in_calls w))
| SRelease w l a r now : in_calls w = l ++ a :: r -> step w (with_calls (with_store w (release (store w) a now)) (l ++ r))
| SCreate w id now st a : collecting w = None -> getOrCreate (store w) id now = (st, a) -> step w (with_store w st)
| SOp w a s' : (a < next_session (store w))%nat -> session_op (at_addr (store w) a) s' -> step w (with_store w (put (store w) a s'))
| SDelete w id st s : collecting w = None -> delete_locked (store w) id = (st, s) ->
    step w (drop_sessions (with_store w st) (match s with Some a => [a] | None => [] end))
| SCloseAll w st l : collecting w = None -> closeAll_locked (store w) = (st, l) -> step w (drop_sessions (with_store w st) l)
| SCollect w dl order : collecting w = None -> Permutation order (map_to_list (sessions (store w))) ->
    step w (with_collector w (Some {| deadline := dl; todo := order; checked := false; found := [] |}))
| SStream w dl id a l f : collecting w = Some {| deadline := dl; todo := (id, a) :: l; checked := false; found := f |} ->
    step w (with_collector w (Some (if stream_blocks (store w) a
      then {| deadline := dl; todo := l; checked := false; found := f |}
      else {| deadline := dl; todo := (id, a) :: l; checked := true; found := f |})))
| SBusy w dl id a l f now : collecting w = Some {| deadline := dl; todo := (id, a) :: l; checked := true; found := f |} ->
    collect_one (store w) id a dl now = (store w, None) ->
    step w (with_collector w (Some {| deadline := dl; todo := l; checked := false; found := f |}))
| SEvict w dl id a l f now st d : collecting w = Some {| deadline := dl; todo := (id, a) :: l; checked := true; found := f |} ->
    collect_one (store w) id a dl now = (st, Some d) ->
    step w (evict (with_collector (with_store w st) (Some {| deadline := dl; todo := l; checked := false; found := f ++ [a] |}))
              {| e_addr := a; e_deadline := dl; e_lastUsed := lastUsed (at_addr (store w) a) |})
| SCollected w dl f : collecting w = Some {| deadline := dl; todo := []; checked := false; found := f |} ->
    step w (with_closing (with_collector w None) (f ++ closing w))
| SClose w l a r order s' x : closing w = l ++ a :: r -> listing (toolsChanged (at_addr (store w) a)) order ->
    Close (at_addr (store w) a) order = Ok (s', x) ->
    step w (with_closing (with_store w (put (store w) a s')) (l ++ r)).

(** ** Invariant *)
Definition in_table (st : sessionStore) (a : nat) : Prop := exists id, sessions st !! id = Some a.
Definition shut (st : sessionStore) (a : nat) : Prop := closed (toolsChanged (at_addr st a)) = true.
Definition evicted (w : world) (a : nat) : Prop := exists e, e ∈ evictions w /\ e_addr e = a.

Record inv (w : world) : Prop := {
  i_calls : forall a, (a < next_session (store w))%nat -> activeCalls (at_addr (store w) a) = count (Nat.eqb a) (in_calls w);
  i_called : forall a, a ∈ in_calls w -> (a < next_session (store w))%nat;
  i_table : forall id a, sessions (store w) !! id = Some a -> (a < next_session (store w))%nat;
  i_inj : forall i j a, sessions (store w) !! i = Some a -> sessions (store w) !! j = Some a -> i = j;
  i_evicted : forall a, evicted w a -> (a < next_session (store w))%nat /\ ~ in_table (store w) a /\ a ∉ in_calls w;
  i_dropped : forall a, a ∈ dropped w -> (a < next_session (store w))%nat /\ ~ in_table (store w) a;
  i_shut : forall a, (a < next_session (store w))%nat -> shut (store w) a -> evicted w a \/ a ∈ dropped w;
  i_closing : forall a, a ∈ closing w -> evicted w a \/ a ∈ dropped w;
  i_collector : forall c, collecting w = Some c ->
    NoDup (map fst (todo c)) /\ (forall id a, (id, a) ∈ todo c -> sessions (store w) !! id = Some a) /\ (forall a, a ∈ found c -> evicted w a);
  i_idle : forall e, e ∈ evictions w -> e_lastUsed e < e_deadline e
}.

(** An operation of a session neither starts nor ends a call, nor closes the outbox. *)
Lemma session_op_keeps s s' : session_op s s' -> activeCalls s' = activeCalls s /\ closed (toolsChanged s') = closed (toolsChanged s).
Proof.
  intros H. destruct H as [| | | | | | | | | | |s order s' Hl E|s o c E|s o c order Hl E|s o c b E]; try done.
  - unfold notifyToolsChanged in E. destruct (clientReady s); [|by injection E as <-].
    apply rbind_Ok in E as ([o b] & E & [= <-]). split; [done|]. cbn.
    unfold publishToolsChanged in E. destruct (closed (toolsChanged s)) eqn:Ec; [by injection E as <- _|].
    destruct (bool_decide _); [by injection E as <- _|]. clear Hl. revert E. induction order as [|[i d] order IH]; cbn [publish_first]; [by intros [= <- _]|].
    intros ([o1 sent] & E1 & E)%rbind_Ok. destruct sent; [|by apply IH]. injection E as <- _.
    unfold try_send in E1. destruct (negb _); [done|]. destruct (Nat.ltb _ _); [|done]. by injection E1 as <-.
  - split; [done|]. cbn. unfold openStream in E. destruct (closed (toolsChanged s)) eqn:Ec; [by injection E as <- _|].
    destruct (pending _); [|by injection E as <- _]. apply rbind_Ok in E as (o1 & E1 & [= <- _]). unfold send in E1.
    apply rbind_Ok in E1 as ([o2 sent] & E1 & E2). destruct sent; [|done]. injection E2 as <-. unfold try_send in E1.
    destruct (negb _); [done|]. destruct (Nat.ltb _ _); [|done]. by injection E1 as <-.
  - split; [done|]. cbn. clear Hl. unfold closeStream in E. revert E. induction order as [|[i d] order IH]; cbn [close_first]; [by intros [= <-]|].
    destruct (Nat.eqb d c); [|done]. unfold close_chan. destruct (open _); [|done]. by intros [= <-].
  - split; [done|]. cbn. unfold receive in E. destruct (buffered _); [|by injection E as <- _]. destruct (open _); [done|by injection E as <- _].
Qed.

Lemma Close_keeps s order s' x : Close s order = Ok (s', x) -> activeCalls s' = activeCalls s.
Proof. unfold Close. cbn. intros (o & _ & [= <- _])%rbind_Ok. done. Qed.

Lemma at_put_eq st a s : at_addr (put st a s) a = s.
Proof. unfold at_addr, put. cbn. by rewrite lookup_insert_eq. Qed.
Lemma at_put_ne st a b s : a <> b -> at_addr (put st a s) b = at_addr st b.
Proof. intros H. unfold at_addr, put. cbn. by rewrite lookup_insert_ne. Qed.

(** A session of the heap changes in place. *)
Lemma put_inv w a s l :
  inv w -> (a < next_session (store w))%nat ->
  activeCalls s = count (Nat.eqb a) l ->
  (forall b, b <> a -> count (Nat.eqb b) l = count (Nat.eqb b) (in_calls w)) ->
  (forall b, b ∈ l -> b ∈ in_calls w \/ in_table (store w) b) ->
  (closed (toolsChanged s) = true -> shut (store w) a \/ evicted w a \/ a ∈ dropped w) ->
  inv (with_calls (with_store w (put (store w) a s)) l).
Proof.
  intros [Hc Hcd Ht Hi He Hd Hs Hcl Hco Hid] Hlt Hs1 Hs2 Hs3 Hs4. split; cbn; try done.
  - intros b Hb. destruct (decide (a = b)) as [->|Hne]; [by rewrite at_put_eq|]. rewrite at_put_ne by done. rewrite Hs2 by done. by apply Hc.
  - intros b [?|[id Hid']]%Hs3; [by apply Hcd|by eapply Ht].
  - intros b Hev. destruct (He b Hev) as (H1 & H2 & H3). split; [done|]. split; [done|]. intros [?|?]%Hs3; done.
  - intros b Hb. unfold shut. cbn. destruct (decide (a = b)) as [->|Hne].
    + rewrite at_put_eq. intros [?|?]%Hs4; [by apply Hs|done].
    + rewrite at_put_ne by done. by apply Hs.
Qed.

(** Looking an id up adds at most a fresh session to the table. *)
Lemma create_inv w id now st a b : inv w -> collecting w = None -> getOrCreateLocked (store w) id now = (st, a, b) ->
  inv (with_store w st) /\ sessions st !! id = Some a.
Proof.
  intros Hi Hn E. unfold getOrCreateLocked in E. destruct (sessions (store w) !! id) as [a'|] eqn:El.
  { injection E as <- <- <-. by destruct w. }
  injection E as <- <- <-. destruct Hi as [Hc Hcd Ht Hj He Hd Hs Hcl Hco Hid]. split; [|by cbn; rewrite lookup_insert_eq].
  assert (forall x, in_table (store w) x -> x <> next_session (store w)) as Hfresh.
  { intros x [i Hx]. specialize (Ht i x Hx). lia. }
  assert (forall x, (x < next_session (store w))%nat ->
    at_addr {| sessions := <[id:=next_session (store w)]> (sessions (store w)); heap := <[next_session (store w) := newSession now]> (heap (store w)); next_session := S (next_session (store w)) |} x
    = at_addr (store w) x) as Hat.
  { intros x Hx. unfold at_addr. cbn. rewrite lookup_insert_ne by lia. done. }
  split; cbn; try done.
  - intros x Hx. destruct (decide (x = next_session (store w))) as [->|Hne].
    + unfold at_addr. cbn. rewrite lookup_insert_eq. cbn. symmetry. apply count_zero. intros y Hy%Hcd. apply Nat.eqb_neq. lia.
    + rewrite Hat by lia. apply Hc. lia.
  - intros x Hx%Hcd. lia.
  - intros i x. rewrite lookup_insert_Some. intros [[<- <-]|[_ Hx%Ht]]; lia.
  - intros i j x. rewrite !lookup_insert_Some. intros [[<- <-]|[Hi1 Hx]] [[<- E]|[Hj1 Hy]]; [done| | |by eapply Hj].
    + apply Ht in Hy. lia.
    + subst x. apply Ht in Hx. lia.
  - intros x Hx. destruct (He x Hx) as (H1 & H2 & H3). split; [lia|]. split; [|done]. intros [i Hi]. cbn in Hi.
    rewrite lookup_insert_Some in Hi. destruct Hi as [[_ <-]|[_ Hi]]; [lia|]. apply H2. by exists i.
  - intros x Hx. destruct (Hd x Hx) as (H1 & H2). split; [lia|]. intros [i Hi]. cbn in Hi.
    rewrite lookup_insert_Some in Hi. destruct Hi as [[_ <-]|[_ Hi]]; [lia|]. apply H2. by exists i.
  - intros x Hx. unfold shut. cbn. destruct (decide (x = next_session (store w))) as [->|Hne].
    + unfold at_addr. cbn. by rewrite lookup_insert_eq.
    + rewrite Hat by lia. apply Hs. lia.
  - intros c Hc'. by rewrite Hn in Hc'.
Qed.

(** Entries leave the table with the store's mutex held. *)
Lemma remove_inv w m l : inv w -> collecting w = None ->
  (forall id a, m !! id = Some a -> sessions (store w) !! id = Some a) ->
  (forall a, a ∈ l -> in_table (store w) a /\ forall id, m !! id <> Some a) ->
  inv (drop_sessions (with_store w (with_sessions (store w) m)) l).
Proof.
  intros [Hc Hcd Ht Hj He Hd Hs Hcl Hco Hid] Hn Hm Hl. split; cbn; try done.
  - intros id a Ha%Hm. by eapply Ht.
  - intros i j a Ha%Hm Hb%Hm. by eapply Hj.
  - intros a Ha. destruct (He a Ha) as (H1 & H2 & H3). split; [done|]. split; [|done]. intros [id Hid'%Hm]. apply H2. by exists id.
  - intros a [Ha|Ha]%elem_of_app.
    + destruct (Hl a Ha) as [[id Hid'] Hno]. split; [by eapply Ht|]. intros [i Hi]. by apply (Hno i).
    + destruct (Hd a Ha) as [H1 H2]. split; [done|]. intros [id Hid'%Hm]. apply H2. by exists id.
  - intros a Ha Hsh. destruct (Hs a Ha Hsh) as [?|?]; [by left|right]. apply elem_of_app. by right.
  - intros a [Ha|Ha]%elem_of_app; [right; apply elem_of_app; by left|]. destruct (Hcl a Ha) as [?|?]; [by left|right]. apply elem_of_app. by right.
  - intros c Hc'. by rewrite Hn in Hc'.
Qed.

Lemma collector_inv w c : inv w ->
  (forall c', c = Some c' -> NoDup (map fst (todo c')) /\ (forall id a, (id, a) ∈ todo c' -> sessions (store w) !! id = Some a) /\ (forall a, a ∈ found c' -> evicted w a)) ->
  inv (with_collector w c).
Proof. intros [Hc Hcd Ht Hj He Hd Hs Hcl Hco Hid] H. by split. Qed.

Lemma idle_inv s deadline now d : idle_locked s deadline now = Some d -> activeCalls s = 0 /\ lastUsed s < deadline.
Proof.
  unfold idle_locked. destruct (Z.eqb_spec (activeCalls s) 0); [|done]. destruct (Z.ltb_spec (lastUsed s) deadline); done.
Qed.

Lemma evict_inv w dl id a l f now st d : inv w ->
  collecting w = Some {| deadline := dl; todo := (id, a) :: l; checked := true; found := f |} ->
  collect_one (store w) id a dl now = (st, Some d) ->
  inv (evict (with_collector (with_store w st) (Some {| deadline := dl; todo := l; checked := false; found := f ++ [a] |}))
         {| e_addr := a; e_deadline := dl; e_lastUsed := lastUsed (at_addr (store w) a) |}).
Proof.
  intros [Hc Hcd Ht Hj He Hd Hs Hcl Hco Hid] Ec E. unfold collect_one in E. destruct (idle_locked _ _ _) as [d'|] eqn:Ei; [|done].
  injection E as <- <-. apply idle_inv in Ei as [Ha0 Hlast]. destruct (Hco _ Ec) as (Hnd & Htodo & Hfound). cbn in Hnd, Htodo, Hfound.
  assert (sessions (store w) !! id = Some a) as Hida by (apply Htodo; by left). apply NoDup_cons in Hnd as [Hni Hnd].
  assert (forall x, evicted w x \/ x = a <-> evicted (evict (with_collector (with_store w (with_sessions (store w) (delete id (sessions (store w)))))
     (Some {| deadline := dl; todo := l; checked := false; found := f ++ [a] |})) {| e_addr := a; e_deadline := dl; e_lastUsed := lastUsed (at_addr (store w) a) |}) x) as Hev.
  { intros x. split.
    - intros [(e & H1 & H2)| ->]; [exists e; split; [by right|done]|]. eexists. split; [by left|done].
    - intros (e & [->|H1]%elem_of_cons & H2); [by right|]. left. by exists e. }
  split; cbn; try done.
  - intros i x. rewrite lookup_delete_Some. intros [_ H]. by eapply Ht.
  - intros i j x. rewrite !lookup_delete_Some. intros [_ H1] [_ H2]. by eapply Hj.
  - intros x [Hx| ->]%Hev.
    + destruct (He x Hx) as (H1 & H2 & H3). split; [done|]. split; [|done]. intros [i Hi]. cbn in Hi. rewrite lookup_delete_Some in Hi. apply H2. exists i. by apply Hi.
    + split; [by eapply Ht|]. split.
      * intros [i Hi]. cbn in Hi. rewrite lookup_delete_Some in Hi. destruct Hi as [Hne Hi]. apply Hne. by eapply Hj.
      * intros Hin. pose proof (Hc a (Ht _ _ Hida)) as Hz. rewrite Ha0 in Hz. symmetry in Hz. apply (count_zero_inv _ _ a) in Hz; [|done]. by rewrite Nat.eqb_refl in Hz.
  - intros x Hx. destruct (Hd x Hx) as (H1 & H2). split; [done|]. intros [i Hi]. cbn in Hi. rewrite lookup_delete_Some in Hi. apply H2. exists i. by apply Hi.
  - intros x Hx Hsh. destruct (Hs x Hx Hsh) as [?|?]; [left; apply Hev; by left|by right].
  - intros x Hx. destruct (Hcl x Hx) as [?|?]; [left; apply Hev; by left|by right].
  - intros c [= <-]. cbn. split; [done|]. split.
    + intros i x Hin. rewrite lookup_delete_ne; [apply Htodo; by right|]. intros <-. apply Hni. apply list_elem_of_fmap. by exists (id, x).
    + intros x [Hx|Hx]%elem_of_app; [apply Hev; left; by apply Hfound|]. apply list_elem_of_singleton in Hx as ->. apply Hev. by right.
  - intros e [->|Hin]%elem_of_cons; [done|by apply Hid].
Qed.

Lemma count_self a l : count (Nat.eqb a) (a :: l) = count (Nat.eqb a) l + 1.
Proof. rewrite count_cons, Nat.eqb_refl. simpl. lia. Qed.
Lemma count_other a b l : a <> b -> count (Nat.eqb b) (a :: l) = count (Nat.eqb b) l.
Proof. intros H. rewrite count_cons, (proj2 (Nat.eqb_neq b a)) by congruence. done. Qed.

Lemma store_step_inv w w' : step w w' -> inv w -> inv w'.
Proof.
  intros Hs Hi. destruct Hs as [w id now st a Hn E|w l a r now E|w id now st a Hn E|w a s' Hlt Hop|w id st s Hn E|w st l Hn E|w dl order Hn Hp
    |w dl id a l f Ec|w dl id a l f now Ec E|w dl id a l f now st d Ec E|w dl f Ec|w l a r order s' x E Hl Ecl].
  - unfold acquire in E. destruct (getOrCreateLocked (store w) id now) as [[st1 a1] b] eqn:E1. injection E as <- <-.
    destruct (create_inv _ _ _ _ _ _ Hi Hn E1) as [Hi1 Ha]. pose proof (i_table _ Hi1 _ _ Ha) as Hlt.
    refine (put_inv (with_store w st1) a1 _ (a1 :: in_calls w) Hi1 Hlt _ _ _ _); cbn.
    + pose proof (i_calls _ Hi1 a1 Hlt) as Hc. cbn in Hc. rewrite count_self. lia.
    + intros b' Hb. by rewrite count_other.
    + intros b' [->|?]%elem_of_cons; [right; by exists id|by left].
    + intros H. by left.
  - assert (a ∈ in_calls w) as Hin by (rewrite E; auto). pose proof (i_called _ Hi _ Hin) as Hlt.
    pose proof (i_calls _ Hi a Hlt) as Hc. rewrite E, count_middle, Nat.eqb_refl in Hc. apply put_inv; cbn; try done.
    + simpl in Hc. lia.
    + intros b Hb. rewrite E, count_middle, (proj2 (Nat.eqb_neq b a)) by done. simpl. lia.
    + intros b Hb. left. rewrite E. rewrite elem_of_app, elem_of_cons. apply elem_of_app in Hb. tauto.
    + by left.
  - unfold getOrCreate in E. destruct (getOrCreateLocked (store w) id now) as [[st1 a1] b] eqn:E1. injection E as <- <-.
    destruct (create_inv _ _ _ _ _ _ Hi Hn E1) as [Hi1 Ha]. pose proof (i_table _ Hi1 _ _ Ha) as Hlt.
    refine (put_inv (with_store w st1) a1 _ (in_calls w) Hi1 Hlt _ _ _ _); cbn; try done.
    + exact (i_calls _ Hi1 a1 Hlt).
    + auto.
    + intros H. by left.
  - destruct (session_op_keeps _ _ Hop) as [H1 H2]. refine (put_inv w a s' (in_calls w) Hi Hlt _ _ _ _); try done.
    + by rewrite H1, (i_calls _ Hi a Hlt).
    + auto.
    + rewrite H2. by left.
  - unfold delete_locked in E. injection E as <- <-. apply remove_inv; [done|done| |].
    + intros i a. rewrite lookup_delete_Some. by intros [_ ?].
    + intros a Ha. destruct (sessions (store w) !! id) as [a'|] eqn:El; [|by apply elem_of_nil in Ha]. apply list_elem_of_singleton in Ha as ->.
      split; [by exists id|]. intros i. rewrite lookup_delete_Some. intros [Hne H]. apply Hne. by eapply i_inj.
  - unfold closeAll_locked in E. injection E as <- <-. apply remove_inv; [done|done|done|]. intros a Ha. split; [|done].
    apply list_elem_of_fmap in Ha as ([i x] & -> & Hin). exists i. by apply elem_of_map_to_list in Hin.
  - apply collector_inv; [done|]. intros c [= <-]. cbn. split; [|split].
    + rewrite Hp. apply NoDup_fst_map_to_list.
    + intros i a. rewrite Hp. by rewrite elem_of_map_to_list.
    + intros a Ha. by apply elem_of_nil in Ha.
  - destruct (i_collector _ Hi _ Ec) as (H1 & H2 & H3). apply collector_inv; [done|]. intros c [= <-].
    destruct (stream_blocks _ _); cbn in *; [|done]. apply NoDup_cons in H1 as [_ H1]. split; [done|]. split; [|done]. intros i x Hx. apply H2. by right.
  - destruct (i_collector _ Hi _ Ec) as (H1 & H2 & H3). apply collector_inv; [done|]. intros c [= <-]. cbn in *.
    apply NoDup_cons in H1 as [_ H1]. split; [done|]. split; [|done]. intros i x Hx. apply H2. by right.
  - by eapply evict_inv.
  - destruct (i_collector _ Hi _ Ec) as (_ & _ & H3). destruct Hi as [Hc Hcd Ht Hj He Hd Hs Hcl Hco Hid]. split; cbn; try done.
    intros a [Ha|Ha]%elem_of_app; [left; by apply H3|by apply Hcl].
  - assert (evicted w a \/ a ∈ dropped w) as Hgone by (apply (i_closing _ Hi); rewrite E; auto).
    assert (a < next_session (store w))%nat as Hlt by (destruct Hgone as [H|H]; [by apply (i_evicted _ Hi)|by apply (i_dropped _ Hi)]).
    assert (inv (with_store w (put (store w) a s'))) as Hi'.
    { refine (put_inv w a s' (in_calls w) Hi Hlt _ _ _ _); try done; [|auto|auto]. rewrite (Close_keeps _ _ _ _ Ecl). by rewrite (i_calls _ Hi a Hlt). }
    destruct Hi' as [Hc Hcd Ht Hj He Hd Hs Hcl Hco Hid]. split; cbn in *; try done.
    intros b Hb. apply Hcl. rewrite E. rewrite elem_of_app, elem_of_cons. apply elem_of_app in Hb. tauto.
Qed.

Lemma store_initial_inv : inv initial.
Proof. split; cbn; try done; try (intros a [e [He _]]; by apply elem_of_nil in He); by intros ? ?%elem_of_nil. Qed.



(** ** The gate *)

(** Once open the gate stays open for every later request; an aborted session that was never
    initialized releases the requests that wait, with a refusal. *)
Lemma gate_stays_open s s' ctx_done : session_op s s' -> initDone s = true -> waitInitialized s' ctx_done = [true].
Proof.
  intros H Hd. unfold waitInitialized. assert (initDone s' = true) as ->; [|done].
  destruct H as [| | | | | | | | | | |s order s' Hl E| | |]; try done.
  unfold notifyToolsChanged in E. destruct (clientReady s); [|by injection E as <-]. apply rbind_Ok in E as ([o b] & _ & [= <-]). done.
Qed.

Lemma aborted_releases s ctx_done : waitInitialized (fst (markAborted s)) ctx_done = [initDone s].
Proof. unfold waitInitialized. cbn. by destruct (initDone s). Qed.
