(* ===== verification/SessionConns.v ===== *)
(** * Per-session connections (src/internal/server/dispatch.go and the connections of session.go)

    Each session dials its own connection to a server that asks for it.  Calls of one
    session race to dial, connections fail, servers are removed and the session is closed:
    all of this interleaves between the critical sections of [s.mu], [s.dialMu] and the
    mutex of a [dialOnce].  Connections and [dialOnce] objects are addresses. *)
From S2P Require Import Prelude Threads GoError.

Record dialOnce : Type := { d_server : string; d_conn : option nat; d_done : bool; d_locked : bool }.

Record session : Type := {
  conns : gmap string nat; dialMap : gmap string nat; dials : gmap nat dialOnce; next_dial : nat;
  live : gset nat; owner : gmap nat string; made : nat; registered : gset string
}.

Definition upd_conns (s : session) (m : gmap string nat) : session :=
  {| conns := m; dialMap := dialMap s; dials := dials s; next_dial := next_dial s; live := live s; owner := owner s; made := made s; registered := registered s |}.
Definition upd_dialMap (s : session) (m : gmap string nat) : session :=
  {| conns := conns s; dialMap := m; dials := dials s; next_dial := next_dial s; live := live s; owner := owner s; made := made s; registered := registered s |}.
Definition upd_dial (s : session) (d : nat) (x : dialOnce) : session :=
  {| conns := conns s; dialMap := dialMap s; dials := <[d := x]> (dials s); next_dial := next_dial s; live := live s; owner := owner s; made := made s; registered := registered s |}.
(** [conn.Close()]; closing again does nothing. *)
Definition close_conn (s : session) (c : nat) : session :=
  {| conns := conns s; dialMap := dialMap s; dials := dials s; next_dial := next_dial s; live := live s ∖ {[c]}; owner := owner s; made := made s; registered := registered s |}.
Definition upd_registered (s : session) (r : gset string) : session :=
  {| conns := conns s; dialMap := dialMap s; dials := dials s; next_dial := next_dial s; live := live s; owner := owner s; made := made s; registered := r |}.

Definition Conn (s : session) (serverName : string) : option nat := conns s !! serverName.

Definition getDialOnce (s : session) (serverName : string) : session * nat :=
  match dialMap s !! serverName with
  | Some d => (s, d)
  | None =>
      ({| conns := conns s; dialMap := <[serverName := next_dial s]> (dialMap s);
          dials := <[next_dial s := {| d_server := serverName; d_conn := None; d_done := false; d_locked := false |}]> (dials s);
          next_dial := S (next_dial s); live := live s; owner := owner s; made := made s; registered := registered s |}, next_dial s)
  end.

(** A connection comes up. *)
Definition dialled (s : session) (serverName : string) : session * nat :=
  ({| conns := conns s; dialMap := dialMap s; dials := dials s; next_dial := next_dial s;
      live := {[made s]} ∪ live s; owner := <[made s := serverName]> (owner s); made := S (made s); registered := registered s |}, made s).

Definition GetOrSetConn (s : session) (serverName : string) (conn : nat) : session * nat :=
  match conns s !! serverName with
  | Some existing => (close_conn s conn, existing)
  | None => (upd_conns s (<[serverName := conn]> (conns s)), conn)
  end.

(** [RemoveConn] and [EvictConn]: what runs under [s.mu]; the second part of both runs under [s.dialMu]. *)
Definition RemoveConn_take (s : session) (serverName : string) : session * option nat :=
  (upd_conns s (delete serverName (conns s)), conns s !! serverName).
Definition EvictConn_take (s : session) (serverName : string) (conn : nat) : session :=
  if bool_decide (conns s !! serverName = Some conn) then upd_conns s (delete serverName (conns s)) else s.
Definition forget_dial (s : session) (serverName : string) : session := upd_dialMap s (delete serverName (dialMap s)).

(** The connections part of [Session.Close]. *)
Definition close_all (s : session) : session :=
  {| conns := ∅; dialMap := dialMap s; dials := dials s; next_dial := next_dial s;
     live := live s ∖ list_to_set (map snd (map_to_list (conns s))); owner := owner s; made := made s; registered := registered s |}.

(** [handleSessionConnErr]: is the connection given up? *)
Definition drops_conn (err : go_error) : bool := negb (is_rpc_error err || is_context_error err).

(** ** Goroutines: a call through [getOrDialSessionConn], or the removal of a server *)
Inductive thread : Type :=
| Finished
| Start (n : string)
| Waiting (n : string) (d : nat)                 (* for the mutex of the dialOnce *)
| Locked (n : string) (d : nat)
| Dialing (n : string) (d : nat)
| Listing (n : string) (d : nat) (c : nat)
| Storing (n : string) (d : nat) (c : nat)       (* before GetOrSetConn *)
| Settling (n : string) (d : nat) (c : option nat) (* the dial returned: the outcome is recorded *)
| Checking (n : string) (c : nat)                (* checkDialedConn *)
| Calling (n : string) (c : nat)
| Evicting (n : string) (c : nat)                (* handleSessionConnErr *)
| Forgetting (n : string) (c : nat)
| Closing (n : string) (c : nat)
| Removing (n : string) (extra : option nat)     (* RemoveConn; [extra] is closed after it *)
| ClosingTaken (n : string) (taken : nat) (extra : option nat)
| ForgettingTaken (n : string) (extra : option nat)
| ClosingExtra (n : string) (c : nat).

Definition after_removal (n : string) (extra : option nat) : thread :=
  match extra with Some c => ClosingExtra n c | None => Finished end.

(** One step of one goroutine. *)
Inductive thread_step : session -> thread -> session -> thread -> Prop :=
| TConn s n c : Conn s n = Some c -> thread_step s (Start n) s (Calling n c)
| TMiss s n s' d : Conn s n = None -> getDialOnce s n = (s', d) -> thread_step s (Start n) s' (Waiting n d)
| TLock s n d x : dials s !! d = Some x -> d_locked x = false ->
    thread_step s (Waiting n d) (upd_dial s d {| d_server := d_server x; d_conn := d_conn x; d_done := d_done x; d_locked := true |}) (Locked n d)
| TDone s n d x c : dials s !! d = Some x -> d_done x = true -> d_conn x = Some c ->
    thread_step s (Locked n d) (upd_dial s d {| d_server := d_server x; d_conn := d_conn x; d_done := d_done x; d_locked := false |}) (Checking n c)
| TFound s n d x c : dials s !! d = Some x -> d_done x = false -> Conn s n = Some c -> thread_step s (Locked n d) s (Settling n d (Some c))
| TDial s n d x : dials s !! d = Some x -> d_done x = false -> Conn s n = None -> thread_step s (Locked n d) s (Dialing n d)
| TDialFails s n d : thread_step s (Dialing n d) s (Settling n d None)
| TDialled s n d s' c : dialled s n = (s', c) -> thread_step s (Dialing n d) s' (Listing n d c)
| TListFails s n d c : thread_step s (Listing n d c) (close_conn s c) (Settling n d None)
| TListed s n d c : thread_step s (Listing n d c) s (Storing n d c)
| TStored s n d c s' c' : GetOrSetConn s n c = (s', c') -> thread_step s (Storing n d c) s' (Settling n d (Some c'))
| TSettled s n d c x : dials s !! d = Some x ->
    thread_step s (Settling n d (Some c)) (upd_dial s d {| d_server := d_server x; d_conn := Some c; d_done := true; d_locked := false |}) (Checking n c)
| TFailed s n d x : dials s !! d = Some x ->
    thread_step s (Settling n d None) (upd_dial s d {| d_server := d_server x; d_conn := None; d_done := false; d_locked := false |}) Finished
| TRegistered s n c : n ∈ registered s -> thread_step s (Checking n c) s (Calling n c)
| TGone s n c : n ∉ registered s -> thread_step s (Checking n c) s (Removing n (Some c))
| TAnswer s n c err : match err with Some e => drops_conn e = false | None => True end -> thread_step s (Calling n c) s Finished
| TBroken s n c e : drops_conn e = true -> thread_step s (Calling n c) s (Evicting n c)
| TEvict s n c : thread_step s (Evicting n c) (EvictConn_take s n c) (Forgetting n c)
| TForget s n c : thread_step s (Forgetting n c) (forget_dial s n) (Closing n c)
| TClose s n c : thread_step s (Closing n c) (close_conn s c) Finished
| TTake s n extra s' c : RemoveConn_take s n = (s', Some c) -> thread_step s (Removing n extra) s' (ClosingTaken n c extra)
| TTakeNone s n extra s' : RemoveConn_take s n = (s', None) -> thread_step s (Removing n extra) s' (ForgettingTaken n extra)
| TCloseTaken s n c extra : thread_step s (ClosingTaken n c extra) (close_conn s c) (ForgettingTaken n extra)
| TForgetTaken s n extra : thread_step s (ForgettingTaken n extra) (forget_dial s n) (after_removal n extra)
| TCloseExtra s n c : thread_step s (ClosingExtra n c) (close_conn s c) Finished.

Record world : Type := { sess : session; threads : list thread }.

Inductive conns_step : world -> world -> Prop :=
| CSpawn s ts t : (exists n, t = Start n \/ t = Removing n None) -> conns_step {| sess := s; threads := ts |} {| sess := s; threads := t :: ts |}
| CThread s a t b s' t' : thread_step s t s' t' -> conns_step {| sess := s; threads := a ++ t :: b |} {| sess := s'; threads := a ++ t' :: b |}
| CRegistry s ts r : conns_step {| sess := s; threads := ts |} {| sess := upd_registered s r; threads := ts |}
| CCloseAll s ts : conns_step {| sess := s; threads := ts |} {| sess := close_all s; threads := ts |}.

Definition initial_conns (r : gset string) : world :=
  {| sess := {| conns := ∅; dialMap := ∅; dials := ∅; next_dial := 0; live := ∅; owner := ∅; made := 0; registered := r |}; threads := [] |}.

(** ** Invariant *)

(** The connection a goroutine must still store or close. *)
Definition obliged (t : thread) : option nat :=
  match t with
  | Listing _ _ c | Storing _ _ c | Evicting _ c | Forgetting _ c | Closing _ c | ClosingTaken _ c _ | ClosingExtra _ c => Some c
  | _ => None
  end.
(** The connections a goroutine knows, with the server it believes they lead to. *)
Definition knows (t : thread) : list (string * nat) :=
  match t with
  | Listing n _ c | Storing n _ c | Checking n c | Calling n c | Evicting n c | Forgetting n c | Closing n c | ClosingExtra n c => [(n, c)]
  | Settling n _ (Some c) | Removing n (Some c) | ForgettingTaken n (Some c) => [(n, c)]
  | ClosingTaken n c extra => (n, c) :: match extra with Some e => [(n, e)] | None => [] end
  | _ => []
  end.
(** The goroutine that holds the mutex of a [dialOnce], and the one it works through. *)
Definition holds_dial (d : nat) (t : thread) : bool :=
  match t with Locked _ e | Dialing _ e | Listing _ e _ | Storing _ e _ | Settling _ e _ => Nat.eqb e d | _ => false end.
Definition through (t : thread) : option (string * nat) :=
  match t with Waiting n d | Locked n d | Dialing n d | Listing n d _ | Storing n d _ | Settling n d _ => Some (n, d) | _ => None end.

Record conns_inv (w : world) : Prop := {
  c_live : forall c, c ∈ live (sess w) -> (exists n, conns (sess w) !! n = Some c) \/ exists t, t ∈ threads w /\ obliged t = Some c;
  c_made : forall c, (made (sess w) <= c)%nat -> owner (sess w) !! c = None;
  c_conns : forall n c, conns (sess w) !! n = Some c -> owner (sess w) !! c = Some n;
  c_knows : forall t n c, t ∈ threads w -> (n, c) ∈ knows t -> owner (sess w) !! c = Some n;
  c_dialMap : forall n d, dialMap (sess w) !! n = Some d -> exists x, dials (sess w) !! d = Some x /\ d_server x = n;
  c_dials : forall d x, dials (sess w) !! d = Some x -> (d < next_dial (sess w))%nat /\
    count (holds_dial d) (threads w) = b2z (d_locked x) /\ (forall c, d_conn x = Some c -> owner (sess w) !! c = Some (d_server x)) /\ (d_done x = true -> d_conn x <> None);
  c_through : forall t n d, t ∈ threads w -> through t = Some (n, d) -> exists x, dials (sess w) !! d = Some x /\ d_server x = n
}.

Lemma initial_conns_inv r : conns_inv (initial_conns r).
Proof. split; cbn; try done; set_solver. Qed.

Ltac cases_of H :=
  destruct H as [s n c E|s n s' d E E'|s n d x E E'|s n d x c E E' E''|s n d x c E E' E''|s n d x E E' E''|s n d|s n d s' c E|s n d c|s n d c
    |s n d c s' c' E|s n d c x E|s n d x E|s n c E|s n c E|s n c err E|s n c e E|s n c|s n c|s n c|s n extra s' c E|s n extra s' E|s n c extra|s n extra|s n c].

Ltac step_defs E :=
  first [ unfold GetOrSetConn in E; case_match | unfold RemoveConn_take in E | unfold getDialOnce in E; case_match | unfold dialled in E ]; injection E as <- <-.

(** What becomes of an open connection: it stays in the table, or the goroutine answers for it. *)
Lemma step_live s t s' t' k : thread_step s t s' t' -> k ∈ live s' ->
  (k ∈ live s \/ obliged t' = Some k) /\
  (forall m, conns s !! m = Some k -> (exists m, conns s' !! m = Some k) \/ obliged t' = Some k) /\
  (obliged t = Some k -> (exists m, conns s' !! m = Some k) \/ obliged t' = Some k).
Proof.
  intros H Hl. cases_of H; cbn in Hl |- *; try (split_and!; [by left|eauto|done]).
  - unfold getDialOnce in E'. case_match; injection E' as <- <-; cbn in *; (split_and!; [by left|eauto|done]).
  - unfold dialled in E. injection E as <- <-. cbn in *. apply elem_of_union in Hl as [->%elem_of_singleton|Hl]; (split_and!; [auto|eauto|done]).
  - split_and!; [left; set_solver|eauto|intros [= ->]; set_solver].
  - split_and!; [by left|eauto|auto].
  - unfold GetOrSetConn in E. case_match; injection E as <- <-; cbn in *.
    + split_and!; [left; set_solver|eauto|intros [= ->]; set_solver].
    + split_and!; [by left| |intros [= ->]; left; exists n; by rewrite lookup_insert_eq].
      intros m Hm. left. exists m. rewrite lookup_insert_ne; [done|]. congruence.
  - unfold EvictConn_take in *. case_bool_decide; cbn in *; (split_and!; [by left| |auto]); [|eauto]. intros m Hm.
    destruct (decide (m = n)) as [->|Hne]; [right; congruence|left; exists m; by rewrite lookup_delete_ne].
  - split_and!; [by left|eauto|auto].
  - split_and!; [left; set_solver|eauto|intros [= ->]; set_solver].
  - unfold RemoveConn_take in E. injection E as <- E. cbn in *. split_and!; [by left| |done]. intros m Hm.
    destruct (decide (m = n)) as [->|Hne]; [right; congruence|left; exists m; by rewrite lookup_delete_ne].
  - unfold RemoveConn_take in E. injection E as <- E. cbn in *. split_and!; [by left| |done]. intros m Hm. left. exists m. rewrite lookup_delete_ne; [done|]. congruence.
  - split_and!; [left; set_solver|eauto|intros [= ->]; set_solver].
  - split_and!; [left; set_solver|eauto|intros [= ->]; set_solver].
Qed.

(** The server a connection was dialled for never changes. *)
Lemma step_owner s t s' t' : thread_step s t s' t' -> (forall c, (made s <= c)%nat -> owner s !! c = None) ->
  (forall c n, owner s !! c = Some n -> owner s' !! c = Some n) /\ (forall c, (made s' <= c)%nat -> owner s' !! c = None).
Proof.
  intros H Hm. cases_of H; try done.
  - unfold getDialOnce in E'. case_match; injection E' as <- <-; done.
  - unfold dialled in E. injection E as <- <-. cbn. split.
    + intros c m Hc. rewrite lookup_insert_ne; [done|]. intros <-. by rewrite Hm in Hc.
    + intros c Hc. rewrite lookup_insert_ne by lia. apply Hm. lia.
  - unfold GetOrSetConn in E. case_match; injection E as <- <-; done.
  - unfold EvictConn_take. by case_bool_decide.
  - unfold RemoveConn_take in E. by injection E as <- _.
  - unfold RemoveConn_take in E. by injection E as <- _.
Qed.

(** The table only gains a connection its goroutine knows. *)
Lemma step_conns s t s' t' m k : thread_step s t s' t' -> conns s' !! m = Some k -> conns s !! m = Some k \/ (m, k) ∈ knows t.
Proof.
  intros H Hc. revert Hc. cases_of H; cbn; auto.
  - unfold getDialOnce in E'. case_match; injection E' as <- <-; auto.
  - unfold dialled in E. injection E as <- <-. auto.
  - unfold GetOrSetConn in E. case_match; injection E as <- <-; cbn; [auto|]. rewrite lookup_insert_Some. intros [[<- <-]|[_ ?]]; [right; by left|by left].
  - unfold EvictConn_take. case_bool_decide; cbn; [rewrite lookup_delete_Some; intros [_ ?]|]; auto.
  - unfold RemoveConn_take in E. injection E as <- _. cbn. rewrite lookup_delete_Some. intros [_ ?]; auto.
  - unfold RemoveConn_take in E. injection E as <- _. cbn. rewrite lookup_delete_Some. intros [_ ?]; auto.
Qed.

(** A goroutine only learns connections of the server it works for. *)
Lemma step_knows w a t b s' t' : conns_inv w -> threads w = a ++ t :: b -> thread_step (sess w) t s' t' ->
  forall n c, (n, c) ∈ knows t' -> owner s' !! c = Some n.
Proof.
  intros [_ Hm Hc Hk Hdm Hd Ht] Ew H. assert (forall n c, (n, c) ∈ knows t -> owner (sess w) !! c = Some n) as Hkt by (intros n c; apply Hk; rewrite Ew; auto).
  assert (forall n d, through t = Some (n, d) -> exists x, dials (sess w) !! d = Some x /\ d_server x = n) as Htt by (intros n d; apply Ht; rewrite Ew; auto).
  clear Hk Ht Ew. destruct w as [s0 ts]. cbn in *. intros m z.
  cases_of H; cbn in *; rewrite ?list_elem_of_singleton, ?elem_of_nil; try done.
  - intros [= -> ->]. by apply Hc.
  - intros [= -> ->]. destruct (Htt n d eq_refl) as (y & Hy & <-). rewrite E in Hy. injection Hy as <-. destruct (Hd d x E) as (_ & _ & H & _). by apply H.
  - intros [= -> ->]. by apply Hc.
  - unfold dialled in E. injection E as <- <-. cbn. intros [= -> ->]. by rewrite lookup_insert_eq.
  - intros [= -> ->]. apply Hkt. by left.
  - unfold GetOrSetConn in E. case_match; injection E as <- <-; cbn; intros [= -> ->]; [by apply Hc|apply Hkt; by left].
  - intros [= -> ->]. apply Hkt. by left.
  - intros [= -> ->]. apply Hkt. by left.
  - intros [= -> ->]. apply Hkt. by left.
  - intros [= -> ->]. apply Hkt. by left.
  - unfold EvictConn_take. case_bool_decide; cbn; intros [= -> ->]; apply Hkt; by left.
  - intros [= -> ->]. apply Hkt. by left.
  - unfold RemoveConn_take in E. injection E as <- E. cbn. intros [[= -> ->]|Hin]%elem_of_cons; [by apply Hc|].
    destruct extra as [e|]; [|by apply elem_of_nil in Hin]. apply Hkt. exact Hin.
  - unfold RemoveConn_take in E. injection E as <- E. cbn. destruct extra as [e|]; [|by intros ?%elem_of_nil]. intros Hin. by apply Hkt.
  - destruct extra as [e|]; [|by intros ?%elem_of_nil]. intros Hin. apply Hkt. right. exact Hin.
  - destruct extra as [e|]; cbn; [|by intros ?%elem_of_nil]. intros Hin. by apply Hkt.
Qed.

(** The part of the invariant about the [dialOnce] objects. *)
Record dials_inv (s : session) (ts : list thread) : Prop := {
  k_dialMap : forall n d, dialMap s !! n = Some d -> exists x, dials s !! d = Some x /\ d_server x = n;
  k_dials : forall d x, dials s !! d = Some x -> (d < next_dial s)%nat /\
    count (holds_dial d) ts = b2z (d_locked x) /\ (forall c, d_conn x = Some c -> owner s !! c = Some (d_server x)) /\ (d_done x = true -> d_conn x <> None);
  k_through : forall t n d, t ∈ ts -> through t = Some (n, d) -> exists x, dials s !! d = Some x /\ d_server x = n
}.

Lemma conns_inv_split w : conns_inv w <->
  (forall c, c ∈ live (sess w) -> (exists n, conns (sess w) !! n = Some c) \/ exists t, t ∈ threads w /\ obliged t = Some c) /\
  (forall c, (made (sess w) <= c)%nat -> owner (sess w) !! c = None) /\
  (forall n c, conns (sess w) !! n = Some c -> owner (sess w) !! c = Some n) /\
  (forall t n c, t ∈ threads w -> (n, c) ∈ knows t -> owner (sess w) !! c = Some n) /\
  dials_inv (sess w) (threads w).
Proof.
  split; [intros [? ? ? ? ? ? ?]; split_and!; try done; by split|]. intros (? & ? & ? & ? & [? ? ?]). by split.
Qed.

(** The dial objects stay as they are. *)
Lemma dials_frame s s' a t t' b : dials_inv s (a ++ t :: b) ->
  dials s' = dials s -> next_dial s' = next_dial s ->
  (forall n d, dialMap s' !! n = Some d -> dialMap s !! n = Some d) ->
  (forall d, holds_dial d t' = holds_dial d t) ->
  (through t' = None \/ through t' = through t) ->
  (forall c n, owner s !! c = Some n -> owner s' !! c = Some n) ->
  dials_inv s' (a ++ t' :: b).
Proof.
  intros [Hm Hd Ht] E1 E2 Hdm Hh Hth Ho. split.
  - intros n d H%Hdm%Hm. by rewrite E1.
  - intros d x. rewrite E1, E2. intros H. destruct (Hd d x H) as (H1 & H2 & H3 & H4). split; [done|]. split; [|split; [auto|done]].
    rewrite <- H2, !count_middle, Hh. done.
  - intros u n d Hu Hud. rewrite E1. apply (elem_of_moved a t) in Hu as [->|Hu]; [|by eapply Ht].
    destruct Hth as [Hth|Hth]; rewrite Hth in Hud; [done|]. eapply Ht; [|done]. auto.
Qed.

(** One dial object changes with the goroutine that holds it. *)
Lemma dials_upd s a t t' b d x x' : dials_inv s (a ++ t :: b) -> dials s !! d = Some x ->
  d_server x' = d_server x ->
  b2z (d_locked x') = b2z (d_locked x) + b2z (holds_dial d t') - b2z (holds_dial d t) ->
  (forall e, e <> d -> holds_dial e t' = holds_dial e t) ->
  (through t' = None \/ through t' = through t) ->
  (forall c, d_conn x' = Some c -> owner s !! c = Some (d_server x)) -> (d_done x' = true -> d_conn x' <> None) ->
  dials_inv (upd_dial s d x') (a ++ t' :: b).
Proof.
  intros [Hm Hd Ht] Hx Hs Hl Hh Hth Hc Hdone.
  assert (forall e y, dials s !! e = Some y -> exists z, <[d := x']> (dials s) !! e = Some z /\ d_server z = d_server y) as Hkeep.
  { intros e y Hy. destruct (decide (d = e)) as [<-|Hne]; [|exists y; by rewrite lookup_insert_ne].
    exists x'. rewrite lookup_insert_eq. split; [done|]. rewrite Hx in Hy. by injection Hy as <-. }
  split; cbn.
  - intros n e H. destruct (Hm n e H) as (y & Hy & <-). by apply Hkeep.
  - intros e y. rewrite lookup_insert_Some. intros [[<- <-]|[Hne Hy]].
    + destruct (Hd d x Hx) as (H1 & H2 & _). split; [done|]. split; [|rewrite Hs; by split]. rewrite Hl, <- H2, !count_middle. lia.
    + destruct (Hd e y Hy) as (H1 & H2 & H3). split; [done|]. split; [|done]. rewrite <- H2, !count_middle, Hh by done. done.
  - intros u n e Hu Hue. assert (exists y, dials s !! e = Some y /\ d_server y = n) as (y & Hy & <-); [|by apply Hkeep].
    apply (elem_of_moved a t) in Hu as [->|Hu]; [|by eapply Ht]. destruct Hth as [Hth|Hth]; rewrite Hth in Hue; [done|]. eapply Ht; [|done]. auto.
Qed.

Lemma dials_get s a b n s' d : dials_inv s (a ++ Start n :: b) -> getDialOnce s n = (s', d) -> dials_inv s' (a ++ Waiting n d :: b).
Proof.
  intros [Hm Hd Ht] E. unfold getDialOnce in E. destruct (dialMap s !! n) as [e|] eqn:Em; injection E as <- <-.
  - split; [done| |].
    + intros d x Hx. destruct (Hd d x Hx) as (H1 & H2 & H3). split; [done|]. split; [|done]. rewrite <- H2, !count_middle. done.
    + intros u m d Hu Hud. apply (elem_of_moved a (Start n)) in Hu as [->|Hu]; [|by eapply Ht]. injection Hud as <- <-. by apply Hm.
  - assert (dials s !! next_dial s = None) as Hnone.
    { destruct (dials s !! next_dial s) as [x|] eqn:Ex; [|done]. apply Hd in Ex as [? _]. lia. }
    assert (forall e y, dials s !! e = Some y -> e <> next_dial s) as Hne by (intros e y Hy ->; congruence).
    split; cbn.
    + intros m d. rewrite lookup_insert_Some. intros [[<- <-]|[_ Hmd]]; [rewrite lookup_insert_eq; eauto|].
      destruct (Hm m d Hmd) as (x & Hx & <-). exists x. rewrite lookup_insert_ne; [done|]. intros <-. by apply (Hne _ _ Hx).
    + intros d x. rewrite lookup_insert_Some. intros [[<- <-]|[_ Hx]]; cbn.
      * split; [lia|]. split; [|done]. apply count_zero. intros u Hu. destruct (holds_dial (next_dial s) u) eqn:Eu; [|done]. exfalso.
        apply (elem_of_moved a (Start n)) in Hu as [->|Hu]; [done|].
        assert (exists m, through u = Some (m, next_dial s)) as [m Hmu] by (destruct u; cbn in Eu |- *; try done; apply Nat.eqb_eq in Eu as ->; eauto).
        destruct (Ht u m _ Hu Hmu) as (x & Hx & _). by rewrite Hnone in Hx.
      * destruct (Hd d x Hx) as (H1 & H2 & H3). split; [lia|]. split; [|done]. rewrite <- H2, !count_middle. done.
    + intros u m d Hu Hud. apply (elem_of_moved a (Start n)) in Hu as [->|Hu].
      * injection Hud as <- <-. rewrite lookup_insert_eq. eauto.
      * destruct (Ht u m d Hu Hud) as (x & Hx & <-). exists x. rewrite lookup_insert_ne; [done|]. intros <-. by apply (Hne _ _ Hx).
Qed.

Lemma step_dials s a t b s' t' : dials_inv s (a ++ t :: b) -> thread_step s t s' t' ->
  (forall n c, conns s !! n = Some c -> owner s !! c = Some n) ->
  (forall n c, (n, c) ∈ knows t -> owner s !! c = Some n) ->
  (forall c n, owner s !! c = Some n -> owner s' !! c = Some n) ->
  dials_inv s' (a ++ t' :: b).
Proof.
  intros Hi H Hcn Hk Ho.
  assert (forall n d x, through t = Some (n, d) -> dials s !! d = Some x -> d_server x = n /\
    (holds_dial d t = true -> d_locked x = true)) as Htt.
  { intros n d x Hn Hx. destruct (k_through _ _ Hi t n d) as (y & Hy & Hs); [auto|done|]. rewrite Hx in Hy. injection Hy as <-. split; [done|].
    intros Hh. destruct (k_dials _ _ Hi d x Hx) as (_ & Hc & _). pose proof (count_elem (holds_dial d) (a ++ t :: b) t ltac:(auto) Hh).
    destruct (d_locked x); [done|]. simpl in Hc. lia. }
  cases_of H; cbn in *.
  all: try (by eapply dials_frame; [exact Hi|..]; auto).
  - by eapply dials_get.
  - destruct (k_dials _ _ Hi d x E) as (_ & _ & H3 & H4). destruct (Htt n d x eq_refl E) as [Hn _].
    eapply dials_upd; [exact Hi|exact E|done|cbn; by rewrite E', Nat.eqb_refl|cbn; intros e He; by apply Nat.eqb_neq|by right|done|done].
  - destruct (k_dials _ _ Hi d x E) as (_ & _ & H3 & H4). destruct (Htt n d x eq_refl E) as [Hn Hlk]. rewrite Nat.eqb_refl in Hlk.
    eapply dials_upd; [exact Hi|exact E|done|cbn; by rewrite Hlk, Nat.eqb_refl|cbn; intros e He; symmetry; by apply Nat.eqb_neq|by left|done|done].
  - unfold dialled in E. injection E as <- <-. by eapply dials_frame; [exact Hi|..]; auto.
  - unfold GetOrSetConn in E. case_match; injection E as <- <-; by eapply dials_frame; [exact Hi|..]; auto.
  - destruct (Htt n d x eq_refl E) as [Hn Hlk]. rewrite Nat.eqb_refl in Hlk.
    eapply dials_upd; [exact Hi|exact E|done|cbn; by rewrite Hlk, Nat.eqb_refl|cbn; intros e He; symmetry; by apply Nat.eqb_neq|by left| |done].
    cbn. intros z [= <-]. rewrite Hn. apply Hk. by left.
  - destruct (Htt n d x eq_refl E) as [Hn Hlk]. rewrite Nat.eqb_refl in Hlk.
    eapply dials_upd; [exact Hi|exact E|done|cbn; by rewrite Hlk, Nat.eqb_refl|cbn; intros e He; symmetry; by apply Nat.eqb_neq|by left|done|done].
  - unfold EvictConn_take in *. case_bool_decide; by eapply dials_frame; [exact Hi|..]; auto.
  - eapply dials_frame; [exact Hi|..]; auto. cbn. intros m e. rewrite lookup_delete_Some. by intros [_ ?].
  - unfold RemoveConn_take in E. injection E as <- _. by eapply dials_frame; [exact Hi|..]; auto.
  - unfold RemoveConn_take in E. injection E as <- _. by eapply dials_frame; [exact Hi|..]; auto.
  - destruct extra; (eapply dials_frame; [exact Hi|..]; auto); cbn; intros m e; rewrite lookup_delete_Some; by intros [_ ?].
Qed.

Lemma thread_step_inv s a t b s' t' : conns_inv {| sess := s; threads := a ++ t :: b |} -> thread_step s t s' t' ->
  conns_inv {| sess := s'; threads := a ++ t' :: b |}.
Proof.
  intros Hi H. pose proof Hi as (Hl & Hm & Hc & Hk & Hd)%conns_inv_split. cbn in *. apply conns_inv_split. cbn.
  destruct (step_owner _ _ _ _ H Hm) as [Ho Hm']. split_and!.
  - intros c Hin. destruct (step_live _ _ _ _ _ H Hin) as (H1 & H2 & H3).
    assert (obliged t' = Some c -> exists u, u ∈ a ++ t' :: b /\ obliged u = Some c) as Hme by (intros; exists t'; auto).
    destruct H1 as [Hls|]; [|auto]. destruct (Hl c Hls) as [[n Hn]|(u & Hu & Hob)]; [destruct (H2 n Hn); auto|].
    apply elem_of_app in Hu as [Hu|[->|Hu]%elem_of_cons]; [|destruct (H3 Hob); auto|]; right; exists u; (split; [|done]); apply elem_of_app; [by left|right; by right].
  - done.
  - intros n c Hn. destruct (step_conns _ _ _ _ _ _ H Hn) as [?|?]; [by apply Ho, Hc|]. eapply Ho, Hk; [|done]. auto.
  - intros u n c Hu Hin. apply (elem_of_moved a t) in Hu as [->|Hu].
    + by eapply (step_knows {| sess := s; threads := a ++ t :: b |} a t b s' t').
    + by eapply Ho, Hk.
  - eapply step_dials; eauto.
Qed.

Lemma conns_step_inv w w' : conns_step w w' -> conns_inv w -> conns_inv w'.
Proof.
  intros H Hi. destruct H as [s ts t (n & Ht)|s a t b s' t' H|s ts r|s ts].
  - apply conns_inv_split in Hi as (Hl & Hm & Hc & Hk & [H1 H2 H3]). apply conns_inv_split. cbn in *. split_and!; try done.
    + intros c Hin. destruct (Hl c Hin) as [?|(u & Hu & ?)]; [by left|right]. exists u. split; [by right|done].
    + intros u m c [->|Hu]%elem_of_cons Hin; [destruct Ht as [-> | ->]; by apply elem_of_nil in Hin|by eapply Hk].
    + split; [done| |].
      * intros d x Hx. destruct (H2 d x Hx) as (G1 & G2 & G3). split; [done|]. split; [|done]. rewrite count_cons. by destruct Ht as [-> | ->].
      * intros u m d [->|Hu]%elem_of_cons Hud; [by destruct Ht as [-> | ->]|by eapply H3].
  - by eapply thread_step_inv.
  - apply conns_inv_split in Hi as (Hl & Hm & Hc & Hk & [H1 H2 H3]). apply conns_inv_split. cbn in *. split_and!; done.
  - apply conns_inv_split in Hi as (Hl & Hm & Hc & Hk & [H1 H2 H3]). apply conns_inv_split. cbn in *. split_and!; try done.
    intros c [Hin Hno]%elem_of_difference. destruct (Hl c Hin) as [[n Hn]|?]; [|by right]. exfalso. apply Hno.
    apply elem_of_list_to_set, list_elem_of_fmap. exists (n, c). split; [done|]. by apply elem_of_map_to_list.
Qed.


