(* ===== verification/Dispatch.v ===== *)
(** * Requests of agents (src/internal/server/serve.go, routes.go, protocol_version.go, listen.go)

    A line of an agent is decoded, checked against the protocol, held back until the session is
    initialized, routed and answered.  The lists of tools and the calls are an interface: what
    the rest of the server gives this part.  Other goroutines run while a request waits. *)
From S2P Require Import Prelude GoStr Utf8 Float64 ToonNumbers Config Content JsonText JsonToken JsonTokenProps Projection JsonObject JsonTree JsonCompact JsonParts JsonMeaning RequestMeta ResultDoc ToolsList Rpc Sessions.

(** ** Answers *)

(** [json.Marshal] of a value decoded into [any]: its numbers are [float64]s. *)
Definition float_text (f : float) : string := if float_is_zero f || float_abs_in_plain_range f then format_f f else canonicalExponent f.
Fixpoint any_text (v : json) : string :=
  match v with
  | JNull => "null"
  | JBool b => if b then "true" else "false"
  | JNum n => match parse_float n with POk f => float_text f | _ => "" end
  | JStr s => json_string true s
  | JArr l => "[" +:+ join "," (map any_text l) +:+ "]"
  | JObj fs => "{" +:+ join "," (map (fun kv => json_string true (fst kv) +:+ ":" +:+ any_text (snd kv)) fs) +:+ "}"
  end.

Definition JsonRPCVersion : string := "2.0".
(** The raw texts of the id and of the result; no bytes: left out. *)
Record answer : Type := { a_ID : string; a_Result : string; a_Error : option RPCError }.
(** A nil id is left out. *)
Definition id_text (id : json) : string := match id with JNull => "" | _ => any_text id end.
Definition error_object (e : RPCError) : string :=
  marshal_members true ([("code", itoa (Code e)); ("message", json_string true (Message e))] ++ omit_empty "data" (Data e)).
Definition answer_text (a : answer) : string :=
  marshal_members true
    ([("jsonrpc", json_string true JsonRPCVersion)] ++ omit_empty "id" (a_ID a) ++ omit_empty "result" (a_Result a) ++
     match a_Error a with Some e => [("error", error_object e)] | None => [] end).

Definition CodeParseError : Z := -32700.
Definition CodeInvalidRequest : Z := -32600.
Definition CodeInvalidParams : Z := -32602.
Definition CodeInternalError : Z := -32603.
Definition NotInitializedMessage : string := "not initialized: send initialize first".
Definition errorResponse (id : string) (code : Z) (msg : string) : answer :=
  {| a_ID := id; a_Result := ""; a_Error := Some {| Code := code; Message := msg; Data := "" |} |}.
(** The value's own encoding is written again, if it is JSON. *)
Definition okResponse (id raw : string) : option answer := if json_valid raw then Some {| a_ID := id; a_Result := compact true raw; a_Error := None |} else None.

(** What [errors.Is] and [errors.As] tell apart here. *)
Inductive route_error : Type := MethodNotFound (method : string) | InvalidParams (why : string) | MissingCapability (e : RPCError) | Internal (msg : string).
Definition route_text (e : route_error) : string :=
  match e with
  | MethodNotFound method => "method not found: " +:+ method
  | InvalidParams why => "invalid params: " +:+ why
  | MissingCapability e => Message e
  | Internal msg => msg
  end.
Definition routeErrorResponse (id : string) (e : route_error) : answer :=
  match e with
  | MissingCapability rpc => {| a_ID := id; a_Result := ""; a_Error := Some rpc |}
  | MethodNotFound _ => errorResponse id CodeMethodNotFound (route_text e)
  | InvalidParams _ => errorResponse id CodeInvalidParams (route_text e)
  | Internal _ => errorResponse id CodeInternalError (route_text e)
  end.
(** [why] is the text of the error. *)
Definition buildRouteResponse (why : string -> string) (id : string) (r : res route_error string) : answer :=
  match r with
  | Err e => routeErrorResponse id e
  | Ok raw => match okResponse id raw with Some a => a | None => errorResponse id CodeInternalError ("marshal result: " +:+ why raw) end
  end.

(** ** Requests *)
Record agent_request : Type := { q_JsonRPC : string; q_ID : json; q_Method : string; q_Params : string (* raw *) }.
Definition decode_request (line : string) : option agent_request :=
  match struct_members line with
  | None => None
  | Some ms =>
      match string_field "jsonrpc" ms, typed_field unmarshal_any JNull "id" ms, string_field "method" ms with
      | Some v, Some id, Some m => Some {| q_JsonRPC := v; q_ID := id; q_Method := m; q_Params := raw_field "params" ms |}
      | _, _, _ => None
      end
  end.
Definition peekMethod (line : string) : string := match struct_members line with Some ms => default "" (string_field "method" ms) | None => "" end.
(** The raw id; none of a notification or of what is no message. *)
Definition peekRequestID (line : string) : string :=
  match struct_members line with
  | None => ""
  | Some ms => let id := raw_field "id" ms in if String.eqb id "null" then "" else id
  end.

Record toolCallRequest : Type := { t_Name : string; t_Arguments : string (* raw *); t_Meta : RequestMeta; InputResponses : string (* raw *); RequestState : string (* raw *) }.
Record ToolCallMRTR : Type := { m_InputResponses : string; m_RequestState : string; m_Elicitation : string (* raw *) }.
Definition mrtr (c : toolCallRequest) : option ToolCallMRTR :=
  if negb (IsModernVersion (ProtocolVersion (t_Meta c))) then None
  else Some {| m_InputResponses := InputResponses c; m_RequestState := RequestState c;
               m_Elicitation := match rm_ClientCapabilities (t_Meta c) with Some caps => Elicitation caps | None => "" end |}.

(** What a call of a tool gives: the upstream's own result, a text, another value, or an envelope and whether it reports an error. *)
Inductive call_result : Type := UpstreamResult (raw : string) | TextResult (text : string) | ValueResult (raw : string) | EnvelopeResult (failed : bool) (raw : string).

(** What the rest of the server does for this part. *)
Class ToolLayer : Type := {
  handleToolsList : res route_error string;
  routeProxyTool : toolCallRequest -> Session -> Session * res route_error call_result
}.

Section dispatch.
(** The version of mini, and the words of the errors of [encoding/json]. *)
Variables (Version : string) (json_error : string -> string).

Definition meta_text (params : string) (e : meta_error) : string :=
  match e with
  | ParamsInvalidJSON => "request params must be valid JSON: " +:+ json_error params
  | MetaNotObject => "_meta must be a JSON object"
  | VersionNotString => "_meta." +:+ protocolVersionMeta +:+ " must be a nonempty string"
  | CapabilitiesNotObject => "_meta." +:+ clientCapabilitiesMeta +:+ " must be a JSON object"
  | ResultNotObject => "modern result must be a JSON object"
  | ResultMetaNotObject => "modern result _meta must be a JSON object"
  | ParamsNotObject | NonStandardResponse | UnknownResultType => "" (* none of these here *)
  end.

Definition into_call (raw : string) : option toolCallRequest :=
  match struct_members raw with
  | None => None
  | Some ms =>
      match string_field "name" ms, typed_field into_meta no_meta "_meta" ms with
      | Some name, Some meta =>
          Some {| t_Name := name; t_Arguments := raw_field "arguments" ms; t_Meta := meta; InputResponses := raw_field "inputResponses" ms; RequestState := raw_field "requestState" ms |}
      | _, _ => None
      end
  end.
Definition parseToolCall (params : string) : res route_error toolCallRequest :=
  match into_call params with
  | None => Err (InvalidParams ("tools/call: " +:+ json_error params))
  | Some call => if String.eqb (t_Name call) "" then Err (InvalidParams "tools/call requires name") else Ok call
  end.

(** The texts [json.Marshal] gives the results made here. *)
Definition text_content (text : string) : string := list_text [marshal_members true [("text", json_string true text); ("type", json_string true "text")]].
Definition toolOKResult (text : string) : string := marshal_members true [("content", text_content text)].
Definition toolErrorResult (msg : string) : string := marshal_members true [("content", text_content msg); ("isError", "true")].
Definition normalizeToolCallError (e : route_error) : res route_error string :=
  match e with
  | MissingCapability _ | InvalidParams _ => Err e
  | _ => Ok (toolErrorResult (route_text e))
  end.
Definition normalizeToolCallResult (r : call_result) : string :=
  match r with
  | EnvelopeResult true raw => toolErrorResult raw
  | UpstreamResult raw => raw
  | EnvelopeResult false raw | ValueResult raw => toolOKResult raw
  | TextResult text => toolOKResult text
  end.

Definition server_info : string := clientInfo_text {| Name := "mini"; ci_Version := Version |} (* [ServerInfo] has the same members *).
Definition tools_capability : string := marshal_members true [("tools", marshal_members true [("listChanged", "true")])].
Definition proxyInitInstructions : string :=
  "Results are the upstream server's own, trimmed where large: a trimmed result carries `__mini` (a key in the result object, the last element of a result list, or a final text block) with a `file` and the paths that were cut. To get cut data, call `read` with that `file` and a listed path as `filter`, or a jq filter built on it. Pass `__mini: {" +:+ q "projection" +:+ ": " +:+ q "raw" +:+ "}` only from a script that must process the whole result without a second call. Tool arguments are the upstream server's own; `__mini` is reserved.".
Definition negotiatedLegacyVersion (requested : string) : string := if IsLegacyVersion requested then requested else LatestLegacyVersion.
(** The version asked for: what was decoded before an error stays. *)
Definition requested_version (params : string) : string :=
  match struct_members params with
  | None => ""
  | Some ms => foldl (fun v m => if named "protocolVersion" m then default v (unmarshal_string v (snd m)) else v) "" ms
  end.
Definition handleInitialize (params : string) : string :=
  marshal_members true
    [("protocolVersion", json_string true (negotiatedLegacyVersion (requested_version params))); ("capabilities", tools_capability);
     ("serverInfo", server_info); ("instructions", json_string true proxyInitInstructions)].
Definition handleDiscover : string :=
  marshal_members true
    [("resultType", json_string true "complete"); ("supportedVersions", list_text (map (json_string true) SupportedVersions)); ("capabilities", tools_capability);
     ("instructions", json_string true proxyInitInstructions); ("_meta", marshal_members true [("io.modelcontextprotocol/serverInfo", server_info)]); ("ttlMs", "0");
     ("cacheScope", json_string true "private")].

(** ** What a request does: the session, and a record of what was routed and cancelled *)
Inductive event : Type := Routed (method : string) (s : Session) | CalledTool (call : toolCallRequest) (s : Session) | Cancelled (call : nat).
Record desk : Type := { sess : Session; log : list event }.
Definition with_sess (f : Session -> Session) (d : desk) : desk := {| sess := f (sess d); log := log d |}.
Definition record (e : event) (d : desk) : desk := {| sess := sess d; log := log d ++ [e] |}.

Definition handleCancelled (params : string) (d : desk) : desk :=
  match decode_cancelled params with
  | None => d
  | Some id =>
      if String.eqb id "" then d
      else
        let d := match cancelInFlight (sess d) id with Some call => record (Cancelled call) d | None => d end in
        with_sess (fun s => removeListen s id) d
  end.

Context `{ToolLayer}.
Definition handleToolsCall (params : string) (d : desk) : desk * res route_error string :=
  match parseToolCall params with
  | Err e => (d, Err e)
  | Ok call =>
      let d := record (CalledTool call (sess d)) d in
      let '(s, r) := routeProxyTool call (sess d) in
      (with_sess (fun _ => s) d, match r with Err e => normalizeToolCallError e | Ok r => Ok (normalizeToolCallResult r) end)
  end.
Definition NotificationInitialized : string := "notifications/initialized".
Definition NotificationCancelled : string := "notifications/cancelled".
Definition routeRequest (req : agent_request) (d : desk) : desk * res route_error string :=
  let d := record (Routed (q_Method req) (sess d)) d in
  let m := q_Method req in
  if String.eqb m "server/discover" then
    (d, if negb (IsModernVersion (ProtocolVersionFromParams (q_Params req))) then Err (MethodNotFound m) else Ok handleDiscover)
  else if String.eqb m "initialize" then (d, Ok (handleInitialize (q_Params req)))
  else if String.eqb m "tools/list" then (d, handleToolsList)
  else if String.eqb m "tools/call" then handleToolsCall (q_Params req) d
  else if String.eqb m "ping" then (d, Ok "{}")
  else if String.eqb m NotificationInitialized then (with_sess markClientReady d, Ok "null")
  else if String.eqb m NotificationCancelled then (handleCancelled (q_Params req) d, Ok "null")
  else (d, Err (MethodNotFound m)).

(** A session over standard input that names a modern version needs no handshake. *)
Definition activateModern (s : Session) : Session :=
  let s' := with_era s (httpSession s) true in
  if modern s || httpSession s then s' else with_init s' true (initAbort s') true.

(** The waits: what other goroutines make of the session meanwhile, and the answer. *)
Variables (now : Z) (others : Session -> Session) (ctx_done : Session -> bool).
(** Whether the session opens before the wait is given up: [waitInitialized] on the session as it is then. *)
Definition wait (s : Session) : Session * bool := let s' := others s in (s', default false (head (waitInitialized s' (ctx_done s')))).
Definition ungated (method : string) (s : Session) : bool :=
  String.eqb method "initialize" || String.eqb method "ping" || (String.eqb method "server/discover" && negb (httpSession s)).
Definition awaitInitialization (method : string) (d : desk) : desk * bool :=
  if ungated method (sess d) then (d, true) else let '(s, ok) := wait (sess d) in (with_sess (fun _ => s) d, ok).

Definition unsupportedVersionResponse (id requested : string) : answer :=
  {| a_ID := id; a_Result := ""; a_Error := Some {| Code := CodeUnsupportedProtocolVersion; Message := "Unsupported protocol version";
       Data := marshal_members true [("supported", list_text (map (json_string true) SupportedVersions)); ("requested", json_string true requested)] |} |}.
(** From the routing to the answer. *)
Definition serveRequest (modern : bool) (req : agent_request) (d : desk) : desk * answer :=
  let '(d, r) := routeRequest req d in
  let d := if String.eqb (q_Method req) "initialize" && is_ok r then with_sess markInitialized d else d in
  let r := match r with
           | Ok raw => if modern then match addModernResultFields Version (q_Method req) raw with Ok raw => Ok raw | Err e => Err (Internal (meta_text raw e)) end else Ok raw
           | Err e => Err e
           end in
  (d, buildRouteResponse json_error (id_text (q_ID req)) r).
Definition handleRequest (req : agent_request) (d : desk) : desk * answer :=
  let id := id_text (q_ID req) in
  match ValidateModernRequestMeta (q_Params req) with
  | Err e => (d, errorResponse id CodeInvalidParams (meta_text (q_Params req) e))
  | Ok _ =>
      match modernVersionError (q_Params req) with
      | Some requested => (d, unsupportedVersionResponse id requested)
      | None =>
          let modern := IsModernVersion (ProtocolVersionFromParams (q_Params req)) in
          let d := if modern then with_sess activateModern d else d in
          let '(d, ok) := awaitInitialization (q_Method req) d in
          if negb ok then (d, errorResponse id CodeInvalidRequest NotInitializedMessage) else serveRequest modern req d
      end
  end.

Definition handleLine (line : string) (d : desk) : desk * option answer :=
  let d := with_sess (fun s => touch s now) d in
  match decode_request line with
  | None => (d, Some (errorResponse "" CodeParseError "parse error"))
  | Some req =>
      if negb (String.eqb (q_JsonRPC req) JsonRPCVersion) then (d, Some (errorResponse (id_text (q_ID req)) CodeInvalidRequest ("jsonrpc must be " +:+ q "2.0")))
      else match q_ID req with
           | JNull => (fst (routeRequest req d), None)
           | _ => let '(d, a) := handleRequest req d in (d, Some a)
           end
  end.
(** [cancel] ends the context of the call. *)
Definition handleLineCancellable (cancel : nat) (line : string) (d : desk) : desk * option answer :=
  let rawID := peekRequestID line in
  if String.eqb rawID "" then handleLine line d
  else
    let '(d, a) := handleLine line (with_sess (fun s => registerInFlight s rawID cancel) d) in
    (with_sess (fun s => removeInFlight s rawID) d, a).

(** ** Listens, and the lines of standard input *)
Definition MethodSubscriptionsListen : string := "subscriptions/listen".
Definition InvalidListenParamsMessage : string := "invalid subscriptions/listen params".
Definition into_listen_params (old : bool) (raw : string) : option bool :=
  match struct_members raw with None => None | Some ms => typed_field (into_list_changed "toolsListChanged") old "notifications" ms end.
(** [ListenRequest]: the version of JSON-RPC, the raw id, and whether changes of the tools are asked for. *)
Definition decode_listen (line : string) : option (string * string * bool) :=
  match struct_members line with
  | None => None
  | Some ms =>
      match string_field "jsonrpc" ms, typed_field into_listen_params false "params" ms with
      | Some v, Some changed => Some (v, raw_field "id" ms, changed)
      | _, _ => None
      end
  end.
Definition NewSubscriptionAck (id : string) (toolsListChanged : bool) : string :=
  marshal_members true
    [("jsonrpc", json_string true JsonRPCVersion); ("method", json_string true "notifications/subscriptions/acknowledged");
     ("params", marshal_members true
        [("_meta", marshal_members true [("io.modelcontextprotocol/subscriptionId", id)]);
         ("notifications", marshal_members true (if toolsListChanged then [("toolsListChanged", "true")] else []))])].
(** What is left for the goroutine of a listen once its context is done. *)
Definition endListen (id : string) (s : Session) : Session := removeInFlight (removeListen s id) id.
(** The listen is registered before it is acknowledged. *)
Definition waitOnListen (cancel : nat) (id : string) (toolsListChanged : bool) (d : desk) : desk * string :=
  let d := with_sess (fun s => acknowledgeListen (registerInFlight s id cancel) id toolsListChanged cancel) d in
  (if toolsListChanged then with_sess markClientReady d else d, NewSubscriptionAck id toolsListChanged).
(** What is written, and whether a listen is waiting. *)
Definition startListen (cancel : nat) (line : string) (d : desk) : desk * string * bool :=
  let fail id code msg := (d, answer_text (errorResponse id code msg), false) in
  match decode_listen line with
  | None => fail (peekRequestID line) CodeInvalidParams InvalidListenParamsMessage
  | Some (v, id, changed) =>
      if String.eqb id "" then fail (peekRequestID line) CodeInvalidParams InvalidListenParamsMessage
      else if negb (String.eqb v JsonRPCVersion) then fail id CodeInvalidRequest ("jsonrpc must be " +:+ q "2.0")
      else
        match decode_request line with
        | None => fail id CodeInvalidParams InvalidListenParamsMessage
        | Some req =>
            match ValidateModernRequestMeta (q_Params req) with
            | Err e => fail id CodeInvalidParams (meta_text (q_Params req) e)
            | Ok _ =>
                let version := modernRequestVersion line in
                if negb (IsModernVersion version) then (d, answer_text (unsupportedVersionResponse id version), false)
                else let '(d, ack) := waitOnListen cancel id changed (with_sess activateModern d) in (d, ack, true)
            end
        end
  end.
Definition is_listen_line (line : string) : bool :=
  negb (String.eqb (peekRequestID line) "") && String.eqb (peekMethod line) MethodSubscriptionsListen &&
  match struct_members line with Some ms => HasModernRequestIntent (raw_field "params" ms) | None => false end.

(** A line is passed over, opens a listen, is handled before the next line is read, or is left to a goroutine of its own. *)
Inductive line_fate : Type := Ignored | Listened (written : string) (waiting : bool) | Inline (a : option answer) | Spawned.
Definition in_order (method : string) : bool := String.eqb method "initialize" || String.eqb method NotificationInitialized || String.eqb method NotificationCancelled.
Definition handleScannedLine (cancel : nat) (line : string) (d : desk) : desk * line_fate :=
  if String.eqb line "" then (d, Ignored)
  else if is_listen_line line then let '(d, out, waiting) := startListen cancel line d in (d, Listened out waiting)
  else if in_order (peekMethod line) then let '(d, a) := handleLine line d in (d, Inline a)
  else (d, Spawned).

(** ** Every request is answered, and none is served before its session is open *)
Definition event_ok (req : agent_request) (s : Session) (e : event) : Prop :=
  match e with
  | Routed m s' => m = q_Method req /\ s' = s
  | CalledTool call s' => q_Method req = "tools/call" /\ parseToolCall (q_Params req) = Ok call /\ s' = s
  | Cancelled _ => q_Method req = NotificationCancelled
  end.
Lemma cancelled_log params d : exists new, log (handleCancelled params d) = log d ++ new /\ Forall (fun e => match e with Cancelled _ => True | _ => False end) new.
Proof.
  unfold handleCancelled. destruct (decode_cancelled params) as [id|]; [|exists []; by rewrite app_nil_r]. destruct (String.eqb id ""); [exists []; by rewrite app_nil_r|].
  destruct (cancelInFlight (sess d) id) as [c|]; [exists [Cancelled c]|exists []]; cbn; [|rewrite app_nil_r]; auto.
Qed.
Lemma routed_log req d : exists new, log (fst (routeRequest req d)) = log d ++ new /\ Forall (event_ok req (sess d)) new.
Proof.
  unfold routeRequest. cbv zeta. repeat match goal with |- context [if ?b then _ else _] => destruct b eqn:? end;
    try (exists [Routed (q_Method req) (sess d)]; split; [reflexivity|]; by repeat constructor).
  - unfold handleToolsCall. destruct (parseToolCall (q_Params req)) as [call|e] eqn:E; [|exists [Routed (q_Method req) (sess d)]; split; [reflexivity|]; by repeat constructor].
    destruct (routeProxyTool call _) as [s r]. exists [Routed (q_Method req) (sess d); CalledTool call (sess d)]. cbn [fst log with_sess record]. rewrite <- app_assoc. split; [done|].
    repeat constructor; try done. by apply String.eqb_eq.
  - cbn [fst]. destruct (cancelled_log (q_Params req) (record (Routed (q_Method req) (sess d)) d)) as (new & -> & Hn). exists (Routed (q_Method req) (sess d) :: new).
    cbn [log record]. rewrite <- app_assoc. split; [done|]. constructor; [done|]. eapply Forall_impl; [exact Hn|]. intros [| |]; try done. intros _. by apply String.eqb_eq.
Qed.
Lemma opened s s' : wait s = (s', true) -> initDone s' = true.
Proof. unfold wait, waitInitialized. intros [= <- H']. destruct (initDone (others s)); [done|]. destruct (_ || _); discriminate. Qed.
Lemma answered_one id r : let a := buildRouteResponse json_error id r in a_ID a = id /\ (a_Result a <> "" <-> a_Error a = None).
Proof.
  destruct r as [raw|e]; cbn [buildRouteResponse].
  - unfold okResponse. destruct (json_valid raw) eqn:E; cbn; [|by split; [|split]]. split; [done|]. split; [done|]. intros _ Hc. apply compact_decoded with (html := true) in E as [E _]. by rewrite Hc in E.
  - by destruct e; cbn; (split; [done|]; split; [done|]).
Qed.

(** A call or a routed method, with the session as it was then. *)
Definition served (req : agent_request) (e : event) : Prop :=
  match e with
  | Routed m s => m = q_Method req /\ (initDone s = true \/ ungated m s = true)
  | CalledTool call s => q_Method req = "tools/call" /\ parseToolCall (q_Params req) = Ok call /\ initDone s = true
  | Cancelled _ => q_Method req = NotificationCancelled
  end.
(** What a request leaves: an answer that carries its id and is a result or an error, and, if it was routed, a session that was open. *)
Definition well_served (req : agent_request) (d : desk) (r : desk * answer) : Prop :=
  a_ID (snd r) = id_text (q_ID req) /\ (a_Result (snd r) <> "" <-> a_Error (snd r) = None) /\
  exists new, log (fst r) = log d ++ new /\ Forall (served req) new /\
    (new <> [] -> ValidateModernRequestMeta (q_Params req) = Ok tt /\ modernVersionError (q_Params req) = None).
Lemma refused_served req d d' code msg : log d' = log d -> well_served req d (d', errorResponse (id_text (q_ID req)) code msg).
Proof. intros Hl. split; [done|]. split; [split; done|]. exists []. cbn [fst]. by rewrite Hl, app_nil_r. Qed.
Lemma open_served modern req d : initDone (sess d) = true \/ ungated (q_Method req) (sess d) = true -> ValidateModernRequestMeta (q_Params req) = Ok tt -> modernVersionError (q_Params req) = None ->
  well_served req d (serveRequest modern req d).
Proof.
  intros Hopen Hv Hm. unfold serveRequest. destruct (routed_log req d) as (new & Hl & Hn). destruct (routeRequest req d) as [d1 r]. cbn [fst] in Hl.
  split; [|split]; [apply answered_one..|]. cbn [fst]. exists new. split; [by destruct (_ && _)|]. split; [|done].
  eapply Forall_impl; [exact Hn|]. intros [m s|call s|n]; cbn; [by intros [-> ->]| |done]. intros (Ht & Hc & ->). split_and!; [done..|].
  destruct Hopen as [?|Hu]; [done|]. by rewrite Ht in Hu.
Qed.
Lemma request_served_log req d : well_served req d (handleRequest req d).
Proof.
  unfold handleRequest. destruct (ValidateModernRequestMeta (q_Params req)) as [[]|e] eqn:Ev; [|by apply refused_served].
  destruct (modernVersionError (q_Params req)) as [v|] eqn:Em; [split; [done|]; split; [by split|]; exists []; cbn; by rewrite app_nil_r|]. cbv zeta.
  set (d1 := if IsModernVersion _ then with_sess activateModern d else d). assert (log d1 = log d) as Hd1 by (unfold d1; by destruct (IsModernVersion _)).
  unfold well_served. rewrite <- Hd1. unfold awaitInitialization. destruct (ungated (q_Method req) (sess d1)) eqn:Eg; cbn [negb]; [by apply open_served; [right|..]|].
  destruct (wait (sess d1)) as [s ok] eqn:Ew. destruct ok; cbn [negb]; [|by apply refused_served].
  change (log d1) with (log (with_sess (fun _ => s) d1)). apply open_served; [left; by eapply opened|done..].
Qed.

End dispatch.

(** ** Examples *)
Definition sample_layer : ToolLayer :=
  {| handleToolsList := Ok ("{" +:+ q "tools" +:+ ":[]}"); routeProxyTool := fun call s => (s, Ok (TextResult (t_Name call))) |}.
Definition sample_line (id method params : string) : string :=
  "{" +:+ q "jsonrpc" +:+ ":" +:+ q "2.0" +:+ (if String.eqb id "" then "" else "," +:+ q "id" +:+ ":" +:+ id) +:+ "," +:+ q "method" +:+ ":" +:+ q method +:+ "," +:+ q "params" +:+ ":" +:+ params +:+ "}".
Definition sample_handle (line : string) : desk * option answer :=
  handleLine "1.0" (fun _ => "bad JSON") (H := sample_layer) 7 (fun s => s) (fun _ => true) line {| sess := newSession 0; log := [] |}.
Definition called (e : event) : list string := match e with CalledTool call _ => [t_Name call] | _ => [] end.

(** A call comes too early, and a number that no [float64] holds comes back as another. *)
Example early_call :
  let '(d, a) := sample_handle (sample_line "9007199254740993" "tools/call" ("{" +:+ q "name" +:+ ":" +:+ q "read" +:+ "}")) in
  log d = [] /\ option_map answer_text a =
    Some ("{" +:+ q "jsonrpc" +:+ ":" +:+ q "2.0" +:+ "," +:+ q "id" +:+ ":9007199254740992," +:+ q "error" +:+ ":{" +:+ q "code" +:+ ":-32600," +:+ q "message" +:+ ":" +:+ q NotInitializedMessage +:+ "}}").
Proof. vm_compute. tauto. Qed.
(** The same call without an id is run. *)
Example early_notification :
  let '(d, a) := sample_handle (sample_line "" "tools/call" ("{" +:+ q "name" +:+ ":" +:+ q "read" +:+ "}")) in
  concat (map called (log d)) = ["read"] /\ initDone (sess d) = false /\ a = None.
Proof. vm_compute. tauto. Qed.
Example initialize_ex :
  let '(d, a) := sample_handle (sample_line (q "a") "initialize" ("{" +:+ q "protocolVersion" +:+ ":" +:+ q "2025-06-18" +:+ "}")) in
  initDone (sess d) = true /\ option_map a_ID a = Some (q "a") /\ (a ≫= a_Error) = None /\
  requested_version ("{" +:+ q "protocolVersion" +:+ ":" +:+ q "2025-06-18" +:+ "}") = "2025-06-18".
Proof. vm_compute. tauto. Qed.
