(* ===== verification/Endpoint.v ===== *)
(** * The daemon's HTTP endpoint (src/internal/server/http_serve.go, http_validate.go)

    Who may talk to the daemon, and in which session: the token, the Host and Origin of a
    request, the size of its body and the id of its session are checked before a line reaches
    [handleLineCancellable]. *)
From S2P Require Import Prelude GoStr GoStd Config Content JsonText JsonObject JsonToken Url Sse RequestMeta Rpc ToolsChanged Sessions Dispatch.

(** [q_Header] gives the first value of a header, or "". *)
Record http_request : Type := { q_Path : string; q_Verb : string; q_Header : string -> string; q_Host : string; q_Body : string; q_BodyFails : bool (* after these bytes *) }.
Record http_reply : Type := { r_Status : Z; r_Header : list (string * string); r_Body : string }.
(** [http.Error]. *)
Definition http_error (msg : string) (status : Z) : http_reply :=
  {| r_Status := status; r_Header := [("Content-Type", "text/plain; charset=utf-8"); ("X-Content-Type-Options", "nosniff")]; r_Body := msg +:+ String (az 10) "" |}.

Definition id_byte (c : ascii) : bool := in_range 97 102 c || is_digit c || Ascii.eqb c "-".
Definition nonHyphenCount (s : string) : Z := Z.of_nat (length (List.filter (fun c => negb (Ascii.eqb c "-")) (list_ascii_of_string s))).
Definition sessionIDPattern (s : string) : bool := str_forall id_byte s && (32 <=? slen s) && (slen s <=? 128).
Definition valid_session_id (s : string) : bool := sessionIDPattern s && (16 <=? nonHyphenCount s).

Definition CutPrefix (s prefix : string) : option string := if has_prefix s prefix then Some (str_drop (String.length prefix) s) else None.
Definition authorizeDaemon (token : string) (r : http_request) : bool :=
  String.eqb token "" || match CutPrefix (q_Header r "Authorization") "Bearer " with Some got => String.eqb got token | None => false end.
Definition hostIsLoopback (host : string) : bool :=
  if String.eqb host "" then false
  else
    let host := match SplitHostPort host with Ok (h, _) => h | Err _ => host end in
    let host := Trim host "[]" in
    String.eqb host "127.0.0.1" || String.eqb host "::1" || String.eqb host "localhost".
Definition isSameHost (r : http_request) (origin : string) : bool :=
  match Parse origin with
  | Err _ => false
  | Ok u => negb (String.eqb (Host u) "") && negb (String.eqb (q_Host r) "") && String.eqb (Host u) (q_Host r)
  end.
Definition rejectCrossOrigin (r : http_request) : bool := let origin := q_Header r "Origin" in negb (String.eqb origin "") && negb (isSameHost r origin).
Definition acceptsSSE (accept : string) : bool :=
  existsb (fun part => String.eqb (TrimSpace (hd "" (split_byte part ";"))) "text/event-stream") (split_byte accept ",").

Definition body_limit : Z := 2 ^ 20.
(** [new_id] is a fresh session id. *)
Definition parseSessionID (new_id : string) (r : http_request) : http_reply + string :=
  let id := q_Header r "Mcp-Session-Id" in
  if String.eqb id "" then inr new_id else if valid_session_id id then inr id else inl (http_error "invalid Mcp-Session-Id" 400).
Definition json_reply (headers : list (string * string)) (a : answer) : http_reply :=
  {| r_Status := 200; r_Header := headers ++ [("Content-Type", "application/json")]; r_Body := answer_text a +:+ String (az 10) "" |}.
(** One byte more than the limit is read at most, so that a later failure is not seen. *)
Definition readLimitedBody (r : http_request) : http_reply + string :=
  if q_BodyFails r && (slen (q_Body r) <=? body_limit) then inl (http_error "read error" 400)
  else if body_limit <? slen (q_Body r) then inl (json_reply [] (errorResponse "" CodeInvalidParams "request body exceeds 1MB limit"))
  else inr (q_Body r).

Definition stream_headers : list (string * string) := [("Content-Type", "text/event-stream"); ("Cache-Control", "no-cache"); ("X-Accel-Buffering", "no")].
Definition writeMCPResponse (r : http_request) (sessionID : string) (a : option answer) : http_reply :=
  let headers := [("Mcp-Session-Id", sessionID)] in
  match a with
  | None => {| r_Status := 202; r_Header := headers; r_Body := "" |}
  | Some a =>
      if acceptsSSE (q_Header r "Accept") then {| r_Status := 200; r_Header := headers ++ stream_headers; r_Body := writeSSEResponse (answer_text a) |}
      else json_reply headers a
  end.

(** A request is answered at once, or opens the stream of a session. *)
Inductive served_http : Type := Replied (reply : http_reply) | Streaming (reply : http_reply) (session stream : nat).

Section endpoint.
Variables (Version : string) (json_error : string -> string).
Context `{ToolLayer}.
Variables (daemonAuthToken new_id : string) (flushes : bool (* the writer is a Flusher *)).
(** The clock and the goroutines that run while a request waits, and the context of the request. *)
Variables (now later : Z) (others : Session -> Session) (ctx_done : Session -> bool) (cancel : nat).

Record endpoint : Type := { store : sessionStore; trace : list event }.

Definition parsePostRequest (r : http_request) (e : endpoint) : http_reply + (string * string * nat * endpoint) :=
  match readLimitedBody r with
  | inl reply => inl reply
  | inr body =>
      match parseSessionID new_id r with
      | inl reply => inl reply
      | inr id =>
          let '(st, a) := acquire (store e) id now in
          inr (body, id, a, {| store := put st a (with_era (at_addr st a) true (modern (at_addr st a))); trace := trace e |})
      end
  end.
Definition servePost (r : http_request) (e : endpoint) : endpoint * served_http :=
  match parsePostRequest r e with
  | inl reply => (e, Replied reply)
  | inr (body, id, a, e) =>
      let '(d, ans) := handleLineCancellable Version json_error now others ctx_done cancel body {| sess := at_addr (store e) a; log := trace e |} in
      ({| store := release (put (store e) a (sess d)) a later; trace := log d |}, Replied (writeMCPResponse r id ans))
  end.

Definition streamSession (r : http_request) (e : endpoint) : http_reply + nat :=
  let id := q_Header r "Mcp-Session-Id" in
  if String.eqb id "" then inl (http_error "Mcp-Session-Id is required" 400)
  else if negb (valid_session_id id) then inl (http_error "invalid Mcp-Session-Id" 400)
  else match get (store e) id with Some a => inr a | None => inl (http_error "session not found" 404) end.
Definition serveGet (r : http_request) (e : endpoint) : res fault (endpoint * served_http) :=
  if negb (acceptsSSE (q_Header r "Accept")) then Ok (e, Replied (http_error "Accept must include text/event-stream" 406))
  else match streamSession r e with
       | inl reply => Ok (e, Replied reply)
       | inr a =>
           if negb flushes then Ok (e, Replied (http_error "streaming unsupported" 500))
           else
             let* '(o, stream) := openStream (toolsChanged (at_addr (store e) a)) in
             let e := {| store := put (store e) a (with_outbox (at_addr (store e) a) o); trace := trace e |} in
             match stream with
             | None => Ok (e, Replied {| r_Status := 204; r_Header := []; r_Body := "" |})
             | Some c => Ok (e, Streaming {| r_Status := 200; r_Header := stream_headers; r_Body := "" |} a c)
             end
       end.

Definition serveMCP (r : http_request) (e : endpoint) : res fault (endpoint * served_http) :=
  if negb (authorizeDaemon daemonAuthToken r) then Ok (e, Replied (http_error "unauthorized" 401))
  else if negb (hostIsLoopback (q_Host r)) then Ok (e, Replied (http_error "forbidden: non-loopback Host" 403))
  else if rejectCrossOrigin r then Ok (e, Replied (http_error "forbidden: cross-origin request" 403))
  else if String.eqb (q_Verb r) "POST" then Ok (servePost r e)
  else if String.eqb (q_Verb r) "GET" then serveGet r e
  else Ok (e, Replied (let refused := http_error "method not allowed" 405 in {| r_Status := 405; r_Header := ("Allow", "GET, POST") :: r_Header refused; r_Body := r_Body refused |})).
Definition serveHealthz (e : endpoint) : http_reply :=
  {| r_Status := 200; r_Header := [("Content-Type", "application/json")];
     r_Body := marshal_members true [("ok", "true"); ("sessions", Float64.itoa (count_sessions (store e)))] +:+ String (az 10) "" |}.
Definition ServeHTTP (r : http_request) (e : endpoint) : res fault (endpoint * served_http) :=
  if String.eqb (q_Path r) "/healthz" then Ok (e, Replied (serveHealthz e))
  else if String.eqb (q_Path r) "/mcp" then serveMCP r e
  else Ok (e, Replied (http_error "404 page not found" 404)).
End endpoint.

(** ** What passes the checks *)
Definition bracketed (s : string) : bool := str_forall (fun c => byte_in c "[]") s.
(** One of the three names, in brackets or not, with or without a port. *)
Definition loopback_name (host : string) : Prop := exists l name r port, name ∈ ["127.0.0.1"; "::1"; "localhost"] /\ bracketed l = true /\ bracketed r = true /\
  host = l +:+ name +:+ r +:+ port /\ (port = "" \/ exists p, port = String ":" p /\ byte_in ":" p = false).

Lemma trim_left_split s cut : exists l, s = l +:+ trim_left s cut /\ str_forall (fun c => byte_in c cut) l = true.
Proof.
  induction s as [|c s [l [Hs Hl]]]; [by exists ""|]. cbn [trim_left]. destruct (byte_in c cut) eqn:E; [|by exists ""].
  exists (String c l). cbn [String.append str_forall]. rewrite E, Hl. by rewrite <- Hs.
Qed.
Lemma trim_right_split s cut : exists r, s = trim_right_bytes s cut +:+ r /\ str_forall (fun c => byte_in c cut) r = true.
Proof.
  induction s as [|c s [r [Hs Hr]]]; [by exists ""|]. cbn [trim_right_bytes]. destruct (String.eqb_spec (trim_right_bytes s cut) "") as [E|E]; cbn [andb]; [destruct (byte_in c cut) eqn:Ec|].
  - exists (String c s). rewrite E in Hs. cbn [String.append] in Hs. split; [done|]. cbn [str_forall]. by rewrite Ec, Hs.
  - exists r. split; [|done]. cbn [String.append]. by rewrite <- Hs.
  - exists r. split; [|done]. cbn [String.append]. by rewrite <- Hs.
Qed.
Lemma Trim_split s cut : exists l r, s = l +:+ Trim s cut +:+ r /\ str_forall (fun c => byte_in c cut) l = true /\ str_forall (fun c => byte_in c cut) r = true.
Proof.
  unfold Trim. destruct (trim_left_split s cut) as (l & Hl & Hl'). destruct (trim_right_split (trim_left s cut) cut) as (r & Hr & Hr'). exists l, r. by rewrite <- Hr.
Qed.
Lemma str_drop_past x b y : str_drop (S (String.length x)) (x +:+ String b y) = y.
Proof. induction x as [|c x IH]; [done|exact IH]. Qed.
Lemma last_index_parts s b i : last_index_byte s b = Some i -> s = str_take i s +:+ String b (str_drop (S i) s) /\ byte_in b (str_drop (S i) s) = false.
Proof. intros (x & y & -> & Hy & ->)%last_index_split. by rewrite str_drop_past, str_take_app_length. Qed.
Lemma bracket_take s e : has_prefix s "[" = true -> index_byte s "]" = Some e -> str_take (S e) s = "[" +:+ str_drop 1 (str_take e s) +:+ "]".
Proof.
  intros Hp (a & t & -> & _ & ->)%index_byte_split. rewrite str_take_app_length. replace (a +:+ String "]" t) with ((a +:+ "]") +:+ t) by by rewrite <- str_app_assoc.
  replace (S (String.length a)) with (String.length (a +:+ "]")) by (rewrite str_length_app; cbn; lia). rewrite str_take_app_length.
  destruct a as [|c a]; [done|]. cbn [String.append has_prefix] in Hp. destruct (Ascii.eqb_spec "[" c) as [<-|]; [done|]. by destruct (Ascii.eqb_spec c "[").
Qed.
Lemma host_port_split s h p : SplitHostPort s = Ok (h, p) -> exists l r, bracketed l = true /\ bracketed r = true /\ s = l +:+ h +:+ r +:+ String ":" p /\ byte_in ":" p = false.
Proof.
  unfold SplitHostPort. destruct (last_index_byte s ":") as [i|] eqn:Ei; [|done]. destruct (last_index_parts _ _ _ Ei) as [Hs Hp].
  destruct (has_prefix s "[") eqn:Eb.
  - destruct (index_byte s "]") as [e|] eqn:Ee; [|done]. destruct (Nat.eqb _ _); [done|]. destruct (Nat.eqb_spec (S e) i) as [<-|]; [|by destruct (has_prefix _ ":")].
    intros H. assert (h = str_drop 1 (str_take e s) /\ p = str_drop (S (S e)) s) as [-> ->] by (repeat case_match; by simplify_eq).
    exists "[", "]". split_and!; try done. by rewrite (bracket_take s e), <- !str_app_assoc in Hs.
  - intros H. assert (h = str_take i s /\ p = str_drop (S i) s) as [-> ->] by (repeat case_match; by simplify_eq).
    exists "", "". by split_and!.
Qed.
Lemma bracketed_app a b : bracketed a = true -> bracketed b = true -> bracketed (a +:+ b) = true.
Proof. unfold bracketed. intros Ha Hb. by rewrite str_forall_app, Ha, Hb. Qed.
Lemma loopback_host host : hostIsLoopback host = true -> loopback_name host.
Proof.
  unfold hostIsLoopback. destruct (String.eqb host ""); [done|]. intros Hn.
  assert (exists l h r port, host = l +:+ h +:+ r +:+ port /\ bracketed l = true /\ bracketed r = true /\ (port = "" \/ exists p, port = String ":" p /\ byte_in ":" p = false) /\ Trim h "[]" ∈ ["127.0.0.1"; "::1"; "localhost"]) as (l & h & r & port & -> & Hl & Hr & Hp & Hin).
  { destruct (SplitHostPort host) as [[h p]|] eqn:E.
    - destruct (host_port_split _ _ _ E) as (l & r & Hl & Hr & -> & Hp). exists l, h, r, (String ":" p). split_and!; [done..|right; by exists p|]. rewrite !orb_true_iff, !String.eqb_eq in Hn. set_solver.
    - exists "", host, "", "". split_and!; [by rewrite str_app_nil_r|done..|by left|]. rewrite !orb_true_iff, !String.eqb_eq in Hn. set_solver. }
  destruct (Trim_split h "[]") as (l' & r' & Hh & Hl' & Hr'). exists (l +:+ l'), (Trim h "[]"), (r' +:+ r), port. split_and!; [done|by apply bracketed_app..| |done].
  rewrite Hh at 1. by rewrite <- !str_app_assoc.
Qed.

Section guard.
Variables (daemonAuthToken : string) (st : sessionStore).
(** A request that may act on a session. *)
Definition guarded (r : http_request) : Prop :=
  q_Path r = "/mcp" /\ (daemonAuthToken = "" \/ q_Header r "Authorization" = "Bearer " +:+ daemonAuthToken) /\ loopback_name (q_Host r) /\
  (q_Header r "Origin" = "" \/ exists u, Parse (q_Header r "Origin") = Ok u /\ Host u = q_Host r) /\
  let id := q_Header r "Mcp-Session-Id" in
  (q_Verb r = "POST" /\ slen (q_Body r) <= body_limit /\ (id = "" \/ valid_session_id id = true) \/
   q_Verb r = "GET" /\ valid_session_id id = true /\ is_Some (sessions st !! id)).
End guard.

Section guards.
Variables (Version : string) (json_error : string -> string).
Context `{ToolLayer}.
Variables (daemonAuthToken new_id : string) (flushes : bool).
Variables (now later : Z) (others : Session -> Session) (ctx_done : Session -> bool) (cancel : nat).
#[local] Notation serve := (ServeHTTP Version json_error daemonAuthToken new_id flushes now later others ctx_done cancel).

Lemma authorized r : authorizeDaemon daemonAuthToken r = true -> daemonAuthToken = "" \/ q_Header r "Authorization" = "Bearer " +:+ daemonAuthToken.
Proof.
  unfold authorizeDaemon, CutPrefix. rewrite orb_true_iff, String.eqb_eq. intros [?|Hh]; [by left|right]. destruct (has_prefix _ "Bearer ") eqn:E; [|done]. apply has_prefix_spec in E as [t Ht].
  rewrite Ht in *. change (str_drop (String.length "Bearer ") ("Bearer " +:+ t)) with t in Hh. apply String.eqb_eq in Hh. by subst.
Qed.
Lemma same_origin r : rejectCrossOrigin r = false -> q_Header r "Origin" = "" \/ exists u, Parse (q_Header r "Origin") = Ok u /\ Host u = q_Host r.
Proof.
  unfold rejectCrossOrigin. rewrite andb_false_iff, !negb_false_iff, String.eqb_eq. intros [?|Hs]; [by left|right]. unfold isSameHost in Hs. destruct (Parse _) as [u|]; [|done].
  exists u. split; [done|]. rewrite !andb_true_iff, String.eqb_eq in Hs. by destruct Hs as [_ ->].
Qed.

(** C38: the daemon touches no session and opens no stream but for a request to /mcp that carries its token, if it has one, whose Host is a loopback name, whose Origin is absent or that very host, and that is a POST of at most one megabyte under a well-formed or a new session id, or a GET of a session there is; every other request is answered at once and leaves all sessions as they are. *)
Theorem endpoint_guarded r e e' out : serve r e = Ok (e', out) -> (e' = e /\ exists reply, out = Replied reply) \/ guarded daemonAuthToken (store e) r.
Proof.
  unfold ServeHTTP. destruct (String.eqb (q_Path r) "/healthz"); [intros [= <- <-]; eauto|]. destruct (String.eqb_spec (q_Path r) "/mcp") as [Hpath|]; [|intros [= <- <-]; eauto].
  unfold serveMCP. destruct (authorizeDaemon daemonAuthToken r) eqn:Ea; cbn [negb]; [|intros [= <- <-]; eauto]. destruct (hostIsLoopback (q_Host r)) eqn:Eh; cbn [negb]; [|intros [= <- <-]; eauto].
  destruct (rejectCrossOrigin r) eqn:Eo; [intros [= <- <-]; eauto|].
  assert (let id := q_Header r "Mcp-Session-Id" in
    q_Verb r = "POST" /\ slen (q_Body r) <= body_limit /\ (id = "" \/ valid_session_id id = true) \/ q_Verb r = "GET" /\ valid_session_id id = true /\ is_Some (sessions (store e) !! id) ->
    guarded daemonAuthToken (store e) r) as Hg by (intros id Hid; split_and!; [done|by apply authorized|by apply loopback_host|by apply same_origin|exact Hid]).
  destruct (String.eqb_spec (q_Verb r) "POST") as [Ev|_].
  - unfold servePost, parsePostRequest. destruct (readLimitedBody r) as [reply|body] eqn:Eb; [intros [= <- <-]; eauto|]. destruct (parseSessionID new_id r) as [reply|id] eqn:Ei; [intros [= <- <-]; eauto|].
    intros _. right. apply Hg. left. split; [done|]. unfold readLimitedBody in Eb. unfold parseSessionID in Ei. split.
    + destruct (_ && _); [done|]. destruct (Z.ltb_spec body_limit (slen (q_Body r))); [done|lia].
    + destruct (String.eqb_spec (q_Header r "Mcp-Session-Id") ""); [by left|right]. by destruct (valid_session_id _).
  - destruct (String.eqb_spec (q_Verb r) "GET") as [Ev|_]; [|intros [= <- <-]; eauto]. unfold serveGet. destruct (acceptsSSE _); cbn [negb]; [|intros [= <- <-]; eauto].
    destruct (streamSession r e) as [reply|a] eqn:Es; [intros [= <- <-]; eauto|]. intros _. right. apply Hg. right. split; [done|]. unfold streamSession in Es.
    destruct (String.eqb _ ""); [done|]. destruct (valid_session_id _); cbn [negb] in Es; [|done]. unfold get in Es. destruct (sessions (store e) !! _); [done|done].
Qed.
End guards.

(** ** Examples *)
Definition sample_request (verb host origin token id body : string) : http_request :=
  {| q_Path := "/mcp"; q_Verb := verb; q_Host := host; q_Body := body; q_BodyFails := false;
     q_Header := fun name => if String.eqb name "Origin" then origin else if String.eqb name "Authorization" then token else if String.eqb name "Mcp-Session-Id" then id else "" |}.
Definition sample_serve (r : http_request) : res fault (endpoint * served_http) :=
  ServeHTTP "1.0" (fun _ => "bad JSON") (H := sample_layer) "secret" "6ba7b810-9dad-41d1-80b4-00c04fd430c8" true 7 9 (fun s => s) (fun _ => true) 0 r {| store := newSessionStore; trace := [] |}.
Definition status_of (x : res fault (endpoint * served_http)) : option (Z * Z) :=
  match x with Ok (e, Replied reply) => Some (r_Status reply, count_sessions (store e)) | _ => None end.

Example endpoint_ex :
  let ping := sample_line "1" "ping" "{}" in
  status_of (sample_serve (sample_request "POST" "127.0.0.1:4857" "" "Bearer secret" "" ping)) = Some (200, 1) /\
  status_of (sample_serve (sample_request "POST" "[::1]:4857" "http://[::1]:4857" "Bearer secret" "" ping)) = Some (200, 1) /\
  status_of (sample_serve (sample_request "POST" "127.0.0.1:4857" "http://evil.example" "Bearer secret" "" ping)) = Some (403, 0) /\
  status_of (sample_serve (sample_request "POST" "evil.example" "" "Bearer secret" "" ping)) = Some (403, 0) /\
  status_of (sample_serve (sample_request "POST" "127.0.0.1:4857" "" "Bearer secreT" "" ping)) = Some (401, 0) /\
  status_of (sample_serve (sample_request "POST" "localhost" "" "Bearer secret" "abc" ping)) = Some (400, 0).
Proof. vm_compute. tauto. Qed.

Lemma endpoint_guarded_witness :
  let r := sample_request "POST" "127.0.0.1:4857" "" "Bearer secret" "" (sample_line "1" "ping" "{}") in
  exists e out, sample_serve r = Ok (e, out) /\ ((e = {| store := newSessionStore; trace := [] |} /\ exists reply, out = Replied reply) \/ guarded "secret" newSessionStore r).
Proof.
  intros r. destruct (sample_serve r) as [[e out]|f] eqn:E; [|by vm_compute in E]. exists e, out. split; [done|].
  exact (endpoint_guarded "1.0" (fun _ => "bad JSON") (H := sample_layer) "secret" "6ba7b810-9dad-41d1-80b4-00c04fd430c8" true 7 9 (fun s => s) (fun _ => true) 0 r {| store := newSessionStore; trace := [] |} e out E).
Defined.
