(* ===== verification/ReadTool.v ===== *)
(** * The read tool (src/internal/server/read_tool.go)

    An agent reads back a response it was given in part.  The file it names lies in the
    directory of the responses, however the name is written. *)
From S2P Require Import Prelude GoStr GoStd Config JsonText JsonObject Response Jq RequestMeta Dispatch.

Section read.
(** The directory of the store, the symlink resolution, the files, and the third-party jq: a
    filter on a text gives an error or the answers of an iterator. *)
Variables (Dir : string) (resolve : string -> res string string) (ReadFile : string -> option string).
Variables (gojq : string -> string -> res string (nat -> option iter_result)) (json_error : string -> string).

Definition Eval (data filter : string) : res string string :=
  match gojq data filter with
  | Err e => Err e
  | Ok iter => default (Err "") (runQuery iter) (* the fuel is enough *)
  end.
Definition parseReadArgs (raw : string) : res route_error (string * string) :=
  match struct_members raw with
  | None => Err (InvalidParams ("read: " +:+ json_error raw))
  | Some ms =>
      match string_field "file" ms, string_field "filter" ms with
      | Some file, Some filter => if String.eqb file "" then Err (InvalidParams "read: file is required") else Ok (file, filter)
      | _, _ => Err (InvalidParams ("read: " +:+ json_error raw))
      end
  end.
Definition handleRead (raw : string) : res route_error string :=
  let* '(file, filter) := parseReadArgs raw in
  let path := resolveReadPath Dir file in
  match validateStorePathWith Dir path resolve with
  | Err why => Err (InvalidParams why)
  | Ok _ =>
      match ReadFile path with
      | None => Err (InvalidParams "response file not found or unreadable")
      | Some b => if String.eqb filter "" then Ok b else match Eval b filter with Ok out => Ok out | Err e => Err (InvalidParams ("read filter: " +:+ e)) end
      end
  end.

(** ** Paths *)
Lemma clean_names rooted : forall l stack, Forall simple_name stack -> rooted = true -> Forall (fun s => byte_in "/" s = false) l -> Forall simple_name (foldl (clean_step rooted) stack l).
Proof.
  induction l as [|s l IH]; intros stack Hs Hr Hl; [done|]. cbn [foldl]. inversion_clear Hl as [|? ? H1 H2]. apply IH; [|done|done]. unfold clean_step.
  destruct (String.eqb_spec s "") as [|E1]; [done|]. destruct (String.eqb_spec s ".") as [|E2]; [done|]. cbn [orb]. destruct (String.eqb_spec s "..") as [->|E3]; [|by constructor].
  destruct stack as [|top rest]; [by subst|]. inversion_clear Hs as [|? ? Ht Hrest]. destruct Ht as (_ & _ & Ht & _). by rewrite (proj2 (String.eqb_neq _ _) Ht).
Qed.
Lemma split_no_sep s c : Forall (fun t => byte_in c t = false) (split_byte s c).
Proof.
  induction s as [|d s IH]; cbn [split_byte]; [by repeat constructor|]. destruct (Ascii.eqb d c) eqn:E; [by constructor|]. pose proof (split_byte_nonempty s c). destruct (split_byte s c) as [|t l]; [done|].
  inversion_clear IH as [|? ? H1 H2]. constructor; [|done]. cbn [byte_in]. rewrite H1, orb_false_r. destruct (Ascii.eqb_spec c d) as [->|]; [by rewrite Ascii.eqb_refl in E|done].
Qed.
(** A cleaned absolute path has simple names. *)
Lemma clean_absolute p : has_prefix p "/" = true -> exists es, Forall simple_name es /\ Clean p = "/" +:+ join "/" es.
Proof.
  intros Hp. unfold Clean. rewrite Hp. eexists. split; [|reflexivity]. apply Forall_rev, clean_names; [constructor|done|apply split_no_sep].
Qed.
Lemma join_split es : Forall simple_name es -> es <> [] -> split_byte (join "/" es) "/" = es.
Proof.
  induction 1 as [|e es He Hes IH]; [done|]. intros _. destruct es as [|e' es]; [by apply split_byte_no_sep, He|]. change (join "/" (e :: e' :: es)) with (e +:+ String "/" (join "/" (e' :: es))).
  rewrite split_byte_app, IH by done. by rewrite split_byte_no_sep by apply He.
Qed.
Lemma push_names : forall es stack, Forall simple_name es -> foldl (clean_step true) stack es = rev es ++ stack.
Proof.
  induction es as [|e es IH]; intros stack; [done|]. inversion_clear 1 as [|? ? He Hes]. cbn [foldl rev]. rewrite clean_step_simple by done. rewrite IH by done. by rewrite <- app_assoc.
Qed.
Lemma clean_cleaned es : Forall simple_name es -> Clean ("/" +:+ join "/" es) = "/" +:+ join "/" es.
Proof.
  intros Hes. unfold Clean. change (has_prefix ("/" +:+ join "/" es) "/") with true. cbv zeta. change ("/" +:+ join "/" es) with ("" +:+ String "/" (join "/" es)) at 1. rewrite split_byte_app. cbn [split_byte app foldl]. change (clean_step true [] "") with (@nil string).
  destruct es as [|e es]; [done|]. rewrite join_split by done. rewrite push_names by done. by rewrite app_nil_r, rev_involutive.
Qed.
(** One path below another has its names, and more. *)
Lemma below_names ds es : Forall simple_name ds -> ds <> [] -> Forall simple_name es -> has_prefix ("/" +:+ join "/" es) (("/" +:+ join "/" ds) +:+ "/") = true ->
  exists fs, es = ds ++ fs /\ fs <> [] /\ Forall simple_name fs.
Proof.
  intros Hds Hne Hes [t Ht]%has_prefix_spec. rewrite <- !str_app_assoc in Ht. injection Ht as Ht. assert (es <> []) as Hee.
  { intros ->. cbn in Ht. destruct ds as [|d ds]; [done|]. inversion_clear Hds as [|? ? Hd]. destruct Hd as (Hd & _). destruct ds; cbn [join] in Ht; by destruct d. }
  apply (f_equal (fun s => split_byte s "/")) in Ht. rewrite join_split in Ht by done. change (join "/" ds +:+ "/" +:+ t) with (join "/" ds +:+ String "/" t) in Ht.
  rewrite split_byte_app, join_split in Ht by done. exists (split_byte t "/"). split_and!; [done|apply split_byte_nonempty|]. rewrite Ht in Hes. by apply Forall_app in Hes as [_ ?].
Qed.

End read.

(** A file of the store, and names that try to leave it. *)
Definition sample_read (file : string) : res route_error string :=
  handleRead "/home/u/.mini/r" (fun p => Ok (Clean p)) (fun p => if String.eqb p "/home/u/.mini/r/17.json" then Some "{}" else if has_prefix p "/etc" then Some "secret" else None)
    (fun _ _ => Err "") (fun _ => "") ("{" +:+ q "file" +:+ ":" +:+ q file +:+ "}").
Example read_ex :
  sample_read "17" = Ok "{}" /\ sample_read "a/../17.json" = Ok "{}" /\ sample_read "/17" = Ok "{}" /\
  sample_read "../../../../etc/x.y" = Err (InvalidParams "read: path must be within mini response directory") /\ sample_read ".." = Err (InvalidParams "read: path must be within mini response directory") /\
  sample_read "../r-other/x" = Err (InvalidParams "read: path must be within mini response directory").
Proof. vm_compute. tauto. Qed.

