(* ===== verification/ProxyCall.v ===== *)
(** * Proxied calls (src/internal/server/proxy_call.go, proxy_toon.go, transport/tool_call_mrtr.go)

    From the name of a tool, as agents see it, over its arguments, the upstream's answer and the
    projection to the result the agent gets.  The connection to the upstream is an argument. *)
From S2P Require Import Prelude GoStr Utf8 GoStd Config Content Registry Response JsonText JsonToken Projection JsonObject JsonTree JsonCompact JsonParts JsonMeaning JsonIndent ToonValue FromJSON ToonEncode RequestMeta ResultDoc Rpc Invoke Sessions Startup Install Dispatch ReadTool.

(** ** Names and arguments *)
Inductive projectionMode : Type := ProjectionUnset | ProjectionDefault | ProjectionRaw.
Definition mode_of (s : string) : option projectionMode :=
  if String.eqb s "" then Some ProjectionUnset else if String.eqb s "default" then Some ProjectionDefault else if String.eqb s "raw" then Some ProjectionRaw else None.
(** The arguments are decoded with [UseNumber]. *)
Record proxyRequest : Type := { p_Args : gmap string json; p_Controls : projectionMode }.

Section requests.
(** The words of the errors of [encoding/json]; [strconv.Quote], which needs the tables of Unicode. *)
Variables (json_error Quote : string -> string).
Definition parseProxyToolName (name : string) : res string (string * string) :=
  match index_str name "__" with
  | None => Err ("unknown proxy tool: " +:+ Quote name +:+ " (expected server__tool format)")
  | Some idx =>
      let s := str_take idx name in
      let t := str_drop (idx + 2) name in
      if String.eqb s "" || String.eqb t "" then Err ("invalid proxy tool name " +:+ Quote name +:+ ": server and tool must both be non-empty") else Ok (s, t)
  end.
Definition bad {A} (why : string) : res route_error A := Err (InvalidParams why).

Definition decodeProxyArgs (raw : string) : res route_error (gmap string json) :=
  match decodeJSONValue raw with
  | Some (JObj fs) => Ok (members_map fs)
  | Some JNull => Ok ∅
  | _ => bad ("arguments must be an object: " +:+ json_error raw)
  end.
(** Any key but "projection" is refused; the message names one, whichever the map gives first. *)
Definition rejectUnknownControls (value : json) : res route_error unit :=
  match value with
  | JObj fs => match List.filter (fun kv => negb (String.eqb (fst kv) "projection")) fs with
               | [] => Ok tt
               | (key, _) :: _ => bad ("unknown __mini key " +:+ Quote key +:+ "; the only key is " +:+ q "projection")
               end
  | _ => Ok tt
  end.
(** The value is encoded and decoded again into a struct. *)
Definition extractProxyControls (value : json) : res route_error projectionMode :=
  match value with
  | JNull => Ok ProjectionUnset
  | _ =>
      let* _ := rejectUnknownControls value in
      let not_object := bad ("__mini must be an object: " +:+ json_error (marshalCompact value)) in
      match value with
      | JObj fs =>
          match members_map fs !! "projection" with
          | None | Some JNull => Ok ProjectionUnset
          | Some (JStr s) =>
              match mode_of s with
              | Some m => Ok m
              | None => bad ("__mini.projection must be " +:+ q "default" +:+ " or " +:+ q "raw" +:+ ", got " +:+ Quote s)
              end
          | Some _ => not_object
          end
      | _ => not_object
      end
  end.
Definition parseProxyRequest (raw : string) : res route_error proxyRequest :=
  if String.eqb raw "" || String.eqb raw "null" then Ok {| p_Args := ∅; p_Controls := ProjectionUnset |}
  else
    let* args := decodeProxyArgs raw in
    let* controls := extractProxyControls (default JNull (args !! "__mini")) in
    Ok {| p_Args := delete "__mini" args; p_Controls := controls |}.
End requests.

(** The parameters of the upstream call; the numbers of the arguments keep their text. *)
Definition params_members (name : string) (args : gmap string json) (m : option ToolCallMRTR) : list (string * string) :=
  [("name", json_string true name); ("arguments", marshalCompact (object args))] ++
  match m with
  | None => []
  | Some m =>
      (if String.eqb (m_Elicitation m) "" then [] else [("_meta", requestMeta_text {| ProtocolVersion := ""; rm_ClientInfo := None; rm_ClientCapabilities := Some {| Elicitation := m_Elicitation m |} |})]) ++
      omit_empty "inputResponses" (m_InputResponses m) ++ omit_empty "requestState" (m_RequestState m)
  end.
Definition ToolCallParams_text (name : string) (args : gmap string json) (m : option ToolCallMRTR) : string :=
  marshal_members true (params_members name args m).

(** ** TOON (proxy_toon.go) *)
Definition encodeToonJSON (raw : string) : res toon_error string := let* v := FromJSON raw in Encode v.
(** TOON renders an empty object as nothing. *)
Definition encodeToonText (raw : string) : option string := match encodeToonJSON raw with Ok text => if String.eqb text "" then None else Some text | Err _ => None end.
Definition toonifyBlock (b : contentBlock) : contentBlock :=
  match Text b with
  | Some text =>
      if negb (String.eqb (Type_ b) "text") then b
      else
        let trimmed := TrimSpace text in
        if negb (json_valid trimmed) then b else match encodeToonText trimmed with Some toon => setText toon b | None => b end
  | None => b
  end.
Definition toonifyProxyResult (built : builtProxyResult) : string :=
  match parseResultDoc (b_Raw built) with
  | None => b_Raw built
  | Some d =>
      let r := d_result d in
      match Content r with
      | [] => b_Raw built
      | blocks =>
          let blocks := imap (fun i b => if Z.of_nat i =? NoticeBlock built then b else toonifyBlock b) blocks in
          compact false (marshal_result {| Content := blocks; StructuredContent := StructuredContent r; hasContent := hasContent r; t_extra := t_extra r |})
      end
  end.

(** ** Calls *)
(** What [errors.Is] and [errors.As] find in the error of a call, and its text. *)
Record call_failure : Type := { f_RPC : option RPCError (* the first *); f_InputRequired : bool; f_ToolReturned : bool; f_Text : string }.
Definition missingCapabilityError (f : call_failure) : option RPCError :=
  match f_RPC f with Some e => if Code e =? CodeMissingRequiredClientCapability then Some e else None | None => None end.
(** [json.Marshal] of an envelope that reports an error: it has no other members. *)
Definition wire_text {data} (w : wire (data := data)) : string := match w with WString s => json_string true s | WBool b => if b then "true" else "false" | _ => "null" end.
Definition envelope_text {data} (e : Envelope (data := data)) : string := marshal_map true (wire_text <$> WireMap e).
Definition error_result {data} (e : Envelope (data := data)) : call_result := EnvelopeResult (negb (String.eqb (EError e) "")) (envelope_text e).

Record proxy_state : Type := { p_Store : Store; p_Sess : Session; p_Latency : gmap string Z; p_Saved : gmap string Z }.
Definition on_sess (f : Session -> Session) (st : proxy_state) : proxy_state := {| p_Store := p_Store st; p_Sess := f (p_Sess st); p_Latency := p_Latency st; p_Saved := p_Saved st |}.
Definition set_store (s : Store) (st : proxy_state) : proxy_state := {| p_Store := s; p_Sess := p_Sess st; p_Latency := p_Latency st; p_Saved := p_Saved st |}.
Definition count (server : string) (n : Z) (m : gmap string Z) : gmap string Z := <[server := wrap64 (default 0 (m !! server) + n)]> m.
Record dispatched : Type := { d_Server : string; d_Tool : string; d_Params : string }.

Section calls.
Variables (json_error Quote : string -> string) (Indent : string -> option string) (markup : string -> string) (env : write_env).
Variables (projections : gmap string (gmap string (option ProjectionConfig))) (defaults : Defaults) (ResponseFormat : string).
(** [lookupTool], the table of the upstreams, and [dispatchRaw]: the answer, the milliseconds it took, and the failure. *)
Variables (lookup : string -> string -> res lookup_error ToolEntry) (connected : string -> bool).
Variable dispatchRaw : dispatched -> Session -> Session * string * Z * option call_failure.

Definition resolveProjection (server tool : string) (session : Session) : option ProjectionConfig :=
  match Sessions.Projection session (toolFullName server tool) with
  | Some p => Some p
  | None =>
      match projections !! server with
      | None => None
      | Some toolMap => match default None (toolMap !! tool) with Some p => Some p | None => default None (toolMap !! "*") end
      end
  end.
Definition usesToon (cfg : option ProjectionConfig) : bool := String.eqb (EffectiveFormat "" (ProjectionFormat cfg) ResponseFormat) FormatToon.
Definition is_raw (m : projectionMode) : bool := match m with ProjectionRaw => true | _ => false end.

Definition proxyResultBytes (controls : projectionMode) (raw : string) (cfg : option ProjectionConfig) (s : Store) : Store * res string string :=
  if is_raw controls then (s, Ok raw)
  else
    match buildProxyResult Indent markup env s raw cfg defaults with
    | (s, Err e) => (s, Err e)
    | (s, Ok built) => (s, Ok (if negb (usesToon cfg) then b_Raw built else toonifyProxyResult built))
    end.
Definition recordSaved (server : string) (latencyMs saved : Z) (st : proxy_state) : proxy_state :=
  {| p_Store := p_Store st; p_Sess := recordCall (p_Sess st) latencyMs saved false; p_Latency := p_Latency st;
     p_Saved := if 0 <? saved then count server saved (p_Saved st) else p_Saved st |}.
Definition proxyRespond (entry : ToolEntry) (server tool : string) (controls : projectionMode) (raw : string) (latencyMs : Z) (st : proxy_state) : proxy_state * res route_error call_result :=
  let cfg := if is_raw controls then None else resolveProjection (Registry.Server entry) tool (p_Sess st) in
  match proxyResultBytes controls raw cfg (p_Store st) with
  | (s, Err e) => (set_store s st, Err (Internal e))
  | (s, Ok out) => (recordSaved server latencyMs (EstimateTokensRaw raw - EstimateTokensRaw out) (set_store s st), Ok (UpstreamResult out))
  end.
Definition proxyToolFailure (m : option ToolCallMRTR) (raw : string) (f : call_failure) : res route_error call_result :=
  match m, missingCapabilityError f with
  | Some _, Some rpc => Err (MissingCapability rpc)
  | _, _ => if f_ToolReturned f then Ok (UpstreamResult raw) else Ok (error_result (BuildError (data := unit) "tool_error" (f_Text f) false ""))
  end.
Definition proxyCallUpstream (server : string) (entry : ToolEntry) (req : proxyRequest) (m : option ToolCallMRTR) (st : proxy_state) : proxy_state * list dispatched * res route_error call_result :=
  if negb (connected server) then (st, [], Err (Internal ("server not connected: " +:+ server)))
  else
    let tool := UpstreamName (EntryName entry) in
    let d := {| d_Server := server; d_Tool := tool; d_Params := ToolCallParams_text tool (p_Args req) m |} in
    let '(s, raw, latencyMs, failure) := dispatchRaw d (p_Sess st) in
    let st := {| p_Store := p_Store st; p_Sess := s; p_Latency := count server latencyMs (p_Latency st); p_Saved := p_Saved st |} in
    match failure with
    | Some f =>
        if f_InputRequired f && match m with Some _ => true | None => false end
        then (on_sess (fun s => recordCall s latencyMs 0 false) st, [d], Ok (UpstreamResult raw))
        else (on_sess (fun s => recordCall s latencyMs 0 true) st, [d], proxyToolFailure m raw f)
    | None => let '(st, r) := proxyRespond entry server tool (p_Controls req) raw latencyMs st in (st, [d], r)
    end.
Definition handleProxyCall (call : toolCallRequest) (st : proxy_state) : proxy_state * list dispatched * res route_error call_result :=
  match parseProxyToolName Quote (t_Name call) with
  | Err why => (st, [], bad why)
  | Ok (server, tool) =>
      match lookup server tool with
      | Err (errServerNotReady env) => (st, [], Ok (error_result env))
      | Err (ErrNotFound msg) => (st, [], bad msg)
      | Ok entry =>
          match parseProxyRequest json_error Quote (t_Arguments call) with
          | Err e => (st, [], Err e)
          | Ok req => proxyCallUpstream server entry req (mrtr call) st
          end
      end
  end.
End calls.

(** ** The tools the server offers *)
Section tools.
Variables (json_error Quote : string -> string) (Indent : string -> option string) (markup : string -> string) (env : write_env).
Variables (projections : gmap string (gmap string (option ProjectionConfig))) (defaults : Defaults) (ResponseFormat : string).
Variables (lookup : string -> string -> res lookup_error ToolEntry) (connected : string -> bool).
Variable dispatchRaw : dispatched -> Session -> Session * string * Z * option call_failure.
(** The read tool and the configuration tool, on their raw arguments. *)
Variables (read : string -> res route_error string) (handleConfigure : string -> Session -> Session * res route_error call_result).

Definition routeTool (call : toolCallRequest) (st : proxy_state) : proxy_state * list dispatched * res route_error call_result :=
  if String.eqb (t_Name call) "config" then let '(s, r) := handleConfigure (t_Arguments call) (p_Sess st) in (on_sess (fun _ => s) st, [], r)
  else if String.eqb (t_Name call) "read" then (st, [], match read (t_Arguments call) with Ok out => Ok (TextResult out) | Err e => Err e end)
  else handleProxyCall json_error Quote Indent markup env projections defaults ResponseFormat lookup connected dispatchRaw call st.

(** What the dispatch relies on: of the state of the server, it sees what becomes of the session. *)
#[local] Instance proxy_tools (store : Store) (latency saved : gmap string Z) (list : res route_error string) : ToolLayer :=
  {| handleToolsList := list;
     routeProxyTool call s := let '(st, _, r) := routeTool call {| p_Store := store; p_Sess := s; p_Latency := latency; p_Saved := saved |} in (p_Sess st, r) |}.
End tools.

(** ** What reaches the upstream *)
Lemma value_part d p v : jvalue d p v -> json_part d p.
Proof.
  intros H. destruct (proj1 grammar_reads _ _ _ H) as [_ Hr]. destruct (Hr (String.length p) "") as [Hs _]; [lia|done|]. rewrite str_app_nil_r in Hs. by eexists.
Qed.
Lemma part_read d raw : json_part d raw -> exists v, decodeJSONValue raw = Some v /\ good d v.
Proof.
  intros [n Hn]. destruct (value_scanned n d raw "" Hn) as (p & v & -> & Hv). rewrite str_app_nil_r. exists v. split; [by eapply value_decoded|by apply (proj1 grammar_good) in Hv].
Qed.
Definition arguments_of (raw : string) : option (gmap string json) :=
  if String.eqb raw "" || String.eqb raw "null" then Some ∅
  else match decodeJSONValue raw with Some (JObj fs) => Some (members_map fs) | Some JNull => Some ∅ | _ => None end.
Lemma arguments_good raw m : part_or_none 1 raw -> arguments_of raw = Some m -> good 1 (object m).
Proof.
  assert (good 1 (object ∅)) as H0 by (apply good_object_map; split; [apply Nat.ltb_lt; reflexivity|apply map_Forall_empty]).
  unfold arguments_of. intros [->|Hp]; [by intros [= <-]|]. destruct (_ || _); [by intros [= <-]|]. destruct (part_read 1 raw Hp) as (v & -> & Hg).
  destruct v as [| | | | |fs]; try done; intros [= <-]; [done|]. apply good_object in Hg as (Hd & Ho & Hf). apply good_object_map. split; [done|]. by apply (members_map_forall (good_member 2)).
Qed.
Lemma without_mini m : good 1 (object m) -> good 1 (object (delete "__mini" m)).
Proof. rewrite !good_object_map. intros [Hd Hm]. split; [done|]. by apply map_Forall_delete. Qed.

(** The raw values of a call are parts of its message. *)
Definition meta_parts (m : RequestMeta) : Prop := match rm_ClientCapabilities m with Some c => part_or_none 3 (Elicitation c) | None => True end.
Lemma capabilities_part old raw c : json_part 2 raw -> part_or_none 3 (Elicitation old) -> into_capabilities old raw = Some c -> part_or_none 3 (Elicitation c).
Proof.
  intros Hp Ho. unfold into_capabilities. destruct (struct_members raw) as [ms|] eqn:E; [|done]. destruct (typed_field into_raw (Elicitation old) "elicitation" ms) as [e|] eqn:Ee; [|done]. intros [= <-]. cbn [Elicitation].
  eapply (typed_field_inv (part_or_none 3) 3); [exact Ho| |by eapply struct_members_part|exact Ee]. intros a r b Hr _ [= <-]. by right.
Qed.
Lemma meta_part old raw m : json_part 1 raw -> meta_parts old -> into_meta old raw = Some m -> meta_parts m.
Proof.
  intros Hp Ho. unfold into_meta. destruct (struct_members raw) as [ms|] eqn:E; [|done]. repeat match goal with |- context [typed_field ?d ?z ?f ms] => destruct (typed_field d z f ms) eqn:? end; try done. intros [= <-].
  unfold meta_parts. cbn [rm_ClientCapabilities].
  eapply (typed_field_inv (fun c => match c with Some c => part_or_none 3 (Elicitation c) | None => True end) 2 (into_pointer into_capabilities {| Elicitation := "" |})); [| |by eapply struct_members_part|eassumption]; [exact Ho|].
  intros a r b Hr Ha. unfold into_pointer. destruct (String.eqb r "null"); [by intros [= <-]|]. destruct (into_capabilities _ r) as [c|] eqn:Ec; [|done]. intros [= <-]. eapply capabilities_part; [exact Hr| |exact Ec]. destruct a; [done|by left].
Qed.
Lemma call_parts json_error params call : parseToolCall json_error params = Ok call ->
  part_or_none 1 (t_Arguments call) /\ part_or_none 1 (InputResponses call) /\ part_or_none 1 (RequestState call) /\ meta_parts (t_Meta call).
Proof.
  unfold parseToolCall, into_call. destruct (struct_members params) as [ms|] eqn:E; [|done]. apply struct_members_parts in E. destruct (string_field "name" ms) as [name|]; [|done]. destruct (typed_field into_meta no_meta "_meta" ms) as [meta|] eqn:Em; [|done].
  cbn [t_Name]. destruct (String.eqb name ""); [done|]. intros [= <-]. cbn [t_Arguments InputResponses RequestState t_Meta]. split_and!; [by apply raw_field_part..|].
  eapply (typed_field_inv meta_parts 1 into_meta no_meta); [exact I| |exact E|exact Em]. intros a r b Hr Ha. by eapply meta_part.
Qed.
Definition mrtr_parts (m : option ToolCallMRTR) : Prop :=
  match m with Some m => part_or_none 1 (m_InputResponses m) /\ part_or_none 1 (m_RequestState m) /\ part_or_none 3 (m_Elicitation m) | None => True end.
Lemma omitted_part d name raw : valid_utf8 name = true -> part_or_none d raw -> Forall (part_member d) (omit_empty name raw).
Proof. intros Hn [->|Hp]; [constructor|]. unfold omit_empty. destruct (String.eqb raw ""); [constructor|]. constructor; [by split|constructor]. Qed.
Lemma sent_parts name args m : good 1 (object args) -> mrtr_parts m -> Forall (part_member 1) (params_members name args m).
Proof.
  intros Ha Hm. unfold params_members. apply Forall_app. split.
  - constructor; [by split; [|apply written_part]|]. constructor; [|constructor]. split; [done|]. by eapply value_part, compact_text.
  - destruct m as [m|]; [|constructor]. destruct Hm as (Hi & Hs & He). apply Forall_app. split; [|apply Forall_app; split; by apply omitted_part]. destruct (String.eqb_spec (m_Elicitation m) "") as [|Hne]; [constructor|]. constructor; [|constructor].
    split; [done|]. unfold requestMeta_text. cbn [ProtocolVersion rm_ClientInfo rm_ClientCapabilities String.eqb app]. apply marshal_part; [apply Nat.ltb_lt; reflexivity|]. constructor; [|constructor]. split; [done|]. cbn [snd].
    unfold clientCapabilities_text. apply marshal_part; [apply Nat.ltb_lt; reflexivity|]. by apply omitted_part.
Qed.
Lemma map_of_skip k r : Forall (fun m => fst m <> k) r -> forall acc : gmap string string, foldl (fun m kv => <[fst kv := snd kv]> m) acc r !! k = acc !! k.
Proof. induction 1 as [|m r Hm _ IH]; intros acc; [done|]. cbn [foldl]. by rewrite IH, lookup_insert_ne. Qed.
(** The arguments the upstream reads. *)
Definition arguments_sent (params : string) (args : json) : Prop :=
  exists fields arguments, unmarshal_map params = Some (Some fields) /\ fields !! "arguments" = Some arguments /\ decodeJSONValue arguments = Some args.
Lemma sent_read name args m : good 1 (object args) -> mrtr_parts m -> arguments_sent (ToolCallParams_text name args m) (object args).
Proof.
  intros Ha Hm. pose proof (sent_parts name args m Ha Hm) as Hp. eexists _, (compact true (marshalCompact (object args))). split; [by apply unmarshal_members|]. split.
  - unfold params_members, map_of. rewrite map_app, foldl_app. rewrite map_of_skip; [done|]. destruct m as [m|]; [|constructor]. unfold omit_empty.
    destruct (String.eqb (m_Elicitation m) ""), (String.eqb (m_InputResponses m) ""), (String.eqb (m_RequestState m) ""); cbn [app map compact_member fst]; by repeat constructor.
  - eapply value_decoded, compact_value, compact_text. exact Ha.
Qed.
(** What [__mini] asks for. *)
Definition mini_mode (original : gmap string json) (mode : projectionMode) : Prop :=
  match original !! "__mini" with
  | None | Some JNull => mode = ProjectionUnset
  | Some (JObj fs) =>
      Forall (fun kv => fst kv = "projection") fs /\
      match members_map fs !! "projection" with
      | None | Some JNull => mode = ProjectionUnset
      | Some (JStr s) => mode_of s = Some mode
      | Some _ => False
      end
  | Some _ => False
  end.

Lemma index_str_split sub : forall s i, index_str s sub = Some i -> s = str_take i s +:+ sub +:+ str_drop (i + String.length sub) s.
Proof.
  induction s as [|c s IH]; intros i; rewrite index_str_unfold; destruct (has_prefix _ sub) eqn:E; try done.
  - intros [= <-]. apply has_prefix_spec in E as [t E]. rewrite E. cbn [str_take Nat.add String.append]. by rewrite str_drop_app_length.
  - intros [= <-]. apply has_prefix_spec in E as [t E]. rewrite E. cbn [str_take Nat.add String.append]. by rewrite str_drop_app_length.
  - destruct (index_str s sub) as [j|] eqn:Ej; [|done]. intros [= <-]. cbn [str_take str_drop Nat.add String.append]. f_equal. by apply IH.
Qed.
Section requests_ok.
Variables (json_error Quote : string -> string).
Lemma controls_ok original mode : extractProxyControls json_error Quote (default JNull (original !! "__mini")) = Ok mode -> mini_mode original mode.
Proof.
  unfold mini_mode. destruct (original !! "__mini") as [v|]; [|by intros [= <-]]. cbn [default id]. destruct v as [| | | | |fs]; try done; [by intros [= <-]|]. unfold extractProxyControls, rejectUnknownControls.
  destruct (List.filter _ fs) as [|[k v] l] eqn:Ef; [|done]. cbn [rbind]. intros H. split.
  - rewrite Forall_forall. intros [k v] Hin%list_elem_of_In. destruct (String.eqb_spec k "projection") as [|Hne]; [done|]. exfalso. assert (In (k, v) (List.filter (fun kv => negb (String.eqb (fst kv) "projection")) fs)) as Hi.
    { apply filter_In. split; [done|]. cbn [fst]. by rewrite (proj2 (String.eqb_neq _ _) Hne). }
    by rewrite Ef in Hi.
  - destruct (members_map fs !! "projection") as [[| | |s| |]|]; try done; try by injection H as <-. destruct (mode_of s); [by injection H as <-|done].
Qed.
Lemma parsed_request_ok raw req : parseProxyRequest json_error Quote raw = Ok req -> exists original, arguments_of raw = Some original /\ p_Args req = delete "__mini" original /\ mini_mode original (p_Controls req).
Proof.
  unfold parseProxyRequest, arguments_of. destruct (_ || _); [intros [= <-]; exists ∅; split_and!; [done|by rewrite delete_empty|done]|]. intros H. inv_ok H. inv_ok H. injection H as <-. cbn [p_Args p_Controls].
  exists v. split; [|split; [done|by eapply controls_ok]]. unfold decodeProxyArgs in E. destruct (decodeJSONValue raw) as [[| | | | |fs]|]; try done; by injection E as <-.
Qed.
Lemma name_split name server tool : parseProxyToolName Quote name = Ok (server, tool) -> name = server +:+ "__" +:+ tool /\ server <> "" /\ tool <> "".
Proof.
  unfold parseProxyToolName. destruct (index_str name "__") as [i|] eqn:E; [|done]. cbv zeta. destruct (String.eqb_spec (str_take i name) ""); [done|]. destruct (String.eqb_spec (str_drop (i + 2) name) ""); [done|]. intros [= <- <-]. split; [|done].
  exact (index_str_split "__" name i E).
Qed.
End requests_ok.

Section proxied.
Variables (json_error Quote : string -> string) (Indent : string -> option string) (markup : string -> string) (env : write_env).
Variables (projections : gmap string (gmap string (option ProjectionConfig))) (defaults : Defaults) (ResponseFormat : string).
Variables (lookup : string -> string -> res lookup_error ToolEntry) (connected : string -> bool).
Variable dispatchRaw : dispatched -> Session -> Session * string * Z * option call_failure.
#[local] Notation handle := (handleProxyCall json_error Quote Indent markup env projections defaults ResponseFormat lookup connected dispatchRaw).

(** One call was made of the tool that was looked up, with the agent's own arguments. *)
Definition forwarded (call : toolCallRequest) (st st' : proxy_state) (d : dispatched) (r : res route_error call_result) : Prop :=
  exists server tool entry original mode s raw latencyMs failure,
    t_Name call = server +:+ "__" +:+ tool /\ lookup server tool = Ok entry /\ connected server = true /\
    d_Server d = server /\ d_Tool d = UpstreamName (EntryName entry) /\
    arguments_of (t_Arguments call) = Some original /\ arguments_sent (d_Params d) (object (delete "__mini" original)) /\ mini_mode original mode /\
    dispatchRaw d (p_Sess st) = (s, raw, latencyMs, failure) /\
    match failure with
    | None => mode = ProjectionRaw -> r = Ok (UpstreamResult raw) /\ p_Store st' = p_Store st
    | Some f =>
        p_Store st' = p_Store st /\
        (f_ToolReturned f = true -> missingCapabilityError f = None -> r = Ok (UpstreamResult raw)) /\
        (forall rpc, r = Err (MissingCapability rpc) -> missingCapabilityError f = Some rpc /\ IsModernVersion (ProtocolVersion (t_Meta call)) = true)
    end.
(** C39: a proxied call reaches at most one upstream, once: the one its name begins with, for the tool that name stands for, with the very arguments of the agent but for __mini, which never leaves mini.  A __mini that says anything but how to project, or says it wrongly, is refused before anything is called.  Asked for raw data, the agent gets the upstream's result as it is, and nothing is stored; an upstream's own failure is passed on as it is too; and an error of a missing capability reaches only an agent of a modern version. *)
Theorem proxied_call params call st st' sent r : parseToolCall json_error params = Ok call -> handle call st = (st', sent, r) ->
  (sent = [] /\ st' = st) \/ exists d, sent = [d] /\ forwarded call st st' d r.
Proof.
  intros Hcall. destruct (call_parts _ _ _ Hcall) as (Hargs & Hi & Hs & Hmeta). unfold handleProxyCall.
  destruct (parseProxyToolName Quote (t_Name call)) as [[server tool]|why] eqn:En; [|intros [= <- <- <-]; by left]. apply name_split in En as (Hname & _).
  destruct (lookup server tool) as [entry|[e|msg]] eqn:El; [|intros [= <- <- <-]; by left..].
  destruct (parseProxyRequest json_error Quote (t_Arguments call)) as [req|e] eqn:Er; [|intros [= <- <- <-]; by left]. apply parsed_request_ok in Er as (original & Ho & Hreq & Hmode).
  unfold proxyCallUpstream. destruct (connected server) eqn:Ec; cbn [negb]; [|intros [= <- <- <-]; by left]. cbv zeta.
  set (d := {| d_Server := server; d_Tool := _; d_Params := _ |}). destruct (dispatchRaw d (p_Sess st)) as [[[s raw] latencyMs] failure] eqn:Ed. intros H. right. exists d.
  assert (arguments_sent (d_Params d) (object (delete "__mini" original))) as Hsent.
  { unfold d. cbn [d_Params]. rewrite Hreq. apply sent_read; [exact (without_mini _ (arguments_good _ _ Hargs Ho))|]. unfold mrtr. destruct (negb _); [done|]. cbn [mrtr_parts m_InputResponses m_RequestState m_Elicitation]. split_and!; [done..|].
    unfold meta_parts in Hmeta. destruct (rm_ClientCapabilities (t_Meta call)); [done|by left]. }
  destruct failure as [f|].
  - assert (sent = [d] /\ p_Store st' = p_Store st /\ (r = Ok (UpstreamResult raw) \/ r = proxyToolFailure (mrtr call) raw f)) as (-> & Hst & Hr).
    { destruct (f_InputRequired f && _); injection H as <- <- <-; auto. }
    split; [done|]. exists server, tool, entry, original, (p_Controls req), s, raw, latencyMs, (Some f). split_and!; try done.
    + intros Ht Hm. destruct Hr as [->| ->]; [done|]. unfold proxyToolFailure. rewrite Hm, Ht. by destruct (mrtr call).
    + intros rpc ->. destruct Hr as [Hr|Hr]; [done|]. unfold proxyToolFailure, mrtr in Hr. destruct (IsModernVersion (ProtocolVersion (t_Meta call))) eqn:Em; cbn [negb] in Hr.
      * destruct (missingCapabilityError f); [by injection Hr as <-|]. by destruct (f_ToolReturned f).
      * by destruct (f_ToolReturned f).
  - destruct (proxyRespond _ _ _ _ _ _ _ _ _ _ _ _ _) as [st2 r2] eqn:Ep. injection H as -> <- ->. split; [done|].
    exists server, tool, entry, original, (p_Controls req), s, raw, latencyMs, None. split_and!; try done. intros Hraw. rewrite Hraw in Ep. unfold proxyRespond, proxyResultBytes in Ep. cbn [is_raw] in Ep. injection Ep as <- <-. done.
Qed.
End proxied.

(** ** Examples *)
Definition sample_entry : ToolEntry := {| Registry.Server := "gh"; EntryName := {| UpstreamName := "issues"; NameAlias := "list" |}; FullName := "gh.list"; Def := {| def_name := "issues"; def_body := "" |} |}.
Definition sample_proxy_state : proxy_state := {| p_Store := {| dir := "/r"; ttl := 1000; budgetBytes := 100000; usedBytes := 0; files := [] |}; p_Sess := newSession 0; p_Latency := ∅; p_Saved := ∅ |}.
Definition sample_answer : string := "{" +:+ q "content" +:+ ": [{" +:+ q "type" +:+ ":" +:+ q "text" +:+ "," +:+ q "text" +:+ ":" +:+ q ("[{\" +:+ q "a\" +:+ ":1,\" +:+ q "b\" +:+ ":[true]},{\" +:+ q "a\" +:+ ":2,\" +:+ q "b\" +:+ ":[]}]") +:+ "}]}".
Definition sample_call (format : string) (params : string) : res route_error (list dispatched * res route_error call_result) :=
  let* call := parseToolCall (fun _ => "bad JSON") params in
  let '(_, sent, r) := handleProxyCall (fun _ => "bad JSON") q Some (fun s => s) {| we_now := 1700000000000000000; we_create := fun _ _ => Created; we_rnd := fun _ => ""; we_remove := fun _ => Removed |} ∅
    {| StringLimit := 100; ContentFields := []; AutoStripThreshold := 1000 |} format
    (fun server tool => if String.eqb server "gh" then Ok sample_entry else Err (ErrNotFound "tool not found: x")) (fun _ => true) (fun d s => (s, sample_answer, 3, None)) call sample_proxy_state in
  Ok (sent, r).
Definition sample_params (arguments : string) : string := "{" +:+ q "name" +:+ ":" +:+ q "gh__list" +:+ "," +:+ q "arguments" +:+ ":" +:+ arguments +:+ "}".
Definition sent_params (arguments : string) : list dispatched := [{| d_Server := "gh"; d_Tool := "issues"; d_Params := "{" +:+ q "name" +:+ ":" +:+ q "issues" +:+ "," +:+ q "arguments" +:+ ":" +:+ arguments +:+ "}" |}].
Definition toon_text : string := "[2]:\n  - a: 1\n    b[1]: true\n  - a: 2\n    b: []".

Example proxy_ex :
  sample_call "json" (sample_params ("{" +:+ q "n" +:+ ": 1.0, " +:+ q "__mini" +:+ ": {" +:+ q "projection" +:+ ":" +:+ q "raw" +:+ "}}")) = Ok (sent_params ("{" +:+ q "n" +:+ ":1.0}"), Ok (UpstreamResult sample_answer)) /\
  sample_call "toon" (sample_params ("{" +:+ q "n" +:+ ": 1.0}")) = Ok (sent_params ("{" +:+ q "n" +:+ ":1.0}"),
    Ok (UpstreamResult ("{" +:+ q "content" +:+ ":[{" +:+ q "type" +:+ ":" +:+ q "text" +:+ "," +:+ q "text" +:+ ":" +:+ q toon_text +:+ "}]}"))) /\
  sample_call "json" (sample_params ("{" +:+ q "__mini" +:+ ": {" +:+ q "projektion" +:+ ":" +:+ q "raw" +:+ "}}")) =
    Ok ([], Err (InvalidParams ("unknown __mini key " +:+ q "projektion" +:+ "; the only key is " +:+ q "projection"))).
Proof. vm_compute. tauto. Qed.

Lemma proxied_call_witness :
  let params := sample_params ("{" +:+ q "n" +:+ ": 1.0, " +:+ q "__mini" +:+ ": {" +:+ q "projection" +:+ ":" +:+ q "raw" +:+ "}}") in
  let lookup := fun server tool => if String.eqb server "gh" then Ok sample_entry else Err (ErrNotFound "tool not found: x") in
  exists call st' sent r, parseToolCall (fun _ => "bad JSON") params = Ok call /\ r = Ok (UpstreamResult sample_answer) /\
    ((sent = [] /\ st' = sample_proxy_state) \/ exists d, sent = [d] /\ forwarded lookup (fun _ => true) (fun d s => (s, sample_answer, 3, None)) call sample_proxy_state st' d r).
Proof.
  intros params lookup. destruct (parseToolCall (fun _ => "bad JSON") params) as [call|e] eqn:Ec; [|by vm_compute in Ec].
  destruct (handleProxyCall (fun _ => "bad JSON") q Some (fun s => s) {| we_now := 0; we_create := fun _ _ => Created; we_rnd := fun _ => ""; we_remove := fun _ => Removed |} ∅
    {| StringLimit := 100; ContentFields := []; AutoStripThreshold := 1000 |} "json" lookup (fun _ => true) (fun d s => (s, sample_answer, 3, None)) call sample_proxy_state) as [[st' sent] r] eqn:Eh.
  exists call, st', sent, r. split; [done|]. split; [|exact (proxied_call (fun _ => "bad JSON") q Some (fun s => s) _ ∅ _ "json" lookup (fun _ => true) (fun d s => (s, sample_answer, 3, None)) params call sample_proxy_state st' sent r Ec Eh)].
  vm_compute in Ec. injection Ec as <-. apply (f_equal snd) in Eh. vm_compute in Eh. by rewrite <- Eh.
Defined.
