(* ===== verification/Proxy.v ===== *)
(** * The stdio bridge to the daemon (src/internal/proxy)

    A session forwards each line as one HTTP request, classifies the outcome, and
    recovers from a dead daemon, a stale token or a lost session.  The environment
    answers requests and Resolve calls; [world] is the state a session keeps, with a
    log of what it did.  The fields that [encoding/json] decodes from a line or a
    response are parameters: the method, the request id, the error message. *)
From S2P Require Import Prelude GoStr Float64 GoStd Content.

(** ** Outcomes of one request *)
Inductive outcomeKind : Type := outcomeOK | outcomeTransportDown | outcomeUnauthorized | outcomeNotInitialized | outcomeOther.
#[global] Instance outcomeKind_eq_dec : EqDecision outcomeKind.
Proof. solve_decision. Defined.

(** The bytes for the agent: nothing, the daemon's own, or a JSON-RPC error for the request's id. *)
Inductive reply : Type := NoReply | RawReply (b : string) | ErrorReply (id msg : string).

Record forwardOutcome : Type := { kind : outcomeKind; resp : reply }.

(** What [newDaemonRequest] and [client.Do] produce. *)
Inductive do_result : Type :=
| BuildFailed (msg : string)
| DoDialError (msg : string)      (* ECONNREFUSED, or an OpError whose Op is dial *)
| DoError (msg : string)
| Response (status : Z) (body : string) (read_error : option string).

Definition readForwardResponse (status : Z) (body : string) (read_error : option string) : res string string :=
  if status =? 202 then Ok ""
  else match read_error with
       | Some e => Err e
       | None => Ok (TrimSpace (str_take (Z.to_nat (64 * 2 ^ 20)) body))
       end.

Section decode.
Context (decode_method : string -> string)                    (* the "method" of a line, or "" *)
        (decode_id : string -> option (string * string))      (* the "id" and "jsonrpc" of a line *)
        (decode_error : string -> option string).             (* the error message of a response *)

Definition NotInitializedMessage : string := "not initialized: send initialize first".

Definition isNotInitialized (resp : string) : bool :=
  if String.eqb resp "" then false
  else match decode_error resp with Some msg => has_prefix msg NotInitializedMessage | None => false end.

Definition daemonErrorResponse (body msg : string) : reply :=
  match decode_id body with
  | Some (id, jsonrpc) => if String.eqb jsonrpc "" then NoReply else ErrorReply id msg
  | None => NoReply
  end.

Definition classifySuccessfulResponse (status : Z) (rbody : string) (read_error : option string) (body : string) : forwardOutcome :=
  match readForwardResponse status rbody read_error with
  | Err e => {| kind := outcomeOther; resp := daemonErrorResponse body ("read daemon response: " +:+ e) |}
  | Ok out =>
      {| kind := if isNotInitialized out then outcomeNotInitialized else outcomeOK;
         resp := if String.eqb out "" then NoReply else RawReply out |}
  end.

Definition classifyResponse (status : Z) (rbody : string) (read_error : option string) (body : string) : forwardOutcome :=
  if status =? 401 then {| kind := outcomeUnauthorized; resp := daemonErrorResponse body "daemon unauthorized" |}
  else if 400 <=? status then
    {| kind := outcomeOther;
       resp := daemonErrorResponse body ("daemon returned HTTP " +:+ itoa status +:+ ": " +:+ TrimSpace (str_take 4096 rbody)) |}
  else classifySuccessfulResponse status rbody read_error body.

Definition classifyForward (answer : do_result) (body : string) : forwardOutcome :=
  match answer with
  | BuildFailed e => {| kind := outcomeOther; resp := daemonErrorResponse body ("build request: " +:+ e) |}
  | DoDialError e => {| kind := outcomeTransportDown; resp := daemonErrorResponse body ("daemon unreachable: " +:+ e) |}
  | DoError e => {| kind := outcomeOther; resp := daemonErrorResponse body ("daemon error: " +:+ e) |}
  | Response status rbody read_error => classifyResponse status rbody read_error body
  end.

(** ** Messages *)
Inductive forwardedMessageKind : Type := forwardedMessageOther | forwardedMessageInitialize | forwardedMessageInitialized.
#[global] Instance forwardedMessageKind_eq_dec : EqDecision forwardedMessageKind.
Proof. solve_decision. Defined.
Record forwardedMessage : Type := { m_line : string; m_kind : forwardedMessageKind }.

Definition NotificationInitialized : string := "notifications/initialized".

Definition classifyForwardedMessage (line : string) : forwardedMessage :=
  {| m_line := line;
     m_kind := if String.eqb (decode_method line) "initialize" then forwardedMessageInitialize
               else if String.eqb (decode_method line) NotificationInitialized then forwardedMessageInitialized
               else forwardedMessageOther |}.

Definition mustForwardSync (m : forwardedMessage) : bool :=
  match m_kind m with forwardedMessageOther => false | _ => true end.

(** ** The session *)
Record linkState : Type := { token : string; generation : Z }.

(** Log entries: a request sent (the message itself or a handshake line) with its token and outcome, a Resolve call. *)
Inductive event : Type :=
| Sent (attempt : bool) (tok : string) (k : outcomeKind)
| Resolved (failedGen : Z).

Record world : Type := {
  link : linkState;
  resolveErr : option string;
  initialized : bool;
  clientReady : bool;
  desired : option linkState;     (* the notification stream's desired state, once bound *)
  log : list event
}.

(** The environment: the answer to the request after [n] log entries, and to a Resolve call. *)
Context (answer : list event -> linkState -> string -> do_result)
        (resolver : option (list event -> res string string))
        (handshake_initialize handshake_initialized : string).

Definition with_log (w : world) (e : event) : world :=
  {| link := link w; resolveErr := resolveErr w; initialized := initialized w; clientReady := clientReady w;
     desired := desired w; log := log w ++ [e] |}.
Definition with_link (w : world) (l : linkState) (err : option string) : world :=
  {| link := l; resolveErr := err; initialized := initialized w; clientReady := clientReady w; desired := desired w; log := log w |}.
Definition with_initialized (w : world) : world :=
  {| link := link w; resolveErr := resolveErr w; initialized := true; clientReady := clientReady w; desired := desired w; log := log w |}.
Definition with_ready (w : world) : world :=
  {| link := link w; resolveErr := resolveErr w; initialized := initialized w; clientReady := true; desired := desired w; log := log w |}.

Definition send (attempt : bool) (w : world) (state : linkState) (line : string) : forwardOutcome * world :=
  let out := classifyForward (answer (log w) state line) line in
  (out, with_log w (Sent attempt (token state) (kind out))).

(** [daemonLink.recover]: the whole call holds the link's mutex. *)
Definition recover (w : world) (failedGen : Z) : linkState * option string * world :=
  let current := link w in
  match resolver with
  | None => (current, resolveErr w, w)
  | Some f =>
      if negb (generation current =? failedGen) then (current, resolveErr w, w)
      else
        let w := with_log (with_link w current None) (Resolved failedGen) in
        match f (log w) with
        | Err e =>
            let next := {| token := token current; generation := generation current + 1 |} in
            (next, Some e, with_link w next (Some e))
        | Ok t =>
            let next := {| token := t; generation := generation current + 1 |} in
            (next, None, with_link w next None)
        end
  end.

Definition recoverLink (w : world) (state : linkState) : option linkState * world :=
  let '(next, err, w) := recover w (generation state) in
  match err with
  | Some _ => (None, w)
  | None => if generation next =? generation state then (None, w) else (Some next, w)
  end.

Definition recoverDaemonLink (w : world) (state : linkState) (k : outcomeKind) : option linkState * world :=
  match k with
  | outcomeNotInitialized => (Some state, w)
  | outcomeTransportDown | outcomeUnauthorized => recoverLink w state
  | outcomeOK | outcomeOther => (None, w)
  end.

(** [notificationStream.Bind]. *)
Definition Bind (desired : option linkState) (state : linkState) : option linkState :=
  match desired with
  | Some d => if generation state <? generation d then Some d else Some state
  | None => Some state
  end.
Definition bindNotifications (w : world) (state : linkState) : world :=
  {| link := link w; resolveErr := resolveErr w; initialized := initialized w; clientReady := clientReady w;
     desired := Bind (desired w) state; log := log w |}.

Definition restoreLifecycle (w : world) (state : linkState) : world :=
  let w := with_initialized w in
  if clientReady w then bindNotifications w state else w.

Definition Handshake (w : world) (state : linkState) : world :=
  snd (send false (snd (send false w state handshake_initialize)) state handshake_initialized).

Definition recoverForwarding (w : world) (state : linkState) (k : outcomeKind) (message : forwardedMessageKind)
    : option linkState * world :=
  if bool_decide (k = outcomeNotInitialized) && bool_decide (message = forwardedMessageInitialize) then (None, w)
  else
    match recoverDaemonLink w state k with
    | (None, w) => (None, w)
    | (Some next, w) =>
        if bool_decide (message = forwardedMessageInitialize) then (Some next, w)
        else (Some next, restoreLifecycle (Handshake w next) next)
    end.

Definition observeSuccessfulLifecycle (w : world) (state : linkState) (message : forwardedMessageKind) (k : outcomeKind) : world :=
  match k with
  | outcomeOK =>
      match message with
      | forwardedMessageInitialize => with_initialized w
      | forwardedMessageInitialized => if initialized w then bindNotifications (with_ready w) state else w
      | forwardedMessageOther => w
      end
  | _ => w
  end.

Definition maxRecoveryAttempts : nat := 3.

(** The loop of [forward]: [left] attempts remain; the result is the last state and outcome. *)
Fixpoint forward_from (left : nat) (w : world) (state : linkState) (message : forwardedMessage)
    : linkState * forwardOutcome * world :=
  let '(out, w) := send true w state (m_line message) in
  match kind out with
  | outcomeOK | outcomeOther => (state, out, w)
  | _ =>
      match recoverForwarding w state (kind out) (m_kind message), left with
      | (Some next, w), S (S _ as left') => forward_from left' w next message
      | (_, w), _ => (state, out, w)
      end
  end.

Definition forward (w : world) (message : forwardedMessage) : reply * world :=
  let '(state, out, w) := forward_from maxRecoveryAttempts w (link w) message in
  (resp out, observeSuccessfulLifecycle w state (m_kind message) (kind out)).

(** [recoveryBackoff << attempt], halved, plus a random share of the other half ([r] is the random number). *)
Definition recoveryBackoff : Z := 50 * 1000000.
Definition jitteredBackoff (attempt r : Z) : Z :=
  let base := Z.shiftl recoveryBackoff attempt in base / 2 + r mod (base / 2 + 1).
End decode.

(** ** The line writer *)
Record lineWriter : Type := { written : string; werr : option string }.

(** [fails]: what the underlying writer answers for this line. *)
Definition writeLine (w : lineWriter) (line : string) (fails : option string) : lineWriter * option string :=
  match werr w with
  | Some e => (w, Some e)
  | None =>
      match fails with
      | Some e => ({| written := written w; werr := Some e |}, Some e)
      | None => ({| written := written w +:+ line +:+ newline; werr := None |}, None)
      end
  end.

(** ** Subscriptions: the listens a modern agent holds *)
Record subscriptions : Type := { modern : bool; ids : gmap string string }.

(** [write_error]: the outcome of writing the acknowledgement. *)
Definition acknowledge (s : subscriptions) (id : string) (toolsListChanged : bool) (write_error : option string)
    : subscriptions * option string :=
  match write_error with
  | Some e => (s, Some e)
  | None => (if toolsListChanged then {| modern := modern s; ids := <[id := id]> (ids s) |} else s, None)
  end.

Definition remove (s : subscriptions) (id : string) : subscriptions * bool :=
  match ids s !! id with
  | None => (s, false)
  | Some _ => ({| modern := modern s; ids := delete id (ids s) |}, true)
  end.

(** ** Lemmas *)
Section props.
Context (decode_id : string -> option (string * string)) (decode_error : string -> option string)
        (answer : list event -> linkState -> string -> do_result) (resolver : option (list event -> res string string))
        (hs1 hs2 : string).
Abbreviation Fsend := (send decode_id decode_error answer).
Abbreviation Frecover := (recover resolver).
Abbreviation Fforwarding := (recoverForwarding decode_id decode_error answer resolver hs1 hs2).
Abbreviation Ffrom := (forward_from decode_id decode_error answer resolver hs1 hs2).
Abbreviation Fforward := (forward decode_id decode_error answer resolver hs1 hs2).

Definition is_attempt (e : event) : bool := match e with Sent true _ _ => true | _ => false end.
Definition retriable (k : outcomeKind) : Prop := k <> outcomeOK /\ k <> outcomeOther.
Fixpoint resolved_gens (l : list event) : list Z :=
  match l with
  | [] => []
  | Resolved g :: l => g :: resolved_gens l
  | Sent _ _ _ :: l => resolved_gens l
  end.

(** What every operation keeps: the stream never runs ahead of the link, and it is bound only for a ready client. *)
Record session_ok (w : world) : Prop := {
  so_desired : forall d, desired w = Some d -> generation d <= generation (link w) /\ clientReady w = true;
  so_ready : clientReady w = true -> initialized w = true
}.

(** The link moves by one generation per Resolve, and the log records each generation once, in order. *)
Definition link_step (w w' : world) : Prop :=
  exists new, log w' = log w ++ new /\ generation (link w') = generation (link w) + Z.of_nat (length (resolved_gens new)) /\
    resolved_gens new = map (fun i => generation (link w) + Z.of_nat i) (seq 0 (length (resolved_gens new))).

Lemma link_step_refl w : link_step w w.
Proof. exists []. rewrite app_nil_r. simpl. split_and!; [done|lia|done]. Qed.

Lemma resolved_gens_app a b : resolved_gens (a ++ b) = resolved_gens a ++ resolved_gens b.
Proof. induction a as [|[att tok k|g] a IH]; [done|done|]. cbn. by rewrite IH. Qed.

Lemma map_seq_shift g n k s : map (fun i => g + Z.of_nat n + Z.of_nat i) (seq s k) = map (fun i => g + Z.of_nat i) (seq (n + s) k).
Proof.
  revert s. induction k as [|k IH]; intros s; [done|]. cbn [seq map]. rewrite IH. f_equal; [lia|]. do 2 f_equal. lia.
Qed.

Lemma link_step_trans a b c : link_step a b -> link_step b c -> link_step a c.
Proof.
  intros (n1 & H1 & H2 & H3) (n2 & H4 & H5 & H6). exists (n1 ++ n2). rewrite resolved_gens_app, length_app. split_and!.
  - by rewrite H4, H1, app_assoc.
  - lia.
  - rewrite seq_app, map_app, <- H3. f_equal. rewrite H6 at 1. rewrite H2, map_seq_shift. do 2 f_equal. lia.
Qed.

Lemma link_step_same w w' new : log w' = log w ++ new -> link w' = link w -> resolved_gens new = [] -> link_step w w'.
Proof. intros H1 H2 H3. exists new. rewrite H2, H3. simpl. split_and!; [done|lia|done]. Qed.

Lemma recover_step w g : link_step w (snd (Frecover w g)).
Proof.
  unfold recover. destruct resolver as [f|]; [|apply link_step_refl].
  destruct (Z.eqb_spec (generation (link w)) g) as [<-|]; [|apply link_step_refl]. cbn [negb].
  destruct (f _); cbn; eexists [_]; cbn; (split_and!; [done|cbn; lia|cbn; by rewrite Z.add_0_r]).
Qed.

Lemma recover_result w g : let '(next, err, w') := Frecover w g in
  next = link w' /\ (session_ok w -> session_ok w') /\ clientReady w' = clientReady w /\
  exists new, log w' = log w ++ new /\ forallb (fun e => negb (is_attempt e)) new = true.
Proof.
  unfold recover. destruct resolver as [f|]; [|split_and!; [done..|by exists []; rewrite app_nil_r]].
  destruct (Z.eqb_spec (generation (link w)) g) as [<-|]; [|cbn [negb]; split_and!; [done..|by exists []; rewrite app_nil_r]]. cbn [negb].
  destruct (f _); cbn; (split_and!; [done| |done|by eexists [_]]); intros [H1 H2]; (split; cbn; [|done]);
    intros d Hd; destruct (H1 d Hd); split; [lia|done|lia|done].
Qed.

Lemma forwarding_spec w state k m : let '(next, w') := Fforwarding w state k m in
  link_step w w' /\ (exists new, log w' = log w ++ new /\ forallb (fun e => negb (is_attempt e)) new = true) /\
  (session_ok w -> generation state <= generation (link w) -> session_ok w' /\ forall n, next = Some n -> generation n <= generation (link w')) /\
  (next <> None -> retriable k).
Proof.
  unfold recoverForwarding. destruct (_ && _) eqn:Enot.
  { split_and!; [apply link_step_refl|by exists []; rewrite app_nil_r|intros ? _; by split|done]. }
  assert (forall w1 s1, session_ok w1 -> generation s1 <= generation (link w1) ->
    session_ok (restoreLifecycle (Handshake decode_id decode_error answer hs1 hs2 w1 s1) s1)) as Hrestore.
  { intros w1 s1 [H1 H2] Hg. unfold restoreLifecycle, Handshake, send, bindNotifications. cbn. destruct (clientReady w1) eqn:Ec; split; cbn; try done.
    - intros d Hd. split; [|done]. unfold Bind in Hd. destruct (desired w1) as [d1|] eqn:Ed; [|injection Hd as <-; done].
      destruct (generation s1 <? generation d1); injection Hd as <-; [by apply H1|done].
    - intros d Hd. by destruct (H1 d Hd). }
  assert (forall w1 s1, exists new, log (restoreLifecycle (Handshake decode_id decode_error answer hs1 hs2 w1 s1) s1) = log w1 ++ new /\
    forallb (fun e => negb (is_attempt e)) new = true /\ resolved_gens new = []) as Hlog.
  { intros w1 s1. unfold restoreLifecycle, Handshake, send, bindNotifications. cbn. destruct (clientReady w1); cbn; eexists [_; _]; by rewrite <- app_assoc. }
  assert (forall w1 s1, link (restoreLifecycle (Handshake decode_id decode_error answer hs1 hs2 w1 s1) s1) = link w1) as Hlink.
  { intros w1 s1. unfold restoreLifecycle, Handshake, send, bindNotifications. cbn. by destruct (clientReady w1). }
  assert (forall w1 s1, link_step w1 (restoreLifecycle (Handshake decode_id decode_error answer hs1 hs2 w1 s1) s1)) as Hstep.
  { intros w1 s1. destruct (Hlog w1 s1) as (new & H1 & _ & H2). by apply (link_step_same _ _ new). }
  assert (forall next w1, (next = None \/ True) -> link_step w w1 -> (exists new, log w1 = log w ++ new /\ forallb (fun e => negb (is_attempt e)) new = true) ->
    (session_ok w -> generation state <= generation (link w) -> session_ok w1 /\ forall n, next = Some n -> generation n <= generation (link w1)) ->
    (next <> None -> retriable k) ->
    let '(r, w') := match next with
      | None => (None, w1)
      | Some n => if bool_decide (m = forwardedMessageInitialize) then (Some n, w1)
                  else (Some n, restoreLifecycle (Handshake decode_id decode_error answer hs1 hs2 w1 n) n) end in
    link_step w w' /\ (exists new, log w' = log w ++ new /\ forallb (fun e => negb (is_attempt e)) new = true) /\
    (session_ok w -> generation state <= generation (link w) -> session_ok w' /\ forall n, r = Some n -> generation n <= generation (link w')) /\
    (r <> None -> retriable k)) as Hfin.
  { intros [n|] w1 _ H1 (new & H2 & H3) H4 H5; [|cbv beta iota; split_and!; eauto]. destruct (bool_decide (m = forwardedMessageInitialize)); cbv beta iota; [split_and!; eauto|]. split_and!.
    - by eapply link_step_trans.
    - destruct (Hlog w1 n) as (new' & E1 & E2 & _). exists (new ++ new'). rewrite E1, H2, app_assoc, forallb_app, H3, E2. done.
    - intros Hok Hg. destruct (H4 Hok Hg) as [Hok1 Hn]. split; [apply Hrestore; auto|]. intros n' [= <-]. rewrite Hlink. auto.
    - done. }
  unfold recoverDaemonLink, recoverLink.
  assert (retriable k -> forall w1 err next, Frecover w (generation state) = (next, err, w1) ->
    let '(r, w') := match (match err with Some _ => (None, w1) | None => if generation next =? generation state then (None, w1) else (Some next, w1) end) with
      | (None, w) => (None, w)
      | (Some n, w) => if bool_decide (m = forwardedMessageInitialize) then (Some n, w)
                  else (Some n, restoreLifecycle (Handshake decode_id decode_error answer hs1 hs2 w n) n) end in
    link_step w w' /\ (exists new, log w' = log w ++ new /\ forallb (fun e => negb (is_attempt e)) new = true) /\
    (session_ok w -> generation state <= generation (link w) -> session_ok w' /\ forall n, r = Some n -> generation n <= generation (link w')) /\
    (r <> None -> retriable k)) as Hrec.
  { intros Hk w1 err next E. pose proof (recover_step w (generation state)) as Hs. pose proof (recover_result w (generation state)) as Hr.
    rewrite E in Hs, Hr. cbn in Hs. destruct Hr as (-> & Hok & _ & Hl).
    destruct err as [e|]; [apply (Hfin None w1); auto; intros; by split; [auto|]|].
    destruct (generation (link w1) =? generation state); [apply (Hfin None w1); auto; intros; by split; [auto|]|].
    apply (Hfin (Some (link w1)) w1); auto. intros Ho _. split; [auto|]. by intros n [= <-]. }
  destruct k.
  - apply (Hfin None w); [by left|apply link_step_refl|by exists []; rewrite app_nil_r|intros; by split|done].
  - destruct (Frecover w (generation state)) as [[next err] w1] eqn:E. apply (Hrec ltac:(done) w1 err next eq_refl).
  - destruct (Frecover w (generation state)) as [[next err] w1] eqn:E. apply (Hrec ltac:(done) w1 err next eq_refl).
  - apply (Hfin (Some state) w); [by right|apply link_step_refl|by exists []; rewrite app_nil_r| |done].
    intros Hok Hg. split; [done|]. by intros n [= <-].
  - apply (Hfin None w); [by left|apply link_step_refl|by exists []; rewrite app_nil_r|intros; by split|done].
Qed.

(** The attempts of a run of [forward]: the retried ones, then the last. *)
Definition attempts_ok (new : list event) (left : nat) (out : forwardOutcome) : Prop :=
  exists retried last_tok, List.filter is_attempt new = retried ++ [Sent true last_tok (kind out)] /\ (length retried < left)%nat /\
    Forall (fun e => exists tok k, e = Sent true tok k /\ retriable k) retried.

Lemma no_attempts new : forallb (fun e => negb (is_attempt e)) new = true -> List.filter is_attempt new = [].
Proof.
  induction new as [|e new IH]; [done|]. cbn. intros [He Hn]%andb_true_iff. apply negb_true_iff in He. rewrite He. auto.
Qed.

(** A run that stops after its first attempt, and one that goes on after a recovery. *)
Lemma attempts_stop new tok out left : forallb (fun e => negb (is_attempt e)) new = true ->
  attempts_ok (Sent true tok (kind out) :: new) (S left) out.
Proof.
  intros Hn. exists [], tok. cbn [List.filter is_attempt]. rewrite no_attempts by done. split_and!; [done|simpl; lia|constructor].
Qed.

Lemma attempts_more new1 new2 tok k out left : forallb (fun e => negb (is_attempt e)) new1 = true -> retriable k ->
  attempts_ok new2 left out -> attempts_ok (Sent true tok k :: new1 ++ new2) (S left) out.
Proof.
  intros Hn Hk (retried & last_tok & Hf & Hl & Hr). exists (Sent true tok k :: retried), last_tok.
  cbn [List.filter is_attempt]. rewrite List.filter_app, no_attempts by done. cbn [app]. rewrite Hf. split_and!; [done|simpl; lia|].
  constructor; [by exists tok, k|done].
Qed.

Definition run_ok (w : world) (state : linkState) (m : forwardedMessage) (left : nat) (r : linkState * forwardOutcome * world) : Prop :=
  let '(st, out, w') := r in
  link_step w w' /\ (exists new, log w' = log w ++ new /\ attempts_ok new left out) /\
  (exists l s, out = classifyForward decode_id decode_error (answer l s (m_line m)) (m_line m)) /\
  (session_ok w -> generation state <= generation (link w) -> session_ok w' /\ generation st <= generation (link w')).

Lemma run_stop w state m left w2 :
  let out := classifyForward decode_id decode_error (answer (log w) state (m_line m)) (m_line m) in
  let w1 := with_log w (Sent true (token state) (kind out)) in
  link_step w1 w2 -> (exists new, log w2 = log w1 ++ new /\ forallb (fun e => negb (is_attempt e)) new = true) ->
  (session_ok w1 -> generation state <= generation (link w1) -> session_ok w2) ->
  run_ok w state m (S left) (state, out, w2).
Proof.
  intros out w1 Hs (new & E & Hn) Hok.
  assert (link_step w w1) as Hs1 by by apply (link_step_same _ _ [Sent true (token state) (kind out)]).
  assert (link_step w w2) as Hs2 by by eapply link_step_trans.
  split_and!; [done| |by eexists _, _|].
  - exists (Sent true (token state) (kind out) :: new). split; [|by apply attempts_stop].
    rewrite E. cbn. by rewrite <- app_assoc.
  - intros [H1 H2] Hg. split; [apply Hok; [by split|done]|]. destruct Hs2 as (n & _ & Hgen & _). lia.
Qed.

Lemma run_more w state m left n w2 r :
  let out := classifyForward decode_id decode_error (answer (log w) state (m_line m)) (m_line m) in
  let w1 := with_log w (Sent true (token state) (kind out)) in
  link_step w1 w2 -> (exists new, log w2 = log w1 ++ new /\ forallb (fun e => negb (is_attempt e)) new = true) ->
  retriable (kind out) ->
  (session_ok w1 -> generation state <= generation (link w1) -> session_ok w2 /\ generation n <= generation (link w2)) ->
  run_ok w2 n m left r -> run_ok w state m (S left) r.
Proof.
  intros out w1 Hs (new & E & Hn) Hk Hok. destruct r as [[st out'] w']. intros (Hs' & (new' & E' & Ha) & Ho & Hok').
  assert (link_step w w1) as Hs1 by by apply (link_step_same _ _ [Sent true (token state) (kind out)]).
  split_and!; [eapply link_step_trans; [done|by eapply link_step_trans]| |done|].
  - exists (Sent true (token state) (kind out) :: new ++ new'). split; [|by apply attempts_more].
    rewrite E', E. cbn. by rewrite <- !app_assoc.
  - intros [H1 H2] Hg. destruct Hok as [Hok2 Hn2]; [by split|done|]. by apply Hok'.
Qed.

Lemma forward_from_spec left : forall w state m, run_ok w state m (S left) (Ffrom (S left) w state m).
Proof.
  induction left as [|left IH]; intros w state m;
    cbn [forward_from]; unfold send at 1;
    set (out := classifyForward decode_id decode_error (answer (log w) state (m_line m)) (m_line m));
    set (w1 := with_log w (Sent true (token state) (kind out)));
    pose proof (run_stop w state m) as Hstop; cbv zeta in Hstop; fold out w1 in Hstop;
    pose proof (run_more w state m) as Hmore; cbv zeta in Hmore; fold out w1 in Hmore;
    pose proof (forwarding_spec w1 state (kind out) (m_kind m)) as Hf;
    destruct (kind out) eqn:Ek;
    try (apply Hstop; [apply link_step_refl|by exists []; rewrite app_nil_r|done]);
    destruct (Fforwarding w1 state _ (m_kind m)) as [next w2]; destruct Hf as (H1 & H2 & H3 & H4);
    destruct next as [n|]; try (apply Hstop; [done|done|intros; by apply H3]).
  all: apply (Hmore (S left) n w2); [done|done|by apply H4| |apply IH]; intros Ho Hg; destruct (H3 Ho Hg) as [? Hn]; auto.
Qed.

Lemma session_ok_observe w state mk k : session_ok w -> generation state <= generation (link w) ->
  session_ok (observeSuccessfulLifecycle w state mk k) /\ link (observeSuccessfulLifecycle w state mk k) = link w /\
  log (observeSuccessfulLifecycle w state mk k) = log w.
Proof.
  intros Hok Hg. destruct k; [|by split_and!..]. destruct mk; cbn; [by split_and!| |].
  - destruct Hok as [H1 H2]. split_and!; [|done|done]. split; cbn; [done|auto].
  - destruct (initialized w) eqn:Ei; [|by split_and!]. destruct Hok as [H1 H2]. split_and!; [|done|done]. split; cbn; [|done]. intros d Hd. split; [|done].
    unfold Bind in Hd. destruct (desired w) as [d1|] eqn:Ed; [|injection Hd as <-; done].
    destruct (generation state <? generation d1); injection Hd as <-; [by apply H1|done].
Qed.
End props.

(** ** Properties *)


Definition sample_world : world :=
  {| link := {| token := "t0"; generation := 0 |}; resolveErr := None; initialized := true; clientReady := true;
     desired := Some {| token := "t0"; generation := 0 |}; log := [] |}.
Definition sample_answer (l : list event) (s : linkState) (line : string) : do_result :=
  if String.eqb (token s) "t0" then DoDialError "refused" else Response 200 "{}" None.


(** Whoever calls recover, in whatever order and for whatever generation, the daemon is resolved at most once per generation: the generations resolved are consecutive, and the link's generation counts them; after a recover for the current generation the link has moved on or self-healing is off. *)
Theorem resolve_once_per_generation resolver w gens :
  let w' := foldl (fun w g => snd (recover resolver w g)) w gens in
  exists new, log w' = log w ++ new /\
    resolved_gens new = map (fun i => generation (link w) + Z.of_nat i) (seq 0 (length (resolved_gens new))) /\
    NoDup (resolved_gens new) /\ generation (link w') = generation (link w) + Z.of_nat (length (resolved_gens new)) /\
    (is_Some resolver -> forall g, g = generation (link w') -> generation (link (snd (recover resolver w' g))) = g + 1).
Proof.
  cbv zeta. assert (forall gens w, link_step w (foldl (fun w g => snd (recover resolver w g)) w gens)) as H.
  { clear. induction gens as [|g gens IH]; intros w; [apply link_step_refl|]. cbn [foldl].
    eapply link_step_trans; [apply recover_step|apply IH]. }
  destruct (H gens w) as (new & H1 & H2 & H3). exists new. split_and!; [done|done| |done|].
  - rewrite H3. apply NoDup_fmap_2_strong; [|apply NoDup_seq]. intros x y _ _ Hxy. lia.
  - intros [f Hf] g ->. rewrite Hf. unfold recover. rewrite Z.eqb_refl. cbn [negb]. by destruct (f _).
Qed.

Lemma resolve_once_per_generation_witness :
  let w' := foldl (fun w g => snd (recover (Some (fun _ => Ok "t")) w g)) sample_world [0; 0; 1; 0] in
  resolved_gens (log w') = [0; 1] /\ generation (link (snd (recover (Some (fun _ => Ok "t")) w' 2))) = 2 + 1.
Proof.
  split; [reflexivity|].
  destruct (resolve_once_per_generation (Some (fun _ => Ok "t")) sample_world [0; 0; 1; 0]) as (new & _ & _ & _ & _ & H).
  apply (H ltac:(by eexists) 2). reflexivity.
Defined.

(** A session's lifecycle stays consistent through every forward: the notification stream is bound only for a client that completed initialization, and to a generation the link has reached; a late bind never moves it back. *)
Theorem forward_keeps_session decode_id decode_error answer resolver hs1 hs2 w m :
  session_ok w -> session_ok (snd (forward decode_id decode_error answer resolver hs1 hs2 w m)) /\
  generation (link w) <= generation (link (snd (forward decode_id decode_error answer resolver hs1 hs2 w m))) /\
  forall d state, exists d', Bind (Some d) state = Some d' /\ generation d' = Z.max (generation d) (generation state).
Proof.
  intros Hok. unfold forward. pose proof (forward_from_spec decode_id decode_error answer resolver hs1 hs2 2 w (link w) m) as Hr.
  change (S 2) with maxRecoveryAttempts in Hr. destruct (forward_from _ _ _ _ _ _ _ _ _ _) as [[st out] w1].
  destruct Hr as ((new & _ & Hg & _) & _ & _ & Hs). destruct (Hs Hok ltac:(lia)) as [Hok1 Hst].
  destruct (session_ok_observe w1 st (m_kind m) (kind out) Hok1 Hst) as (H1 & H2 & H3). cbn [snd]. rewrite H2.
  split_and!; [done|lia|]. intros d state. unfold Bind. destruct (Z.ltb_spec (generation state) (generation d)); eexists; (split; [done|lia]).
Qed.

Lemma forward_keeps_session_witness :
  session_ok (snd (forward (fun _ => None) (fun _ => None) sample_answer (Some (fun _ => Ok "t1")) "i" "n" sample_world
    {| m_line := "call"; m_kind := forwardedMessageOther |})).
Proof.
  apply (forward_keeps_session (fun _ => None) (fun _ => None) sample_answer (Some (fun _ => Ok "t1")) "i" "n" sample_world).
  split; [|done]. intros d [= <-]. split; [simpl; lia|reflexivity].
Defined.
